(* ===== verification/_CoqProject ===== *)
-Q . S2P
Prelude.v
Core.v
ReadBuffer.v
Transport.v
Framing.v
Unicode.v
PacketReader.v
Reader.v
ReaderLaws.v
PacketWriter.v
Writer.v
WriterText.v
WriterMessage.v
Tokens.v
TokenParsers.v
TokenLaws.v
TokenLayouts.v
TokenSafety.v
Prelogin.v
PreloginLaws.v
Session.v
SessionRecovery.v
SessionRecoveryLaws.v
Requests.v
SqlIdentifier.v
DataClassification.v
DataClassificationLaws.v
DataTypes.v
ColMetadata.v
Values.v
Plp.v
PlpLaws.v
Decoder.v
DecoderLaws.v
ColMetadataLaws.v
BufferedDecoder.v
BufferedDecoderLaws.v
RowWriter.v
RowDecoder.v
ListReader.v
RowLaws.v
Rows.v
RowDriver.v
RowDriverLaws.v
RowCursorLaws.v
RowSafety.v
NbcBitmap.v
BufferedRows.v
Decimal.v
NarrowText.v
ValueSerializer.v
ValueWriting.v
ValueRoundTrip.v
VariantRoundTrip.v
ValueLaws.v
Text.v
DataSource.v
HostPolicy.v
ClientContext.v
Features.v
Login.v
FeatureLaws.v
LoginLaws.v
LoginLayout.v
LoginResponse.v
LoginResponseLaws.v
DataSourceLaws.v
ConnectionActions.v
Ssrp.v
SsrpLaws.v
Provider.v
ProviderLaws.v
SessionHandler.v
SessionHandlerLaws.v
SqlTypes.v
SqlTypeLaws.v
Rpc.v
RpcLaws.v
CellEncryption.v
Bulk.v
