(* ===== verification/Prelude.v ===== *)
(** * Verification of the TDS protocol core of mssql-rs

    mssql-rs is a client for SQL Server.  Its core crate, src/mssql-tds, turns requests into
    packets of the TDS protocol, sends them, and turns the server's packets into tokens and
    rows, on which the login sequence, the query client and the language bindings are built.
    This library models that core, from the data source string and the connection it opens, over
    the login, down to the packets on the socket and up to the rows, the requests and the session
    state, and proves it correct.

    ** Parts and files

    The read side.
    - ReadBuffer: [TdsReadBuffer] of connection/transport/buffers.rs.
    - Transport: [NetworkTransport] of connection/transport/network_transport.rs, with the
      framing of packets and the methods of the trait [TdsPacketReader]; the module [Net] holds
      those methods, whose names are also the trait's.
    - Framing: the specification [next_packet] of one packet on a byte stream, and the proof that
      [read_tds_packet] refines it.
    - PacketReader: the trait of io/packet_reader.rs as a class, with two classes of laws.
      [PacketReaderLaws] says that the bytes a reader delivers come out in order; [SafeReader]
      says what holds on any input.  A plain byte list is one instance.
    - Reader, ReaderLaws: the transport as an instance of both.

    The write side.
    - PacketWriter: io/packet_writer.rs, with deadlines, cancellation and parked messages.
    - Writer, WriterText, WriterMessage: the relation [emits] between an operation and the bytes
      it adds to the message, the text encoder, whole messages.

    What is carried.
    - Core, Unicode: core.rs, message/messages.rs and the text encodings.
    - Tokens, TokenParsers: token/ and the parsers of the control tokens, with the dispatch of
      io/token_stream.rs; TokenLaws, TokenLayouts and TokenSafety prove them.
    - DataClassification, DataClassificationLaws: the sensitivity metadata and its parser.
    - Prelogin, PreloginLaws: message/prelogin.rs, both directions.
    - Session: connection/execution_context.rs and the settings of handler/handler_factory.rs.
    - SessionRecovery, SessionRecoveryLaws: connection/session_recovery.rs and
      message/features/session_recovery.rs.
    - Requests: message/headers.rs, batch.rs, attention.rs and transaction_management.rs.
    - SqlIdentifier: sql_identifier.rs.

    Rows.
    - DataTypes, ColMetadata, ColMetadataLaws: the type descriptions of datatypes/sqldatatypes.rs,
      the column metadata of query/metadata.rs and the COLMETADATA parser.
    - Values, Decimal: datatypes/column_values.rs, sql_string.rs, sql_json.rs, sql_vector.rs, and
      [DecimalParts] of datatypes/decoder.rs.
    - Plp, PlpLaws: the two readers of values sent in chunks, [read_plp_bytes] and
      [PlpChunkStreamReader], of decoder.rs.
    - Decoder, BufferedDecoder, RowDecoder: the four decoders of decoder.rs, which return a value
      or write it, awaiting or from buffered bytes; RowWriter has the trait they write to
      (datatypes/row_writer.rs) with its laws and two implementations.
    - Rows: the parsers of ROW, NBCROW and RETURNVALUE.  RowDriver: [drive_row_columns] of
      io/token_stream.rs with its pause states and the PLP cursor.  NbcBitmap: the shared null
      bitmap.  BufferedRows: the transport's reads of rows from its buffer.
    - DecoderLaws, BufferedDecoderLaws, ListReader, RowLaws, RowDriverLaws, RowCursorLaws,
      RowSafety: their theorems.  ListReader has the relation
      [lists] between a run on a byte list and a run on any lawful reader, by which the row
      theorems are proved once for all readers.

    Values written.
    - NarrowText: the code pages of datatypes/lcid_encoding.rs, token/tokens.rs and
      datatypes/sql_string/encoding.rs, and the text conversions of datatypes/sql_string.rs.
    - ValueSerializer: datatypes/tds_value_serializer.rs.  ValueWriting has what each serializer
      appends, ValueRoundTrip and VariantRoundTrip what the decoder makes of it, ValueLaws the
      theorems on both.

    Calls.
    - SqlTypes: the values of parameters, datatypes/sqltypes.rs, with table-valued parameters
      (sql_tvp.rs) and the names of CLR types (sql_udt.rs).  [to_column_value_and_context] turns
      one into what ValueSerializer writes.  SqlTypeLaws: their TYPE_INFO and values are read back.
    - Rpc: the parameter of message/parameters/rpc_parameters.rs and the request of message/rpc.rs.
      RpcLaws has a reader of requests, [read_command], and [puts], the effect of a write that stays
      inside the packet, by which the two ways to write a command are compared.

    Always Encrypted and bulk load.
    - CellEncryption: security/encryption/, the normal forms of values and the cipher that seals
      them.  The class [CryptoBackend] is the platform's AES and HMAC, [CryptoLaws] what is relied on.
    - Bulk: datatypes/bulk_copy_metadata.rs and message/bulk_load.rs, the descriptions of destination
      columns and the writer that streams rows, with a reader of the stream made of the parsers.

    Connecting and logging in.
    - Text: the operations on [str] that the parsers use, with their panics.
    - DataSource, DataSourceLaws: the data source strings of connection/datasource_parser.rs, and a
      grammar that splits the text instead of keeping offsets into a copy of it.
    - HostPolicy, ClientContext: connection/multi_subnet_failover.rs, client_context.rs
      with the option bytes of message/login_options.rs, and dns_cache.rs.
    - ConnectionActions: connection/connection_actions.rs, the chain of actions a source becomes.
    - Ssrp, SsrpLaws: ssrp.rs, the protocol of the SQL Server Browser.
    - Provider, ProviderLaws: connection_provider/tds_connection_provider.rs with the cache of
      connection/instance_cache.rs.  The class [Dialer] is what it needs of the world: a clock,
      timeouts, the browser, and opening one transport.
    - Features, FeatureLaws: message/features/ and the set of them that one login carries.
    - Login, LoginLaws, LoginLayout: the LOGIN7 request of message/login.rs, and a reader of its
      record.  LoginResponse, LoginResponseLaws: the answer.
    - SessionHandler, SessionHandlerLaws: handler/handler_factory.rs and sspi_handler.rs, the
      sequence of PRELOGIN, handshake, LOGIN7 and authentication.  The class [ReaderWriter] is the
      transport with the reads modelled in Prelogin and LoginResponse.

    ** How the code is represented

    A [&mut self] method that returns [TdsResult] is a function of the monad [M] below: from a
    state to a result and the state after it, where an error keeps the state it was raised in.  A
    panic is a result of its own, so that its absence is a theorem.  Structs are records under the
    source's field names, enums are inductive types.  An integer is a [Z], with the wrap-around of
    [as] casts and wrapping arithmetic written out ([as_u8], [as_u32], ...).  Checked arithmetic that
    would overflow is a panic, as in a build with overflow checks, and the theorems that exclude panics
    show that it does not; the one subtraction that a server can make overflow, of the header from the
    packet size in [PacketWriter_new], wraps as in a release build.  A string is the list of its
    scalar values, with its UTF-8 and UTF-16 encodings defined in Unicode.  Errors keep their
    kind and their fixed text; interpolated numbers are left out.

    [async] code is sequential here: every [await] in it is on the socket, on a timer or on a
    cancellation token, and what these do is part of the state.  The socket is the list of events
    that its reads will report, and the writer has a list of environments, one for each send,
    that say when it happens, how much of it is accepted, and which branch of the race between
    the send, the deadline and the cancellation wins.  Theorems quantify over all of them.

    ** What the theorems show

    - Framing and reading: whatever the chunks, a packet read appends exactly the payload that
      [next_packet] frames or fails; every read of the trait returns exactly the next bytes of
      the message; a value cut by the end of its message is an error; on arbitrary bytes reads
      end and keep the invariant of the buffer; the non-blocking probe agrees with the read.
    - Writing: after any sequence of calls, in every environment, the wire holds whole packets of
      the message, and part of one more only if that is flagged; text arrives as UTF-16LE; a message may be parked,
      resumed, withdrawn or abandoned; and end to end, what was written is what a reader gets.
    - Tokens: each control token, laid out as the protocol says, is read back by the dispatcher;
      the buffered shortcut agrees with it; no byte stream makes it panic or loop.
    - The same two properties, read back and safe on any input, for PRELOGIN answers and for
      sensitivity metadata, and the layout of the PRELOGIN request and of the SQL requests.
    - Session: which changes are applied, what a reset restores, what the cache counter counts.
    - Recovery: what is replayed is what was recorded, when recovery is possible, and when a
      reconnection is accepted; the declared lengths are right, except for an unset collation.
    - Identifiers: quoting is undone by parsing, and a quoted literal cannot be left.
    - Columns and values: column metadata is read back; a value in chunks is read back by both
      readers, which differ on a value cut short; reading one ends on any input.
    - Rows: the four decoders agree, on the value and on the bytes used; driving a row writes what
      the row parser returns; pausing and resuming, skipping and reading from the buffer change
      neither; a bitmap held by a paused row is never overwritten; nothing on the wire makes any
      of it panic or loop.
    - Decimals: the text is the magnitude with its point and sign, and always fits its buffer.
    - Values: what the serializer writes for a value is what the decoder reads as that value, in
      plain and sql_variant columns and at every packet boundary, but for a nullable FLOAT that its
      packet has no room for and for text converted to UTF-16, whose losses are stated, and for JSON;
      text is narrowed character by character, with a report exactly when something is lost.
    - Calls: a validated call is read back, procedure, names, flags, types and values; a command
      written without awaits is the command written with them; an encrypted parameter is sent as its
      ciphertext, whatever the value; a table cell that passes the preflight and fits its column is
      written and keeps its value; what the SQL text declares is what is sent, with the exceptions
      (lengths past the limit of CHAR, NCHAR and BINARY, decimals of partly known type) stated exactly,
      and a type name stays inside its quotes; a JSON document is read back, and what follows an empty
      one is stated.
    - Always Encrypted: a sealed cell opens to its value at the scale of its column, and only blobs
      with the right tag open.  Bulk load: the stream is read back, columns, keys and rows, with
      encrypted cells as ciphertexts of their values.
    - Data sources: on ASCII text the parser is the grammar and never panics; beyond ASCII its
      offsets misplace the pieces.  What an accepted source names, looked up where it has to be, is
      what is dialled.
    - Connecting: an attempt ends after a bounded number of connects, goes through its plan (shared
      memory, then the transports of every round) in order, stops at a failure that would recur and follows routes only where they lead; what
      the browser answered, from an address that was asked, is what the cache gives afterwards and
      for good; a diagnosis leaves the cache alone.
    - Logging in: a LOGIN7 is read back field by field or refused; features stay within what was
      requested; every packet after the PRELOGIN's is sent on a TLS stream unless the client prefers
      none, and then as much of it as was agreed on; the rounds end; a session opens on a LOGINACK or
      after a request for a federated token was answered.

    ** Fuel

    Loops that end because of what they read carry fuel, and running out of it is the result
    [OutOfFuel], which the theorems exclude.  The transport's loops take theirs from the state:
    the chunks and bytes the socket still holds ([read_fuel]), which no loop can exceed, since every
    turn uses up a chunk or a byte.  The loops over server data that are generic in the reader
    (FEATUREEXTACK, the PRELOGIN option table, PLP chunks) take an argument, and their theorems ask
    for more than the bytes the reader has left.  The digits of a decimal have fuel for the 48
    bytes of the buffer they fill.  Routes have fuel for one more than the ten that are followed, and
    the rounds of authentication for the responses a server can give.  Other loops recurse on a count
    or a list.

    ** What is not modelled

    The conversions of values to floats; the parsing of decimals from text, which is BigDecimal's.
    The encodings of encoding_rs, the conversions of half-precision floats and the cell decryptor of
    encrypted columns are parameters.  The query client, cursors and the driver of a bulk copy with the
    text of its command, which compose what is modelled here with the user's callbacks; the setters of
    bulk load, which are updates of the modelled records.  Key stores and the description of encrypted
    parameters, which call the client.  Opening a socket (the parallel connect,
    pipes, shared memory), the TLS handshake, authentication libraries and the primitives of cryptography are
    the environment, as are the clock and the resolver.  Trace spans and what only they record have no
    counterpart.  The other crates (ODBC, Python and JavaScript bindings, tools and test
    servers) are clients of the core.  Logging has no counterpart. *)

From stdpp Require Export base tactics list numbers option.
From stdpp Require Import strings.
From coqutil Require Export Byte.
From coqutil Require Import Word.LittleEndianList.
From Stdlib Require Export ZArith Lia.

Declare Scope tds_scope.
Delimit Scope tds_scope with tds.
Global Open Scope Z_scope.
Global Open Scope tds_scope.

Abbreviation byte := Init.Byte.byte.
Abbreviation bytes := (list Init.Byte.byte).

(** ** Results: [TdsResult] of src/mssql-tds/src/core.rs, with the two ways a Rust
    function can fail to return made explicit. *)

(** How an error names the table-valued parameter it is about; a name is its scalar values. *)
Inductive TvpParameterRef : Type :=
  | OdbcOrdinal (ordinal : Z)
  | RpcPosition (position : nat)
  | Name (name : list Z)
  | UnknownParameter.

(** The constructors of [crate::error::Error] the modelled code builds.  Messages keep the
    fixed text of the source; the numbers a [format!] interpolates are left out. *)
Inductive Error : Type :=
  | Io (kind msg : string)
  | ProtocolError (msg : string)
  | TimeoutError (msg : string)
  | OperationCancelledError (msg : string)
  | UsageError (msg : string)
  | ImplementationError (msg : string)
  | UnimplementedFeature (feature context : string)
  | TypeConversionError (msg : string)
  | ConnectionClosed (msg : string)
  | ReconnectionValidationFailed (msg : string)
  | ColumnEncryptionError (msg : string)
  | EncodedValueTooLong (actual : nat) (maximum : Z)
  | TvpCellSerialization (parameter : TvpParameterRef) (row column : nat) (source : Error)
  | ConnectionError (msg : string)
  | TlsError (msg : string)
  | Security (msg : string)
  | SqlServerError (numbers : list Z)
  | Redirection (host : list Z) (port : Z) (database : option (list Z)).

(** [Panic] is a Rust panic (an assertion, a slice out of range, an overflow);
    [OutOfFuel] is the model's own, for a loop whose bound was too small. *)
Inductive TdsResult (A : Type) : Type :=
  | Ok (a : A)
  | Err (e : Error)
  | Panic (where_ : string)
  | OutOfFuel.
Arguments Ok {A} a.
Arguments Err {A} e.
Arguments Panic {A} where_.
Arguments OutOfFuel {A}.

(** A run ends with a Rust [Result]: no panic, and the model's fuel was enough. *)
Definition completes {A} (r : TdsResult A) : Prop :=
  match r with Ok _ | Err _ => True | Panic _ | OutOfFuel => False end.

(** ** A state-and-error monad: [&mut self] methods returning [TdsResult].  An error keeps
    the state reached when it was raised, as [?] does in Rust. *)

Definition M (S A : Type) : Type := S -> TdsResult A * S.

Definition ret {S A} (a : A) : M S A := fun s => (Ok a, s).
Definition throw {S A} (e : Error) : M S A := fun s => (Err e, s).
Definition panic {S A} (w : string) : M S A := fun s => (Panic w, s).
Definition out_of_fuel {S A} : M S A := fun s => (OutOfFuel, s).
Definition gets {S A} (f : S -> A) : M S A := fun s => (Ok (f s), s).
Definition modify {S} (f : S -> S) : M S unit := fun s => (Ok tt, f s).
Definition lift {S A} (r : TdsResult A) : M S A := fun s => (r, s).

Definition bind {S A B} (m : M S A) (k : A -> M S B) : M S B :=
  fun s =>
    match m s with
    | (Ok a, s') => k a s'
    | (Err e, s') => (Err e, s')
    | (Panic w, s') => (Panic w, s')
    | (OutOfFuel, s') => (OutOfFuel, s')
    end.

Notation "x <- m ;; k" := (bind m (fun x => k))
  (at level 20, m at level 99, k at level 200) : tds_scope.
Notation "' pat <- m ;; k" := (bind m (fun x => match x with pat => k end))
  (at level 20, pat pattern, m at level 99, k at level 200) : tds_scope.
Notation "m ;; k" := (bind m (fun _ => k)) : tds_scope.

(** The pure error monad, for functions that only return [TdsResult]. *)
Definition rbind {A B} (r : TdsResult A) (k : A -> TdsResult B) : TdsResult B :=
  match r with
  | Ok a => k a
  | Err e => Err e
  | Panic w => Panic w
  | OutOfFuel => OutOfFuel
  end.

Notation "'let?' x := r 'in' k" := (rbind r (fun x => k))
  (at level 10, x name, k at level 200) : tds_scope.
Notation "'let?' ' pat := r 'in' k" := (rbind r (fun x => match x with pat => k end))
  (at level 10, pat pattern, k at level 200) : tds_scope.

(** ** Field updates: [r {{ f := v }}].  A record declares how it is rebuilt from its
    projections; the setter of each projection is read off that. *)

Class Eta (R : Type) := eta_expand : R -> R.

Class Upd {R E : Type} (g : R -> E) := upd : (E -> E) -> R -> R.
Arguments upd {R E} g {_} f r.

Ltac solve_upd :=
  lazymatch goal with
  | |- @Upd ?R ?E ?g =>
      let e := eval hnf in (_ : Eta R) in
      lazymatch eval pattern g in e with
      | ?body _ =>
          let t := eval cbv beta in (fun f : E -> E => body (fun r => f (g r))) in exact t
      end
  end.

#[export] Hint Extern 1 (Upd _) => solve_upd : typeclass_instances.

Notation "r {{ g := v }}" := (upd g (fun _ => v) r)
  (at level 1, left associativity, g at level 1, v at level 99) : tds_scope.
Notation "r {{ g ::= f }}" := (upd g f r)
  (at level 1, left associativity, g at level 1, f at level 99) : tds_scope.

(** ** Machine integers *)

(** Two's complement reading of the low [w] bits of [z]. *)
Definition to_signed (w z : Z) : Z := (z + 2 ^ (w - 1)) mod 2 ^ w - 2 ^ (w - 1).

(** [z as uN] / [z as iN]. *)
Definition as_u8 (z : Z) : Z := z mod 2 ^ 8.
Definition as_u16 (z : Z) : Z := z mod 2 ^ 16.
Definition as_u32 (z : Z) : Z := z mod 2 ^ 32.
Definition as_u64 (z : Z) : Z := z mod 2 ^ 64.
Definition as_i16 (z : Z) : Z := to_signed 16 z.
Definition as_i32 (z : Z) : Z := to_signed 32 z.
Definition as_usize (z : Z) : nat := Z.to_nat (z mod 2 ^ 64).

Definition in_unsigned (w z : Z) : Prop := 0 <= z < 2 ^ w.
Definition in_signed (w z : Z) : Prop := - 2 ^ (w - 1) <= z < 2 ^ (w - 1).

(** [to_le_bytes], [to_be_bytes], [from_le_bytes], [from_be_bytes]. *)
Definition le_bytes (n : nat) (z : Z) : bytes := le_split n z.
Definition be_bytes (n : nat) (z : Z) : bytes := rev (le_split n z).
Definition of_le (bs : bytes) : Z := le_combine bs.
Definition of_be (bs : bytes) : Z := le_combine (rev bs).
Definition of_le_signed (bs : bytes) : Z := to_signed (8 * Z.of_nat (length bs)) (of_le bs).
Definition of_be_signed (bs : bytes) : Z := to_signed (8 * Z.of_nat (length bs)) (of_be bs).

(** A byte from a [u8] value, and back. *)
Definition byte_of (z : Z) : byte := byte.of_Z z.
Definition byte_val (b : byte) : Z := byte.unsigned b.

(** [u8] bit tests, as in [status & 0x01 != 0]. *)
Definition has_bit (flags mask : Z) : bool := negb (Z.land flags mask =? 0).

(** ** Byte buffers: slices, overwriting writes and [copy_within] *)

Definition slice {A} (from to : nat) (l : list A) : list A := take (to - from) (drop from l).

Lemma slice_mid {A} (a b c : list A) n k :
  n = length a -> k = (n + length b)%nat -> slice n k (a ++ b ++ c) = b.
Proof.
  intros -> ->. unfold slice. rewrite drop_app_length.
  replace (length a + length b - length a)%nat with (length b) by lia. apply take_app_length.
Qed.

(** Overwrites [bs] at offset [at_] of [l]; both ends are in range where it is used. *)
Definition splice {A} (at_ : nat) (bs l : list A) : list A :=
  take at_ l ++ bs ++ drop (at_ + length bs) l.

#[global] Arguments slice : simpl never.
#[global] Arguments splice : simpl never.

(** [<[T]>::copy_within(from..to, dest)], which panics out of range. *)
Definition copy_within {A} (from to dest : nat) (l : list A) : TdsResult (list A) :=
  if decide (from <= to /\ to <= length l /\ dest + (to - from) <= length l)%nat
  then Ok (splice dest (slice from to l) l)
  else Panic "copy_within: out of range".

(** ** Lemmas *)

Lemma to_signed_id w z : 0 < w -> in_signed w z -> to_signed w z = z.
Proof.
  unfold to_signed, in_signed. intros Hw Hz.
  assert (2 ^ w = 2 * 2 ^ (w - 1)) by (rewrite <- Z.pow_succ_r by lia; f_equal; lia).
  rewrite Z.mod_small; lia.
Qed.

Lemma to_signed_mod w z : 0 < w -> to_signed w (z mod 2 ^ w) = to_signed w z.
Proof. unfold to_signed. intros Hw. by rewrite Zplus_mod_idemp_l. Qed.

Lemma mod_to_signed w z : to_signed w z mod 2 ^ w = z mod 2 ^ w.
Proof. unfold to_signed. rewrite Zminus_mod_idemp_l. f_equal. lia. Qed.

Lemma to_signed_range w z : 0 < w -> in_signed w (to_signed w z).
Proof.
  unfold to_signed, in_signed. intros Hw.
  assert (2 ^ w = 2 * 2 ^ (w - 1)) by (rewrite <- Z.pow_succ_r by lia; f_equal; lia).
  pose proof (Z.mod_pos_bound (z + 2 ^ (w - 1)) (2 ^ w)). lia.
Qed.

Lemma length_le_bytes n z : length (le_bytes n z) = n.
Proof. apply length_le_split. Qed.

Lemma length_be_bytes n z : length (be_bytes n z) = n.
Proof. unfold be_bytes. by rewrite length_rev, length_le_split. Qed.

Lemma of_le_le_bytes n z : of_le (le_bytes n z) = z mod 2 ^ (8 * Z.of_nat n).
Proof. unfold of_le, le_bytes. rewrite le_combine_split. do 2 f_equal. lia. Qed.

Lemma le_bytes_of_le n bs : length bs = n -> le_bytes n (of_le bs) = bs.
Proof. apply split_le_combine'. Qed.

Lemma of_be_be_bytes n z : of_be (be_bytes n z) = z mod 2 ^ (8 * Z.of_nat n).
Proof. unfold of_be, be_bytes. rewrite rev_involutive. apply of_le_le_bytes. Qed.

Lemma of_le_unsigned n z :
  in_unsigned (8 * Z.of_nat n) z -> of_le (le_bytes n z) = z.
Proof. intros. by rewrite of_le_le_bytes, Z.mod_small. Qed.

Lemma of_be_unsigned n z :
  in_unsigned (8 * Z.of_nat n) z -> of_be (be_bytes n z) = z.
Proof. intros. by rewrite of_be_be_bytes, Z.mod_small. Qed.

Lemma be_bytes_mod n z : be_bytes n (z mod 2 ^ (8 * Z.of_nat n)) = be_bytes n z.
Proof. unfold be_bytes. by rewrite (Z.mul_comm 8), <- le_split_mod. Qed.

Lemma of_le_signed_le_bytes n z :
  (0 < n)%nat -> in_signed (8 * Z.of_nat n) z -> of_le_signed (le_bytes n z) = z.
Proof.
  intros Hn Hz. unfold of_le_signed.
  rewrite length_le_bytes, of_le_le_bytes, to_signed_mod, to_signed_id; auto; lia.
Qed.

Lemma of_be_signed_be_bytes n z :
  (0 < n)%nat -> in_signed (8 * Z.of_nat n) z -> of_be_signed (be_bytes n z) = z.
Proof.
  intros Hn Hz. unfold of_be_signed.
  rewrite length_be_bytes, of_be_be_bytes, to_signed_mod, to_signed_id; auto; lia.
Qed.

Lemma of_le_range bs : in_unsigned (8 * Z.of_nat (length bs)) (of_le bs).
Proof. apply le_combine_bound. Qed.

Lemma of_be_range bs : in_unsigned (8 * Z.of_nat (length bs)) (of_be bs).
Proof. unfold of_be. rewrite <- (length_rev bs). apply le_combine_bound. Qed.

Lemma byte_val_of z : 0 <= z < 256 -> byte_val (byte_of z) = z.
Proof.
  intros. unfold byte_val, byte_of. rewrite byte.unsigned_of_Z. by apply Z.mod_small.
Qed.

Lemma byte_of_val b : byte_of (byte_val b) = b.
Proof. apply byte.of_Z_unsigned. Qed.

Lemma of_le_one b : of_le [b] = byte_val b.
Proof. apply le_combine_1. Qed.

(** *** Slices *)

Lemma concat_fmap_cons {A B} (f : A -> list B) x l : concat (f <$> x :: l) = f x ++ concat (f <$> l).
Proof. done. Qed.

Section slices.
Context {A : Type}.
Implicit Types (l bs : list A).

Lemma lookup_slice l a b i :
  slice a b l !! i = if decide (i < b - a)%nat then l !! (a + i)%nat else None.
Proof.
  unfold slice. case_decide as H.
  - by rewrite lookup_take_lt, lookup_drop.
  - apply lookup_take_ge. lia.
Qed.

Lemma length_slice l a b : (b <= length l)%nat -> length (slice a b l) = (b - a)%nat.
Proof. intros. unfold slice. rewrite length_take, length_drop. lia. Qed.

Lemma length_splice l at_ bs :
  (at_ + length bs <= length l)%nat -> length (splice at_ bs l) = length l.
Proof.
  intros. unfold splice. rewrite !length_app, length_take, length_drop. lia.
Qed.

Lemma lookup_splice l at_ bs i :
  (at_ <= length l)%nat ->
  splice at_ bs l !! i =
    if decide (i < at_)%nat then l !! i
    else if decide (i < at_ + length bs)%nat then bs !! (i - at_)%nat
    else l !! i.
Proof.
  intros Hl. unfold splice. case_decide as H1; [|case_decide as H2].
  - rewrite lookup_app_l by (rewrite length_take; lia). by apply lookup_take_lt.
  - rewrite lookup_app_r by (rewrite length_take; lia). rewrite length_take.
    rewrite lookup_app_l by lia. f_equal; lia.
  - rewrite lookup_app_r by (rewrite length_take; lia). rewrite length_take.
    rewrite lookup_app_r by lia. rewrite lookup_drop. f_equal; lia.
Qed.

Lemma slice_splice_same l at_ bs e :
  (at_ <= length l)%nat -> e = (at_ + length bs)%nat -> slice at_ e (splice at_ bs l) = bs.
Proof.
  intros Hl ->. apply list_eq; intros i. rewrite lookup_slice, lookup_splice by done.
  repeat case_decide; try lia.
  - f_equal; lia.
  - symmetry; apply lookup_ge_None; lia.
Qed.

Lemma slice_splice_before l at_ bs a b :
  (at_ <= length l)%nat -> (b <= at_)%nat -> slice a b (splice at_ bs l) = slice a b l.
Proof.
  intros. apply list_eq; intros i. rewrite !lookup_slice, lookup_splice by done.
  repeat case_decide; try lia; done.
Qed.

Lemma slice_splice_after l at_ bs a b :
  (at_ <= length l)%nat -> (at_ + length bs <= a)%nat ->
  slice a b (splice at_ bs l) = slice a b l.
Proof.
  intros. apply list_eq; intros i. rewrite !lookup_slice, lookup_splice by done.
  repeat case_decide; try lia; done.
Qed.

Lemma slice_app_adjacent l a b c :
  (a <= b)%nat -> (b <= c)%nat -> (b <= length l)%nat ->
  slice a c l = slice a b l ++ slice b c l.
Proof.
  intros. apply list_eq; intros i. rewrite lookup_slice.
  destruct (decide (i < b - a)%nat) as [Hi|Hi].
  - rewrite lookup_app_l by (rewrite length_slice; lia). rewrite lookup_slice.
    repeat case_decide; try lia; done.
  - rewrite lookup_app_r by (rewrite length_slice; lia).
    rewrite length_slice, lookup_slice by lia.
    repeat case_decide; try lia; try done. f_equal; lia.
Qed.

Lemma slice_nil l a b : (b <= a)%nat -> slice a b l = [].
Proof. intros. unfold slice. by replace (b - a)%nat with 0%nat by lia. Qed.

Lemma slice_slice l a b c d :
  (a + d <= b)%nat -> slice c d (slice a b l) = slice (a + c) (a + d) l.
Proof.
  intros. apply list_eq; intros i. rewrite !lookup_slice.
  repeat case_decide; try lia; try done. f_equal; lia.
Qed.

Lemma slice_app_l l1 l2 a b : (b <= length l1)%nat -> slice a b (l1 ++ l2) = slice a b l1.
Proof.
  intros. apply list_eq; intros i. rewrite !lookup_slice. case_decide; [|done].
  by rewrite lookup_app_l by lia.
Qed.

Lemma slice_take_drop l a b : slice a b l = drop a (take b l).
Proof.
  unfold slice. rewrite skipn_firstn_comm. done.
Qed.

Lemma slice_all l : slice 0 (length l) l = l.
Proof. unfold slice. rewrite Nat.sub_0_r, drop_0. by apply firstn_all. Qed.

Lemma copy_within_ok (l : list A) a b d :
  (a <= b)%nat -> (b <= length l)%nat -> (d + (b - a) <= length l)%nat ->
  copy_within a b d l = Ok (splice d (slice a b l) l).
Proof. intros. unfold copy_within. by rewrite decide_True. Qed.
End slices.

(** ** Automation *)

(** Rewriting with lengths and integer round trips, side conditions by [lia]. *)
Create Rewrite HintDb tds_len.
#[export] Hint Rewrite @length_app @length_take @length_drop @length_rev @length_map
  @length_replicate length_le_bytes length_be_bytes @length_fmap : tds_len.

Ltac len_simpl := autorewrite with tds_len in *; cbn [length] in *.
Ltac solve_len := len_simpl; lia.

(** One [bind] whose first component is known to succeed. *)
Lemma bind_ok {S A B} (m : M S A) (k : A -> M S B) s a s' :
  m s = (Ok a, s') -> bind m k s = k a s'.
Proof. intros H. unfold bind. by rewrite H. Qed.

Lemma bind_err {S A B} (m : M S A) (k : A -> M S B) s e s' :
  m s = (Err e, s') -> bind m k s = (Err e, s').
Proof. intros H. unfold bind. by rewrite H. Qed.

(** Inverting a successful [bind]. *)
Lemma bind_inv_ok {S A B} (m : M S A) (k : A -> M S B) s b s' :
  bind m k s = (Ok b, s') -> exists a s1, m s = (Ok a, s1) /\ k a s1 = (Ok b, s').
Proof. unfold bind. destruct (m s) as [[] s1] eqn:E; intros H; simplify_eq; eauto. Qed.
