(* ===== verification/Core.v ===== *)
(** * Shared types of the client (src/mssql-tds/src/core.rs and message/messages.rs)

    Cancellation handles, encryption settings, server versions and the types of packets.  Time is a [Z] of
    milliseconds; a handle carries the moment its token fires ([cancelled_at], chosen by
    whoever holds the other end), so that "is it cancelled now" is a comparison. *)

From stdpp Require Import strings.
From S2P Require Import Prelude.

Definition Instant := Z.

Definition secs (n : Z) : Z := 1000 * n.

(** [CancellationSettlement]: the budget and the once-set deadline. *)
Record CancellationSettlement := {
  timeout_secs : Z;
  settlement_started : option Instant;
}.

(** [CancelHandle]. *)
Record CancelHandle := {
  cancelled_at : option Instant;
  settlement : option CancellationSettlement;
}.

Definition CancelHandle_new : CancelHandle :=
  {| cancelled_at := None; settlement := None |}.

(** [cancel_token.is_cancelled()] at time [now]. *)
Definition is_cancelled (h : CancelHandle) (now : Instant) : bool :=
  match cancelled_at h with
  | Some t => t <=? now
  | None => false
  end.

Definition cancel_timeout_secs (h : CancelHandle) : option Z :=
  match settlement h with
  | Some s => if timeout_secs s =? 0 then None else Some (timeout_secs s)
  | None => None
  end.

(** [settings.deadline.get()] at [now]: set when [cancel] ran with a budget configured. *)
Definition settlement_deadline_set (h : CancelHandle) (now : Instant) : option Instant :=
  match settlement h with
  | None => None
  | Some s =>
      match settlement_started s with
      | Some d => Some d
      | None =>
          match cancelled_at h, cancel_timeout_secs h with
          | Some t, Some n => if t <=? now then Some (t + secs n) else None
          | _, _ => None
          end
      end
  end.

(** [CancelHandle::cancel] at [now]: the first call arms the settlement deadline. *)
Definition cancel (now : Instant) (h : CancelHandle) : CancelHandle :=
  {| cancelled_at :=
       Some (match cancelled_at h with Some t => Z.min t now | None => now end);
     settlement :=
       match settlement h, cancel_timeout_secs h with
       | Some s, Some n =>
           Some {| timeout_secs := timeout_secs s;
                   settlement_started :=
                     match settlement_started s with
                     | Some d => Some d
                     | None => Some (now + secs n)
                     end |}
       | s, _ => s
       end |}.

Definition set_cancel_timeout_secs (n : Z) (h : CancelHandle) : CancelHandle :=
  {| cancelled_at := cancelled_at h;
     settlement :=
       Some {| timeout_secs := n;
               settlement_started :=
                 match settlement h with
                 | Some s => settlement_started s
                 | None => None
                 end |} |}.

Definition has_settlement_budget (h : CancelHandle) (now : Instant) : bool :=
  bool_decide (is_Some (cancel_timeout_secs h))
  || bool_decide (is_Some (settlement_deadline_set h now)).

Definition configured_settlement_deadline (h : CancelHandle) (now : Instant)
    : option Instant :=
  match settlement_deadline_set h now with
  | Some d => Some d
  | None => (fun n => now + secs n) <$> cancel_timeout_secs h
  end.

Definition settlement_deadline (h : CancelHandle) (default : Z) (now : Instant) : Instant :=
  match configured_settlement_deadline h now with
  | Some d => d
  | None => now + default
  end.

(** [child_handle]: the child fires when the parent does and shares its settlement. *)
Definition child_handle (h : CancelHandle) : CancelHandle :=
  {| cancelled_at := cancelled_at h; settlement := settlement h |}.

(** [CancelHandle::run_until_cancelled]: [fired] is whether the token's own
    [run_until_cancelled] returned [None], that is, gave up on the future. *)
Definition run_until_cancelled {A} (h : option CancelHandle) (fired : bool)
    (result : TdsResult A) : TdsResult A :=
  match h with
  | Some _ => if fired then Err (OperationCancelledError "Request was cancelled") else result
  | None => result
  end.

(** [EncryptionSetting] and [NegotiatedEncryptionSetting]. *)
Inductive EncryptionSetting := PreferOff | On | Required | Strict.

Inductive NegotiatedEncryptionSetting := NStrict | LoginOnly | Mandatory | NoEncryption.

#[global] Instance NegotiatedEncryptionSetting_eq : EqDecision NegotiatedEncryptionSetting.
Proof. solve_decision. Defined.

(** [SQLServerVersion] and its [From<u8>]. *)
Inductive SQLServerVersion :=
  | SqlServerNotsupported | SqlServer2000 | SqlServer2005 | SqlServer2008 | SqlServer2012
  | SqlServer2014 | SqlServer2016 | SqlServer2017 | SqlServer2019 | SqlServer2022
  | SqlServer2022lus.

Definition SQLServerVersion_from_u8 (v : Z) : SQLServerVersion :=
  match v with
  | 0 => SqlServerNotsupported | 8 => SqlServer2000 | 9 => SqlServer2005
  | 10 => SqlServer2008 | 11 => SqlServer2012 | 12 => SqlServer2014 | 13 => SqlServer2016
  | 14 => SqlServer2017 | 15 => SqlServer2019 | 16 => SqlServer2022
  | 17 => SqlServer2022lus
  | _ => SqlServerNotsupported
  end.

(** [Version]. *)
Record Version := { major : Z; minor : Z; build : Z; revision : Z }.

(** ** Packet types and status bits (src/mssql-tds/src/message/messages.rs) *)

Inductive PacketType :=
  | PT_Unknown | SqlBatch | RpcRequest | TabularResult | Attention | BulkLoad
  | FedAuthToken | TransactionManager | Login7 | SSPI | PreLogin.

#[global] Instance PacketType_eq : EqDecision PacketType.
Proof. solve_decision. Defined.

(** [packet_type as u8]. *)
Definition PacketType_u8 (t : PacketType) : Z :=
  match t with
  | PT_Unknown => 0x00
  | SqlBatch => 0x01
  | RpcRequest => 0x03
  | TabularResult => 0x04
  | Attention => 0x06
  | BulkLoad => 0x07
  | FedAuthToken => 0x08
  | TransactionManager => 0x0E
  | Login7 => 0x10
  | SSPI => 0x11
  | PreLogin => 0x12
  end.

Inductive PacketStatusFlags :=
  | Normal | Eom | Ignore | ResetConnection | ResetConnectionSkipTran.

Definition PacketStatusFlags_u8 (f : PacketStatusFlags) : Z :=
  match f with
  | Normal => 0x00
  | Eom => 0x01
  | Ignore => 0x02
  | ResetConnection => 0x08
  | ResetConnectionSkipTran => 0x10
  end.

Inductive ResetConnectionMode := ResetNone | Reset | ResetSkipTran.

#[global] Instance ResetConnectionMode_eq : EqDecision ResetConnectionMode.
Proof. solve_decision. Defined.

(** [u8::from(ResetConnectionMode)]. *)
Definition ResetConnectionMode_u8 (m : ResetConnectionMode) : Z :=
  match m with
  | ResetNone => 0
  | Reset => PacketStatusFlags_u8 ResetConnection
  | ResetSkipTran => PacketStatusFlags_u8 ResetConnectionSkipTran
  end.

(** The packet types whose first packet may carry a connection reset. *)
Definition carries_reset (t : PacketType) : bool :=
  match t with
  | SqlBatch | RpcRequest | TransactionManager => true
  | _ => false
  end.
