(* ===== verification/ReadBuffer.v ===== *)
(** * The transport's read buffer (src/mssql-tds/src/connection/transport/buffers.rs)

    [TdsReadBuffer] holds one allocation of twice the packet size.  Unconsumed payload sits in
    [buffer_position .. buffer_length]; bytes of later packets that arrived with the same
    socket read sit in [pending_bytes_offset ..+ pending_bytes]. *)

From stdpp Require Import strings.
From S2P Require Import Prelude.

Record TdsReadBuffer := {
  buffer_position : nat;
  buffer_length : nat;
  max_packet_size : nat;
  working_buffer : bytes;
  pending_bytes : nat;
  pending_bytes_offset : nat;
  end_of_message : bool;
}.

#[export] Instance TdsReadBuffer_eta : Eta TdsReadBuffer := fun b =>
  Build_TdsReadBuffer (buffer_position b) (buffer_length b) (max_packet_size b)
    (working_buffer b) (pending_bytes b) (pending_bytes_offset b) (end_of_message b).

Definition TdsReadBuffer_new (packet_size : nat) : TdsReadBuffer :=
  {| buffer_position := 0;
     buffer_length := 0;
     max_packet_size := packet_size;
     working_buffer := replicate (packet_size * 2) (byte_of 0);
     pending_bytes := 0;
     pending_bytes_offset := 0;
     end_of_message := false |}.

(** [Vec::resize(n, 0)]. *)
Definition vec_resize (n : nat) (l : bytes) : bytes :=
  take n l ++ replicate (n - length l) (byte_of 0).

Definition change_packet_size (packet_size : nat) (b : TdsReadBuffer) : TdsReadBuffer :=
  if decide (packet_size = max_packet_size b) then b
  else {| buffer_position := 0;
          buffer_length := 0;
          max_packet_size := packet_size;
          working_buffer := vec_resize (packet_size * 2) (working_buffer b);
          pending_bytes := 0;
          pending_bytes_offset := 0;
          end_of_message := false |}.

(** [saturating_sub], which is [nat] subtraction. *)
Definition get_remaining_byte_count (b : TdsReadBuffer) : nat :=
  (buffer_length b - buffer_position b)%nat.

Definition do_we_have_enough_data (n : nat) (b : TdsReadBuffer) : bool :=
  bool_decide (n <= get_remaining_byte_count b)%nat.

Definition consume_bytes (n : nat) : M TdsReadBuffer unit :=
  remaining <- gets get_remaining_byte_count ;;
  if decide (remaining < n)%nat then
    throw (ProtocolError "Cannot consume byte(s) from the packet buffer")
  else
    modify (fun b => b {{ buffer_position ::= Nat.add n }}) ;;
    modify (fun b =>
      if decide (buffer_length b = buffer_position b)
      then b {{ buffer_length := 0%nat }} {{ buffer_position := 0%nat }}
      else b).

(** Slicing [working_buffer[start..end]], which panics out of range. *)
Definition index_range (start stop : nat) (l : bytes) : TdsResult bytes :=
  if decide (start <= stop /\ stop <= length l)%nat then Ok (slice start stop l)
  else Panic "range out of bounds".

(** [try_read_slice]: the whole run, or [None] without consuming. *)
Definition try_read_slice (n : nat) : M TdsReadBuffer (option bytes) :=
  enough <- gets (do_we_have_enough_data n) ;;
  if (enough : bool) then
    start <- gets buffer_position ;;
    fun b =>
      match consume_bytes n b with
      | (Ok _, b') => (rbind (index_range start (start + n) (working_buffer b'))
                             (fun bs => Ok (Some bs)), b')
      | (_, b') => (Ok None, b')
      end
  else ret None.

(** [try_read_array::<N>]: slices first, then consumes. *)
Definition try_read_array (n : nat) : M TdsReadBuffer (option bytes) :=
  enough <- gets (do_we_have_enough_data n) ;;
  if (enough : bool) then
    position <- gets buffer_position ;;
    fun b =>
      match index_range position (position + n) (working_buffer b) with
      | Ok bs =>
          match consume_bytes n b with
          | (Ok _, b') => (Ok (Some bs), b')
          | (_, b') => (Ok None, b')
          end
      | Err e => (Err e, b)
      | Panic w => (Panic w, b)
      | OutOfFuel => (OutOfFuel, b)
      end
  else ret None.

Definition try_map {A} (f : bytes -> A) (m : M TdsReadBuffer (option bytes))
    : M TdsReadBuffer (option A) :=
  o <- m ;; ret (f <$> o).

Definition try_read_byte := try_map of_le (try_read_array 1).
Definition try_read_int16 := try_map of_le_signed (try_read_array 2).
Definition try_read_uint16 := try_map of_le (try_read_array 2).
Definition try_read_uint24 :=
  try_map (fun bs => of_le (bs ++ [byte_of 0])) (try_read_array 3).
Definition try_read_int32 := try_map of_le_signed (try_read_array 4).
Definition try_read_uint32 := try_map of_le (try_read_array 4).
Definition try_read_uint40 :=
  try_map (fun bs => of_le (bs ++ [byte_of 0; byte_of 0; byte_of 0])) (try_read_array 5).
Definition try_read_int64 := try_map of_le_signed (try_read_array 8).
(** Floats are kept as their IEEE-754 bit patterns. *)
Definition try_read_float32 := try_map of_le (try_read_array 4).
Definition try_read_float64 := try_map of_le (try_read_array 8).

Definition reset_to_length (n : nat) (b : TdsReadBuffer) : TdsReadBuffer :=
  b {{ buffer_position := 0%nat }} {{ buffer_length := n }} {{ end_of_message := false }}.

(** Moves unconsumed payload to the front, then the pending bytes right after it. *)
Definition shift_data_to_front : M TdsReadBuffer unit :=
  remaining <- gets get_remaining_byte_count ;;
  b <- gets id ;;
  buf <- lift (copy_within (buffer_position b) (buffer_length b) 0 (working_buffer b)) ;;
  modify (fun b => b {{ working_buffer := buf }} {{ buffer_position := 0%nat }}
                      {{ buffer_length := remaining }}) ;;
  if decide (0 < pending_bytes b)%nat then
    let src_start := pending_bytes_offset b in
    let src_end := (pending_bytes_offset b + pending_bytes b)%nat in
    buf' <- lift (copy_within src_start src_end remaining buf) ;;
    modify (fun b => b {{ working_buffer := buf' }} {{ pending_bytes_offset := remaining }})
  else ret tt.

Definition remove_header_from_packet (new_packet_size : nat) : M TdsReadBuffer unit :=
  b <- gets id ;;
  buf <- lift (copy_within (buffer_length b + 8) (buffer_length b + new_packet_size)
                 (buffer_length b) (working_buffer b)) ;;
  modify (fun b => b {{ working_buffer := buf }}
                      {{ buffer_length ::= fun n => (n + (new_packet_size - 8))%nat }}).

Definition get_slice (b : TdsReadBuffer) : TdsResult bytes :=
  index_range (buffer_position b) (length (working_buffer b)) (working_buffer b).

Definition get_buffered_slice (b : TdsReadBuffer) : TdsResult bytes :=
  index_range (buffer_position b) (buffer_length b) (working_buffer b).

(** ** Well-formedness and the two logical contents of the buffer *)

(** Payload received and not yet consumed. *)
Definition unread (b : TdsReadBuffer) : bytes :=
  slice (buffer_position b) (buffer_length b) (working_buffer b).

(** Bytes of packets not yet framed. *)
Definition parked (b : TdsReadBuffer) : bytes :=
  slice (pending_bytes_offset b) (pending_bytes_offset b + pending_bytes b)
    (working_buffer b).

Record buffer_wf (b : TdsReadBuffer) : Prop := {
  wf_position : (buffer_position b <= buffer_length b)%nat;
  wf_length : (buffer_length b <= length (working_buffer b))%nat;
  wf_capacity : length (working_buffer b) = (2 * max_packet_size b)%nat;
  wf_pending : (pending_bytes_offset b + pending_bytes b <= length (working_buffer b))%nat;
  wf_disjoint : (0 < pending_bytes b)%nat ->
    (buffer_length b <= pending_bytes_offset b)%nat;
}.

(** Nothing but the unread payload and its indices changed. *)
Record same_frame (b b' : TdsReadBuffer) : Prop := {
  sf_max : max_packet_size b' = max_packet_size b;
  sf_parked : parked b' = parked b;
  sf_pending : pending_bytes b' = pending_bytes b;
  sf_eom : end_of_message b' = end_of_message b;
}.

#[global] Instance same_frame_refl : Reflexive same_frame.
Proof. by constructor. Qed.

#[global] Instance same_frame_trans : Transitive same_frame.
Proof. intros ??? [] []; constructor; congruence. Qed.

Lemma length_unread b : buffer_wf b -> length (unread b) = get_remaining_byte_count b.
Proof. intros []. unfold unread. by rewrite length_slice. Qed.

Lemma length_parked b : buffer_wf b -> length (parked b) = pending_bytes b.
Proof. intros []. unfold parked. rewrite length_slice; lia. Qed.

Lemma enough_data_iff n b :
  do_we_have_enough_data n b = true <-> (n <= get_remaining_byte_count b)%nat.
Proof. unfold do_we_have_enough_data. apply bool_decide_eq_true. Qed.

Lemma TdsReadBuffer_new_wf n : buffer_wf (TdsReadBuffer_new n).
Proof. constructor; cbn; rewrite ?length_replicate; lia. Qed.

Lemma length_vec_resize n l : length (vec_resize n l) = n.
Proof. unfold vec_resize. rewrite length_app, length_take, length_replicate. lia. Qed.

Lemma change_packet_size_wf n b : buffer_wf b -> buffer_wf (change_packet_size n b).
Proof.
  intros Hwf. unfold change_packet_size. case_decide; [done|].
  constructor; cbn -[vec_resize Nat.mul]; rewrite ?length_vec_resize; lia.
Qed.

Lemma reset_to_zero_wf b : buffer_wf b -> buffer_wf (reset_to_length 0 b).
Proof. intros []. constructor; cbn; try done; lia. Qed.

(** Consuming [n] available bytes drops exactly them. *)
Lemma consume_bytes_ok n b :
  buffer_wf b -> (n <= get_remaining_byte_count b)%nat ->
  exists b', consume_bytes n b = (Ok tt, b') /\ buffer_wf b' /\ same_frame b b' /\
    unread b' = drop n (unread b) /\ working_buffer b' = working_buffer b.
Proof.
  intros Hwf Hn. pose proof Hwf as [H1 H2 H3 H4 H5]. unfold get_remaining_byte_count in Hn.
  unfold consume_bytes, bind, gets, modify, get_remaining_byte_count.
  rewrite decide_False by lia. cbn [fst snd].
  eexists; split; [done|]. cbn. destruct (decide _) as [E|E].
  - split_and!; [constructor|constructor| |]; cbn; auto; try lia.
    unfold unread; cbn. rewrite slice_nil by lia. symmetry. apply skipn_all2.
    rewrite length_slice; lia.
  - split_and!; [constructor|constructor| |]; cbn; auto; try lia.
    unfold unread; cbn. apply list_eq; intros i.
    rewrite lookup_drop, !lookup_slice. repeat case_decide; try lia; try done. f_equal; lia.
Qed.

Lemma unread_take n b :
  buffer_wf b -> (n <= get_remaining_byte_count b)%nat ->
  slice (buffer_position b) (buffer_position b + n) (working_buffer b) = take n (unread b).
Proof.
  intros [] Hn. unfold get_remaining_byte_count in Hn. unfold unread, slice.
  rewrite take_take. f_equal; lia.
Qed.

Lemma try_read_array_ok n b :
  buffer_wf b -> (n <= get_remaining_byte_count b)%nat ->
  exists b', try_read_array n b = (Ok (Some (take n (unread b))), b') /\ buffer_wf b' /\
    same_frame b b' /\ unread b' = drop n (unread b).
Proof.
  intros Hwf Hn. destruct (consume_bytes_ok n b Hwf Hn) as (b' & Hc & Hwf' & Hf & Hu & _).
  exists b'. split; [|done]. unfold try_read_array, bind, gets.
  rewrite (proj2 (enough_data_iff n b) Hn). unfold index_range.
  rewrite decide_True by (destruct Hwf; unfold get_remaining_byte_count in Hn; lia).
  by rewrite Hc, unread_take.
Qed.

Lemma try_read_array_none n b :
  (get_remaining_byte_count b < n)%nat -> try_read_array n b = (Ok None, b).
Proof.
  intros H. unfold try_read_array, bind, gets.
  destruct (do_we_have_enough_data n b) eqn:E; [|done].
  apply enough_data_iff in E. lia.
Qed.

Lemma try_map_ok {A} (f : bytes -> A) n b :
  buffer_wf b -> (n <= get_remaining_byte_count b)%nat ->
  exists b', try_map f (try_read_array n) b = (Ok (Some (f (take n (unread b)))), b') /\
    buffer_wf b' /\ same_frame b b' /\ unread b' = drop n (unread b).
Proof.
  intros Hwf Hn. destruct (try_read_array_ok n b Hwf Hn) as (b' & Hr & Hrest).
  exists b'. split; [|done]. unfold try_map. by rewrite (bind_ok _ _ _ _ _ Hr).
Qed.

Lemma try_map_none {A} (f : bytes -> A) n b :
  (get_remaining_byte_count b < n)%nat -> try_map f (try_read_array n) b = (Ok None, b).
Proof.
  intros H. unfold try_map. by rewrite (bind_ok _ _ _ _ _ (try_read_array_none n b H)).
Qed.

Lemma try_read_slice_ok n b :
  buffer_wf b -> (n <= get_remaining_byte_count b)%nat ->
  exists b', try_read_slice n b = (Ok (Some (take n (unread b))), b') /\ buffer_wf b' /\
    same_frame b b' /\ unread b' = drop n (unread b).
Proof.
  intros Hwf Hn. destruct (consume_bytes_ok n b Hwf Hn) as (b' & Hc & Hwf' & Hf & Hu & Hw).
  exists b'. split; [|done]. unfold try_read_slice, bind, gets.
  rewrite (proj2 (enough_data_iff n b) Hn), Hc, Hw. unfold index_range.
  rewrite decide_True by (destruct Hwf; unfold get_remaining_byte_count in Hn; lia).
  cbn. by rewrite unread_take.
Qed.

Lemma try_read_slice_none n b :
  (get_remaining_byte_count b < n)%nat -> try_read_slice n b = (Ok None, b).
Proof.
  intros H. unfold try_read_slice, bind, gets.
  destruct (do_we_have_enough_data n b) eqn:E; [|done].
  apply enough_data_iff in E. lia.
Qed.

(** Shifting keeps both logical contents although the two regions may overlap. *)
Lemma shift_data_to_front_ok b :
  buffer_wf b ->
  exists b', shift_data_to_front b = (Ok tt, b') /\ buffer_wf b' /\ same_frame b b' /\
    unread b' = unread b /\ buffer_position b' = 0%nat /\
    buffer_length b' = get_remaining_byte_count b.
Proof.
  intros Hwf. pose proof Hwf as [H1 H2 H3 H4 H5].
  unfold shift_data_to_front, bind, gets, lift, modify, id.
  rewrite copy_within_ok by lia. cbn [fst snd].
  unfold get_remaining_byte_count.
  set (rem := (buffer_length b - buffer_position b)%nat).
  assert (Hl1 : length (slice (buffer_position b) (buffer_length b) (working_buffer b)) = rem)
    by (by apply length_slice).
  set (buf := splice 0 _ (working_buffer b)).
  assert (Hbuf : length buf = length (working_buffer b)) by (apply length_splice; lia).
  case_decide as Hp.
  - specialize (H5 Hp). rewrite copy_within_ok by lia. cbn.
    assert (Hpk : slice (pending_bytes_offset b) (pending_bytes_offset b + pending_bytes b) buf
                  = parked b) by (apply slice_splice_after; lia).
    rewrite Hpk. assert (Hl2 := length_parked b Hwf).
    assert (Hlen : length (splice rem (parked b) buf) = length (working_buffer b))
      by (rewrite length_splice; lia).
    eexists; split; [done|]; split_and!.
    + constructor; cbn; rewrite ?Hlen; lia.
    + constructor; cbn; try done. unfold parked at 1; cbn. apply slice_splice_same; lia.
    + unfold unread at 1; cbn. rewrite slice_splice_before by lia.
      unfold unread. by apply slice_splice_same; [lia|].
    + done.
    + done.
  - eexists; split; [done|]; cbn; split_and!; try done.
    + constructor; cbn; lia.
    + constructor; cbn; try done. unfold parked; cbn.
      rewrite !slice_nil; auto; lia.
    + unfold unread; cbn. by apply slice_splice_same; [lia|].
Qed.

(** Removing the header of a packet framed at [buffer_length] appends its payload. *)
Lemma remove_header_from_packet_ok n b :
  buffer_wf b -> (8 <= n)%nat ->
  (buffer_length b + n <= length (working_buffer b))%nat ->
  ((0 < pending_bytes b)%nat -> (buffer_length b + n <= pending_bytes_offset b)%nat) ->
  exists b', remove_header_from_packet n b = (Ok tt, b') /\ buffer_wf b' /\ same_frame b b' /\
    unread b' = unread b ++
      slice (buffer_length b + 8) (buffer_length b + n) (working_buffer b).
Proof.
  intros Hwf Hn Hlen Hpend. pose proof Hwf as [H1 H2 H3 H4 H5].
  unfold remove_header_from_packet, bind, gets, lift, modify, id.
  rewrite copy_within_ok by lia. cbn.
  set (payload := slice _ _ _).
  assert (Hpl : length payload = (n - 8)%nat) by (unfold payload; rewrite length_slice; lia).
  assert (Hl : length (splice (buffer_length b) payload (working_buffer b))
               = length (working_buffer b)) by (apply length_splice; lia).
  eexists; split; [done|]; split_and!.
  - constructor; cbn; rewrite ?Hl; lia.
  - constructor; cbn; try done. unfold parked; cbn.
    destruct (decide (0 < pending_bytes b)%nat).
    + apply slice_splice_after; lia.
    + rewrite !slice_nil; auto; lia.
  - unfold unread; cbn.
    rewrite (slice_app_adjacent _ _ (buffer_length b)) by lia.
    rewrite slice_splice_before by lia. f_equal. apply slice_splice_same; lia.
Qed.
