(* ===== verification/Transport.v ===== *)
(** * The network transport (src/mssql-tds/src/connection/transport/network_transport.rs)

    [NetworkTransport] with its write half ([NetworkWriter]) and its read half: framing of TDS
    packets out of an arbitrarily chunked byte stream, and the [TdsPacketReader] methods.

    The socket is an environment: a list of things its reads will report, the bytes its writes
    have accepted so far, and what happens to each coming write.  TLS is transparent to it. *)

From stdpp Require Import strings.
From S2P Require Import Prelude Core ReadBuffer.

(** ** The socket *)

(** What a read of the socket reports next; the end of the list is a peer that closed. *)
Inductive ReadEvent :=
  | EvData (bs : bytes)
  | EvPending
  | EvError (msg : string).

(** Which arm of the writer's [select!] completes, were it enabled. *)
Inductive RaceOutcome := RaceSend | RaceCancelled | RaceElapsed.

(** What happens around one packet send. *)
Record WriteEnv := {
  we_now : Instant;          (** clock when the send is about to start *)
  we_race : RaceOutcome;
  we_polled : bool;          (** an interrupted send was polled before the other arm fired *)
  we_settled : bool;         (** an interrupted send still completes within its deadlines *)
  we_error : option Error;   (** the socket write fails *)
  we_partial : nat;          (** bytes accepted by an interrupted or failed write *)
  we_now_after : Instant;    (** clock after the send *)
}.

(** The environment in which a send at time [now] just succeeds. *)
Definition quiet_env (now : Instant) : WriteEnv :=
  {| we_now := now; we_race := RaceSend; we_polled := true; we_settled := true;
     we_error := None; we_partial := 0; we_now_after := now |}.

Record Stream := {
  st_in : list ReadEvent;
  st_out : bytes;
  st_writes : list WriteEnv;
}.

#[export] Instance Stream_eta : Eta Stream := fun s =>
  Build_Stream (st_in s) (st_out s) (st_writes s).

(** [AsyncReadExt::read] into a buffer of [cap] bytes: waits out [EvPending]. *)
Fixpoint read_events (cap : nat) (es : list ReadEvent) : TdsResult bytes * list ReadEvent :=
  match es with
  | [] => (Ok [], [])
  | EvPending :: es => read_events cap es
  | EvError m :: es => (Err (Io "Other" m), es)
  | EvData bs :: es =>
      (Ok (take cap bs),
       match drop cap bs with [] => es | rest => EvData rest :: es end)
  end.

Definition stream_read (cap : nat) (es : list ReadEvent) : TdsResult bytes * list ReadEvent :=
  if decide (cap = 0%nat) then (Ok [], es) else read_events cap es.

(** [poll_read] with a no-op waker: [None] is [Poll::Pending]. *)
Definition stream_poll_read (cap : nat) (es : list ReadEvent)
    : TdsResult (option bytes) * list ReadEvent :=
  if decide (cap = 0%nat) then (Ok (Some []), es)
  else match es with
       | EvPending :: es => (Ok None, es)
       | es => match read_events cap es with
               | (Ok bs, es') => (Ok (Some bs), es')
               | (Err e, es') => (Err e, es')
               | (Panic w, es') => (Panic w, es')
               | (OutOfFuel, es') => (OutOfFuel, es')
               end
       end.

(** The bytes the socket will deliver before it closes or fails. *)
Fixpoint stream_data (es : list ReadEvent) : bytes :=
  match es with
  | [] => []
  | EvPending :: es => stream_data es
  | EvError _ :: _ => []
  | EvData [] :: _ => []
  | EvData bs :: es => bs ++ stream_data es
  end.

(** A bound on the number of reads a stream can answer with data. *)
Fixpoint stream_measure (es : list ReadEvent) : nat :=
  match es with
  | [] => 0
  | EvData bs :: es => S (length bs) + stream_measure es
  | _ :: es => S (stream_measure es)
  end.

(** ** [NetworkTransport] *)

Record NetworkTransport := {
  nt_encryption : option NegotiatedEncryptionSetting;
  nt_packet_size : nat;
  nt_stream : option Stream;
  tds_read_buffer : TdsReadBuffer;
  extractable_stream_handle : bool;
  pending_reset : ResetConnectionMode;
  reset_dispatched : bool;
  known_dead : bool;
}.

#[export] Instance NetworkTransport_eta : Eta NetworkTransport := fun t =>
  Build_NetworkTransport (nt_encryption t) (nt_packet_size t) (nt_stream t)
    (tds_read_buffer t) (extractable_stream_handle t) (pending_reset t)
    (reset_dispatched t) (known_dead t).

Definition NetworkTransport_new (stream : Stream) (packet_size : nat) : NetworkTransport :=
  {| nt_encryption := None;
     nt_packet_size := packet_size;
     nt_stream := Some stream;
     tds_read_buffer := TdsReadBuffer_new packet_size;
     extractable_stream_handle := false;
     pending_reset := ResetNone;
     reset_dispatched := false;
     known_dead := false |}.

(** Runs a buffer operation on the transport's read buffer. *)
Definition on_buffer {A} (m : M TdsReadBuffer A) : M NetworkTransport A :=
  fun t => let '(r, b) := m (tds_read_buffer t) in (r, t {{ tds_read_buffer := b }}).

(** ** The write half *)

Definition cannot_send : Error := ConnectionClosed "Cannot send: connection has been closed".

(** [NetworkWriter::send]; [env] says how the socket takes the bytes. *)
Definition send (env : WriteEnv) (data : bytes) : M NetworkTransport unit :=
  fun t =>
    match nt_stream t with
    | None => (Err cannot_send, t)
    | Some s =>
        match we_error env with
        | Some e =>
            (Err e, t {{ nt_stream := Some (s {{ st_out ::= fun o => o ++ take (we_partial env) data }}) }}
                      {{ known_dead := true }})
        | None => (Ok tt, t {{ nt_stream := Some (s {{ st_out ::= fun o => o ++ data }}) }})
        end
    end.

(** A [send] future dropped before it completed: some prefix may be on the wire. *)
Definition send_dropped (env : WriteEnv) (data : bytes) (t : NetworkTransport)
    : NetworkTransport :=
  match nt_stream t with
  | None => t
  | Some s => t {{ nt_stream := Some (s {{ st_out ::= fun o => o ++ take (we_partial env) data }}) }}
  end.

Definition get_encryption_setting (t : NetworkTransport) : NegotiatedEncryptionSetting :=
  default NoEncryption (nt_encryption t).

Definition set_reset_mode (mode : ResetConnectionMode) (t : NetworkTransport)
    : NetworkTransport :=
  t {{ pending_reset := mode }} {{ reset_dispatched := false }}.

Definition take_reset_mode (t : NetworkTransport) : ResetConnectionMode * NetworkTransport :=
  (pending_reset t, t {{ pending_reset := ResetNone }}).

Definition note_reset_dispatched (t : NetworkTransport) : NetworkTransport :=
  t {{ reset_dispatched := true }}.

Definition take_reset_dispatched (t : NetworkTransport) : bool * NetworkTransport :=
  (reset_dispatched t, t {{ reset_dispatched := false }}).

(** [disable_ssl_internal]: the encrypted stream is given up before the plain one is found. *)
Definition disable_ssl : M NetworkTransport unit :=
  fun t =>
    match nt_stream t with
    | None => (Err (ImplementationError "disable_ssl called but stream is not available"), t)
    | Some s =>
        if extractable_stream_handle t then
          (Ok tt, t {{ extractable_stream_handle := false }})
        else
          (Err (ImplementationError "Cannot disable TLS: TLS was never enabled"),
           t {{ nt_stream := None }})
    end.

(** [PacketType::first_packet_callback]. *)
Definition first_packet_callback (ty : PacketType) : M NetworkTransport unit :=
  match ty with
  | Login7 =>
      setting <- gets get_encryption_setting ;;
      if decide (setting = LoginOnly) then disable_ssl else ret tt
  | _ => ret tt
  end.

Definition notify_session_setting_change (packet_size : nat) (t : NetworkTransport)
    : NetworkTransport := t {{ nt_packet_size := packet_size }}.

(** [notify_encryption_negotiation], which asserts it runs once. *)
Definition notify_encryption_negotiation (e : NegotiatedEncryptionSetting)
    : M NetworkTransport unit :=
  fun t => match nt_encryption t with
           | None => (Ok tt, t {{ nt_encryption := Some e }})
           | Some _ => (Panic "assertion failed: self.encryption.is_none()", t)
           end.

Definition abort_transport (t : NetworkTransport) : NetworkTransport :=
  t {{ nt_stream := None }} {{ extractable_stream_handle := false }} {{ known_dead := true }}.

(** ** Framing *)

Definition PACKET_HEADER_SIZE : nat := 8.

Definition cannot_read : Error :=
  ConnectionClosed "Cannot read TDS packet: connection has been closed".
Definition bad_pending : Error := ProtocolError "Invalid pending bytes range".
Definition bad_length_small : Error :=
  ProtocolError "Invalid TDS packet length: must be at least the header size".
Definition bad_length_large : Error :=
  ProtocolError "TDS packet length exceeds negotiated max packet size".
Definition bad_length_capacity : Error := ProtocolError "TDS packet length exceeds buffer capacity".
Definition empty_packet : Error :=
  ProtocolError "Received a payload-free TDS packet that is not end-of-message".
Definition closed_while_reading (header : bool) : Error :=
  ConnectionClosed (if header
    then "Connection closed by server while reading TDS packet header"
    else "Connection closed by server while reading TDS packet payload").
Definition past_end_of_message_error : Error :=
  ProtocolError "TDS read extends past the end of the message".
Definition no_progress_error : Error := ProtocolError "TDS read made no progress".
Definition stalled_on_empty_messages_error : Error := ProtocolError "TDS read stalled".

Definition MAX_CONSECUTIVE_EMPTY_MESSAGES : nat := 1.

Definition message_cannot_satisfy (needed : nat) (t : NetworkTransport) : bool :=
  end_of_message (tds_read_buffer t)
  && bool_decide (get_remaining_byte_count (tds_read_buffer t) < needed)%nat.

Definition value_truncated_by_message_end (consumed_any : bool) (needed : nat)
    (t : NetworkTransport) : bool :=
  (consumed_any || bool_decide (0 < get_remaining_byte_count (tds_read_buffer t))%nat)
  && message_cannot_satisfy needed t.

(** [move_pending_packet_bytes]. *)
Definition move_pending_packet_bytes (base_offset : nat) : M TdsReadBuffer nat :=
  fun b =>
    let bytes_available := pending_bytes b in
    let pending_offset := pending_bytes_offset b in
    if decide (0 < bytes_available)%nat then
      let src_end := (pending_offset + bytes_available)%nat in
      let dest_end := (base_offset + bytes_available)%nat in
      let buffer_len := length (working_buffer b) in
      if decide (buffer_len < src_end \/ buffer_len < dest_end)%nat then (Err bad_pending, b)
      else
        match copy_within pending_offset src_end base_offset (working_buffer b) with
        | Ok buf => (Ok bytes_available,
                     b {{ working_buffer := buf }} {{ pending_bytes := 0%nat }}
                       {{ pending_bytes_offset := 0%nat }})
        | Err e => (Err e, b)
        | Panic w => (Panic w, b)
        | OutOfFuel => (OutOfFuel, b)
        end
    else (Ok bytes_available, b).

(** [complete_tds_packet_if_available]. *)
Definition complete_tds_packet_if_available (base_offset bytes_available : nat)
    : M TdsReadBuffer (option nat) :=
  if decide (bytes_available < PACKET_HEADER_SIZE)%nat then ret None
  else
    b <- gets id ;;
    len <- lift (index_range (base_offset + 2) (base_offset + 4) (working_buffer b)) ;;
    let packet_size := Z.to_nat (of_be len) in
    if decide (packet_size < PACKET_HEADER_SIZE)%nat then throw bad_length_small
    else if decide (max_packet_size b < packet_size)%nat then throw bad_length_large
    else if decide (length (working_buffer b) < base_offset + packet_size)%nat
      then throw bad_length_capacity
    else if decide (bytes_available < packet_size)%nat then ret None
    else
      status <- lift (index_range (base_offset + 1) (base_offset + 2) (working_buffer b)) ;;
      let is_end_of_message := has_bit (of_le status) (PacketStatusFlags_u8 Eom) in
      if bool_decide (packet_size = PACKET_HEADER_SIZE) && negb is_end_of_message
      then throw empty_packet
      else
        modify (fun b => b {{ end_of_message := is_end_of_message }}) ;;
        let extra_bytes := (bytes_available - packet_size)%nat in
        (if decide (0 < extra_bytes)%nat then
           modify (fun b => b {{ pending_bytes := extra_bytes }}
                              {{ pending_bytes_offset := (base_offset + packet_size)%nat }})
         else
           modify (fun b => b {{ pending_bytes := 0%nat }} {{ pending_bytes_offset := 0%nat }})) ;;
        ret (Some packet_size).

(** Storing what a socket read returned at [base_offset + bytes_available]. *)
Definition store_read (at_ : nat) (bs : bytes) (t : NetworkTransport) : NetworkTransport :=
  t {{ tds_read_buffer ::= fun b => b {{ working_buffer ::= splice at_ bs }} }}.

Definition set_stream_in (es : list ReadEvent) (t : NetworkTransport) : NetworkTransport :=
  t {{ nt_stream ::= fmap (fun s => s {{ st_in := es }}) }}.

(** The loop of [get_new_tds_packet]; [fuel] bounds the socket reads. *)
Fixpoint get_packet_loop (fuel base_offset bytes_available : nat) : M NetworkTransport nat :=
  match fuel with
  | O => out_of_fuel
  | S fuel =>
      done <- on_buffer (complete_tds_packet_if_available base_offset bytes_available) ;;
      match done with
      | Some packet_size => ret packet_size
      | None => fun t =>
          match nt_stream t with
          | None => (Err cannot_read, t)
          | Some s =>
              let at_ := (base_offset + bytes_available)%nat in
              let cap := (length (working_buffer (tds_read_buffer t)) - at_)%nat in
              match stream_read cap (st_in s) with
              | (Ok [], es) =>
                  (Err (closed_while_reading (bool_decide (bytes_available < PACKET_HEADER_SIZE)%nat)),
                   set_stream_in es (t {{ known_dead := true }}))
              | (Ok bs, es) =>
                  get_packet_loop fuel base_offset (bytes_available + length bs)
                    (store_read at_ bs (set_stream_in es t))
              | (Err e, es) => (Err e, set_stream_in es (t {{ known_dead := true }}))
              | (Panic w, es) => (Panic w, set_stream_in es t)
              | (OutOfFuel, es) => (OutOfFuel, set_stream_in es t)
              end
          end
      end
  end.

Definition in_events (t : NetworkTransport) : list ReadEvent :=
  match nt_stream t with Some s => st_in s | None => [] end.

Definition get_new_tds_packet : M NetworkTransport nat :=
  base_offset <- gets (fun t => buffer_length (tds_read_buffer t)) ;;
  bytes_available <- on_buffer (move_pending_packet_bytes base_offset) ;;
  fun t => get_packet_loop (S (stream_measure (in_events t))) base_offset bytes_available t.

Definition read_tds_packet : M NetworkTransport unit :=
  remaining_bytes <- gets (fun t => get_remaining_byte_count (tds_read_buffer t)) ;;
  (if decide (0 < remaining_bytes)%nat then on_buffer shift_data_to_front
   else on_buffer (modify (reset_to_length 0))) ;;
  new_packet_size <- get_new_tds_packet ;;
  on_buffer (remove_header_from_packet new_packet_size).

(** [park_partial_packet] and the non-blocking probe. *)
Definition park_partial_packet (base_offset bytes_available : nat) (b : TdsReadBuffer)
    : TdsReadBuffer :=
  b {{ pending_bytes := bytes_available }} {{ pending_bytes_offset := base_offset }}.

Fixpoint try_get_packet_loop (fuel base_offset bytes_available : nat)
    : M NetworkTransport (option nat) :=
  match fuel with
  | O => out_of_fuel
  | S fuel =>
      done <- on_buffer (complete_tds_packet_if_available base_offset bytes_available) ;;
      match done with
      | Some packet_size => ret (Some packet_size)
      | None => fun t =>
          match nt_stream t with
          | None => (Err cannot_read, t)
          | Some s =>
              let at_ := (base_offset + bytes_available)%nat in
              let cap := (length (working_buffer (tds_read_buffer t)) - at_)%nat in
              match stream_poll_read cap (st_in s) with
              | (Ok None, es) =>
                  (Ok None, (set_stream_in es t)
                     {{ tds_read_buffer ::= park_partial_packet base_offset bytes_available }})
              | (Ok (Some []), es) =>
                  (Err (closed_while_reading (bool_decide (bytes_available < PACKET_HEADER_SIZE)%nat)),
                   set_stream_in es (t {{ known_dead := true }}))
              | (Ok (Some bs), es) =>
                  try_get_packet_loop fuel base_offset (bytes_available + length bs)
                    (store_read at_ bs (set_stream_in es t))
              | (Err e, es) => (Err e, set_stream_in es (t {{ known_dead := true }}))
              | (Panic w, es) => (Panic w, set_stream_in es t)
              | (OutOfFuel, es) => (OutOfFuel, set_stream_in es t)
              end
          end
      end
  end.

Definition try_get_new_tds_packet : M NetworkTransport (option nat) :=
  base_offset <- gets (fun t => buffer_length (tds_read_buffer t)) ;;
  bytes_available <- on_buffer (move_pending_packet_bytes base_offset) ;;
  fun t => try_get_packet_loop (S (stream_measure (in_events t))) base_offset bytes_available t.

Definition try_read_tds_packet : M NetworkTransport bool :=
  b <- gets tds_read_buffer ;;
  if end_of_message b then ret false
  else
    let remaining_bytes := get_remaining_byte_count b in
    if decide (length (working_buffer b) < remaining_bytes + max_packet_size b)%nat
    then ret false
    else
      (if decide (0 < remaining_bytes)%nat then on_buffer shift_data_to_front
       else on_buffer (modify (reset_to_length 0))) ;;
      size <- try_get_new_tds_packet ;;
      match size with
      | None => ret false
      | Some new_packet_size =>
          on_buffer (remove_header_from_packet new_packet_size) ;; ret true
      end.

(** ** Scalar readers *)

Definition refill_for (needed : nat) : M NetworkTransport unit :=
  truncated <- gets (value_truncated_by_message_end false needed) ;;
  if (truncated : bool) then throw past_end_of_message_error else read_tds_packet.

(** The readers' [loop { if let Some(v) = try_read..() { return v } refill_for(n) }].  Each
    refill frames a packet of at least eight bytes, so what the stream holds bounds the turns
    ([read_fuel]). *)
Fixpoint read_loop {A} (fuel n : nat) (try_read : M TdsReadBuffer (option A))
    : M NetworkTransport A :=
  match fuel with
  | O => out_of_fuel
  | S fuel =>
      o <- on_buffer try_read ;;
      match o with
      | Some v => ret v
      | None => refill_for n ;; read_loop fuel n try_read
      end
  end.

Definition read_fuel (t : NetworkTransport) : nat :=
  (3 + stream_measure (in_events t) + pending_bytes (tds_read_buffer t))%nat.

Definition read_scalar {A} (n : nat) (try_read : M TdsReadBuffer (option A))
    : M NetworkTransport A :=
  fun t => read_loop (read_fuel t) n try_read t.

Module Net.

Definition read_byte := read_scalar 1 try_read_byte.
Definition read_int16 := read_scalar 2 try_read_int16.
Definition read_uint16 := read_scalar 2 try_read_uint16.
Definition read_uint24 := read_scalar 3 try_read_uint24.
Definition read_int32 := read_scalar 4 try_read_int32.
Definition read_uint32 := read_scalar 4 try_read_uint32.
Definition read_uint40 := read_scalar 5 try_read_uint40.
Definition read_int64 := read_scalar 8 try_read_int64.
Definition read_float32 := read_scalar 4 try_read_float32.
Definition read_float64 := read_scalar 8 try_read_float64.

(** The big-endian and [u64] readers: [while !enough { refill }], slice, consume. *)
Definition peek_and_consume {A} (n : nat) (f : bytes -> A) : M TdsReadBuffer (option A) :=
  enough <- gets (do_we_have_enough_data n) ;;
  if (enough : bool) then
    slice_ <- (fun b => (get_slice b, b)) ;;
    consume_bytes n ;; ret (Some (f (take n slice_)))
  else ret None.

Definition read_int16_big_endian := read_scalar 2 (peek_and_consume 2 of_be_signed).
Definition read_int32_big_endian := read_scalar 4 (peek_and_consume 4 of_be_signed).
Definition read_uint64 := read_scalar 8 (peek_and_consume 8 of_le).

(** ** Bulk readers *)

(** The body shared by [read_bytes], [read_bytes_uninit] and [skip_bytes]: [want] is the
    refill threshold each uses, [acc] what was copied out so far. *)
Fixpoint bulk_loop (fuel : nat) (want : TdsReadBuffer -> nat -> nat)
    (acc : bytes) (length_to_read empty_messages : nat) : M NetworkTransport bytes :=
  match fuel with
  | O => out_of_fuel
  | S fuel =>
      if decide (length_to_read = 0%nat) then ret acc
      else
        truncated <- gets (value_truncated_by_message_end
                             (bool_decide (0 < length acc)%nat) length_to_read) ;;
        if (truncated : bool) then throw past_end_of_message_error
        else
          b <- gets tds_read_buffer ;;
          (if do_we_have_enough_data (want b length_to_read) b then ret tt
           else read_tds_packet) ;;
          b <- gets tds_read_buffer ;;
          let available := get_remaining_byte_count b in
          let to_read := Nat.min available (Nat.min length_to_read (max_packet_size b - 8)) in
          if decide (to_read = 0%nat) then
            if negb (end_of_message b) then throw no_progress_error
            else if decide (0 < length acc)%nat then throw past_end_of_message_error
            else if decide (MAX_CONSECUTIVE_EMPTY_MESSAGES < empty_messages + 1)%nat
              then throw stalled_on_empty_messages_error
            else bulk_loop fuel want acc length_to_read (empty_messages + 1)
          else
            chunk <- lift (index_range (buffer_position b) (buffer_position b + to_read)
                             (working_buffer b)) ;;
            on_buffer (consume_bytes to_read) ;;
            bulk_loop fuel want (acc ++ chunk) (length_to_read - to_read) empty_messages
  end.

Definition read_bytes (n : nat) : M NetworkTransport bytes :=
  bulk_loop (n + 3) (fun b len => Nat.min (max_packet_size b) len) [] n 0.

Definition skip_bytes (n : nat) : M NetworkTransport unit :=
  bulk_loop (n + 3) (fun b len => Nat.min (max_packet_size b - 8) len) [] n 0 ;; ret tt.

Definition reset_reader (t : NetworkTransport) : NetworkTransport :=
  t {{ tds_read_buffer ::=
         fun b => reset_to_length 0 (change_packet_size (nt_packet_size t) b) }}.

End Net.
