(* ===== verification/Framing.v ===== *)
(** * Framing is exact

    [next_packet] is the specification of one packet on a byte stream.  Whatever way the socket
    cuts the stream into reads, and whatever was read ahead before, [read_tds_packet] behaves as
    [next_packet] says: it appends exactly that packet's payload to the unread bytes, or fails,
    and it never panics. *)

From stdpp Require Import strings.
From S2P Require Import Prelude Core ReadBuffer Transport.

(** The length field of the header at the front of [w]. *)
Definition header_length (w : bytes) : nat := Z.to_nat (of_be (slice 2 4 w)).

Definition header_eom (w : bytes) : bool := has_bit (of_le (slice 1 2 w)) 1.

(** One packet off the front of [w]: end-of-message flag, payload, and what follows. *)
Definition next_packet (max : nat) (w : bytes) : option (bool * bytes * bytes) :=
  let n := header_length w in
  if decide (8 <= length w /\ 8 <= n <= max /\ n <= length w /\
             (n = 8 -> header_eom w = true))%nat
  then Some (header_eom w, slice 8 n w, drop n w)
  else None.

(** Everything received and not yet framed, then everything still to arrive. *)
Definition wire (t : NetworkTransport) : bytes :=
  parked (tds_read_buffer t) ++ stream_data (in_events t).

(** The fields of the transport that reading does not touch. *)
Record reader_frame (t t' : NetworkTransport) : Prop := {
  rf_encryption : nt_encryption t' = nt_encryption t;
  rf_packet_size : nt_packet_size t' = nt_packet_size t;
  rf_out : st_out <$> nt_stream t' = st_out <$> nt_stream t;
  rf_writes : st_writes <$> nt_stream t' = st_writes <$> nt_stream t;
  rf_reset : pending_reset t' = pending_reset t;
  rf_dispatched : reset_dispatched t' = reset_dispatched t;
}.

#[global] Instance reader_frame_refl : Reflexive reader_frame.
Proof. by constructor. Qed.

#[global] Instance reader_frame_trans : Transitive reader_frame.
Proof. intros ??? [] []; constructor; congruence. Qed.

Definition transport_wf (t : NetworkTransport) : Prop :=
  buffer_wf (tds_read_buffer t) /\ (8 < max_packet_size (tds_read_buffer t))%nat.

Abbreviation rb := tds_read_buffer (only parsing).
Abbreviation remaining t := (get_remaining_byte_count (tds_read_buffer t)).
Abbreviation nt_max t := (max_packet_size (tds_read_buffer t)).

(** Errors of framing itself, as opposed to those of the rules for reading values. *)
Definition framing_error (e : Error) : Prop :=
  e <> past_end_of_message_error /\ e <> no_progress_error /\
  e <> stalled_on_empty_messages_error.

Ltac solve_framing_error := split_and!; discriminate.
#[local] Hint Extern 1 (framing_error _) => solve_framing_error : core.

(** ** The socket *)

(** Putting back what a read did not take. *)
Lemma unread_rest (rest : bytes) es (es' := match rest with [] => es | x :: l => EvData (x :: l) :: es end) :
  stream_data es' = rest ++ stream_data es /\
  (stream_measure es' <= S (length rest) + stream_measure es)%nat.
Proof. destruct rest; cbn; split; auto; lia. Qed.

Lemma stream_read_spec cap es :
  (0 < cap)%nat ->
  match stream_read cap es with
  | (Ok [], es') => stream_data es = []
  | (Ok bs, es') => stream_data es = bs ++ stream_data es' /\ (length bs <= cap)%nat /\
      (stream_measure es' < stream_measure es)%nat
  | (Err e, _) => stream_data es = [] /\ framing_error e
  | _ => False
  end.
Proof.
  intros Hcap. unfold stream_read. rewrite decide_False by lia.
  induction es as [|[bs| |m] es IH]; cbn [read_events stream_data]; try done.
  - destruct bs as [|x bs]; [by destruct cap|]. destruct cap as [|cap]; [lia|].
    cbn [take drop]. destruct (unread_rest (drop cap bs) es) as [Hd Hm]. split_and!.
    + cbn. by rewrite Hd, app_assoc, take_drop.
    + cbn. rewrite length_take. lia.
    + rewrite length_drop in Hm. cbn [stream_measure length]. lia.
  - cbn [stream_measure]. destruct (read_events cap es) as [[[|x bs]| | |] es']; try done.
    intuition lia.
Qed.

Lemma in_events_set_stream_in es t s :
  nt_stream t = Some s -> in_events (set_stream_in es t) = es.
Proof. intros H. unfold in_events, set_stream_in; cbn. by rewrite H. Qed.

Lemma set_stream_in_frame es t : reader_frame t (set_stream_in es t).
Proof. constructor; unfold set_stream_in; cbn; try done; by destruct (nt_stream t). Qed.

(** ** Collecting one packet *)

(** [avail] bytes of the coming packet sit at [base]; with what the socket still holds they
    are [w].  [u] is the unread payload in front of them. *)
Record collecting (base avail : nat) (w u : bytes) (t : NetworkTransport) : Prop := {
  co_wf : transport_wf t;
  co_base : buffer_length (rb t) = base;
  co_room : (base <= nt_max t)%nat;
  co_pending : pending_bytes (rb t) = 0%nat;
  co_avail : (base + avail <= length (working_buffer (rb t)))%nat;
  co_unread : unread (rb t) = u;
  co_wire : slice base (base + avail) (working_buffer (rb t)) ++ stream_data (in_events t) = w;
}.

Lemma header_slice base avail (wb tail : bytes) i j :
  (j <= avail)%nat -> (base + avail <= length wb)%nat ->
  slice (base + i) (base + j) wb = slice i j (slice base (base + avail) wb ++ tail).
Proof.
  intros. apply list_eq; intros k. rewrite !lookup_slice. repeat case_decide; try lia; try done.
  rewrite lookup_app_l by (rewrite length_slice; lia). rewrite lookup_slice.
  rewrite decide_True by lia. f_equal; lia.
Qed.

Section complete.
Context (base avail : nat) (w u : bytes) (t : NetworkTransport).
Context (Hc : collecting base avail w u t).

Lemma collecting_length : length w = (avail + length (stream_data (in_events t)))%nat.
Proof. destruct Hc. subst w. rewrite length_app, length_slice; lia. Qed.

(** With a whole header in the buffer the code sees [header_length] and [header_eom]. *)
Lemma header_in_buffer :
  (8 <= avail)%nat ->
  index_range (base + 2) (base + 4) (working_buffer (tds_read_buffer t)) = Ok (slice 2 4 w) /\
  index_range (base + 1) (base + 2) (working_buffer (tds_read_buffer t)) = Ok (slice 1 2 w).
Proof.
  intros Ha. destruct Hc as [_ _ _ _ Hav _ Hw]. unfold index_range.
  rewrite !decide_True by (lia).
  rewrite <- Hw. split; f_equal; apply (header_slice base avail); lia.
Qed.

Lemma complete_waits :
  (avail < 8 \/ 8 <= avail /\ 8 <= header_length w <= nt_max t /\ avail < header_length w)%nat ->
  complete_tds_packet_if_available base avail (tds_read_buffer t) = (Ok None, (tds_read_buffer t)).
Proof.
  intros H. unfold complete_tds_packet_if_available, PACKET_HEADER_SIZE.
  destruct H as [H|(Ha & Hn & Hlt)]; [by rewrite decide_True|].
  rewrite decide_False by lia. unfold bind at 1, gets, id.
  destruct (header_in_buffer Ha) as [E1 _]. rewrite E1. unfold bind, lift.
  change (Z.to_nat (of_be (slice 2 4 w))) with (header_length w).
  destruct Hc as [[[] ?] ? ? ? ? ?].
  rewrite !decide_False by lia. by rewrite decide_True.
Qed.

Lemma complete_rejects :
  (8 <= avail)%nat ->
  ~ (8 <= header_length w <= nt_max t)%nat \/
    (header_length w = 8 /\ header_eom w = false)%nat ->
  exists e, framing_error e /\
    complete_tds_packet_if_available base avail (tds_read_buffer t) = (Err e, (tds_read_buffer t)).
Proof.
  intros Ha H. unfold complete_tds_packet_if_available, PACKET_HEADER_SIZE.
  rewrite decide_False by lia. unfold bind at 1, gets, id.
  destruct (header_in_buffer Ha) as [E1 E2]. rewrite E1. unfold bind, lift.
  change (Z.to_nat (of_be (slice 2 4 w))) with (header_length w).
  destruct Hc as [[[] ?] ? ? ? ? ?].
  destruct (decide (header_length w < 8)%nat); [eexists; split; [|done]; auto|].
  destruct (decide (max_packet_size (tds_read_buffer t) < header_length w)%nat); [eexists; split; [|done]; auto|].
  destruct H as [H|[H8 He]]; [lia|]. rewrite H8.
  rewrite !decide_False by lia. rewrite E2.
  change (has_bit (of_le (slice 1 2 w)) (PacketStatusFlags_u8 Eom)) with (header_eom w).
  rewrite He. eexists; split; [|done]; auto.
Qed.

Lemma complete_done :
  (8 <= header_length w <= nt_max t)%nat -> (header_length w <= avail)%nat ->
  (header_length w = 8%nat -> header_eom w = true) ->
  exists b', complete_tds_packet_if_available base avail (tds_read_buffer t) = (Ok (Some (header_length w)), b') /\
    buffer_wf b' /\ max_packet_size b' = max_packet_size (tds_read_buffer t) /\ buffer_length b' = base /\
    unread b' = unread (tds_read_buffer t) /\ end_of_message b' = header_eom w /\
    working_buffer b' = working_buffer (tds_read_buffer t) /\
    ((0 < pending_bytes b')%nat -> (base + header_length w <= pending_bytes_offset b')%nat) /\
    parked b' = slice (base + header_length w) (base + avail) (working_buffer (tds_read_buffer t)).
Proof.
  intros Hn Ha He. unfold complete_tds_packet_if_available, PACKET_HEADER_SIZE.
  rewrite decide_False by lia. unfold bind at 1, gets, id.
  destruct (header_in_buffer ltac:(lia)) as [E1 E2]. rewrite E1. unfold bind, lift.
  change (Z.to_nat (of_be (slice 2 4 w))) with (header_length w).
  destruct Hc as [[Hwf ?] Hb Hroom Hp Hav Hu Hw].
  pose proof Hwf as [? ? Hcap ? ?].
  rewrite !decide_False by lia. rewrite E2.
  change (has_bit (of_le (slice 1 2 w)) (PacketStatusFlags_u8 Eom)) with (header_eom w).
  assert (bool_decide (header_length w = 8%nat) && negb (header_eom w) = false) as ->.
  { destruct (decide (header_length w = 8%nat)) as [E|E];
      [by rewrite He, andb_false_r|by rewrite bool_decide_false]. }
  unfold modify, ret. case_decide; cbn; eexists; (split; [done|]); cbn; split_and!;
    try done; try lia; try (constructor; cbn; lia).
  - unfold parked; cbn. f_equal; lia.
  - unfold parked; cbn. rewrite !slice_nil; auto; lia.
Qed.
End complete.

(** The bytes a read stores extend the collected prefix. *)
Lemma collecting_step base avail w u t s bs es :
  collecting base avail w u t -> nt_stream t = Some s ->
  stream_data (st_in s) = bs ++ stream_data es ->
  (length bs <= length (working_buffer (rb t)) - (base + avail))%nat ->
  collecting base (avail + length bs) w u (store_read (base + avail) bs (set_stream_in es t)).
Proof.
  intros [[Hwf Hm] Hb Hroom Hp Hav Hu Hw] Hs Hd Hlen.
  pose proof Hwf as [? ? Hcap ? ?].
  assert (Hl : length (splice (base + avail) bs (working_buffer (rb t)))
               = length (working_buffer (rb t))) by (apply length_splice; lia).
  constructor; cbn; auto.
  - split; [|done]. constructor; cbn; rewrite ?Hl; try lia.
  - rewrite Hl. lia.
  - unfold unread; cbn. rewrite slice_splice_before by lia. done.
  - assert (in_events (store_read (base + avail) bs (set_stream_in es t)) = es) as ->.
    { apply (in_events_set_stream_in es t s Hs). }
    rewrite (slice_app_adjacent _ base (base + avail)) by lia.
    rewrite slice_splice_before by lia. rewrite slice_splice_same by lia.
    unfold in_events in Hw. rewrite Hs, Hd in Hw. by rewrite <- app_assoc.
Qed.

Lemma on_buffer_eq {A} (m : M TdsReadBuffer A) t r b :
  m (rb t) = (r, b) -> on_buffer m t = (r, t {{ tds_read_buffer := b }}).
Proof. intros H. unfold on_buffer. by rewrite H. Qed.

Lemma transport_eta t : t {{ tds_read_buffer := tds_read_buffer t }} = t.
Proof. by destruct t. Qed.

(** What a failed framing attempt leaves behind. *)
Record framing_failed (base : nat) (u : bytes) (t t' : NetworkTransport) : Prop := {
  ff_wf : transport_wf t';
  ff_max : nt_max t' = nt_max t;
  ff_base : buffer_length (rb t') = base;
  ff_unread : unread (rb t') = u;
  ff_frame : reader_frame t t';
}.

(** What a framed packet leaves behind: its bytes at [base], the rest parked or on the socket. *)
Record framing_done (base : nat) (u : bytes) (eom : bool) (payload rest : bytes)
    (t t' : NetworkTransport) : Prop := {
  fd_wf : transport_wf t';
  fd_max : nt_max t' = nt_max t;
  fd_base : buffer_length (rb t') = base;
  fd_unread : unread (rb t') = u;
  fd_eom : end_of_message (rb t') = eom;
  fd_payload : slice (base + 8) (base + (8 + length payload)) (working_buffer (rb t')) = payload;
  fd_room : (base + (8 + length payload) <= length (working_buffer (rb t')))%nat;
  fd_pending : (0 < pending_bytes (rb t'))%nat ->
    (base + (8 + length payload) <= pending_bytes_offset (rb t'))%nat;
  fd_wire : wire t' = rest;
  fd_frame : reader_frame t t';
  fd_dead : known_dead t' = known_dead t;
}.

Lemma next_packet_short max w : (length w < 8)%nat -> next_packet max w = None.
Proof. intros. unfold next_packet. rewrite decide_False; [done|lia]. Qed.

Lemma next_packet_incomplete max w :
  (length w < header_length w)%nat -> next_packet max w = None.
Proof. intros. unfold next_packet. rewrite decide_False; [done|lia]. Qed.

(** One turn of the loop, in the three cases: a header to reject, a whole packet, too few
    bytes. *)
Lemma loop_rejects base avail w u t :
  collecting base avail w u t -> (8 <= avail)%nat ->
  ~ (8 <= header_length w <= nt_max t)%nat \/
    (header_length w = 8 /\ header_eom w = false)%nat ->
  next_packet (nt_max t) w = None /\
  exists e, framing_error e /\
    on_buffer (complete_tds_packet_if_available base avail) t = (Err e, t).
Proof.
  intros Hc Ha Hr. destruct (complete_rejects _ _ _ _ _ Hc Ha Hr) as (e & Hfe & He). split.
  - unfold next_packet. rewrite decide_False; [done|]. destruct Hr as [|[? He']]; [lia|].
    intros (? & ? & ? & Hx). rewrite Hx in He' by done. done.
  - exists e. split; [done|]. by rewrite (on_buffer_eq _ _ _ _ He), transport_eta.
Qed.

Lemma loop_completes base avail w u t :
  collecting base avail w u t ->
  (8 <= header_length w <= nt_max t)%nat -> (header_length w <= avail)%nat ->
  (header_length w = 8%nat -> header_eom w = true) ->
  exists payload rest t', next_packet (nt_max t) w = Some (header_eom w, payload, rest) /\
    on_buffer (complete_tds_packet_if_available base avail) t
      = (Ok (Some (8 + length payload)%nat), t') /\
    framing_done base u (header_eom w) payload rest t t'.
Proof.
  intros Hc Hn Hd He. pose proof (collecting_length _ _ _ _ _ Hc) as Hlen.
  destruct (complete_done _ _ _ _ _ Hc Hn Hd He)
    as (b' & Hcomp & Hwf' & Hmax' & Hbl' & Hu' & Heom' & Hwb' & Hpend' & Hpark').
  destruct Hc as [[Hwf Hm] Hb Hroom Hp Hav Hu Hw]. pose proof Hwf as [? ? Hcap ? ?].
  assert (Hpl : length (slice 8 (header_length w) w) = (header_length w - 8)%nat)
    by (apply length_slice; lia).
  assert (Hsz : (8 + (header_length w - 8) = header_length w)%nat) by lia.
  exists (slice 8 (header_length w) w), (drop (header_length w) w),
    (t {{ tds_read_buffer := b' }}).
  split_and!.
  - unfold next_packet. by rewrite decide_True by (split_and!; try lia; done).
  - rewrite Hpl, Hsz. by apply on_buffer_eq.
  - constructor; rewrite ?Hpl, ?Hsz; cbn; try done; try congruence.
    + by split; [|cbn; rewrite Hmax'].
    + rewrite Hwb'. rewrite <- Hw at 3. by rewrite <- (header_slice base avail) by lia.
    + rewrite Hwb', Hcap. lia.
    + unfold wire; cbn. rewrite Hpark'. change (in_events _) with (in_events t).
      trans (drop (header_length w) (slice base (base + avail) (working_buffer (rb t))
               ++ stream_data (in_events t))); [|by rewrite Hw].
      rewrite drop_app_le by (rewrite length_slice; lia). f_equal.
      unfold slice. rewrite skipn_firstn_comm, drop_drop. f_equal; lia.
Qed.

Lemma next_packet_starved base avail w u t :
  collecting base avail w u t -> stream_data (in_events t) = [] ->
  (avail < 8 \/ avail < header_length w)%nat -> next_packet (nt_max t) w = None.
Proof.
  intros Hc E H. pose proof (collecting_length _ _ _ _ _ Hc) as Hlen. rewrite E in Hlen.
  cbn in Hlen. destruct H; [apply next_packet_short|apply next_packet_incomplete]; lia.
Qed.

Lemma store_read_frame at_ bs es t :
  reader_frame t (store_read at_ bs (set_stream_in es t)).
Proof. destruct (set_stream_in_frame es t). by constructor. Qed.

Lemma framing_failed_dead base avail w u t es :
  collecting base avail w u t ->
  framing_failed base u t (set_stream_in es (t {{ known_dead := true }})).
Proof.
  intros []. constructor; try done. destruct (set_stream_in_frame es t). by constructor.
Qed.

Lemma framing_failed_same base avail w u t :
  collecting base avail w u t -> framing_failed base u t t.
Proof. intros []. by constructor. Qed.

(** What [get_packet_loop] guarantees from a state that collected [w]. *)
Definition loop_post (base : nat) (w u : bytes) (t : NetworkTransport)
    (res : TdsResult nat * NetworkTransport) : Prop :=
  match next_packet (nt_max t) w with
  | Some (eom, payload, rest) => exists t',
      res = (Ok (8 + length payload)%nat, t') /\ framing_done base u eom payload rest t t'
  | None => exists e t', res = (Err e, t') /\ framing_error e /\ framing_failed base u t t'
  end.

Lemma loop_post_step base w u t t1 res :
  nt_max t1 = nt_max t -> known_dead t1 = known_dead t -> reader_frame t t1 ->
  loop_post base w u t1 res -> loop_post base w u t res.
Proof.
  unfold loop_post. intros Hm Hk Hf. rewrite Hm.
  destruct (next_packet (nt_max t) w) as [[[eom payload] rest]|].
  - intros (t' & -> & []). exists t'. split; [done|]. constructor; try congruence; try done.
    by etrans.
  - intros (e & t' & -> & He & []). exists e, t'. split_and!; [done..|]. constructor; try congruence; try done.
    by etrans.
Qed.

Lemma get_packet_loop_spec fuel : forall base avail w u t,
  collecting base avail w u t -> (stream_measure (in_events t) < fuel)%nat ->
  loop_post base w u t (get_packet_loop fuel base avail t).
Proof.
  induction fuel as [|fuel IH]; intros base avail w u t Hc Hfuel; [lia|].
  destruct (decide (8 <= avail /\ (~ (8 <= header_length w <= nt_max t) \/
              header_length w = 8 /\ header_eom w = false))%nat) as [[Ha Hr]|Hnr].
  { destruct (loop_rejects _ _ _ _ _ Hc Ha Hr) as (Hnone & e & He & Hrej).
    cbn [get_packet_loop]. rewrite (bind_err _ _ _ _ _ Hrej).
    unfold loop_post. rewrite Hnone. eauto 6 using framing_failed_same. }
  destruct (decide (8 <= avail /\ header_length w <= avail)%nat) as [[Ha Hd]|Hnd].
  { assert (He : header_length w = 8%nat -> header_eom w = true).
    { intros E. destruct (header_eom w) eqn:E'; [done|]. exfalso. apply Hnr. auto. }
    destruct (loop_completes _ _ _ _ _ Hc ltac:(lia) Hd He) as (p & r & t' & E & Hdone & Hdn).
    cbn [get_packet_loop]. rewrite (bind_ok _ _ _ _ _ Hdone).
    unfold loop_post. rewrite E. eauto. }
  pose proof (complete_waits _ _ _ _ _ Hc ltac:(lia)) as Hwait.
  pose proof (next_packet_starved _ _ _ _ _ Hc) as Hend.
  cbn [get_packet_loop].
  rewrite (bind_ok _ _ _ _ _ (on_buffer_eq _ _ _ _ Hwait)), transport_eta.
  destruct (nt_stream t) as [s|] eqn:Hs; cycle 1.
  { unfold loop_post. unfold in_events in Hend. rewrite Hs in Hend.
    rewrite Hend by (done || lia). do 2 eexists; split; [done|]. split; [auto|].
    by eapply framing_failed_same. }
  assert (Hev : in_events t = st_in s) by (unfold in_events; by rewrite Hs).
  assert (Hcap : (0 < length (working_buffer (rb t)) - (base + avail))%nat)
    by (destruct Hc as [[[] ?] ? ? ? ? ? ?]; lia).
  pose proof (stream_read_spec _ (st_in s) Hcap) as Hread.
  destruct (stream_read _ (st_in s)) as [[[|x bs]| | |] es]; try done.
  2:{ destruct Hread as (Hd & Hl & Hm).
      pose proof (collecting_step _ _ _ _ _ _ _ _ Hc Hs Hd Hl) as Hc'.
      apply (IH _ _ _ _ _) in Hc'; [eapply loop_post_step, Hc'; auto using store_read_frame|].
      change (in_events (store_read ?a ?c ?t)) with (in_events t).
      rewrite (in_events_set_stream_in es t s Hs). rewrite Hev in Hfuel. lia. }
  1: assert (framing_error (closed_while_reading
       (bool_decide (avail < PACKET_HEADER_SIZE)%nat))) by (case_bool_decide; auto).
  2: destruct Hread as [Hread ?].
  all: unfold loop_post; rewrite Hend by (rewrite ?Hev; done || lia);
    do 2 eexists; split_and!; [done..|]; by eapply framing_failed_dead.
Qed.

(** Moving read-ahead bytes to where the packet is assembled starts the collection. *)
Lemma move_pending_ok t :
  transport_wf t -> (buffer_length (rb t) <= nt_max t)%nat ->
  exists n b', move_pending_packet_bytes (buffer_length (rb t)) (rb t) = (Ok n, b') /\
    collecting (buffer_length (rb t)) n (wire t) (unread (rb t)) (t {{ tds_read_buffer := b' }}).
Proof.
  intros [Hwf Hm] Hroom. pose proof Hwf as [? ? Hcap Hpend Hdisj].
  pose proof (length_parked _ Hwf) as Hlp.
  unfold move_pending_packet_bytes. case_decide as Hp.
  - specialize (Hdisj Hp). rewrite decide_False by lia. rewrite copy_within_ok by lia.
    assert (Hl : length (splice (buffer_length (rb t)) (parked (rb t)) (working_buffer (rb t)))
                 = length (working_buffer (rb t))) by (apply length_splice; lia).
    do 2 eexists; split; [done|]. fold (parked (rb t)). constructor; cbn; try done.
    + split; [|done]. constructor; cbn; rewrite ?Hl; lia.
    + rewrite Hl. lia.
    + unfold unread; cbn. apply slice_splice_before; lia.
    + unfold wire. f_equal. apply slice_splice_same; lia.
  - assert (pending_bytes (rb t) = 0%nat) as E by lia.
    do 2 eexists; split; [done|]. rewrite E, transport_eta. constructor; auto; try lia.
    + by split.
    + unfold wire. f_equal. unfold parked. rewrite !slice_nil; auto; lia.
Qed.

Lemma get_new_tds_packet_spec t :
  transport_wf t -> (buffer_length (rb t) <= nt_max t)%nat ->
  loop_post (buffer_length (rb t)) (wire t) (unread (rb t)) t (get_new_tds_packet t).
Proof.
  intros Hwf Hroom. destruct (move_pending_ok t Hwf Hroom) as (n & b' & Hmv & Hc).
  unfold get_new_tds_packet. unfold bind at 1, gets.
  rewrite (bind_ok _ _ _ _ _ (on_buffer_eq _ _ _ _ Hmv)).
  eapply loop_post_step; [| | |by apply get_packet_loop_spec; [|lia]]; try done.
  cbn. unfold move_pending_packet_bytes in Hmv.
  repeat (case_decide || case_match); simplify_eq; done.
Qed.

(** Making room keeps the unread payload and the wire, and starts within the packet size. *)
Lemma make_room t :
  transport_wf t -> (remaining t <= nt_max t)%nat ->
  exists t1, (if decide (0 < remaining t)%nat then on_buffer shift_data_to_front
              else on_buffer (modify (reset_to_length 0))) t = (Ok tt, t1) /\
    transport_wf t1 /\ nt_max t1 = nt_max t /\ (buffer_length (rb t1) <= nt_max t)%nat /\
    unread (rb t1) = unread (rb t) /\ wire t1 = wire t /\ reader_frame t t1 /\
    known_dead t1 = known_dead t.
Proof.
  intros [Hwf Hm] Hroom. case_decide as Hr.
  - destruct (shift_data_to_front_ok _ Hwf) as (b' & Hs & Hwf' & [Hx1 Hx2 _ _] & Hu & Hp & Hl).
    rewrite (on_buffer_eq _ _ _ _ Hs). eexists; split; [done|]; cbn. split_and!; try done.
    + split; [done|]. cbn. lia.
    + by rewrite Hl.
    + unfold wire; cbn. by rewrite Hx2.
  - unfold on_buffer, modify. eexists; split; [done|]; cbn. split_and!; try done.
    + split; [by apply reset_to_zero_wf|done].
    + lia.
    + unfold unread; cbn. rewrite slice_nil by lia. unfold get_remaining_byte_count in Hr.
      rewrite slice_nil; [done|lia].
Qed.

(** A framed packet, once its header is removed, extends the unread payload. *)
Lemma finish_packet base u eom p rest t1 t2 :
  framing_done base u eom p rest t1 t2 ->
  exists t3, on_buffer (remove_header_from_packet (8 + length p)) t2 = (Ok tt, t3) /\
    transport_wf t3 /\ nt_max t3 = nt_max t1 /\ unread (rb t3) = u ++ p /\
    end_of_message (rb t3) = eom /\ wire t3 = rest /\ reader_frame t1 t3 /\
    known_dead t3 = known_dead t1.
Proof.
  intros [[Hwf2 Hm2'] Hm2 Hb2 Hu2 He2 Hpl Hrm Hpd Hwr Hfr Hkd].
  destruct (remove_header_from_packet_ok (8 + length p) (rb t2) Hwf2)
    as (b3 & Hrh & Hwf3 & [Hx1 Hx2 Hx3 Hx4] & Hu3); [lia|by rewrite Hb2|by rewrite Hb2|].
  rewrite (on_buffer_eq _ _ _ _ Hrh). eexists; split; [done|]; cbn. split_and!.
  - split; cbn; [done|lia].
  - congruence.
  - by rewrite Hu3, Hb2, Hu2, Hpl.
  - congruence.
  - unfold wire; cbn. by rewrite Hx2.
  - destruct Hfr. by constructor.
  - congruence.
Qed.

(** What [read_tds_packet] guarantees. *)
Definition read_packet_post (t : NetworkTransport) (res : TdsResult unit * NetworkTransport)
    : Prop :=
  match next_packet (nt_max t) (wire t) with
  | Some (eom, payload, rest) => exists t', res = (Ok tt, t') /\
      transport_wf t' /\ nt_max t' = nt_max t /\ unread (rb t') = unread (rb t) ++ payload /\
      end_of_message (rb t') = eom /\ wire t' = rest /\ reader_frame t t' /\
      known_dead t' = known_dead t
  | None => exists e t', res = (Err e, t') /\ framing_error e /\
      transport_wf t' /\ nt_max t' = nt_max t /\ unread (rb t') = unread (rb t) /\
      reader_frame t t'
  end.

Lemma read_tds_packet_spec t :
  transport_wf t -> (remaining t <= nt_max t)%nat -> read_packet_post t (read_tds_packet t).
Proof.
  intros Hwf Hroom.
  destruct (make_room t Hwf Hroom) as (t1 & Hmk & Hwf1 & Hm1 & Hbl1 & Hu1 & Hw1 & Hf1 & Hk1).
  unfold read_tds_packet. unfold bind at 1, gets. rewrite (bind_ok _ _ _ _ _ Hmk).
  pose proof (get_new_tds_packet_spec t1 Hwf1 ltac:(by rewrite Hm1)) as Hg.
  unfold loop_post in Hg. unfold read_packet_post. rewrite Hm1, Hw1, Hu1 in Hg.
  destruct (next_packet (nt_max t) (wire t)) as [[[eom payload] rest]|].
  - destruct Hg as (t2 & Hg & Hd). rewrite (bind_ok _ _ _ _ _ Hg).
    destruct (finish_packet _ _ _ _ _ _ _ Hd) as (t3 & E & ? & ? & ? & ? & ? & ? & ?).
    exists t3. rewrite E. split_and!; try done; try congruence. by trans t1.
  - destruct Hg as (e & t2 & Hg & He & []). exists e, t2. split; [by apply bind_err|].
    split_and!; try done; try congruence. by trans t1.
Qed.

(** ** The non-blocking probe *)

Lemma stream_poll_read_spec cap es :
  (0 < cap)%nat ->
  match stream_poll_read cap es with
  | (Ok None, es') => stream_data es' = stream_data es
  | (Ok (Some []), es') => stream_data es = []
  | (Ok (Some bs), es') => stream_data es = bs ++ stream_data es' /\ (length bs <= cap)%nat /\
      (stream_measure es' < stream_measure es)%nat
  | (Err e, _) => stream_data es = [] /\ framing_error e
  | _ => False
  end.
Proof.
  intros Hcap. pose proof (stream_read_spec cap es Hcap) as Hr.
  unfold stream_read in Hr. rewrite decide_False in Hr by lia.
  unfold stream_poll_read. rewrite decide_False by lia.
  destruct es as [|[]]; try done; destruct (read_events cap _) as [[[]| | |] ?]; done.
Qed.

(** Nothing happened to the unread bytes or to the bytes still to be framed. *)
Record undisturbed (t t' : NetworkTransport) : Prop := {
  ud_wf : transport_wf t';
  ud_max : nt_max t' = nt_max t;
  ud_unread : unread (rb t') = unread (rb t);
  ud_wire : wire t' = wire t;
  ud_frame : reader_frame t t';
  ud_dead : known_dead t' = known_dead t;
}.

(** What the probe guarantees: a packet framed as [next_packet] says, an error only when there
    is no packet to frame, or "not ready" with nothing lost. *)
Definition probe_post (base : nat) (w u : bytes) (t : NetworkTransport)
    (res : TdsResult (option nat) * NetworkTransport) : Prop :=
  match res with
  | (Ok (Some n), t') => exists eom p rest, next_packet (nt_max t) w = Some (eom, p, rest) /\
      n = (8 + length p)%nat /\ framing_done base u eom p rest t t'
  | (Ok None, t') => transport_wf t' /\ nt_max t' = nt_max t /\ unread (rb t') = u /\
      wire t' = w /\ reader_frame t t' /\ known_dead t' = known_dead t
  | (Err e, t') => next_packet (nt_max t) w = None /\ framing_error e /\
      framing_failed base u t t'
  | _ => False
  end.

Lemma probe_post_step base w u t t1 res :
  nt_max t1 = nt_max t -> known_dead t1 = known_dead t -> reader_frame t t1 ->
  probe_post base w u t1 res -> probe_post base w u t res.
Proof.
  unfold probe_post. intros Hm Hk Hf. rewrite Hm.
  destruct res as [[[n|]| | |] t']; try done.
  - intros (eom & p & rest & ? & ? & []). exists eom, p, rest. split_and!; try done.
    constructor; try congruence; try done. by etrans.
  - intros (? & ? & ? & ? & ? & ?). split_and!; try done; try congruence. by etrans.
  - intros (? & ? & []). split_and!; try done. constructor; try congruence; try done. by etrans.
Qed.

(** Parking a partial packet puts the collected bytes back on the wire. *)
Lemma park_keeps_wire base avail w u t es s :
  collecting base avail w u t -> nt_stream t = Some s -> stream_data es = stream_data (st_in s) ->
  probe_post base w u t (Ok None, (set_stream_in es t)
    {{ tds_read_buffer ::= park_partial_packet base avail }}).
Proof.
  intros [[Hwf Hm] Hb Hroom Hp Hav Hu Hw] Hs Hd. pose proof Hwf as [? ? ? ? ?]. cbn.
  split_and!; try done.
  - split; [|done]. constructor; cbn; try done; lia.
  - unfold wire; cbn. rewrite <- Hw. unfold parked; cbn. f_equal.
    unfold in_events, set_stream_in; cbn. by rewrite Hs; cbn.
  - destruct (set_stream_in_frame es t). by constructor.
Qed.

Lemma try_get_packet_loop_spec fuel : forall base avail w u t,
  collecting base avail w u t -> (stream_measure (in_events t) < fuel)%nat ->
  probe_post base w u t (try_get_packet_loop fuel base avail t).
Proof.
  induction fuel as [|fuel IH]; intros base avail w u t Hc Hfuel; [lia|].
  destruct (decide (8 <= avail /\ (~ (8 <= header_length w <= nt_max t) \/
              header_length w = 8 /\ header_eom w = false))%nat) as [[Ha Hr]|Hnr].
  { destruct (loop_rejects _ _ _ _ _ Hc Ha Hr) as (Hnone & e & He & Hrej).
    cbn [try_get_packet_loop]. rewrite (bind_err _ _ _ _ _ Hrej).
    cbn. eauto using framing_failed_same. }
  destruct (decide (8 <= avail /\ header_length w <= avail)%nat) as [[Ha Hd]|Hnd].
  { assert (He : header_length w = 8%nat -> header_eom w = true).
    { intros E. destruct (header_eom w) eqn:E'; [done|]. exfalso. apply Hnr. auto. }
    destruct (loop_completes _ _ _ _ _ Hc ltac:(lia) Hd He) as (p & r & t' & E & Hdone & Hdn).
    cbn [try_get_packet_loop]. rewrite (bind_ok _ _ _ _ _ Hdone). cbn. eauto 6. }
  pose proof (complete_waits _ _ _ _ _ Hc ltac:(lia)) as Hwait.
  pose proof (next_packet_starved _ _ _ _ _ Hc) as Hend.
  cbn [try_get_packet_loop].
  rewrite (bind_ok _ _ _ _ _ (on_buffer_eq _ _ _ _ Hwait)), transport_eta.
  destruct (nt_stream t) as [s|] eqn:Hs; cycle 1.
  { cbn. unfold in_events in Hend. rewrite Hs in Hend.
    rewrite Hend by (done || lia). split; [done|]. split; [auto|].
    by eapply framing_failed_same. }
  assert (Hev : in_events t = st_in s) by (unfold in_events; by rewrite Hs).
  assert (Hcap : (0 < length (working_buffer (rb t)) - (base + avail))%nat)
    by (destruct Hc as [[[] ?] ? ? ? ? ? ?]; lia).
  pose proof (stream_poll_read_spec _ (st_in s) Hcap) as Hread.
  destruct (stream_poll_read _ (st_in s)) as [[[[|x bs]|]| | |] es]; try done.
  2:{ destruct Hread as (Hd & Hl & Hm).
      pose proof (collecting_step _ _ _ _ _ _ _ _ Hc Hs Hd Hl) as Hc'.
      apply (IH _ _ _ _ _) in Hc'; [eapply probe_post_step, Hc'; auto using store_read_frame|].
      change (in_events (store_read ?a ?c ?t)) with (in_events t).
      rewrite (in_events_set_stream_in es t s Hs). rewrite Hev in Hfuel. lia. }
  2:{ by eapply park_keeps_wire. }
  1: assert (framing_error (closed_while_reading
       (bool_decide (avail < PACKET_HEADER_SIZE)%nat))) by (case_bool_decide; auto).
  2: destruct Hread as [Hread ?].
  all: cbn; rewrite Hend by (rewrite ?Hev; done || lia);
    split_and!; [done..|]; by eapply framing_failed_dead.
Qed.

Lemma try_get_new_tds_packet_spec t :
  transport_wf t -> (buffer_length (rb t) <= nt_max t)%nat ->
  probe_post (buffer_length (rb t)) (wire t) (unread (rb t)) t (try_get_new_tds_packet t).
Proof.
  intros Hwf Hroom. destruct (move_pending_ok t Hwf Hroom) as (n & b' & Hmv & Hc).
  unfold try_get_new_tds_packet. unfold bind at 1, gets.
  rewrite (bind_ok _ _ _ _ _ (on_buffer_eq _ _ _ _ Hmv)).
  eapply probe_post_step; [| | |by apply try_get_packet_loop_spec; [|lia]]; try done.
  cbn. unfold move_pending_packet_bytes in Hmv.
  repeat (case_decide || case_match); simplify_eq; done.
Qed.

(** What [try_read_tds_packet] guarantees. *)
Definition try_packet_post (t : NetworkTransport) (res : TdsResult bool * NetworkTransport)
    : Prop :=
  match res with
  | (Ok true, t') => exists eom p rest, next_packet (nt_max t) (wire t) = Some (eom, p, rest) /\
      transport_wf t' /\ unread (rb t') = unread (rb t) ++ p /\
      end_of_message (rb t') = eom /\ wire t' = rest
  | (Ok false, t') => undisturbed t t'
  | (Err e, t') => next_packet (nt_max t) (wire t) = None /\ transport_wf t' /\
      unread (rb t') = unread (rb t)
  | _ => False
  end.

Lemma try_read_tds_packet_spec t :
  transport_wf t -> try_packet_post t (try_read_tds_packet t).
Proof.
  intros Hwf. unfold try_read_tds_packet. unfold bind at 1, gets.
  assert (Hsame : undisturbed t t) by (by constructor).
  destruct (end_of_message (rb t)) eqn:He; [done|]. case_decide as Hcap; [done|].
  destruct (make_room t Hwf) as (t1 & Hmk & Hwf1 & Hm1 & Hbl1 & Hu1 & Hw1 & Hf1 & Hk1).
  { destruct Hwf as [[] ?]. lia. }
  rewrite (bind_ok _ _ _ _ _ Hmk).
  pose proof (try_get_new_tds_packet_spec t1 Hwf1 ltac:(by rewrite Hm1)) as Hg.
  unfold probe_post in Hg. rewrite Hm1, Hw1, Hu1 in Hg. unfold bind at 1.
  destruct (try_get_new_tds_packet t1) as [[[n|]| | |] t2]; try done.
  - destruct Hg as (eom & p & rest & Hn & -> & Hd).
    destruct (finish_packet _ _ _ _ _ _ _ Hd) as (t3 & E & ? & ? & ? & ? & ? & _).
    rewrite (bind_ok _ _ _ _ _ E). cbn. exists eom, p, rest. by split_and!.
  - destruct Hg as (? & ? & ? & ? & ? & ?). cbn. constructor; try done; try congruence.
    by trans t1.
  - destruct Hg as (? & ? & []). by cbn.
Qed.
