(* ===== verification/Unicode.v ===== *)
(** * Text: Rust strings, UTF-8 and UTF-16

    A [str] is its list of Unicode scalar values.  The encoders and the decoder are those of the
    Rust standard library that the writer and the readers use ([char::encode_utf8],
    [char::encode_utf16], [String::from_utf16]). *)

From stdpp Require Import strings.
From S2P Require Import Prelude.

Abbreviation char := Z (only parsing).
Abbreviation str := (list Z) (only parsing).

Definition is_scalar (c : char) : bool :=
  ((0 <=? c) && (c <? 0xD800)) || ((0xE000 <=? c) && (c <? 0x110000)).

(** The invariant of [str]: every element is a scalar value. *)
Definition str_wf (s : str) : Prop := Forall (fun c => is_scalar c = true) s.

(** [char::len_utf8]. *)
Definition len_utf8 (c : char) : nat :=
  if c <? 0x80 then 1 else if c <? 0x800 then 2 else if c <? 0x10000 then 3 else 4.

(** [char::encode_utf8]. *)
Definition encode_utf8 (c : char) : bytes :=
  byte_of <$>
  (if c <? 0x80 then [c]
   else if c <? 0x800 then [0xC0 + c / 0x40; 0x80 + c mod 0x40]
   else if c <? 0x10000 then [0xE0 + c / 0x1000; 0x80 + (c / 0x40) mod 0x40; 0x80 + c mod 0x40]
   else [0xF0 + c / 0x40000; 0x80 + (c / 0x1000) mod 0x40; 0x80 + (c / 0x40) mod 0x40;
         0x80 + c mod 0x40]).

(** [str::as_bytes]. *)
Definition as_bytes (s : str) : bytes := concat (encode_utf8 <$> s).

(** [&s[n..]]: panics unless [n] is a character boundary. *)
Fixpoint str_from (n : nat) (s : str) : TdsResult str :=
  match n, s with
  | O, _ => Ok s
  | _, [] => Panic "byte index out of range"
  | _, c :: s' =>
      if decide (len_utf8 c <= n)%nat then str_from (n - len_utf8 c) s'
      else Panic "byte index is not a char boundary"
  end.

(** [char::encode_utf16]. *)
Definition encode_utf16 (c : char) : list Z :=
  if c <? 0x10000 then [c]
  else [0xD800 + (c - 0x10000) / 0x400; 0xDC00 + (c - 0x10000) mod 0x400].

(** [str::encode_utf16]. *)
Definition utf16 (s : str) : list Z := concat (encode_utf16 <$> s).

Definition is_high (u : Z) : bool := (0xD800 <=? u) && (u <? 0xDC00).
Definition is_low (u : Z) : bool := (0xDC00 <=? u) && (u <? 0xE000).

(** [String::from_utf16]: [None] on an unpaired surrogate. *)
Fixpoint from_utf16 (us : list Z) : option str :=
  match us with
  | [] => Some []
  | u :: us' =>
      if is_high u then
        match us' with
        | v :: us'' =>
            if is_low v
            then cons (0x10000 + (u - 0xD800) * 0x400 + (v - 0xDC00)) <$> from_utf16 us''
            else None
        | [] => None
        end
      else if is_low u then None
      else cons u <$> from_utf16 us'
  end.

(** [String::from_utf16_lossy]: U+FFFD for every unpaired surrogate. *)
Fixpoint from_utf16_lossy (us : list Z) : str :=
  match us with
  | [] => []
  | u :: us' =>
      if is_high u then
        match us' with
        | v :: us'' =>
            if is_low v
            then 0x10000 + (u - 0xD800) * 0x400 + (v - 0xDC00) :: from_utf16_lossy us''
            else 0xFFFD :: from_utf16_lossy us'
        | [] => [0xFFFD]
        end
      else if is_low u then 0xFFFD :: from_utf16_lossy us'
      else u :: from_utf16_lossy us'
  end.

(** Little-endian serialisation of units. *)
Definition units_le (us : list Z) : bytes := concat (le_bytes 2 <$> us).

(** Two bytes at a time; [None] where the source indexes past an odd tail. *)
Fixpoint le_units (bs : bytes) : option (list Z) :=
  match bs with
  | [] => Some []
  | a :: b :: bs' => cons (of_le [a; b]) <$> le_units bs'
  | [_] => None
  end.

(** ** Facts *)

Lemma from_utf16_encode c us :
  is_scalar c = true -> from_utf16 (encode_utf16 c ++ us) = cons c <$> from_utf16 us.
Proof.
  unfold is_scalar, encode_utf16. intros Hc.
  destruct (c <? 0x10000) eqn:E; cbn [app from_utf16]; unfold is_high, is_low.
  - repeat case_match; try done; lia.
  - pose proof (Z.div_mod (c - 0x10000) 0x400). pose proof (Z.mod_pos_bound (c - 0x10000) 0x400).
    assert (0 <= (c - 0x10000) / 0x400 < 0x400).
    { split; [apply Z.div_pos; lia|apply Z.div_lt_upper_bound; lia]. }
    rewrite (proj2 (andb_true_iff _ _)) by lia. rewrite (proj2 (andb_true_iff _ _)) by lia.
    do 2 f_equal. lia.
Qed.

(** Decoding what was encoded gives the text back. *)
Lemma from_utf16_utf16 s : str_wf s -> from_utf16 (utf16 s) = Some s.
Proof.
  unfold utf16. induction 1 as [|c s Hc _ IH]; cbn [fmap list_fmap concat]; [done|].
  by rewrite from_utf16_encode, IH.
Qed.

Lemma encode_utf16_range c :
  is_scalar c = true -> Forall (fun u => in_unsigned 16 u) (encode_utf16 c).
Proof.
  unfold is_scalar, encode_utf16, in_unsigned. intros Hc. destruct (c <? 0x10000) eqn:E.
  - repeat constructor; lia.
  - pose proof (Z.mod_pos_bound (c - 0x10000) 0x400).
    assert (0 <= (c - 0x10000) / 0x400 < 0x400).
    { split; [apply Z.div_pos; lia|apply Z.div_lt_upper_bound; lia]. }
    repeat constructor; lia.
Qed.

Lemma utf16_range s : str_wf s -> Forall (fun u => in_unsigned 16 u) (utf16 s).
Proof.
  unfold utf16. induction 1 as [|c s Hc _ IH]; cbn; [constructor|].
  apply Forall_app. split; [by apply encode_utf16_range|done].
Qed.

Lemma utf16_app s1 s2 : utf16 (s1 ++ s2) = utf16 s1 ++ utf16 s2.
Proof. unfold utf16. by rewrite fmap_app, concat_app. Qed.

Lemma units_le_app us vs : units_le (us ++ vs) = units_le us ++ units_le vs.
Proof. unfold units_le. by rewrite fmap_app, concat_app. Qed.

Lemma length_units_le us : length (units_le us) = (2 * length us)%nat.
Proof.
  unfold units_le. induction us as [|u us IH]; [done|].
  cbn [fmap list_fmap concat length]. rewrite length_app, length_le_bytes, IH. lia.
Qed.

Lemma le_units_le us :
  Forall (fun u => in_unsigned 16 u) us -> le_units (units_le us) = Some us.
Proof.
  induction 1 as [|u us Hu _ IH]; [done|]. unfold units_le in *. cbn [fmap list_fmap concat].
  pose proof (of_le_unsigned 2 u Hu) as E. pose proof (length_le_bytes 2 u) as L.
  destruct (le_bytes 2 u) as [|a [|b [|]]]; try done. cbn. by rewrite IH, E.
Qed.

#[export] Hint Rewrite length_units_le : tds_len.

(** The lossy decoder agrees with the strict one where that one succeeds. *)
Lemma from_utf16_lossy_ok us : forall s, from_utf16 us = Some s -> from_utf16_lossy us = s.
Proof.
  induction us as [us IH] using (well_founded_induction (well_founded_ltof _ length)).
  unfold ltof in IH. destruct us as [|u us]; intros s H; cbn in H |- *; [by simplify_eq|].
  destruct (is_high u).
  - destruct us as [|v us]; [done|]. destruct (is_low v); [|done].
    apply fmap_Some in H as (s' & E & ->). f_equal. apply IH; [cbn; lia|done].
  - destruct (is_low u); [done|].
    apply fmap_Some in H as (s' & E & ->). f_equal. apply IH; [cbn; lia|done].
Qed.
