(* ===== verification/PacketReader.v ===== *)
(** * The packet-reader interface (src/mssql-tds/src/io/packet_reader.rs)

    The token parsers, the pre-login exchange and the decoders are generic over the trait
    [TdsPacketReader].  Here it is a class of operations, with the laws its clients rely on: a
    reader that [delivers] some bytes hands out exactly those, in order, whatever the packets
    and socket reads they came in.  Clients are proved against the laws; the network transport
    and a plain byte list implement them. *)

From stdpp Require Import strings.
From S2P Require Import Prelude Unicode.

Class TdsPacketReader (R : Type) := {
  buffered_slice : M R bytes;
  try_read_byte : M R (option Z);
  try_read_int16 : M R (option Z);
  try_read_uint16 : M R (option Z);
  try_read_uint24 : M R (option Z);
  try_read_int32 : M R (option Z);
  try_read_uint32 : M R (option Z);
  try_read_uint40 : M R (option Z);
  try_read_int64 : M R (option Z);
  try_read_float32 : M R (option Z);
  try_read_float64 : M R (option Z);
  try_read_slice : nat -> M R (option bytes);
  read_byte : M R Z;
  read_int16_big_endian : M R Z;
  read_int32_big_endian : M R Z;
  read_uint40 : M R Z;
  read_float32 : M R Z;
  read_float64 : M R Z;
  read_int16 : M R Z;
  read_uint16 : M R Z;
  read_uint24 : M R Z;
  read_int32 : M R Z;
  read_uint32 : M R Z;
  read_int64 : M R Z;
  read_uint64 : M R Z;
  read_bytes : nat -> M R bytes;
  skip_bytes : nat -> M R unit;
  reset_reader : R -> R;
}.

(** [m] consumes exactly [bs] and returns [a], from any reader that has them next. *)
Definition reads {R A} (delivers : R -> bytes -> Prop) (m : M R A) (bs : bytes) (a : A) : Prop :=
  forall r more, delivers r (bs ++ more) -> exists r', m r = (Ok a, r') /\ delivers r' more.

(** A reader of [n] bytes decoded by [f]. *)
Definition reads_fixed {R A} (delivers : R -> bytes -> Prop) (m : M R A) (n : nat)
    (f : bytes -> A) : Prop :=
  forall bs, length bs = n -> reads delivers m bs (f bs).

(** A probe for [n] bytes decoded by [f]: it reads the whole value or leaves the reader as it
    was. *)
Definition tries {R A} (delivers : R -> bytes -> Prop) (m : M R (option A)) (n : nat)
    (f : bytes -> A) : Prop :=
  forall bs r more, length bs = n -> delivers r (bs ++ more) ->
    (exists r', m r = (Ok (Some (f bs)), r') /\ delivers r' more) \/ m r = (Ok None, r).

(** The laws of the trait. *)
Class PacketReaderLaws (R : Type) {ops : TdsPacketReader R} (delivers : R -> bytes -> Prop) := {
  law_byte : reads_fixed delivers read_byte 1 of_le;
  law_int16_be : reads_fixed delivers read_int16_big_endian 2 of_be_signed;
  law_int32_be : reads_fixed delivers read_int32_big_endian 4 of_be_signed;
  law_uint40 : reads_fixed delivers read_uint40 5 of_le;
  law_float32 : reads_fixed delivers read_float32 4 of_le;
  law_float64 : reads_fixed delivers read_float64 8 of_le;
  law_int16 : reads_fixed delivers read_int16 2 of_le_signed;
  law_uint16 : reads_fixed delivers read_uint16 2 of_le;
  law_uint24 : reads_fixed delivers read_uint24 3 of_le;
  law_int32 : reads_fixed delivers read_int32 4 of_le_signed;
  law_uint32 : reads_fixed delivers read_uint32 4 of_le;
  law_int64 : reads_fixed delivers read_int64 8 of_le_signed;
  law_uint64 : reads_fixed delivers read_uint64 8 of_le;
  law_bytes n : reads_fixed delivers (read_bytes n) n id;
  law_skip n bs : length bs = n -> reads delivers (skip_bytes n) bs tt;
  law_try_byte : tries delivers try_read_byte 1 of_le;
  law_try_int16 : tries delivers try_read_int16 2 of_le_signed;
  law_try_uint16 : tries delivers try_read_uint16 2 of_le;
  law_try_uint24 : tries delivers try_read_uint24 3 of_le;
  law_try_int32 : tries delivers try_read_int32 4 of_le_signed;
  law_try_uint32 : tries delivers try_read_uint32 4 of_le;
  law_try_uint40 : tries delivers try_read_uint40 5 of_le;
  law_try_int64 : tries delivers try_read_int64 8 of_le_signed;
  law_try_float32 : tries delivers try_read_float32 4 of_le;
  law_try_float64 : tries delivers try_read_float64 8 of_le;
  law_try_slice n : tries delivers (try_read_slice n) n id;
  (** The buffered bytes are the next ones, and a probe within them succeeds. *)
  law_buffered r bs : delivers r bs ->
    exists now later, buffered_slice r = (Ok now, r) /\ bs = now ++ later /\
      forall n, (n <= length now)%nat ->
        exists r', try_read_slice n r = (Ok (Some (take n now)), r') /\ delivers r' (drop n now ++ later);
}.

(** A read on arbitrary input: it ends with a value or an error, keeps the reader's invariant,
    and a value uses up at least [n] of the [left] bytes and satisfies [P]. *)
Definition gives_at {R A} (inv : R -> Prop) (left : R -> nat) (n : nat) (P : A -> Prop) (m : M R A)
    (r : R) : Prop :=
  completes (fst (m r)) /\ inv (snd (m r)) /\
  forall a, fst (m r) = Ok a -> (left (snd (m r)) + n <= left r)%nat /\ P a.

Definition gives {R A} (inv : R -> Prop) (left : R -> nat) (n : nat) (P : A -> Prop) (m : M R A) : Prop :=
  forall r, inv r -> gives_at inv left n P m r.

(** A packet reader that is safe on any input. *)
Class SafeReader (R : Type) {ops : TdsPacketReader R} (inv : R -> Prop) (left : R -> nat) := {
  safe_byte : gives inv left 1 (fun v => 0 <= v < 256) read_byte;
  safe_int16_be : gives inv left 2 (in_signed 16) read_int16_big_endian;
  safe_int32_be : gives inv left 4 (in_signed 32) read_int32_big_endian;
  safe_uint40 : gives inv left 5 (in_unsigned 40) read_uint40;
  safe_float32 : gives inv left 4 (in_unsigned 32) read_float32;
  safe_float64 : gives inv left 8 (in_unsigned 64) read_float64;
  safe_int16 : gives inv left 2 (in_signed 16) read_int16;
  safe_uint16 : gives inv left 2 (in_unsigned 16) read_uint16;
  safe_uint24 : gives inv left 3 (in_unsigned 24) read_uint24;
  safe_int32 : gives inv left 4 (in_signed 32) read_int32;
  safe_uint32 : gives inv left 4 (in_unsigned 32) read_uint32;
  safe_int64 : gives inv left 8 (in_signed 64) read_int64;
  safe_uint64 : gives inv left 8 (in_unsigned 64) read_uint64;
  safe_bytes n : gives inv left n (fun bs => length bs = n) (read_bytes n);
  safe_skip n : gives inv left n (fun _ => True) (skip_bytes n);
  safe_try_byte : gives inv left 0 (from_option (fun v => 0 <= v < 256) True) try_read_byte;
  safe_try_int16 : gives inv left 0 (from_option (in_signed 16) True) try_read_int16;
  safe_try_uint16 : gives inv left 0 (from_option (in_unsigned 16) True) try_read_uint16;
  safe_try_uint24 : gives inv left 0 (from_option (in_unsigned 24) True) try_read_uint24;
  safe_try_int32 : gives inv left 0 (from_option (in_signed 32) True) try_read_int32;
  safe_try_uint32 : gives inv left 0 (from_option (in_unsigned 32) True) try_read_uint32;
  safe_try_uint40 : gives inv left 0 (from_option (in_unsigned 40) True) try_read_uint40;
  safe_try_int64 : gives inv left 0 (from_option (in_signed 64) True) try_read_int64;
  safe_try_float32 : gives inv left 0 (from_option (in_unsigned 32) True) try_read_float32;
  safe_try_float64 : gives inv left 0 (from_option (in_unsigned 64) True) try_read_float64;
  safe_buffered : gives inv left 0 (fun _ => True) buffered_slice;
  safe_try_slice n : gives inv left 0 (from_option (fun bs => length bs = n) True) (try_read_slice n);
}.

Section gives.
Context {R : Type} {inv : R -> Prop} {left : R -> nat}.

Lemma gives_at_weaken {A} n n' (P : A -> Prop) m r :
  gives_at inv left n P m r -> (n' <= n)%nat -> gives_at inv left n' P m r.
Proof.
  intros (? & ? & Ha) Hn. split_and!; [done..|]. intros a [? ?]%Ha. split; [lia|done].
Qed.

Lemma gives_weaken {A} n n' (P Q : A -> Prop) m :
  gives inv left n P m -> (n' <= n)%nat -> (forall a, P a -> Q a) -> gives inv left n' Q m.
Proof.
  intros H Hn HPQ r Hr. destruct (H r Hr) as (? & ? & Ha). split_and!; [done..|].
  intros a [? ?]%Ha. split; [lia|auto].
Qed.

Lemma gives_ret {A} (P : A -> Prop) a : P a -> gives inv left 0 P (ret a).
Proof. intros Hp r Hr. split_and!; [done..|]. intros ? [= <-]. cbn. split; [lia|done]. Qed.

Lemma gives_throw {A} n (P : A -> Prop) e : gives inv left n P (throw e).
Proof. by intros r Hr. Qed.

Lemma gives_lift {A} (P : A -> Prop) r :
  completes r -> (forall a, r = Ok a -> P a) -> gives inv left 0 P (lift r).
Proof.
  intros Hc Hp s Hs. split_and!; [done..|]. cbn. intros a Ha. split; [lia|auto].
Qed.

Lemma gives_at_bind {A B} n k (P : A -> Prop) (Q : B -> Prop) m f r :
  gives_at inv left n P m r ->
  (forall a r', inv r' -> P a -> (left r' + n <= left r)%nat -> gives_at inv left k Q (f a) r') ->
  gives_at inv left (n + k) Q (bind m f) r.
Proof.
  intros (Hc & Hi & Ha) Hf. unfold gives_at, bind. destruct (m r) as [[a|e|p|] r']; cbn in *; try done.
  destruct (Ha a eq_refl) as [Hl Hp]. destruct (Hf a r' Hi Hp Hl) as (? & ? & Hb).
  split_and!; [done..|]. intros b [? ?]%Hb. split; [lia|done].
Qed.

Lemma gives_bind {A B} n k (P : A -> Prop) (Q : B -> Prop) m f :
  gives inv left n P m -> (forall a, P a -> gives inv left k Q (f a)) ->
  gives inv left (n + k) Q (bind m f).
Proof. intros Hm Hf r Hr. eapply gives_at_bind; [by apply Hm|]. intros. by apply Hf. Qed.

(** Without the accounting: ends with a value or an error and keeps the invariant. *)
#[local] Abbreviation safe m := (gives inv left 0 (fun _ => True) m).

Lemma safe_of {A} n (P : A -> Prop) m : gives inv left n P m -> safe m.
Proof. intros. eapply gives_weaken; [done|lia|done]. Qed.

Lemma safe_bind {A B} n (P : A -> Prop) m (f : A -> M R B) :
  gives inv left n P m -> (forall a, P a -> safe (f a)) -> safe (bind m f).
Proof. intros Hm Hf. eapply safe_of. by eapply gives_bind. Qed.

Lemma safe_if {A} (b : bool) (m1 m2 : M R A) : safe m1 -> safe m2 -> safe (if b then m1 else m2).
Proof. by destruct b. Qed.
End gives.

Abbreviation safe inv left m := (gives inv left 0 (fun _ => True) m).

Section reads.
Context {R : Type} {delivers : R -> bytes -> Prop}.

Lemma reads_ret {A} (a : A) : reads delivers (ret a) [] a.
Proof. intros r more H. by exists r. Qed.

Lemma reads_bind {A B} (m : M R A) (k : A -> M R B) bs1 bs2 a b :
  reads delivers m bs1 a -> reads delivers (k a) bs2 b ->
  reads delivers (bind m k) (bs1 ++ bs2) b.
Proof.
  intros H1 H2 r more Hd. rewrite <- app_assoc in Hd.
  destruct (H1 _ _ Hd) as (r1 & E1 & Hd1). destruct (H2 _ _ Hd1) as (r2 & E2 & Hd2).
  exists r2. by rewrite (bind_ok _ _ _ _ _ E1).
Qed.

Lemma reads_bind_ret {A B} (m : M R A) (f : A -> B) bs a :
  reads delivers m bs a -> reads delivers (bind m (fun x => ret (f x))) bs (f a).
Proof.
  intros H. rewrite <- (app_nil_r bs). eapply reads_bind; [done|]. apply reads_ret.
Qed.

Lemma reads_eq {A} (m : M R A) bs bs' a a' :
  reads delivers m bs a -> bs = bs' -> a = a' -> reads delivers m bs' a'.
Proof. by intros ? <- <-. Qed.
End reads.

Lemma reads_fixed_at {R A} (delivers : R -> bytes -> Prop) (m : M R A) n f bs a :
  reads_fixed delivers m n f -> length bs = n -> f bs = a -> reads delivers m bs a.
Proof. intros H Hb <-. by apply H. Qed.

Lemma reads_fixed_ext {R A} (delivers : R -> bytes -> Prop) (m : M R A) n f g :
  reads_fixed delivers m n f -> (forall bs, length bs = n -> f bs = g bs) ->
  reads_fixed delivers m n g.
Proof. intros H E bs Hb. rewrite <- (E bs Hb). by apply H. Qed.

(** ** Length-prefixed values, defined on any reader as the transport defines them
    (network_transport.rs, [read_u8_varbyte] and [read_u16_varbyte]). *)

Section varbyte.
Context {R : Type} `{ops : TdsPacketReader R}.

Definition read_u8_varbyte : M R bytes :=
  length <- read_byte ;; read_bytes (Z.to_nat length).

Definition read_u16_varbyte : M R bytes :=
  length <- read_uint16 ;; read_bytes (Z.to_nat length).

Definition invalid_utf16 : Error := Io "InvalidData" "invalid utf-16".

(** [read_unicode_with_byte_length]; an odd length makes [chunk[1]] panic. *)
Definition read_unicode_with_byte_length (byte_length : nat) : M R str :=
  byte_buffer <- read_bytes byte_length ;;
  match le_units byte_buffer with
  | None => panic "index out of bounds"
  | Some u16_buffer =>
      match from_utf16 u16_buffer with
      | Some string => ret string
      | None => throw invalid_utf16
      end
  end.

Definition read_unicode (string_length : nat) : M R str :=
  read_unicode_with_byte_length (string_length * 2).

Definition LENGTH_NULL : Z := 0xffff.

Definition read_varchar_u16_length : M R (option str) :=
  length <- read_uint16 ;;
  if length =? LENGTH_NULL then ret None
  else string <- read_unicode_with_byte_length (Z.to_nat (Z.shiftl length 1)) ;; ret (Some string).

Definition read_varchar_u8_length : M R str :=
  length <- read_byte ;;
  read_unicode_with_byte_length (Z.to_nat (Z.shiftl length 1)).
End varbyte.

(** ** A reader over a plain byte list: what a message is once its packets are joined. *)

Definition ByteReader := bytes.

Definition end_of_data : Error := Io "UnexpectedEof" "End of data".

Definition list_read {A} (n : nat) (f : bytes -> A) : M ByteReader A :=
  fun bs => if decide (n <= length bs)%nat then (Ok (f (take n bs)), drop n bs)
            else (Err end_of_data, bs).

Definition list_try {A} (n : nat) (f : bytes -> A) : M ByteReader (option A) :=
  fun bs => if decide (n <= length bs)%nat then (Ok (Some (f (take n bs))), drop n bs) else (Ok None, bs).

#[global] Instance ByteReader_ops : TdsPacketReader ByteReader := {
  buffered_slice bs := (Ok bs, bs);
  try_read_byte := list_try 1 of_le;
  try_read_int16 := list_try 2 of_le_signed;
  try_read_uint16 := list_try 2 of_le;
  try_read_uint24 := list_try 3 of_le;
  try_read_int32 := list_try 4 of_le_signed;
  try_read_uint32 := list_try 4 of_le;
  try_read_uint40 := list_try 5 of_le;
  try_read_int64 := list_try 8 of_le_signed;
  try_read_float32 := list_try 4 of_le;
  try_read_float64 := list_try 8 of_le;
  try_read_slice n := list_try n id;
  read_byte := list_read 1 of_le;
  read_int16_big_endian := list_read 2 of_be_signed;
  read_int32_big_endian := list_read 4 of_be_signed;
  read_uint40 := list_read 5 of_le;
  read_float32 := list_read 4 of_le;
  read_float64 := list_read 8 of_le;
  read_int16 := list_read 2 of_le_signed;
  read_uint16 := list_read 2 of_le;
  read_uint24 := list_read 3 of_le;
  read_int32 := list_read 4 of_le_signed;
  read_uint32 := list_read 4 of_le;
  read_int64 := list_read 8 of_le_signed;
  read_uint64 := list_read 8 of_le;
  read_bytes n := list_read n id;
  skip_bytes n := list_read n (fun _ => tt);
  reset_reader := id;
}.

Definition list_delivers (r : ByteReader) (bs : bytes) : Prop := r = bs.

Lemma list_read_fixed {A} n (f : bytes -> A) : reads_fixed list_delivers (list_read n f) n f.
Proof.
  intros bs Hb r more Hd. unfold list_delivers in *. subst r. exists more. split; [|done].
  unfold list_read. rewrite decide_True by (rewrite length_app; lia).
  by rewrite take_app_length', drop_app_length'.
Qed.

Lemma list_try_fixed {A} n (f : bytes -> A) : tries list_delivers (list_try n f) n f.
Proof.
  intros bs r more Hb Hd. unfold list_delivers in *. subst r. left. exists more. split; [|done].
  unfold list_try. rewrite decide_True by (rewrite length_app; lia).
  by rewrite take_app_length', drop_app_length'.
Qed.

#[global] Instance ByteReader_laws : PacketReaderLaws ByteReader list_delivers.
Proof.
  constructor; try apply list_read_fixed; try (intros; by apply list_read_fixed);
    try apply list_try_fixed; try (intros; by apply list_try_fixed); unfold list_delivers; cbn.
  intros r bs ->. exists bs, []. rewrite app_nil_r. split_and!; [done..|].
  intros n Hn. exists (drop n bs). unfold list_try. by rewrite decide_True, app_nil_r.
Qed.

(** ** [read_sync_first!] of decoder.rs: the probe first, then the read that may wait. *)

Definition read_sync_first {R A} (try_method : M R (option A)) (read_method : M R A) : M R A :=
  o <- try_method ;; match o with Some value => ret value | None => read_method end.

Lemma sync_first_fixed {R A} (delivers : R -> bytes -> Prop) (t : M R (option A)) m n f :
  tries delivers t n f -> reads_fixed delivers m n f -> reads_fixed delivers (read_sync_first t m) n f.
Proof.
  intros Ht Hm bs Hb r more Hd. unfold read_sync_first.
  destruct (Ht bs r more Hb Hd) as [(r' & E & Hd')|E]; rewrite (bind_ok _ _ _ _ _ E).
  - by exists r'.
  - by apply Hm.
Qed.

Lemma sync_first_gives {R A} (inv : R -> Prop) left (P : A -> Prop) n (t : M R (option A)) m :
  gives inv left 0 (from_option P True) t -> gives inv left n P m ->
  gives inv left 0 P (read_sync_first t m).
Proof.
  intros Ht Hm. apply (gives_bind 0 0 (from_option P True)); [done|]. intros [v|]; cbn; [apply gives_ret|].
  intros _. eapply gives_weaken; [done|lia|done].
Qed.

(** ** Automation: [reads_step] runs the next operation of a parser on the next field. *)

Create HintDb reads discriminated.

#[export] Hint Resolve reads_ret : reads.

Section laws.
Context {R : Type} {delivers : R -> bytes -> Prop} `{laws : PacketReaderLaws R delivers}.

Lemma reads_byte z : 0 <= z < 256 -> reads delivers read_byte [byte_of z] z.
Proof.
  intros Hz. eapply reads_fixed_at; [apply law_byte|done|].
  by rewrite of_le_one, byte_val_of.
Qed.

Lemma reads_uint16 z : in_unsigned 16 z -> reads delivers read_uint16 (le_bytes 2 z) z.
Proof. intros. eapply reads_fixed_at; [apply law_uint16|apply length_le_bytes|]. by apply of_le_unsigned. Qed.

Lemma reads_uint24 z : in_unsigned 24 z -> reads delivers read_uint24 (le_bytes 3 z) z.
Proof. intros. eapply reads_fixed_at; [apply law_uint24|apply length_le_bytes|]. by apply of_le_unsigned. Qed.

Lemma reads_uint32 z : in_unsigned 32 z -> reads delivers read_uint32 (le_bytes 4 z) z.
Proof. intros. eapply reads_fixed_at; [apply law_uint32|apply length_le_bytes|]. by apply of_le_unsigned. Qed.

Lemma reads_uint40 z : in_unsigned 40 z -> reads delivers read_uint40 (le_bytes 5 z) z.
Proof. intros. eapply reads_fixed_at; [apply law_uint40|apply length_le_bytes|]. by apply of_le_unsigned. Qed.

Lemma reads_uint64 z : in_unsigned 64 z -> reads delivers read_uint64 (le_bytes 8 z) z.
Proof. intros. eapply reads_fixed_at; [apply law_uint64|apply length_le_bytes|]. by apply of_le_unsigned. Qed.

Lemma reads_float32 z : in_unsigned 32 z -> reads delivers read_float32 (le_bytes 4 z) z.
Proof. intros. eapply reads_fixed_at; [apply law_float32|apply length_le_bytes|]. by apply of_le_unsigned. Qed.

Lemma reads_float64 z : in_unsigned 64 z -> reads delivers read_float64 (le_bytes 8 z) z.
Proof. intros. eapply reads_fixed_at; [apply law_float64|apply length_le_bytes|]. by apply of_le_unsigned. Qed.

Lemma reads_int16 z : in_signed 16 z -> reads delivers read_int16 (le_bytes 2 z) z.
Proof.
  intros. eapply reads_fixed_at; [apply law_int16|apply length_le_bytes|]. apply of_le_signed_le_bytes; [lia|done].
Qed.

Lemma reads_int32 z : in_signed 32 z -> reads delivers read_int32 (le_bytes 4 z) z.
Proof.
  intros. eapply reads_fixed_at; [apply law_int32|apply length_le_bytes|]. apply of_le_signed_le_bytes; [lia|done].
Qed.

Lemma reads_int64 z : in_signed 64 z -> reads delivers read_int64 (le_bytes 8 z) z.
Proof.
  intros. eapply reads_fixed_at; [apply law_int64|apply length_le_bytes|]. apply of_le_signed_le_bytes; [lia|done].
Qed.

Lemma reads_int16_be z :
  in_signed 16 z -> reads delivers read_int16_big_endian (be_bytes 2 z) z.
Proof.
  intros. eapply reads_fixed_at; [apply law_int16_be|apply length_be_bytes|].
  apply of_be_signed_be_bytes; [lia|done].
Qed.

Lemma reads_int32_be z :
  in_signed 32 z -> reads delivers read_int32_big_endian (be_bytes 4 z) z.
Proof.
  intros. eapply reads_fixed_at; [apply law_int32_be|apply length_be_bytes|].
  apply of_be_signed_be_bytes; [lia|done].
Qed.

Lemma reads_bytes n bs : length bs = n -> reads delivers (read_bytes n) bs bs.
Proof. intros. by apply (law_bytes n bs). Qed.

Lemma reads_skip n bs : length bs = n -> reads delivers (skip_bytes n) bs tt.
Proof. apply law_skip. Qed.

Lemma reads_u8_varbyte bs :
  (length bs < 256)%nat ->
  reads delivers read_u8_varbyte (byte_of (Z.of_nat (length bs)) :: bs) bs.
Proof.
  intros. eapply (reads_bind _ _ [_]); [apply reads_byte; lia|].
  apply reads_bytes. lia.
Qed.

Lemma reads_u16_varbyte bs :
  Z.of_nat (length bs) < 65536 ->
  reads delivers read_u16_varbyte (le_bytes 2 (Z.of_nat (length bs)) ++ bs) bs.
Proof.
  intros. eapply reads_bind; [apply reads_uint16; split; lia|]. apply reads_bytes. lia.
Qed.

Lemma reads_unicode_bytes n s :
  str_wf s -> n = (2 * length (utf16 s))%nat ->
  reads delivers (read_unicode_with_byte_length n) (units_le (utf16 s)) s.
Proof.
  intros Hs ->. eapply reads_eq; [|apply app_nil_r|done].
  eapply reads_bind; [apply reads_bytes, length_units_le|].
  rewrite (le_units_le _ (utf16_range _ Hs)), (from_utf16_utf16 _ Hs). apply reads_ret.
Qed.

Lemma reads_varchar_u8 s :
  str_wf s -> Z.of_nat (length (utf16 s)) < 256 ->
  reads delivers read_varchar_u8_length
    (byte_of (Z.of_nat (length (utf16 s))) :: units_le (utf16 s)) s.
Proof.
  intros Hs Hl. eapply (reads_bind _ _ [_]); [apply reads_byte; lia|].
  apply reads_unicode_bytes; [done|]. rewrite Z.shiftl_mul_pow2; lia.
Qed.

Lemma reads_varchar_u16 s :
  str_wf s -> Z.of_nat (length (utf16 s)) < 65535 ->
  reads delivers read_varchar_u16_length
    (le_bytes 2 (Z.of_nat (length (utf16 s))) ++ units_le (utf16 s)) (Some s).
Proof.
  intros Hs Hl. eapply reads_bind; [apply reads_uint16; split; lia|]. unfold LENGTH_NULL.
  rewrite (proj2 (Z.eqb_neq _ _)) by lia. apply (reads_bind_ret _ Some).
  apply reads_unicode_bytes; [done|]. rewrite Z.shiftl_mul_pow2; lia.
Qed.

Lemma reads_varchar_u16_null :
  reads delivers read_varchar_u16_length (le_bytes 2 LENGTH_NULL) None.
Proof.
  eapply reads_eq; [|apply app_nil_r|done].
  eapply reads_bind; [apply reads_uint16; split; unfold LENGTH_NULL; lia|]. apply reads_ret.
Qed.
(** The same through [read_sync_first]. *)
Lemma reads_sync_byte z : 0 <= z < 256 -> reads delivers (read_sync_first try_read_byte read_byte) [byte_of z] z.
Proof.
  intros. eapply reads_fixed_at; [apply sync_first_fixed; [apply law_try_byte|apply law_byte]|done|].
  by rewrite of_le_one, byte_val_of.
Qed.

Lemma reads_sync_unsigned t m n z :
  tries delivers t n of_le -> reads_fixed delivers m n of_le -> in_unsigned (8 * Z.of_nat n) z ->
  reads delivers (read_sync_first t m) (le_bytes n z) z.
Proof.
  intros. eapply reads_fixed_at; [by apply sync_first_fixed|apply length_le_bytes|]. by apply of_le_unsigned.
Qed.

Lemma reads_sync_signed t m n z :
  tries delivers t n of_le_signed -> reads_fixed delivers m n of_le_signed -> (0 < n)%nat ->
  in_signed (8 * Z.of_nat n) z -> reads delivers (read_sync_first t m) (le_bytes n z) z.
Proof.
  intros. eapply reads_fixed_at; [by apply sync_first_fixed|apply length_le_bytes|].
  by apply of_le_signed_le_bytes.
Qed.

Lemma reads_sync_uint16 z :
  in_unsigned 16 z -> reads delivers (read_sync_first try_read_uint16 read_uint16) (le_bytes 2 z) z.
Proof. apply (reads_sync_unsigned _ _ 2); [apply law_try_uint16|apply law_uint16]. Qed.

Lemma reads_sync_uint24 z :
  in_unsigned 24 z -> reads delivers (read_sync_first try_read_uint24 read_uint24) (le_bytes 3 z) z.
Proof. apply (reads_sync_unsigned _ _ 3); [apply law_try_uint24|apply law_uint24]. Qed.

Lemma reads_sync_uint32 z :
  in_unsigned 32 z -> reads delivers (read_sync_first try_read_uint32 read_uint32) (le_bytes 4 z) z.
Proof. apply (reads_sync_unsigned _ _ 4); [apply law_try_uint32|apply law_uint32]. Qed.

Lemma reads_sync_uint40 z :
  in_unsigned 40 z -> reads delivers (read_sync_first try_read_uint40 read_uint40) (le_bytes 5 z) z.
Proof. apply (reads_sync_unsigned _ _ 5); [apply law_try_uint40|apply law_uint40]. Qed.

Lemma reads_sync_float32 z :
  in_unsigned 32 z -> reads delivers (read_sync_first try_read_float32 read_float32) (le_bytes 4 z) z.
Proof. apply (reads_sync_unsigned _ _ 4); [apply law_try_float32|apply law_float32]. Qed.

Lemma reads_sync_float64 z :
  in_unsigned 64 z -> reads delivers (read_sync_first try_read_float64 read_float64) (le_bytes 8 z) z.
Proof. apply (reads_sync_unsigned _ _ 8); [apply law_try_float64|apply law_float64]. Qed.

Lemma reads_sync_int16 z :
  in_signed 16 z -> reads delivers (read_sync_first try_read_int16 read_int16) (le_bytes 2 z) z.
Proof. apply (reads_sync_signed _ _ 2); [apply law_try_int16|apply law_int16|lia]. Qed.

Lemma reads_sync_int32 z :
  in_signed 32 z -> reads delivers (read_sync_first try_read_int32 read_int32) (le_bytes 4 z) z.
Proof. apply (reads_sync_signed _ _ 4); [apply law_try_int32|apply law_int32|lia]. Qed.

Lemma reads_sync_int64 z :
  in_signed 64 z -> reads delivers (read_sync_first try_read_int64 read_int64) (le_bytes 8 z) z.
Proof. apply (reads_sync_signed _ _ 8); [apply law_try_int64|apply law_int64|lia]. Qed.
End laws.

#[export] Hint Resolve reads_byte reads_uint16 reads_uint24 reads_uint32 reads_uint40
  reads_uint64 reads_float32 reads_float64 reads_int16 reads_int32 reads_int64 reads_int16_be
  reads_int32_be reads_bytes reads_skip reads_u8_varbyte reads_u16_varbyte
  reads_unicode_bytes reads_varchar_u8 reads_varchar_u16 reads_varchar_u16_null
  reads_sync_byte reads_sync_uint16 reads_sync_uint24 reads_sync_uint32 reads_sync_uint40
  reads_sync_float32 reads_sync_float64 reads_sync_int16 reads_sync_int32 reads_sync_int64 : reads.
