(* ===== verification/Reader.v ===== *)
(** * The transport implements the packet-reader interface

    Scalar and bulk reads of [NetworkTransport], proved against the framing specification: the
    bytes of a message come out in order whatever its packets and the socket's chunks are; a
    value cut short by the end of its message is an error and not a wait; and no stream of bytes
    makes a read panic. *)

From stdpp Require Import strings.
From S2P Require Import Prelude Core ReadBuffer Transport Framing PacketReader.

(** ** Messages on the wire *)

(** [message max w ps closed rest]: packets at the front of [w] carry the payload [ps] and are
    followed by [rest]; [closed] when the last of them ends the message. *)
Inductive message (max : nat) : bytes -> bytes -> bool -> bytes -> Prop :=
  | msg_here w : message max w [] false w
  | msg_last w p rest :
      next_packet max w = Some (true, p, rest) -> message max w p true rest
  | msg_more w p w' ps closed rest :
      next_packet max w = Some (false, p, w') -> message max w' ps closed rest ->
      message max w (p ++ ps) closed rest.

(** The reader still has [bs] of the current message, with [rest] behind them; [closed] when
    the message is known to end there. *)
Definition delivers (t : NetworkTransport) (bs : bytes) (closed : bool) (rest : bytes) : Prop :=
  transport_wf t /\
  exists ps c, message (nt_max t) (wire t) ps c rest /\ bs = unread (rb t) ++ ps /\
    (ps <> [] -> end_of_message (rb t) = true -> unread (rb t) = []) /\
    (closed = true -> c = true \/ ps = [] /\ end_of_message (rb t) = true).

Lemma next_packet_shrinks max w eom p rest :
  next_packet max w = Some (eom, p, rest) -> (length p + length rest + 8 <= length w)%nat.
Proof.
  unfold next_packet. case_decide as H; [|done]. intros E; simplify_eq.
  rewrite length_slice, length_drop; lia.
Qed.

Lemma next_packet_payload max w p rest :
  next_packet max w = Some (false, p, rest) -> p <> [].
Proof.
  unfold next_packet. case_decide as H; [|done]. intros E Hp.
  injection E as He Hs _. destruct H as (? & ? & ? & Hx).
  assert (Hl : length (slice 8 (header_length w) w) = 0%nat) by (by rewrite Hs, Hp).
  rewrite length_slice in Hl by lia. rewrite Hx in He by lia. done.
Qed.

(** A message with payload or an end still to come starts with a packet. *)
Lemma message_next max w ps c rest :
  message max w ps c rest -> ps <> [] \/ c = true ->
  exists eom p w' ps' c', next_packet max w = Some (eom, p, w') /\ ps = p ++ ps' /\
    message max w' ps' c' rest /\ (if eom then ps' = [] /\ c = true else c' = c /\ p <> []).
Proof.
  intros Hm Hne. inversion Hm as [w0|w0 p r Hn|w0 p w' ps' c0 r Hn Hm']; subst.
  - by destruct Hne.
  - exists true, ps, rest, [], false. rewrite app_nil_r. split_and!; try done. constructor.
  - exists false, p, w', ps', c. split_and!; try done. by eapply next_packet_payload.
Qed.

(** Progress made by one refill. *)
Record refilled (t t' : NetworkTransport) : Prop := {
  re_max : nt_max t' = nt_max t;
  re_wire : (length (wire t') < length (wire t))%nat;
  re_frame : reader_frame t t';
  re_dead : known_dead t' = known_dead t;
}.

(** One refill brings the next payload within reach. *)
Lemma read_tds_packet_delivers t bs closed rest :
  delivers t bs closed rest -> (remaining t <= nt_max t)%nat -> (remaining t < length bs)%nat ->
  exists t', read_tds_packet t = (Ok tt, t') /\ delivers t' bs closed rest /\ refilled t t' /\
    (remaining t < remaining t')%nat /\
    ((remaining t' < length bs)%nat -> end_of_message (rb t') = false).
Proof.
  intros (Hwf & ps & c & Hm & -> & Hb & Hcl) Hroom Hlt.
  pose proof (read_tds_packet_spec t Hwf Hroom) as Hr. unfold read_packet_post in Hr.
  pose proof (length_unread _ (proj1 Hwf)) as Hu. rewrite length_app, Hu in Hlt.
  assert (Hps : ps <> []) by (intros ->; cbn in Hlt; lia).
  destruct (message_next _ _ _ _ _ Hm (or_introl Hps))
    as (eom & p & w' & ps' & c' & Hn & -> & Hm2 & Hif).
  rewrite Hn in Hr. destruct Hr as (t' & Hr & Hwf' & Hm' & Hu' & He' & Hw' & Hfr & Hk).
  pose proof (length_unread _ (proj1 Hwf')) as Hul. rewrite Hu', length_app in Hul.
  pose proof (next_packet_shrinks _ _ _ _ _ Hn).
  assert (0 < length p)%nat.
  { destruct p; [|cbn; lia]. destruct eom; destruct Hif as [-> ?]; done. }
  exists t'. split_and!; [done| | | |].
  - split; [done|]. exists ps', c'. rewrite Hm', Hw', Hu', <- app_assoc. split_and!; try done.
    + rewrite He'. intros Hne ->. by destruct Hif.
    + intros Hclosed. destruct eom; destruct Hif as [-> Hc2].
      * right. by rewrite He'.
      * left. destruct (Hcl Hclosed) as [->|[? _]]; [done|by destruct p].
  - constructor; auto. rewrite Hw'. lia.
  - lia.
  - rewrite He', !length_app, Hu. intros Hshort. destruct eom; [|done].
    destruct Hif as [-> _]. cbn in Hshort. lia.
Qed.

(** Consuming from the buffer. *)
Lemma delivers_consume t b' n bs closed rest :
  delivers t bs closed rest -> (n <= remaining t)%nat ->
  buffer_wf b' -> same_frame (rb t) b' -> unread b' = drop n (unread (rb t)) ->
  delivers (t {{ tds_read_buffer := b' }}) (drop n bs) closed rest.
Proof.
  intros ([Hwf Hmx] & ps & c & Hm & -> & Hb & Hcl) Hn Hwf' [S1 S2 S3 S4] Hu.
  pose proof (length_unread _ Hwf) as Hul.
  split; [split; cbn; [done|lia]|]. exists ps, c. unfold wire; cbn.
  rewrite S1, S2, Hu, S4. split_and!; try done.
  - rewrite drop_app_le by lia. done.
  - intros Hne He. rewrite Hb by done. by destruct n.
Qed.

Lemma take_unread t bs closed rest n :
  delivers t bs closed rest -> (n <= remaining t)%nat -> take n (unread (rb t)) = take n bs.
Proof.
  intros ([Hwf _] & ps & c & _ & -> & _) Hn. pose proof (length_unread _ Hwf).
  by rewrite take_app_le by lia.
Qed.

(** ** Scalar reads *)

(** What the transport's [try_read_*] helpers do with the buffer. *)
Definition try_spec {A} (n : nat) (f : bytes -> A) (m : M TdsReadBuffer (option A)) : Prop :=
  forall b, buffer_wf b ->
    ((n <= get_remaining_byte_count b)%nat -> exists b', m b = (Ok (Some (f (take n (unread b)))), b') /\
       buffer_wf b' /\ same_frame b b' /\ unread b' = drop n (unread b)) /\
    ((get_remaining_byte_count b < n)%nat -> m b = (Ok None, b)).

Lemma try_map_spec {A} n (f : bytes -> A) : try_spec n f (try_map f (try_read_array n)).
Proof. intros b Hwf. split; intros; [by apply try_map_ok|by apply try_map_none]. Qed.

Lemma peek_and_consume_spec {A} n (f : bytes -> A) : try_spec n f (Net.peek_and_consume n f).
Proof.
  intros b Hwf. unfold Net.peek_and_consume, bind, gets. split; intros Hn.
  - rewrite (proj2 (enough_data_iff n b) Hn). unfold get_slice, index_range.
    rewrite decide_True by (destruct Hwf; lia).
    destruct (consume_bytes_ok n b Hwf Hn) as (b' & -> & Hwf' & Hf & Hu & _).
    exists b'. split; [|done]. unfold ret. do 3 f_equal. f_equal.
    rewrite <- unread_take by done. unfold slice. rewrite take_take. f_equal.
    destruct Hwf. unfold get_remaining_byte_count in Hn. lia.
  - destruct (do_we_have_enough_data n b) eqn:E; [|done]. apply enough_data_iff in E. lia.
Qed.

Lemma value_not_truncated t n bs closed rest :
  delivers t bs closed rest -> (n <= length bs)%nat ->
  value_truncated_by_message_end false n t = false.
Proof.
  intros ([Hwf _] & ps & c & _ & -> & Hb & _) Hn.
  pose proof (length_unread _ Hwf) as Hu. rewrite length_app in Hn.
  unfold value_truncated_by_message_end, message_cannot_satisfy. cbn [orb].
  destruct (end_of_message (rb t)) eqn:He; [|by rewrite andb_false_r].
  destruct (decide (ps = [])) as [->|Hne].
  - cbn in Hn. rewrite (bool_decide_false (_ < n)%nat) by lia. by rewrite !andb_false_r.
  - rewrite (Hb Hne eq_refl) in Hu. cbn in Hu. by rewrite bool_decide_false by lia.
Qed.

(** A scalar loop returns the next [n] bytes, decoded. *)
Lemma read_loop_delivers {A} n (f : bytes -> A) tr :
  try_spec n f tr -> (n <= 8)%nat ->
  forall fuel t bs closed rest, (length (wire t) < fuel)%nat ->
  delivers t bs closed rest -> (n <= length bs)%nat ->
  exists t', read_loop fuel n tr t = (Ok (f (take n bs)), t') /\
    delivers t' (drop n bs) closed rest /\ nt_max t' = nt_max t /\ reader_frame t t' /\
    known_dead t' = known_dead t.
Proof.
  intros Hspec Hn8. induction fuel as [|fuel IH]; intros t bs closed rest Hfuel Hd Hn; [lia|].
  cbn [read_loop]. pose proof Hd as ([Hwf Hmx] & _). destruct (Hspec _ Hwf) as [Hok Hnone].
  destruct (decide (n <= remaining t)%nat) as [Hle|Hgt].
  - destruct (Hok Hle) as (b' & E & Hwf' & Hf & Hu).
    rewrite (bind_ok _ _ _ _ _ (on_buffer_eq _ _ _ _ E)).
    eexists; split; [unfold ret; by rewrite (take_unread _ _ _ _ _ Hd Hle)|].
    destruct Hf. split_and!; try done. by eapply delivers_consume.
  - rewrite (bind_ok _ _ _ _ _ (on_buffer_eq _ _ _ _ (Hnone ltac:(lia)))), transport_eta.
    destruct (read_tds_packet_delivers _ _ _ _ Hd) as (t1 & E & Hd1 & [] & _); [lia..|].
    assert (Hre : refill_for n t = (Ok tt, t1)).
    { unfold refill_for, bind, gets. by rewrite (value_not_truncated _ _ _ _ _ Hd Hn). }
    rewrite (bind_ok _ _ _ _ _ Hre).
    destruct (IH t1 _ _ _ ltac:(lia) Hd1 Hn) as (t' & E' & Hd' & Hm' & Hf' & Hk').
    exists t'. split_and!; try done; try congruence. by trans t1.
Qed.

Lemma length_stream_data es : (length (stream_data es) <= stream_measure es)%nat.
Proof.
  induction es as [|[[|x bs]| |] es IH]; cbn; try lia. rewrite length_app. lia.
Qed.

Lemma read_fuel_enough t : transport_wf t -> (length (wire t) < read_fuel t)%nat.
Proof.
  intros [Hwf _]. unfold wire, read_fuel. rewrite length_app, (length_parked _ Hwf).
  pose proof (length_stream_data (in_events t)). lia.
Qed.

Lemma read_scalar_delivers {A} n (f : bytes -> A) tr t bs closed rest :
  try_spec n f tr -> (n <= 8)%nat -> delivers t bs closed rest -> (n <= length bs)%nat ->
  exists t', read_scalar n tr t = (Ok (f (take n bs)), t') /\
    delivers t' (drop n bs) closed rest /\ reader_frame t t' /\ known_dead t' = known_dead t.
Proof.
  intros Hs Hn Hd Hl.
  destruct (read_loop_delivers n f tr Hs Hn (read_fuel t) t bs closed rest) as (t' & ? & ? & ? & ? & ?);
    auto; [apply read_fuel_enough, Hd|]. by exists t'.
Qed.

(** ** Bulk reads *)

(** The refill threshold of a bulk loop is positive and within the value and the packet. *)
Definition want_ok (want : TdsReadBuffer -> nat -> nat) : Prop :=
  forall b len, (0 < len)%nat -> (8 < max_packet_size b)%nat ->
    (0 < want b len <= len)%nat /\ (want b len <= max_packet_size b)%nat.

Lemma want_read_ok : want_ok (fun b len => Nat.min (max_packet_size b) len).
Proof. intros b len. lia. Qed.

Lemma want_skip_ok : want_ok (fun b len => Nat.min (max_packet_size b - 8) len).
Proof. intros b len. lia. Qed.

(** Once part of a value was read, the rest is in the same message. *)
Definition in_message (t : NetworkTransport) (bs : bytes) : Prop :=
  (remaining t < length bs)%nat -> end_of_message (rb t) = false.

Lemma bulk_not_truncated t acc len bs closed rest :
  delivers t bs closed rest -> (len <= length bs)%nat -> (acc <> [] -> in_message t bs) ->
  value_truncated_by_message_end (bool_decide (0 < length (acc : bytes))%nat) len t = false.
Proof.
  intros Hd Hl Hin. destruct acc as [|x acc]; [by eapply value_not_truncated|].
  unfold value_truncated_by_message_end, message_cannot_satisfy.
  destruct (decide (remaining t < len)%nat) as [H|H].
  - rewrite Hin by (done || lia). by rewrite andb_false_r.
  - rewrite (bool_decide_false (_ < len)%nat) by lia. by rewrite !andb_false_r.
Qed.

(** The refill at the top of a bulk iteration leaves at least one byte to copy. *)
Lemma bulk_refill want t acc len bs closed rest :
  want_ok want -> (0 < len <= length bs)%nat -> delivers t bs closed rest ->
  (acc <> ([] : bytes) -> in_message t bs) ->
  exists t1, (if do_we_have_enough_data (want (rb t) len) (rb t) then ret tt
              else read_tds_packet) t = (Ok tt, t1) /\
    delivers t1 bs closed rest /\ (0 < remaining t1)%nat /\ in_message t1 bs /\
    nt_max t1 = nt_max t /\ reader_frame t t1 /\ known_dead t1 = known_dead t.
Proof.
  intros Hw Hl Hd Hin. pose proof Hd as ([Hwf Hmx] & ps & c & _ & Hbs & Hb & _).
  destruct (Hw (rb t) len ltac:(lia) Hmx) as [Hw1 Hw2].
  destruct (do_we_have_enough_data (want (rb t) len) (rb t)) eqn:E.
  - apply enough_data_iff in E. exists t. split_and!; try done; [lia|].
    intros Hlt. destruct (end_of_message (rb t)) eqn:He; [|done].
    pose proof (length_unread _ Hwf) as Hu. subst bs. rewrite length_app, Hu in Hlt.
    rewrite Hb in Hu; [cbn in Hu; lia| |done]. intros ->. cbn in Hlt. lia.
  - assert (Hlt : (remaining t < want (rb t) len)%nat).
    { apply Nat.nle_gt. intros Hle. apply enough_data_iff in Hle. congruence. }
    destruct (read_tds_packet_delivers _ _ _ _ Hd) as (t1 & E1 & Hd1 & [] & Hr & Hm); [lia..|].
    exists t1. split_and!; try done. lia.
Qed.

Lemma bulk_loop_delivers want : want_ok want ->
  forall fuel t acc len empties bs closed rest,
  (len < fuel)%nat -> delivers t bs closed rest -> (len <= length bs)%nat ->
  (acc <> [] -> in_message t bs) ->
  exists t', Net.bulk_loop fuel want acc len empties t = (Ok (acc ++ take len bs), t') /\
    delivers t' (drop len bs) closed rest /\ reader_frame t t' /\ known_dead t' = known_dead t.
Proof.
  intros Hw. induction fuel as [|fuel IH];
    intros t acc len empties bs closed rest Hfuel Hd Hl Hin; [lia|].
  cbn [Net.bulk_loop]. case_decide as Hz.
  { subst len. exists t. cbn. by rewrite app_nil_r. }
  unfold bind at 1, gets. rewrite (bulk_not_truncated _ _ _ _ _ _ Hd Hl Hin).
  unfold bind at 1, gets.
  destruct (bulk_refill want t acc len bs closed rest Hw ltac:(lia) Hd Hin)
    as (t1 & E1 & Hd1 & Hpos & Hin1 & Hm1 & Hf1 & Hk1).
  rewrite (bind_ok _ _ _ _ _ E1). unfold bind at 1, gets.
  pose proof Hd1 as ([Hwf1 Hmx1] & _).
  set (to_read := Nat.min (remaining t1) _).
  assert (Hto : (0 < to_read)%nat /\ (to_read <= remaining t1)%nat /\ (to_read <= len)%nat) by lia.
  rewrite decide_False by lia.
  assert (Hidx : index_range (buffer_position (rb t1)) (buffer_position (rb t1) + to_read)
                   (working_buffer (rb t1)) = Ok (take to_read bs)).
  { unfold index_range. rewrite decide_True.
    - by rewrite unread_take, (take_unread _ _ _ _ _ Hd1) by (done || lia).
    - destruct Hwf1. unfold get_remaining_byte_count in Hto. lia. }
  rewrite Hidx. unfold bind at 1, lift.
  destruct (consume_bytes_ok to_read _ Hwf1 ltac:(lia)) as (b2 & E2 & Hwf2 & Hf2 & Hu2 & _).
  rewrite (bind_ok _ _ _ _ _ (on_buffer_eq _ _ _ _ E2)).
  pose proof (delivers_consume _ _ to_read _ _ _ Hd1 ltac:(lia) Hwf2 Hf2 Hu2) as Hd2.
  destruct (IH _ (acc ++ take to_read bs) (len - to_read)%nat empties _ _ _ ltac:(lia) Hd2)
    as (t' & E' & Hd' & Hf' & Hk').
  - rewrite length_drop. lia.
  - intros _ Hlt. cbn in *. destruct Hf2 as [_ _ _ ->]. apply Hin1.
    rewrite length_drop in Hlt. pose proof (length_unread _ Hwf2) as Hl2. rewrite <- Hl2, Hu2 in Hlt.
    rewrite length_drop, length_unread in Hlt by done. lia.
  - exists t'. rewrite E'. split_and!.
    + do 2 f_equal. rewrite <- app_assoc. f_equal.
      rewrite <- (take_drop to_read (take len bs)), take_take, skipn_firstn_comm.
      do 2 f_equal; lia.
    + rewrite drop_drop in Hd'. by replace (to_read + (len - to_read))%nat with len in Hd' by lia.
    + trans t1; [done|]. destruct Hf'. by constructor.
    + cbn in Hk'. congruence.
Qed.

(** ** Any stream *)

(** The bytes the transport still holds, unread or not yet framed. *)
Definition left (t : NetworkTransport) : nat := (length (unread (rb t)) + length (wire t))%nat.

(** A packet read from a well-formed state completes, and a success consumed wire bytes. *)
Lemma read_tds_packet_any t :
  transport_wf t -> (remaining t <= nt_max t)%nat ->
  exists r t', read_tds_packet t = (r, t') /\ transport_wf t' /\ nt_max t' = nt_max t /\
    ((r = Ok tt /\ (length (wire t') < length (wire t))%nat /\ (left t' <= left t)%nat /\
      (unread (rb t') = [] -> end_of_message (rb t') = true)) \/
     (exists e, r = Err e /\ framing_error e)).
Proof.
  intros Hwf Hr. pose proof (read_tds_packet_spec t Hwf Hr) as H. unfold read_packet_post in H.
  destruct (next_packet (nt_max t) (wire t)) as [[[eom p] rest]|] eqn:E.
  - destruct H as (t' & E' & ? & ? & Hu & He & Hw & _). exists (Ok tt), t'.
    split_and!; try done. left. pose proof (next_packet_shrinks _ _ _ _ _ E).
    unfold left. split_and!; [done|rewrite Hw; lia|rewrite Hw, Hu, length_app; lia|].
    rewrite Hu, He. intros [_ ->]%app_nil. destruct eom; [done|]. by apply next_packet_payload in E.
  - destruct H as (e & t' & E' & He & ? & ? & _). exists (Err e), t'. split_and!; try done. eauto.
Qed.

Lemma refill_any t n :
  transport_wf t -> (remaining t <= nt_max t)%nat ->
  exists r t', refill_for n t = (r, t') /\ transport_wf t' /\
    ((r = Ok tt /\ (length (wire t') < length (wire t))%nat /\ (left t' <= left t)%nat) \/
     exists e, r = Err e).
Proof.
  intros Hwf Hr. unfold refill_for, bind, gets. case_match.
  - exists (Err past_end_of_message_error), t. eauto.
  - destruct (read_tds_packet_any t Hwf Hr) as (r & t1 & E & ? & _ & [(-> & ? & ? & _)|(e & -> & _)]);
      do 2 eexists; eauto 6.
Qed.

(** Consuming [n] bytes of the buffer. *)
Lemma consumed_left t b' n :
  transport_wf t -> (n <= remaining t)%nat -> buffer_wf b' -> same_frame (rb t) b' ->
  unread b' = drop n (unread (rb t)) ->
  transport_wf (t {{ tds_read_buffer := b' }}) /\
  (left (t {{ tds_read_buffer := b' }}) + n <= left t)%nat.
Proof.
  intros [Hb Hmx] Hn Hwf' [S1 S2 S3 S4] Hu. pose proof (length_unread _ Hb) as Hul.
  split; [split; cbn; [done|lia]|]. unfold left, wire.
  change (tds_read_buffer (t {{ tds_read_buffer := b' }})) with b'.
  change (in_events (t {{ tds_read_buffer := b' }})) with (in_events t).
  rewrite S2, Hu, !length_app, length_drop. unfold get_remaining_byte_count in *. lia.
Qed.

Lemma read_loop_any {A} n (f : bytes -> A) tr :
  try_spec n f tr -> (n <= 8)%nat ->
  forall fuel t, (length (wire t) < fuel)%nat -> transport_wf t ->
  completes (fst (read_loop fuel n tr t)) /\ transport_wf (snd (read_loop fuel n tr t)) /\
  forall a, fst (read_loop fuel n tr t) = Ok a ->
    (left (snd (read_loop fuel n tr t)) + n <= left t)%nat /\ exists bs, length bs = n /\ a = f bs.
Proof.
  intros Hspec Hn. induction fuel as [|fuel IH]; intros t Hfuel Hwf; [lia|].
  cbn [read_loop]. pose proof Hwf as [Hb Hmx]. destruct (Hspec _ Hb) as [Hok Hnone].
  destruct (decide (n <= remaining t)%nat) as [Hle|Hgt].
  - destruct (Hok Hle) as (b' & E & Hwf' & Hf & Hu).
    destruct (consumed_left t b' n Hwf Hle Hwf' Hf Hu).
    rewrite (bind_ok _ _ _ _ _ (on_buffer_eq _ _ _ _ E)). cbn. split_and!; try done.
    intros a [= <-]. split; [done|]. exists (take n (unread (rb t))). split; [|done].
    rewrite length_take, length_unread by done. lia.
  - rewrite (bind_ok _ _ _ _ _ (on_buffer_eq _ _ _ _ (Hnone ltac:(lia)))), transport_eta.
    destruct (refill_any t n Hwf ltac:(lia)) as (r & t1 & E & Hwf1 & [(-> & Hw & Hl)|(e & ->)]).
    + rewrite (bind_ok _ _ _ _ _ E). destruct (IH t1 ltac:(lia) Hwf1) as (? & ? & Ha).
      split_and!; try done. intros a (? & ?)%Ha. split; [lia|done].
    + by rewrite (bind_err _ _ _ _ _ E).
Qed.

Lemma read_scalar_any {A} n (f : bytes -> A) tr :
  try_spec n f tr -> (n <= 8)%nat ->
  gives transport_wf left n (fun a => exists bs, length bs = n /\ a = f bs) (read_scalar n tr).
Proof. intros ? ? t Hwf. eapply read_loop_any; eauto using read_fuel_enough. Qed.

(** The bulk readers' conditional fetch: after a success an empty buffer means that the
    message ended. *)
Lemma bulk_fetch_any want t len : want_ok want -> (0 < len)%nat -> transport_wf t ->
  exists r t1, (if do_we_have_enough_data (want (rb t) len) (rb t) then ret tt
                else read_tds_packet) t = (r, t1) /\ transport_wf t1 /\
    ((r = Ok tt /\ (left t1 <= left t)%nat /\
      (remaining t1 = 0%nat -> end_of_message (rb t1) = true)) \/
     (exists e, r = Err e /\ framing_error e)).
Proof.
  intros Hw Hlen Hwf. pose proof Hwf as [Hb Hmx]. destruct (Hw (rb t) len Hlen Hmx) as [Hw1 Hw2].
  destruct (do_we_have_enough_data _ _) eqn:En.
  - apply enough_data_iff in En. exists (Ok tt), t. split_and!; try done. left. split_and!; [done..|lia].
  - assert (Hlt : (remaining t < want (rb t) len)%nat).
    { apply Nat.nle_gt. intros Hle. apply enough_data_iff in Hle. congruence. }
    destruct (read_tds_packet_any t Hwf ltac:(lia)) as (r & t1 & E & Hwf1 & _ & Hr).
    exists r, t1. split_and!; try done. destruct Hr as [(-> & _ & ? & He)|?]; [left|by right].
    split_and!; [done..|]. intros H0. apply He, length_zero_iff_nil.
    by rewrite length_unread by apply Hwf1.
Qed.

(** What a bulk read of [len] more bytes may end with, whatever the stream holds. *)
Definition bulk_safe (t : NetworkTransport) (acc : bytes) (len : nat)
    (res : TdsResult bytes * NetworkTransport) : Prop :=
  completes (fst res) /\ fst res <> Err no_progress_error /\ transport_wf (snd res) /\
  forall bs, fst res = Ok bs ->
    (left (snd res) + len <= left t)%nat /\ length bs = (length acc + len)%nat.

(** The bulk loop ends within [len + 3] turns whatever arrives, and never through the
    no-progress guard: an empty buffer after a refill means the message ended. *)
Lemma bulk_loop_any want : want_ok want ->
  forall fuel t acc len empties,
  (len + 3 <= fuel + empties)%nat -> (empties <= 1)%nat -> transport_wf t ->
  bulk_safe t acc len (Net.bulk_loop fuel want acc len empties t).
Proof.
  intros Hw. induction fuel as [|fuel IH]; intros t acc len empties Hfuel Hem Hwf; [lia|].
  cbn [Net.bulk_loop]. case_decide as Hz.
  { split_and!; try done. intros bs [= <-]. cbn. lia. }
  unfold bind at 1, gets. case_match; [done|]. unfold bind at 1, gets.
  destruct (bulk_fetch_any want t len Hw ltac:(lia) Hwf) as (r & t1 & E & Hwf1 & Hr).
  destruct Hr as [(-> & Hl & He)|(e & -> & He)]; cycle 1.
  { rewrite (bind_err _ _ _ _ _ E). split_and!; try done. destruct He as (_ & ? & _). cbn. congruence. }
  rewrite (bind_ok _ _ _ _ _ E). unfold bind at 1, gets. pose proof Hwf1 as [Hb1 Hmx1].
  destruct (decide (Nat.min _ _ = 0%nat)) as [Hto|Hto].
  - rewrite He by lia. cbn [negb]. do 2 (match goal with |- context [decide ?P] => destruct (decide P); [done|] end).
    destruct (IH t1 acc len (empties + 1)%nat) as (? & ? & ? & Hbs);
      [unfold MAX_CONSECUTIVE_EMPTY_MESSAGES in *; lia..|done|].
    split_and!; try done. intros bs (? & ?)%Hbs. split; lia.
  - unfold index_range. rewrite decide_True by (destruct Hb1; unfold get_remaining_byte_count; lia).
    unfold bind at 1, lift. set (n := Nat.min (remaining t1) (Nat.min len (nt_max t1 - 8))) in *.
    destruct (consume_bytes_ok n _ Hb1 ltac:(lia)) as (b2 & E2 & Hwf2 & Hf2 & Hu2 & _).
    destruct (consumed_left t1 b2 n Hwf1 ltac:(lia) Hwf2 Hf2 Hu2) as [Hwf3 Hl3].
    rewrite (bind_ok _ _ _ _ _ (on_buffer_eq _ _ _ _ E2)).
    destruct (IH _ (acc ++ slice (buffer_position (rb t1)) (buffer_position (rb t1) + n)
      (working_buffer (rb t1))) (len - n)%nat empties ltac:(lia) Hem Hwf3) as (? & ? & ? & Hbs).
    split_and!; try done. intros bs (? & Hlb)%Hbs. rewrite Hlb, length_app, length_slice
      by (destruct Hb1; unfold get_remaining_byte_count in *; lia). split; lia.
Qed.
