(* ===== verification/ReaderLaws.v ===== *)
(** * Values cut by the end of their message, and the transport as a packet reader

    The second half of the transport's read side: the error for a value the message cannot
    satisfy, and the instance of the packet-reader interface with its laws. *)

From stdpp Require Import strings.
From S2P Require Import Prelude Core ReadBuffer Transport Framing PacketReader Reader.

(** ** Values cut by the end of their message *)

(** Fetching the packet that ends a message, which may carry nothing. *)
Lemma read_closing_packet t bs rest :
  delivers t bs true rest -> (remaining t <= nt_max t)%nat -> remaining t = length bs ->
  end_of_message (rb t) = false ->
  exists t', read_tds_packet t = (Ok tt, t') /\ delivers t' bs true rest /\ refilled t t' /\
    end_of_message (rb t') = true /\ remaining t' = length bs.
Proof.
  intros (Hwf & ps & c & Hm & -> & Hb & Hcl) Hroom Hlen He.
  pose proof (read_tds_packet_spec t Hwf Hroom) as Hr. unfold read_packet_post in Hr.
  pose proof (length_unread _ (proj1 Hwf)) as Hu.
  rewrite length_app, Hu in Hlen. assert (ps = []) as -> by (apply length_zero_iff_nil; lia).
  destruct (Hcl eq_refl) as [->|[_ ?]]; [|congruence].
  destruct (message_next _ _ _ _ _ Hm (or_intror eq_refl))
    as (eom & p & w' & ps' & c' & Hn & [-> ->]%symmetry%app_nil & Hm2 & Hif).
  destruct eom; [|by destruct Hif]. rewrite Hn, app_nil_r in Hr.
  destruct Hr as (t' & Hr & Hwf' & Hm' & Hu' & He' & Hw' & Hfr & Hk).
  pose proof (length_unread _ (proj1 Hwf')) as Hul. pose proof (next_packet_shrinks _ _ _ _ _ Hn).
  exists t'. rewrite app_nil_r. split_and!; try done.
  - split; [done|]. exists [], c'. rewrite Hm', Hw', Hu', app_nil_r. split_and!; auto.
  - constructor; auto. rewrite Hw'. lia.
  - by rewrite <- Hul, Hu'.
Qed.

(** A refill inside a message that is known to end: either bytes arrive, or the end does. *)
Lemma refill_closed t bs rest :
  delivers t bs true rest -> (remaining t <= nt_max t)%nat ->
  (remaining t < length bs)%nat \/ end_of_message (rb t) = false ->
  exists t', read_tds_packet t = (Ok tt, t') /\ delivers t' bs true rest /\ refilled t t' /\
    in_message t' bs /\ ((0 < remaining t')%nat \/ end_of_message (rb t') = true).
Proof.
  intros Hd Hroom Hcase. destruct (decide (remaining t < length bs)%nat) as [Hlt|Hge].
  - destruct (read_tds_packet_delivers _ _ _ _ Hd Hroom Hlt) as (t' & E & Hd' & Hre & Hr & He).
    exists t'. split_and!; try done. left. lia.
  - pose proof Hd as ([Hwf _] & ps & c & _ & Hbs & _).
    assert (remaining t = length bs).
    { rewrite <- (length_unread _ Hwf) in *. subst bs. rewrite length_app in *. lia. }
    destruct (read_closing_packet t bs rest) as (t' & E & Hd' & Hre & He & Hl); try done.
    { destruct Hcase; [lia|done]. }
    exists t'. split_and!; try done; [intros ?; lia|by right].
Qed.

(** In such a message the end-of-message flag, with bytes in the buffer, means all of them are. *)
Lemma flagged_all_buffered t bs closed rest :
  delivers t bs closed rest -> end_of_message (rb t) = true ->
  remaining t = 0%nat \/ remaining t = length bs.
Proof.
  intros ([Hwf _] & ps & c & _ & -> & Hb & _) He. pose proof (length_unread _ Hwf) as Hu.
  rewrite length_app, Hu. destruct ps as [|x ps]; [right; cbn; lia|left].
  rewrite Hb in Hu by done. cbn in Hu. lia.
Qed.

Lemma delivers_length t bs closed rest :
  delivers t bs closed rest -> (remaining t <= length bs)%nat.
Proof.
  intros ([Hwf _] & ps & c & _ & -> & _). rewrite <- (length_unread _ Hwf), length_app. lia.
Qed.

(** A message of fewer than [n] bytes, some of them unread, fails a scalar read. *)
Lemma read_loop_truncated {A} n (f : bytes -> A) tr :
  try_spec n f tr -> (n <= 8)%nat ->
  forall fuel t bs rest, (length (wire t) < fuel)%nat ->
  delivers t bs true rest -> (0 < length bs < n)%nat ->
  exists t', read_loop fuel n tr t = (Err past_end_of_message_error, t') /\ transport_wf t'.
Proof.
  intros Hspec Hn8. induction fuel as [|fuel IH]; intros t bs rest Hfuel Hd Hn; [lia|].
  cbn [read_loop]. pose proof Hd as ([Hwf Hmx] & _). pose proof (delivers_length _ _ _ _ Hd).
  rewrite (bind_ok _ _ _ _ _ (on_buffer_eq _ _ _ _ (proj2 (Hspec _ Hwf) ltac:(lia)))),
    transport_eta.
  unfold refill_for, bind, gets. destruct (value_truncated_by_message_end false n t) eqn:Et.
  { exists t. split; [done|apply Hd]. }
  assert ((remaining t < length bs)%nat \/ end_of_message (rb t) = false) as Hcase.
  { destruct (end_of_message (rb t)) eqn:He; [left|by right].
    destruct (flagged_all_buffered _ _ _ _ Hd He); [lia|]. revert Et.
    unfold value_truncated_by_message_end, message_cannot_satisfy.
    by rewrite He, !bool_decide_true by lia. }
  destruct (refill_closed t bs rest Hd ltac:(lia) Hcase) as (t1 & -> & Hd1 & [] & _).
  apply (IH t1 bs rest); auto; lia.
Qed.

(** The fetch at the top of a bulk turn, in a message that is known to end. *)
Lemma bulk_refill_closed want t acc len bs rest :
  want_ok want -> (0 < len)%nat -> (length bs < len)%nat -> delivers t bs true rest ->
  value_truncated_by_message_end (bool_decide (0 < length (acc : bytes))%nat) len t = false ->
  acc <> [] \/ bs <> [] ->
  exists t1, (if do_we_have_enough_data (want (rb t) len) (rb t) then ret tt
              else read_tds_packet) t = (Ok tt, t1) /\
    delivers t1 bs true rest /\ in_message t1 bs /\
    ((0 < remaining t1)%nat \/ end_of_message (rb t1) = true).
Proof.
  intros Hw Hl Hlt Hd Et Hne. pose proof Hd as ([Hwf Hmx] & _).
  destruct (Hw (rb t) len Hl Hmx) as [Hw1 Hw2]. pose proof (delivers_length _ _ _ _ Hd).
  assert (end_of_message (rb t) = false \/ (remaining t = 0%nat /\ bs <> [])) as Hcase.
  { destruct (end_of_message (rb t)) eqn:He; [right|by left]. revert Et.
    unfold value_truncated_by_message_end, message_cannot_satisfy.
    rewrite He, (bool_decide_true (_ < len)%nat) by lia. cbn [andb].
    rewrite andb_true_r, orb_false_iff, !bool_decide_eq_false. intros [Ha Hr].
    split; [lia|]. destruct Hne as [Hacc|]; [|done]. by destruct acc; cbn in Ha; [|lia]. }
  destruct (do_we_have_enough_data (want (rb t) len) (rb t)) eqn:E.
  - apply enough_data_iff in E. exists t. split_and!; try done; [|left; lia].
    intros _. destruct Hcase as [|[? _]]; [done|lia].
  - assert (Hlt' : (remaining t < want (rb t) len)%nat).
    { apply Nat.nle_gt. intros Hle. apply enough_data_iff in Hle. congruence. }
    destruct (refill_closed t bs rest Hd ltac:(lia)) as (t1 & E1 & Hd1 & _ & Hin & Hor); [|eauto].
    destruct Hcase as [|[-> Hbs]]; [by right|left]. by destruct bs; cbn; [|lia].
Qed.

(** ... and a bulk read of more than the message has fails the same way. *)
Lemma bulk_loop_truncated want : want_ok want ->
  forall fuel t acc len empties bs rest,
  (len < fuel)%nat -> delivers t bs true rest -> (length bs < len)%nat ->
  acc <> [] \/ bs <> [] ->
  exists t', Net.bulk_loop fuel want acc len empties t = (Err past_end_of_message_error, t') /\
    transport_wf t'.
Proof.
  intros Hw. induction fuel as [|fuel IH]; intros t acc len empties bs rest Hfuel Hd Hl Hne; [lia|].
  cbn [Net.bulk_loop]. rewrite decide_False by lia. unfold bind at 1, gets.
  destruct (value_truncated_by_message_end _ len t) eqn:Et.
  { exists t. split; [done|apply Hd]. }
  unfold bind at 1, gets.
  destruct (bulk_refill_closed want t acc len bs rest Hw ltac:(lia) Hl Hd Et Hne)
    as (t1 & E1 & Hd1 & Hin & Hor).
  rewrite (bind_ok _ _ _ _ _ E1). unfold bind at 1, gets.
  pose proof Hd1 as ([Hwf1 Hmx1] & _). pose proof (delivers_length _ _ _ _ Hd1).
  destruct (decide (Nat.min _ _ = 0%nat)) as [Hto|Hto].
  - destruct Hor as [|He]; [lia|]. rewrite He. cbn [negb].
    assert (bs = []) as ->.
    { destruct bs; [done|]. rewrite Hin in He; [done|cbn; lia]. }
    rewrite decide_True by (destruct Hne as [Ha|]; [destruct acc; cbn; [done|lia]|done]).
    exists t1. split; [done|apply Hd1].
  - set (to_read := Nat.min _ _) in *. assert (Htr : (to_read <= remaining t1)%nat) by lia.
    unfold index_range. rewrite decide_True by (destruct Hwf1; unfold get_remaining_byte_count in *; lia).
    unfold bind at 1, lift.
    destruct (consume_bytes_ok to_read _ Hwf1 ltac:(lia)) as (b2 & E2 & Hwf2 & Hf2 & Hu2 & _).
    rewrite (bind_ok _ _ _ _ _ (on_buffer_eq _ _ _ _ E2)).
    pose proof (delivers_consume _ _ to_read _ _ _ Hd1 ltac:(lia) Hwf2 Hf2 Hu2) as Hd2.
    apply (IH _ _ _ _ (drop to_read bs) rest); [lia|done|rewrite length_drop; lia|].
    left. intros [_ Hs]%app_nil. apply (f_equal length) in Hs. revert Hs.
    rewrite length_slice by (destruct Hwf1; unfold get_remaining_byte_count in *; lia). cbn. lia.
Qed.

(** ** The instance of the interface *)

#[global] Instance NetworkTransport_ops : TdsPacketReader NetworkTransport := {
  buffered_slice t := (get_buffered_slice (tds_read_buffer t), t);
  try_read_byte := on_buffer ReadBuffer.try_read_byte;
  try_read_int16 := on_buffer ReadBuffer.try_read_int16;
  try_read_uint16 := on_buffer ReadBuffer.try_read_uint16;
  try_read_uint24 := on_buffer ReadBuffer.try_read_uint24;
  try_read_int32 := on_buffer ReadBuffer.try_read_int32;
  try_read_uint32 := on_buffer ReadBuffer.try_read_uint32;
  try_read_uint40 := on_buffer ReadBuffer.try_read_uint40;
  try_read_int64 := on_buffer ReadBuffer.try_read_int64;
  try_read_float32 := on_buffer ReadBuffer.try_read_float32;
  try_read_float64 := on_buffer ReadBuffer.try_read_float64;
  try_read_slice n := on_buffer (ReadBuffer.try_read_slice n);
  read_byte := Net.read_byte;
  read_int16_big_endian := Net.read_int16_big_endian;
  read_int32_big_endian := Net.read_int32_big_endian;
  read_uint40 := Net.read_uint40;
  read_float32 := Net.read_float32;
  read_float64 := Net.read_float64;
  read_int16 := Net.read_int16;
  read_uint16 := Net.read_uint16;
  read_uint24 := Net.read_uint24;
  read_int32 := Net.read_int32;
  read_uint32 := Net.read_uint32;
  read_int64 := Net.read_int64;
  read_uint64 := Net.read_uint64;
  read_bytes := Net.read_bytes;
  skip_bytes := Net.skip_bytes;
  reset_reader := Net.reset_reader;
}.

(** The bytes the transport still delivers of the message [closed]/[rest] describe. *)
Definition delivering (closed : bool) (rest : bytes) (t : NetworkTransport) (bs : bytes) : Prop :=
  delivers t bs closed rest.

Lemma scalar_law {A} closed rest n (f : bytes -> A) tr :
  try_spec n f tr -> (n <= 8)%nat ->
  reads_fixed (delivering closed rest) (read_scalar n tr) n f.
Proof.
  intros Hs Hn bs Hb t more Hd. unfold delivering in *.
  destruct (read_scalar_delivers n f tr t _ _ _ Hs Hn Hd) as (t' & E & Hd' & _);
    [rewrite length_app; lia|].
  exists t'. by rewrite E, take_app_length', <- (drop_app_length' bs more n) by done.
Qed.

Lemma bulk_law closed rest want n :
  want_ok want -> reads_fixed (delivering closed rest) (Net.bulk_loop (n + 3) want [] n 0) n id.
Proof.
  intros Hw bs Hb t more Hd. unfold delivering in *.
  destruct (bulk_loop_delivers want Hw (n + 3) t [] n 0 _ _ _ ltac:(lia) Hd) as (t' & E & Hd' & _);
    [rewrite length_app; lia|done|].
  exists t'. by rewrite E, take_app_length', <- (drop_app_length' bs more n) by done.
Qed.

Create HintDb tries discriminated.

Lemma try_read_slice_spec n : try_spec n id (ReadBuffer.try_read_slice n).
Proof. intros b Hwf. split; intros H; [by apply try_read_slice_ok|by apply try_read_slice_none]. Qed.

Lemma try_ext {A} n (f g : bytes -> A) m :
  try_spec n f m -> (forall bs, length bs = n -> f bs = g bs) -> try_spec n g m.
Proof.
  intros H E b Hwf. destruct (H b Hwf) as [H1 H2]. split; [|done].
  intros Hn. destruct (H1 Hn) as (b' & Eb & Hrest). exists b'. split; [|done].
  rewrite Eb, E; [done|]. rewrite length_take, length_unread by done. lia.
Qed.

(** A probe of the buffer is a probe of the transport. *)
Lemma probe_law {A} closed rest n (f : bytes -> A) m :
  try_spec n f m -> tries (delivering closed rest) (on_buffer m) n f.
Proof.
  intros Hs bs t more Hb Hd. unfold delivering in *. pose proof Hd as ([Hwf _] & _).
  destruct (Hs _ Hwf) as [Hok Hnone].
  destruct (decide (n <= remaining t)%nat) as [Hle|Hgt]; [left|right].
  - destruct (Hok Hle) as (b' & E & Hwf' & Hf & Hu). eexists.
    rewrite (on_buffer_eq _ _ _ _ E), (take_unread _ _ _ _ _ Hd Hle), take_app_length' by done.
    split; [done|]. rewrite <- (drop_app_length' bs more n) by done. by eapply delivers_consume.
  - by rewrite (on_buffer_eq _ _ _ _ (Hnone ltac:(lia))), transport_eta.
Qed.

Lemma try_uint24_spec : try_spec 3 of_le ReadBuffer.try_read_uint24.
Proof. eapply try_ext; [apply try_map_spec|]. intros. apply (LittleEndianList.le_combine_app_0 _ 1). Qed.

Lemma try_uint40_spec : try_spec 5 of_le ReadBuffer.try_read_uint40.
Proof. eapply try_ext; [apply try_map_spec|]. intros. apply (LittleEndianList.le_combine_app_0 _ 3). Qed.

Hint Resolve try_map_spec peek_and_consume_spec try_read_slice_spec try_uint24_spec try_uint40_spec : tries.

#[global] Instance NetworkTransport_laws closed rest :
  PacketReaderLaws NetworkTransport (delivering closed rest).
Proof.
  constructor; try (apply scalar_law; [|lia]; auto with tries; apply try_map_spec);
    try (apply probe_law; auto with tries; apply try_map_spec).
  - intros n. apply bulk_law, want_read_ok.
  - intros n bs Hb. apply (reads_bind_ret _ (fun _ => tt) bs bs).
    apply (bulk_law closed rest _ n want_skip_ok bs Hb).
  - intros n. apply probe_law, try_read_slice_spec.
  - intros t bs Hd. unfold delivering in *. cbn. pose proof Hd as ([Hwf _] & ps & c & Hm & -> & Hps).
    exists (unread (rb t)), ps. split_and!; [|done|].
    + unfold get_buffered_slice, index_range. destruct Hwf. by rewrite decide_True by lia.
    + intros n Hn. rewrite length_unread in Hn by done.
      destruct (proj1 (try_read_slice_spec n _ Hwf) Hn) as (b' & E & Hwf' & Hf & Hu). eexists.
      rewrite (on_buffer_eq _ _ _ _ E). split; [done|].
      rewrite <- drop_app_le by (rewrite length_unread by done; lia). by eapply delivers_consume.
Qed.

(** ** A fresh connection *)

Lemma fresh_transport_wf s n :
  (8 < n)%nat -> transport_wf (NetworkTransport_new s n) /\ unread (rb (NetworkTransport_new s n)) = [].
Proof.
  intros Hn. split; [|done]. split; [apply TdsReadBuffer_new_wf|done].
Qed.

Lemma fresh_delivers s n ps closed rest :
  (8 < n)%nat -> message n (stream_data (st_in s)) ps closed rest ->
  delivers (NetworkTransport_new s n) ps closed rest.
Proof.
  intros Hn Hm. split; [by apply fresh_transport_wf|].
  exists ps, closed. split_and!; try done. by left.
Qed.

Lemma fresh_read_bytes s n ps rest :
  (8 < n)%nat -> message n (stream_data (st_in s)) ps true rest ->
  exists t', Net.read_bytes (length ps) (NetworkTransport_new s n) = (Ok ps, t') /\
    delivers t' [] true rest /\ known_dead t' = false.
Proof.
  intros Hn Hm. pose proof (fresh_delivers _ _ _ _ _ Hn Hm) as Hd.
  destruct (bulk_loop_delivers _ want_read_ok (length ps + 3) _ [] (length ps) 0 _ _ _
              ltac:(lia) Hd) as (t' & E & Hd' & _ & Hk); [lia|done|].
  exists t'. rewrite drop_all in Hd'. split_and!; try done.
  unfold Net.read_bytes. by rewrite E, firstn_all.
Qed.

(** ** Properties *)

(** On any input the transport is a safe reader. *)
Lemma bulk_gives want n : want_ok want ->
  gives transport_wf left n (fun bs => length bs = n) (Net.bulk_loop (n + 3) want [] n 0).
Proof.
  intros Hw t Hwf. destruct (bulk_loop_any want Hw (n + 3) t [] n 0) as (? & _ & ? & Hb); [lia..|done|].
  done.
Qed.

Lemma probe_gives {A} n (f : bytes -> A) m (P : A -> Prop) :
  try_spec n f m -> (forall bs, length bs = n -> P (f bs)) ->
  gives transport_wf left 0 (from_option P True) (on_buffer m).
Proof.
  intros Hs HP t Hwf. unfold gives_at. pose proof Hwf as [Hb _]. destruct (Hs _ Hb) as [Hok Hnone].
  destruct (decide (n <= remaining t)%nat) as [Hle|Hgt].
  - destruct (Hok Hle) as (b' & E & Hwf' & Hf & Hu). rewrite (on_buffer_eq _ _ _ _ E). cbn.
    destruct (consumed_left t b' n Hwf Hle Hwf' Hf Hu). split_and!; try done.
    intros a [= <-]. split; [lia|]. cbn. apply HP. rewrite length_take, length_unread by done. lia.
  - rewrite (on_buffer_eq _ _ _ _ (Hnone ltac:(lia))), transport_eta. cbn. split_and!; try done.
    intros a [= <-]. split; [lia|done].
Qed.

Lemma of_le_unsigned_range n bs : length bs = n -> in_unsigned (8 * Z.of_nat n) (of_le bs).
Proof. intros <-. apply of_le_range. Qed.

Lemma of_le_signed_range n bs : length bs = n -> (0 < n)%nat -> in_signed (8 * Z.of_nat n) (of_le_signed bs).
Proof. intros <- ?. apply to_signed_range. lia. Qed.

Lemma of_be_signed_range n bs : length bs = n -> (0 < n)%nat -> in_signed (8 * Z.of_nat n) (of_be_signed bs).
Proof. intros <- ?. apply to_signed_range. lia. Qed.

Lemma scalar_gives {A} n (f : bytes -> A) m (P : A -> Prop) :
  try_spec n f m -> (n <= 8)%nat -> (forall bs, length bs = n -> P (f bs)) ->
  gives transport_wf left n P (read_scalar n m).
Proof.
  intros Hs Hn HP. eapply gives_weaken; [by apply read_scalar_any|lia|]. intros a (bs & Hl & ->). auto.
Qed.

Ltac in_range := intros bs Hl; first
  [ exact (of_le_unsigned_range _ bs Hl) | exact (of_le_signed_range _ bs Hl ltac:(lia))
  | exact (of_be_signed_range _ bs Hl ltac:(lia)) ].

#[global] Instance NetworkTransport_safe : SafeReader NetworkTransport transport_wf left.
Proof.
  constructor;
    try (eapply scalar_gives; [solve [auto with tries | apply try_map_spec]|lia|in_range]);
    try (eapply probe_gives; [solve [auto with tries | apply try_map_spec]|in_range]).
  - intros n. apply bulk_gives, want_read_ok.
  - intros n. rewrite <- (Nat.add_0_r n) at 1. eapply gives_bind; [apply bulk_gives, want_skip_ok|].
    intros. by apply gives_ret.
  - intros t Hwf. unfold gives_at. cbn. pose proof Hwf as [[] _]. split_and!; try done.
    + unfold get_buffered_slice, index_range. by rewrite decide_True by lia.
    + intros. split; [lia|done].
  - intros n. apply (probe_gives n id); [apply try_read_slice_spec|done].
Qed.

(** So is a byte list. *)
Lemma list_read_gives {A} n (f : bytes -> A) (P : A -> Prop) :
  (forall bs, length bs = n -> P (f bs)) ->
  gives (fun _ => True) length n P (list_read n f).
Proof.
  intros HP bs _. unfold gives_at, list_read. case_decide; cbn; [|done]. split_and!; [done..|].
  intros a [= <-]. split; [len_simpl; lia|]. apply HP. len_simpl. lia.
Qed.

Lemma list_try_gives {A} n (f : bytes -> A) (P : A -> Prop) :
  (forall bs, length bs = n -> P (f bs)) ->
  gives (fun _ => True) length 0 (from_option P True) (list_try n f).
Proof.
  intros HP bs _. unfold gives_at, list_try. case_decide; cbn; (split_and!; [done..|]); intros a [= <-];
    (split; [len_simpl; lia|]); cbn; [|done]. apply HP. len_simpl. lia.
Qed.

#[global] Instance ByteReader_safe : SafeReader ByteReader (fun _ => True) length.
Proof.
  constructor; intros; try (apply list_read_gives; first [in_range | done]);
    try (apply list_try_gives; first [in_range | done]).
  intros bs _. split_and!; try done. intros a [= <-]. cbn. split; [lia|done].
Qed.

(** A tabular-result packet, and a connection on which a two-packet message arrives in three
    socket reads that respect neither the packet nor the header boundaries; a second message
    follows. *)
Definition tabular_packet (eom : bool) (payload : bytes) : bytes :=
  [byte_of 4; byte_of (if eom then 1 else 0)] ++ be_bytes 2 (8 + Z.of_nat (length payload)) ++
  [byte_of 0; byte_of 0; byte_of 1; byte_of 0] ++ payload.

Definition chunked (chunks : list bytes) : Stream :=
  {| st_in := EvData <$> chunks; st_out := []; st_writes := [] |}.

Definition sample_payload : bytes := byte_of <$> [1; 2; 3; 4; 5].
Definition sample_wire : bytes :=
  tabular_packet false (take 3 sample_payload) ++ tabular_packet true (drop 3 sample_payload).
Definition sample_next : bytes := tabular_packet true [byte_of 9].
Definition sample_stream : Stream :=
  chunked [take 5 sample_wire; slice 5 14 sample_wire; drop 14 sample_wire ++ sample_next].
Definition sample_transport : NetworkTransport := NetworkTransport_new sample_stream 16.

Lemma sample_message :
  message 16 (stream_data (st_in sample_stream)) sample_payload true sample_next.
Proof.
  rewrite <- (take_drop 3 sample_payload).
  apply (msg_more _ _ _ (tabular_packet true (drop 3 sample_payload) ++ sample_next));
    [vm_compute; reflexivity|].
  apply msg_last. vm_compute. reflexivity.
Defined.

Lemma sample_delivers : delivers sample_transport sample_payload true sample_next.
Proof. apply fresh_delivers; [lia|]. apply sample_message. Defined.

(** C3: reading one TDS packet refines the packet specification [next_packet]: whatever is
    buffered or parked and however the socket cuts the stream, [read_tds_packet] appends exactly
    the next packet's payload to the unread bytes and leaves exactly the bytes behind it, or
    fails when no well-formed packet comes, keeping the unread bytes; it never panics. *)
Theorem read_tds_packet_refines t :
  transport_wf t -> (remaining t <= nt_max t)%nat -> read_packet_post t (read_tds_packet t).
Proof. apply read_tds_packet_spec. Qed.

Lemma read_tds_packet_refines_witness :
  read_packet_post sample_transport (read_tds_packet sample_transport).
Proof.
  apply read_tds_packet_refines; [apply fresh_transport_wf; lia|]. vm_compute. lia.
Defined.

(** C4: the transport implements the packet-reader interface.  Within a message, every scalar
    read, bulk read, skip and slice probe hands out exactly the next bytes of the message, in
    order, across packet and socket-read boundaries. *)
Theorem transport_implements_reader closed rest :
  PacketReaderLaws NetworkTransport (delivering closed rest).
Proof. apply NetworkTransport_laws. Qed.

(** a whole message is read back: [read_bytes] of the payload of a message that arrives on a
    fresh connection in any chunks returns that payload, with the following bytes untouched. *)
Theorem read_whole_message s n ps rest :
  (8 < n)%nat -> message n (stream_data (st_in s)) ps true rest ->
  exists t', Net.read_bytes (length ps) (NetworkTransport_new s n) = (Ok ps, t') /\
    delivers t' [] true rest /\ known_dead t' = false.
Proof. apply fresh_read_bytes. Qed.

Lemma read_whole_message_witness :
  exists t', Net.read_bytes 5 sample_transport = (Ok sample_payload, t') /\
    delivers t' [] true sample_next /\ known_dead t' = false.
Proof. apply (read_whole_message sample_stream 16 sample_payload); [lia|apply sample_message]. Defined.

(** a scalar read of a value that its message cuts short is the end-of-message error, not a
    wait for more packets and not bytes of the next message. *)
Theorem scalar_read_cut_by_message_end {A} n (f : bytes -> A) tr t bs rest :
  try_spec n f tr -> (n <= 8)%nat -> delivers t bs true rest -> (0 < length bs < n)%nat ->
  exists t', read_scalar n tr t = (Err past_end_of_message_error, t') /\ transport_wf t'.
Proof.
  intros Hs Hn Hd Hl. eapply read_loop_truncated; eauto. apply read_fuel_enough, Hd.
Qed.

Lemma scalar_read_cut_by_message_end_witness :
  exists t', Net.read_int64 sample_transport = (Err past_end_of_message_error, t') /\
    transport_wf t'.
Proof.
  apply (scalar_read_cut_by_message_end 8 of_le_signed _ _ sample_payload sample_next);
    [apply try_map_spec|lia|apply sample_delivers|vm_compute; lia].
Defined.

(** likewise a bulk read that asks for more than its message still has. *)
Theorem bulk_read_cut_by_message_end n t bs rest :
  delivers t bs true rest -> (0 < length bs < n)%nat ->
  exists t', Net.read_bytes n t = (Err past_end_of_message_error, t') /\ transport_wf t'.
Proof.
  intros Hd Hl. apply (bulk_loop_truncated _ want_read_ok _ _ _ _ _ bs rest); auto; try lia.
  right. intros ->. cbn in Hl. lia.
Qed.

Lemma bulk_read_cut_by_message_end_witness :
  exists t', Net.read_bytes 6 sample_transport = (Err past_end_of_message_error, t') /\
    transport_wf t'.
Proof.
  apply (bulk_read_cut_by_message_end 6 _ sample_payload sample_next);
    [apply sample_delivers|vm_compute; lia].
Defined.

(** no byte stream, well formed or not, makes a bulk read panic or loop, breaks the buffer
    invariant, or reaches the no-progress guard that the code keeps as a backstop. *)
Theorem read_bytes_safe n t : transport_wf t -> bulk_safe t [] n (Net.read_bytes n t).
Proof. intros. apply (bulk_loop_any _ want_read_ok); auto; lia. Qed.

Definition garbage_transport : NetworkTransport :=
  NetworkTransport_new (chunked [byte_of <$> [4; 0; 0; 3; 7; 7; 7; 7; 7]]) 16.

Lemma read_bytes_safe_witness :
  bulk_safe garbage_transport [] 4 (Net.read_bytes 4 garbage_transport).
Proof. apply read_bytes_safe, fresh_transport_wf. lia. Defined.

(** the non-blocking probe is sound: when it reports a packet, that packet is the one the
    blocking read would frame; when it reports none, no byte was lost or reordered, though some
    may have moved from the socket into the buffer; and it fails only on a malformed stream. *)
Theorem try_read_tds_packet_sound t : transport_wf t -> try_packet_post t (try_read_tds_packet t).
Proof. apply try_read_tds_packet_spec. Qed.

Lemma try_read_tds_packet_sound_witness :
  try_packet_post sample_transport (try_read_tds_packet sample_transport).
Proof. apply try_read_tds_packet_sound, fresh_transport_wf. lia. Defined.

(** scalar and bulk reads do not agree on every input.  Two empty end-of-message packets
    before a value are skipped by a scalar read of one byte, while a bulk read of one byte on
    the same connection fails with the stalled error. *)
Theorem scalar_and_bulk_differ_on_empty_messages :
  let t := NetworkTransport_new
    (chunked [tabular_packet true []; tabular_packet true []; tabular_packet true [byte_of 7]]) 16 in
  fst (Net.read_byte t) = Ok 7 /\ fst (Net.read_bytes 1 t) = Err stalled_on_empty_messages_error.
Proof. vm_compute. done. Qed.
