(* ===== verification/PacketWriter.v ===== *)
(** * The packet writer (src/mssql-tds/src/io/packet_writer.rs)

    [PacketWriter] cuts an outgoing message into packets and sends each as it fills up, under a
    deadline and a cancellation handle; [SuspendedMessage] is the parked form of a message.  The
    writer borrows the transport, so its state includes it. *)

From stdpp Require Import strings.
From S2P Require Import Prelude Core ReadBuffer Transport Unicode.

(** ** [Cursor<Vec<u8>>] *)

Record Cursor := { cur_vec : bytes; cur_pos : nat }.

#[export] Instance Cursor_eta : Eta Cursor := fun c => Build_Cursor (cur_vec c) (cur_pos c).

Definition set_position (n : nat) (c : Cursor) : Cursor := c {{ cur_pos := n }}.

(** [Write::write_all]: fills a gap before the position with zeros, overwrites, extends. *)
Definition write_all (bs : bytes) (c : Cursor) : Cursor :=
  let v := cur_vec c ++ replicate (cur_pos c - length (cur_vec c)) (byte_of 0) in
  {| cur_vec := splice (cur_pos c) bs v;
     cur_pos := (cur_pos c + length bs)%nat |}.

(** ** State *)

Record PacketWriter := {
  packet_type : PacketType;
  network_writer : NetworkTransport;
  max_payload_size : nat;
  packet_id : Z;
  payload_cursor : Cursor;
  packet_size : nat;
  is_first_packet : bool;
  send_incomplete : bool;
  send_attempted : bool;
  message_complete : bool;
  start_time : Instant;
  max_timeout_sec : option Z;
  cancel_handle : option CancelHandle;
  reset_mode : ResetConnectionMode;
  eom_pending : bool;
  code_page_conversion_loss : bool;
}.

#[export] Instance PacketWriter_eta : Eta PacketWriter := fun w =>
  Build_PacketWriter (packet_type w) (network_writer w) (max_payload_size w) (packet_id w)
    (payload_cursor w) (packet_size w) (is_first_packet w) (send_incomplete w)
    (send_attempted w) (message_complete w) (start_time w) (max_timeout_sec w)
    (cancel_handle w) (reset_mode w) (eom_pending w) (code_page_conversion_loss w).

(** Everything but the borrowed writer and [start_time]. *)
Record SuspendedMessage := {
  sm_packet_type : PacketType;
  sm_max_payload_size : nat;
  sm_packet_id : Z;
  sm_payload_cursor : Cursor;
  sm_packet_size : nat;
  sm_is_first_packet : bool;
  sm_send_incomplete : bool;
  sm_send_attempted : bool;
  sm_message_complete : bool;
  sm_max_timeout_sec : option Z;
  sm_cancel_handle : option CancelHandle;
  sm_reset_mode : ResetConnectionMode;
  sm_eom_pending : bool;
  sm_code_page_conversion_loss : bool;
}.

#[export] Instance SuspendedMessage_eta : Eta SuspendedMessage := fun s =>
  Build_SuspendedMessage (sm_packet_type s) (sm_max_payload_size s) (sm_packet_id s)
    (sm_payload_cursor s) (sm_packet_size s) (sm_is_first_packet s) (sm_send_incomplete s)
    (sm_send_attempted s) (sm_message_complete s) (sm_max_timeout_sec s) (sm_cancel_handle s)
    (sm_reset_mode s) (sm_eom_pending s) (sm_code_page_conversion_loss s).

Definition request_cancelled : Error := OperationCancelledError "Request was cancelled".
Definition timeout_expired : Error := TimeoutError "Timeout expired".
Definition settlement_timed_out : Error :=
  OperationCancelledError "Cancellation timed out completing the current packet".

(** ** [SuspendedMessage] *)

Definition check_cancellation (now : Instant) (s : SuspendedMessage) : TdsResult unit :=
  match sm_cancel_handle s with
  | Some h => if has_settlement_budget h now && is_cancelled h now then Err request_cancelled
              else Ok tt
  | None => Ok tt
  end.

Definition cancellation_deadline (now : Instant) (s : SuspendedMessage) : option Instant :=
  h ← sm_cancel_handle s; configured_settlement_deadline h now.

Definition nothing_sent (s : SuspendedMessage) : bool := negb (sm_send_attempted s).

Definition with_write_timeout (n : option Z) (s : SuspendedMessage) : SuspendedMessage :=
  s {{ sm_max_timeout_sec := n }}.

Definition without_cancellation (s : SuspendedMessage) : SuspendedMessage :=
  s {{ sm_cancel_handle := None }}.

(** [abandon]: an unsent message gives its reset request back to the connection. *)
Definition abandon (s : SuspendedMessage) (t : NetworkTransport) : NetworkTransport :=
  if decide (sm_reset_mode s = ResetNone) then t else set_reset_mode (sm_reset_mode s) t.

(** ** Opening, suspending and resuming a message *)

(** [PacketWriter::new] at time [now].  [packet_size - 8] wraps, as it does in a release build; a
    build with overflow checks panics here on a packet size below eight. *)
Definition PacketWriter_new (ty : PacketType) (timeout : option Z)
    (cancel : option CancelHandle) (now : Instant) (t : NetworkTransport) : PacketWriter :=
  let size := nt_packet_size t in
  let '(mode, t) :=
    if carries_reset ty then take_reset_mode t else (ResetNone, t) in
  {| packet_type := ty;
     network_writer := t;
     max_payload_size := as_usize (Z.of_nat size - Z.of_nat PACKET_HEADER_SIZE);
     packet_id := 1;
     payload_cursor := {| cur_vec := []; cur_pos := PACKET_HEADER_SIZE |};
     packet_size := size;
     is_first_packet := true;
     send_incomplete := false;
     send_attempted := false;
     message_complete := false;
     start_time := now;
     max_timeout_sec := match timeout with Some n => if 0 <? n then Some n else None | None => None end;
     cancel_handle := child_handle <$> cancel;
     reset_mode := mode;
     eom_pending := false;
     code_page_conversion_loss := false |}.

Definition note_code_page_conversion_loss (w : PacketWriter) : PacketWriter :=
  w {{ code_page_conversion_loss := true }}.

(** [suspend] keeps everything but the transport, which goes back to its owner. *)
Definition suspend (w : PacketWriter) : SuspendedMessage * NetworkTransport :=
  ({| sm_packet_type := packet_type w;
      sm_max_payload_size := max_payload_size w;
      sm_packet_id := packet_id w;
      sm_payload_cursor := payload_cursor w;
      sm_packet_size := packet_size w;
      sm_is_first_packet := is_first_packet w;
      sm_send_incomplete := send_incomplete w;
      sm_send_attempted := send_attempted w;
      sm_message_complete := message_complete w;
      sm_max_timeout_sec := max_timeout_sec w;
      sm_cancel_handle := cancel_handle w;
      sm_reset_mode := reset_mode w;
      sm_eom_pending := eom_pending w;
      sm_code_page_conversion_loss := code_page_conversion_loss w |}, network_writer w).

Definition resume (s : SuspendedMessage) (now : Instant) (t : NetworkTransport) : PacketWriter :=
  {| packet_type := sm_packet_type s;
     network_writer := t;
     max_payload_size := sm_max_payload_size s;
     packet_id := sm_packet_id s;
     payload_cursor := sm_payload_cursor s;
     packet_size := sm_packet_size s;
     is_first_packet := sm_is_first_packet s;
     send_incomplete := sm_send_incomplete s;
     send_attempted := sm_send_attempted s;
     message_complete := sm_message_complete s;
     start_time := now;
     max_timeout_sec := sm_max_timeout_sec s;
     cancel_handle := sm_cancel_handle s;
     reset_mode := sm_reset_mode s;
     eom_pending := sm_eom_pending s;
     code_page_conversion_loss := sm_code_page_conversion_loss s |}.

(** ** Sending one packet *)

(** [build_header], as the eight bytes it writes. *)
Definition build_header (packet_length : nat) (ty : PacketType) (id : Z)
    (is_last_packet is_ignore_packet : bool) (mode : ResetConnectionMode) : bytes :=
  let status :=
    Z.lor (if is_last_packet then
             if is_ignore_packet
             then Z.lor (PacketStatusFlags_u8 Eom) (PacketStatusFlags_u8 Ignore)
             else PacketStatusFlags_u8 Eom
           else PacketStatusFlags_u8 Normal)
          (ResetConnectionMode_u8 mode) in
  [byte_of (PacketType_u8 ty)] ++ [byte_of status] ++
  be_bytes 2 (as_u16 (Z.of_nat packet_length)) ++ be_bytes 2 0 ++ [byte_of id] ++ [byte_of 0].

(** Runs an operation of the borrowed transport. *)
Definition on_network {A} (m : M NetworkTransport A) : M PacketWriter A :=
  fun w => let '(r, t) := m (network_writer w) in (r, w {{ network_writer := t }}).

(** What the surroundings do to the coming send; a silent environment when nothing is said. *)
Definition next_env : M PacketWriter WriteEnv :=
  fun w =>
    match nt_stream (network_writer w) with
    | Some s =>
        match st_writes s with
        | e :: es =>
            (Ok e, w {{ network_writer ::= fun t => t {{ nt_stream := Some (s {{ st_writes := es }}) }} }})
        | [] => (Ok (quiet_env (start_time w)), w)
        end
    | None => (Ok (quiet_env (start_time w)), w)
    end.

Definition passed (deadline : option Instant) (now : Instant) : bool :=
  match deadline with Some d => d <=? now | None => false end.

(** First poll of [send_data_fut]. *)
Definition start_send (w : PacketWriter) : PacketWriter :=
  w {{ send_attempted := true }} {{ send_incomplete := true }}.

(** The send future, polled to completion or dropped. *)
Definition complete_send (env : WriteEnv) (data : bytes) : M PacketWriter unit :=
  modify start_send ;; on_network (send env data).

Definition drop_send (env : WriteEnv) (data : bytes) : M PacketWriter unit :=
  modify (fun w => (start_send w) {{ network_writer ::= send_dropped env data }}).

(** A send that another arm of the race overtook, possibly before it was polled at all. *)
Definition interrupt_send (env : WriteEnv) (data : bytes) : M PacketWriter unit :=
  if we_polled env then drop_send env data else ret tt.

Definition fires (h : option CancelHandle) : bool :=
  match h with Some h => bool_decide (is_Some (cancelled_at h)) | None => false end.

(** The three ways of awaiting the send.  Returns whether cancellation arrived meanwhile.  An arm
    can win only if it is there: a deadline to elapse, a handle whose token fires.  With a
    settlement budget a cancelled send is still awaited, within the deadlines that decide
    [we_settled]. *)
Definition await_send (env : WriteEnv) (deadline : option Instant) (data : bytes)
    : M PacketWriter bool :=
  handle <- gets cancel_handle ;;
  let budget := match handle with Some h => has_settlement_budget h (we_now env) | None => false end in
  match we_race env with
  | RaceElapsed =>
      if bool_decide (is_Some deadline) then interrupt_send env data ;; throw timeout_expired
      else complete_send env data ;; ret false
  | RaceCancelled =>
      if fires handle then
        if budget then
          if we_settled env then complete_send env data ;; ret true
          else drop_send env data ;; throw settlement_timed_out
        else interrupt_send env data ;; lift (run_until_cancelled handle true (Ok false))
      else complete_send env data ;; ret false
  | RaceSend => complete_send env data ;; ret false
  end.

(** The end of [populate_header_and_send], once the packet is on the wire: the flags first, then
    what can still fail. *)
Definition account_sent (is_last_packet is_ignore_packet : bool) (mode : ResetConnectionMode)
    (deadline : option Instant) (env : WriteEnv) (saved_position : nat) (cancelled : bool)
    : M PacketWriter unit :=
  modify (fun w => w {{ send_incomplete := false }}) ;;
  modify (fun w => w {{ message_complete := is_last_packet && negb is_ignore_packet }}) ;;
  (if bool_decide (mode <> ResetNone) && negb is_ignore_packet
   then modify (fun w => w {{ network_writer ::= note_reset_dispatched }})
   else ret tt) ;;
  if passed deadline (we_now_after env) then throw timeout_expired
  else
  w <- gets id ;;
  (if is_first_packet w then
     on_network (first_packet_callback (packet_type w)) ;;
     modify (fun w => w {{ is_first_packet := false }})
   else ret tt) ;;
  modify (fun w => w {{ packet_id ::= fun i => as_u8 (i + 1) }}) ;;
  modify (fun w => w {{ eom_pending := negb is_last_packet }}) ;;
  modify (fun w => w {{ payload_cursor ::= set_position saved_position }}) ;;
  if cancelled then throw request_cancelled else ret tt.

(** [populate_header_and_send]. *)
Definition populate_header_and_send (is_last_packet is_ignore_packet : bool)
    : M PacketWriter unit :=
  if negb (is_last_packet || negb is_ignore_packet)
  then panic "assertion failed: is_last_packet || !is_ignore_packet"
  else
  w <- gets id ;;
  let saved_position :=
    if is_ignore_packet then PACKET_HEADER_SIZE else cur_pos (payload_cursor w) in
  let packet_length :=
    if decide (packet_size w < saved_position)%nat then packet_size w else saved_position in
  let mode := if is_first_packet w then reset_mode w else ResetNone in
  modify (fun w => w {{ payload_cursor ::= fun c =>
    write_all (build_header packet_length (packet_type w) (packet_id w) is_last_packet
                 is_ignore_packet mode) (set_position 0 c) }}) ;;
  w <- gets id ;;
  data_slice <- lift (index_range 0 packet_length (cur_vec (payload_cursor w))) ;;
  env <- next_env ;;
  if match cancel_handle w with Some h => is_cancelled h (we_now env) | None => false end
  then throw request_cancelled
  else
  let deadline := (fun n => start_time w + secs n) <$> max_timeout_sec w in
  if passed deadline (we_now env) then throw timeout_expired
  else
  cancelled <- await_send env deadline data_slice ;;
  account_sent is_last_packet is_ignore_packet mode deadline env saved_position cancelled.

(** ** Positions and overflow *)

(** [position], an [i32]. *)
Definition position (w : PacketWriter) : Z :=
  as_i32 (Z.of_nat (cur_pos (payload_cursor w)) - Z.of_nat PACKET_HEADER_SIZE).

(** [self.max_payload_size - self.position() as usize], a checked subtraction. *)
Definition packet_space_left : M PacketWriter nat :=
  w <- gets id ;;
  let p := as_usize (position w) in
  if decide (max_payload_size w < p)%nat then panic "attempt to subtract with overflow"
  else ret (max_payload_size w - p)%nat.

Definition has_space (bytes_count : nat) (w : PacketWriter) : bool :=
  bool_decide (as_usize (position w) + bytes_count <= max_payload_size w)%nat.

(** Appends at the cursor; writing to a [Vec] cannot fail. *)
Definition put (bs : bytes) : M PacketWriter unit :=
  modify (fun w => w {{ payload_cursor ::= write_all bs }}).

Definition handle_overflow_if_needed : M PacketWriter unit :=
  w <- gets id ;;
  if Z.of_nat (max_payload_size w) <=? position w then
    populate_header_and_send false false ;;
    w <- gets id ;;
    let current_position := cur_pos (payload_cursor w) in
    if decide (current_position < packet_size w)%nat
    then panic "attempt to subtract with overflow"
    else
      let overflow_length := (current_position - packet_size w)%nat in
      buf <- lift (copy_within (packet_size w) (packet_size w + overflow_length)
                     PACKET_HEADER_SIZE (cur_vec (payload_cursor w))) ;;
      modify (fun w => w {{ payload_cursor :=
        {| cur_vec := buf; cur_pos := (PACKET_HEADER_SIZE + overflow_length)%nat |} }})
  else ret tt.

Definition check_overflow : M PacketWriter unit := handle_overflow_if_needed.

(** [cancel_current_message]: an empty EOM | IGNORE packet that carries no reset. *)
Definition cancel_current_message : M PacketWriter unit :=
  modify (fun w => w {{ reset_mode := ResetNone }}) ;;
  populate_header_and_send true true.

Definition finalize : M PacketWriter unit :=
  w <- gets id ;;
  if bool_decide (PACKET_HEADER_SIZE < cur_pos (payload_cursor w))%nat || eom_pending w then
    populate_header_and_send true false ;;
    modify (fun w => w {{ payload_cursor ::= set_position PACKET_HEADER_SIZE }})
  else ret tt.

(** ** Writing values *)

Definition write_checked (bs : bytes) : M PacketWriter unit := put bs ;; handle_overflow_if_needed.

Definition write_byte_async (v : Z) := write_checked [byte_of v].
Definition write_i16_async (v : Z) := write_checked (le_bytes 2 v).
Definition write_u16_async (v : Z) := write_checked (le_bytes 2 v).
Definition write_i32_async (v : Z) := write_checked (le_bytes 4 v).
Definition write_u32_async (v : Z) := write_checked (le_bytes 4 v).
Definition write_i64_async (v : Z) := write_checked (le_bytes 8 v).
Definition write_u64_async (v : Z) := write_checked (le_bytes 8 v).
Definition write_i16_be_async (v : Z) := write_checked (be_bytes 2 v).
Definition write_i32_be_async (v : Z) := write_checked (be_bytes 4 v).

(** The [TdsPacketWriterUnchecked] writes; an [f64] is its bits. *)
Definition write_byte_unchecked (v : Z) := put [byte_of v].
Definition write_i32_unchecked (v : Z) := put (le_bytes 4 v).
Definition write_u16_unchecked (v : Z) := put (le_bytes 2 v).
Definition write_i16_unchecked (v : Z) := put (le_bytes 2 v).
Definition write_i64_unchecked (v : Z) := put (le_bytes 8 v).
Definition write_f64_unchecked (v : Z) := put (le_bytes 8 v).

Definition write_bytes_within_packet (bs : bytes) : M PacketWriter unit :=
  w <- gets id ;;
  if has_space (length bs + 1) w then put bs
  else panic "assertion failed: self.has_space(bytes.len() + 1)".

Fixpoint write_each (bs : bytes) : M PacketWriter unit :=
  match bs with
  | [] => ret tt
  | b :: bs => write_byte_async (byte_val b) ;; write_each bs
  end.

Definition write_fixed_bytes (bs : bytes) : M PacketWriter unit :=
  w <- gets id ;;
  if has_space (length bs + 1) w then put bs else write_each bs.

(** The [while !remaining.is_empty()] loop; a turn that fills no bytes is followed by one on
    an empty packet, so two more turns than bytes are enough. *)
Fixpoint write_loop (fuel : nat) (remaining : bytes) : M PacketWriter unit :=
  match fuel with
  | O => out_of_fuel
  | S fuel =>
      if decide (remaining = []) then ret tt
      else
        space <- packet_space_left ;;
        if decide (space < length remaining)%nat then
          put (take space remaining) ;;
          populate_header_and_send false false ;;
          modify (fun w => w {{ payload_cursor ::= set_position PACKET_HEADER_SIZE }}) ;;
          write_loop fuel (drop space remaining)
        else put remaining
  end.

Definition write_async (content : bytes) : M PacketWriter unit :=
  write_loop (2 + length content) content.

Definition write_i32_at_index (index : nat) (v : Z) : M PacketWriter unit :=
  modify (fun w => w {{ payload_cursor ::= fun c =>
    set_position (cur_pos c)
      (write_all (le_bytes 4 v) (set_position (PACKET_HEADER_SIZE + index) c)) }}).

(** ** [Utf16Units], the resumable encoder *)

Record Utf16Units := { rest : str; pending_low : option Z }.

Definition Utf16Units_new (value : str) : Utf16Units := {| rest := value; pending_low := None |}.

Definition STAGE_UNITS : nat := 256.
Definition ASCII_BLOCK : nat := 16.

Definition is_ascii (b : byte) : bool := byte_val b <? 0x80.

Definition next_unit (u : Utf16Units) : option Z * Utf16Units :=
  match pending_low u with
  | Some low => (Some low, {| rest := rest u; pending_low := None |})
  | None =>
      match rest u with
      | [] => (None, u)
      | ch :: rest' =>
          let units := encode_utf16 ch in
          (units !! 0%nat, {| rest := rest'; pending_low := units !! 1%nat |})
      end
  end.

(** [while let Some(block) = bytes.get(len..len + 16)] *)
Fixpoint ascii_blocks (fuel len : nat) (bs : bytes) : nat :=
  match fuel with
  | O => len
  | S fuel =>
      if decide (len + ASCII_BLOCK <= length bs)%nat then
        if forallb is_ascii (slice len (len + ASCII_BLOCK) bs)
        then ascii_blocks fuel (len + ASCII_BLOCK) bs
        else len
      else len
  end.

Fixpoint ascii_run (bs : bytes) : nat :=
  match bs with
  | b :: bs => if is_ascii b then S (ascii_run bs) else 0
  | [] => 0
  end.

Definition ascii_prefix_len (bs : bytes) : nat :=
  let len := ascii_blocks (length bs) 0 bs in
  (len + ascii_run (drop len bs))%nat.

(** The body of [stage_le]'s loop: widens an ASCII run, then encodes one more character. *)
Fixpoint stage_loop (fuel capacity : nat) (dst : list Z) (u : Utf16Units)
    : TdsResult (list Z * Utf16Units) :=
  match fuel with
  | O => OutOfFuel
  | S fuel =>
      if decide (capacity <= length dst)%nat then Ok (dst, u)
      else
        let bs := as_bytes (rest u) in
        let ascii := ascii_prefix_len (take (Nat.min (length bs) (capacity - length dst)) bs) in
        let dst := dst ++ (byte_val <$> take ascii bs) in
        let? rest1 := str_from ascii (rest u) in
        let u := {| rest := rest1; pending_low := pending_low u |} in
        if decide (length dst = capacity) then Ok (dst, u)
        else
          match rest1 with
          | [] => Ok (dst, u)
          | ch :: rest2 =>
              match encode_utf16 ch with
              | [unit] =>
                  stage_loop fuel capacity (dst ++ [unit])
                    {| rest := rest2; pending_low := pending_low u |}
              | unit :: low :: _ =>
                  let dst := dst ++ [unit] in
                  if decide (length dst < capacity)%nat then
                    stage_loop fuel capacity (dst ++ [low])
                      {| rest := rest2; pending_low := pending_low u |}
                  else stage_loop fuel capacity dst {| rest := rest2; pending_low := Some low |}
              | [] => Panic "index out of bounds"
              end
          end
  end.

(** [stage_le]: up to [capacity] units, staged little-endian by the caller's buffer; each turn of
    the loop stages one unit or stops. *)
Definition stage_le (capacity : nat) (u : Utf16Units) : TdsResult (list Z * Utf16Units) :=
  match pending_low u with
  | Some low =>
      if decide (0 < capacity)%nat
      then stage_loop (S capacity) capacity [low] {| rest := rest u; pending_low := None |}
      else stage_loop (S capacity) capacity [] u
  | None => stage_loop (S capacity) capacity [] u
  end.

Fixpoint write_le_loop (fuel max_units written : nat) (u : Utf16Units)
    : M PacketWriter (nat * Utf16Units) :=
  match fuel with
  | O => out_of_fuel
  | S fuel =>
      if decide (written < max_units)%nat then
        let room := Nat.min (max_units - written) STAGE_UNITS in
        '(staged, u) <- lift (stage_le room u) ;;
        if decide (length staged = 0%nat) then ret (written, u)
        else
          put (units_le staged) ;;
          let written := (written + length staged)%nat in
          if decide (length staged < room)%nat then ret (written, u)
          else write_le_loop fuel max_units written u
      else ret (written, u)
  end.

Definition write_le (max_units : nat) (u : Utf16Units) : M PacketWriter (nat * Utf16Units) :=
  write_le_loop (S max_units) max_units 0 u.

(** [write_string_unicode_async]: every turn writes a unit, flushes a full packet or stops. *)
Fixpoint write_string_loop (fuel : nat) (units : Utf16Units) : M PacketWriter unit :=
  match fuel with
  | O => out_of_fuel
  | S fuel =>
      space <- packet_space_left ;;
      let u16_units_available := (space / 2)%nat in
      if decide (u16_units_available = 0%nat) then
        if decide (space = 1%nat) then
          match next_unit units with
          | (Some unit, units) =>
              match le_bytes 2 unit with
              | [low; high] =>
                  write_byte_async (byte_val low) ;;
                  write_byte_async (byte_val high) ;;
                  write_string_loop fuel units
              | _ => panic "unreachable"
              end
          | (None, _) => ret tt
          end
        else
          populate_header_and_send false false ;;
          modify (fun w => w {{ payload_cursor ::= set_position PACKET_HEADER_SIZE }}) ;;
          write_string_loop fuel units
      else
        '(units_written, units) <- write_le u16_units_available units ;;
        (if decide (0 < units_written)%nat then check_overflow else ret tt) ;;
        if decide (units_written < u16_units_available)%nat then ret tt
        else write_string_loop fuel units
  end.

Definition write_string_unicode_async (value : str) : M PacketWriter unit :=
  write_string_loop (3 + 2 * length (utf16 value)) (Utf16Units_new value).
