(* ===== verification/Writer.v ===== *)
(** * The writer puts a message on the wire as whole packets

    [emits m bs]: the operation [m] appends exactly [bs] to the message being written.  It holds in
    every environment: an operation succeeds and the message grew by [bs], or it failed, and
    then the wire holds whole packets of the message plus, only if [send_incomplete] says so, part
    of one more.  In a calm environment it succeeds. *)

From stdpp Require Import strings.
From S2P Require Import Prelude Core ReadBuffer Transport Unicode PacketWriter.

(** ** The cursor *)

(** The bytes written behind the header so far. *)
Definition payload (c : Cursor) : bytes := slice PACKET_HEADER_SIZE (cur_pos c) (cur_vec c).

Record cursor_ok (c : Cursor) : Prop := {
  co_low : (8 <= cur_pos c)%nat;
  co_high : (cur_pos c <= length (cur_vec c))%nat \/ cur_pos c = 8%nat;
}.

Lemma length_payload c : cursor_ok c -> (length (payload c) = cur_pos c - 8)%nat.
Proof.
  intros [? [?|E]]; unfold payload, PACKET_HEADER_SIZE.
  - rewrite length_slice; lia.
  - rewrite E, slice_nil by lia. done.
Qed.

Lemma write_all_vec bs c : (cur_pos c + length bs <= length (cur_vec (write_all bs c)))%nat.
Proof. cbn. unfold splice. solve_len. Qed.

Lemma write_all_ok bs c : cursor_ok c ->
  cursor_ok (write_all bs c) /\ payload (write_all bs c) = payload c ++ bs.
Proof.
  intros [Hlo Hhi]. pose proof (write_all_vec bs c) as Hv.
  split; [split; [cbn; lia|left; apply Hv]|].
  unfold payload, PACKET_HEADER_SIZE. rewrite (slice_app_adjacent _ 8 (cur_pos c)) by (cbn in *; lia).
  cbn. rewrite slice_splice_same, slice_splice_before by solve_len. f_equal.
  destruct Hhi as [?|E]; [by rewrite slice_app_l|by rewrite E, !slice_nil by lia].
Qed.

(** Writing the header in front of the payload. *)
Lemma write_header_ok hdr c n : cursor_ok c -> length hdr = 8%nat -> (8 <= n <= cur_pos c)%nat ->
  let v := cur_vec (write_all hdr (set_position 0 c)) in
  take n v = hdr ++ slice 8 n (cur_vec c) /\ (n <= length v)%nat /\
  cursor_ok {| cur_vec := v; cur_pos := cur_pos c |} /\
  payload {| cur_vec := v; cur_pos := cur_pos c |} = payload c.
Proof.
  intros [Hlo Hhi] Hh Hn. cbn. rewrite app_nil_r. unfold splice. rewrite take_0, Hh. cbn [app Nat.add].
  assert (Hl : (n <= length (hdr ++ drop 8 (cur_vec c)))%nat) by solve_len.
  assert (Hs : forall k, slice 8 k (hdr ++ drop 8 (cur_vec c)) = slice 8 k (cur_vec c)).
  { intros k. unfold slice. by rewrite drop_app_length' by done. }
  split_and!; [|done| |].
  - by rewrite firstn_app, Hh, firstn_all2 by lia.
  - split; [done|]. cbn. solve_len.
  - apply Hs.
Qed.

(** ** Messages as sequences of packets *)

(** What is fixed about a message: its type, packet size, reset request, and what the wire
    already held. *)
Record Message := {
  m_type : PacketType;
  m_size : nat;
  m_reset : ResetConnectionMode;
  m_base : bytes;
}.

Definition m_room (m : Message) : nat := (m_size m - 8)%nat.

(** Sizes for which the header's 16-bit length is exact and a scalar fits in a packet. *)
Definition size_ok (m : Message) : Prop := (16 <= m_size m)%nat /\ Z.of_nat (m_size m) <= 65535.

(** The [i]-th packet: ids count from one and wrap, the reset bit is on the first only. *)
Definition packet (m : Message) (i : nat) (last : bool) (p : bytes) : bytes :=
  build_header (8 + length p) (m_type m) (as_u8 (Z.of_nat i + 1)) last false
    (match i with O => m_reset m | _ => ResetNone end) ++ p.

#[global] Arguments packet : simpl never.

(** Non-final packets, in order. *)
Definition flushed (m : Message) (chunks : list bytes) : bytes :=
  concat (imap (fun i p => packet m i false p) chunks).

Lemma flushed_snoc m chunks p :
  flushed m (chunks ++ [p]) = flushed m chunks ++ packet m (length chunks) false p.
Proof.
  unfold flushed. rewrite imap_app, concat_app. cbn. by rewrite app_nil_r, Nat.add_0_r.
Qed.

Definition full (m : Message) (p : bytes) : Prop := length p = m_room m.

(** ** The writer within a message *)

(** The bytes the socket has accepted, while there is a connection. *)
Definition out (w : PacketWriter) : option bytes := st_out <$> nt_stream (network_writer w).

Definition deadline (w : PacketWriter) : option Instant :=
  (fun n => start_time w + secs n) <$> max_timeout_sec w.

(** A send that is neither cancelled, late nor failing. *)
Definition benign (w : PacketWriter) (e : WriteEnv) : Prop :=
  we_race e = RaceSend /\ we_error e = None /\
  match cancel_handle w with Some h => is_cancelled h (we_now e) | None => false end = false /\
  passed (deadline w) (we_now e) = false /\ passed (deadline w) (we_now_after e) = false.

(** The first-packet hook of a login can find the plain stream it returns to. *)
Definition callback_ok (w : PacketWriter) : Prop :=
  is_first_packet w = true -> packet_type w = Login7 ->
  get_encryption_setting (network_writer w) = LoginOnly ->
  extractable_stream_handle (network_writer w) = true.

Definition calm (w : PacketWriter) : Prop :=
  callback_ok w /\ benign w (quiet_env (start_time w)) /\
  match nt_stream (network_writer w) with
  | Some s => Forall (benign w) (st_writes s)
  | None => True
  end.

(** [chunks] were sent and [buf] is buffered. *)
Record writer_at (m : Message) (chunks : list bytes) (buf : bytes) (w : PacketWriter) : Prop := {
  at_type : packet_type w = m_type m;
  at_size : packet_size w = m_size m;
  at_room : max_payload_size w = m_room m;
  at_reset : reset_mode w = m_reset m;
  at_cursor : cursor_ok (payload_cursor w);
  at_payload : payload (payload_cursor w) = buf;
  at_buf : (length buf <= m_size m)%nat;
  at_full : Forall (full m) chunks;
  at_out : out w = Some (m_base m ++ flushed m chunks);
  at_id : packet_id w = as_u8 (Z.of_nat (length chunks) + 1);
  at_first : is_first_packet w = bool_decide (chunks = []);
  at_eom : eom_pending w = negb (bool_decide (chunks = []));
  at_attempted : send_attempted w = negb (bool_decide (chunks = []));
  at_whole : send_incomplete w = false;
  at_open : message_complete w = false;
}.

(** [content] was written so far and the buffered part fits in a packet. *)
Definition writing (m : Message) (content : bytes) (w : PacketWriter) : Prop :=
  exists chunks buf, writer_at m chunks buf w /\ (length buf <= m_room m)%nat /\
    content = concat chunks ++ buf.

(** After any outcome: whole packets of the message, the last of them possibly final, and part of
    another only if [send_incomplete] says so. *)
Definition interrupted (m : Message) (w : PacketWriter) : Prop :=
  match out w with
  | None => True
  | Some o => exists chunks fin partial,
      o = m_base m ++ flushed m chunks
            ++ from_option (packet m (length chunks) true) [] fin ++ partial /\
      Forall (full m) chunks /\
      (send_incomplete w = false -> partial = []) /\
      (send_attempted w = false -> chunks = [] /\ fin = None /\ partial = []) /\
      message_complete w = bool_decide (is_Some fin)
  end.

(** [m] appends [bs] and returns [a]. *)
Definition emits {A} (op : M PacketWriter A) (bs : bytes) (a : A) : Prop :=
  forall m content w, size_ok m -> writing m content w ->
    match op w with
    | (Ok a', w') => a' = a /\ writing m (content ++ bs) w' /\ (calm w -> calm w')
    | (Err e, w') => interrupted m w' /\ ~ calm w
    | _ => False
    end.

(** ** Sending a packet *)

(** [w] after a polled send, with [o] accepted so far. *)
Definition polled (w : PacketWriter) (s : Stream) (o : bytes) (dead : bool) : PacketWriter :=
  (start_send w) {{ network_writer ::= fun t =>
    t {{ nt_stream := Some (s {{ st_out := o }}) }} {{ known_dead := dead }} }}.

Lemma drop_send_eq env data w s :
  nt_stream (network_writer w) = Some s ->
  drop_send env data w =
    (Ok tt, polled w s (st_out s ++ take (we_partial env) data) (known_dead (network_writer w))).
Proof.
  intros Es. unfold drop_send, modify, send_dropped, polled. destruct w as [? [] ]. cbn in *.
  by subst.
Qed.

Lemma complete_send_eq env data w s :
  nt_stream (network_writer w) = Some s ->
  complete_send env data w =
    match we_error env with
    | None => (Ok tt, polled w s (st_out s ++ data) (known_dead (network_writer w)))
    | Some e => (Err e, polled w s (st_out s ++ take (we_partial env) data) true)
    end.
Proof.
  intros Es. unfold complete_send, bind, modify, on_network, send, polled.
  destruct w as [? [] ]. cbn in *. subst. cbn. by destruct (we_error env).
Qed.

(** What awaiting the send leaves behind. *)
Lemma await_send_spec env dl data w s :
  nt_stream (network_writer w) = Some s ->
  match await_send env dl data w with
  | (Ok c, w') => w' = polled w s (st_out s ++ data) (known_dead (network_writer w)) /\
      (c = true -> we_race env <> RaceSend)
  | (Err e, w') => (we_race env <> RaceSend \/ we_error env <> None) /\
      (w' = w \/ exists n dead, w' = polled w s (st_out s ++ take n data) dead)
  | _ => False
  end.
Proof.
  intros Es. unfold await_send, interrupt_send, throw, ret, lift. unfold bind at 1, gets.
  assert (Hc : forall c, (c = true -> we_race env <> RaceSend) ->
    match bind (complete_send env data) (fun _ w => (Ok c, w)) w with
    | (Ok c, w') => w' = polled w s (st_out s ++ data) (known_dead (network_writer w)) /\
        (c = true -> we_race env <> RaceSend)
    | (Err e, w') => (we_race env <> RaceSend \/ we_error env <> None) /\
        (w' = w \/ exists n dead, w' = polled w s (st_out s ++ take n data) dead)
    | _ => False
    end).
  { intros c Hc. unfold bind. rewrite (complete_send_eq _ _ _ _ Es).
    destruct (we_error env) eqn:E; [|done]. split; [by right|right; eauto]. }
  destruct (we_race env) eqn:Er; [by apply Hc| |].
  - destruct (fires _) eqn:Ef; [|by apply Hc].
    destruct (match cancel_handle w with Some _ => _ | None => _ end); [destruct (we_settled env)|].
    + by apply Hc.
    + unfold bind. rewrite (drop_send_eq _ _ _ _ Es). split; [by left|right; eauto].
    + destruct (cancel_handle w); [|done]. unfold bind. destruct (we_polled env).
      * rewrite (drop_send_eq _ _ _ _ Es). split; [by left|right; eauto].
      * split; [by left|by left].
  - destruct (bool_decide _); [|by apply Hc]. unfold bind. destruct (we_polled env).
    + rewrite (drop_send_eq _ _ _ _ Es). split; [by left|right; eauto].
    + split; by left.
Qed.

Lemma next_env_spec w s :
  nt_stream (network_writer w) = Some s ->
  exists env s', st_out s' = st_out s /\
    next_env w = (Ok env, w {{ network_writer ::= fun t => t {{ nt_stream := Some s' }} }}) /\
    (calm w -> benign w env /\ Forall (benign w) (st_writes s')).
Proof.
  intros Es. unfold next_env, calm. rewrite Es. destruct (st_writes s) as [|e es] eqn:Ew.
  - exists (quiet_env (start_time w)), s. split_and!; [done| |].
    + destruct w as [? [] ]. cbn in *. by subst.
    + rewrite Ew. by intros (_ & ? & _).
  - exists e, (s {{ st_writes := es }}). split_and!; [done..|].
    intros (_ & _ & H). by inversion H.
Qed.

(** The state right after packet [p] went out, before the cursor is moved on. *)
Record sent (m : Message) (chunks : list bytes) (buf p : bytes) (last : bool)
    (w' : PacketWriter) : Prop := {
  se_type : packet_type w' = m_type m;
  se_size : packet_size w' = m_size m;
  se_room : max_payload_size w' = m_room m;
  se_reset : reset_mode w' = m_reset m;
  se_cursor : cursor_ok (payload_cursor w');
  se_payload : payload (payload_cursor w') = buf;
  se_out : out w' = Some (m_base m ++ flushed m chunks ++ packet m (length chunks) last p);
  se_id : packet_id w' = as_u8 (Z.of_nat (length chunks) + 2);
  se_first : is_first_packet w' = false;
  se_eom : eom_pending w' = negb last;
  se_attempted : send_attempted w' = true;
  se_whole : send_incomplete w' = false;
  se_complete : message_complete w' = last;
}.

(** The part of [populate_header_and_send] after a completed send. *)
Lemma callback_spec ty w s :
  nt_stream (network_writer w) = Some s ->
  match on_network (first_packet_callback ty) w with
  | (Ok _, w') => exists h, w' = w {{ network_writer ::= fun t => t {{ extractable_stream_handle := h }} }}
  | (Err e, w') => (ty = Login7 /\ get_encryption_setting (network_writer w) = LoginOnly /\
      extractable_stream_handle (network_writer w) = false) /\
      w' = w {{ network_writer ::= fun t => t {{ nt_stream := None }} }}
  | _ => False
  end.
Proof.
  intros Es. unfold on_network, first_packet_callback.
  assert (Hsame : exists h, w {{ network_writer := network_writer w }} =
    w {{ network_writer ::= fun t => t {{ extractable_stream_handle := h }} }}).
  { exists (extractable_stream_handle (network_writer w)). by destruct w as [? [] ]. }
  destruct ty; try done. unfold bind, gets. case_decide as Hl; [|done].
  unfold disable_ssl. rewrite Es. destruct (extractable_stream_handle (network_writer w)) eqn:Ex.
  - by exists false.
  - done.
Qed.

(** A packet was handed to the socket in full; the accounting is still to come. *)
Record dispatched (m : Message) (chunks : list bytes) (buf p : bytes) (last : bool) (pos : nat)
    (w : PacketWriter) : Prop := {
  di_type : packet_type w = m_type m;
  di_size : packet_size w = m_size m;
  di_room : max_payload_size w = m_room m;
  di_reset : reset_mode w = m_reset m;
  di_cursor : cursor_ok (set_position pos (payload_cursor w));
  di_payload : payload (set_position pos (payload_cursor w)) = buf;
  di_out : out w = Some (m_base m ++ flushed m chunks ++ packet m (length chunks) last p);
  di_id : packet_id w = as_u8 (Z.of_nat (length chunks) + 1);
  di_first : is_first_packet w = bool_decide (chunks = []);
  di_attempted : send_attempted w = true;
  di_full : Forall (full m) chunks;
  di_chunk : last = false -> full m p;
}.

(** Whole packets on the wire, as [interrupted] wants them. *)
Lemma whole_packets m chunks last p w :
  out w = Some (m_base m ++ flushed m chunks ++ packet m (length chunks) last p) ->
  Forall (full m) chunks -> (last = false -> full m p) ->
  send_attempted w = true -> message_complete w = last -> interrupted m w.
Proof.
  intros Ho Hf Hp Ha Hc. unfold interrupted. rewrite Ho. destruct last.
  - exists chunks, (Some p), []. rewrite app_nil_r. split_and!; try done; intros; congruence.
  - exists (chunks ++ [p]), None, []. rewrite flushed_snoc, !app_nil_r.
    split_and!; try done; try (intros; congruence). apply Forall_app. auto.
Qed.


Lemma as_u8_succ n : as_u8 (as_u8 (n + 1) + 1) = as_u8 (n + 2).
Proof. unfold as_u8. rewrite Zplus_mod_idemp_l. f_equal. lia. Qed.

Lemma finish_sent m chunks buf p last pos env (c : bool) w w' :
  dispatched m chunks buf p last pos w ->
  packet_type w' = packet_type w -> packet_size w' = packet_size w ->
  max_payload_size w' = max_payload_size w -> reset_mode w' = reset_mode w ->
  payload_cursor w' = payload_cursor w -> packet_id w' = packet_id w ->
  send_attempted w' = send_attempted w -> nt_stream (network_writer w') = nt_stream (network_writer w) ->
  cancel_handle w' = cancel_handle w -> start_time w' = start_time w ->
  max_timeout_sec w' = max_timeout_sec w ->
  is_first_packet w' = false -> send_incomplete w' = false -> message_complete w' = last ->
  match (if c then throw request_cancelled else ret tt)
      (w' {{ packet_id ::= fun i => as_u8 (i + 1) }} {{ eom_pending := negb last }}
          {{ payload_cursor ::= set_position pos }}) with
  | (Ok _, w'') => sent m chunks buf p last w'' /\ (calm w -> calm w'')
  | (Err e, w'') => interrupted m w'' /\ ~ (calm w /\ benign w env /\ c = false)
  | _ => False
  end.
Proof.
  intros [] Et Ez Er Em Ec Ei Ea Es Eh Est Eto Ef Einc Emc. destruct c; cbn.
  - split; [|by intros (_ & _ & ?)].
    apply (whole_packets m chunks last p); [|done|done|cbn; congruence|done].
    unfold out in *. cbn. by rewrite Es.
  - split.
    + constructor; unfold out in *; cbn; rewrite ?Ec, ?Es, ?Ei, ?di_id0; try congruence.
      apply as_u8_succ.
    + unfold calm, benign, callback_ok, deadline. cbn. rewrite Eh, Est, Eto, Es.
      intros (_ & ? & ?). split; [congruence|done].
Qed.

Lemma account_sent_spec m chunks buf p last pos mode env c w :
  dispatched m chunks buf p last pos w ->
  match account_sent last false mode (deadline w) env pos c w with
  | (Ok _, w') => sent m chunks buf p last w' /\ (calm w -> calm w')
  | (Err e, w') => interrupted m w' /\ ~ (calm w /\ benign w env /\ c = false)
  | _ => False
  end.
Proof.
  intros Hd. unfold account_sent, bind at 1 2 3 4, modify at 1 2 3, gets, ret at 1, throw at 1.
  set (w0 := w {{ send_incomplete := false }} {{ message_complete := last && negb false }}).
  set (note := if bool_decide (mode <> ResetNone) && negb false then _ else _).
  assert (Hn : exists d, note w0 =
    (Ok tt, w0 {{ network_writer ::= fun t => t {{ reset_dispatched := d }} }})).
  { unfold note. destruct (bool_decide _); [by exists true|].
    exists (reset_dispatched (network_writer w)). unfold w0. by destruct w as [? [] ]. }
  destruct Hn as (d & ->).
  set (w1 := w0 {{ network_writer ::= fun t => t {{ reset_dispatched := d }} }}).
  assert (Hint : forall w', out w' = out w -> send_attempted w' = true ->
    message_complete w' = last && negb false -> interrupted m w').
  { intros w' Ho Ha Hc. cbn in Hc. rewrite andb_true_r in Hc. destruct Hd. rewrite di_out0 in Ho. by eapply whole_packets. }
  destruct (passed (deadline w) (we_now_after env)) eqn:Ep.
  { split; [by apply Hint; [|apply Hd|]|]. intros (_ & (_ & _ & _ & _ & ?) & _). congruence. }
  destruct (nt_stream (network_writer w)) as [s|] eqn:Es;
    [|by destruct Hd; unfold out in *; rewrite Es in *].
  unfold id. destruct (is_first_packet w1) eqn:Ef.
  - pose proof (callback_spec (packet_type w1) w1 s Es) as Hcb. unfold bind.
    destruct (on_network _ w1) as [[| | |] w2]; try done.
    + destruct Hcb as (h & ->). apply (finish_sent m chunks buf p last pos env c w _ Hd); try done. by destruct last.
    + destruct Hcb as ((? & ? & Hx) & ->). split; [done|]. intros [[Hc _] _].
      change (extractable_stream_handle (network_writer w) = false) in Hx.
      by rewrite Hc in Hx.
  - unfold bind, ret at 1. apply (finish_sent m chunks buf p last pos env c w _ Hd); try done. by destruct last.
Qed.

Lemma length_build_header n ty id last ign mode :
  length (build_header n ty id last ign mode) = 8%nat.
Proof. unfold build_header. by len_simpl. Qed.

(** The writer after its header was put in front of the payload. *)
Lemma header_in_place m chunks buf last w :
  writer_at m chunks buf w ->
  let p := take (m_room m) buf in
  let c := write_all (build_header (8 + length p) (m_type m) (as_u8 (Z.of_nat (length chunks) + 1))
             last false (match length chunks with O => m_reset m | _ => ResetNone end))
             (set_position 0 (payload_cursor w)) in
  index_range 0 (8 + length p) (cur_vec c) = Ok (packet m (length chunks) last p) /\
  cursor_ok (set_position (cur_pos (payload_cursor w)) c) /\
  payload (set_position (cur_pos (payload_cursor w)) c) = buf.
Proof.
  intros [] p c. pose proof (length_payload _ at_cursor0) as Hl. rewrite at_payload0 in Hl.
  destruct at_cursor0 as [Hlo Hhi] eqn:Ec. clear Ec.
  destruct (write_header_ok (build_header (8 + length p) (m_type m)
    (as_u8 (Z.of_nat (length chunks) + 1)) last false
    (match length chunks with O => m_reset m | _ => ResetNone end)) (payload_cursor w)
    (8 + length p)) as (Ht & Hn & Hc & Hp); [done|apply length_build_header| |].
  { unfold p. rewrite length_take. lia. }
  split_and!; [|exact Hc|etrans; [exact Hp|done] ].
  unfold index_range. rewrite decide_True by (split; [lia|exact Hn]). f_equal.
  unfold slice. rewrite drop_0, Nat.sub_0_r. etrans; [exact Ht|]. unfold packet. f_equal.
  unfold p. rewrite <- at_payload0 at 2. unfold payload, PACKET_HEADER_SIZE, slice.
  rewrite take_take. f_equal. rewrite length_take. lia.
Qed.

(** The prefix of a packet on the wire while [send_incomplete] is set. *)
Lemma part_of_packet m chunks buf w w' n data :
  writer_at m chunks buf w -> message_complete w' = false ->
  (out w' = out w /\ send_attempted w' = send_attempted w \/
   out w' = Some (m_base m ++ flushed m chunks ++ take n data) /\
   send_attempted w' = true /\ send_incomplete w' = true) ->
  interrupted m w'.
Proof.
  intros [] Hm [[Ho Ha]|(Ho & Ha & Hi)]; unfold interrupted; rewrite Ho, ?at_out0.
  - exists chunks, None, []. rewrite !app_nil_r. split_and!; try done.
    rewrite Ha, at_attempted0. intros ?%negb_false_iff%bool_decide_eq_true. by split_and!.
  - exists chunks, None, (take n data). split_and!; try done; congruence.
Qed.

(** From the header in place to the end of [populate_header_and_send]: [w2] is [w] with the
    header written and the environment of this send taken off the stream. *)
Lemma send_spec m chunks buf last w w2 s' mode env c :
  let p := take (m_room m) buf in
  let data := packet m (length chunks) last p in
  let pos := cur_pos (payload_cursor w) in
  writer_at m chunks buf w -> (last = false -> (m_room m <= length buf)%nat) ->
  w2 = w {{ payload_cursor := c }} {{ network_writer ::= fun t => t {{ nt_stream := Some s' }} }} ->
  out w = Some (st_out s') -> (calm w -> benign w env /\ Forall (benign w) (st_writes s')) ->
  cursor_ok (set_position pos c) -> payload (set_position pos c) = buf ->
  match (if match cancel_handle w2 with Some h => is_cancelled h (we_now env) | None => false end
         then throw request_cancelled
         else if passed (deadline w2) (we_now env) then throw timeout_expired
         else cancelled <- await_send env (deadline w2) data ;;
              account_sent last false mode (deadline w2) env pos cancelled) w2 with
  | (Ok _, w') => sent m chunks buf p last w' /\ (calm w -> calm w')
  | (Err e, w') => interrupted m w' /\ ~ calm w
  | _ => False
  end.
Proof.
  intros p data pos Hw Hlast -> Hout Hcalm Hc Hp. set (w2 := w {{ payload_cursor := c }} {{ network_writer ::= _ }}).
  assert (Hcalm2 : calm w -> benign w2 env /\ calm w2).
  { intros H. destruct (Hcalm H) as [Hb Hf]. destruct H as (H1 & H2 & _). by split_and!. }
  assert (Ho2 : out w2 = out w) by (by rewrite Hout).
  assert (Hst : interrupted m w2) by (apply (part_of_packet m chunks buf w w2 0 []); [done|apply Hw|by left]).
  destruct (match cancel_handle w2 with Some _ => _ | None => _ end) eqn:Ec.
  { split; [done|]. intros ((_ & _ & Hx & _) & _)%Hcalm2. congruence. }
  destruct (passed (deadline w2) (we_now env)) eqn:Ep.
  { split; [done|]. intros ((_ & _ & _ & Hx & _) & _)%Hcalm2. congruence. }
  pose proof (await_send_spec env (deadline w2) data w2 s' eq_refl) as Ha. unfold bind at 1.
  pose proof Hw as [].
  destruct (await_send env (deadline w2) data w2) as [[cc|e| |] w3]; try done.
  - destruct Ha as [-> Hcc]. set (w3 := polled _ _ _ _).
    assert (Hd : dispatched m chunks buf p last pos w3).
    { constructor; try done.
      - unfold out. cbn. f_equal. rewrite app_assoc. f_equal. congruence.
      - intros ->. unfold full, p. rewrite length_take. specialize (Hlast eq_refl). lia. }
    pose proof (account_sent_spec m chunks buf p last pos mode env cc w3 Hd) as Hacc.
    change (deadline w2) with (deadline w3).
    assert (Hcalm3 : calm w -> calm w3 /\ benign w3 env /\ cc = false).
    { intros [Hb H2]%Hcalm2. split_and!; [done|done|]. destruct cc; [|done].
      destruct Hb as [Hb _]. by destruct Hcc. }
    destruct (account_sent _ _ _ _ _ _ _ _) as [[| | |] w4]; try done;
      destruct Hacc as [? Hy]; (split; [done|]); intros Hx; apply Hy; by apply Hcalm3.
  - destruct Ha as (Hne & Hw3).
    split; [|intros ((? & ? & _) & _)%Hcalm2; by destruct Hne].
    destruct Hw3 as [->|(n & dead & ->)]; [done|].
    apply (part_of_packet m chunks buf w _ n data); [done|apply Hw|right; split_and!; [|done..]].
    unfold out. cbn. f_equal. rewrite app_assoc. f_equal. congruence.
Qed.

Lemma populate_spec m chunks buf last w :
  size_ok m -> writer_at m chunks buf w -> (last = false -> (m_room m <= length buf)%nat) ->
  match populate_header_and_send last false w with
  | (Ok _, w') => sent m chunks buf (take (m_room m) buf) last w' /\ (calm w -> calm w')
  | (Err e, w') => interrupted m w' /\ ~ calm w
  | _ => False
  end.
Proof.
  intros [Hs1 Hs2] Hw Hlast. destruct (header_in_place m chunks buf last w Hw) as (Hi & Hc & Hp).
  pose proof Hw as []. pose proof (length_payload _ at_cursor0) as Hl. rewrite at_payload0 in Hl.
  set (p := take (m_room m) buf) in *.
  unfold populate_header_and_send. rewrite orb_true_r. cbn [negb].
  unfold bind at 1, gets at 1, id.
  replace (if decide (packet_size w < cur_pos (payload_cursor w))%nat then packet_size w
           else cur_pos (payload_cursor w)) with (8 + length p)%nat.
  2:{ unfold p, m_room in *. rewrite length_take. destruct at_cursor0. case_decide; lia. }
  replace (if is_first_packet w then reset_mode w else ResetNone)
    with (match length chunks with O => m_reset m | _ => ResetNone end).
  2:{ rewrite at_first0, at_reset0. by destruct chunks. }
  set (mode := match length chunks with O => _ | _ => _ end) in *.
  set (c := write_all _ _) in *.
  set (w1 := w {{ payload_cursor := c }}).
  match goal with |- context [bind (modify ?f) _] => assert (E1 : modify f w = (Ok tt, w1)) end.
  { unfold modify, w1, c. by rewrite <- at_type0, <- at_id0. }
  rewrite (bind_ok _ _ _ _ _ E1). unfold bind at 1, gets, lift, bind at 1.
  change (payload_cursor w1) with c. rewrite Hi.
  destruct (nt_stream (network_writer w)) as [s|] eqn:Es; [|by unfold out in *; rewrite Es in *].
  destruct (next_env_spec w1 s Es) as (env & s' & Hout & E & Hcalm).
  rewrite (bind_ok _ _ _ _ _ E). set (w2 := w1 {{ network_writer ::= _ }}) in *.
  apply (send_spec m chunks buf last w w2 s' mode env c); try done.
  unfold out. rewrite Es. cbn. by rewrite Hout.
Qed.

(** ** Combinators *)

Lemma emits_ret {A} (a : A) : emits (ret a) [] a.
Proof. intros m content w Hs Hw. cbn. by rewrite app_nil_r. Qed.

Lemma emits_bind {A B} (op : M PacketWriter A) (k : A -> M PacketWriter B) bs1 bs2 a b :
  emits op bs1 a -> emits (k a) bs2 b -> emits (bind op k) (bs1 ++ bs2) b.
Proof.
  intros H1 H2 m content w Hs Hw. unfold bind. specialize (H1 m content w Hs Hw).
  destruct (op w) as [[a'| | |] w1]; try done. destruct H1 as (-> & Hw1 & Hc1).
  specialize (H2 m _ w1 Hs Hw1). destruct (k a w1) as [[b'| | |] w2]; try done.
  - destruct H2 as (-> & Hw2 & Hc2). rewrite app_assoc. auto.
  - destruct H2 as [? Hc2]. split; [done|]. auto.
Qed.

Lemma emits_eq {A} (op : M PacketWriter A) bs bs' a : emits op bs a -> bs = bs' -> emits op bs' a.
Proof. by intros ? <-. Qed.

(** ** Positions *)

Lemma as_i32_small n : Z.of_nat n <= 65535 -> as_i32 (Z.of_nat n) = Z.of_nat n.
Proof. intros. unfold as_i32. apply to_signed_id; [lia|split; lia]. Qed.

Lemma as_usize_nat n : Z.of_nat n <= 65535 -> as_usize (Z.of_nat n) = n.
Proof. intros. unfold as_usize. rewrite Z.mod_small by lia. lia. Qed.

Lemma position_at m chunks buf w :
  size_ok m -> writer_at m chunks buf w -> position w = Z.of_nat (length buf).
Proof.
  intros [? ?] []. unfold position. pose proof (length_payload _ at_cursor0) as Hl.
  rewrite at_payload0 in Hl. destruct at_cursor0. rewrite <- (as_i32_small (length buf)) by lia.
  f_equal. unfold PACKET_HEADER_SIZE. lia.
Qed.

Lemma packet_space_left_at m chunks buf w :
  size_ok m -> writer_at m chunks buf w -> (length buf <= m_room m)%nat ->
  packet_space_left w = (Ok (m_room m - length buf)%nat, w).
Proof.
  intros Hs Hw Hl. unfold packet_space_left, bind, gets, id. rewrite (position_at _ _ _ _ Hs Hw).
  pose proof Hw as []. destruct Hs. rewrite as_usize_nat, at_room0 by lia.
  by rewrite decide_False by lia.
Qed.

Lemma has_space_at m chunks buf w n :
  size_ok m -> writer_at m chunks buf w ->
  has_space n w = bool_decide (length buf + n <= m_room m)%nat.
Proof.
  intros Hs Hw. unfold has_space. rewrite (position_at _ _ _ _ Hs Hw).
  pose proof Hw as []. destruct Hs. by rewrite as_usize_nat, at_room0 by lia.
Qed.

(** ** Buffering and flushing *)

Lemma put_at m chunks buf bs w :
  writer_at m chunks buf w -> (length buf + length bs <= m_size m)%nat ->
  exists w', put bs w = (Ok tt, w') /\ writer_at m chunks (buf ++ bs) w' /\ (calm w -> calm w').
Proof.
  intros [] Hl. eexists. split; [done|]. split; [|done].
  destruct (write_all_ok bs _ at_cursor0) as [Hc Hp]. rewrite at_payload0 in Hp.
  constructor; try done. rewrite length_app. lia.
Qed.

(** Moving the cursor on after a flush starts the next packet. *)
Lemma next_packet_at m chunks buf p c w :
  sent m chunks buf p false w -> Forall (full m) chunks -> full m p ->
  cursor_ok c -> (length (payload c) <= m_size m)%nat ->
  writer_at m (chunks ++ [p]) (payload c) (w {{ payload_cursor := c }}).
Proof.
  intros [] Hf Hp Hc Hl.
  assert (bool_decide (chunks ++ [p] = []) = false) as Hb by (by destruct chunks).
  constructor; rewrite ?Hb; try done.
  - apply Forall_app. auto.
  - rewrite flushed_snoc. done.
  - cbn. rewrite se_id0, length_app. cbn. f_equal. lia.
Qed.

Lemma drop_slice {A} n a b (l : list A) : drop n (slice a b l) = slice (a + n) b l.
Proof. by rewrite !slice_take_drop, drop_drop. Qed.

Lemma handle_overflow_at m chunks buf w :
  size_ok m -> writer_at m chunks buf w ->
  match handle_overflow_if_needed w with
  | (Ok _, w') => writing m (concat chunks ++ buf) w' /\ (calm w -> calm w')
  | (Err e, w') => interrupted m w' /\ ~ calm w
  | _ => False
  end.
Proof.
  intros Hs Hw. unfold handle_overflow_if_needed. unfold bind at 1, gets, id.
  rewrite (position_at _ _ _ _ Hs Hw), (at_room _ _ _ _ Hw).
  destruct (Z.of_nat (m_room m) <=? Z.of_nat (length buf)) eqn:Hle; cycle 1.
  { split; [|done]. exists chunks, buf. split_and!; [done|lia|done]. }
  pose proof (populate_spec m chunks buf false w Hs Hw ltac:(lia)) as Hp. unfold bind at 1.
  destruct (populate_header_and_send false false w) as [[| | |] w1]; try done.
  destruct Hp as [Hse Hcalm]. pose proof Hse as [].
  pose proof (length_payload _ se_cursor0) as Hl. rewrite se_payload0 in Hl.
  pose proof Hs as [Hs1 _]. pose proof (at_buf _ _ _ _ Hw) as Hbuf. unfold m_room in *.
  destruct se_cursor0 as [Hlo Hhi]. apply Z.leb_le in Hle.
  unfold bind at 1. rewrite se_size0. unfold payload, PACKET_HEADER_SIZE in *.
  remember (cur_vec (payload_cursor w1)) as v. remember (cur_pos (payload_cursor w1)) as pos.
  rewrite decide_False by lia. remember (pos - m_size m)%nat as ov.
  rewrite copy_within_ok by lia. cbn [lift bind modify].
  set (c := {| cur_vec := splice 8 (slice (m_size m) (m_size m + ov) v) v; cur_pos := 8 + ov |}%nat).
  assert (Hpc : payload c = drop (m_size m - 8) buf).
  { unfold payload, c, PACKET_HEADER_SIZE. cbn [cur_vec cur_pos].
    rewrite slice_splice_same by (rewrite ?length_slice; lia).
    rewrite <- se_payload0, drop_slice. f_equal; lia. }
  split; [|done].
  exists (chunks ++ [take (m_size m - 8) buf]), (drop (m_size m - 8) buf). split_and!.
  - rewrite <- Hpc. eapply next_packet_at; [done|apply Hw| | |].
    + unfold full, m_room. rewrite length_take. lia.
    + split; cbn; [lia|left]. rewrite length_splice; rewrite ?length_slice; lia.
    + rewrite Hpc, length_drop. lia.
  - rewrite length_drop. unfold m_room. lia.
  - rewrite concat_app. cbn. by rewrite app_nil_r, <- app_assoc, take_drop.
Qed.

(** Filling the packet exactly, sending it and starting the next one empty. *)
Lemma flush_full_at {A} m chunks buf w (k : M PacketWriter A) :
  size_ok m -> writer_at m chunks buf w -> length buf = m_room m ->
  (exists w', (populate_header_and_send false false ;;
      modify (fun w => w {{ payload_cursor ::= set_position PACKET_HEADER_SIZE }}) ;; k) w = k w' /\
    writer_at m (chunks ++ [buf]) [] w' /\ (calm w -> calm w')) \/
  (exists e w', (populate_header_and_send false false ;;
      modify (fun w => w {{ payload_cursor ::= set_position PACKET_HEADER_SIZE }}) ;; k) w =
      (Err e, w') /\ interrupted m w' /\ ~ calm w).
Proof.
  intros Hs Hw Hl. pose proof (populate_spec m chunks buf false w Hs Hw ltac:(lia)) as Hp.
  unfold bind. destruct (populate_header_and_send false false w) as [[| | |] w1]; try done.
  - destruct Hp as [Hse Hcalm]. left. eexists. split; [done|]. split; [|done].
    rewrite firstn_all2 in Hse by lia. pose proof Hse as [].
    set (c := set_position PACKET_HEADER_SIZE (payload_cursor w1)).
    assert (payload c = []) as Hpc by (unfold payload; by rewrite slice_nil).
    rewrite <- Hpc. eapply (next_packet_at _ _ _ _ c); try done; [apply Hw| |rewrite Hpc; cbn; lia].
    split; cbn; unfold PACKET_HEADER_SIZE; [lia|by right].
  - right. eauto.
Qed.

(** ** The write operations *)

Lemma write_checked_emits bs : (length bs <= 8)%nat -> emits (write_checked bs) bs tt.
Proof.
  intros Hb m content w Hs (chunks & buf & Hw & Hl & ->). pose proof Hs as [Hs1 _]. unfold m_room in Hl.
  destruct (put_at m chunks buf bs w Hw ltac:(lia)) as (w1 & E & Hw1 & Hc1).
  unfold write_checked. rewrite (bind_ok _ _ _ _ _ E).
  pose proof (handle_overflow_at m chunks _ w1 Hs Hw1) as H.
  destruct (handle_overflow_if_needed w1) as [[[]| | |] w2]; try done; destruct H as [? ?].
  - rewrite <- app_assoc. auto.
  - auto.
Qed.

(** A run that ends strictly inside the packet only moves the cursor. *)
Lemma put_within_emits m content bs w :
  size_ok m -> writing m content w -> has_space (length bs) w = true ->
  exists w', put bs w = (Ok tt, w') /\ writing m (content ++ bs) w' /\ (calm w -> calm w').
Proof.
  intros Hs (chunks & buf & Hw & Hl & ->) Hsp.
  rewrite (has_space_at _ _ _ _ _ Hs Hw), bool_decide_eq_true in Hsp. unfold m_room in *.
  destruct (put_at m chunks buf bs w Hw ltac:(lia)) as (w1 & E & Hw1 & Hc1).
  exists w1. split_and!; [done| |done]. exists chunks, (buf ++ bs). split_and!; [done| |].
  - rewrite length_app. unfold m_room. lia.
  - by rewrite app_assoc.
Qed.

Lemma has_space_le n k w : (n <= k)%nat -> has_space k w = true -> has_space n w = true.
Proof. unfold has_space. rewrite !bool_decide_eq_true. lia. Qed.

Lemma write_each_emits bs : emits (write_each bs) bs tt.
Proof.
  induction bs as [|b bs IH]; cbn [write_each]; [apply emits_ret|].
  eapply (emits_bind _ _ [b]); [|done]. unfold write_byte_async. rewrite byte_of_val.
  apply write_checked_emits. cbn. lia.
Qed.

(** [write_async]'s loop, from any fill level of the current packet. *)
Lemma write_loop_emits bs : forall fuel m content w,
  size_ok m -> writing m content w ->
  (length bs + (if has_space 1 w then 0 else 1) < fuel)%nat ->
  match write_loop fuel bs w with
  | (Ok _, w') => writing m (content ++ bs) w' /\ (calm w -> calm w')
  | (Err e, w') => interrupted m w' /\ ~ calm w
  | _ => False
  end.
Proof.
  intros fuel. revert bs. induction fuel as [|fuel IH]; intros bs m content w Hs Hw Hf; [lia|].
  cbn [write_loop]. case_decide as Hb; [subst; cbn; by rewrite app_nil_r|].
  destruct Hw as (chunks & buf & Hw & Hl & ->).
  rewrite (bind_ok _ _ _ _ _ (packet_space_left_at m chunks buf w Hs Hw Hl)).
  rewrite (has_space_at _ _ _ _ _ Hs Hw) in Hf. pose proof Hs as [Hs1 _].
  destruct (decide (m_room m - length buf < length bs)%nat) as [Hlt|Hlt].
  - destruct (put_at m chunks buf (take (m_room m - length buf) bs) w Hw) as (w1 & E & Hw1 & Hc1).
    { rewrite length_take. unfold m_room in *. lia. }
    rewrite (bind_ok _ _ _ _ _ E).
    destruct (flush_full_at m chunks _ w1 (write_loop fuel (drop (m_room m - length buf) bs)) Hs Hw1)
      as [(w2 & -> & Hw2 & Hc2)|(e & w2 & -> & ? & ?)]; [len_simpl; lia| |auto].
    assert (Hw2' : writing m (concat (chunks ++ [buf ++ take (m_room m - length buf) bs])) w2).
    { eexists _, []. rewrite app_nil_r. split_and!; [done|cbn; lia|done]. }
    pose proof (IH (drop (m_room m - length buf) bs) m _ w2 Hs Hw2') as Hi.
    rewrite (has_space_at _ _ _ _ _ Hs Hw2), bool_decide_true in Hi
      by (unfold m_room; cbn; lia).
    assert ((length (drop (m_room m - length buf) bs) + 0 < fuel)%nat) as Hf2.
    { rewrite length_drop. destruct (bool_decide _) eqn:Eb in Hf; [|lia].
      apply bool_decide_eq_true in Eb. lia. }
    specialize (Hi Hf2). rewrite concat_app in Hi. cbn in Hi.
    rewrite app_nil_r, <- !app_assoc, take_drop in Hi. rewrite <- app_assoc.
    destruct (write_loop _ _ w2) as [[| | |] w3]; try done; destruct Hi as [? Hi];
      (split; [done|]); intros ?; apply Hi; auto.
  - destruct (put_at m chunks buf bs w Hw) as (w1 & -> & Hw1 & Hc1); [unfold m_room in *; lia|].
    split; [|done]. exists chunks, (buf ++ bs). split_and!; [done|rewrite length_app; lia|].
    by rewrite app_assoc.
Qed.

Lemma write_async_emits bs : emits (write_async bs) bs tt.
Proof.
  intros m content w Hs Hw. unfold write_async.
  pose proof (write_loop_emits bs (2 + length bs) m content w Hs Hw) as H.
  assert (length bs + (if has_space 1 w then 0 else 1) < 2 + length bs)%nat as Hf
    by (destruct (has_space 1 w); lia).
  specialize (H Hf). by destruct (write_loop _ _ w) as [[[]| | |] w'].
Qed.
