(* ===== verification/WriterText.v ===== *)
(** * Writing text: the resumable UTF-16 encoder is exact

    [Utf16Units] widens ASCII runs in blocks, carries a surrogate cut by the packet boundary, and
    still stages exactly the units of the text, so [write_string_unicode_async] emits its
    UTF-16LE encoding whatever the packet boundaries. *)

From stdpp Require Import strings.
From S2P Require Import Prelude Core ReadBuffer Transport Unicode PacketWriter Writer.

(** What the encoder still has to produce. *)
Definition units_of (u : Utf16Units) : list Z :=
  match pending_low u with Some low => [low] | None => [] end ++ utf16 (rest u).

(** ** ASCII runs *)

Lemma ascii_run_spec bs :
  (ascii_run bs <= length bs)%nat /\ Forall (fun b => is_ascii b = true) (take (ascii_run bs) bs).
Proof.
  induction bs as [|b bs [IH1 IH2]]; cbn; [split; [lia|constructor]|].
  destruct (is_ascii b) eqn:E; cbn; split; try lia; by constructor.
Qed.

Lemma ascii_blocks_spec fuel len bs :
  (len <= length bs)%nat -> Forall (fun b => is_ascii b = true) (take len bs) ->
  (ascii_blocks fuel len bs <= length bs)%nat /\
  Forall (fun b => is_ascii b = true) (take (ascii_blocks fuel len bs) bs).
Proof.
  revert len. induction fuel as [|fuel IH]; intros len Hl Hf; cbn; [done|].
  case_decide as Hd; [|done]. destruct (forallb _ _) eqn:E; [|done].
  apply IH; [done|]. rewrite <- (take_drop len (take (len + ASCII_BLOCK) bs)), take_take.
  rewrite Nat.min_l by lia. apply Forall_app. split; [done|].
  rewrite <- slice_take_drop. apply List.Forall_forall. intros b Hb.
  rewrite forallb_forall in E. by apply E.
Qed.

Lemma ascii_prefix_len_spec bs :
  (ascii_prefix_len bs <= length bs)%nat /\
  Forall (fun b => is_ascii b = true) (take (ascii_prefix_len bs) bs).
Proof.
  unfold ascii_prefix_len.
  destruct (ascii_blocks_spec (length bs) 0 bs) as [H1 H2]; [lia|constructor|].
  set (n := ascii_blocks _ _ _) in *. destruct (ascii_run_spec (drop n bs)) as [H3 H4].
  rewrite length_drop in H3. split; [lia|].
  rewrite <- (take_drop n bs) at 2.
  rewrite firstn_app, length_take, Nat.min_l, firstn_all2 by (rewrite ?length_take; lia).
  apply Forall_app. split; [done|]. by replace (n + ascii_run (drop n bs) - n)%nat with (ascii_run (drop n bs)) by lia.
Qed.

(** A run of [n] ASCII bytes is [n] characters, and both views agree. *)
Lemma ascii_chars s n :
  str_wf s -> (n <= length (as_bytes s))%nat ->
  Forall (fun b => is_ascii b = true) (take n (as_bytes s)) ->
  exists asc s1, s = asc ++ s1 /\ length asc = n /\ str_from n s = Ok s1 /\
    byte_val <$> take n (as_bytes s) = utf16 asc /\ utf16 asc = asc.
Proof.
  revert n. induction s as [|c s IH]; intros n Hs Hn Hf.
  - exists [], []. destruct n; [done|]. cbn in Hn. lia.
  - destruct n as [|n]; [by exists [], (c :: s)|]. inversion Hs as [|?? Hc Hs']; subst.
    unfold as_bytes in *. cbn [fmap list_fmap concat] in *. unfold encode_utf8 in *.
    destruct (c <? 0x80) eqn:E.
    + cbn [fmap list_fmap app take length] in *. inversion Hf as [|?? Ha Hf']; subst.
      destruct (IH n Hs' ltac:(lia) Hf') as (asc & s1 & -> & <- & Hfr & Hu & Ha').
      exists (c :: asc), s1. split_and!; try done.
      * cbn. unfold len_utf8. rewrite E. cbn. rewrite Nat.sub_0_r. done.
      * unfold utf16 in *. cbn [fmap list_fmap concat]. rewrite Hu. unfold encode_utf16.
        rewrite (proj2 (Z.ltb_lt c 0x10000)) by lia. cbn. f_equal. apply byte_val_of.
        unfold is_scalar in Hc. lia.
      * unfold utf16 in *. cbn [fmap list_fmap concat]. rewrite Ha'. unfold encode_utf16.
        by rewrite (proj2 (Z.ltb_lt c 0x10000)) by lia.
    + exfalso. assert (Hb : exists z l, 0x80 <= z < 256 /\ encode_utf8 c = byte_of z :: l).
      { unfold encode_utf8, is_scalar in *. rewrite E.
        destruct (c <? 0x800) eqn:E1; [|destruct (c <? 0x10000) eqn:E2]; do 2 eexists;
          (split; [|cbn [fmap list_fmap]; reflexivity]); Z.to_euclidean_division_equations; lia. }
      destruct Hb as (z & l & Hz & Hb). unfold encode_utf8 in Hb. rewrite E in Hb. rewrite Hb in Hf.
      cbn in Hf. inversion Hf as [|?? Ha _]; subst. unfold is_ascii in Ha.
      rewrite byte_val_of in Ha by lia. lia.
Qed.

(** ** Staging *)

(** [staged] units of [u] were taken, at most [n], and [u'] has the others. *)
Definition took (n : nat) (u : Utf16Units) (staged : list Z) (u' : Utf16Units) : Prop :=
  staged = take n (units_of u) /\ units_of u' = drop n (units_of u) /\ str_wf (rest u').

Lemma took_none u : str_wf (rest u) -> took 0 u [] u.
Proof. by unfold took. Qed.

Lemma took_end n u : str_wf (rest u) -> units_of u = [] -> took n u [] u.
Proof. unfold took. intros ? ->. by rewrite take_nil, drop_nil. Qed.

Lemma took_app n u us u1 more u' :
  units_of u = us ++ units_of u1 -> (length us <= n)%nat ->
  took (n - length us) u1 more u' -> took n u (us ++ more) u'.
Proof.
  unfold took. intros -> Hl (-> & -> & ?).
  by rewrite firstn_app, skipn_app, (take_ge us n), (drop_ge us n) by done.
Qed.

Lemma encode_utf16_shape c :
  encode_utf16 c = [c] \/ exists hi lo, encode_utf16 c = [hi; lo].
Proof. unfold encode_utf16. destruct (c <? _); eauto. Qed.

Lemma units_of_cons c s : units_of {| rest := c :: s; pending_low := None |} = encode_utf16 c ++ utf16 s.
Proof. done. Qed.

(** The loop stages the next units until the buffer is full or the text ends. *)
Definition stages (capacity : nat) (dst : list Z) (u : Utf16Units)
    (res : TdsResult (list Z * Utf16Units)) : Prop :=
  exists more u', res = Ok (dst ++ more, u') /\ took (capacity - length dst) u more u'.

Lemma stages_app capacity dst u us u1 res :
  units_of u = us ++ units_of u1 -> (length (dst ++ us) <= capacity)%nat ->
  stages capacity (dst ++ us) u1 res -> stages capacity dst u res.
Proof.
  intros Hu Hl (more & u' & -> & Ht). exists (us ++ more), u'. rewrite app_assoc. split; [done|].
  rewrite length_app in *. eapply took_app; [done|lia|].
  by replace (capacity - length dst - length us)%nat with (capacity - (length dst + length us))%nat by lia.
Qed.

Lemma stage_loop_spec capacity : forall fuel dst u,
  (capacity - length dst < fuel)%nat -> (length dst <= capacity)%nat -> str_wf (rest u) ->
  (pending_low u = None \/ length dst = capacity) ->
  stages capacity dst u (stage_loop fuel capacity dst u).
Proof.
  induction fuel as [|fuel IH]; intros dst u Hf Hl Hwf Hp; [lia|]. cbn [stage_loop].
  case_decide as Hc.
  { exists [], u. rewrite app_nil_r. split; [done|].
    replace (capacity - length dst)%nat with 0%nat by lia. by apply took_none. }
  destruct Hp as [Hp|?]; [|lia].
  remember (as_bytes (rest u)) as bs. remember (ascii_prefix_len _) as n.
  destruct (ascii_prefix_len_spec (take (Nat.min (length bs) (capacity - length dst)) bs)) as [Hn Ha].
  rewrite <- Heqn in Hn, Ha. rewrite length_take in Hn. rewrite take_take, Nat.min_l in Ha by lia.
  destruct (ascii_chars (rest u) n Hwf) as (asc & s1 & Hr & Hla & Hsf & Hb & Hasc);
    [rewrite <- Heqbs; lia|by rewrite <- Heqbs|].
  rewrite Heqbs, Hb, Hsf. cbn [rbind]. rewrite Hasc, Hp. cbn [pending_low].
  assert (Hwf1 : str_wf s1) by (rewrite Hr in Hwf; by apply Forall_app in Hwf as [_ ?]).
  assert (Hl1 : (length (dst ++ asc) <= capacity)%nat) by (rewrite length_app; lia).
  apply (stages_app _ _ _ asc {| rest := s1; pending_low := None |}); [|done|].
  { unfold units_of. by rewrite Hp, Hr, utf16_app, Hasc. }
  assert (Hf1 : (capacity - length (dst ++ asc) <= fuel)%nat) by (rewrite length_app; lia).
  remember (dst ++ asc) as dst1. clear dst Hf Hc Hl Heqdst1 Hn Heqn.
  case_decide as Hfull; [|destruct s1 as [|ch s2] ].
  - exists [], {| rest := s1; pending_low := None |}. rewrite app_nil_r. split; [done|].
    replace (capacity - length dst1)%nat with 0%nat by lia. by apply took_none.
  - exists [], {| rest := []; pending_low := None |}. rewrite app_nil_r. split; [done|].
    by apply took_end.
  - inversion Hwf1 as [|?? Hch Hwf2]; subst.
    pose proof (units_of_cons ch s2) as Hu.
    destruct (encode_utf16_shape ch) as [E|(hi & lo & E)]; rewrite E in Hu |- *.
    + apply (stages_app _ _ _ [ch] {| rest := s2; pending_low := None |}); [done|len_simpl; lia|].
      apply IH; [len_simpl; lia|len_simpl; lia|done|by left].
    + case_decide as Hroom.
      * apply (stages_app _ _ _ [hi; lo] {| rest := s2; pending_low := None |});
          [done|len_simpl; lia|].
        rewrite <- app_assoc. apply IH; [len_simpl; lia|len_simpl; lia|done|by left].
      * apply (stages_app _ _ _ [hi] {| rest := s2; pending_low := Some lo |});
          [done|len_simpl; lia|].
        apply IH; [len_simpl; lia|len_simpl; lia|done|right; len_simpl; lia].
Qed.

Lemma stage_le_spec capacity u :
  str_wf (rest u) -> exists staged u', stage_le capacity u = Ok (staged, u') /\
    took capacity u staged u'.
Proof.
  intros Hwf. unfold stage_le.
  assert (Hz : forall u0, str_wf (rest u0) -> pending_low u0 = None \/ capacity = 0%nat ->
    exists staged u', stage_loop (S capacity) capacity [] u0 = Ok (staged, u') /\
      took capacity u0 staged u').
  { intros u0 H0 H1. destruct (stage_loop_spec capacity (S capacity) [] u0) as (more & u' & E & Ht);
      [cbn; lia..|done|destruct H1; [by left|right; cbn; lia]|]. cbn in *. rewrite Nat.sub_0_r in Ht. eauto. }
  destruct (pending_low u) as [low|] eqn:Hp; [case_decide as Hc|].
  - destruct (stage_loop_spec capacity (S capacity) [low] {| rest := rest u; pending_low := None |})
      as (more & u' & E & Ht); [cbn; lia..|done|by left|].
    exists ([low] ++ more), u'. split; [done|]. eapply took_app; [|cbn; lia|done].
    unfold units_of. by rewrite Hp.
  - apply Hz; [done|right; lia].
  - apply Hz; [done|by left].
Qed.

(** ** Writing *)

Lemma took_length n u staged u' :
  took n u staged u' -> length staged = Nat.min n (length (units_of u)).
Proof. intros (-> & _ & _). by rewrite length_take. Qed.

(** [write_le] appends the next units, as many as it was asked for or as there are. *)
Lemma write_le_loop_at m chunks max : forall fuel written u buf w,
  (max - written < fuel)%nat -> (written <= max)%nat -> str_wf (rest u) ->
  writer_at m chunks buf w -> (length buf + 2 * (max - written) <= m_size m)%nat ->
  exists staged u' w', write_le_loop fuel max written u w = (Ok ((written + length staged)%nat, u'), w') /\
    took (max - written) u staged u' /\ writer_at m chunks (buf ++ units_le staged) w' /\
    (calm w -> calm w').
Proof.
  induction fuel as [|fuel IH]; intros written u buf w Hf Hle Hwf Hw Hroom; [lia|].
  cbn [write_le_loop]. case_decide as Hlt; cycle 1.
  { exists [], u, w. rewrite app_nil_r, Nat.add_0_r. split_and!; try done.
    replace (max - written)%nat with 0%nat by lia. by apply took_none. }
  remember (Nat.min (max - written) STAGE_UNITS) as room.
  assert (0 < room <= max - written)%nat as Hr by (unfold STAGE_UNITS in *; lia).
  destruct (stage_le_spec room u Hwf) as (staged & u1 & E & Ht).
  unfold bind at 1, lift. rewrite E. pose proof (took_length _ _ _ _ Ht) as Hl.
  case_decide as Hz.
  { exists [], u1, w. rewrite app_nil_r, Nat.add_0_r. split_and!; try done.
    assert (units_of u = []) as Hu by (apply length_zero_iff_nil; lia).
    destruct Ht as (_ & Hu1 & Hwf1). rewrite Hu, drop_nil in Hu1.
    unfold took. by rewrite Hu, Hu1, take_nil, drop_nil. }
  destruct (put_at m chunks buf (units_le staged) w Hw) as (w1 & E1 & Hw1 & Hc1);
    [rewrite length_units_le; lia|].
  rewrite (bind_ok _ _ _ _ _ E1). pose proof Ht as (Hst & Hu1 & Hwf1).
  case_decide as Hshort.
  - exists staged, u1, w1. split_and!; try done. unfold took. rewrite Hu1, Hst.
    rewrite !take_ge, !drop_ge by lia. done.
  - destruct (IH (written + length staged)%nat u1 (buf ++ units_le staged) w1)
      as (more & u' & w' & -> & Ht' & Hw' & Hc'); [lia|lia|done|done|len_simpl; lia|].
    exists (staged ++ more), u', w'. split_and!; [|eapply took_app; [|lia|]| |auto].
    + do 3 f_equal. rewrite length_app. lia.
    + rewrite Hst, Hu1. symmetry. apply take_drop.
    + by replace (max - written - length staged)%nat with (max - (written + length staged))%nat by lia.
    + by rewrite units_le_app, app_assoc.
Qed.

Lemma write_le_at m chunks max u buf w :
  str_wf (rest u) -> writer_at m chunks buf w -> (length buf + 2 * max <= m_size m)%nat ->
  exists staged u' w', write_le max u w = (Ok (length staged, u'), w') /\
    took max u staged u' /\ writer_at m chunks (buf ++ units_le staged) w' /\ (calm w -> calm w').
Proof.
  intros Hwf Hw Hl. destruct (write_le_loop_at m chunks max (S max) 0 u buf w)
    as (staged & u' & w' & ?); [lia|lia|done|done|lia|].
  exists staged, u', w'. by rewrite Nat.sub_0_r in *.
Qed.

Lemma next_unit_spec u :
  str_wf (rest u) ->
  match next_unit u with
  | (Some unit, u') => units_of u = unit :: units_of u' /\ str_wf (rest u')
  | (None, u') => units_of u = []
  end.
Proof.
  intros Hwf. unfold next_unit. destruct (pending_low u) as [low|] eqn:Hp.
  - unfold units_of. rewrite Hp. done.
  - destruct (rest u) as [|ch s] eqn:Hr; [unfold units_of; by rewrite Hp, Hr|].
    inversion Hwf as [|?? Hch Hs]; subst.
    unfold units_of at 1. rewrite Hp, Hr. unfold utf16. cbn [fmap list_fmap concat app].
    by destruct (encode_utf16_shape ch) as [->|(hi & lo & ->)]; cbn.
Qed.

(** How an operation that brings the message to [content] may end. *)
Definition outcome (m : Message) (content : bytes) (w : PacketWriter)
    (res : TdsResult unit * PacketWriter) : Prop :=
  match res with
  | (Ok _, w') => writing m content w' /\ (calm w -> calm w')
  | (Err _, w') => interrupted m w' /\ ~ calm w
  | _ => False
  end.

Lemma outcome_calm m content w w1 res :
  (calm w -> calm w1) -> outcome m content w1 res -> outcome m content w res.
Proof. destruct res as [[| | |] w2]; cbn; intuition. Qed.

Lemma emits_then m content w bs op (k : M PacketWriter unit) content' :
  size_ok m -> writing m content w -> emits op bs tt ->
  (forall w', writing m (content ++ bs) w' -> outcome m content' w' (k w')) ->
  outcome m content' w ((op ;; k) w).
Proof.
  intros Hs Hw He Hk. specialize (He m content w Hs Hw). unfold bind.
  destruct (op w) as [[[]| | |] w1]; try done. destruct He as (_ & Hw1 & Hc).
  by eapply outcome_calm, Hk.
Qed.

(** The overflow check that follows a batch of unchecked writes. *)
Lemma overflow_then m chunks buf n w (k : M PacketWriter unit) content' :
  size_ok m -> writer_at m chunks buf w -> (n = 0%nat -> (length buf <= m_room m)%nat) ->
  (forall w', writing m (concat chunks ++ buf) w' -> outcome m content' w' (k w')) ->
  outcome m content' w (((if decide (0 < n)%nat then check_overflow else ret tt) ;; k) w).
Proof.
  intros Hs Hw Hn Hk. unfold bind, check_overflow. case_decide.
  - pose proof (handle_overflow_at m chunks buf w Hs Hw) as H1.
    destruct (handle_overflow_if_needed w) as [[[]| | |] w1]; try done. destruct H1 as [H1 H2].
    by eapply outcome_calm, Hk.
  - apply Hk. exists chunks, buf. split_and!; [done|apply Hn; lia|done].
Qed.

Lemma write_string_loop_outcome : forall fuel m u content w,
  size_ok m -> writing m content w -> str_wf (rest u) ->
  (2 * length (units_of u) + (if has_space 1 w then 0 else 1) < fuel)%nat ->
  outcome m (content ++ units_le (units_of u)) w (write_string_loop fuel u w).
Proof.
  induction fuel as [|fuel IH]; intros m u content w Hs Hw Hwf Hf; [lia|].
  assert (IH' : forall u content w, writing m content w -> str_wf (rest u) ->
    (2 * length (units_of u) + 1 < fuel)%nat ->
    outcome m (content ++ units_le (units_of u)) w (write_string_loop fuel u w)).
  { intros u0 content0 w0 Hw0 Hwf0 Hf0. apply IH; auto. destruct (has_space 1 w0); lia. }
  cbn [write_string_loop]. pose proof Hw as (chunks & buf & Hat & Hl & ->). pose proof Hs as [Hs1 _].
  rewrite (bind_ok _ _ _ _ _ (packet_space_left_at m chunks buf w Hs Hat Hl)).
  rewrite (has_space_at _ _ _ _ _ Hs Hat) in Hf.
  remember (m_room m - length buf)%nat as space.
  destruct (decide (space / 2 = 0)%nat) as [Hz|Hz]; [destruct (decide (space = 1)%nat) as [H1|H1] |].
  - pose proof (next_unit_spec u Hwf) as Hn. destruct (next_unit u) as [[unit|] u']; cycle 1.
    { rewrite Hn, app_nil_r. by split. }
    destruct Hn as [Hu Hwf']. pose proof (length_le_bytes 2 unit) as Hb.
    destruct (le_bytes 2 unit) as [|lo [|hi [|]]] eqn:Eb; try done.
    rewrite Hu in Hf |- *. unfold units_le at 1. cbn [fmap list_fmap concat]. rewrite Eb.
    eapply (emits_then m _ w [lo]); [done..| |].
    { unfold write_byte_async. rewrite byte_of_val. apply write_checked_emits. cbn. lia. }
    intros w1 Hw1. eapply (emits_then m _ w1 [hi]); [done..| |].
    { unfold write_byte_async. rewrite byte_of_val. apply write_checked_emits. cbn. lia. }
    intros w2 Hw2. rewrite <- app_assoc in Hw2. pose proof (IH' u' _ w2 Hw2 Hwf') as Hi.
    rewrite <- app_assoc in Hi. apply Hi. cbn in Hf. lia.
  - assert (space = 0%nat) as Hsp by (apply Nat.div_small_iff in Hz; lia).
    destruct (flush_full_at m chunks buf w (write_string_loop fuel u) Hs Hat ltac:(lia))
      as [(w1 & -> & Hw1 & Hc1)|(e & w1 & -> & ? & ?)]; [|by split].
    eapply outcome_calm; [done|].
    replace (concat chunks ++ buf) with (concat (chunks ++ [buf])) by (rewrite concat_app; cbn; by rewrite app_nil_r).
    apply IH; [done| |done|].
    + eexists _, []. rewrite app_nil_r. split_and!; [done|cbn; lia|done].
    + rewrite (has_space_at _ _ _ _ _ Hs Hw1), bool_decide_true by (unfold m_room in *; cbn; lia).
      rewrite bool_decide_false in Hf by lia. lia.
  - destruct (write_le_at m chunks (space / 2) u buf w Hwf Hat) as (staged & u' & w1 & E & Ht & Hw1 & Hc1).
    { pose proof (Nat.Div0.mul_div_le space 2). unfold m_room in *. lia. }
    rewrite (bind_ok _ _ _ _ _ E). eapply outcome_calm; [done|].
    pose proof (took_length _ _ _ _ Ht) as Hlen. destruct Ht as (Hst & Hu' & Hwf').
    apply overflow_then with chunks (buf ++ units_le staged); [done..| |].
    { intros H0. apply length_zero_iff_nil in H0. subst staged. by rewrite H0, app_nil_r. }
    intros w2 Hw2. rewrite app_assoc in Hw2.
    destruct (decide (length staged < space / 2)%nat) as [Hend|Hmore].
    + split; [|done]. by rewrite Hst, take_ge in Hw2 by lia.
    + rewrite <- (take_drop (space / 2) (units_of u)), units_le_app, app_assoc, <- Hu', <- Hst.
      apply IH'; [done|done|]. rewrite Hu', length_drop. lia.
Qed.

(** [write_string_unicode_async] appends the text in UTF-16LE. *)
Lemma write_string_emits s :
  str_wf s -> emits (write_string_unicode_async s) (units_le (utf16 s)) tt.
Proof.
  intros Hs m content w Hm Hw. unfold write_string_unicode_async.
  pose proof (write_string_loop_outcome (3 + 2 * length (utf16 s)) m (Utf16Units_new s) content w Hm Hw Hs)
    as H. unfold outcome in H. cbn [units_of Utf16Units_new rest pending_low app] in H.
  assert (2 * length (utf16 s) + (if has_space 1 w then 0 else 1) < 3 + 2 * length (utf16 s))%nat
    as Hf by (destruct (has_space 1 w); lia).
  specialize (H Hf). by destruct (write_string_loop _ _ w) as [[[]| | |] w'].
Qed.

(** ** Automation for the serializers: [emits_step] runs the next write. *)

Lemma write_byte_emits v : emits (write_byte_async v) [byte_of v] tt.
Proof. apply write_checked_emits. cbn. lia. Qed.

Lemma write_checked_le_emits n v : (n <= 8)%nat -> emits (write_checked (le_bytes n v)) (le_bytes n v) tt.
Proof. intros. apply write_checked_emits. by rewrite length_le_bytes. Qed.

Lemma write_checked_be_emits n v : (n <= 8)%nat -> emits (write_checked (be_bytes n v)) (be_bytes n v) tt.
Proof. intros. apply write_checked_emits. by rewrite length_be_bytes. Qed.

Lemma write_u16_emits v : emits (write_u16_async v) (le_bytes 2 v) tt.
Proof. apply write_checked_le_emits. lia. Qed.
Lemma write_i16_emits v : emits (write_i16_async v) (le_bytes 2 v) tt.
Proof. apply write_checked_le_emits. lia. Qed.
Lemma write_u32_emits v : emits (write_u32_async v) (le_bytes 4 v) tt.
Proof. apply write_checked_le_emits. lia. Qed.
Lemma write_i32_emits v : emits (write_i32_async v) (le_bytes 4 v) tt.
Proof. apply write_checked_le_emits. lia. Qed.
Lemma write_u64_emits v : emits (write_u64_async v) (le_bytes 8 v) tt.
Proof. apply write_checked_le_emits. lia. Qed.
Lemma write_i64_emits v : emits (write_i64_async v) (le_bytes 8 v) tt.
Proof. apply write_checked_le_emits. lia. Qed.
Lemma write_i16_be_emits v : emits (write_i16_be_async v) (be_bytes 2 v) tt.
Proof. apply write_checked_be_emits. lia. Qed.
Lemma write_i32_be_emits v : emits (write_i32_be_async v) (be_bytes 4 v) tt.
Proof. apply write_checked_be_emits. lia. Qed.

Create HintDb emits discriminated.
#[export] Hint Resolve emits_ret write_async_emits write_string_emits write_byte_emits write_u16_emits
  write_i16_emits write_u32_emits write_i32_emits write_u64_emits write_i64_emits
  write_i16_be_emits write_i32_be_emits : emits.

(** The last write of a serializer. *)
Lemma emits_last {A B} (op : M PacketWriter A) (f : A -> M PacketWriter B) bs a b :
  emits op bs a -> emits (f a) [] b -> emits (bind op f) bs b.
Proof. intros. rewrite <- (app_nil_r bs). by eapply emits_bind. Qed.

Ltac emits_step := eapply emits_bind; [solve [eauto with emits]|].
