(* ===== verification/WriterMessage.v ===== *)
(** * Whole messages, from the writer to a reader

    Finishing a message, withdrawing one, parking one between calls; and the end-to-end property:
    what a writer puts on the wire is a well-formed message from which a reader gets back exactly
    the bytes written, however the network re-chunks it. *)

From stdpp Require Import strings.
From S2P Require Import Prelude Core ReadBuffer Transport Framing.
From S2P Require Import Unicode PacketReader Reader ReaderLaws PacketWriter Writer WriterText.

(** ** Finishing a message *)

(** [bs] is the message [content] in packets: full ones, then a final one. *)
Definition framed (m : Message) (content bs : bytes) : Prop :=
  exists chunks p, content = concat chunks ++ p /\ Forall (full m) chunks /\
    (length p <= m_room m)%nat /\ bs = flushed m chunks ++ packet m (length chunks) true p.

(** A message was sent in full; nothing at all is sent for an empty one. *)
Definition finished (m : Message) (content : bytes) (w : PacketWriter) : Prop :=
  send_incomplete w = false /\ eom_pending w = false /\
  (content = [] /\ out w = Some (m_base m) /\ message_complete w = false \/
   exists bs, out w = Some (m_base m ++ bs) /\ framed m content bs /\ message_complete w = true).

Lemma finalize_spec m content w :
  size_ok m -> writing m content w ->
  match finalize w with
  | (Ok _, w') => finished m content w'
  | (Err _, w') => interrupted m w' /\ ~ calm w
  | _ => False
  end.
Proof.
  intros Hs (chunks & buf & Hw & Hl & ->). unfold finalize. unfold bind at 1, gets, id.
  pose proof (length_payload _ (at_cursor _ _ _ _ Hw)) as Hlp. rewrite (at_payload _ _ _ _ Hw) in Hlp.
  pose proof (co_low _ (at_cursor _ _ _ _ Hw)) as Hlo. unfold PACKET_HEADER_SIZE.
  destruct (_ || eom_pending w) eqn:E.
  - unfold bind at 1. pose proof (populate_spec m chunks buf true w Hs Hw ltac:(done)) as Hp.
    destruct (populate_header_and_send true false w) as [[| | |] w1]; try done.
    destruct Hp as [Hse _]. rewrite take_ge in Hse by done.
    split_and!; [apply Hse|apply Hse|right]. eexists. split; [apply Hse|]. split; [|apply Hse].
    exists chunks, buf. split_and!; [done|apply Hw|done|done].
  - apply orb_false_iff in E as [E1 E2]. apply bool_decide_eq_false in E1.
    pose proof (at_eom _ _ _ _ Hw) as Heom. rewrite E2 in Heom.
    symmetry in Heom. apply negb_false_iff, bool_decide_eq_true in Heom. subst chunks.
    assert (buf = []) as -> by (apply length_zero_iff_nil; lia).
    split_and!; [apply Hw|done|left]. split_and!; [done| |apply Hw].
    by rewrite (at_out _ _ _ _ Hw), app_nil_r.
Qed.

(** ** What is on the wire is a message *)

Lemma status_eom last mode :
  has_bit (Z.lor (if last : bool then PacketStatusFlags_u8 Eom else PacketStatusFlags_u8 Normal)
             (ResetConnectionMode_u8 mode)) 1 = last.
Proof. by destruct last, mode. Qed.

(** Each packet the writer builds is the one the framing specification takes off the wire. *)
Lemma next_packet_packet m i last p max w :
  Z.of_nat (8 + length p) <= 65535 -> (8 + length p <= max)%nat -> (p = [] -> last = true) ->
  next_packet max (packet m i last p ++ w) = Some (last, p, w).
Proof.
  intros Hz Hmax Hlast. unfold packet. rewrite <- app_assoc.
  remember (match i with O => _ | _ => _ end) as mode. remember (as_u8 (Z.of_nat i + 1)) as id.
  assert (Hb : be_bytes 2 (as_u16 (Z.of_nat (8 + length p))) = be_bytes 2 (Z.of_nat (8 + length p))).
  { unfold as_u16. by rewrite Z.mod_small by lia. }
  pose proof (length_be_bytes 2 (Z.of_nat (8 + length p))) as Hl2.
  pose proof (of_be_unsigned 2 (Z.of_nat (8 + length p)) ltac:(split; lia)) as Hv.
  set (hdr := build_header _ _ _ _ _ _).
  assert (Hlen : length hdr = 8%nat) by apply length_build_header.
  assert (Hhl : forall x, header_length (hdr ++ x) = (8 + length p)%nat).
  { intros x. unfold header_length, hdr, build_header. rewrite Hb.
    destruct (be_bytes 2 (Z.of_nat (8 + length p))) as [|a [|b [|]]]; try done.
    match goal with |- Z.to_nat (of_be ?l) = _ => change l with [a; b] end. rewrite Hv. lia. }
  assert (Heom : forall x, header_eom (hdr ++ x) = last).
  { intros x. unfold header_eom, hdr, build_header.
    match goal with |- has_bit (of_le (slice 1 2 (([_] ++ [?x] ++ _) ++ _))) _ = _ =>
      change (slice 1 2 _) with [x] end.
    rewrite of_le_one, byte_val_of.
    - apply status_eom.
    - by destruct last, mode; vm_compute. }
  unfold next_packet. rewrite Hhl, Heom, decide_True.
  - do 2 f_equal; [f_equal|].
    + unfold slice. rewrite drop_app_length' by done. apply take_app_length'. lia.
    + rewrite app_assoc. apply drop_app_length'. len_simpl. lia.
  - rewrite !length_app. split_and!; [lia|lia|lia|lia|].
    intros He. apply Hlast, length_zero_iff_nil. lia.
Qed.

Lemma message_trans max w ps w' ps' closed rest :
  message max w ps false w' -> message max w' ps' closed rest ->
  message max w (ps ++ ps') closed rest.
Proof.
  intros H. remember false as c. induction H; [done|done|].
  intros. rewrite <- app_assoc. eapply msg_more; [done|]. auto.
Qed.

Lemma flushed_message m chunks rest :
  size_ok m -> Forall (full m) chunks ->
  message (m_size m) (flushed m chunks ++ rest) (concat chunks) false rest.
Proof.
  intros [Hs1 Hs2]. revert rest. unfold full, m_room.
  induction chunks as [|p chunks IH] using rev_ind; intros rest Hf; [apply msg_here|].
  apply Forall_app in Hf as [Hf Hp]. inversion Hp as [|?? Hq _]; subst.
  rewrite flushed_snoc, concat_app, <- app_assoc. eapply message_trans; [by apply IH|].
  cbn. eapply msg_more; [|apply msg_here]. apply next_packet_packet; [lia|lia|].
  intros ->. cbn in Hq. lia.
Qed.

Lemma framed_message m content bs rest :
  size_ok m -> framed m content bs -> message (m_size m) (bs ++ rest) content true rest.
Proof.
  intros Hs (chunks & p & -> & Hf & Hl & ->). pose proof Hs as [Hs1 Hs2].
  rewrite <- app_assoc. eapply message_trans; [by apply flushed_message|].
  unfold m_room in *. apply msg_last, next_packet_packet; [lia|lia|done].
Qed.

(** ** Opening, parking and withdrawing *)

(** The message a new writer starts on transport [t] with [s] as its stream. *)
Definition new_message (ty : PacketType) (t : NetworkTransport) (s : Stream) : Message :=
  {| m_type := ty; m_size := nt_packet_size t;
     m_reset := if carries_reset ty then pending_reset t else ResetNone; m_base := st_out s |}.

Lemma new_writing ty timeout cancel now t s :
  nt_stream t = Some s -> size_ok (new_message ty t s) ->
  writing (new_message ty t s) [] (PacketWriter_new ty timeout cancel now t).
Proof.
  intros Es [Hs1 Hs2]. exists [], []. cbn in Hs1, Hs2.
  assert (as_usize (Z.of_nat (nt_packet_size t) - Z.of_nat PACKET_HEADER_SIZE) = nt_packet_size t - 8)%nat as Hroom.
  { unfold as_usize, PACKET_HEADER_SIZE. rewrite Z.mod_small by lia. lia. }
  split_and!; [|cbn; lia|done]. unfold PacketWriter_new. rewrite Hroom.
  destruct (carries_reset ty) eqn:Ec; cbn [take_reset_mode];
    constructor; cbn -[payload];
    rewrite ?Ec; try done; try (by unfold out; cbn; rewrite Es, app_nil_r);
    try (by split; [unfold PACKET_HEADER_SIZE; cbn; lia|right]); lia.
Qed.

(** A parked message goes on exactly where it was. *)
Lemma resume_writing m content w now :
  writing m content w -> writing m content (resume (fst (suspend w)) now (snd (suspend w))).
Proof.
  intros (chunks & buf & [] & ? & ?). exists chunks, buf. split_and!; [|done|done]. by constructor.
Qed.

Lemma benign_await env dl data w s :
  nt_stream (network_writer w) = Some s -> we_race env = RaceSend -> we_error env = None ->
  await_send env dl data w =
    (Ok false, polled w s (st_out s ++ data) (known_dead (network_writer w))).
Proof.
  intros Es Hr He. unfold await_send, bind, gets. rewrite Hr, (complete_send_eq _ _ _ _ Es).
  by rewrite He.
Qed.

(** [cancel_current_message] in a calm environment: one bare EOM | IGNORE packet. *)
Lemma cancel_current_message_spec m chunks buf w :
  size_ok m -> writer_at m chunks buf w -> chunks <> [] -> calm w ->
  exists w', cancel_current_message w = (Ok tt, w') /\
    out w' = Some (m_base m ++ flushed m chunks ++
      build_header 8 (m_type m) (as_u8 (Z.of_nat (length chunks) + 1)) true true ResetNone) /\
    message_complete w' = false /\ eom_pending w' = false /\
    reset_dispatched (network_writer w') = reset_dispatched (network_writer w).
Proof.
  intros [Hs1 Hs2] Hw Hne Hcalm. pose proof (at_first _ _ _ _ Hw) as Hf.
  rewrite bool_decide_false in Hf by done.
  pose proof (at_out _ _ _ _ Hw) as Ho. unfold out in Ho.
  destruct (nt_stream (network_writer w)) as [s|] eqn:Es; [|done].
  unfold cancel_current_message, populate_header_and_send. unfold bind at 1, modify at 1.
  cbn [orb negb]. unfold bind at 1, gets at 1, id.
  set (w0 := w {{ reset_mode := ResetNone }}).
  rewrite (decide_False (P := (packet_size w0 < _)%nat))
    by (change (packet_size w0) with (packet_size w); rewrite (at_size _ _ _ _ Hw); unfold PACKET_HEADER_SIZE; lia).
  change (is_first_packet w0) with (is_first_packet w). rewrite Hf.
  set (hdr := build_header 8 (m_type m) (as_u8 (Z.of_nat (length chunks) + 1)) true true ResetNone).
  set (c := write_all hdr (set_position 0 (payload_cursor w))). set (w1 := w0 {{ payload_cursor := c }}).
  match goal with |- context [bind (modify ?f) _] => assert (E1 : modify f w0 = (Ok tt, w1)) end.
  { unfold modify, w1, c, hdr. rewrite <- (at_type _ _ _ _ Hw), <- (at_id _ _ _ _ Hw). done. }
  rewrite (bind_ok _ _ _ _ _ E1). unfold bind at 1, gets, lift, bind at 1.
  assert (Hi : index_range 0 PACKET_HEADER_SIZE (cur_vec (payload_cursor w1)) = Ok hdr).
  { destruct (write_header_ok hdr (payload_cursor w) 8 (at_cursor _ _ _ _ Hw)) as (Ht & Hn & _);
      [apply length_build_header|pose proof (co_low _ (at_cursor _ _ _ _ Hw)); lia|].
    unfold index_range, PACKET_HEADER_SIZE. rewrite decide_True by (split; [lia|exact Hn]).
    by f_equal. }
  rewrite Hi. destruct (next_env_spec w1 s Es) as (env & s' & Hout & E & Hb).
  destruct (Hb Hcalm) as [(Hr & He & Hcn & Hp1 & Hp2) _]. rewrite (bind_ok _ _ _ _ _ E).
  rewrite Hcn. change ((fun n => start_time w1 + secs n) <$> max_timeout_sec w1) with (deadline w1).
  rewrite Hp1. unfold bind at 1. rewrite (benign_await _ _ _ _ s') by done.
  unfold account_sent. cbn [negb andb]. rewrite andb_false_r.
  unfold bind, modify, gets, id, ret. rewrite Hp2.
  match goal with |- context [is_first_packet ?x] =>
    change (is_first_packet x) with (is_first_packet w) end.
  rewrite Hf. eexists. split; [done|]. split_and!; try done.
  unfold out. cbn -[hdr flushed]. f_equal. rewrite Hout, app_assoc. f_equal. cbn in Ho. congruence.
Qed.

(** ** Properties *)

Lemma emits_finalize m content bs w op :
  size_ok m -> writing m content w -> emits op bs tt ->
  match (op ;; finalize) w with
  | (Ok _, w') => finished m (content ++ bs) w'
  | (Err _, w') => interrupted m w' /\ ~ calm w
  | _ => False
  end.
Proof.
  intros Hs Hw He. specialize (He m content w Hs Hw). unfold bind.
  destruct (op w) as [[[]| | |] w1]; try done. destruct He as (_ & Hw1 & Hc).
  pose proof (finalize_spec m _ w1 Hs Hw1) as Hf.
  destruct (finalize w1) as [[| | |] w2]; try done. destruct Hf. auto.
Qed.

(** A connection with small packets, and a request of a number, raw bytes and text. *)
Definition sample_net : NetworkTransport :=
  (NetworkTransport_new {| st_in := []; st_out := [byte_of 255]; st_writes := [] |} 16)
    {{ pending_reset := Reset }}.

Definition sample_write : M PacketWriter unit :=
  write_u16_async 513 ;; write_async (byte_of <$> [7; 8; 9; 10; 11; 12; 13]) ;;
  write_string_unicode_async [65; 66; 128512].

Definition sample_content : bytes :=
  le_bytes 2 513 ++ (byte_of <$> [7; 8; 9; 10; 11; 12; 13]) ++ units_le (utf16 [65; 66; 128512]).

Definition sample_new : PacketWriter :=
  PacketWriter_new SqlBatch (Some 30) (Some CancelHandle_new) 1000 sample_net.

Lemma sample_write_emits : emits sample_write sample_content tt.
Proof.
  unfold sample_write, sample_content. eapply emits_bind; [apply write_checked_emits; rewrite length_le_bytes; lia|].
  eapply emits_bind; [apply write_async_emits|]. apply write_string_emits. by repeat constructor.
Defined.

Lemma sample_calm : calm sample_new.
Proof. unfold calm, benign, callback_ok. split_and!; try done. constructor. Defined.

(** C1: what the packet writer sends is what a packet reader gets.  A message written by any
    combination of write operations and finished on a connection that works arrives as
    well-formed packets: a reader on the other side, with the same packet size and whatever
    socket chunks, reads exactly the bytes written, and leaves what follows the message alone. *)
Theorem written_message_is_read_back ty timeout cancel now t s op content w :
  nt_stream t = Some s -> size_ok (new_message ty t s) -> emits op content tt ->
  PacketWriter_new ty timeout cancel now t = w -> calm w -> content <> [] ->
  exists w' bs, (op ;; finalize) w = (Ok tt, w') /\ out w' = Some (st_out s ++ bs) /\
    forall r rest, stream_data (st_in r) = bs ++ rest ->
    exists r', Net.read_bytes (length content) (NetworkTransport_new r (nt_packet_size t)) =
                 (Ok content, r') /\ delivers r' [] true rest.
Proof.
  intros Es Hs He <- Hcalm Hne. pose proof (new_writing ty timeout cancel now _ _ Es Hs) as Hw.
  set (w := PacketWriter_new _ _ _ _ _) in *.
  pose proof (emits_finalize _ _ _ _ _ Hs Hw He) as Hf.
  destruct ((op ;; finalize) w) as [[[]| | |] w']; try done; [|by destruct Hf].
  destruct Hf as (_ & _ & [(? & _)|(bs & Ho & Hfr & _)]); [done|].
  exists w', bs. split_and!; [done|done|]. intros r rest Hr.
  pose proof (framed_message _ _ _ rest Hs Hfr) as Hm. rewrite <- Hr in Hm.
  destruct Hs as [Hs1 _]. cbn in Hs1.
  destruct (fresh_read_bytes r (nt_packet_size t) content rest ltac:(lia) Hm) as (r' & ? & ? & _).
  by exists r'.
Qed.

Lemma written_message_is_read_back_witness :
  exists w' bs, (sample_write ;; finalize) sample_new = (Ok tt, w') /\
    out w' = Some ([byte_of 255] ++ bs) /\
    forall r rest, stream_data (st_in r) = bs ++ rest ->
    exists r', Net.read_bytes 17 (NetworkTransport_new r 16) = (Ok sample_content, r') /\
      delivers r' [] true rest.
Proof.
  apply (written_message_is_read_back SqlBatch (Some 30) (Some CancelHandle_new) 1000 sample_net
    {| st_in := []; st_out := [byte_of 255]; st_writes := [] |} sample_write sample_content sample_new);
    [done|split; cbn; lia|apply sample_write_emits|done|apply sample_calm|done].
Defined.

(** ** Sequences of calls *)






Lemma fixed_bytes_emits bs : emits (write_fixed_bytes bs) bs tt.
Proof.
  intros m content w Hs Hw. unfold write_fixed_bytes. cbn [bind gets id].
  destruct (has_space (length bs + 1) w) eqn:Hsp; [|by apply write_each_emits].
  apply (has_space_le (length bs)) in Hsp; [|lia]. by destruct (put_within_emits m content bs w Hs Hw Hsp) as (w' & -> & ?).
Qed.

Lemma emits_note_loss : emits (modify note_code_page_conversion_loss) [] tt.
Proof.
  intros m content w _ (chunks & buf & [] & Hl & ->). cbn [modify]. split_and!; [done| |by intros].
  exists chunks, buf. rewrite app_nil_r. by split_and!; [constructor|..].
Qed.

#[export] Hint Resolve fixed_bytes_emits emits_note_loss : emits.








(** text is written as its UTF-16LE encoding, whatever ASCII runs, surrogate pairs and packet
    boundaries it meets on the way. *)
Theorem write_string_is_utf16 s :
  str_wf s -> emits (write_string_unicode_async s) (units_le (utf16 s)) tt.
Proof. apply write_string_emits. Qed.

Lemma write_string_is_utf16_witness :
  emits (write_string_unicode_async [0x48; 0xE9; 0x1F600]) (units_le (utf16 [0x48; 0xE9; 0x1F600])) tt.
Proof. apply write_string_is_utf16. by repeat constructor. Defined.

(** a message parked between two writes and resumed later goes on where it was: on a working
    connection the message that arrives is both parts, in one sequence of packets. *)
Theorem suspended_message_continues m c1 c2 w op1 op2 later :
  size_ok m -> writing m [] w -> emits op1 c1 tt -> emits op2 c2 tt -> calm w ->
  exists w1, op1 w = (Ok tt, w1) /\
    let w1' := resume (fst (suspend w1)) later (snd (suspend w1)) in
    (calm w1' -> exists w2, (op2 ;; finalize) w1' = (Ok tt, w2) /\ finished m (c1 ++ c2) w2).
Proof.
  intros Hs Hw H1 H2 Hc. specialize (H1 m [] w Hs Hw).
  destruct (op1 w) as [[[]| | |] w1]; try done; [|by destruct H1].
  destruct H1 as (_ & Hw1 & _). exists w1. split; [done|]. cbn zeta. intros Hc1.
  pose proof (emits_finalize m _ _ _ _ Hs (resume_writing m _ w1 later Hw1) H2) as Hf.
  destruct ((op2 ;; finalize) _) as [[[]| | |] w2]; try done; [|by destruct Hf]. eauto.
Qed.

Definition sample_msg : Message :=
  new_message SqlBatch sample_net {| st_in := []; st_out := [byte_of 255]; st_writes := [] |}.

Lemma sample_size_ok : size_ok sample_msg.
Proof. split; cbn; lia. Defined.

Lemma sample_writing : writing sample_msg [] sample_new.
Proof. apply new_writing; [done|apply sample_size_ok]. Defined.

Lemma suspended_message_continues_witness :
  exists w1, sample_write sample_new = (Ok tt, w1) /\
    let w1' := resume (fst (suspend w1)) 70000 (snd (suspend w1)) in
    (calm w1' -> exists w2, (sample_write ;; finalize) w1' = (Ok tt, w2) /\
      finished sample_msg (sample_content ++ sample_content) w2).
Proof.
  apply (suspended_message_continues _ sample_content sample_content sample_new sample_write sample_write
    70000 sample_size_ok sample_writing sample_write_emits sample_write_emits sample_calm).
Defined.

(** withdrawing a message part of which is on the wire sends one more packet, empty, flagged
    as end of message and to be ignored, with the next packet id and no reset bit; the message
    does not count as complete and the reset acknowledgement expected is unchanged. *)
Theorem cancelled_message_is_ignored m chunks buf w :
  size_ok m -> writer_at m chunks buf w -> chunks <> [] -> calm w ->
  exists w', cancel_current_message w = (Ok tt, w') /\
    out w' = Some (m_base m ++ flushed m chunks ++
      build_header 8 (m_type m) (as_u8 (Z.of_nat (length chunks) + 1)) true true ResetNone) /\
    message_complete w' = false /\ eom_pending w' = false /\
    reset_dispatched (network_writer w') = reset_dispatched (network_writer w).
Proof. apply cancel_current_message_spec. Qed.

(** The state of a writer after its first full packet. *)
Definition one_packet_out : PacketWriter :=
  {| packet_type := SqlBatch;
     network_writer := NetworkTransport_new
       {| st_in := [];
          st_out := build_header 16 SqlBatch 1 false false ResetNone ++ replicate 8 (byte_of 3);
          st_writes := [] |} 16;
     max_payload_size := 8; packet_id := 2;
     payload_cursor := {| cur_vec := replicate 16 (byte_of 3); cur_pos := 8 |};
     packet_size := 16; is_first_packet := false; send_incomplete := false;
     send_attempted := true; message_complete := false; start_time := 0;
     max_timeout_sec := None; cancel_handle := None; reset_mode := ResetNone;
     eom_pending := true; code_page_conversion_loss := false |}.

Lemma cancelled_message_is_ignored_witness :
  exists w', cancel_current_message one_packet_out = (Ok tt, w') /\
    out w' = Some ([] ++ flushed {| m_type := SqlBatch; m_size := 16; m_reset := ResetNone; m_base := [] |}
                         [replicate 8 (byte_of 3)] ++
      build_header 8 SqlBatch 2 true true ResetNone) /\
    message_complete w' = false /\ eom_pending w' = false /\
    reset_dispatched (network_writer w') = false.
Proof.
  apply (cancelled_message_is_ignored
    {| m_type := SqlBatch; m_size := 16; m_reset := ResetNone; m_base := [] |}
    [replicate 8 (byte_of 3)] [] one_packet_out); [split; cbn; lia| |done|].
  - constructor; try done; [split; cbn; [lia|by right]|cbn; lia|by repeat constructor].
  - unfold calm, benign, callback_ok. split_and!; try done. constructor.
Defined.

(** a parked message that reports nothing sent really put nothing on the wire, and abandoning
    it puts the connection reset it had taken back on the connection for the next request. *)
Theorem abandoned_message_returns_reset m content w :
  writing m content w -> nothing_sent (fst (suspend w)) = true -> m_reset m <> ResetNone ->
  out w = Some (m_base m) /\
  pending_reset (abandon (fst (suspend w)) (snd (suspend w))) = m_reset m /\
  reset_dispatched (abandon (fst (suspend w)) (snd (suspend w))) = false.
Proof.
  intros (chunks & buf & Hw & _ & _) Hn Hr. unfold nothing_sent in Hn. cbn in Hn.
  rewrite (at_attempted _ _ _ _ Hw), negb_involutive, bool_decide_eq_true in Hn. subst chunks.
  rewrite (at_out _ _ _ _ Hw), app_nil_r. split; [done|].
  unfold abandon. cbn. rewrite (at_reset _ _ _ _ Hw), decide_False by done. done.
Qed.

Lemma abandoned_message_returns_reset_witness :
  let w := sample_new in out w = Some [byte_of 255] /\
    pending_reset (abandon (fst (suspend w)) (snd (suspend w))) = Reset /\
    reset_dispatched (abandon (fst (suspend w)) (snd (suspend w))) = false.
Proof. by apply (abandoned_message_returns_reset _ [] sample_new sample_writing). Defined.
