(* ===== verification/Tokens.v ===== *)
(** * Tokens of the response stream (src/mssql-tds/src/token/)

    The token types, the values the token parsers produce, and the conversions from the bytes that
    identify them.  Text is a list of scalar values, integers keep their width by the readers
    that produce them. *)

From stdpp Require Import strings.
From S2P Require Import Prelude Core Unicode.

(** ** [TokenType] *)

Inductive TokenType :=
  | TT_AltMetadata | TT_AltRow | TT_ColMetadata | TT_ColInfo | TT_DataClassification | TT_Done
  | TT_DoneProc | TT_DoneInProc | TT_EnvChange | TT_Error | TT_FeatureExtAck | TT_FedAuthInfo
  | TT_Info | TT_LoginAck | TT_NbcRow | TT_Offset | TT_Order | TT_ReturnStatus | TT_ReturnValue
  | TT_Row | TT_SessionState | TT_SSPI | TT_TabName.

#[global] Instance TokenType_eq : EqDecision TokenType.
Proof. solve_decision. Defined.

(** [token_type as u8]. *)
Definition TokenType_u8 (t : TokenType) : Z :=
  match t with
  | TT_AltMetadata => 0x88 | TT_AltRow => 0xD3 | TT_ColMetadata => 0x81 | TT_ColInfo => 0xA5
  | TT_DataClassification => 0xA3 | TT_Done => 0xFD | TT_DoneProc => 0xFE
  | TT_DoneInProc => 0xFF | TT_EnvChange => 0xE3 | TT_Error => 0xAA | TT_FeatureExtAck => 0xAE
  | TT_FedAuthInfo => 0xEE | TT_Info => 0xAB | TT_LoginAck => 0xAD | TT_NbcRow => 0xD2
  | TT_Offset => 0x78 | TT_Order => 0xA9 | TT_ReturnStatus => 0x79 | TT_ReturnValue => 0xAC
  | TT_Row => 0xD1 | TT_SessionState => 0xE4 | TT_SSPI => 0xED | TT_TabName => 0xA4
  end.

(** The two errors for a token that cannot be read past; the byte is not part of the text. *)
Definition UNKNOWN_TOKEN_PREFIX : string := "Unknown token type: ".
Definition NO_PARSER_PREFIX : string := "No parser implemented for token type: ".

Definition TokenType_debug (t : TokenType) : string :=
  match t with
  | TT_AltMetadata => "AltMetadata" | TT_AltRow => "AltRow" | TT_ColMetadata => "ColMetadata"
  | TT_ColInfo => "ColInfo" | TT_DataClassification => "DataClassification" | TT_Done => "Done"
  | TT_DoneProc => "DoneProc" | TT_DoneInProc => "DoneInProc" | TT_EnvChange => "EnvChange"
  | TT_Error => "Error" | TT_FeatureExtAck => "FeatureExtAck" | TT_FedAuthInfo => "FedAuthInfo"
  | TT_Info => "Info" | TT_LoginAck => "LoginAck" | TT_NbcRow => "NbcRow" | TT_Offset => "Offset"
  | TT_Order => "Order" | TT_ReturnStatus => "ReturnStatus" | TT_ReturnValue => "ReturnValue"
  | TT_Row => "Row" | TT_SessionState => "SessionState" | TT_SSPI => "SSPI" | TT_TabName => "TabName"
  end.

Definition unknown_token_type : Error := ProtocolError UNKNOWN_TOKEN_PREFIX.

Definition no_parser_error (token_type : TokenType) : Error :=
  ProtocolError (NO_PARSER_PREFIX +:+ TokenType_debug token_type +:+
                 ". This token type is not supported yet.").

Definition is_unreadable_token_error (e : Error) : bool :=
  match e with
  | ProtocolError message =>
      String.prefix UNKNOWN_TOKEN_PREFIX message || String.prefix NO_PARSER_PREFIX message
  | _ => false
  end.

(** [TryFrom<u8> for TokenType]. *)
Definition TokenType_try_from (value : Z) : TdsResult TokenType :=
  match value with
  | 0x88 => Ok TT_AltMetadata | 0xD3 => Ok TT_AltRow | 0x81 => Ok TT_ColMetadata
  | 0xA5 => Ok TT_ColInfo | 0xA3 => Ok TT_DataClassification | 0xFD => Ok TT_Done
  | 0xFE => Ok TT_DoneProc | 0xFF => Ok TT_DoneInProc | 0xE3 => Ok TT_EnvChange
  | 0xAA => Ok TT_Error | 0xAE => Ok TT_FeatureExtAck | 0xEE => Ok TT_FedAuthInfo
  | 0xAB => Ok TT_Info | 0xAD => Ok TT_LoginAck | 0xD2 => Ok TT_NbcRow | 0x78 => Ok TT_Offset
  | 0xA9 => Ok TT_Order | 0x79 => Ok TT_ReturnStatus | 0xAC => Ok TT_ReturnValue
  | 0xD1 => Ok TT_Row | 0xE4 => Ok TT_SessionState | 0xED => Ok TT_SSPI | 0xA4 => Ok TT_TabName
  | _ => Err unknown_token_type
  end.

(** ** DONE *)

(** [DoneStatus::from]: [from_bits_truncate] keeps the known flags. *)
Definition DONE_MORE : Z := 0x0001.
Definition DONE_ERROR : Z := 0x0002.
Definition DONE_IN_XACT : Z := 0x0004.
Definition DONE_COUNT : Z := 0x0010.
Definition DONE_ATTN : Z := 0x0020.
Definition DONE_RPC_IN_BATCH : Z := 0x0080.
Definition DONE_SERVER_ERROR : Z := 0x0100.

Definition DONE_ALL : Z :=
  Z.lor DONE_MORE (Z.lor DONE_ERROR (Z.lor DONE_IN_XACT (Z.lor DONE_COUNT (Z.lor DONE_ATTN
    (Z.lor DONE_RPC_IN_BATCH DONE_SERVER_ERROR))))).

Definition DoneStatus_from (value : Z) : Z := Z.land value DONE_ALL.

Inductive CurrentCommand :=
  | Cmd_None | Cmd_Select | Cmd_Insert | Cmd_Delete | Cmd_Update | Cmd_Abort | Cmd_BeginXact
  | Cmd_EndXact | Cmd_BulkInsert | Cmd_OpenCursor | Cmd_Merge.

Definition CurrentCommand_u16 (c : CurrentCommand) : Z :=
  match c with
  | Cmd_None => 0x00 | Cmd_Select => 0xc1 | Cmd_Insert => 0xc3 | Cmd_Delete => 0xc4
  | Cmd_Update => 0xc5 | Cmd_Abort => 0xd2 | Cmd_BeginXact => 0xd4 | Cmd_EndXact => 0xd5
  | Cmd_BulkInsert => 0xf0 | Cmd_OpenCursor => 0x20 | Cmd_Merge => 0x117
  end.

(** [TryFrom<u16> for CurrentCommand], which never fails. *)
Definition CurrentCommand_try_from (value : Z) : CurrentCommand :=
  match value with
  | 0xc1 => Cmd_Select | 0xc3 => Cmd_Insert | 0xc4 => Cmd_Delete | 0xc5 => Cmd_Update
  | 0xd2 => Cmd_Abort | 0xd4 => Cmd_BeginXact | 0xd5 => Cmd_EndXact | 0xf0 => Cmd_BulkInsert
  | 0x20 => Cmd_OpenCursor | 0x117 => Cmd_Merge
  | _ => Cmd_None
  end.

Record DoneToken := { status : Z; cur_cmd : CurrentCommand; row_count : Z }.

Definition has_more (t : DoneToken) : bool := has_bit (status t) DONE_MORE.
Definition has_error (t : DoneToken) : bool := has_bit (status t) DONE_ERROR.
Definition has_count (t : DoneToken) : bool := has_bit (status t) DONE_COUNT.

(** ** ERROR and INFO, RETURNSTATUS, ORDER, SSPI, FEDAUTHINFO *)

(** [ErrorToken] and [InfoToken] have the same fields. *)
Record ServerMessage := {
  number : Z;
  state : Z;
  severity : Z;
  message_text : str;
  server_name : str;
  proc_name : str;
  line_number : Z;
}.

Record FedAuthInfoToken := { spn : str; sts_url : str }.

Inductive FedAuthInfoId := FA_SPN | FA_STSUrl | FA_Unknown (v : Z).

Definition FedAuthInfoId_from (v : Z) : FedAuthInfoId :=
  match v with
  | 0x02 => FA_SPN
  | 0x01 => FA_STSUrl
  | _ => FA_Unknown v
  end.

(** ** LOGINACK *)

Inductive SqlInterfaceType := Interface_Default | Interface_TSql | Interface_Unknown (v : Z).

Definition SqlInterfaceType_try_from (value : Z) : SqlInterfaceType :=
  match value with
  | 0 => Interface_Default
  | 1 => Interface_TSql
  | unknown => Interface_Unknown unknown
  end.

Definition SqlInterfaceType_u8 (t : SqlInterfaceType) : Z :=
  match t with
  | Interface_Default => 0
  | Interface_TSql => 1
  | Interface_Unknown v => v
  end.

(** [TdsVersion] (message/login_options.rs). *)
Inductive TdsVersion := V7_4 | V8_0 | Version_Unknown (v : Z).

Definition TdsVersion_from (value : Z) : TdsVersion :=
  match value with
  | 0x74000004 => V7_4
  | 0x08000000 => V8_0
  | _ => Version_Unknown value
  end.

Definition TdsVersion_u32 (v : TdsVersion) : Z :=
  match v with
  | V7_4 => 0x74000004
  | V8_0 => 0x08000000
  | Version_Unknown v => as_u32 v
  end.

Record LoginAckToken := {
  interface_type : SqlInterfaceType;
  tds_version : TdsVersion;
  prog_name : str;
  prog_version : Version;
}.

(** ** FEATUREEXTACK and SESSIONSTATE *)

(** [FeatureExtension] (message/login.rs). *)
Inductive FeatureExtension :=
  | SRecovery | FedAuth | AlwaysEncrypted | GlobalTransactions | AzureSqlSupport
  | DataClassification | Utf8Support | SqlDnsCaching | Json | Vector | EnhancedRouting | UserAgent
  | Terminator | Feature_Unknown (v : Z).

#[global] Instance FeatureExtension_eq : EqDecision FeatureExtension.
Proof. solve_decision. Defined.

Definition FeatureExtension_u8 (f : FeatureExtension) : Z :=
  match f with
  | SRecovery => 0x01 | FedAuth => 0x02 | AlwaysEncrypted => 0x04 | GlobalTransactions => 0x05
  | AzureSqlSupport => 0x08 | DataClassification => 0x09 | Utf8Support => 0x0A
  | SqlDnsCaching => 0x0B | Json => 0x0D | Vector => 0x0E | EnhancedRouting => 0x0F
  | UserAgent => 0x10 | Terminator => 0xFF
  | Feature_Unknown value => value
  end.

Definition FeatureExtension_from (value : Z) : FeatureExtension :=
  match value with
  | 0x01 => SRecovery | 0x02 => FedAuth | 0x04 => AlwaysEncrypted | 0x05 => GlobalTransactions
  | 0x08 => AzureSqlSupport | 0x09 => DataClassification | 0x0A => Utf8Support
  | 0x0B => SqlDnsCaching | 0x0D => Json | 0x0E => Vector | 0x0F => EnhancedRouting
  | 0x10 => UserAgent | 0xFF => Terminator
  | _ => Feature_Unknown value
  end.

Record SessionStateEntry := { state_id : Z; recoverable : bool; data : bytes }.

Record SessionStateToken := {
  sequence_number : Z;
  ss_status : Z;
  states : list SessionStateEntry;
}.

(** ** ENVCHANGE *)

Inductive EnvChangeTokenSubType :=
  | Env_Database | Env_Language | Env_CharacterSet | Env_PacketSize
  | Env_UnicodeDataSortingLocalId | Env_UnicodeDataSortingComparisonFlags | Env_SqlCollation
  | Env_BeginTransaction | Env_CommitTransaction | Env_RollbackTransaction
  | Env_EnlistDtcTransaction | Env_DefectTransaction | Env_DatabaseMirroringPartner
  | Env_PromoteTransaction | Env_TransactionManagerAddress | Env_TransactionEnded
  | Env_ResetConnection | Env_UserInstanceName | Env_Routing | Env_EnhancedRouting
  | Env_Unknown (v : Z).

#[global] Instance EnvChangeTokenSubType_eq : EqDecision EnvChangeTokenSubType.
Proof. solve_decision. Defined.

Definition EnvChangeTokenSubType_try_from (value : Z) : EnvChangeTokenSubType :=
  match value with
  | 1 => Env_Database | 2 => Env_Language | 3 => Env_CharacterSet | 4 => Env_PacketSize
  | 5 => Env_UnicodeDataSortingLocalId | 6 => Env_UnicodeDataSortingComparisonFlags
  | 7 => Env_SqlCollation | 8 => Env_BeginTransaction | 9 => Env_CommitTransaction
  | 10 => Env_RollbackTransaction | 11 => Env_EnlistDtcTransaction | 12 => Env_DefectTransaction
  | 13 => Env_DatabaseMirroringPartner | 15 => Env_PromoteTransaction
  | 16 => Env_TransactionManagerAddress | 17 => Env_TransactionEnded | 18 => Env_ResetConnection
  | 19 => Env_UserInstanceName | 20 => Env_Routing | 21 => Env_EnhancedRouting
  | unknown => Env_Unknown unknown
  end.

Definition EnvChangeTokenSubType_u8 (t : EnvChangeTokenSubType) : Z :=
  match t with
  | Env_Database => 1 | Env_Language => 2 | Env_CharacterSet => 3 | Env_PacketSize => 4
  | Env_UnicodeDataSortingLocalId => 5 | Env_UnicodeDataSortingComparisonFlags => 6
  | Env_SqlCollation => 7 | Env_BeginTransaction => 8 | Env_CommitTransaction => 9
  | Env_RollbackTransaction => 10 | Env_EnlistDtcTransaction => 11 | Env_DefectTransaction => 12
  | Env_DatabaseMirroringPartner => 13 | Env_PromoteTransaction => 15
  | Env_TransactionManagerAddress => 16 | Env_TransactionEnded => 17 | Env_ResetConnection => 18
  | Env_UserInstanceName => 19 | Env_Routing => 20 | Env_EnhancedRouting => 21
  | Env_Unknown v => v
  end.

(** [SqlCollation]; [info] is read in native order, little-endian on the supported targets. *)
Record SqlCollation := { info : Z; lcid_language_id : Z; col_flags : Z; sort_id : Z }.

Definition SqlCollation_try_from (bs : bytes) : TdsResult SqlCollation :=
  match bs with
  | [b0; b1; b2; b3; b4] =>
      let i := of_le [b0; b1; b2; b3] in
      Ok {| info := i;
            lcid_language_id := as_i32 (Z.land i 0x000FFFFF);
            col_flags := as_u8 (Z.land (Z.shiftr i 20) 0xFF);
            sort_id := byte_val b4 |}
  | _ => Err (Io "InvalidData" "Invalid collation length")
  end.

Definition comparison_style (c : SqlCollation) : Z := as_u8 (Z.land (Z.shiftr (info c) 20) 0xFF).
Definition collation_version (c : SqlCollation) : Z := as_u8 (Z.shiftr (info c) 28).
Definition ignore_case (c : SqlCollation) : bool := has_bit (col_flags c) 0x1.
Definition ignore_accent (c : SqlCollation) : bool := has_bit (col_flags c) 0x2.
Definition ignore_kana (c : SqlCollation) : bool := has_bit (col_flags c) 0x4.
Definition ignore_width (c : SqlCollation) : bool := has_bit (col_flags c) 0x8.
Definition binary (c : SqlCollation) : bool := has_bit (col_flags c) 0x10.
Definition binary2 (c : SqlCollation) : bool := has_bit (col_flags c) 0x20.
Definition utf8 (c : SqlCollation) : bool := has_bit (col_flags c) 0x40.

Record RoutingInfo := { protocol : Z; port : Z; server : str; database : option str }.

(** [EnvChangeContainer]; each value is the pair (old, new). *)
Inductive EnvChangeContainer :=
  | EC_String (old new : str)
  | EC_SqlCollation (old new : option SqlCollation)
  | EC_UInt32 (old new : Z)
  | EC_RoutingType (old new : option RoutingInfo)
  | EC_BytesType (old new : bytes)
  | EC_UInt64 (old new : Z).

Record EnvChangeToken := { sub_type : EnvChangeTokenSubType; change_type : EnvChangeContainer }.

(** ** [Tokens] *)

(** The tokens whose payload is column data (ROW, NBCROW, COLMETADATA, DATACLASSIFICATION,
    RETURNVALUE) carry a value of the parameter [D]. *)
Inductive Tokens (D : Type) :=
  | T_Done (t : DoneToken)
  | T_DoneInProc (t : DoneToken)
  | T_DoneProc (t : DoneToken)
  | T_EnvChange (t : EnvChangeToken)
  | T_Error (t : ServerMessage)
  | T_Info (t : ServerMessage)
  | T_LoginAck (t : LoginAckToken)
  | T_FeatureExtAck (features : list (FeatureExtension * bytes))
  | T_FedAuthInfo (t : FedAuthInfoToken)
  | T_SessionState (t : SessionStateToken)
  | T_Sspi (data : bytes)
  | T_Order (columns : list Z)
  | T_ReturnStatus (value : Z)
  | T_TabName
  | T_ColInfo
  | T_Data (d : D).

Arguments T_Done {D}. Arguments T_DoneInProc {D}. Arguments T_DoneProc {D}.
Arguments T_EnvChange {D}. Arguments T_Error {D}. Arguments T_Info {D}. Arguments T_LoginAck {D}.
Arguments T_FeatureExtAck {D}. Arguments T_FedAuthInfo {D}. Arguments T_SessionState {D}.
Arguments T_Sspi {D}. Arguments T_Order {D}. Arguments T_ReturnStatus {D}. Arguments T_TabName {D}.
Arguments T_ColInfo {D}. Arguments T_Data {D}.

(** ** Round trips of the identifying bytes *)

Lemma TokenType_round_trip t : TokenType_try_from (TokenType_u8 t) = Ok t.
Proof. by destruct t. Qed.

Lemma CurrentCommand_round_trip c : CurrentCommand_try_from (CurrentCommand_u16 c) = c.
Proof. by destruct c. Qed.
