(* ===== verification/TokenParsers.v ===== *)
(** * The token parsers (src/mssql-tds/src/token/parsers/, src/mssql-tds/src/io/token_stream.rs)

    Each parser over any packet reader, in the order the code reads, with its length checks, and
    the dispatch on the token byte. *)

From stdpp Require Import strings.
From S2P Require Import Prelude Core Unicode PacketReader Tokens.

Section parsers.
Context {R : Type} `{ops : TdsPacketReader R}.

(** ** DONE (done_parser.rs) *)

Definition DONE_PAYLOAD_LEN : nat := 12.

Definition done_token (status command row_count : Z) : DoneToken :=
  {| status := DoneStatus_from status;
     cur_cmd := CurrentCommand_try_from command;
     row_count := row_count |}.

Definition buffered_done_token (bs : bytes) : option DoneToken :=
  if decide (DONE_PAYLOAD_LEN <= length bs)%nat then
    Some (done_token (of_le (slice 0 2 bs)) (of_le (slice 2 4 bs)) (of_le (slice 4 12 bs)))
  else None.

(** [read_done_token]: from the buffer when it is all there, else field by field. *)
Definition read_done_token : M R DoneToken :=
  o <- try_read_slice DONE_PAYLOAD_LEN ;;
  match o with
  | Some bs =>
      match buffered_done_token bs with
      | Some t => ret t
      | None => throw (ProtocolError "Buffered DONE payload is incomplete")
      end
  | None =>
      status <- read_uint16 ;;
      command <- read_uint16 ;;
      row_count <- read_uint64 ;;
      ret (done_token status command row_count)
  end.

(** ** ERROR and INFO (error_parser.rs, info_parser.rs) *)

Definition parse_server_message : M R ServerMessage :=
  _ <- read_uint16 ;;
  number <- read_uint32 ;;
  state <- read_byte ;;
  severity <- read_byte ;;
  message <- read_varchar_u16_length ;;
  server_name <- read_varchar_u8_length ;;
  proc_name <- read_varchar_u8_length ;;
  line_number <- read_uint32 ;;
  ret {| number := number; state := state; severity := severity;
         message_text := default [] message; server_name := server_name;
         proc_name := proc_name; line_number := line_number |}.

(** INFO has the fields of ERROR, read in the same order. *)
Definition parse_info : M R ServerMessage := parse_server_message.

(** ** RETURNSTATUS, ORDER, SSPI, TABNAME and COLINFO *)

Definition RETURN_STATUS_PAYLOAD_LEN : nat := 4.

Definition read_return_status : M R Z :=
  o <- try_read_slice RETURN_STATUS_PAYLOAD_LEN ;;
  match o with
  | Some bs => ret (of_le_signed (slice 0 4 bs))
  | None => read_int32
  end.

(** [for _ in 0..n { v.push(m?) }] *)
Fixpoint repeat_read {A} (n : nat) (m : M R A) : M R (list A) :=
  match n with
  | O => ret []
  | S n => x <- m ;; xs <- repeat_read n m ;; ret (x :: xs)
  end.

Definition parse_order : M R (list Z) :=
  length <- read_uint16 ;;
  repeat_read (Z.to_nat (length / 2)) read_uint16.

Definition parse_sspi : M R bytes :=
  length <- read_uint16 ;;
  if 0 <? length then read_bytes (Z.to_nat length) else ret [].

(** TABNAME and COLINFO are skipped. *)
Definition parse_skipped : M R unit :=
  length <- read_uint16 ;; skip_bytes (Z.to_nat length).

Definition parse_tab_name : M R unit := parse_skipped.

(** ** LOGINACK (loginack_parser.rs) *)

Definition parse_login_ack : M R LoginAckToken :=
  _ <- read_uint16 ;;
  interface <- read_byte ;;
  version <- read_int32_big_endian ;;
  prog_name <- read_varchar_u8_length ;;
  major <- read_byte ;;
  minor <- read_byte ;;
  build_hi <- read_byte ;;
  build_low <- read_byte ;;
  ret {| interface_type := SqlInterfaceType_try_from interface;
         tds_version := TdsVersion_from version;
         prog_name := prog_name;
         prog_version := {| major := major; minor := minor;
                            build := Z.lor (Z.shiftl build_hi 8) build_low; revision := 0 |} |}.

(** ** FEATUREEXTACK (featureext_parser.rs) *)

Definition MAX_ALLOWED_FE_DATA_IN_BYTES : Z := 1024.
Definition feature_data_too_large : Error := ProtocolError "FeatureExtAck data length too large".

(** The loop ends at the terminator; [fuel] bounds the features read. *)
Fixpoint parse_features (fuel : nat) (features : list (FeatureExtension * bytes))
    : M R (list (FeatureExtension * bytes)) :=
  match fuel with
  | O => out_of_fuel
  | S fuel =>
      id <- read_byte ;;
      let feature := FeatureExtension_from id in
      if decide (feature = Terminator) then ret features
      else
        data_length <- read_uint32 ;;
        if MAX_ALLOWED_FE_DATA_IN_BYTES <? data_length then throw feature_data_too_large
        else
          buffer <- (if 0 <? data_length then read_bytes (Z.to_nat data_length) else ret []) ;;
          parse_features fuel (features ++ [(feature, buffer)])
  end.

(** ** SESSIONSTATE (session_state_parser.rs) *)

Definition MAX_SESSION_STATE_TOKEN_BYTES : Z := 1024 * 1024.

Definition session_state_error (what : string) : Error := ProtocolError ("SESSIONSTATE" +:+ what).

(** The [while bytes_read < total_length] loop; each turn reads at least two bytes. *)
Fixpoint parse_states (fuel : nat) (total_length bytes_read status : Z)
    (acc : list SessionStateEntry) : M R (list SessionStateEntry) :=
  match fuel with
  | O => out_of_fuel
  | S fuel =>
      if bytes_read <? total_length then
        if total_length <? bytes_read + 1 then throw (session_state_error ": unexpected end of token reading state_id")
        else
        state_id <- read_byte ;;
        let bytes_read := bytes_read + 1 in
        if total_length <? bytes_read + 1 then throw (session_state_error ": unexpected end of token reading state_len")
        else
        len_byte <- read_byte ;;
        let bytes_read := bytes_read + 1 in
        ' (bytes_read, state_len) <-
          (if len_byte =? 0xFF then
             if total_length <? bytes_read + 4 then throw (session_state_error ": unexpected end of token reading extended state_len")
             else extended_len <- read_uint32 ;; ret (bytes_read + 4, extended_len)
           else ret (bytes_read, len_byte)) ;;
        let remaining := total_length - bytes_read in
        if remaining <? state_len then throw (session_state_error ": state data length exceeds remaining token bytes")
        else
        data <- (if 0 <? state_len then read_bytes (Z.to_nat state_len) else ret []) ;;
        parse_states fuel total_length (bytes_read + state_len) status
          (acc ++ [{| state_id := state_id; recoverable := negb (Z.land status 1 =? 0);
                      data := data |}])
      else ret acc
  end.

Definition parse_session_state : M R SessionStateToken :=
  total_length <- read_uint32 ;;
  if MAX_SESSION_STATE_TOKEN_BYTES <? total_length then throw (session_state_error " token length too large")
  else if total_length <? 5 then throw (session_state_error " token too short")
  else
  sequence_number <- read_uint32 ;;
  status <- read_byte ;;
  states <- parse_states (Z.to_nat total_length) total_length 5 status [] ;;
  ret {| sequence_number := sequence_number; ss_status := status; states := states |}.

(** ** ENVCHANGE (envchange_parser.rs) *)

Definition MAX_ALTERNATE_SERVER_CHARS : nat := 1024.
Definition MAX_ALTERNATE_DATABASE_CHARS : nat := 128.

Definition malformed_routing (detail : string) : Error :=
  ProtocolError ("Malformed Routing ENVCHANGE: " +:+ detail).

(** [split_us_varchar]: a non-empty counted string off the front. *)
Definition split_us_varchar (bs : bytes) (field : string) (max_chars : nat)
    : TdsResult (str * bytes) :=
  if decide (2 <= length bs)%nat then
    let chars := Z.to_nat (of_le (take 2 bs)) in
    let rest := drop 2 bs in
    if decide (chars = 0 \/ max_chars < chars)%nat
    then Err (malformed_routing (field +:+ " length is out of range"))
    else if decide (chars * 2 <= length rest)%nat then
      match from_utf16 (default [] (le_units (take (chars * 2) rest))) with
      | Some value => Ok (value, drop (chars * 2) rest)
      | None => Err (malformed_routing (field +:+ " is not valid UTF-16"))
      end
    else Err (malformed_routing ("truncated " +:+ field))
  else Err (malformed_routing ("truncated " +:+ field +:+ " length")).

Definition parse_routing_data (bs : bytes) (enhanced : bool) : TdsResult RoutingInfo :=
  match bs with
  | protocol :: port_low :: port_high :: rest =>
      let? ' (server, rest) := split_us_varchar rest "alternate server" MAX_ALTERNATE_SERVER_CHARS in
      let? ' (database, rest) :=
        (if enhanced then
           let? ' (database, rest) :=
             split_us_varchar rest "alternate database" MAX_ALTERNATE_DATABASE_CHARS in
           Ok (Some database, rest)
         else Ok (None, rest)) in
      if decide (rest <> []) then Err (malformed_routing "trailing routing data")
      else if negb (byte_val protocol =? 0) then Err (malformed_routing "protocol is not TCP")
      else
        let port := of_le [port_low; port_high] in
        if port =? 0 then Err (malformed_routing "port 0")
        else Ok {| protocol := byte_val protocol; port := port; server := server;
                   database := database |}
  | _ => Err (malformed_routing "truncated protocol and port")
  end.

(** [str::parse::<u32>]: an optional plus sign, then digits, within the range. *)
Fixpoint parse_digits (acc : Z) (s : str) : option Z :=
  match s with
  | [] => Some acc
  | c :: s =>
      if (48 <=? c) && (c <=? 57) then
        let acc := acc * 10 + (c - 48) in
        if acc <? 2 ^ 32 then parse_digits acc s else None
      else None
  end.

Definition parse_u32 (s : str) : option Z :=
  match s with
  | [] => None
  | [43] => None
  | 43 :: s => parse_digits 0 s
  | s => parse_digits 0 s
  end.

Definition invalid_data (what : string) : Error := Io "InvalidData" what.

Definition not_implemented (feature : string) : Error :=
  UnimplementedFeature feature "EnvChange token parsing not yet implemented".

(** A transaction descriptor that must be [n] bytes long: eight for a value, none for zero. *)
Definition descriptor (n : nat) (bs : bytes) (error : Error) : TdsResult Z :=
  if decide (length bs = n) then Ok (of_le bs) else Err error.

Definition new_descriptor_error : Error := invalid_data "Invalid new transaction descriptor".
Definition old_descriptor_error : Error := invalid_data "Invalid old transaction descriptor".

Definition read_string_change : M R EnvChangeContainer :=
  new_value <- read_varchar_u8_length ;;
  old_value <- read_varchar_u8_length ;;
  ret (EC_String old_value new_value).

(** The transaction changes: the new value is read and checked before the old one is read. *)
Definition read_transaction_change (new_len old_len : nat) (old_error : Error)
    : M R EnvChangeContainer :=
  new_value <- read_u8_varbyte ;;
  new_descriptor <- lift (descriptor new_len new_value new_descriptor_error) ;;
  old_value <- read_u8_varbyte ;;
  old_descriptor <- lift (descriptor old_len old_value old_error) ;;
  ret (EC_UInt64 old_descriptor new_descriptor).

Definition collation_of (bs : bytes) : option SqlCollation :=
  if decide (length bs = 5%nat) then
    match SqlCollation_try_from bs with Ok c => Some c | _ => None end
  else None.

Definition read_routing (token_length : Z) (enhanced : bool) : M R EnvChangeContainer :=
  if token_length <? 5 then throw (malformed_routing "truncated routing length fields")
  else
  routing_data_length <- read_uint16 ;;
  if negb (token_length =? 1 + 2 + routing_data_length + 2)
  then throw (malformed_routing "token length does not match routing data length")
  else
  routing_data <- read_bytes (Z.to_nat routing_data_length) ;;
  old <- read_uint16 ;;
  if negb (old =? 0) then throw (malformed_routing "non-empty old value")
  else
  routing_info <- lift (parse_routing_data routing_data enhanced) ;;
  ret (EC_RoutingType None (Some routing_info)).

Definition parse_env_change_value (token_length : Z) (sub : EnvChangeTokenSubType)
    : M R EnvChangeContainer :=
  match sub with
  | Env_Database | Env_Language | Env_CharacterSet => read_string_change
  | Env_PacketSize =>
      new_value_string <- read_varchar_u8_length ;;
      old_value_string <- read_varchar_u8_length ;;
      match parse_u32 new_value_string with
      | None => throw (invalid_data "Invalid new packet size")
      | Some new_value =>
          match parse_u32 old_value_string with
          | None => throw (invalid_data "Invalid old packet size")
          | Some old_value => ret (EC_UInt32 old_value new_value)
          end
      end
  | Env_UnicodeDataSortingLocalId => throw (not_implemented "UnicodeDataSortingLocalId")
  | Env_UnicodeDataSortingComparisonFlags =>
      throw (not_implemented "UnicodeDataSortingComparisonFlags")
  | Env_SqlCollation =>
      new_bytes <- read_u8_varbyte ;;
      old_bytes <- read_u8_varbyte ;;
      ret (EC_SqlCollation (collation_of old_bytes) (collation_of new_bytes))
  | Env_BeginTransaction | Env_EnlistDtcTransaction =>
      read_transaction_change 8 0 old_descriptor_error
  | Env_CommitTransaction | Env_RollbackTransaction =>
      read_transaction_change 0 8 old_descriptor_error
  | Env_DefectTransaction =>
      read_transaction_change 8 0 (ProtocolError "Invalid old transaction descriptor")
  | Env_DatabaseMirroringPartner => read_string_change
  | Env_PromoteTransaction => throw (not_implemented "PromoteTransaction")
  | Env_TransactionManagerAddress => throw (not_implemented "TransactionManagerAddress")
  | Env_TransactionEnded => throw (not_implemented "TransactionEnded")
  | Env_ResetConnection =>
      new_value <- read_u8_varbyte ;;
      old_value <- read_u8_varbyte ;;
      ret (EC_BytesType old_value new_value)
  | Env_UserInstanceName => throw (not_implemented "UserInstanceName")
  | Env_Routing => read_routing token_length false
  | Env_EnhancedRouting => read_routing token_length true
  | Env_Unknown _ => read_string_change
  end.

Definition parse_env_change : M R EnvChangeToken :=
  token_length <- read_uint16 ;;
  sub <- read_byte ;;
  let token_sub_type := EnvChangeTokenSubType_try_from sub in
  value <- parse_env_change_value token_length token_sub_type ;;
  ret {| sub_type := token_sub_type; change_type := value |}.

(** ** FEDAUTHINFO (fedauth_parser.rs) *)

Definition FEDAUTH_OPTIONS_SIZE : Z := 9.
Definition MAX_TOKEN_DATA_SIZE : Z := 1024 * 1024.

Definition fedauth_error (what : string) : Error := ProtocolError ("FedAuthInfo: " +:+ what).

(** [slice.get(a..b)]. *)
Definition get_range (a b : Z) (bs : bytes) : option bytes :=
  if decide (0 <= a <= b /\ b <= Z.of_nat (length bs)) then
    Some (slice (Z.to_nat a) (Z.to_nat b) bs)
  else None.

(** [token_data[i]]. *)
Definition index_byte (i : Z) (bs : bytes) : TdsResult Z :=
  match bs !! Z.to_nat i with
  | Some b => Ok (byte_val b)
  | None => Panic "index out of bounds"
  end.

(** [.ok_or_else(..)?] *)
Definition ok_or {A} (o : option A) (e : Error) : TdsResult A :=
  match o with Some a => Ok a | None => Err e end.

(** One option header and the string it points at. *)
Definition parse_fedauth_option (token_data : bytes) (i : Z) : TdsResult (Z * str) :=
  let current_options_offset := as_u32 (i * FEDAUTH_OPTIONS_SIZE) in
  let? option_id := index_byte current_options_offset token_data in
  let? length_slice := ok_or (get_range (current_options_offset + 1) (current_options_offset + 5) token_data)
    (invalid_data "FedAuth option data length out of bounds") in
  let option_data_length := of_le length_slice in
  let? offset_slice := ok_or (get_range (current_options_offset + 5) (current_options_offset + 9) token_data)
    (invalid_data "FedAuth option offset out of bounds") in
  let option_data_offset_raw := of_le offset_slice in
  if option_data_offset_raw <? 4 then Err (invalid_data "FedAuth option offset too small (underflow)")
  else
  let option_data_offset := option_data_offset_raw - 4 in
  let string_end := option_data_offset + option_data_length in
  let? string_bytes := ok_or (get_range option_data_offset string_end token_data)
    (invalid_data "FedAuth string data out of bounds") in
  let u16_slice := default [] (le_units (take (length string_bytes / 2 * 2) string_bytes)) in
  let? value := ok_or (from_utf16 u16_slice) (invalid_data "Invalid UTF-16 sequence") in
  Ok (option_id, value).

(** The [match] on the option's kind. *)
Definition set_fedauth_option (acc : FedAuthInfoToken) (option_id : Z) (value : str)
    : FedAuthInfoToken :=
  match FedAuthInfoId_from option_id with
  | FA_STSUrl => {| spn := spn acc; sts_url := value |}
  | FA_SPN => {| spn := value; sts_url := sts_url acc |}
  | FA_Unknown _ => acc
  end.

Fixpoint parse_fedauth_options (token_data : bytes) (n : nat) (i : Z) (acc : FedAuthInfoToken)
    : TdsResult FedAuthInfoToken :=
  match n with
  | O => Ok acc
  | S n =>
      let? ' (option_id, value) := parse_fedauth_option token_data i in
      parse_fedauth_options token_data n (i + 1) (set_fedauth_option acc option_id value)
  end.

Definition parse_fed_auth_info : M R FedAuthInfoToken :=
  length_ <- read_int32 ;;
  options_count <- read_uint32 ;;
  let data_left := length_ - 4 in
  if data_left <? - 2 ^ 31 then throw (fedauth_error "token length would overflow")
  else if negb ((0 <=? data_left) && (data_left <=? MAX_TOKEN_DATA_SIZE))
  then throw (fedauth_error "invalid token data size")
  else
  let required_size := options_count * FEDAUTH_OPTIONS_SIZE in
  if 2 ^ 32 <=? required_size then throw (fedauth_error "options_count overflow")
  else if data_left <? as_i32 required_size then throw (fedauth_error "options_count requires more bytes")
  else
  token_data <- read_bytes (Z.to_nat data_left) ;;
  if as_u32 (Z.of_nat (length token_data)) <? required_size
  then throw (fedauth_error "token data is less than required size")
  else lift (parse_fedauth_options token_data (Z.to_nat options_count) 0
               {| spn := []; sts_url := [] |}).

(** ** Dispatch (token_stream.rs) *)

(** [M::map]. *)
Definition map_token {A B} (f : A -> B) (m : M R A) : M R B := a <- m ;; ret (f a).

(** [dispatch_token] with the default registry; [parse_data] parses the tokens that carry column
    data, [fuel] bounds the FEATUREEXTACK loop. *)
Definition dispatch_token {D} (fuel : nat) (parse_data : TokenType -> M R D) (token_type : TokenType)
    : M R (Tokens D) :=
  match token_type with
  | TT_EnvChange => map_token T_EnvChange parse_env_change
  | TT_LoginAck => map_token T_LoginAck parse_login_ack
  | TT_Done => map_token T_Done read_done_token
  | TT_DoneInProc => map_token T_DoneInProc read_done_token
  | TT_DoneProc => map_token T_DoneProc read_done_token
  | TT_Info => map_token T_Info parse_info
  | TT_Error => map_token T_Error parse_server_message
  | TT_FedAuthInfo => map_token T_FedAuthInfo parse_fed_auth_info
  | TT_FeatureExtAck => map_token T_FeatureExtAck (parse_features fuel [])
  | TT_Order => map_token T_Order parse_order
  | TT_ReturnStatus => map_token T_ReturnStatus read_return_status
  | TT_SessionState => map_token T_SessionState parse_session_state
  | TT_TabName => map_token (fun _ => T_TabName) parse_tab_name
  | TT_ColInfo => map_token (fun _ => T_ColInfo) parse_skipped
  | TT_SSPI => map_token T_Sspi parse_sspi
  | TT_ColMetadata | TT_DataClassification | TT_Row | TT_NbcRow | TT_ReturnValue =>
      map_token T_Data (parse_data token_type)
  | TT_AltMetadata | TT_AltRow | TT_Offset => throw (no_parser_error token_type)
  end.

Definition receive_token_internal {D} (fuel : nat) (parse_data : TokenType -> M R D)
    : M R (Tokens D) :=
  token_type_byte <- read_byte ;;
  token_type <- lift (TokenType_try_from token_type_byte) ;;
  dispatch_token fuel parse_data token_type.

(** [buffered_control_token]: a complete control token in the buffer, with its size. *)
Definition buffered_control_token {D} (bs : bytes) : option (Tokens D * nat) :=
  match bs with
  | [] => None
  | kind :: payload =>
      if decide (byte_val kind = TokenType_u8 TT_Done) then
        (fun t => (T_Done t, (1 + DONE_PAYLOAD_LEN)%nat)) <$> buffered_done_token payload
      else if decide (byte_val kind = TokenType_u8 TT_DoneProc) then
        (fun t => (T_DoneProc t, (1 + DONE_PAYLOAD_LEN)%nat)) <$> buffered_done_token payload
      else if decide (byte_val kind = TokenType_u8 TT_DoneInProc) then
        (fun t => (T_DoneInProc t, (1 + DONE_PAYLOAD_LEN)%nat)) <$> buffered_done_token payload
      else if decide (byte_val kind = TokenType_u8 TT_ReturnStatus) then
        if decide (RETURN_STATUS_PAYLOAD_LEN <= length payload)%nat then
          Some (T_ReturnStatus (of_le_signed (slice 0 4 payload)), (1 + RETURN_STATUS_PAYLOAD_LEN)%nat)
        else None
      else None
  end.

End parsers.
