(* ===== verification/TokenLaws.v ===== *)
(** * The token parsers read back what the protocol lays out

    The layout of each control token with a fixed shape, and for each its parser, over any
    reader that keeps the packet-reader laws: it consumes exactly those bytes and returns the
    token.  The tokens whose shape depends on their content are in TokenLayouts. *)

From stdpp Require Import strings.
From S2P Require Import Prelude Core Unicode PacketReader Tokens TokenParsers.

(** ** Layouts *)

(** Text with a one-byte or a two-byte count of units. *)
Definition b_varchar (s : str) : bytes :=
  byte_of (Z.of_nat (length (utf16 s))) :: units_le (utf16 s).
Definition us_varchar (s : str) : bytes :=
  le_bytes 2 (Z.of_nat (length (utf16 s))) ++ units_le (utf16 s).
Definition b_varbyte (bs : bytes) : bytes := byte_of (Z.of_nat (length bs)) :: bs.

Definition short_str (s : str) : Prop := str_wf s /\ Z.of_nat (length (utf16 s)) < 256.
Definition long_str (s : str) : Prop := str_wf s /\ Z.of_nat (length (utf16 s)) < 65535.

Definition encode_done (t : DoneToken) : bytes :=
  le_bytes 2 (status t) ++ le_bytes 2 (CurrentCommand_u16 (cur_cmd t)) ++ le_bytes 8 (row_count t).

Definition done_wf (t : DoneToken) : Prop :=
  in_unsigned 16 (status t) /\ DoneStatus_from (status t) = status t /\
  in_unsigned 64 (row_count t).

Definition encode_message (t : ServerMessage) : bytes :=
  let body := le_bytes 4 (number t) ++ [byte_of (state t)] ++ [byte_of (severity t)] ++
    us_varchar (message_text t) ++ b_varchar (server_name t) ++ b_varchar (proc_name t) ++
    le_bytes 4 (line_number t) in
  le_bytes 2 (Z.of_nat (length body)) ++ body.

Definition message_wf (t : ServerMessage) : Prop :=
  in_unsigned 32 (number t) /\ 0 <= state t < 256 /\ 0 <= severity t < 256 /\
  long_str (message_text t) /\ short_str (server_name t) /\ short_str (proc_name t) /\
  in_unsigned 32 (line_number t).

Definition encode_login_ack (t : LoginAckToken) : bytes :=
  let body := [byte_of (SqlInterfaceType_u8 (interface_type t))] ++
    be_bytes 4 (TdsVersion_u32 (tds_version t)) ++ b_varchar (prog_name t) ++
    [byte_of (major (prog_version t))] ++ [byte_of (minor (prog_version t))] ++
    [byte_of (build (prog_version t) / 256)] ++ [byte_of (build (prog_version t) mod 256)] in
  le_bytes 2 (Z.of_nat (length body)) ++ body.

Definition login_ack_wf (t : LoginAckToken) : Prop :=
  0 <= SqlInterfaceType_u8 (interface_type t) < 256 /\
  SqlInterfaceType_try_from (SqlInterfaceType_u8 (interface_type t)) = interface_type t /\
  (exists v, in_signed 32 v /\ TdsVersion_u32 (tds_version t) = as_u32 v /\
             TdsVersion_from v = tds_version t) /\
  short_str (prog_name t) /\
  0 <= major (prog_version t) < 256 /\ 0 <= minor (prog_version t) < 256 /\
  in_unsigned 16 (build (prog_version t)) /\ revision (prog_version t) = 0.

Definition encode_feature (f : FeatureExtension * bytes) : bytes :=
  [byte_of (FeatureExtension_u8 (fst f))] ++ le_bytes 4 (Z.of_nat (length (snd f))) ++ snd f.

Definition feature_wf (f : FeatureExtension * bytes) : Prop :=
  0 <= FeatureExtension_u8 (fst f) < 256 /\
  FeatureExtension_from (FeatureExtension_u8 (fst f)) = fst f /\ fst f <> Terminator /\
  Z.of_nat (length (snd f)) <= MAX_ALLOWED_FE_DATA_IN_BYTES.

Definition encode_state (e : SessionStateEntry) : bytes :=
  [byte_of (state_id e)] ++
  (if Z.of_nat (length (data e)) <? 0xFF then [byte_of (Z.of_nat (length (data e)))]
   else [byte_of 0xFF] ++ le_bytes 4 (Z.of_nat (length (data e)))) ++ data e.

Definition encode_states (es : list SessionStateEntry) : bytes := concat (encode_state <$> es).

Definition encode_session_state (t : SessionStateToken) : bytes :=
  let entries := encode_states (states t) in
  le_bytes 4 (5 + Z.of_nat (length entries)) ++ le_bytes 4 (sequence_number t) ++
  [byte_of (ss_status t)] ++ entries.

Definition state_wf (status : Z) (e : SessionStateEntry) : Prop :=
  0 <= state_id e < 256 /\ recoverable e = negb (Z.land status 1 =? 0).

Definition session_state_wf (t : SessionStateToken) : Prop :=
  in_unsigned 32 (sequence_number t) /\ 0 <= ss_status t < 256 /\
  Forall (state_wf (ss_status t)) (states t) /\
  5 + Z.of_nat (length (encode_states (states t))) <= MAX_SESSION_STATE_TOKEN_BYTES.

(** ** Automation *)

Ltac reads_field := eapply reads_bind; [solve [eauto with reads]|].

Section laws.
Context {R : Type} {delivers : R -> bytes -> Prop} `{laws : PacketReaderLaws R delivers}.

Lemma reads_b_varchar s : short_str s -> reads delivers read_varchar_u8_length (b_varchar s) s.
Proof. intros [? ?]. by apply reads_varchar_u8. Qed.

Lemma reads_us_varchar s :
  long_str s -> reads delivers read_varchar_u16_length (us_varchar s) (Some s).
Proof. intros [? ?]. by apply reads_varchar_u16. Qed.

Lemma reads_b_varbyte bs :
  (length bs < 256)%nat -> reads delivers read_u8_varbyte (b_varbyte bs) bs.
Proof. apply reads_u8_varbyte. Qed.

Lemma reads_final {A B} (m : M R A) (f : A -> B) bs a b :
  reads delivers m bs a -> f a = b -> reads delivers (bind m (fun x => ret (f x))) bs b.
Proof. intros ? <-. by apply reads_bind_ret. Qed.

(** A read through [try_read_slice] with a slower path: both give the value. *)
Lemma reads_try {A} n (fast : bytes -> M R A) (slow : M R A) bs a :
  length bs = n -> (forall r, fast bs r = (Ok a, r)) -> reads delivers slow bs a ->
  reads delivers (o <- try_read_slice n ;;
                  match o with Some bs => fast bs | None => slow end) bs a.
Proof.
  intros Hl Hf Hs r more Hd. destruct (law_try_slice n bs r more Hl Hd) as [(r' & E & Hd')|E];
    rewrite (bind_ok _ _ _ _ _ E).
  - exists r'. by rewrite Hf.
  - by apply Hs.
Qed.
End laws.

#[export] Hint Resolve reads_b_varchar reads_us_varchar reads_b_varbyte : reads.

Section tokens.
Context {R : Type} {delivers : R -> bytes -> Prop} `{laws : PacketReaderLaws R delivers}.

(** ** DONE and RETURNSTATUS *)

Lemma command_range c : in_unsigned 16 (CurrentCommand_u16 c).
Proof. by destruct c. Qed.

Lemma buffered_done_app a b c :
  length a = 2%nat -> length b = 2%nat -> length c = 8%nat ->
  buffered_done_token (a ++ b ++ c) = Some (done_token (of_le a) (of_le b) (of_le c)).
Proof.
  intros Ha Hb Hc. unfold buffered_done_token, slice.
  rewrite decide_True by (unfold DONE_PAYLOAD_LEN; solve_len).
  rewrite drop_0, take_app_length' by lia. do 2 f_equal.
  - rewrite drop_app_length', take_app_length' by lia. done.
  - rewrite app_assoc, drop_app_length', firstn_all2 by solve_len. done.
Qed.

Lemma done_token_id t :
  done_wf t -> done_token (status t) (CurrentCommand_u16 (cur_cmd t)) (row_count t) = t.
Proof.
  intros (_ & Hd & _). unfold done_token. rewrite Hd, CurrentCommand_round_trip. by destruct t.
Qed.

Lemma buffered_done t : done_wf t -> buffered_done_token (encode_done t) = Some t.
Proof.
  intros Hwf. pose proof Hwf as (? & ? & ?). unfold encode_done.
  rewrite buffered_done_app, !of_le_unsigned, done_token_id
    by (done || apply length_le_bytes || apply command_range). done.
Qed.

Lemma reads_done t : done_wf t -> reads delivers read_done_token (encode_done t) t.
Proof.
  intros Hwf. pose proof Hwf as (Hs & Hd & Hr). unfold read_done_token. apply reads_try.
  - unfold encode_done, DONE_PAYLOAD_LEN. solve_len.
  - intros r. by rewrite buffered_done.
  - unfold encode_done. reads_field. eapply reads_bind; [apply reads_uint16, command_range|].
    eapply reads_final; [by apply reads_uint64|by apply done_token_id].
Qed.

Lemma reads_return_status v :
  in_signed 32 v -> reads delivers read_return_status (le_bytes 4 v) v.
Proof.
  intros Hv. unfold read_return_status. apply reads_try; [apply length_le_bytes| |by apply reads_int32].
  intros r. unfold ret. do 2 f_equal. unfold slice.
  rewrite drop_0, firstn_all2 by (rewrite length_le_bytes; lia).
  apply of_le_signed_le_bytes; [lia|done].
Qed.

(** ** ERROR and INFO *)

Lemma reads_any_uint16 z {A} (m : M R A) bs a :
  reads delivers m bs a -> reads delivers (_ <- read_uint16 ;; m) (le_bytes 2 z ++ bs) a.
Proof.
  intros Hm. eapply reads_bind; [|done]. eapply reads_fixed_at; [apply law_uint16| |done].
  apply length_le_bytes.
Qed.

Lemma reads_message t : message_wf t -> reads delivers parse_server_message (encode_message t) t.
Proof.
  intros (? & ? & ? & ? & ? & ? & ?). unfold parse_server_message, encode_message.
  apply reads_any_uint16. do 6 reads_field.
  eapply reads_final; [eauto with reads|by destruct t].
Qed.

(** ** ORDER, SSPI, TABNAME and COLINFO *)

Lemma reads_repeat {A} (m : M R A) (enc : A -> bytes) xs :
  Forall (fun x => reads delivers m (enc x) x) xs ->
  reads delivers (repeat_read (length xs) m) (concat (enc <$> xs)) xs.
Proof.
  induction 1 as [|x xs Hx _ IH]; cbn [repeat_read length]; [apply reads_ret|].
  eapply reads_bind; [done|]. by apply (reads_final _ (cons x)) with xs.
Qed.

Lemma reads_order cols :
  Forall (in_unsigned 16) cols -> 2 * Z.of_nat (length cols) < 65536 ->
  reads delivers parse_order (le_bytes 2 (2 * Z.of_nat (length cols)) ++ concat (le_bytes 2 <$> cols)) cols.
Proof.
  intros Hc Hl. eapply reads_bind; [apply reads_uint16; split; lia|].
  rewrite Z.mul_comm, Z.div_mul, Nat2Z.id by lia. apply reads_repeat.
  eapply List.Forall_impl; [|exact Hc]. intros. by apply reads_uint16.
Qed.

(** A counted run of bytes read only if it is not empty. *)
Lemma reads_counted n bs :
  Z.of_nat (length bs) = n ->
  reads delivers (if 0 <? n then read_bytes (Z.to_nat n) else ret []) bs bs.
Proof.
  intros <-. destruct (Z.ltb_spec 0 (Z.of_nat (length bs))).
  - apply reads_bytes. lia.
  - destruct bs; [apply reads_ret|cbn in *; lia].
Qed.

Lemma reads_sspi bs :
  Z.of_nat (length bs) < 65536 ->
  reads delivers parse_sspi (le_bytes 2 (Z.of_nat (length bs)) ++ bs) bs.
Proof.
  intros Hl. eapply reads_bind; [apply reads_uint16; split; lia|]. by apply reads_counted.
Qed.

Lemma reads_skipped bs :
  Z.of_nat (length bs) < 65536 ->
  reads delivers parse_skipped (le_bytes 2 (Z.of_nat (length bs)) ++ bs) tt.
Proof.
  intros Hl. eapply reads_bind; [apply reads_uint16; split; lia|]. apply reads_skip. lia.
Qed.

(** ** LOGINACK *)

Lemma reads_int32_be_u32 v :
  in_signed 32 v -> reads delivers read_int32_big_endian (be_bytes 4 (as_u32 v)) v.
Proof.
  intros Hv. eapply reads_fixed_at; [apply law_int32_be|apply length_be_bytes|].
  unfold of_be_signed. rewrite length_be_bytes, of_be_be_bytes. unfold as_u32.
  rewrite Z.mod_mod, to_signed_mod, to_signed_id by (done || lia). done.
Qed.

Lemma build_bytes b : in_unsigned 16 b -> Z.lor (Z.shiftl (b / 256) 8) (b mod 256) = b.
Proof.
  intros [? ?]. change 256 with (2 ^ 8).
  rewrite <- (Z.land_ones b 8), <- (Z.shiftr_div_pow2 b 8) by lia. apply Z.bits_inj'. intros n Hn.
  rewrite Z.lor_spec, Z.shiftl_spec, Z.land_spec by lia. destruct (Z.lt_ge_cases n 8).
  - by rewrite (Z.testbit_neg_r _ (n - 8)), Z.ones_spec_low, andb_true_r by lia.
  - rewrite Z.shiftr_spec, Z.ones_spec_high, andb_false_r, orb_false_r by lia. f_equal. lia.
Qed.

Lemma reads_login_ack t :
  login_ack_wf t -> reads delivers parse_login_ack (encode_login_ack t) t.
Proof.
  intros (Hi & Hii & (v & Hv & Hv32 & Hvf) & ? & ? & ? & [Hb1 Hb2] & Hr).
  unfold parse_login_ack, encode_login_ack. apply reads_any_uint16.
  eapply reads_bind; [by apply reads_byte|].
  rewrite Hv32. eapply reads_bind; [by apply reads_int32_be_u32|]. do 3 reads_field.
  eapply reads_bind; [apply reads_byte; split; [apply Z.div_pos|apply Z.div_lt_upper_bound]; lia|].
  eapply reads_final; [apply reads_byte, Z.mod_pos_bound; lia|].
  rewrite Hii, Hvf, build_bytes by done. destruct t as [? ? ? [] ]. cbn in *. by subst.
Qed.

(** ** FEATUREEXTACK *)

Lemma reads_features fs : forall fuel acc,
  (length fs < fuel)%nat -> Forall feature_wf fs ->
  reads delivers (parse_features fuel acc) (concat (encode_feature <$> fs) ++ [byte_of 0xFF]) (acc ++ fs).
Proof.
  induction fs as [|[f bs] fs IH]; intros [|fuel] acc Hf Hwf; cbn in Hf; try lia; cbn [parse_features].
  - rewrite app_nil_r. apply (reads_bind _ _ [byte_of 0xFF] [] 0xFF); [by apply reads_byte|].
    apply reads_ret.
  - inversion Hwf as [|?? (Hr & Hid & Hnt & Hl) Hwf']; subst. cbn [fst snd] in *.
    cbn [fmap list_fmap concat]. rewrite <- app_assoc. unfold encode_feature at 1. cbn [fst snd].
    rewrite <- !app_assoc. eapply reads_bind; [by apply reads_byte|].
    rewrite Hid, decide_False by done. unfold MAX_ALLOWED_FE_DATA_IN_BYTES in *.
    eapply reads_bind; [apply reads_uint32; split; lia|].
    rewrite (proj2 (Z.ltb_ge _ _)) by lia.
    eapply reads_bind; [by apply reads_counted|].
    rewrite (cons_middle (f, bs) acc fs), app_assoc. apply IH; [lia|done].
Qed.

(** ** SESSIONSTATE *)

Lemma length_encode_states_cons e es :
  length (encode_states (e :: es)) = (length (encode_state e) + length (encode_states es))%nat.
Proof. unfold encode_states. cbn. by rewrite length_app. Qed.

(** The length field of an entry, in its short or extended form. *)
Definition encode_state_len (n : Z) : bytes :=
  if n <? 0xFF then [byte_of n] else [byte_of 0xFF] ++ le_bytes 4 n.

Lemma reads_state_len total br n {A} (k : Z * Z -> M R A) bs a :
  0 <= n < 2 ^ 32 -> br + 1 + Z.of_nat (length (encode_state_len n)) <= total ->
  reads delivers (k (br + 1 + Z.of_nat (length (encode_state_len n)), n)) bs a ->
  reads delivers
    (len_byte <- read_byte ;;
     p <- (if len_byte =? 0xFF then
             if total <? br + 1 + 1 + 4 then throw (session_state_error ": unexpected end of token reading extended state_len")
             else extended_len <- read_uint32 ;; ret (br + 1 + 1 + 4, extended_len)
           else ret (br + 1 + 1, len_byte)) ;; k p) (encode_state_len n ++ bs) a.
Proof.
  intros Hn Ht Hk. unfold encode_state_len in *. destruct (Z.ltb_spec n 0xFF).
  - eapply reads_bind; [apply reads_byte; lia|]. rewrite (proj2 (Z.eqb_neq _ _)) by lia.
    by apply (reads_bind _ _ [] bs (br + 1 + 1, n)); [apply reads_ret|].
  - rewrite <- app_assoc. apply (reads_bind _ _ [byte_of 0xFF] _ 0xFF); [by apply reads_byte|].
    rewrite length_app, length_le_bytes in *. cbn [length] in *.
    rewrite Z.eqb_refl, (proj2 (Z.ltb_ge _ _)) by lia.
    eapply reads_bind; [eapply reads_final; [by apply reads_uint32|reflexivity]|].
    by replace (br + 1 + 1 + 4) with (br + 1 + Z.of_nat (1 + 4)) by lia.
Qed.

Lemma reads_states status es : forall fuel total br acc,
  (length es < fuel)%nat -> Forall (state_wf status) es ->
  total = br + Z.of_nat (length (encode_states es)) -> total < 2 ^ 32 -> 0 <= br ->
  reads delivers (parse_states fuel total br status acc) (encode_states es) (acc ++ es).
Proof.
  induction es as [|e es IH]; intros [|fuel] total br acc Hf Hwf Ht Hmax Hbr; cbn in Hf; try lia;
    cbn [parse_states].
  { rewrite (proj2 (Z.ltb_ge _ _)) by (cbn in Ht; lia). rewrite app_nil_r. apply reads_ret. }
  apply Forall_cons_1 in Hwf as [[Hid Hrec] Hwf'].
  rewrite length_encode_states_cons in Ht. unfold encode_states at 1. cbn [fmap list_fmap concat].
  fold (encode_states es). unfold encode_state in *.
  change (if Z.of_nat (length (data e)) <? 255 then _ else _)
    with (encode_state_len (Z.of_nat (length (data e)))) in *.
  rewrite !length_app in Ht. cbn [length] in Ht. rewrite <- !app_assoc.
  assert (1 <= length (encode_state_len (Z.of_nat (length (data e)))))%nat as Hl.
  { unfold encode_state_len. destruct (_ <? _); cbn; lia. }
  rewrite (proj2 (Z.ltb_lt _ _)), (proj2 (Z.ltb_ge _ _)) by lia.
  eapply reads_bind; [by apply reads_byte|]. rewrite (proj2 (Z.ltb_ge _ _)) by lia.
  apply (reads_state_len total br (Z.of_nat (length (data e)))); [lia|lia|].
  rewrite (proj2 (Z.ltb_ge _ _)) by lia. eapply reads_bind; [by apply reads_counted|].
  replace (acc ++ e :: es) with ((acc ++ [e]) ++ es) by (by rewrite <- app_assoc).
  rewrite <- Hrec. destruct e as [sid rec d]. cbn [state_id data recoverable] in *.
  apply IH; [lia|done|lia|done|lia].
Qed.

Lemma length_states es : (2 * length es <= length (encode_states es))%nat.
Proof.
  induction es as [|e es IH]; [done|]. rewrite length_encode_states_cons. cbn [length].
  unfold encode_state. rewrite !length_app. destruct (_ <? _); cbn; lia.
Qed.

Lemma reads_session_state t :
  session_state_wf t -> reads delivers parse_session_state (encode_session_state t) t.
Proof.
  intros (Hseq & Hst & Hes & Hl). unfold parse_session_state, encode_session_state.
  unfold MAX_SESSION_STATE_TOKEN_BYTES in *. pose proof (length_states (states t)).
  eapply reads_bind; [apply reads_uint32; split; lia|].
  rewrite !(proj2 (Z.ltb_ge _ _)) by lia. do 2 reads_field.
  eapply reads_final; [apply reads_states; [lia|done|lia|lia|lia]|]. by destruct t.
Qed.
End tokens.
