(* ===== verification/TokenLayouts.v ===== *)
(** * Token layouts and the dispatcher

    The layouts of ENVCHANGE and FEDAUTHINFO, whose payload depends on a kind or on offsets, and
    [token_layout], which relates every control token to the bytes the server lays it out as.
    Over any packet reader that keeps its laws the dispatcher reads each of them back. *)

From stdpp Require Import strings.
From S2P Require Import Prelude Core ReadBuffer Transport Framing Unicode PacketReader.
From S2P Require Import Reader ReaderLaws Tokens TokenParsers TokenLaws.

(** ** ENVCHANGE *)

Definition routing_layout (r : RoutingInfo) : bytes :=
  [byte_of (protocol r)] ++ le_bytes 2 (port r) ++ us_varchar (server r) ++
  match database r with Some d => us_varchar d | None => [] end.

Definition name_wf (max_chars : nat) (s : str) : Prop :=
  str_wf s /\ s <> [] /\ (length (utf16 s) <= max_chars)%nat.

Definition routing_wf (r : RoutingInfo) : Prop :=
  protocol r = 0 /\ 0 < port r < 65536 /\ name_wf MAX_ALTERNATE_SERVER_CHARS (server r) /\
  match database r with Some d => name_wf MAX_ALTERNATE_DATABASE_CHARS d | None => True end.

Definition routing_kind (r : RoutingInfo) : EnvChangeTokenSubType :=
  match database r with Some _ => Env_EnhancedRouting | None => Env_Routing end.

(** The old and new values of each kind of change, after the length and the kind byte. *)
Inductive env_layout : EnvChangeTokenSubType -> bytes -> EnvChangeContainer -> Prop :=
  | layout_string sub new old :
      In sub [Env_Database; Env_Language; Env_CharacterSet; Env_DatabaseMirroringPartner] ->
      short_str new -> short_str old ->
      env_layout sub (b_varchar new ++ b_varchar old) (EC_String old new)
  | layout_packet_size new old n o :
      short_str new -> short_str old -> parse_u32 new = Some n -> parse_u32 old = Some o ->
      env_layout Env_PacketSize (b_varchar new ++ b_varchar old) (EC_UInt32 o n)
  | layout_collation new old :
      (length new < 256)%nat -> (length old < 256)%nat ->
      env_layout Env_SqlCollation (b_varbyte new ++ b_varbyte old)
        (EC_SqlCollation (collation_of old) (collation_of new))
  | layout_begin sub new :
      In sub [Env_BeginTransaction; Env_EnlistDtcTransaction; Env_DefectTransaction] ->
      in_unsigned 64 new ->
      env_layout sub (b_varbyte (le_bytes 8 new) ++ b_varbyte []) (EC_UInt64 0 new)
  | layout_end sub old :
      In sub [Env_CommitTransaction; Env_RollbackTransaction] -> in_unsigned 64 old ->
      env_layout sub (b_varbyte [] ++ b_varbyte (le_bytes 8 old)) (EC_UInt64 old 0)
  | layout_reset new old :
      (length new < 256)%nat -> (length old < 256)%nat ->
      env_layout Env_ResetConnection (b_varbyte new ++ b_varbyte old) (EC_BytesType old new)
  | layout_routing r :
      routing_wf r ->
      env_layout (routing_kind r)
        (le_bytes 2 (Z.of_nat (length (routing_layout r))) ++ routing_layout r ++ le_bytes 2 0)
        (EC_RoutingType None (Some r)).

Lemma utf16_nil s : utf16 s = [] -> s = [].
Proof.
  destruct s as [|c s]; [done|]. unfold utf16. cbn. unfold encode_utf16. by destruct (_ <? _).
Qed.

Lemma split_us_varchar_app s field max rest :
  name_wf max s -> Z.of_nat max < 65536 ->
  split_us_varchar (us_varchar s ++ rest) field max = Ok (s, rest).
Proof.
  intros (Hs & Hn & Hl) Hm. unfold split_us_varchar, us_varchar.
  assert (length (utf16 s) <> 0%nat) by (intros ?%nil_length_inv%utf16_nil; done).
  rewrite decide_True, <- app_assoc, take_app_length', drop_app_length' by solve_len.
  rewrite of_le_unsigned, Nat2Z.id by (split; lia). rewrite decide_False by lia.
  assert (length (units_le (utf16 s)) = length (utf16 s) * 2)%nat by (rewrite length_units_le; lia).
  rewrite decide_True, take_app_length', drop_app_length' by solve_len.
  rewrite le_units_le by (by apply utf16_range). cbn [from_option id]. by rewrite from_utf16_utf16.
Qed.

Lemma parse_routing_layout r :
  routing_wf r ->
  parse_routing_data (routing_layout r) (bool_decide (is_Some (database r))) = Ok r.
Proof.
  destruct r as [p pt s d]. intros (Hp & Hpt & Hs & Hd). unfold routing_layout.
  cbn [database protocol port server] in *. subst p. pose proof (length_le_bytes 2 pt) as Hl.
  assert (of_le (le_bytes 2 pt) = pt) as Hv by (apply of_le_unsigned; split; lia).
  destruct (le_bytes 2 pt) as [|lo [|hi [|]]]; try done. cbn [app parse_routing_data].
  rewrite split_us_varchar_app by (done || unfold MAX_ALTERNATE_SERVER_CHARS; lia). cbn [rbind].
  destruct d as [d|].
  - rewrite bool_decide_eq_true_2, <- (app_nil_r (us_varchar d)) by done.
    rewrite split_us_varchar_app by (done || unfold MAX_ALTERNATE_DATABASE_CHARS; lia).
    cbn [rbind]. rewrite decide_False by (by intros []). cbn [negb].
    by rewrite Hv, (proj2 (Z.eqb_neq pt 0)) by lia.
  - rewrite bool_decide_eq_false_2 by (by intros []). cbn [rbind].
    rewrite decide_False by (by intros []). by rewrite Hv, (proj2 (Z.eqb_neq pt 0)) by lia.
Qed.

Definition encode_env (sub : EnvChangeTokenSubType) (payload : bytes) : bytes :=
  le_bytes 2 (1 + Z.of_nat (length payload)) ++ [byte_of (EnvChangeTokenSubType_u8 sub)] ++ payload.

Section env.
Context {R : Type} {delivers : R -> bytes -> Prop} `{laws : PacketReaderLaws R delivers}.

Lemma reads_lift {A} (a : A) : reads delivers (lift (Ok a)) [] a.
Proof. intros r more Hd. by exists r. Qed.

Lemma reads_transaction_change n o new old e :
  length new = n -> length old = o -> (n < 256)%nat -> (o < 256)%nat ->
  reads delivers (read_transaction_change n o e) (b_varbyte new ++ b_varbyte old)
    (EC_UInt64 (of_le old) (of_le new)).
Proof.
  intros <- <- Hn Ho. unfold read_transaction_change, descriptor. reads_field.
  rewrite decide_True by done. apply (reads_bind _ _ [] (b_varbyte old) (of_le new)); [apply reads_lift|].
  rewrite <- (app_nil_r (b_varbyte old)). reads_field. rewrite decide_True by done.
  eapply reads_final; [apply reads_lift|done].
Qed.

Lemma reads_routing r :
  routing_wf r ->
  reads delivers
    (read_routing (1 + Z.of_nat (2 + length (routing_layout r) + 2)) (bool_decide (is_Some (database r))))
    (le_bytes 2 (Z.of_nat (length (routing_layout r))) ++ routing_layout r ++ le_bytes 2 0)
    (EC_RoutingType None (Some r)).
Proof.
  intros Hr. assert (Z.of_nat (length (routing_layout r)) < 65536) as Hl.
  { destruct Hr as (_ & _ & (_ & _ & Hs) & Hd). unfold routing_layout, us_varchar.
    destruct (database r) as [d|]; [destruct Hd as (_ & _ & Hd)|];
      unfold MAX_ALTERNATE_SERVER_CHARS, MAX_ALTERNATE_DATABASE_CHARS in *;
      rewrite !length_app, ?length_le_bytes, ?length_units_le; cbn [length]; lia. }
  unfold read_routing. rewrite (proj2 (Z.ltb_ge _ _)) by lia.
  eapply reads_bind; [apply reads_uint16; split; lia|].
  rewrite (proj2 (Z.eqb_eq _ _)) by lia. cbn [negb].
  eapply reads_bind; [apply reads_bytes; lia|]. rewrite <- (app_nil_r (le_bytes 2 0)).
  eapply reads_bind; [by apply reads_uint16|]. cbn [Z.eqb negb].
  rewrite parse_routing_layout by done. by eapply reads_final; [apply reads_lift|].
Qed.

Lemma reads_env_value sub payload c :
  env_layout sub payload c ->
  reads delivers (parse_env_change_value (1 + Z.of_nat (length payload)) sub) payload c.
Proof.
  destruct 1 as [sub new old Hsub ? ?|new old n o ? ? Hn Ho|new old ? ?|sub new Hsub [? ?]|sub old Hsub [? ?]
                 |new old ? ?|r Hr].
  - repeat destruct Hsub as [<-|Hsub]; try done; cbn [parse_env_change_value];
      (unfold read_string_change; reads_field; by eapply reads_final; [apply reads_b_varchar|]).
  - cbn [parse_env_change_value]. reads_field. rewrite <- (app_nil_r (b_varchar old)). reads_field.
    rewrite Hn, Ho. apply reads_ret.
  - cbn [parse_env_change_value]. reads_field. by eapply reads_final; [apply reads_b_varbyte|].
  - repeat destruct Hsub as [<-|Hsub]; try done; cbn [parse_env_change_value];
      (eapply reads_eq; [apply (reads_transaction_change 8 0 (le_bytes 8 new) []); (done || solve_len)
                       |done|by rewrite of_le_unsigned]).
  - repeat destruct Hsub as [<-|Hsub]; try done; cbn [parse_env_change_value];
      (eapply reads_eq; [apply (reads_transaction_change 0 8 [] (le_bytes 8 old)); (done || solve_len)
                       |done|by rewrite of_le_unsigned]).
  - cbn [parse_env_change_value]. reads_field. by eapply reads_final; [apply reads_b_varbyte|].
  - rewrite !length_app, !length_le_bytes. pose proof (reads_routing r Hr) as H. unfold routing_kind.
    rewrite Nat.add_assoc. destruct (database r); exact H.
Qed.

Lemma reads_env_change sub payload c :
  env_layout sub payload c -> 1 + Z.of_nat (length payload) < 65536 ->
  reads delivers parse_env_change (encode_env sub payload) {| sub_type := sub; change_type := c |}.
Proof.
  intros Hl Hs. unfold parse_env_change, encode_env.
  eapply reads_bind; [apply reads_uint16; split; lia|].
  assert (0 <= EnvChangeTokenSubType_u8 sub < 256 /\
          EnvChangeTokenSubType_try_from (EnvChangeTokenSubType_u8 sub) = sub) as [Hr Hk].
  { destruct Hl as [? ? ? Hsub|? ? ? ?|? ?|? ? Hsub|? ? Hsub|? ?|r]; try done;
      try (by repeat destruct Hsub as [<-|Hsub]). unfold routing_kind. by destruct (database r). }
  eapply reads_bind; [by apply reads_byte|]. rewrite Hk.
  by eapply reads_final; [apply reads_env_value|].
Qed.
End env.

(** ** FEDAUTHINFO *)

(** Option [i] is named by its nine-byte header; its text lies anywhere in the token. *)
Definition fedauth_placed (token_data : bytes) (i : nat) (o : Z * str) : Prop :=
  exists off,
    0 <= fst o < 256 /\ str_wf (snd o) /\ 4 <= off < 2 ^ 32 /\
    off - 4 + 2 * Z.of_nat (length (utf16 (snd o))) <= Z.of_nat (length token_data) /\
    slice (9 * i) (9 * i + 9) token_data =
      [byte_of (fst o)] ++ le_bytes 4 (2 * Z.of_nat (length (utf16 (snd o)))) ++ le_bytes 4 off /\
    slice (Z.to_nat (off - 4)) (Z.to_nat (off - 4) + 2 * length (utf16 (snd o))) token_data =
      units_le (utf16 (snd o)).

Definition fedauth_of (acc : FedAuthInfoToken) (options : list (Z * str)) : FedAuthInfoToken :=
  fold_left (fun acc o => set_fedauth_option acc (fst o) (snd o)) options acc.

Definition fedauth_wf (options : list (Z * str)) (token_data : bytes) : Prop :=
  Z.of_nat (length token_data) <= MAX_TOKEN_DATA_SIZE /\
  (9 * length options <= length token_data)%nat /\
  (forall i o, options !! i = Some o -> fedauth_placed token_data i o).

Lemma get_range_slice a b c d (bs : bytes) :
  a = Z.of_nat c -> b = Z.of_nat d -> (c <= d <= length bs)%nat ->
  get_range a b bs = Some (slice c d bs).
Proof. intros -> -> ?. unfold get_range. by rewrite decide_True, !Nat2Z.id by lia. Qed.

Lemma fedauth_header (token_data : bytes) (i : nat) id l4 o4 :
  slice (9 * i) (9 * i + 9) token_data = [id] ++ l4 ++ o4 -> length l4 = 4%nat ->
  length o4 = 4%nat -> (9 * i + 9 <= length token_data)%nat ->
  token_data !! (9 * i)%nat = Some id /\
  slice (9 * i + 1) (9 * i + 5) token_data = l4 /\
  slice (9 * i + 5) (9 * i + 9) token_data = o4.
Proof.
  intros Hs Hl Ho Hb. rewrite <- (slice_slice token_data (9 * i) (9 * i + 9) 1 5), Hs by lia.
  rewrite <- (slice_slice token_data (9 * i) (9 * i + 9) 5 9), Hs by lia.
  assert (slice (9 * i) (9 * i + 9) token_data !! 0%nat = Some id) as H0 by (by rewrite Hs).
  rewrite lookup_slice, decide_True, Nat.add_0_r in H0 by lia.
  split; [done|]. split.
  - apply (slice_mid [id] l4 o4); [done|cbn; lia].
  - rewrite <- (app_nil_r o4) at 1. rewrite app_assoc.
    apply (slice_mid ([id] ++ l4) o4 []); [cbn; lia|cbn; lia].
Qed.

Lemma parse_fedauth_option_placed token_data i o :
  fedauth_placed token_data i o -> (9 * i + 9 <= length token_data)%nat ->
  Z.of_nat (length token_data) <= MAX_TOKEN_DATA_SIZE ->
  parse_fedauth_option token_data (Z.of_nat i) = Ok o.
Proof.
  intros (off & Hid & Hs & Hoff & Hend & Hh & Ht) Hi Hmax. destruct o as [oid s]. cbn [fst snd] in *.
  destruct (fedauth_header _ _ _ _ _ Hh) as (H0 & Hl & Ho); [apply length_le_bytes..|done|].
  unfold MAX_TOKEN_DATA_SIZE in *. unfold parse_fedauth_option, FEDAUTH_OPTIONS_SIZE, as_u32.
  rewrite Z.mod_small by lia. replace (Z.of_nat i * 9) with (Z.of_nat (9 * i)) by lia.
  unfold index_byte. rewrite Nat2Z.id, H0. cbn [rbind].
  rewrite (get_range_slice _ _ (9 * i + 1) (9 * i + 5)), Hl by lia. cbn [ok_or rbind].
  rewrite (get_range_slice _ _ (9 * i + 5) (9 * i + 9)), Ho by lia. cbn [ok_or rbind].
  rewrite !of_le_unsigned by (split; lia). rewrite (proj2 (Z.ltb_ge _ _)) by lia.
  rewrite (get_range_slice _ _ (Z.to_nat (off - 4)) (Z.to_nat (off - 4) + 2 * length (utf16 s))) by lia.
  cbn [ok_or rbind]. rewrite Ht, length_units_le, (Nat.mul_comm 2), Nat.div_mul by lia.
  rewrite take_ge by (rewrite length_units_le; lia).
  rewrite le_units_le by (by apply utf16_range). cbn [from_option id].
  rewrite from_utf16_utf16 by done. cbn [ok_or rbind]. by rewrite byte_val_of.
Qed.

Lemma parse_fedauth_placed token_data : forall options i acc,
  Z.of_nat (length token_data) <= MAX_TOKEN_DATA_SIZE ->
  (9 * (i + length options) <= length token_data)%nat ->
  (forall j o, options !! j = Some o -> fedauth_placed token_data (i + j) o) ->
  parse_fedauth_options token_data (length options) (Z.of_nat i) acc = Ok (fedauth_of acc options).
Proof.
  induction options as [|o options IH]; intros i acc Hm Hl Hp; [done|]. cbn [length] in Hl.
  cbn [parse_fedauth_options length].
  rewrite (parse_fedauth_option_placed token_data i o); [|rewrite <- (Nat.add_0_r i); by apply Hp|lia|done].
  destruct o as [id s]. cbn [rbind]. replace (Z.of_nat i + 1) with (Z.of_nat (S i)) by lia.
  apply IH; [done|lia|]. intros j o Hj. rewrite Nat.add_succ_comm. by apply Hp.
Qed.

Definition encode_fedauth (options : list (Z * str)) (token_data : bytes) : bytes :=
  le_bytes 4 (4 + Z.of_nat (length token_data)) ++ le_bytes 4 (Z.of_nat (length options)) ++ token_data.

Section fedauth.
Context {R : Type} {delivers : R -> bytes -> Prop} `{laws : PacketReaderLaws R delivers}.

Lemma reads_fed_auth_info options token_data :
  fedauth_wf options token_data ->
  reads delivers parse_fed_auth_info (encode_fedauth options token_data)
    (fedauth_of {| spn := []; sts_url := [] |} options).
Proof.
  intros (Hm & Hl & Hp). unfold MAX_TOKEN_DATA_SIZE in *. unfold parse_fed_auth_info, encode_fedauth.
  eapply reads_bind; [apply reads_int32; split; lia|].
  eapply reads_bind; [apply reads_uint32; split; lia|].
  unfold MAX_TOKEN_DATA_SIZE, FEDAUTH_OPTIONS_SIZE.
  rewrite (proj2 (Z.ltb_ge _ _)), !(proj2 (Z.leb_le _ _)), (proj2 (Z.leb_gt _ _)) by lia.
  cbn [andb negb]. rewrite (proj2 (Z.ltb_ge _ _)) by (unfold as_i32; rewrite to_signed_id by (lia || split; lia); lia).
  rewrite <- (app_nil_r token_data) at 2. eapply reads_bind; [apply reads_bytes; lia|].
  rewrite (proj2 (Z.ltb_ge _ _)) by (unfold as_u32; rewrite Z.mod_small; lia).
  rewrite Nat2Z.id. rewrite (parse_fedauth_placed token_data options 0 _ Hm Hl Hp). apply reads_lift.
Qed.
End fedauth.

(** ** All control tokens *)

(** The payload of a token of each kind, after its identifying byte. *)
Inductive payload_layout {D} : TokenType -> bytes -> Tokens D -> Prop :=
  | layout_env sub payload c :
      env_layout sub payload c -> 1 + Z.of_nat (length payload) < 65536 ->
      payload_layout TT_EnvChange (encode_env sub payload)
        (T_EnvChange {| sub_type := sub; change_type := c |})
  | layout_login_ack t :
      login_ack_wf t -> payload_layout TT_LoginAck (encode_login_ack t) (T_LoginAck t)
  | layout_done t : done_wf t -> payload_layout TT_Done (encode_done t) (T_Done t)
  | layout_done_in_proc t :
      done_wf t -> payload_layout TT_DoneInProc (encode_done t) (T_DoneInProc t)
  | layout_done_proc t : done_wf t -> payload_layout TT_DoneProc (encode_done t) (T_DoneProc t)
  | layout_info t : message_wf t -> payload_layout TT_Info (encode_message t) (T_Info t)
  | layout_error t : message_wf t -> payload_layout TT_Error (encode_message t) (T_Error t)
  | layout_fedauth options token_data :
      fedauth_wf options token_data ->
      payload_layout TT_FedAuthInfo (encode_fedauth options token_data)
        (T_FedAuthInfo (fedauth_of {| spn := []; sts_url := [] |} options))
  | layout_features fs :
      Forall feature_wf fs ->
      payload_layout TT_FeatureExtAck (concat (encode_feature <$> fs) ++ [byte_of 0xFF])
        (T_FeatureExtAck fs)
  | layout_order cols :
      Forall (in_unsigned 16) cols -> 2 * Z.of_nat (length cols) < 65536 ->
      payload_layout TT_Order
        (le_bytes 2 (2 * Z.of_nat (length cols)) ++ concat (le_bytes 2 <$> cols)) (T_Order cols)
  | layout_return_status v :
      in_signed 32 v -> payload_layout TT_ReturnStatus (le_bytes 4 v) (T_ReturnStatus v)
  | layout_session_state t :
      session_state_wf t ->
      payload_layout TT_SessionState (encode_session_state t) (T_SessionState t)
  | layout_tab_name bs :
      Z.of_nat (length bs) < 65536 ->
      payload_layout TT_TabName (le_bytes 2 (Z.of_nat (length bs)) ++ bs) T_TabName
  | layout_col_info bs :
      Z.of_nat (length bs) < 65536 ->
      payload_layout TT_ColInfo (le_bytes 2 (Z.of_nat (length bs)) ++ bs) T_ColInfo
  | layout_sspi bs :
      Z.of_nat (length bs) < 65536 ->
      payload_layout TT_SSPI (le_bytes 2 (Z.of_nat (length bs)) ++ bs) (T_Sspi bs).

Definition token_bytes (kind : TokenType) (payload : bytes) : bytes :=
  [byte_of (TokenType_u8 kind)] ++ payload.

Lemma TokenType_u8_range k : 0 <= TokenType_u8 k < 256.
Proof. by destruct k. Qed.

Lemma length_features fs : (5 * length fs <= length (concat (encode_feature <$> fs)))%nat.
Proof.
  induction fs as [|f fs IH]; [done|]. cbn [fmap list_fmap concat length].
  unfold encode_feature at 1. rewrite !length_app, length_le_bytes. cbn [length].
  lia.
Qed.

Section dispatch.
Context {R : Type} {delivers : R -> bytes -> Prop} `{laws : PacketReaderLaws R delivers}.

Lemma reads_map {A B} (f : A -> B) (m : M R A) bs a :
  reads delivers m bs a -> reads delivers (map_token f m) bs (f a).
Proof. apply reads_bind_ret. Qed.

Lemma reads_kind {D} fuel (pd : TokenType -> M R D) k bs t :
  reads delivers (dispatch_token fuel pd k) bs t ->
  reads delivers (receive_token_internal fuel pd) (token_bytes k bs) t.
Proof.
  intros H. unfold receive_token_internal, token_bytes.
  eapply reads_bind; [apply reads_byte, TokenType_u8_range|]. rewrite TokenType_round_trip.
  by apply (reads_bind _ _ [] bs k); [apply reads_lift|].
Qed.

(** C6: Every control token of a response is read back, ENVCHANGE for the kinds the parser implements
    (it refuses 5, 6, 15, 16, 17 and 19): over any packet reader that keeps its laws, the dispatcher reads the kind byte and the payload laid out for it, consumes exactly
    these bytes, and returns the token; the FEATUREEXTACK loop ends within the payload's length. *)
Theorem token_reads_back {D} fuel (pd : TokenType -> M R D) k payload t :
  payload_layout k payload t -> (length payload <= fuel)%nat ->
  reads delivers (receive_token_internal fuel pd) (token_bytes k payload) t.
Proof.
  intros Hl Hf. apply reads_kind.
  destruct Hl; cbn [dispatch_token]; try (apply reads_map).
  - by apply reads_env_change.
  - by apply reads_login_ack.
  - by apply reads_done.
  - by apply reads_done.
  - by apply reads_done.
  - by apply reads_message.
  - by apply reads_message.
  - by apply reads_fed_auth_info.
  - apply (reads_features fs fuel []); [|done]. rewrite length_app in Hf. cbn in Hf.
    pose proof (length_features fs). lia.
  - by apply reads_order.
  - by apply reads_return_status.
  - by apply reads_session_state.
  - apply (reads_map (fun _ => T_TabName) _ _ tt). by apply reads_skipped.
  - apply (reads_map (fun _ => T_ColInfo) _ _ tt). by apply reads_skipped.
  - by apply reads_sspi.
Qed.
Lemma reads_done_raw bs t :
  length bs = DONE_PAYLOAD_LEN -> buffered_done_token bs = Some t ->
  reads delivers read_done_token bs t.
Proof.
  intros Hl Hb. unfold read_done_token. apply reads_try; [done|intros r; by rewrite Hb|].
  unfold buffered_done_token in Hb. rewrite decide_True in Hb by lia. injection Hb as <-.
  unfold DONE_PAYLOAD_LEN in Hl. rewrite <- (slice_all bs) at 1. rewrite Hl.
  rewrite (slice_app_adjacent bs 0 2 12), (slice_app_adjacent bs 2 4 12) by lia.
  eapply reads_bind; [by apply law_uint16; rewrite length_slice by lia|].
  eapply reads_bind; [by apply law_uint16; rewrite length_slice by lia|].
  eapply reads_final; [by apply law_uint64; rewrite length_slice by lia|done].
Qed.

Lemma reads_return_status_raw bs :
  length bs = 4%nat -> reads delivers read_return_status bs (of_le_signed bs).
Proof.
  intros Hl. unfold read_return_status. apply reads_try; [done| |by apply law_int32].
  intros r. unfold ret. rewrite <- Hl at 1. by rewrite slice_all.
Qed.

Lemma buffered_done_take payload t :
  buffered_done_token payload = Some t ->
  length (take DONE_PAYLOAD_LEN payload) = DONE_PAYLOAD_LEN /\
  buffered_done_token (take DONE_PAYLOAD_LEN payload) = Some t.
Proof.
  unfold buffered_done_token. destruct (decide _) as [Hl|]; [|done]. intros [= <-].
  rewrite length_take, Nat.min_l by done. split; [done|]. rewrite decide_True by done.
  by rewrite <- (take_drop DONE_PAYLOAD_LEN payload) at 4 5 6;
    rewrite !slice_app_l by (rewrite length_take; unfold DONE_PAYLOAD_LEN in *; lia).
Qed.

(** The buffered shortcut for control tokens agrees with the parser: when
    [buffered_control_token] finds a token of [n] bytes at the head of the buffered bytes, the
    dispatcher that reads through the packet reader returns the same token and consumes the same
    [n] bytes. *)
Theorem buffered_control_token_agrees {D} fuel (pd : TokenType -> M R D) bs (t : Tokens D) n :
  buffered_control_token bs = Some (t, n) ->
  (n <= length bs)%nat /\ reads delivers (receive_token_internal fuel pd) (take n bs) t.
Proof.
  unfold buffered_control_token. destruct bs as [|kind payload]; [done|].
  assert (forall k p, byte_val kind = TokenType_u8 k ->
    reads delivers (dispatch_token fuel pd k) p t ->
    reads delivers (receive_token_internal fuel pd) (kind :: p) t) as Hkind.
  { intros k p Hk. rewrite <- (byte_of_val kind), Hk. apply reads_kind. }
  assert (forall k (f : DoneToken -> Tokens D) o, byte_val kind = TokenType_u8 k ->
    dispatch_token fuel pd k = map_token f read_done_token -> o = buffered_done_token payload ->
    (fun t => (f t, (1 + DONE_PAYLOAD_LEN)%nat)) <$> o = Some (t, n) ->
    (n <= S (length payload))%nat /\
    reads delivers (receive_token_internal fuel pd) (take n (kind :: payload)) t) as Hdone.
  { intros k f o Hk Hd -> Hb. destruct (buffered_done_token payload) as [d|] eqn:E; [|done].
    injection Hb as <- <-. destruct (buffered_done_take _ _ E) as [Hl Hb].
    pose proof Hl as Hl'. rewrite length_take in Hl'. split; [lia|].
    apply (Hkind k); [done|]. rewrite Hd. apply reads_map. by apply reads_done_raw. }
  intros Hb. repeat destruct (decide (byte_val kind = _)) as [Hk|_]; [by eapply Hdone..| |done].
  destruct (decide _) as [Hl|]; [|done]. injection Hb as <- <-.
  unfold RETURN_STATUS_PAYLOAD_LEN in *. split; [cbn [length]; lia|].
  apply (Hkind TT_ReturnStatus); [done|]. apply (reads_map T_ReturnStatus).
  apply reads_return_status_raw. by rewrite length_slice by lia.
Qed.
End dispatch.

(** ** A response on a socket *)

(** The server reports the packet size changed from 4096 to 8000, and finishes. *)
Definition env_payload : bytes := b_varchar [56; 48; 48; 48] ++ b_varchar [52; 48; 57; 54].
Definition env_bytes : bytes := token_bytes TT_EnvChange (encode_env Env_PacketSize env_payload).
Definition done_sample : DoneToken :=
  {| status := 16; cur_cmd := CurrentCommand_try_from 0xC1; row_count := 3 |}.
Definition done_bytes : bytes := token_bytes TT_Done (encode_done done_sample).
Definition response_stream : Stream :=
  chunked [take 11 (tabular_packet true (env_bytes ++ done_bytes));
           drop 11 (tabular_packet true (env_bytes ++ done_bytes))].
Definition response_transport : NetworkTransport := NetworkTransport_new response_stream 64.

Lemma response_delivers : delivering true [] response_transport (env_bytes ++ done_bytes).
Proof. apply fresh_delivers; [lia|]. apply msg_last. vm_compute. reflexivity. Defined.

Lemma env_payload_layout : @payload_layout unit TT_EnvChange (encode_env Env_PacketSize env_payload)
  (T_EnvChange {| sub_type := Env_PacketSize; change_type := EC_UInt32 4096 8000 |}).
Proof.
  apply layout_env; [|vm_compute; reflexivity].
  apply layout_packet_size; try reflexivity; (split; [repeat constructor|vm_compute; reflexivity]).
Defined.

Definition no_data {R} : TokenType -> M R unit := fun k => throw (no_parser_error k).

Lemma token_reads_back_witness :
  exists t', receive_token_internal 64 no_data response_transport =
    (Ok (T_EnvChange {| sub_type := Env_PacketSize; change_type := EC_UInt32 4096 8000 |}), t') /\
    delivering true [] t' done_bytes.
Proof.
  apply (token_reads_back 64 no_data TT_EnvChange (encode_env Env_PacketSize env_payload)).
  - apply env_payload_layout.
  - apply Nat.leb_le. vm_compute. reflexivity.
  - apply response_delivers.
Defined.

Lemma buffered_control_token_agrees_witness :
  (13 <= length done_bytes)%nat /\
  reads (delivering true []) (receive_token_internal 0 no_data) (take 13 done_bytes)
    (T_Done done_sample).
Proof. apply buffered_control_token_agrees. vm_compute. reflexivity. Defined.
