(* ===== verification/TokenSafety.v ===== *)
(** * The token parsers are safe on any input

    Whatever bytes a server sends, receiving a token ends with a token or an error: no length
    field, offset, count or text makes a parser panic or loop.  Proved over any reader that is
    itself safe on any input, which the transport is. *)

From stdpp Require Import strings.
From S2P Require Import Prelude Core ReadBuffer Transport Framing Unicode PacketReader.
From S2P Require Import Reader ReaderLaws Tokens TokenParsers.

(** ** Pure parts *)

Lemma le_units_even bs : Nat.odd (length bs) = false -> exists us, le_units bs = Some us.
Proof.
  revert bs. refine (fix IH bs := match bs with [] => _ | [_] => _ | a :: b :: bs' => _ end);
    [by exists []|done|]. intros H. cbn. destruct (IH bs' H) as [us ->]. by eexists.
Qed.

Lemma completes_rbind {A B} (r : TdsResult A) (f : A -> TdsResult B) :
  completes r -> (forall a, r = Ok a -> completes (f a)) -> completes (rbind r f).
Proof. destruct r; cbn; auto. Qed.

Lemma ok_or_completes {A} (o : option A) e : completes (ok_or o e).
Proof. by destruct o. Qed.

Lemma split_us_varchar_completes bs field max : completes (split_us_varchar bs field max).
Proof. unfold split_us_varchar. repeat (case_match; try done). Qed.

Lemma parse_routing_data_completes bs enhanced : completes (parse_routing_data bs enhanced).
Proof.
  unfold parse_routing_data. destruct bs as [|? [|? [|? rest]]]; try done.
  apply completes_rbind; [apply split_us_varchar_completes|]. intros [s rest'] _.
  apply completes_rbind; [|intros [d rest'']; intros; by repeat case_match].
  destruct enhanced; [|done].
  apply completes_rbind; [apply split_us_varchar_completes|]. by intros [].
Qed.

(** An option whose header lies within the token never indexes out of bounds. *)
Lemma parse_fedauth_option_completes token_data i :
  0 <= i -> (i + 1) * 9 <= Z.of_nat (length token_data) -> (i + 1) * 9 < 2 ^ 32 ->
  completes (parse_fedauth_option token_data i).
Proof.
  intros Hi Hl Hm. unfold parse_fedauth_option, FEDAUTH_OPTIONS_SIZE, as_u32.
  rewrite Z.mod_small by lia. apply completes_rbind.
  { unfold index_byte. destruct (token_data !! Z.to_nat (i * 9)) eqn:E; [done|].
    apply lookup_ge_None in E. lia. }
  intros id _. do 2 (apply completes_rbind; [apply ok_or_completes|]; intros ? _).
  case_match; [done|]. do 2 (apply completes_rbind; [apply ok_or_completes|]; intros ? _). done.
Qed.

Lemma parse_fedauth_options_completes token_data : forall n i acc,
  0 <= i -> (i + Z.of_nat n) * 9 <= Z.of_nat (length token_data) -> (i + Z.of_nat n) * 9 < 2 ^ 32 ->
  completes (parse_fedauth_options token_data n i acc).
Proof.
  induction n as [|n IH]; intros i acc Hi Hl Hm; [done|]. cbn [parse_fedauth_options].
  apply completes_rbind; [apply parse_fedauth_option_completes; lia|].
  intros [oid v] _. apply IH; lia.
Qed.

Lemma TokenType_try_from_completes v : completes (TokenType_try_from v).
Proof. unfold TokenType_try_from. by repeat case_match. Qed.

Lemma TokenType_try_from_err v e : TokenType_try_from v = Err e -> e = unknown_token_type.
Proof. unfold TokenType_try_from. intros H. repeat case_match; congruence. Qed.

(** ** The parsers *)

Create HintDb safe discriminated.
#[export] Hint Resolve safe_byte safe_int16_be safe_int32_be safe_uint16 safe_int32 safe_uint32 safe_uint64 safe_bytes
  safe_uint40 safe_float32 safe_float64 safe_int16 safe_uint24 safe_int64 safe_try_byte safe_try_int16 safe_try_uint16
  safe_try_uint24 safe_try_int32 safe_try_uint32 safe_try_uint40 safe_try_int64 safe_try_float32 safe_try_float64
  safe_buffered sync_first_gives safe_skip safe_try_slice gives_ret gives_throw : safe.

(** Runs one read of a parser, with the range of what it read in context. *)
Ltac safe_step :=
  eapply safe_bind; [solve [eauto with safe]|intros ? ?; cbv beta in *].

(** The end of a parser: a value, an error, or a last read. *)
Ltac safe_end := first [by apply gives_ret | apply gives_throw | eapply safe_of; solve [eauto with safe]].

Section safety.
Context {R : Type} {inv : R -> Prop} {left : R -> nat} `{rd : SafeReader R inv left}.

Lemma read_unicode_safe n :
  gives inv left (n * 2) (fun _ => True) (read_unicode_with_byte_length (n * 2)).
Proof.
  unfold read_unicode_with_byte_length. rewrite <- (Nat.add_0_r (n * 2)) at 1.
  eapply gives_bind; [apply safe_bytes|]. intros bs Hbs.
  destruct (le_units_even bs) as [us ->].
  { rewrite Hbs, Nat.odd_mul. apply andb_false_r. }
  destruct (from_utf16 us); [by apply gives_ret|apply gives_throw].
Qed.

Lemma shiftl_units z : 0 <= z -> Z.to_nat (Z.shiftl z 1) = (Z.to_nat z * 2)%nat.
Proof. intros. rewrite Z.shiftl_mul_pow2 by lia. change (2 ^ 1) with 2. lia. Qed.

Lemma read_varchar_u8_safe : safe inv left read_varchar_u8_length.
Proof.
  unfold read_varchar_u8_length. safe_step. rewrite shiftl_units by lia.
  eapply safe_of, read_unicode_safe.
Qed.

Lemma read_varchar_u16_safe : safe inv left read_varchar_u16_length.
Proof.
  unfold read_varchar_u16_length. safe_step. apply safe_if; [safe_end|].
  rewrite shiftl_units by (unfold in_unsigned in *; lia).
  eapply safe_bind; [apply read_unicode_safe|]. intros. safe_end.
Qed.

Lemma read_u8_varbyte_safe : safe inv left read_u8_varbyte.
Proof. unfold read_u8_varbyte. safe_step. safe_end. Qed.

Hint Resolve read_varchar_u8_safe read_varchar_u16_safe read_u8_varbyte_safe : safe.

Lemma counted_safe z :
  safe inv left (if 0 <? z then read_bytes (Z.to_nat z) else ret []).
Proof. apply safe_if; safe_end. Qed.

Lemma read_done_token_safe : safe inv left read_done_token.
Proof.
  unfold read_done_token. safe_step. case_match; [case_match; safe_end|]. do 3 safe_step. safe_end.
Qed.

Lemma read_return_status_safe : safe inv left read_return_status.
Proof. unfold read_return_status. safe_step. case_match; safe_end. Qed.

Lemma parse_server_message_safe : safe inv left parse_server_message.
Proof. unfold parse_server_message. do 8 safe_step. safe_end. Qed.

Lemma repeat_read_safe {A} n (m : M R A) : safe inv left m -> safe inv left (repeat_read n m).
Proof.
  intros Hm. induction n as [|n IH]; cbn [repeat_read]; [safe_end|].
  do 2 (eapply safe_bind; [done|]; intros). safe_end.
Qed.

Lemma parse_order_safe : safe inv left parse_order.
Proof. unfold parse_order. safe_step. apply repeat_read_safe. safe_end. Qed.

Lemma parse_sspi_safe : safe inv left parse_sspi.
Proof. unfold parse_sspi. safe_step. apply counted_safe. Qed.

Lemma parse_skipped_safe : safe inv left parse_skipped.
Proof. unfold parse_skipped. safe_step. safe_end. Qed.

Lemma parse_login_ack_safe : safe inv left parse_login_ack.
Proof. unfold parse_login_ack. do 8 safe_step. safe_end. Qed.

(** Each turn of the FEATUREEXTACK loop uses up a byte, so [left] bounds the turns. *)
Lemma parse_features_safe fuel : forall acc r,
  inv r -> (left r < fuel)%nat -> gives_at inv left 0 (fun _ => True) (parse_features fuel acc) r.
Proof.
  induction fuel as [|fuel IH]; intros acc r Hr Hf; [lia|]. cbn [parse_features].
  eapply (gives_at_weaken 1); [|lia].
  apply (gives_at_bind 1 0 (fun v => 0 <= v < 256)); [by apply safe_byte|].
  intros id r1 Hr1 Hid Hl1. case_decide; [by apply gives_ret|].
  eapply (gives_at_weaken 4); [|lia].
  apply (gives_at_bind 4 0 (in_unsigned 32)); [by apply safe_uint32|].
  intros len r2 Hr2 Hlen Hl2. case_match; [by apply gives_throw|].
  apply (gives_at_bind 0 0 (fun _ => True)); [by apply counted_safe|].
  intros bs r3 Hr3 _ Hl3. apply IH; [done|lia].
Qed.

(** The loop of SESSIONSTATE: a turn advances by two bytes at least. *)
Lemma parse_states_safe fuel : forall total br status acc,
  total - br < Z.of_nat fuel -> (0 < fuel)%nat ->
  safe inv left (parse_states fuel total br status acc).
Proof.
  induction fuel as [|fuel IH]; intros total br status acc Hf H0; [lia|]. cbn [parse_states].
  destruct (br <? total) eqn:Hlt; [|safe_end]. apply Z.ltb_lt in Hlt. apply safe_if; [safe_end|].
  safe_step. apply safe_if; [safe_end|]. safe_step.
  apply (safe_bind 0 (fun p => br + 2 <= fst p /\ 0 <= snd p)).
  - destruct (_ =? 255); [destruct (_ <? _); [safe_end|]|].
    + refine (gives_weaken (4 + 0) 0 _ _ _ _ ltac:(lia) (fun _ H => H)).
      eapply gives_bind; [apply safe_uint32|]. intros l [? ?]. apply gives_ret. cbn. lia.
    + apply gives_ret. cbn. lia.
  - intros [br' len] [? ?]; cbn [fst snd] in *. apply safe_if; [safe_end|].
    eapply safe_bind; [apply counted_safe|]. intros. apply IH; lia.
Qed.

Lemma parse_session_state_safe : safe inv left parse_session_state.
Proof.
  unfold parse_session_state. safe_step. apply safe_if; [safe_end|].
  destruct (_ <? 5) eqn:E; [safe_end|]. apply Z.ltb_ge in E. do 2 safe_step.
  eapply safe_bind; [apply parse_states_safe; lia|]. intros. safe_end.
Qed.

Lemma lift_safe {A} (r : TdsResult A) : completes r -> safe inv left (lift r).
Proof. intros. by apply gives_lift. Qed.

Lemma read_transaction_change_safe n o e : safe inv left (read_transaction_change n o e).
Proof.
  unfold read_transaction_change, descriptor. safe_step.
  eapply safe_bind; [apply lift_safe; by case_match|]. intros ? _. safe_step.
  eapply safe_bind; [apply lift_safe; by case_match|]. intros. safe_end.
Qed.

Lemma read_routing_safe token_length enhanced : safe inv left (read_routing token_length enhanced).
Proof.
  unfold read_routing. apply safe_if; [safe_end|]. safe_step. apply safe_if; [safe_end|].
  do 2 safe_step. apply safe_if; [safe_end|].
  eapply safe_bind; [apply lift_safe, parse_routing_data_completes|]. intros. safe_end.
Qed.

Lemma read_string_change_safe : safe inv left read_string_change.
Proof. unfold read_string_change. do 2 safe_step. safe_end. Qed.

Lemma parse_env_change_safe : safe inv left parse_env_change.
Proof.
  unfold parse_env_change. do 2 safe_step.
  apply (safe_bind 0 (fun _ => True)); [|intros; safe_end].
  destruct (EnvChangeTokenSubType_try_from _); cbn [parse_env_change_value];
    auto using read_string_change_safe, read_transaction_change_safe, read_routing_safe, gives_throw;
    do 2 safe_step; [do 2 (case_match; [|safe_end]); safe_end|safe_end..].
Qed.

Lemma parse_fed_auth_info_safe : safe inv left parse_fed_auth_info.
Proof.
  unfold parse_fed_auth_info. do 2 safe_step. do 2 (apply safe_if; [safe_end|]).
  destruct (2 ^ 32 <=? _) eqn:E1; [safe_end|]. apply safe_if; [safe_end|]. safe_step.
  destruct (as_u32 _ <? _) eqn:E2; [safe_end|].
  apply Z.leb_gt in E1. apply Z.ltb_ge in E2. unfold FEDAUTH_OPTIONS_SIZE, in_unsigned in *.
  assert (as_u32 (Z.of_nat (length a1)) <= Z.of_nat (length a1)) by (apply Z.mod_le; lia).
  apply lift_safe, parse_fedauth_options_completes; lia.
Qed.

Lemma map_token_safe {A B} (f : A -> B) (P : B -> Prop) (m : M R A) :
  (forall a, P (f a)) -> safe inv left m -> gives inv left 0 P (map_token f m).
Proof. intros HP Hm r Hr. apply (gives_at_bind 0 0 (fun _ => True)); [by apply Hm|]. intros. by apply gives_ret. Qed.

(** What holds of a token whose column data satisfies [P]. *)
Definition token_data {D} (P : D -> Prop) (t : Tokens D) : Prop := match t with T_Data d => P d | _ => True end.

Lemma dispatch_token_gives {D} (P : D -> Prop) fuel (pd : TokenType -> M R D) k r :
  (forall k, gives_at inv left 0 P (pd k) r) -> inv r -> (left r < fuel)%nat ->
  gives_at inv left 0 (token_data P) (dispatch_token fuel pd k) r.
Proof.
  intros Hpd Hr Hf. destruct k; cbn [dispatch_token];
    try (by apply (gives_at_bind 0 0 (fun _ => True)); [by apply parse_features_safe|];
         intros; apply gives_ret);
    try (by apply (gives_at_bind 0 0 P); [apply Hpd|]; intros; apply gives_ret);
    try (by apply gives_throw); (apply map_token_safe; [done| |done]);
    auto using parse_env_change_safe, parse_login_ack_safe, read_done_token_safe,
      parse_server_message_safe, parse_fed_auth_info_safe, parse_order_safe,
      read_return_status_safe, parse_session_state_safe, parse_skipped_safe, parse_sspi_safe.
Qed.

(** The dispatcher on any bytes, given the parsers of column data on the bytes behind the kind. *)
Lemma receive_token_gives {D} (P : D -> Prop) fuel (pd : TokenType -> M R D) r :
  (forall k r, inv r -> (left r < fuel)%nat -> gives_at inv left 0 P (pd k) r) -> inv r -> (left r < fuel)%nat ->
  gives_at inv left 1 (token_data P) (receive_token_internal fuel pd) r.
Proof.
  intros Hpd Hr Hf. apply (gives_at_bind 1 0 (fun v => 0 <= v < 256)); [by apply safe_byte|].
  intros b r1 Hr1 _ Hl1.
  apply (gives_at_bind 0 0 (fun _ => True)); [by apply lift_safe; [apply TokenType_try_from_completes|]|].
  intros k r2 Hr2 _ Hl2. apply dispatch_token_gives; [intros k'; apply Hpd|..]; try done; lia.
Qed.
End safety.

(** A stream that cannot be read past is reported as such: a kind byte that names no token,
    and a known token without a parser, give the errors [is_unreadable_token_error] recognises,
    before any byte of the payload is read. *)
Theorem unreadable_tokens_are_recognised {R} `{ops : TdsPacketReader R} {D} fuel (pd : TokenType -> M R D) v r r' :
  read_byte r = (Ok v, r') ->
  (forall k, TokenType_try_from v = Ok k -> In k [TT_AltMetadata; TT_AltRow; TT_Offset]) ->
  exists e, receive_token_internal fuel pd r = (Err e, r') /\ is_unreadable_token_error e = true.
Proof.
  intros Hr Hk. unfold receive_token_internal. rewrite (bind_ok _ _ _ _ _ Hr). unfold lift.
  destruct (TokenType_try_from v) as [k|e| |] eqn:E; cbv [bind].
  - specialize (Hk k eq_refl). repeat destruct Hk as [<-|Hk]; try done; by eexists.
  - exists e. split; [done|]. by rewrite (TokenType_try_from_err v e E).
  - by pose proof (TokenType_try_from_completes v) as H; rewrite E in H.
  - by pose proof (TokenType_try_from_completes v) as H; rewrite E in H.
Qed.

Lemma unreadable_tokens_are_recognised_witness :
  exists e, receive_token_internal (R := ByteReader) 1 (fun k => throw (A := unit) (no_parser_error k))
    (byte_of <$> [0x78; 1; 2; 3]) = (Err e, byte_of <$> [1; 2; 3]) /\ is_unreadable_token_error e = true.
Proof.
  apply (unreadable_tokens_are_recognised _ _ 0x78); [vm_compute; reflexivity|].
  intros k [= <-]. right. right. by left.
Defined.

(** A FEDAUTHINFO token whose only option points outside of the token. *)
Definition hostile_bytes : bytes :=
  byte_of <$> [0xEE; 13; 0; 0; 0; 1; 0; 0; 0; 2; 200; 0; 0; 0; 250; 255; 255; 255].
Definition hostile_transport : NetworkTransport :=
  NetworkTransport_new (chunked [tabular_packet true hostile_bytes]) 64.
