(* ===== verification/Prelogin.v ===== *)
(** * PRELOGIN (src/mssql-tds/src/message/prelogin.rs)

    The option table the client sends, whose headers must point at the option data that follows
    it, and the parser of the server's answer. *)

From stdpp Require Import strings.
From S2P Require Import Prelude Core Unicode PacketReader PacketWriter Writer WriterText.

(** ** Options *)

Inductive EncryptionType := ET_Off | ET_On | ET_NotSupported | ET_Required | ET_Unknown (v : Z).

Definition EncryptionType_from (v : Z) : EncryptionType :=
  match v with
  | 0 => ET_Off | 1 => ET_On | 2 => ET_NotSupported | 3 => ET_Required | _ => ET_Unknown v
  end.

Definition EncryptionType_to_u8 (t : EncryptionType) : Z :=
  match t with
  | ET_Off => 0 | ET_On => 1 | ET_NotSupported => 2 | ET_Required => 3 | ET_Unknown v => v
  end.

Inductive OptionType :=
  | Opt_Version | Opt_Encryption | Opt_InstOpt | Opt_ThreadId | Opt_Mars | Opt_TraceId
  | Opt_FedAuthRequired | Opt_Nonce | Opt_Terminator | Opt_Unknown (v : Z).

Definition OptionType_from (v : Z) : OptionType :=
  match v with
  | 0 => Opt_Version | 1 => Opt_Encryption | 2 => Opt_InstOpt | 3 => Opt_ThreadId | 4 => Opt_Mars
  | 5 => Opt_TraceId | 6 => Opt_FedAuthRequired | 7 => Opt_Nonce | 0xff => Opt_Terminator
  | _ => Opt_Unknown v
  end.

Definition OptionType_to_u8 (t : OptionType) : Z :=
  match t with
  | Opt_Version => 0 | Opt_Encryption => 1 | Opt_InstOpt => 2 | Opt_ThreadId => 3 | Opt_Mars => 4
  | Opt_TraceId => 5 | Opt_FedAuthRequired => 6 | Opt_Nonce => 7 | Opt_Terminator => 0xff
  | Opt_Unknown v => v
  end.

(** ** The request *)

Record DriverVersion := { dv_major : Z; dv_minor : Z; dv_build : Z }.

(** The two identifiers are the sixteen bytes of [Uuid::to_bytes_le]; the thread id is not sent. *)
Record PreloginRequestModel := {
  driver_version : DriverVersion;
  connection_id : bytes;
  activity_id : bytes;
  activity_sequence_number : Z;
  rq_mars_enabled : bool;
  encryption_setting : EncryptionSetting;
  database_instance : str;
  fed_auth : bool;
}.

Definition default_instance : str := [77; 83; 83; 81; 76; 83; 101; 114; 118; 101; 114].

(** [PreloginRequestModel::new]; [request_count] is the process-wide counter, [new_v4] the fresh
    activity id. *)
Definition PreloginRequestModel_new (connection_id new_v4 : bytes) (mars_enabled : option bool)
    (encryption : option EncryptionSetting) (instance : option str) (driver : DriverVersion)
    (request_count : Z) : PreloginRequestModel * Z :=
  ({| driver_version := driver;
      connection_id := connection_id;
      activity_id := new_v4;
      activity_sequence_number := request_count;
      rq_mars_enabled := default false mars_enabled;
      encryption_setting := default Strict encryption;
      database_instance := default default_instance instance;
      fed_auth := true |},
   as_i32 (request_count + 1)).

Section serializer.
Context (model : PreloginRequestModel).

Definition instance_bytes : bytes := as_bytes (database_instance model).

(** The offset counter is passed along. *)
Definition write_option_metadata (option : OptionType) (length : Z) (content_next_offset : Z)
    : M PacketWriter Z :=
  write_byte_async (OptionType_to_u8 option) ;;
  write_i16_be_async (as_i16 content_next_offset) ;;
  write_i16_be_async (as_i16 length) ;;
  ret (as_u32 (content_next_offset + length)).

Definition write_headers (offset : Z) : M PacketWriter Z :=
  offset <- write_option_metadata Opt_Version 6 offset ;;
  offset <- write_option_metadata Opt_Encryption 1 offset ;;
  offset <- write_option_metadata Opt_InstOpt (as_u16 (Z.of_nat (length instance_bytes) + 1)) offset ;;
  offset <- write_option_metadata Opt_ThreadId 4 offset ;;
  offset <- write_option_metadata Opt_Mars 1 offset ;;
  offset <- write_option_metadata Opt_TraceId (as_u16 (16 + 16 + 4)) offset ;;
  write_option_metadata Opt_FedAuthRequired 1 offset.

Definition write_terminator (offset : Z) : M PacketWriter Z :=
  write_byte_async (OptionType_to_u8 Opt_Terminator) ;; ret (as_u32 (offset + 1)).

Definition write_version : M PacketWriter unit :=
  write_async ([byte_of (dv_major (driver_version model)); byte_of (dv_minor (driver_version model))] ++
               be_bytes 2 (dv_build (driver_version model)) ++ [byte_of 0; byte_of 0]).

Definition write_encryption : M PacketWriter unit :=
  match encryption_setting model with
  | PreferOff => write_byte_async (EncryptionType_to_u8 ET_Off)
  | On => write_byte_async (EncryptionType_to_u8 ET_On)
  | Required => write_byte_async (EncryptionType_to_u8 ET_Required)
  | Strict => write_byte_async (EncryptionType_to_u8 ET_NotSupported)
  end.

Definition write_inst_opt : M PacketWriter unit :=
  write_async instance_bytes ;; write_byte_async 0.

Definition write_thread_id : M PacketWriter unit := write_i32_be_async 0.

Definition write_mars : M PacketWriter unit :=
  write_byte_async (if rq_mars_enabled model then 1 else 0).

Definition write_trace_id : M PacketWriter unit :=
  write_async (connection_id model) ;;
  write_async (activity_id model) ;;
  write_i32_async (activity_sequence_number model).

Definition write_fed_auth_required : M PacketWriter unit :=
  write_byte_async (if fed_auth model then 1 else 0).

(** Everything before the final [finalize]. *)
Definition PreloginRequest_serialize_body : M PacketWriter unit :=
  offset <- write_headers 36 ;;
  _ <- write_terminator offset ;;
  write_version ;;
  write_encryption ;;
  write_inst_opt ;;
  write_thread_id ;;
  write_mars ;;
  write_trace_id ;;
  write_fed_auth_required.

Definition PreloginRequest_serialize : M PacketWriter unit := PreloginRequest_serialize_body ;; finalize.
End serializer.

(** ** The response *)

Record PreloginResponseModel := {
  encryption : EncryptionType;
  federated_auth_supported : bool;
  dbinstance_valid : bool;
  mars_enabled : bool;
  server_version : Version;
  sql_server_version : SQLServerVersion;
}.

#[export] Instance PreloginResponseModel_eta : Eta PreloginResponseModel := fun m =>
  Build_PreloginResponseModel (encryption m) (federated_auth_supported m) (dbinstance_valid m)
    (mars_enabled m) (server_version m) (sql_server_version m).

Definition PreloginResponseModel_new : PreloginResponseModel := {|
  server_version := {| major := 0; minor := 0; build := 0; revision := 0 |};
  sql_server_version := SqlServerNotsupported;
  encryption := ET_Off;
  dbinstance_valid := false;
  mars_enabled := false;
  federated_auth_supported := false;
|}.

Section parser.
Context {R : Type} `{ops : TdsPacketReader R}.

(** The loop over the option headers; each turn but the last reads five bytes. *)
Fixpoint read_contexts (fuel : nat) (contexts : list (OptionType * nat))
    : M R (list (OptionType * nat)) :=
  match fuel with
  | O => out_of_fuel
  | S fuel =>
      token <- read_byte ;;
      if token =? 0xFF then ret contexts
      else
        let option := OptionType_from token in
        _ <- read_int16_big_endian ;;
        length <- read_int16_big_endian ;;
        read_contexts fuel (contexts ++ [(option, as_usize length)])
  end.

(** The value of one option. *)
Definition read_option (option : OptionType) (length : nat) (result : PreloginResponseModel)
    : M R PreloginResponseModel :=
  match option with
  | Opt_Version =>
      major <- read_byte ;;
      minor <- read_byte ;;
      build <- read_int16_big_endian ;;
      revision <- read_int16_big_endian ;;
      ret (result {{ server_version := {| major := major; minor := minor; build := as_u16 build;
                                         revision := as_u16 revision |} }}
                  {{ sql_server_version := SQLServerVersion_from_u8 major }})
  | Opt_Encryption => v <- read_byte ;; ret (result {{ encryption := EncryptionType_from v }})
  | Opt_InstOpt => v <- read_byte ;; ret (result {{ dbinstance_valid := (v =? 0) }})
  | Opt_Mars => v <- read_byte ;; ret (result {{ mars_enabled := (v =? 1) }})
  | Opt_FedAuthRequired =>
      v <- read_byte ;; ret (result {{ federated_auth_supported := (v =? 1) }})
  | _ => skip_bytes length ;; ret result
  end.

Fixpoint read_options (contexts : list (OptionType * nat)) (result : PreloginResponseModel)
    : M R PreloginResponseModel :=
  match contexts with
  | [] => ret result
  | (option, length) :: contexts =>
      if decide (length = 0%nat) then read_options contexts result
      else result <- read_option option length result ;; read_options contexts result
  end.

Definition PreloginResponse_deserialize (fuel : nat) : M R PreloginResponseModel :=
  modify reset_reader ;;
  contexts <- read_contexts fuel [] ;;
  read_options contexts PreloginResponseModel_new.
End parser.

(** ** The option table *)

(** The header of an option whose data lies at [offset], and a table of them. *)
Definition option_header (offset : Z) (o : OptionType * bytes) : bytes :=
  [byte_of (OptionType_to_u8 (fst o))] ++ be_bytes 2 offset ++ be_bytes 2 (Z.of_nat (length (snd o))).

Fixpoint option_headers (offset : Z) (os : list (OptionType * bytes)) : bytes :=
  match os with
  | [] => []
  | o :: os => option_header offset o ++ option_headers (offset + Z.of_nat (length (snd o))) os
  end.

(** A message with the data right behind the table. *)
Definition option_table (os : list (OptionType * bytes)) : bytes :=
  option_headers (5 * Z.of_nat (length os) + 1) os ++ [byte_of 0xff] ++ concat (snd <$> os).

Definition encryption_request (e : EncryptionSetting) : EncryptionType :=
  match e with PreferOff => ET_Off | On => ET_On | Required => ET_Required | Strict => ET_NotSupported end.

(** What the client asks for. *)
Definition request_options (m : PreloginRequestModel) : list (OptionType * bytes) := [
  (Opt_Version, [byte_of (dv_major (driver_version m)); byte_of (dv_minor (driver_version m))] ++
                be_bytes 2 (dv_build (driver_version m)) ++ [byte_of 0; byte_of 0]);
  (Opt_Encryption, [byte_of (EncryptionType_to_u8 (encryption_request (encryption_setting m)))]);
  (Opt_InstOpt, as_bytes (database_instance m) ++ [byte_of 0]);
  (Opt_ThreadId, be_bytes 4 0);
  (Opt_Mars, [byte_of (if rq_mars_enabled m then 1 else 0)]);
  (Opt_TraceId, connection_id m ++ activity_id m ++ le_bytes 4 (activity_sequence_number m));
  (Opt_FedAuthRequired, [byte_of (if fed_auth m then 1 else 0)])
].

(** Sixteen-byte identifiers, and an instance name that the sixteen-bit offsets can skip. *)
Definition request_wf (m : PreloginRequestModel) : Prop :=
  length (connection_id m) = 16%nat /\ length (activity_id m) = 16%nat /\
  Z.of_nat (length (as_bytes (database_instance m))) < 32000.
