(* ===== verification/PreloginLaws.v ===== *)
(** * The PRELOGIN exchange

    The request is a well-formed option table, an answer laid out the same way is read back, and
    no answer makes the parser panic or loop. *)

From stdpp Require Import strings.
From S2P Require Import Prelude Core ReadBuffer Transport Framing Unicode PacketReader Reader.
From S2P Require Import ReaderLaws PacketWriter Writer WriterText WriterMessage TokenLaws TokenSafety.
From S2P Require Import Prelogin.

(** ** The request *)

Lemma be_bytes_as_i16 z : be_bytes 2 (as_i16 z) = be_bytes 2 z.
Proof.
  rewrite <- (be_bytes_mod 2 (as_i16 z)), <- (be_bytes_mod 2 z). f_equal. apply mod_to_signed.
Qed.

Lemma write_option_metadata_emits o data off len :
  len = Z.of_nat (length data) -> 0 <= off -> off + len < 2 ^ 32 ->
  emits (write_option_metadata o len off) (option_header off (o, data)) (off + len).
Proof.
  intros -> Hoff Hlt. unfold write_option_metadata, option_header. cbn [fst snd].
  rewrite <- (be_bytes_as_i16 off), <- (be_bytes_as_i16 (Z.of_nat _)).
  emits_step. emits_step. eapply emits_last; [eauto with emits|].
  unfold as_u32. rewrite Z.mod_small by lia. apply emits_ret.
Qed.

(** The data of a table starting at [off] can be addressed. *)
Definition fits (off : Z) (os : list (OptionType * bytes)) : Prop :=
  0 <= off /\ off + Z.of_nat (length (concat (snd <$> os))) < 2 ^ 32.

Definition table_end (off : Z) (os : list (OptionType * bytes)) : Z :=
  off + Z.of_nat (length (concat (snd <$> os))).

Lemma headers_step {A} o data os off len (k : Z -> M PacketWriter A) a :
  len = Z.of_nat (length data) -> fits off ((o, data) :: os) ->
  (fits (off + len) os -> emits (k (off + len)) (option_headers (off + len) os) a) ->
  emits (bind (write_option_metadata o len off) k) (option_headers off ((o, data) :: os)) a.
Proof.
  intros -> [H0 Hf] Hk. cbn [fmap list_fmap concat snd] in Hf. rewrite length_app in Hf.
  eapply emits_bind; [apply write_option_metadata_emits; (done || lia)|].
  apply Hk. split; [lia|]. change (snd <$> os) with (list_fmap _ _ snd os) in *. lia.
Qed.

Lemma prelogin_headers_emits m :
  request_wf m ->
  emits (write_headers m 36) (option_headers 36 (request_options m)) (table_end 36 (request_options m)).
Proof.
  intros (Hc & Ha & Hi). unfold write_headers, request_options, instance_bytes.
  assert (as_u16 (Z.of_nat (length (as_bytes (database_instance m))) + 1) =
          Z.of_nat (length (as_bytes (database_instance m) ++ [byte_of 0]))) as Hl.
  { unfold as_u16. rewrite length_app, Z.mod_small; cbn [length]; lia. }
  rewrite Hl. apply headers_step; [by rewrite !length_app, length_be_bytes| |intros Hf].
  { split; [lia|]. cbn [fmap list_fmap concat snd].
    rewrite !length_app, !length_be_bytes, length_le_bytes, Hc, Ha. cbn [length]. lia. }
  do 2 (apply headers_step; [done..|]; clear Hf; intros Hf).
  do 2 (apply headers_step; [done..|]; clear Hf; intros Hf).
  apply headers_step; [|done|clear Hf; intros Hf].
  { by rewrite !length_app, length_le_bytes, Hc, Ha. }
  cbn [option_headers]. rewrite app_nil_r.
  replace (table_end 36 _) with (36 + 6 + 1 + Z.of_nat (length (as_bytes (database_instance m) ++ [byte_of 0]))
    + 4 + 1 + as_u16 (16 + 16 + 4) + 1).
  - apply write_option_metadata_emits; [done|apply Hf|exact (proj2 Hf)].
  - unfold table_end. cbn [fmap list_fmap concat snd].
    rewrite !length_app, !length_be_bytes, length_le_bytes, Hc, Ha.
    change (as_u16 (16 + 16 + 4)) with 36. cbn [length]. lia.
Qed.

Lemma prelogin_body_emits m :
  request_wf m -> emits (PreloginRequest_serialize_body m) (option_table (request_options m)) tt.
Proof.
  intros Hwf. unfold PreloginRequest_serialize_body, option_table.
  change (5 * Z.of_nat (length (request_options m)) + 1) with 36.
  eapply emits_bind; [by apply prelogin_headers_emits|].
  eapply emits_bind; [eapply emits_last; [eauto with emits|apply emits_ret]|].
  unfold request_options. cbn [fmap list_fmap snd concat].
  eapply emits_bind; [apply write_async_emits|].
  eapply emits_bind; [unfold write_encryption; destruct (encryption_setting m); apply write_byte_emits|].
  eapply emits_bind; [unfold write_inst_opt; emits_step; apply write_byte_emits|].
  eapply emits_bind; [apply write_i32_be_emits|].
  eapply emits_bind; [apply write_byte_emits|].
  eapply emits_bind; [unfold write_trace_id; do 2 emits_step; apply write_i32_emits|].
  rewrite app_nil_r. apply write_byte_emits.
Qed.

Lemma length_option_header off o : length (option_header off o) = 5%nat.
Proof. unfold option_header. by rewrite !length_app, !length_be_bytes. Qed.

Lemma length_option_headers os : forall off, length (option_headers off os) = (5 * length os)%nat.
Proof.
  induction os as [|o os IH]; intros off; [done|]. cbn [option_headers]. rewrite length_app, IH, length_option_header.
  cbn [length]. lia.
Qed.

(** Entry [i] of a table, and the data it points at. *)
Lemma option_headers_lookup os : forall off i o, os !! i = Some o ->
  slice (5 * i) (5 * i + 5) (option_headers off os) =
    option_header (off + Z.of_nat (length (concat (snd <$> take i os)))) o.
Proof.
  induction os as [|o' os IH]; intros off [|i] o Ho; try done; cbn [option_headers].
  - injection Ho as ->. cbn [take fmap list_fmap concat length]. rewrite Z.add_0_r.
    pose proof (length_option_header off o) as Hl.
    rewrite slice_app_l by lia. change (5 * 0)%nat with 0%nat.
    change (0 + 5)%nat with 5%nat. rewrite <- Hl at 1. apply slice_all.
  - cbn in Ho. change (take (S i) (o' :: os)) with (o' :: take i os).
    cbn [fmap list_fmap concat]. rewrite length_app, Nat2Z.inj_add, Z.add_assoc.
    pose proof (length_option_header off o') as Hl.
    rewrite <- (IH _ i o Ho). unfold slice.
    replace (5 * S i)%nat with (length (option_header off o') + 5 * i)%nat by lia.
    rewrite <- drop_drop, drop_app_length. f_equal; lia.
Qed.

Lemma concat_lookup (ds : list bytes) : forall i d, ds !! i = Some d ->
  slice (length (concat (take i ds))) (length (concat (take i ds)) + length d) (concat ds) = d.
Proof.
  intros i d Hd. rewrite <- (take_drop_middle ds i d Hd) at 3. rewrite concat_app.
  cbn [concat]. unfold slice. rewrite drop_app_length, Nat.add_comm, Nat.add_sub.
  by apply take_app_length'.
Qed.

Lemma option_table_lookup os i o :
  os !! i = Some o ->
  exists off : nat, slice (5 * i) (5 * i + 5) (option_table os) = option_header (Z.of_nat off) o /\
    slice off (off + length (snd o)) (option_table os) = snd o.
Proof.
  intros Ho. set (before := concat (snd <$> take i os)).
  exists (5 * length os + 1 + length before)%nat. unfold option_table.
  pose proof (lookup_lt_Some _ _ _ Ho). split.
  - rewrite slice_app_l by (rewrite length_option_headers; lia).
    rewrite (option_headers_lookup _ _ i o Ho). f_equal. unfold before. lia.
  - pose proof (concat_lookup (snd <$> os) i (snd o)) as Hc. rewrite list_lookup_fmap, Ho in Hc.
    specialize (Hc eq_refl). rewrite <- fmap_take in Hc. fold before in Hc. etransitivity; [|exact Hc].
    unfold slice. rewrite app_assoc. rewrite <- (Nat.add_assoc _ (length before)).
    rewrite <- drop_drop, (drop_app_length' _ _ (5 * length os + 1));
      [|rewrite length_app, length_option_headers; cbn; lia].
    f_equal. lia.
Qed.

(** The PRELOGIN request is a well-formed option table: on any connection it is written as
    the seven headers, the terminator and the data, and the offset and length of every header
    point at exactly that option's data, whatever the instance name is. *)
Theorem prelogin_request_is_a_table m :
  request_wf m ->
  emits (PreloginRequest_serialize_body m) (option_table (request_options m)) tt /\
  forall i o, request_options m !! i = Some o ->
    exists off : nat,
      slice (5 * i) (5 * i + 5) (option_table (request_options m)) = option_header (Z.of_nat off) o /\
      slice off (off + length (snd o)) (option_table (request_options m)) = snd o.
Proof. intros Hwf. split; [by apply prelogin_body_emits|apply option_table_lookup]. Qed.

Definition sample_request : PreloginRequestModel :=
  fst (PreloginRequestModel_new (replicate 16 (byte_of 1)) (replicate 16 (byte_of 2)) (Some true)
         (Some On) None {| dv_major := 1; dv_minor := 2; dv_build := 515 |} 7).

Lemma sample_request_wf : request_wf sample_request.
Proof. by split_and!. Defined.

Lemma prelogin_request_is_a_table_witness :
  emits (PreloginRequest_serialize_body sample_request) (option_table (request_options sample_request)) tt /\
  exists off : nat, slice 25 30 (option_table (request_options sample_request)) =
      option_header (Z.of_nat off) (Opt_TraceId, replicate 16 (byte_of 1) ++ replicate 16 (byte_of 2) ++ le_bytes 4 7) /\
    slice off (off + 36) (option_table (request_options sample_request)) =
      replicate 16 (byte_of 1) ++ replicate 16 (byte_of 2) ++ le_bytes 4 7.
Proof.
  pose proof (prelogin_request_is_a_table sample_request sample_request_wf) as [He Ho].
  split; [exact He|]. exact (Ho 5%nat _ eq_refl).
Defined.

(** ** The answer *)

(** The data of an option is what the parser takes it for; an empty option is left out. *)
Definition answer_option_wf (o : OptionType * bytes) : Prop :=
  0 <= OptionType_to_u8 (fst o) < 255 /\ OptionType_from (OptionType_to_u8 (fst o)) = fst o /\
  Z.of_nat (length (snd o)) < 32768 /\
  match fst o with
  | Opt_Version => In (length (snd o)) [0; 6]%nat
  | Opt_Encryption | Opt_InstOpt | Opt_Mars | Opt_FedAuthRequired => In (length (snd o)) [0; 1]%nat
  | _ => True
  end.

(** What an option says. *)
Definition answer_option (result : PreloginResponseModel) (o : OptionType * bytes)
    : PreloginResponseModel :=
  match fst o, snd o with
  | Opt_Version, [major; minor; b1; b0; r1; r0] =>
      result {{ server_version := {| major := byte_val major; minor := byte_val minor;
                                     build := of_be [b1; b0]; revision := of_be [r1; r0] |} }}
             {{ sql_server_version := SQLServerVersion_from_u8 (byte_val major) }}
  | Opt_Encryption, [v] => result {{ encryption := EncryptionType_from (byte_val v) }}
  | Opt_InstOpt, [v] => result {{ dbinstance_valid := (byte_val v =? 0) }}
  | Opt_Mars, [v] => result {{ mars_enabled := (byte_val v =? 1) }}
  | Opt_FedAuthRequired, [v] => result {{ federated_auth_supported := (byte_val v =? 1) }}
  | _, _ => result
  end.

Definition contexts_of (os : list (OptionType * bytes)) : list (OptionType * nat) :=
  (fun o => (fst o, length (snd o))) <$> os.

Section answer.
Context {R : Type} {delivers : R -> bytes -> Prop} `{laws : PacketReaderLaws R delivers}.

Lemma reads_be16 b1 b0 {A} (k : Z -> M R A) bs a :
  reads delivers (k (of_be_signed [b1; b0])) bs a ->
  reads delivers (bind read_int16_big_endian k) (b1 :: b0 :: bs) a.
Proof. intros Hk. apply (reads_bind _ _ [b1; b0] bs (of_be_signed [b1; b0]) a); [by apply law_int16_be|done]. Qed.

Lemma reads_one b {A} (k : Z -> M R A) bs a :
  reads delivers (k (byte_val b)) bs a -> reads delivers (bind read_byte k) (b :: bs) a.
Proof.
  intros Hk. apply (reads_bind _ _ [b] bs (byte_val b) a); [|done].
  rewrite <- of_le_one. by apply law_byte.
Qed.

Lemma reads_contexts os : forall fuel off acc,
  (length os < fuel)%nat -> Forall answer_option_wf os ->
  reads delivers (read_contexts fuel acc) (option_headers off os ++ [byte_of 0xff]) (acc ++ contexts_of os).
Proof.
  induction os as [|o os IH]; intros [|fuel] off acc Hf Hwf; cbn in Hf; try lia; cbn [read_contexts option_headers].
  - rewrite app_nil_r. apply (reads_one (byte_of 0xff)). apply reads_ret.
  - apply Forall_cons_1 in Hwf as [(Hr & Ht & Hl & _) Hwf]. unfold option_header. rewrite <- !app_assoc.
    eapply reads_bind; [apply reads_byte; lia|]. rewrite (proj2 (Z.eqb_neq _ _)) by lia.
    eapply reads_bind; [eapply reads_fixed_at; [apply law_int16_be|apply length_be_bytes|done]|].
    eapply reads_bind; [apply reads_int16_be; split; lia|].
    rewrite Ht. unfold as_usize. rewrite Z.mod_small, Nat2Z.id by lia.
    replace (acc ++ contexts_of (o :: os)) with ((acc ++ [(fst o, length (snd o))]) ++ contexts_of os)
      by (by rewrite <- app_assoc).
    apply IH; [lia|done].
Qed.

Lemma as_u16_of_be b1 b0 : as_u16 (of_be_signed [b1; b0]) = of_be [b1; b0].
Proof.
  unfold as_u16, of_be_signed. change (8 * Z.of_nat (length [b1; b0])) with 16.
  rewrite mod_to_signed. apply Z.mod_small, (of_be_range [b1; b0]).
Qed.

Lemma reads_option o result :
  answer_option_wf o -> snd o <> [] ->
  reads delivers (read_option (fst o) (length (snd o)) result) (snd o) (answer_option result o).
Proof.
  destruct o as [t d]. intros (_ & _ & _ & Hl) Hne. cbn [fst snd] in *.
  assert (forall f : PreloginResponseModel, reads delivers (skip_bytes (length d) ;; ret f) d f) as Hskip.
  { intros f. by apply (reads_final _ (fun _ => f) d tt); [apply reads_skip|]. }
  destruct t; try apply Hskip; cbn [read_option];
    (destruct Hl as [Hl|[Hl|[]]]; [by destruct d|]).
  - destruct d as [|ma [|mi [|b1 [|b0 [|r1 [|r0 [|]]]]]]]; try done. apply reads_one, reads_one, reads_be16, reads_be16.
    rewrite !as_u16_of_be. apply reads_ret.
  - destruct d as [|v [|]]; try done. apply reads_one, reads_ret.
  - destruct d as [|v [|]]; try done. apply reads_one, reads_ret.
  - destruct d as [|v [|]]; try done. apply reads_one, reads_ret.
  - destruct d as [|v [|]]; try done. apply reads_one, reads_ret.
Qed.

Lemma answer_option_nil result t : answer_option result (t, []) = result.
Proof. by destruct t. Qed.

Lemma reads_options os : forall result, Forall answer_option_wf os ->
  reads delivers (read_options (contexts_of os) result) (concat (snd <$> os))
    (fold_left answer_option os result).
Proof.
  induction os as [|[t d] os IH]; intros result Hwf; [apply reads_ret|].
  apply Forall_cons_1 in Hwf as [Ho Hwf]. cbn [contexts_of fmap list_fmap read_options fst snd concat fold_left].
  fold (contexts_of os). destruct (decide (length d = 0%nat)) as [Hz|Hz].
  - destruct d; [|done]. rewrite answer_option_nil. by apply IH.
  - eapply reads_bind; [apply (reads_option (t, d)); [done|by destruct d]|]. by apply IH.
Qed.

(** A server's PRELOGIN answer is understood: when a table of options, laid out with their
    data in order, follows the reset of the reader, the parser returns exactly what the options
    say, ignores those it does not know, and leaves what comes after. *)
Theorem prelogin_answer_is_read_back os fuel r more :
  Forall answer_option_wf os -> (length os < fuel)%nat ->
  delivers (reset_reader r) (option_table os ++ more) ->
  exists r', PreloginResponse_deserialize fuel r =
    (Ok (fold_left answer_option os PreloginResponseModel_new), r') /\ delivers r' more.
Proof.
  intros Hwf Hf Hd. unfold PreloginResponse_deserialize, bind at 1, modify.
  assert (reads delivers (contexts <- read_contexts fuel [] ;; read_options contexts PreloginResponseModel_new)
    (option_table os) (fold_left answer_option os PreloginResponseModel_new)) as H; [|by apply H].
  unfold option_table. rewrite app_assoc. eapply reads_bind; [by apply reads_contexts|]. by apply reads_options.
Qed.
End answer.

Definition answer_options : list (OptionType * bytes) := [
  (Opt_Version, byte_of <$> [16; 0; 16; 2; 0; 1]); (Opt_Encryption, [byte_of 3]);
  (Opt_InstOpt, []); (Opt_ThreadId, []); (Opt_Mars, [byte_of 0]);
  (Opt_Nonce, replicate 32 (byte_of 9)); (Opt_FedAuthRequired, [byte_of 1])].

Definition answer_transport : NetworkTransport :=
  NetworkTransport_new (chunked [tabular_packet true (option_table answer_options)]) 512.

Lemma answer_delivers : delivering true [] (reset_reader answer_transport) (option_table answer_options).
Proof.
  assert (reset_reader answer_transport = answer_transport) as -> by (vm_compute; reflexivity).
  apply fresh_delivers; [lia|]. apply msg_last. vm_compute. reflexivity.
Defined.

Lemma prelogin_answer_is_read_back_witness :
  exists r', PreloginResponse_deserialize 100 answer_transport =
    (Ok {| encryption := ET_Required; federated_auth_supported := true; dbinstance_valid := false;
           mars_enabled := false;
           server_version := {| major := 16; minor := 0; build := 4098; revision := 1 |};
           sql_server_version := SQLServerVersion_from_u8 16 |}, r') /\ delivering true [] r' [].
Proof.
  apply (prelogin_answer_is_read_back answer_options 100 answer_transport []).
  - repeat apply Forall_cons_2; try apply Forall_nil_2; (split_and!; cbn; first [lia | reflexivity | tauto]).
  - cbn. lia.
  - rewrite app_nil_r. apply answer_delivers.
Defined.

(** ** Any answer *)

Section any_answer.
Context {R : Type} {inv : R -> Prop} {left : R -> nat} `{rd : SafeReader R inv left}.

Lemma read_contexts_safe fuel : forall acc r, inv r -> (left r < fuel)%nat ->
  gives_at inv left 0 (fun _ => True) (read_contexts fuel acc) r.
Proof.
  induction fuel as [|fuel IH]; intros acc r Hr Hf; [lia|]. cbn [read_contexts].
  eapply (gives_at_weaken 1); [|lia].
  apply (gives_at_bind 1 0 (fun v => 0 <= v < 256)); [by apply safe_byte|].
  intros token r1 Hr1 _ Hl1. destruct (token =? 255); [by apply gives_ret|].
  eapply (gives_at_weaken 2); [|lia].
  apply (gives_at_bind 2 0 (in_signed 16)); [by apply safe_int16_be|]. intros off r2 Hr2 _ Hl2.
  eapply (gives_at_weaken 2); [|lia].
  apply (gives_at_bind 2 0 (in_signed 16)); [by apply safe_int16_be|]. intros len r3 Hr3 _ Hl3.
  apply IH; [done|lia].
Qed.

Lemma read_option_safe o n result : safe inv left (read_option o n result).
Proof. destruct o; cbn [read_option]; repeat safe_step; safe_end. Qed.

Lemma read_options_safe cs : forall result, safe inv left (read_options cs result).
Proof.
  induction cs as [|[o n] cs IH]; intros result; cbn [read_options]; [safe_end|].
  case_decide; [done|]. eapply safe_bind; [apply read_option_safe|]. intros. apply IH.
Qed.

(** No answer to PRELOGIN makes its parser panic or loop, whatever options, lengths and
    offsets the server sends: with as many turns as the reader has bytes it returns a model or an
    error and keeps the reader's invariant. *)
Theorem prelogin_answer_safe fuel r :
  inv (reset_reader r) -> (left (reset_reader r) < fuel)%nat ->
  completes (fst (PreloginResponse_deserialize fuel r)) /\
  inv (snd (PreloginResponse_deserialize fuel r)).
Proof.
  intros Hr Hf. unfold PreloginResponse_deserialize, bind at 1 3, modify.
  assert (gives_at inv left (0 + 0) (fun _ => True) (contexts <- read_contexts fuel [] ;;
    read_options contexts PreloginResponseModel_new) (reset_reader r)) as (? & ? & _); [|done].
  apply (gives_at_bind 0 0 (fun _ => True)); [by apply read_contexts_safe|].
  intros cs r1 Hr1 _ _. by apply read_options_safe.
Qed.
End any_answer.

Definition short_answer : NetworkTransport :=
  NetworkTransport_new (chunked [tabular_packet true (byte_of <$> [0; 0; 6; 0; 6; 1])]) 512.

Lemma prelogin_answer_safe_witness :
  completes (fst (PreloginResponse_deserialize 100 short_answer)) /\
  transport_wf (snd (PreloginResponse_deserialize 100 short_answer)).
Proof.
  apply prelogin_answer_safe.
  - assert (reset_reader short_answer = short_answer) as -> by (vm_compute; reflexivity).
    apply fresh_transport_wf. lia.
  - apply Nat.ltb_lt. vm_compute. reflexivity.
Defined.
