(* ===== verification/Session.v ===== *)
(** * Session state (src/mssql-tds/src/connection/execution_context.rs, src/mssql-tds/src/handler/handler_factory.rs)

    The transaction and batch state of a connection, the settings negotiated at login and changed
    by ENVCHANGE tokens, and what every change does to them. *)

From stdpp Require Import strings.
From S2P Require Import Prelude Core Unicode PacketReader Tokens TokenParsers.

#[global] Instance SqlCollation_eq : EqDecision SqlCollation.
Proof. solve_decision. Defined.

#[global] Instance TdsVersion_eq : EqDecision TdsVersion.
Proof. solve_decision. Defined.

(** ** Negotiated settings *)

(** What the login keeps of a feature: its kind, whether the server acknowledged it, and the
    session-recovery baseline of the acknowledgement. *)
Record Feature := {
  feature_identifier : FeatureExtension;
  is_acknowledged : bool;
  initial_state_data : option bytes;
}.

Record SessionSettings := {
  packet_size : Z;
  user_name : str;
  supported_features : list Feature;
  ss_mars_enabled : bool;
  pre_login_has_fedauth_supported : bool;
  negotiated_encryption_settings : NegotiatedEncryptionSetting;
}.

Record NegotiatedSettings := {
  ns_client_connection_id : bytes;
  session_settings : SessionSettings;
  ns_database_collation : SqlCollation;
  ns_language : str;
  ns_database : str;
  login_database : str;
  login_language : str;
  login_database_collation : SqlCollation;
  char_set : option str;
  login_ack_tds_version : option TdsVersion;
  login_ack_server_version : option Version;
  server_reported_name : option str;
  database_change_count : Z;
}.

#[export] Instance NegotiatedSettings_eta : Eta NegotiatedSettings := fun s =>
  Build_NegotiatedSettings (ns_client_connection_id s) (session_settings s) (ns_database_collation s) (ns_language s)
    (ns_database s) (login_database s) (login_language s) (login_database_collation s)
    (char_set s) (login_ack_tds_version s) (login_ack_server_version s)
    (server_reported_name s) (database_change_count s).

Definition NegotiatedSettings_new (session_settings : SessionSettings)
    (database_collation : SqlCollation) (language database : str) (char_set : option str)
    (tds_version : option TdsVersion) (server_version : option Version) : NegotiatedSettings := {|
  ns_client_connection_id := replicate 16 (byte_of 0);
  session_settings := session_settings;
  ns_database_collation := database_collation;
  login_database := database;
  login_language := language;
  login_database_collation := database_collation;
  ns_language := language;
  ns_database := database;
  char_set := char_set;
  login_ack_tds_version := tds_version;
  login_ack_server_version := server_version;
  server_reported_name := None;
  database_change_count := 0;
|}.

Definition restore_login_defaults (s : NegotiatedSettings) : NegotiatedSettings :=
  s {{ ns_database := login_database s }}
    {{ ns_language := login_language s }}
    {{ ns_database_collation := login_database_collation s }}
    {{ database_change_count ::= fun n => as_u64 (n + 1) }}.

Definition is_recovery_feature (f : Feature) : bool :=
  bool_decide (feature_identifier f = SRecovery) && is_acknowledged f.

Definition is_session_recovery_acknowledged (s : NegotiatedSettings) : bool :=
  existsb is_recovery_feature (supported_features (session_settings s)).

Definition session_recovery_initial_state (s : NegotiatedSettings) : option bytes :=
  match List.find is_recovery_feature (supported_features (session_settings s)) with
  | Some f => initial_state_data f
  | None => None
  end.

(** ** [ExecutionContext] *)

Record ExecutionContext := {
  transaction_descriptor : Z;
  outstanding_requests : Z;
  has_open_batch : bool;
}.

#[export] Instance ExecutionContext_eta : Eta ExecutionContext := fun c =>
  Build_ExecutionContext (transaction_descriptor c) (outstanding_requests c) (has_open_batch c).

Definition ExecutionContext_new : ExecutionContext :=
  {| transaction_descriptor := 0; outstanding_requests := 1; has_open_batch := false |}.

Definition has_active_transaction (c : ExecutionContext) : bool :=
  negb (transaction_descriptor c =? 0).

Definition set_has_open_batch (open : bool) (c : ExecutionContext) : ExecutionContext :=
  c {{ has_open_batch := open }}.

Definition set_transaction_descriptor (descriptor : Z) (c : ExecutionContext) : ExecutionContext :=
  c {{ transaction_descriptor := descriptor }}.

Definition expected_container (what : string) : Error :=
  ProtocolError ("Expected " +:+ what +:+ " change container").

Definition unimplemented_change (feature : string) : Error :=
  UnimplementedFeature (feature +:+ " environment change") "capture_change_property".

(** [capture_change_property], on the pair of the context and the settings. *)
Definition capture_change_property (change_token : EnvChangeToken)
    : M (ExecutionContext * NegotiatedSettings) unit := fun '(c, s) =>
  let change_type := change_type change_token in
  match sub_type change_token with
  | Env_BeginTransaction | Env_CommitTransaction | Env_RollbackTransaction
  | Env_EnlistDtcTransaction | Env_DefectTransaction =>
      match change_type with
      | EC_UInt64 _ new_value => (Ok tt, (c {{ transaction_descriptor := new_value }}, s))
      | _ => (Err (expected_container "UInt64"), (c, s))
      end
  | Env_Database =>
      match change_type with
      | EC_String _ new_value =>
          (Ok tt, (c, s {{ ns_database := new_value }}
                        {{ database_change_count ::= fun n => as_u64 (n + 1) }}))
      | _ => (Err (expected_container "String"), (c, s))
      end
  | Env_Language =>
      match change_type with
      | EC_String _ new_value => (Ok tt, (c, s {{ ns_language := new_value }}))
      | _ => (Err (expected_container "String"), (c, s))
      end
  | Env_SqlCollation =>
      match change_type with
      | EC_SqlCollation _ (Some collation) => (Ok tt, (c, s {{ ns_database_collation := collation }}))
      | EC_SqlCollation _ None => (Ok tt, (c, s))
      | _ => (Err (expected_container "Collation"), (c, s))
      end
  | Env_PacketSize => (Err (ProtocolError "packet_size change unexpected"), (c, s))
  | Env_CharacterSet => (Err (unimplemented_change "CharacterSet"), (c, s))
  | Env_UnicodeDataSortingLocalId => (Err (unimplemented_change "UnicodeDataSortingLocalId"), (c, s))
  | Env_UnicodeDataSortingComparisonFlags =>
      (Err (unimplemented_change "UnicodeDataSortingComparisonFlags"), (c, s))
  | Env_DatabaseMirroringPartner => (Err (unimplemented_change "DatabaseMirroringPartner"), (c, s))
  | Env_PromoteTransaction => (Err (unimplemented_change "PromoteTransaction"), (c, s))
  | Env_TransactionManagerAddress => (Err (unimplemented_change "TransactionManagerAddress"), (c, s))
  | Env_TransactionEnded => (Err (unimplemented_change "TransactionEnded"), (c, s))
  | Env_ResetConnection => (Ok tt, (c, s))
  | Env_UserInstanceName => (Err (unimplemented_change "UserInstanceName"), (c, s))
  | Env_Routing | Env_EnhancedRouting => (Err (unimplemented_change "Routing"), (c, s))
  | Env_Unknown _ => (Ok tt, (c, s))
  end.

(** A sequence of changes, each applied even if an earlier one was refused. *)
Definition capture_all (ts : list EnvChangeToken) (cs : ExecutionContext * NegotiatedSettings)
    : ExecutionContext * NegotiatedSettings :=
  fold_left (fun cs t => snd (capture_change_property t cs)) ts cs.

(** ** Properties *)

(** The container the parser builds for each kind of change it accepts. *)
Definition container_fits (sub : EnvChangeTokenSubType) (c : EnvChangeContainer) : Prop :=
  match sub, c with
  | (Env_BeginTransaction | Env_CommitTransaction | Env_RollbackTransaction
     | Env_EnlistDtcTransaction | Env_DefectTransaction), EC_UInt64 _ _ => True
  | (Env_Database | Env_Language), EC_String _ _ => True
  | Env_SqlCollation, EC_SqlCollation _ _ => True
  | (Env_BeginTransaction | Env_CommitTransaction | Env_RollbackTransaction
     | Env_EnlistDtcTransaction | Env_DefectTransaction | Env_Database | Env_Language
     | Env_SqlCollation), _ => False
  | _, _ => True
  end.

Ltac step_ok H := apply bind_inv_ok in H as (? & ? & ? & H).

Lemma parse_value_fits {R} `{ops : TdsPacketReader R} n sub c r r' :
  parse_env_change_value n sub r = (Ok c, r') -> container_fits sub c.
Proof.
  intros H. destruct sub; try done; cbn [parse_env_change_value] in H;
    unfold read_string_change, read_transaction_change in H; repeat step_ok H; by injection H as <- <-.
Qed.

(** The session accepts every change the ENVCHANGE parser can produce in the form it has: over
    any reader and any bytes, a parsed transaction, database, language or collation change is
    applied, and never refused for carrying the wrong kind of value. *)
Theorem parsed_changes_are_applied {R} `{ops : TdsPacketReader R} r r' t cs :
  parse_env_change r = (Ok t, r') ->
  In (sub_type t) [Env_BeginTransaction; Env_CommitTransaction; Env_RollbackTransaction;
    Env_EnlistDtcTransaction; Env_DefectTransaction; Env_Database; Env_Language; Env_SqlCollation] ->
  fst (capture_change_property t cs) = Ok tt.
Proof.
  unfold parse_env_change. intros H Hin. repeat step_ok H. injection H as <- _.
  match goal with H : parse_env_change_value _ _ _ = _ |- _ => apply parse_value_fits in H as Hfit end.
  destruct cs as [c s]. unfold capture_change_property. cbn [sub_type change_type] in *.
  destruct (EnvChangeTokenSubType_try_from _); try done; cbn in Hfit;
    repeat match goal with |- context [match ?x with _ => _ end] => destruct x; try done end.
  all: repeat destruct Hin as [Hin|Hin]; done.
Qed.

(** A BEGIN TRANSACTION change with descriptor 5. *)
Definition begin_bytes : ByteReader :=
  le_bytes 2 11 ++ (byte_of <$> [8; 8; 5; 0; 0; 0; 0; 0; 0; 0; 0]).
Definition begin_token : EnvChangeToken :=
  {| sub_type := Env_BeginTransaction; change_type := EC_UInt64 0 5 |}.

Definition sample_collation : SqlCollation :=
  {| info := 0x0D00409; lcid_language_id := 0x409; col_flags := 0xD; sort_id := 52 |}.
Definition sample_settings : NegotiatedSettings :=
  NegotiatedSettings_new
    {| packet_size := 4096; user_name := []; supported_features := []; ss_mars_enabled := false;
       pre_login_has_fedauth_supported := true; negotiated_encryption_settings := Mandatory |}
    sample_collation [101; 110] [109; 97] None None None.

Lemma parsed_changes_are_applied_witness :
  fst (capture_change_property begin_token (ExecutionContext_new, sample_settings)) = Ok tt.
Proof.
  apply (parsed_changes_are_applied begin_bytes [] begin_token);
    [vm_compute; reflexivity|by left].
Defined.

(** What capturing never touches. *)
Definition same_login (s s' : NegotiatedSettings) : Prop :=
  login_database s' = login_database s /\ login_language s' = login_language s /\
  login_database_collation s' = login_database_collation s /\
  session_settings s' = session_settings s.

#[global] Instance same_login_preorder : PreOrder same_login.
Proof.
  split; [by intros s|]. intros s1 s2 s3 (? & ? & ? & ?) (? & ? & ? & ?). split_and!; congruence.
Qed.

Lemma capture_same_login t c s : same_login s (snd (snd (capture_change_property t (c, s)))).
Proof. unfold capture_change_property. repeat case_match; by simplify_eq/=. Qed.

Lemma capture_all_same_login ts : forall c s, same_login s (snd (capture_all ts (c, s))).
Proof.
  induction ts as [|t ts IH]; intros c s; [done|]. cbn [capture_all fold_left].
  pose proof (capture_same_login t c s) as H. destruct (capture_change_property t (c, s)) as [r [c' s']].
  cbn [snd] in *. etransitivity; [done|]. apply IH.
Qed.

(** Whether a token counts as a database change. *)
Definition is_database_change (t : EnvChangeToken) : bool :=
  match sub_type t, change_type t with Env_Database, EC_String _ _ => true | _, _ => false end.

Lemma capture_counts t c s :
  database_change_count (snd (snd (capture_change_property t (c, s)))) =
    if is_database_change t then as_u64 (database_change_count s + 1) else database_change_count s.
Proof. unfold capture_change_property, is_database_change. by repeat case_match; simplify_eq/=. Qed.

Lemma capture_all_counts ts : forall c s, in_unsigned 64 (database_change_count s) ->
  database_change_count (snd (capture_all ts (c, s))) =
    as_u64 (database_change_count s + Z.of_nat (length (filter is_database_change ts))).
Proof.
  induction ts as [|t ts IH]; intros c s Hs; cbn [capture_all fold_left].
  { cbn. rewrite Z.add_0_r. unfold as_u64. by rewrite Z.mod_small. }
  pose proof (capture_counts t c s) as Hc.
  destruct (capture_change_property t (c, s)) as [r [c' s']]. cbn [snd] in *.
  change (database_change_count (snd (capture_all ts (c', s'))) = as_u64
    (database_change_count s + Z.of_nat (length (filter is_database_change (t :: ts))))).
  rewrite filter_cons. unfold as_u64 in *. rewrite IH; destruct (is_database_change t) eqn:E; rewrite Hc.
  - rewrite decide_True by done. cbn [length]. rewrite Zplus_mod_idemp_l. f_equal. lia.
  - rewrite decide_False by (by intros []). done.
  - apply Z.mod_pos_bound. lia.
  - done.
Qed.

(** A connection reset brings the session back to its login: after any sequence of
    environment changes, restoring the defaults gives the database, language and collation of the
    login, and keeps what the login negotiated. *)
Theorem reset_restores_the_login ts c ss collation language database cs tv sv :
  let s := NegotiatedSettings_new ss collation language database cs tv sv in
  let s' := restore_login_defaults (snd (capture_all ts (c, s))) in
  ns_database s' = database /\ ns_language s' = language /\ ns_database_collation s' = collation /\
  session_settings s' = ss.
Proof.
  intros s s'. destruct (capture_all_same_login ts c s) as (? & ? & ? & ?). by split_and!.
Qed.

(** The change counter that invalidates per-database caches moves on every database change the
    server reports, also to the same name, and on every reset: after any sequence of changes and
    a reset it is one more than the number of database changes, modulo 2^64. *)
Theorem every_database_change_counts ts c ss collation language database cs tv sv :
  let s := NegotiatedSettings_new ss collation language database cs tv sv in
  let n := Z.of_nat (length (filter is_database_change ts)) in
  database_change_count (snd (capture_all ts (c, s))) = as_u64 n /\
  database_change_count (restore_login_defaults (snd (capture_all ts (c, s)))) = as_u64 (n + 1).
Proof.
  intros s n. pose proof (capture_all_counts ts c s ltac:(done)) as H. cbn [database_change_count] in H.
  split; [done|]. cbn. rewrite H. unfold as_u64. by rewrite Zplus_mod_idemp_l.
Qed.
