(* ===== verification/SessionRecovery.v ===== *)
(** * Session recovery (src/mssql-tds/src/connection/session_recovery.rs, src/mssql-tds/src/message/features/session_recovery.rs)

    The table of session state a connection keeps so that it can be re-established: what the
    server's acknowledgement and SESSIONSTATE tokens put into it, when recovery is possible, what a
    reconnection must agree on, and the block a reconnect sends. *)

From stdpp Require Import strings.
From S2P Require Import Prelude Core Unicode PacketReader PacketWriter Tokens Session.

(** ** The table *)

Record SessionStateRecord := { rec_recoverable : bool; rec_sequence : Z; rec_data : bytes }.

(** One slot per state id. *)
Abbreviation StateSlots := (list (option SessionStateRecord)).
Definition STATE_SLOT_COUNT : nat := 256.
Definition empty_state_slots : StateSlots := replicate STATE_SLOT_COUNT None.

Record SessionStateTable := {
  initial_state : StateSlots;
  delta : StateSlots;
  initial_database : str;
  initial_language : str;
  initial_collation : SqlCollation;
  master_recovery_disabled : bool;
}.

#[export] Instance SessionStateTable_eta : Eta SessionStateTable := fun t =>
  Build_SessionStateTable (initial_state t) (delta t) (initial_database t) (initial_language t)
    (initial_collation t) (master_recovery_disabled t).

(** [SqlCollation::default()]. *)
Definition default_collation : SqlCollation :=
  {| info := 0; lcid_language_id := 0; col_flags := 0; sort_id := 0 |}.

Definition SessionStateTable_new : SessionStateTable := {|
  initial_state := empty_state_slots;
  delta := empty_state_slots;
  initial_database := [];
  initial_language := [];
  initial_collation := default_collation;
  master_recovery_disabled := false;
|}.

Definition update_state (state_id sequence : Z) (recoverable : bool) (data : bytes)
    (t : SessionStateTable) : SessionStateTable :=
  t {{ delta ::= <[Z.to_nat state_id := Some {| rec_recoverable := recoverable;
                                               rec_sequence := sequence; rec_data := data |}]> }}.

(** [parse_feature_ack]: [rest] is [data[i..]]; an entry takes two bytes at least, so the length
    of the payload bounds the turns.  [inr (offset, state_id)] reports a truncated entry. *)
Fixpoint parse_feature_ack_loop (fuel : nat) (i : nat) (rest : bytes) (entries : list (Z * bytes))
    : option (list (Z * bytes) + nat * Z) :=
  match fuel with
  | O => None
  | S fuel =>
      match rest with
      | [] => Some (inl entries)
      | id :: rest =>
          let entry_start := i in
          let state_id := byte_val id in
          match rest with
          | [] => Some (inr (entry_start, state_id))
          | len_byte :: rest =>
              let with_value (i : nat) (len : nat) (rest : bytes) :=
                if decide (len <= length rest)%nat then
                  parse_feature_ack_loop fuel (i + len) (drop len rest)
                    (entries ++ [(state_id, take len rest)])
                else Some (inr (entry_start, state_id)) in
              if byte_val len_byte =? 0xFF then
                if decide (4 <= length rest)%nat then
                  with_value (i + 6)%nat (Z.to_nat (of_le (take 4 rest))) (drop 4 rest)
                else Some (inr (entry_start, state_id))
              else with_value (i + 2)%nat (Z.to_nat (byte_val len_byte)) rest
          end
      end
  end.

Definition parse_feature_ack (data : bytes) : option (list (Z * bytes) + nat * Z) :=
  parse_feature_ack_loop (S (length data)) 0 data [].

Definition abort_partial_baseline (t : SessionStateTable) : SessionStateTable :=
  t {{ master_recovery_disabled := true }}.

Definition set_initial (t : SessionStateTable) (e : Z * bytes) : SessionStateTable :=
  t {{ initial_state ::= <[Z.to_nat (fst e) := Some {| rec_recoverable := true; rec_sequence := 0;
                                                      rec_data := snd e |}]> }}.

Definition seed_initial_state_from_feature_ack (data : bytes) (t : SessionStateTable)
    : SessionStateTable :=
  match parse_feature_ack data with
  | Some (inl entries) => fold_left set_initial entries t
  | _ => abort_partial_baseline t
  end.

Definition apply_feature_ack_to_delta (data : bytes) (t : SessionStateTable) : SessionStateTable :=
  let t := t {{ delta := empty_state_slots }} in
  match parse_feature_ack data with
  | Some (inl entries) => fold_left (fun t e => update_state (fst e) 0 true (snd e) t) entries t
  | _ => abort_partial_baseline t
  end.

(** The records of a SESSIONSTATE token, shared by [seed_initial_state] and
    [process_session_state]. *)
Definition apply_token (t : SessionStateTable) (token : SessionStateToken) : SessionStateTable :=
  if sequence_number token =? 2 ^ 32 - 1 then t {{ master_recovery_disabled := true }}
  else fold_left (fun t e => update_state (state_id e) (sequence_number token) (recoverable e)
                               (data e) t) (states token) t.

Definition seed_initial_state (database language : str) (collation : SqlCollation)
    (tokens : list SessionStateToken) (feature_ack_initial_state : option bytes)
    (t : SessionStateTable) : SessionStateTable :=
  let t := t {{ initial_database := database }} {{ initial_language := language }}
             {{ initial_collation := collation }} in
  let t := match feature_ack_initial_state with
           | Some data => seed_initial_state_from_feature_ack data t
           | None => t
           end in
  fold_left apply_token tokens t.

(** [.flatten().any(|record| !record.recoverable)]. *)
Definition unrecoverable (o : option SessionStateRecord) : bool :=
  match o with Some r => negb (rec_recoverable r) | None => false end.

Definition is_session_recoverable (t : SessionStateTable) : bool :=
  negb (master_recovery_disabled t) && negb (existsb unrecoverable (initial_state t ++ delta t)).

Definition reset (t : SessionStateTable) : SessionStateTable :=
  t {{ delta := empty_state_slots }}.

Record SessionRecoveryData := {
  rd_initial_state : StateSlots;
  rd_delta : StateSlots;
  rd_initial_database : str;
  rd_initial_language : str;
  rd_initial_collation : SqlCollation;
  rd_database : str;
  rd_language : str;
  rd_collation : SqlCollation;
}.

Definition snapshot (current_database current_language : option str)
    (current_collation : option SqlCollation) (t : SessionStateTable) : SessionRecoveryData := {|
  rd_initial_state := initial_state t;
  rd_delta := delta t;
  rd_initial_database := initial_database t;
  rd_initial_language := initial_language t;
  rd_initial_collation := initial_collation t;
  rd_database := default (initial_database t) current_database;
  rd_language := default (initial_language t) current_language;
  rd_collation := default (initial_collation t) current_collation;
|}.

(** ** Block lengths *)

Definition state_value_wire_length (data_len : nat) : Z :=
  if decide (data_len < 255)%nat then 1 + as_u32 (Z.of_nat data_len) else 5 + as_u32 (Z.of_nat data_len).

Definition slots_length (slots : StateSlots) : Z :=
  fold_left (fun len o => match o with
                          | Some r => len + 1 + state_value_wire_length (length (rec_data r))
                          | None => len
                          end) slots 0.

Definition b_varchar_length (s : str) : Z := 1 + 2 * Z.of_nat (length (utf16 s)).

(** The lengths are [u32] sums: the additions wrap, which taking the sum modulo 2^32 is. *)
Definition initial_block_length (d : SessionRecoveryData) : Z := as_u32 (
  b_varchar_length (rd_initial_database d) +
  (if decide (rd_initial_collation d = default_collation) then 1 else 6) +
  b_varchar_length (rd_initial_language d) +
  slots_length (rd_initial_state d)).

Definition delta_block_length (d : SessionRecoveryData) : Z := as_u32 (
  (if decide (rd_database d = rd_initial_database d) then 1 else b_varchar_length (rd_database d)) +
  (if decide (rd_collation d = rd_initial_collation d) then 1 else 6) +
  (if decide (rd_language d = rd_initial_language d) then 1 else b_varchar_length (rd_language d)) +
  slots_length (rd_delta d)).

Definition total_data_length (d : SessionRecoveryData) : Z :=
  as_u32 (8 + initial_block_length d + delta_block_length d).

(** ** The feature of LOGIN7 *)

Record SessionRecoveryFeature := {
  acknowledged : bool;
  connect_retry_count : Z;
  recovery_data : option SessionRecoveryData;
  srf_initial_state_data : option bytes;
}.

#[export] Instance SessionRecoveryFeature_eta : Eta SessionRecoveryFeature := fun f =>
  Build_SessionRecoveryFeature (acknowledged f) (connect_retry_count f) (recovery_data f)
    (srf_initial_state_data f).

Definition SessionRecoveryFeature_new (connect_retry_count : Z) : SessionRecoveryFeature :=
  {| acknowledged := false; connect_retry_count := connect_retry_count; recovery_data := None;
     srf_initial_state_data := None |}.

Definition new_for_reconnection (d : SessionRecoveryData) : SessionRecoveryFeature :=
  {| acknowledged := false; connect_retry_count := 1; recovery_data := Some d;
     srf_initial_state_data := None |}.

Definition is_requested (f : SessionRecoveryFeature) : bool := 0 <? connect_retry_count f.

Definition data_length (f : SessionRecoveryFeature) : Z :=
  match recovery_data f with
  | Some d => as_i32 (as_u32 (1 + 4 + 4 + initial_block_length d + 4 + delta_block_length d))
  | None => 1 + 4
  end.

Definition write_b_varchar (value : str) : M PacketWriter unit :=
  let char_count := length (utf16 value) in
  write_byte_async (as_u8 (Z.of_nat char_count)) ;;
  if decide (0 < char_count)%nat then write_string_unicode_async value else ret tt.

Definition write_collation (collation : SqlCollation) : M PacketWriter unit :=
  if decide (collation = default_collation) then write_byte_async 0
  else
    write_byte_async 5 ;;
    write_u32_async (info collation) ;;
    write_byte_async (sort_id collation).

(** [write_state_entries]: the loop from slot [i] on. *)
Fixpoint write_state_entries (i : Z) (states : StateSlots) : M PacketWriter unit :=
  match states with
  | [] => ret tt
  | None :: states => write_state_entries (i + 1) states
  | Some record :: states =>
      write_byte_async (as_u8 i) ;;
      let data_len := length (rec_data record) in
      (if decide (data_len < 255)%nat then write_byte_async (as_u8 (Z.of_nat data_len))
       else
         write_byte_async 0xFF ;;
         write_u32_async (as_u32 (Z.of_nat data_len))) ;;
      write_async (rec_data record) ;;
      write_state_entries (i + 1) states
  end.

Definition SessionRecoveryFeature_serialize (f : SessionRecoveryFeature) : M PacketWriter unit :=
  write_byte_async (FeatureExtension_u8 SRecovery) ;;
  match recovery_data f with
  | Some d =>
      write_u32_async (total_data_length d) ;;
      write_u32_async (initial_block_length d) ;;
      write_b_varchar (rd_initial_database d) ;;
      write_collation (rd_initial_collation d) ;;
      write_b_varchar (rd_initial_language d) ;;
      write_state_entries 0 (rd_initial_state d) ;;
      write_u32_async (delta_block_length d) ;;
      (if decide (rd_database d = rd_initial_database d) then write_byte_async 0
       else write_b_varchar (rd_database d)) ;;
      (if decide (rd_collation d = rd_initial_collation d) then write_byte_async 0
       else write_collation (rd_collation d)) ;;
      (if decide (rd_language d = rd_initial_language d) then write_byte_async 0
       else write_b_varchar (rd_language d)) ;;
      write_state_entries 0 (rd_delta d)
  | None => write_i32_async 0
  end.

Definition SessionRecoveryFeature_deserialize (data : bytes) (f : SessionRecoveryFeature)
    : SessionRecoveryFeature :=
  match data with [] => f | _ => f {{ srf_initial_state_data := Some data }} end.

(** ** [RecoveryContext] *)

(** The kept copy of the connection configuration is left out: nothing here reads it. *)
Record RecoveryContext := {
  session_recovery_negotiated : bool;
  session_state_table : SessionStateTable;
  original_tds_version : option TdsVersion;
  original_server_version : option Version;
  original_encryption_level : option NegotiatedEncryptionSetting;
  original_mars_enabled : bool;
  recovery_count : Z;
}.

#[export] Instance RecoveryContext_eta : Eta RecoveryContext := fun c =>
  Build_RecoveryContext (session_recovery_negotiated c) (session_state_table c)
    (original_tds_version c) (original_server_version c) (original_encryption_level c)
    (original_mars_enabled c) (recovery_count c).

Definition RecoveryContext_new : RecoveryContext := {|
  session_recovery_negotiated := false;
  session_state_table := SessionStateTable_new;
  original_tds_version := None;
  original_server_version := None;
  original_encryption_level := None;
  original_mars_enabled := false;
  recovery_count := 0;
|}.

Definition initialize (settings : NegotiatedSettings) (login_tokens : list SessionStateToken)
    (c : RecoveryContext) : RecoveryContext :=
  c {{ original_tds_version := login_ack_tds_version settings }}
    {{ original_server_version := login_ack_server_version settings }}
    {{ original_encryption_level :=
         Some (negotiated_encryption_settings (session_settings settings)) }}
    {{ original_mars_enabled := ss_mars_enabled (session_settings settings) }}
    {{ session_recovery_negotiated := is_session_recovery_acknowledged settings }}
    {{ session_state_table ::=
         seed_initial_state (ns_database settings) (ns_language settings)
           (ns_database_collation settings) login_tokens (session_recovery_initial_state settings) }}.

Definition is_recovery_possible (execution_context : ExecutionContext) (c : RecoveryContext) : bool :=
  session_recovery_negotiated c && is_session_recoverable (session_state_table c) &&
  negb (has_open_batch execution_context) && negb (has_active_transaction execution_context).

Definition validation_failed (what : string) : Error := ReconnectionValidationFailed what.

Definition validate_reconnection (new_settings : NegotiatedSettings) (c : RecoveryContext)
    : TdsResult unit :=
  if negb (is_session_recovery_acknowledged new_settings)
  then Err (validation_failed "Server did not acknowledge session recovery on reconnection")
  else if decide (original_tds_version c <> login_ack_tds_version new_settings)
  then Err (validation_failed "TDS version mismatch")
  else
    let major_versions_match :=
      match original_server_version c, login_ack_server_version new_settings with
      | Some orig, Some new_ver => major orig =? major new_ver
      | None, None => true
      | _, _ => false
      end in
    if negb major_versions_match then Err (validation_failed "Server major version mismatch")
    else if decide (original_encryption_level c <>
                    Some (negotiated_encryption_settings (session_settings new_settings)))
    then Err (validation_failed "Encryption level mismatch")
    else if negb (Bool.eqb (original_mars_enabled c) (ss_mars_enabled (session_settings new_settings)))
    then Err (validation_failed "MARS setting mismatch")
    else Ok tt.

Definition process_session_state (token : SessionStateToken) (c : RecoveryContext) : RecoveryContext :=
  c {{ session_state_table ::= fun t => apply_token t token }}.
