(* ===== verification/SessionRecoveryLaws.v ===== *)
(** * Session recovery is sound

    What a reconnect replays is what the session recorded, the lengths it declares are the lengths
    it writes, a malformed acknowledgement or a disabling token rules recovery out for good, and a
    reconnection is accepted only when it agrees with the original connection. *)

From stdpp Require Import strings relations.
From S2P Require Import Prelude Core Unicode PacketReader PacketWriter Writer WriterText.
From S2P Require Import Tokens TokenLaws Session SessionRecovery.

(** ** State entries *)

Definition entry_bytes (e : Z * bytes) : bytes :=
  [byte_of (fst e)] ++ encode_state_len (Z.of_nat (length (snd e))) ++ snd e.

Definition entry_wf (e : Z * bytes) : Prop := 0 <= fst e < 256 /\ Z.of_nat (length (snd e)) < 2 ^ 32.

(** The entries of the slots from [i] on. *)
Fixpoint slot_entries (i : Z) (slots : StateSlots) : list (Z * bytes) :=
  match slots with
  | [] => []
  | None :: slots => slot_entries (i + 1) slots
  | Some r :: slots => (i, rec_data r) :: slot_entries (i + 1) slots
  end.

Definition slots_bytes (slots : StateSlots) : bytes := concat (entry_bytes <$> slot_entries 0 slots).

Definition slots_wf (slots : StateSlots) : Prop :=
  length slots = STATE_SLOT_COUNT /\
  Forall (fun o => match o with Some r => Z.of_nat (length (rec_data r)) < 2 ^ 32 | None => True end) slots.

Lemma slot_entries_wf slots : forall i, 0 <= i -> i + Z.of_nat (length slots) <= 256 ->
  Forall (fun o => match o with Some r => Z.of_nat (length (rec_data r)) < 2 ^ 32 | None => True end) slots ->
  Forall entry_wf (slot_entries i slots).
Proof.
  induction slots as [|[r|] slots IH]; intros i Hi Hl Hs; cbn [slot_entries length] in *; [done|..];
    apply Forall_cons_1 in Hs as [Hr Hs].
  - apply Forall_cons_2; [split; cbn; [lia|done]|]. apply IH; [lia|lia|done].
  - apply IH; [lia|lia|done].
Qed.

Lemma write_state_entries_emits slots : forall i, 0 <= i -> i + Z.of_nat (length slots) <= 256 ->
  Forall (fun o => match o with Some r => Z.of_nat (length (rec_data r)) < 2 ^ 32 | None => True end) slots ->
  emits (write_state_entries i slots) (concat (entry_bytes <$> slot_entries i slots)) tt.
Proof.
  induction slots as [|[r|] slots IH]; intros i Hi Hl Hs; cbn [write_state_entries slot_entries length] in *;
    [apply emits_ret|..]; apply Forall_cons_1 in Hs as [Hr Hs]; [|apply IH; [lia|lia|done]].
  cbn [fmap list_fmap concat]. unfold entry_bytes at 1. cbn [fst snd]. rewrite <- !app_assoc.
  unfold as_u8, as_u32. rewrite Z.mod_small by lia.
  eapply emits_bind; [apply write_byte_emits|]. eapply emits_bind; [|eapply emits_bind;
    [apply write_async_emits|apply IH; [lia|lia|done]]].
  unfold encode_state_len. destruct (decide _) as [Hs'|Hs'].
  - rewrite (proj2 (Z.ltb_lt _ _)), Z.mod_small by lia. apply write_byte_emits.
  - rewrite (proj2 (Z.ltb_ge _ _)), Z.mod_small by lia. emits_step. apply write_u32_emits.
Qed.

Lemma parse_entries es : forall fuel i acc,
  (length es < fuel)%nat -> Forall entry_wf es ->
  parse_feature_ack_loop fuel i (concat (entry_bytes <$> es)) acc = Some (inl (acc ++ es)).
Proof.
  induction es as [|[id d] es IH]; intros [|fuel] i acc Hf Hwf; cbn [length] in Hf; try lia.
  { by rewrite app_nil_r. }
  apply Forall_cons_1 in Hwf as [[Hid Hd] Hwf]. cbn [fst snd] in *.
  cbn [fmap list_fmap concat]. unfold entry_bytes at 1, encode_state_len. cbn [fst snd].
  rewrite <- !app_assoc. cbn [app parse_feature_ack_loop].
  assert (forall j fuel', (length es < fuel')%nat ->
    (if decide (length d <= length (d ++ concat (entry_bytes <$> es)))%nat
     then parse_feature_ack_loop fuel' j (drop (length d) (d ++ concat (entry_bytes <$> es)))
            (acc ++ [(byte_val (byte_of id), take (length d) (d ++ concat (entry_bytes <$> es)))])
     else Some (inr (i, byte_val (byte_of id)))) = Some (inl (acc ++ (id, d) :: es))) as Hv.
  { intros j fuel' Hf'. rewrite decide_True by solve_len.
    rewrite drop_app_length, take_app_length, byte_val_of, IH by (done || lia).
    by rewrite <- app_assoc. }
  destruct (Z.ltb_spec (Z.of_nat (length d)) 255).
  - cbn [app]. rewrite byte_val_of, (proj2 (Z.eqb_neq _ _)), Nat2Z.id by lia. apply Hv. lia.
  - cbn [app]. rewrite byte_val_of, Z.eqb_refl by lia.
    rewrite decide_True by solve_len. rewrite take_app_length', drop_app_length' by solve_len.
    rewrite of_le_unsigned, Nat2Z.id by (split; lia). apply Hv. lia.
Qed.

Lemma length_entries es : (2 * length es <= length (concat (entry_bytes <$> es)))%nat.
Proof.
  induction es as [|e es IH]; [done|]. cbn [fmap list_fmap concat length].
  unfold entry_bytes at 1. rewrite !length_app. unfold encode_state_len.
  destruct (_ <? _); rewrite ?length_app; cbn [length]; lia.
Qed.

Lemma parse_feature_ack_entries es :
  Forall entry_wf es -> parse_feature_ack (concat (entry_bytes <$> es)) = Some (inl es).
Proof. intros. pose proof (length_entries es). apply (parse_entries es); [lia|done]. Qed.

(** The payload's length is enough for the loop. *)
Lemma parse_feature_ack_loop_total fuel : forall i rest acc, (length rest < fuel)%nat ->
  parse_feature_ack_loop fuel i rest acc <> None.
Proof.
  induction fuel as [|fuel IH]; intros i rest acc Hf; [lia|]. cbn [parse_feature_ack_loop].
  destruct rest as [|id [|lb rest]]; try done. cbn [length] in Hf.
  destruct (_ =? 255); [destruct (decide _); [|done]|]; (destruct (decide _); [|done]);
    apply IH; rewrite !length_drop; lia.
Qed.

(** ** Replay *)

(** What an acknowledgement can restore of a record. *)
Definition restored (r : SessionStateRecord) : SessionStateRecord :=
  {| rec_recoverable := true; rec_sequence := 0; rec_data := rec_data r |}.

Definition restored_slots (slots : StateSlots) : StateSlots :=
  List.map (option_map restored) slots.

Lemma fold_update_delta es : forall t,
  delta (fold_left (fun t e => update_state (fst e) 0 true (snd e) t) es t) =
  fold_left (fun l e => <[Z.to_nat (fst e) := Some {| rec_recoverable := true; rec_sequence := 0;
                                                      rec_data := snd e |}]> l) es (delta t).
Proof. induction es as [|e es IH]; intros t; [done|]. cbn [fold_left]. by rewrite IH. Qed.

Lemma insert_middle {A} (pre : list A) x y l : <[length pre := x]> (pre ++ y :: l) = pre ++ x :: l.
Proof. by rewrite insert_app_r_alt, Nat.sub_diag by done. Qed.

Lemma replay_slots slots : forall (pre : StateSlots) i, i = Z.of_nat (length pre) ->
  fold_left (fun (l : StateSlots) e => <[Z.to_nat (fst e) := Some {| rec_recoverable := true;
      rec_sequence := 0; rec_data := snd e |}]> l) (slot_entries i slots)
    (pre ++ replicate (length slots) None) = pre ++ restored_slots slots.
Proof.
  induction slots as [|[r|] slots IH]; intros pre i ->; cbn [slot_entries length replicate]; [done|..].
  - cbn [fold_left fst snd]. rewrite Nat2Z.id, (insert_middle pre).
    rewrite (cons_middle _ pre), app_assoc, (IH (pre ++ [_])) by (rewrite length_app; cbn; lia).
    by rewrite <- app_assoc.
  - rewrite (cons_middle None pre), app_assoc, (IH (pre ++ [None])) by (rewrite length_app; cbn; lia).
    by rewrite <- app_assoc.
Qed.

(** What a reconnect replays is what the session recorded: the state block is written as the
    occupied slots in order, and a server that echoes these bytes in its acknowledgement makes the
    client rebuild exactly the recorded data of every slot, for values of any length. *)
Theorem recovery_state_round_trip slots t :
  slots_wf slots ->
  emits (write_state_entries 0 slots) (slots_bytes slots) tt /\
  delta (apply_feature_ack_to_delta (slots_bytes slots) t) = restored_slots slots /\
  master_recovery_disabled (apply_feature_ack_to_delta (slots_bytes slots) t) =
    master_recovery_disabled t.
Proof.
  intros [Hl Hs]. unfold slots_bytes, STATE_SLOT_COUNT in *.
  split; [apply write_state_entries_emits; [lia|lia|done]|]. unfold apply_feature_ack_to_delta.
  rewrite parse_feature_ack_entries by (apply slot_entries_wf; [lia|lia|done]). split.
  - rewrite fold_update_delta. cbn [delta]. unfold empty_state_slots, STATE_SLOT_COUNT.
    rewrite <- Hl. by apply (replay_slots slots [] 0).
  - generalize (slot_entries 0 slots). intros es.
    assert (forall t, master_recovery_disabled (fold_left (fun t e => update_state (fst e) 0 true
      (snd e) t) es t) = master_recovery_disabled t) as ->; [|done].
    induction es as [|e es IH]; intros t'; [done|]. cbn [fold_left]. by rewrite IH.
Qed.

Definition sample_slots : StateSlots :=
  <[3%nat := Some {| rec_recoverable := true; rec_sequence := 9; rec_data := [byte_of 1; byte_of 2] |}]>
  (<[255%nat := Some {| rec_recoverable := true; rec_sequence := 4; rec_data := replicate 300 (byte_of 7) |}]>
     empty_state_slots).

Lemma sample_slots_wf : slots_wf sample_slots.
Proof.
  split; [reflexivity|]. unfold sample_slots. apply Forall_insert; [|vm_compute; done].
  apply Forall_insert; [|vm_compute; done]. apply Forall_replicate. exact I.
Defined.

Lemma recovery_state_round_trip_witness :
  emits (write_state_entries 0 sample_slots) (slots_bytes sample_slots) tt /\
  delta (apply_feature_ack_to_delta (slots_bytes sample_slots) SessionStateTable_new) =
    restored_slots sample_slots /\
  master_recovery_disabled (apply_feature_ack_to_delta (slots_bytes sample_slots) SessionStateTable_new) = false.
Proof. apply (recovery_state_round_trip sample_slots SessionStateTable_new sample_slots_wf). Defined.

(** ** The table over a session *)

(** What can happen to the table while the session lasts. *)
Inductive table_step : SessionStateTable -> SessionStateTable -> Prop :=
  | step_token t token : table_step t (apply_token t token)
  | step_reset t : table_step t (reset t)
  | step_ack t data : table_step t (apply_feature_ack_to_delta data t).

(** What every step keeps. *)
Definition kept (t t' : SessionStateTable) : Prop :=
  initial_state t' = initial_state t /\ initial_database t' = initial_database t /\
  initial_language t' = initial_language t /\ initial_collation t' = initial_collation t /\
  (master_recovery_disabled t = true -> master_recovery_disabled t' = true).

#[global] Instance kept_preorder : PreOrder kept.
Proof.
  split; [by intros t|]. intros t1 t2 t3 (? & ? & ? & ? & ?) (? & ? & ? & ? & ?).
  split_and!; try congruence. auto.
Qed.

Lemma fold_kept {E} (f : SessionStateTable -> E -> SessionStateTable) :
  (forall t e, kept t (f t e)) -> forall es t, kept t (fold_left f es t).
Proof.
  intros Hf es. induction es as [|e es IH]; intros t; [done|]. cbn [fold_left].
  etransitivity; [apply Hf|apply IH].
Qed.

Lemma apply_token_kept t token : kept t (apply_token t token).
Proof. unfold apply_token. destruct (_ =? _); [done|]. by apply fold_kept. Qed.

Lemma step_kept t t' : table_step t t' -> kept t t'.
Proof.
  destruct 1 as [t token|t|t data]; [apply apply_token_kept|done|].
  unfold apply_feature_ack_to_delta.
  destruct (parse_feature_ack data) as [[es|[]]|]; [|done..].
  transitivity (t {{ delta := empty_state_slots }}); [done|]. by apply fold_kept.
Qed.

(** Recovery stays ruled out and the baseline stays put: over any sequence of SESSIONSTATE
    tokens, resets and recovery acknowledgements, the login baseline is never changed, and once
    recovery has been disabled it is never possible again. *)
Theorem recovery_stays_disabled t t' :
  rtc table_step t t' -> kept t t' /\
  (master_recovery_disabled t = true -> forall ec c, session_state_table c = t' ->
     is_recovery_possible ec c = false).
Proof.
  intros Hr. assert (kept t t') as Hk.
  { induction Hr as [|t1 t2 t3 Hs _ IH]; [done|]. etransitivity; [by apply step_kept|done]. }
  split; [done|]. intros Hd ec c <-. destruct Hk as (_ & _ & _ & _ & Hk).
  unfold is_recovery_possible, is_session_recoverable. rewrite (Hk Hd). cbn [negb andb].
  by rewrite andb_false_r.
Qed.

Lemma recovery_stays_disabled_witness :
  let t := SessionStateTable_new {{ master_recovery_disabled := true }} in
  is_recovery_possible ExecutionContext_new
    (RecoveryContext_new {{ session_recovery_negotiated := true }} {{ session_state_table := reset t }}) = false.
Proof.
  intros t. apply (proj2 (recovery_stays_disabled t (reset t) (rtc_once _ _ (step_reset t))) eq_refl).
  reflexivity.
Defined.

(** A truncated acknowledgement rules recovery out: for every payload the parse either yields
    entries or reports where it was cut, and in the second case neither the seeded nor the
    replaced table can be recovered. *)
Theorem truncated_ack_disables_recovery data :
  (exists es, parse_feature_ack data = Some (inl es)) \/
  (exists at_, parse_feature_ack data = Some (inr at_) /\
     forall t, is_session_recoverable (seed_initial_state_from_feature_ack data t) = false /\
               is_session_recoverable (apply_feature_ack_to_delta data t) = false).
Proof.
  pose proof (parse_feature_ack_loop_total (S (length data)) 0 data [] ltac:(lia)) as Hn.
  fold (parse_feature_ack data) in Hn.
  unfold seed_initial_state_from_feature_ack, apply_feature_ack_to_delta.
  destruct (parse_feature_ack data) as [[es|at_]|]; [left; by exists es|right; by exists at_|done].
Qed.

(** ** The reconnect block *)

Definition collation_bytes (c : SqlCollation) : bytes :=
  if decide (c = default_collation) then [byte_of 0]
  else [byte_of 5] ++ le_bytes 4 (info c) ++ [byte_of (sort_id c)].

Definition initial_block (d : SessionRecoveryData) : bytes :=
  b_varchar (rd_initial_database d) ++ collation_bytes (rd_initial_collation d) ++
  b_varchar (rd_initial_language d) ++ slots_bytes (rd_initial_state d).

Definition delta_block (d : SessionRecoveryData) : bytes :=
  (if decide (rd_database d = rd_initial_database d) then [byte_of 0] else b_varchar (rd_database d)) ++
  (if decide (rd_collation d = rd_initial_collation d) then [byte_of 0] else collation_bytes (rd_collation d)) ++
  (if decide (rd_language d = rd_initial_language d) then [byte_of 0] else b_varchar (rd_language d)) ++
  slots_bytes (rd_delta d).

(** Names of one length byte, and blocks that a [u32] can measure. *)
Definition recovery_wf (d : SessionRecoveryData) : Prop :=
  short_str (rd_initial_database d) /\ short_str (rd_initial_language d) /\
  short_str (rd_database d) /\ short_str (rd_language d) /\
  slots_wf (rd_initial_state d) /\ slots_wf (rd_delta d) /\
  Z.of_nat (length (initial_block d) + length (delta_block d)) < 2 ^ 30.

(** The client's collation is not the unset one, unless it is the login's. *)
Definition collation_kept (d : SessionRecoveryData) : Prop :=
  rd_collation d = default_collation -> rd_initial_collation d = default_collation.

Lemma write_b_varchar_emits s : short_str s -> emits (write_b_varchar s) (b_varchar s) tt.
Proof.
  intros [Hs Hl]. unfold write_b_varchar, b_varchar, as_u8. rewrite Z.mod_small by lia.
  apply (emits_bind _ _ [byte_of (Z.of_nat (length (utf16 s)))] (units_le (utf16 s)) tt);
    [apply write_byte_emits|].
  case_decide as H; [by apply write_string_emits|].
  destruct (utf16 s) as [|u us]; [apply emits_ret|cbn in H; lia].
Qed.

Lemma write_collation_emits c : emits (write_collation c) (collation_bytes c) tt.
Proof.
  unfold write_collation, collation_bytes. case_decide; [apply write_byte_emits|].
  do 2 emits_step. apply write_byte_emits.
Qed.

Lemma length_entry_bytes e : Z.of_nat (length (snd e)) < 2 ^ 32 ->
  Z.of_nat (length (entry_bytes e)) = 1 + state_value_wire_length (length (snd e)).
Proof.
  intros He. unfold entry_bytes, encode_state_len, state_value_wire_length, as_u32.
  rewrite !length_app, Z.mod_small by lia. cbn [length].
  case_decide; [rewrite (proj2 (Z.ltb_lt _ _)) by lia|rewrite (proj2 (Z.ltb_ge _ _)) by lia];
    rewrite ?length_app, ?length_le_bytes; cbn [length]; lia.
Qed.

Lemma slots_length_acc slots : forall a,
  fold_left (fun len o => match o with
    | Some r => len + 1 + state_value_wire_length (length (rec_data r)) | None => len end) slots a =
  a + slots_length slots.
Proof.
  unfold slots_length. induction slots as [|[r|] slots IH]; intros a; cbn [fold_left]; [lia|..]; [|apply IH].
  rewrite IH, (IH (0 + 1 + _)). lia.
Qed.

Lemma length_slots_bytes slots : forall i,
  Forall (fun o => match o with Some r => Z.of_nat (length (rec_data r)) < 2 ^ 32 | None => True end) slots ->
  Z.of_nat (length (concat (entry_bytes <$> slot_entries i slots))) = slots_length slots.
Proof.
  induction slots as [|[r|] slots IH]; intros i Hs; cbn [slot_entries]; [done|..];
    apply Forall_cons_1 in Hs as [Hr Hs]; unfold slots_length; cbn [fold_left]; [|by apply IH].
  cbn [fmap list_fmap concat]. rewrite length_app, Nat2Z.inj_add, length_entry_bytes by done.
  rewrite slots_length_acc. cbn [snd]. rewrite <- (IH (i + 1) Hs). lia.
Qed.

Lemma length_b_varchar s : Z.of_nat (length (b_varchar s)) = b_varchar_length s.
Proof. unfold b_varchar, b_varchar_length. cbn [length]. rewrite length_units_le. lia. Qed.

Lemma length_initial_block d :
  recovery_wf d -> initial_block_length d = Z.of_nat (length (initial_block d)).
Proof.
  intros (_ & _ & _ & _ & [_ Hs] & _ & Hl). unfold initial_block_length, as_u32.
  assert (Z.of_nat (length (initial_block d)) = b_varchar_length (rd_initial_database d) +
    (if decide (rd_initial_collation d = default_collation) then 1 else 6) +
    b_varchar_length (rd_initial_language d) + slots_length (rd_initial_state d)) as <-;
    [|rewrite Z.mod_small; lia].
  unfold initial_block, slots_bytes, collation_bytes.
  rewrite !length_app, !Nat2Z.inj_add, !length_b_varchar, length_slots_bytes by done.
  case_decide; rewrite ?length_app, ?length_le_bytes; cbn [length]; lia.
Qed.

Lemma length_delta_block d :
  recovery_wf d -> collation_kept d -> delta_block_length d = Z.of_nat (length (delta_block d)).
Proof.
  intros (_ & _ & _ & _ & _ & [_ Hs] & Hl) Hk. unfold delta_block_length, as_u32.
  assert (Z.of_nat (length (delta_block d)) =
    (if decide (rd_database d = rd_initial_database d) then 1 else b_varchar_length (rd_database d)) +
    (if decide (rd_collation d = rd_initial_collation d) then 1 else 6) +
    (if decide (rd_language d = rd_initial_language d) then 1 else b_varchar_length (rd_language d)) +
    slots_length (rd_delta d)) as <-; [|rewrite Z.mod_small; lia].
  unfold delta_block, slots_bytes, collation_bytes.
  rewrite !length_app, !Nat2Z.inj_add, length_slots_bytes by done.
  assert (rd_collation d <> rd_initial_collation d -> rd_collation d <> default_collation) as Hc.
  { intros Hne Hd. apply Hne. rewrite Hd. by rewrite (Hk Hd). }
  destruct (decide (rd_collation d = rd_initial_collation d));
    [|rewrite (decide_False (P := rd_collation d = default_collation)) by auto];
    repeat case_decide; rewrite ?length_app, ?length_b_varchar, ?length_le_bytes; cbn [length]; lia.
Qed.

Definition recovery_bytes (d : SessionRecoveryData) : bytes :=
  [byte_of 1] ++ le_bytes 4 (8 + Z.of_nat (length (initial_block d) + length (delta_block d))) ++
  le_bytes 4 (Z.of_nat (length (initial_block d))) ++ initial_block d ++
  le_bytes 4 (Z.of_nat (length (delta_block d))) ++ delta_block d.

(** The blocks are written whatever lengths are declared. *)
Lemma serialize_emits d :
  recovery_wf d ->
  emits (SessionRecoveryFeature_serialize (new_for_reconnection d))
    ([byte_of 1] ++ le_bytes 4 (total_data_length d) ++ le_bytes 4 (initial_block_length d) ++
     initial_block d ++ le_bytes 4 (delta_block_length d) ++ delta_block d) tt.
Proof.
  intros (Hid & Hil & Hd & Hl & [Hin His] & [Hdn Hds] & _).
  unfold SessionRecoveryFeature_serialize, initial_block, delta_block, slots_bytes. cbn [recovery_data new_for_reconnection].
  rewrite <- !app_assoc. unfold STATE_SLOT_COUNT in *. do 3 emits_step.
  eapply emits_bind; [by apply write_b_varchar_emits|].
  eapply emits_bind; [apply write_collation_emits|].
  eapply emits_bind; [by apply write_b_varchar_emits|].
  eapply emits_bind; [apply write_state_entries_emits; [lia|lia|done]|]. emits_step.
  eapply emits_bind; [case_decide; [apply write_byte_emits|by apply write_b_varchar_emits]|].
  eapply emits_bind; [case_decide; [apply write_byte_emits|apply write_collation_emits]|].
  eapply emits_bind; [case_decide; [apply write_byte_emits|by apply write_b_varchar_emits]|].
  apply write_state_entries_emits; [lia|lia|done].
Qed.

(** Every length of the block is the number of bytes written for its part. *)
Lemma recovery_block_spec d :
  recovery_wf d -> collation_kept d ->
  emits (SessionRecoveryFeature_serialize (new_for_reconnection d)) (recovery_bytes d) tt /\
  data_length (new_for_reconnection d) = Z.of_nat (length (recovery_bytes d)).
Proof.
  intros Hwf Hk. pose proof (serialize_emits d Hwf) as He. unfold total_data_length, as_u32 in He.
  pose proof (length_initial_block d Hwf) as Hi. pose proof (length_delta_block d Hwf Hk) as Hd.
  pose proof Hwf as (_ & _ & _ & _ & _ & _ & Hmax).
  rewrite Hi, Hd, Z.mod_small in He by lia. split.
  - unfold recovery_bytes. by rewrite Nat2Z.inj_add, Z.add_assoc.
  - unfold data_length, new_for_reconnection. cbn [recovery_data].
    unfold as_i32, as_u32. rewrite Hi, Hd, Z.mod_small, to_signed_id by first [lia | split; lia].
    unfold recovery_bytes. rewrite !length_app, !length_le_bytes. cbn [length]. lia.
Qed.

(** The session-recovery block of a reconnect is consistent: provided the session's collation
    did not turn into the unset one, every length it declares is the number of bytes written for
    that part, and [data_length] is the size of the whole. *)
Theorem reconnect_block_lengths_are_right d :
  recovery_wf d -> collation_kept d ->
  emits (SessionRecoveryFeature_serialize (new_for_reconnection d)) (recovery_bytes d) tt /\
  data_length (new_for_reconnection d) = Z.of_nat (length (recovery_bytes d)).
Proof. apply recovery_block_spec. Qed.

Definition sample_recovery : SessionRecoveryData :=
  snapshot (Some [120; 121]) None (Some sample_collation)
    (SessionStateTable_new {{ initial_database := [109] }} {{ delta := sample_slots }}).

Lemma sample_recovery_wf : recovery_wf sample_recovery.
Proof.
  assert (slots_wf empty_state_slots) by (split; [done|by apply Forall_replicate]).
  unfold recovery_wf. split_and!; try done; try (split; [by repeat constructor|done]).
  apply sample_slots_wf.
Defined.

Lemma reconnect_block_lengths_are_right_witness :
  emits (SessionRecoveryFeature_serialize (new_for_reconnection sample_recovery)) (recovery_bytes sample_recovery) tt /\
  data_length (new_for_reconnection sample_recovery) = Z.of_nat (length (recovery_bytes sample_recovery)).
Proof. apply reconnect_block_lengths_are_right; [apply sample_recovery_wf|done]. Defined.

(** The proviso is needed: when the session's collation is the unset one and the login's was
    not, the declared length of the delta block is five bytes more than what is written. *)
Theorem reconnect_block_with_unset_collation d :
  recovery_wf d -> rd_collation d = default_collation -> rd_initial_collation d <> default_collation ->
  emits (SessionRecoveryFeature_serialize (new_for_reconnection d))
    ([byte_of 1] ++ le_bytes 4 (total_data_length d) ++ le_bytes 4 (initial_block_length d) ++
     initial_block d ++ le_bytes 4 (delta_block_length d) ++ delta_block d) tt /\
  delta_block_length d = Z.of_nat (length (delta_block d)) + 5.
Proof.
  intros Hwf Hc Hi. split; [by apply serialize_emits|].
  pose proof Hwf as (_ & _ & _ & _ & _ & [_ Hs] & Hl). unfold delta_block_length, as_u32.
  assert (Z.of_nat (length (delta_block d)) + 5 =
    (if decide (rd_database d = rd_initial_database d) then 1 else b_varchar_length (rd_database d)) +
    6 + (if decide (rd_language d = rd_initial_language d) then 1 else b_varchar_length (rd_language d)) +
    slots_length (rd_delta d)) as Hd.
  { unfold delta_block, slots_bytes, collation_bytes.
    rewrite !length_app, !Nat2Z.inj_add, length_slots_bytes by done.
    rewrite (decide_False (P := rd_collation d = _)), (decide_True (P := rd_collation d = _)) by congruence.
    repeat case_decide; rewrite ?length_b_varchar; cbn [length]; lia. }
  rewrite (decide_False (P := rd_collation d = _)) by congruence.
  rewrite <- Hd, Z.mod_small; lia.
Qed.

Lemma reconnect_block_with_unset_collation_witness :
  let d := snapshot None None (Some default_collation)
             (SessionStateTable_new {{ initial_collation := sample_collation }}) in
  delta_block_length d = Z.of_nat (length (delta_block d)) + 5.
Proof.
  intros d. apply (proj2 (reconnect_block_with_unset_collation d
    ltac:(assert (slots_wf empty_state_slots) by (split; [done|by apply Forall_replicate]);
          unfold recovery_wf; split_and!; try done; (split; [by repeat constructor|done]))
    eq_refl ltac:(done))).
Defined.

(** A reconnection is accepted exactly when it is the same kind of connection: the server
    acknowledged recovery again, and the TDS version, the server's major version, the encryption
    level and the MARS setting are those of the original login. *)
Theorem reconnection_accepted_iff_same settings tokens c new :
  let c := initialize settings tokens c in
  validate_reconnection new c = Ok tt <->
  is_session_recovery_acknowledged new = true /\
  login_ack_tds_version new = login_ack_tds_version settings /\
  major <$> login_ack_server_version new = major <$> login_ack_server_version settings /\
  negotiated_encryption_settings (session_settings new) =
    negotiated_encryption_settings (session_settings settings) /\
  ss_mars_enabled (session_settings new) = ss_mars_enabled (session_settings settings).
Proof.
  cbv zeta. unfold validate_reconnection, initialize. cbn.
  destruct (is_session_recovery_acknowledged new); cbn; [|split; [done|by intros []]].
  destruct (decide _) as [Ht|Ht]; [split; [done|intros (_ & ? & _); congruence]|]. apply dec_stable in Ht.
  destruct (login_ack_server_version settings) as [v|], (login_ack_server_version new) as [v'|]; cbn;
    try (split; [done|by intros (_ & _ & ? & _)]); [destruct (Z.eqb_spec (major v) (major v')) as [Hm|Hm]; cbn;
    [|split; [done|intros (_ & _ & ? & _); simplify_eq]]|].
  all: destruct (decide _) as [He|He]; [split; [done|intros (_ & _ & _ & ? & _); congruence]|]; apply dec_stable in He;
    destruct (Bool.eqb _ _) eqn:E; cbn;
    [apply eqb_prop in E; split; [intros _; split_and!; congruence|done]
    |apply eqb_false_iff in E; split; [done|intros (_ & _ & _ & _ & ?); congruence]].
Qed.

(** ** The latest record counts *)

Definition disabling (token : SessionStateToken) : Prop := sequence_number token = 2 ^ 32 - 1.

#[global] Instance disabling_dec token : Decision (disabling token).
Proof. unfold disabling. apply _. Defined.

(** The records of the tokens, oldest first. *)
Definition token_records (token : SessionStateToken) : list (nat * SessionStateRecord) :=
  if decide (disabling token) then []
  else (fun e => (Z.to_nat (state_id e),
          {| rec_recoverable := recoverable e; rec_sequence := sequence_number token;
             rec_data := data e |})) <$> states token.

(** The record a slot holds after the tokens. *)
Definition latest (ts : list SessionStateToken) (t : SessionStateTable) (i : nat) : option SessionStateRecord :=
  match list.last (filter (fun r : nat * SessionStateRecord => r.1 = i) (concat (token_records <$> ts))) with
  | Some r => Some r.2
  | None => mjoin (delta t !! i)
  end.

Definition put_record (l : StateSlots) (r : nat * SessionStateRecord) : StateSlots :=
  <[r.1 := Some r.2]> l.

Lemma fold_put_length rs : forall l : StateSlots, length (fold_left put_record rs l) = length l.
Proof.
  induction rs as [|r rs IH]; intros l; [done|]. cbn [fold_left]. rewrite IH. apply length_insert.
Qed.

Lemma fold_put_lookup rs : forall (l : StateSlots) i, (i < length l)%nat ->
  fold_left put_record rs l !! i =
  match list.last (filter (fun r : nat * SessionStateRecord => r.1 = i) rs) with Some r => Some (Some r.2) | None => l !! i end.
Proof.
  induction rs as [|r rs IH] using rev_ind; intros l i Hi; [done|].
  rewrite fold_left_app, list.filter_app, list.filter_cons, list.filter_nil. cbn [fold_left]. unfold put_record at 1.
  destruct (decide (r.1 = i)) as [<-|Hne].
  - rewrite last_snoc. rewrite list_lookup_insert, decide_True by (by rewrite fold_put_length). done.
  - by rewrite list_lookup_insert_ne, app_nil_r, IH by done.
Qed.

Lemma apply_token_delta t token : delta (apply_token t token) = fold_left put_record (token_records token) (delta t).
Proof.
  unfold apply_token, token_records. destruct (decide (disabling token)) as [Hd|Hd].
  - unfold disabling in Hd. by rewrite Hd, Z.eqb_refl.
  - rewrite (proj2 (Z.eqb_neq _ _)) by done. generalize (states token). intros es. revert t.
    induction es as [|e es IH]; intros t; [done|]. cbn [fold_left fmap list_fmap]. by rewrite IH.
Qed.

Lemma apply_tokens_delta ts : forall t,
  delta (fold_left apply_token ts t) = fold_left put_record (concat (token_records <$> ts)) (delta t).
Proof.
  induction ts as [|tok ts IH]; intros t; [done|]. cbn [fold_left fmap list_fmap concat].
  by rewrite IH, apply_token_delta, fold_left_app.
Qed.

Lemma apply_token_disabled t token :
  master_recovery_disabled (apply_token t token) = master_recovery_disabled t || bool_decide (disabling token).
Proof.
  unfold apply_token, disabling. destruct (Z.eqb_spec (sequence_number token) (2 ^ 32 - 1)) as [E|E].
  - rewrite bool_decide_eq_true_2 by done. by rewrite orb_true_r.
  - rewrite bool_decide_eq_false_2, orb_false_r by done. generalize (states token). intros es. revert t.
    induction es as [|e es IH]; intros t; [done|]. cbn [fold_left]. by rewrite IH.
Qed.

Lemma apply_tokens_disabled ts : forall t,
  master_recovery_disabled (fold_left apply_token ts t) = false <->
  master_recovery_disabled t = false /\ Forall (fun tok => ~ disabling tok) ts.
Proof.
  induction ts as [|tok ts IH]; intros t; cbn [fold_left]; [split; [done|by intros []]|].
  rewrite IH, apply_token_disabled, Forall_cons_iff, orb_false_iff, bool_decide_eq_false. tauto.
Qed.

Lemma no_unrecoverable (slots : StateSlots) :
  existsb unrecoverable slots = false <-> forall i r, mjoin (slots !! i) = Some r -> rec_recoverable r = true.
Proof.
  rewrite <- not_true_iff_false, existsb_exists. split.
  - intros Hn i r Hi. destruct (rec_recoverable r) eqn:E; [done|]. exfalso. apply Hn. exists (Some r).
    destruct (slots !! i) as [[r'|]|] eqn:Es; cbn in Hi; simplify_eq. cbn. rewrite E. split; [|done].
    apply list_elem_of_In. by eapply list_elem_of_lookup_2.
  - intros Ha ([r|] & Hin & Hu); [|done]. apply list_elem_of_In, list_elem_of_lookup in Hin as [i Hi].
    cbn in Hu. rewrite (Ha i r) in Hu; [done|]. by rewrite Hi.
Qed.

(** Whether a session can be recovered is decided by the latest record of every state id:
    after any sequence of SESSIONSTATE tokens, recovery is possible exactly when it was not
    disabled before or by one of them, the baseline is recoverable, and so is, for every id, the
    last record received for it. *)
Theorem recoverable_iff_latest_are ts t :
  length (delta t) = STATE_SLOT_COUNT ->
  is_session_recoverable (fold_left apply_token ts t) = true <->
  master_recovery_disabled t = false /\ Forall (fun tok => ~ disabling tok) ts /\
  (forall i r, mjoin (initial_state t !! i) = Some r -> rec_recoverable r = true) /\
  (forall i r, (i < STATE_SLOT_COUNT)%nat -> latest ts t i = Some r -> rec_recoverable r = true).
Proof.
  intros Hl. unfold is_session_recoverable.
  destruct (fold_kept apply_token apply_token_kept ts t) as (Hi & _).
  rewrite andb_true_iff, !negb_true_iff, apply_tokens_disabled, existsb_app, orb_false_iff, Hi, !no_unrecoverable.
  assert (forall i, (i < STATE_SLOT_COUNT)%nat ->
    mjoin (delta (fold_left apply_token ts t) !! i) = latest ts t i) as Hlat.
  { intros i Hlt. rewrite apply_tokens_delta, fold_put_lookup by lia. unfold latest. by destruct (list.last _). }
  assert (forall i r, mjoin (delta (fold_left apply_token ts t) !! i) = Some r -> (i < STATE_SLOT_COUNT)%nat) as Hlt.
  { intros i r Hr. rewrite <- Hl, <- (fold_put_length (concat (token_records <$> ts)) (delta t)), <- apply_tokens_delta.
    destruct (_ !! i) eqn:E; [|done]. by eapply lookup_lt_Some. }
  split; [intros [[? ?] [? Hd]]|intros (? & ? & ? & Hd)]; split_and!; try done.
  - intros i r Hlt' Hr. apply (Hd i). by rewrite Hlat.
  - intros i r Hr. pose proof (Hlt i r Hr). apply (Hd i); [done|]. by rewrite <- Hlat.
Qed.

Definition sample_token (seq : Z) (ok : bool) : SessionStateToken :=
  {| sequence_number := seq; ss_status := if ok then 1 else 0;
     states := [{| state_id := 7; recoverable := ok; data := [byte_of 1] |}] |}.

(** A state that was unrecoverable and then was set again. *)
Lemma recoverable_iff_latest_are_witness :
  is_session_recoverable (fold_left apply_token [sample_token 1 false; sample_token 2 true]
                            SessionStateTable_new) = true /\
  Forall (fun tok => ~ disabling tok) [sample_token 1 false; sample_token 2 true].
Proof.
  split; [vm_compute; reflexivity|].
  exact (proj1 (proj2 (proj1 (recoverable_iff_latest_are [sample_token 1 false; sample_token 2 true]
    SessionStateTable_new eq_refl) ltac:(vm_compute; reflexivity)))).
Defined.
