(* ===== verification/Requests.v ===== *)
(** * Requests (src/mssql-tds/src/message/headers.rs, batch.rs and transaction_management.rs)

    The headers every request starts with, the SQL batch, and the transaction manager requests. *)

From stdpp Require Import strings.
From S2P Require Import Prelude Core Unicode PacketReader PacketWriter Writer WriterText Session.

(** ** Headers *)

Record TransactionDescriptorHeader := { tdh_descriptor : Z; tdh_outstanding : Z }.

(** The activity id is its sixteen bytes. *)
Record TraceActivityHeader := { tah_id : bytes; tah_sequence_number : Z }.

Inductive TdsHeaders :=
  | TransactionDescriptor (h : TransactionDescriptorHeader)
  | TraceActivity (h : TraceActivityHeader)
  | QueryNotifications (notification_data : bytes).

Definition create_non_transaction_header : TransactionDescriptorHeader :=
  {| tdh_descriptor := 0; tdh_outstanding := 1 |}.

Definition TransactionDescriptorHeader_from (c : ExecutionContext) : TransactionDescriptorHeader :=
  match transaction_descriptor c with
  | 0 => create_non_transaction_header
  | d => {| tdh_descriptor := d; tdh_outstanding := outstanding_requests c |}
  end.

Definition header_type (h : TdsHeaders) : Z :=
  match h with
  | TransactionDescriptor _ => 2
  | TraceActivity _ => 3
  | QueryNotifications _ => 1
  end.

Definition calculate_length (h : TdsHeaders) : Z :=
  match h with
  | TransactionDescriptor _ => 18
  | TraceActivity _ => 6 + 16 + 4
  | QueryNotifications notification_data => as_i32 (6 + Z.of_nat (length notification_data))
  end.

Definition header_write_async (h : TdsHeaders) : M PacketWriter unit :=
  match h with
  | TransactionDescriptor d =>
      write_i32_async (calculate_length h) ;;
      write_u16_async (header_type h) ;;
      write_u64_async (tdh_descriptor d) ;;
      write_u32_async (tdh_outstanding d)
  | TraceActivity a =>
      write_i32_async (calculate_length h) ;;
      write_u16_async (header_type h) ;;
      write_async (tah_id a) ;;
      write_i32_async (tah_sequence_number a)
  | QueryNotifications _ => panic "not implemented: QueryNotificationsHeader::write_async"
  end.

Fixpoint write_each_header (headers : list TdsHeaders) : M PacketWriter unit :=
  match headers with
  | [] => ret tt
  | h :: headers => header_write_async h ;; write_each_header headers
  end.

Definition headers_length (headers : list TdsHeaders) : Z :=
  fold_left (fun len h => as_i32 (len + calculate_length h)) headers 4.

Definition write_headers (headers : list TdsHeaders) : M PacketWriter unit :=
  write_i32_async (headers_length headers) ;; write_each_header headers.

(** ** [SqlBatch] *)

Record SqlBatch := { sql_command : str; sb_headers : list TdsHeaders }.

Definition SqlBatch_new (sql_command : str) (c : ExecutionContext) : SqlBatch :=
  {| sql_command := sql_command;
     sb_headers := [TransactionDescriptor
       match transaction_descriptor c with
       | 0 => create_non_transaction_header
       | d => {| tdh_descriptor := d; tdh_outstanding := outstanding_requests c |}
       end] |}.

(** [serialize], up to its last [finalize]. *)
Definition SqlBatch_serialize_body (b : SqlBatch) : M PacketWriter unit :=
  write_headers (sb_headers b) ;; write_string_unicode_async (sql_command b).

Definition SqlBatch_serialize (b : SqlBatch) : M PacketWriter unit :=
  SqlBatch_serialize_body b ;; finalize.

(** The attention request: a header block with no headers. *)
Definition AttentionRequest_serialize : M PacketWriter unit := write_headers [] ;; finalize.

(** ** Transaction manager requests *)

Inductive TransactionIsolationLevel :=
  | NoChange | ReadUncommitted | ReadCommitted | RepeatableRead | Serializable | Snapshot.

Definition TransactionIsolationLevel_u8 (l : TransactionIsolationLevel) : Z :=
  match l with
  | NoChange => 0 | ReadUncommitted => 1 | ReadCommitted => 2 | RepeatableRead => 3
  | Serializable => 4 | Snapshot => 5
  end.

Record CreateTxnParams := { level : TransactionIsolationLevel; txn_name : option str }.

(** [(name.len() * 2) as u8]: [str::len] counts the bytes of the UTF-8 encoding. *)
Definition name_length_u8 (name : str) : Z := as_u8 (Z.of_nat (length (as_bytes name)) * 2).

Definition CreateTxnParams_serialize (p : CreateTxnParams) : M PacketWriter unit :=
  write_byte_async (TransactionIsolationLevel_u8 (level p)) ;;
  match txn_name p with
  | Some name => write_byte_async (name_length_u8 name) ;; write_string_unicode_async name
  | None => write_byte_async 0
  end.

Inductive TransactionManagementType :=
  | GetDtcAddress
  | Propagate (payload : str)
  | Begin (params : CreateTxnParams)
  | Promote
  | Commit (name : option str) (create_txn_params : option CreateTxnParams)
  | Rollback (name : option str) (create_txn_params : option CreateTxnParams)
  | Save (payload : str).

Definition TransactionManagementType_u16 (t : TransactionManagementType) : Z :=
  match t with
  | GetDtcAddress => 0 | Propagate _ => 1 | Begin _ => 5 | Promote => 6 | Commit _ _ => 7
  | Rollback _ _ => 8 | Save _ => 9
  end.

Record TransactionManagementRequest := {
  tm_headers : list TdsHeaders;
  transaction_params : TransactionManagementType;
}.

Definition TransactionManagementRequest_new (t : TransactionManagementType) (c : ExecutionContext)
    : TransactionManagementRequest :=
  {| tm_headers := [TransactionDescriptor {| tdh_descriptor := transaction_descriptor c;
                                             tdh_outstanding := outstanding_requests c |}];
     transaction_params := t |}.

Definition empty_savepoint_error : Error :=
  Io "InvalidInput" "Saving a transaction without a savepoint name. Savepoint name must be non-empty.".

(** The shared arm of commit and rollback. *)
Definition write_end_of_transaction (name : option str) (params : option CreateTxnParams)
    : M PacketWriter unit :=
  match name with
  | Some n => write_byte_async (name_length_u8 n) ;; write_string_unicode_async n
  | None => write_byte_async 0
  end ;;
  match params with
  | Some p => write_byte_async (Z.shiftl 1 7) ;; CreateTxnParams_serialize p
  | None => write_byte_async 0
  end.

Definition write_transaction_params (t : TransactionManagementType) : M PacketWriter unit :=
  match t with
  | GetDtcAddress => write_u16_async 0
  | Propagate payload =>
      write_u16_async (as_u16 (Z.of_nat (length (as_bytes payload)) * 2)) ;;
      write_string_unicode_async payload
  | Begin params => CreateTxnParams_serialize params
  | Promote => ret tt
  | Commit name params | Rollback name params => write_end_of_transaction name params
  | Save payload =>
      match payload with
      | [] => throw empty_savepoint_error
      | _ => write_byte_async (name_length_u8 payload) ;; write_string_unicode_async payload
      end
  end.

Definition TransactionManagementRequest_serialize_body (r : TransactionManagementRequest)
    : M PacketWriter unit :=
  write_headers (tm_headers r) ;;
  write_u16_async (TransactionManagementType_u16 (transaction_params r)) ;;
  write_transaction_params (transaction_params r).

Definition TransactionManagementRequest_serialize (r : TransactionManagementRequest)
    : M PacketWriter unit :=
  TransactionManagementRequest_serialize_body r ;; finalize.

(** ** Requests are written as laid out

    The header block declares its own size, a batch is its headers and its text, and the length
    byte of a transaction name is right exactly for ASCII names. *)

(** ** Headers *)

Definition header_bytes (h : TdsHeaders) : bytes :=
  match h with
  | TransactionDescriptor d => le_bytes 4 18 ++ le_bytes 2 2 ++ le_bytes 8 (tdh_descriptor d) ++ le_bytes 4 (tdh_outstanding d)
  | TraceActivity a => le_bytes 4 26 ++ le_bytes 2 3 ++ tah_id a ++ le_bytes 4 (tah_sequence_number a)
  | QueryNotifications n => []
  end.

(** The headers the client can write. *)
Definition header_wf (h : TdsHeaders) : Prop :=
  match h with
  | TransactionDescriptor _ => True
  | TraceActivity a => length (tah_id a) = 16%nat
  | QueryNotifications _ => False
  end.

Definition headers_bytes (hs : list TdsHeaders) : bytes :=
  let body := concat (header_bytes <$> hs) in le_bytes 4 (Z.of_nat (4 + length body)) ++ body.

Lemma length_header_bytes h : header_wf h -> calculate_length h = Z.of_nat (length (header_bytes h)).
Proof.
  destruct h; cbn [header_wf header_bytes calculate_length]; intros H; [..|done];
    rewrite !length_app, !length_le_bytes; lia.
Qed.

Lemma header_write_emits h : header_wf h -> emits (header_write_async h) (header_bytes h) tt.
Proof.
  destruct h; cbn [header_wf]; intros H; [..|done]; cbn [header_write_async header_bytes];
    do 3 emits_step; eauto with emits.
Qed.

Lemma write_each_header_emits hs :
  Forall header_wf hs -> emits (write_each_header hs) (concat (header_bytes <$> hs)) tt.
Proof.
  induction 1 as [|h hs Hh _ IH]; cbn [write_each_header]; [apply emits_ret|].
  eapply emits_bind; [by apply header_write_emits|done].
Qed.

Lemma headers_length_from hs : forall a, Forall header_wf hs -> 0 <= a ->
  a + Z.of_nat (length (concat (header_bytes <$> hs))) < 2 ^ 31 ->
  fold_left (fun len h => as_i32 (len + calculate_length h)) hs a =
    a + Z.of_nat (length (concat (header_bytes <$> hs))).
Proof.
  induction hs as [|h hs IH]; intros a Hwf Ha Hm; [cbn; lia|].
  apply Forall_cons_1 in Hwf as [Hh Hwf]. rewrite concat_fmap_cons, length_app in *. cbn [fold_left].
  rewrite length_header_bytes by done. unfold as_i32 at 2. rewrite to_signed_id by first [lia | split; lia].
  rewrite IH by (done || lia). lia.
Qed.

Lemma write_headers_emits hs :
  Forall header_wf hs -> Z.of_nat (4 + length (concat (header_bytes <$> hs))) < 2 ^ 31 ->
  emits (write_headers hs) (headers_bytes hs) tt.
Proof.
  intros Hwf Hm. unfold write_headers, headers_length, headers_bytes.
  rewrite headers_length_from by (done || lia). rewrite Nat2Z.inj_add.
  emits_step. by apply write_each_header_emits.
Qed.

(** A SQL batch is written as its header block followed by the text in UTF-16LE: the block is
    22 bytes, says so, and carries the context's transaction descriptor, with a request count of
    one when no transaction is open, on any connection and for any text. *)
Theorem sql_batch_layout sql c :
  str_wf sql ->
  emits (SqlBatch_serialize_body (SqlBatch_new sql c))
    (le_bytes 4 22 ++ le_bytes 4 18 ++ le_bytes 2 2 ++ le_bytes 8 (transaction_descriptor c) ++
     le_bytes 4 (if has_active_transaction c then outstanding_requests c else 1) ++
     units_le (utf16 sql)) tt.
Proof.
  intros Hs. unfold SqlBatch_serialize_body. rewrite !app_assoc.
  eapply emits_bind; [|by apply write_string_emits].
  set (h := match transaction_descriptor c with 0 => create_non_transaction_header
            | d => {| tdh_descriptor := d; tdh_outstanding := outstanding_requests c |} end).
  assert (tdh_descriptor h = transaction_descriptor c /\
          tdh_outstanding h = if has_active_transaction c then outstanding_requests c else 1) as [Hd Ho].
  { unfold h, has_active_transaction. by destruct (transaction_descriptor c). }
  rewrite <- Hd, <- Ho, <- !app_assoc.
  eapply emits_eq; [apply (write_headers_emits [TransactionDescriptor h]); [by repeat constructor|]|];
    unfold headers_bytes; cbn [fmap list_fmap concat header_bytes]; rewrite app_nil_r, !length_app, !length_le_bytes; done.
Qed.

Lemma sql_batch_layout_witness :
  emits (SqlBatch_serialize_body (SqlBatch_new [83; 0xE9] ExecutionContext_new))
    (le_bytes 4 22 ++ le_bytes 4 18 ++ le_bytes 2 2 ++ le_bytes 8 0 ++ le_bytes 4 1 ++
     units_le (utf16 [83; 0xE9])) tt.
Proof. apply (sql_batch_layout [83; 0xE9] ExecutionContext_new). by repeat constructor. Defined.

(** ** Transaction names *)

(** The bytes of a name with the length byte the code writes for it. *)
Definition named (name : str) : bytes := byte_of (name_length_u8 name) :: units_le (utf16 name).

Lemma write_name_emits name :
  str_wf name -> emits (write_byte_async (name_length_u8 name) ;; write_string_unicode_async name) (named name) tt.
Proof.
  intros Hn. apply (emits_bind _ _ [byte_of (name_length_u8 name)] (units_le (utf16 name)) tt);
    [apply write_byte_emits|by apply write_string_emits].
Qed.

(** UTF-8 is as long as UTF-16 has units for ASCII only. *)
Lemma encoded_lengths c : is_scalar c = true ->
  (length (encode_utf16 c) <= length (encode_utf8 c))%nat /\
  (length (encode_utf16 c) = length (encode_utf8 c) <-> c < 128).
Proof.
  unfold is_scalar, encode_utf16, encode_utf8. intros Hc.
  rewrite length_fmap. repeat case_match; cbn [length]; rewrite ?Z.ltb_lt, ?Z.ltb_ge in *; lia.
Qed.

Lemma string_lengths s : str_wf s ->
  (length (utf16 s) <= length (as_bytes s))%nat /\
  (length (utf16 s) = length (as_bytes s) <-> Forall (fun c => c < 128) s).
Proof.
  unfold utf16, as_bytes. induction 1 as [|c s Hc _ [IHle IHeq]]; [split; [done|]; split; [by constructor|done]|].
  destruct (encoded_lengths c Hc) as [Hle Heq]. cbn [fmap list_fmap concat]. rewrite !length_app.
  split; [lia|]. rewrite Forall_cons_iff, <- IHeq, <- Heq. lia.
Qed.

(** The length byte of a transaction or savepoint name is right exactly for ASCII names: for a
    name short enough for the byte, what follows it has the declared number of bytes if and only if
    every character is ASCII. *)
Theorem transaction_name_length name :
  str_wf name -> (length (as_bytes name) <= 127)%nat ->
  emits (write_byte_async (name_length_u8 name) ;; write_string_unicode_async name)
    (byte_of (name_length_u8 name) :: units_le (utf16 name)) tt /\
  (name_length_u8 name = Z.of_nat (length (units_le (utf16 name))) <-> Forall (fun c => c < 128) name).
Proof.
  intros Hn Hl. split; [by apply write_name_emits|]. destruct (string_lengths name Hn) as [Hle Heq].
  rewrite <- Heq, length_units_le. unfold name_length_u8, as_u8. rewrite Z.mod_small by lia. lia.
Qed.

(** The name is one accented letter: two bytes follow a length of four. *)
Lemma transaction_name_length_witness :
  name_length_u8 [0xE9] = 4 /\ length (units_le (utf16 [0xE9])) = 2%nat /\
  ~ Forall (fun c => c < 128) [0xE9].
Proof.
  split_and!; [reflexivity..|]. intros H.
  apply (transaction_name_length [0xE9] ltac:(by repeat constructor) ltac:(cbn; lia)) in H. discriminate H.
Defined.

(** A commit or rollback is written as the protocol lays it out: the request
    kind, the counted name, the flag byte, and the isolation level and counted name of the
    transaction to start, if any. *)
Theorem end_of_transaction_layout name params :
  from_option str_wf True name ->
  match params with Some p => from_option str_wf True (txn_name p) | None => True end ->
  emits (write_end_of_transaction name params)
    (from_option named [byte_of 0] name ++
     match params with
     | Some p => [byte_of 0x80] ++ [byte_of (TransactionIsolationLevel_u8 (level p))] ++
                 from_option named [byte_of 0] (txn_name p)
     | None => [byte_of 0]
     end) tt.
Proof.
  intros Hn Hp. unfold write_end_of_transaction, CreateTxnParams_serialize.
  eapply emits_bind; [destruct name; [by apply write_name_emits|apply write_byte_emits]|].
  destruct params as [p|]; [|apply write_byte_emits]. do 2 emits_step.
  destruct (txn_name p); [by apply write_name_emits|apply write_byte_emits].
Qed.

Lemma end_of_transaction_layout_witness :
  emits (write_end_of_transaction (Some [97; 98]) (Some {| level := Snapshot; txn_name := None |}))
    (byte_of <$> [4; 97; 0; 98; 0; 0x80; 5; 0]) tt.
Proof.
  apply (end_of_transaction_layout (Some [97; 98]) (Some {| level := Snapshot; txn_name := None |}));
    [by repeat constructor|exact I].
Defined.
