(* ===== verification/SqlIdentifier.v ===== *)
(** * SQL identifiers (src/mssql-tds/src/sql_identifier.rs)

    The parser of multipart names, a machine over characters, and the functions that quote names
    and literals for the SQL the client builds.  Quoting is undone by parsing, for every name. *)

From stdpp Require Import strings.
From S2P Require Import Prelude Core Unicode.

Definition MAX_PARTS : nat := 4.
Definition BULK_COPY_MAX_PARTS : nat := 3.

Definition LBRACKET : char := 91.
Definition RBRACKET : char := 93.
Definition DQUOTE : char := 34.
Definition SQUOTE : char := 39.
Definition DOT : char := 46.

(** [char::is_whitespace]: the property White_Space. *)
Definition is_whitespace (c : char) : bool :=
  ((9 <=? c) && (c <=? 13)) || (c =? 32) || (c =? 0x85) || (c =? 0xA0) || (c =? 0x1680) ||
  ((0x2000 <=? c) && (c <=? 0x200A)) || (c =? 0x2028) || (c =? 0x2029) || (c =? 0x202F) ||
  (c =? 0x205F) || (c =? 0x3000).

(** [str::trim_end]. *)
Fixpoint trim_start (s : str) : str :=
  match s with
  | [] => []
  | c :: s' => if is_whitespace c then trim_start s' else s
  end.

Definition trim_end (s : str) : str := rev (trim_start (rev s)).

Inductive State := Init | InPart | InQuotedPart | AfterQuote | AfterDot.

Definition empty_part_error : Error := UsageError "Empty identifier part is not allowed".
Definition after_quote_error : Error := UsageError "Unexpected character after closing quote".
Definition unclosed_error : Error := UsageError "Unclosed quoted identifier".
Definition empty_identifier_error : Error := UsageError "Empty identifier is not allowed".
Definition too_many_parts_error : Error := UsageError "Too many identifier parts".

(** The [match] on the state after the last character. *)
Definition final_part (allow_empty : bool) (state : State) (parts : list str) (current_part : str)
    : TdsResult (list str) :=
  match state with
  | InPart => Ok (parts ++ [trim_end current_part])
  | AfterQuote => Ok (parts ++ [current_part])
  | AfterDot => if allow_empty then Ok (parts ++ [[]]) else Err empty_part_error
  | InQuotedPart => Err unclosed_error
  | Init => if allow_empty then Ok parts else Err empty_identifier_error
  end.

(** The [while] loop over the characters. *)
Fixpoint scan (allow_empty : bool) (state : State) (parts : list str) (current_part : str)
    (quote_char : option char) (chars : str) : TdsResult (list str) :=
  match chars with
  | [] => final_part allow_empty state parts current_part
  | ch :: rest =>
      match state with
      | Init =>
          if is_whitespace ch then scan allow_empty Init parts current_part quote_char rest
          else if (ch =? LBRACKET) || (ch =? DQUOTE) then
            scan allow_empty InQuotedPart parts current_part (Some ch) rest
          else if ch =? DOT then
            if negb allow_empty && bool_decide (parts = []) then Err empty_part_error
            else scan allow_empty AfterDot (parts ++ [[]]) current_part quote_char rest
          else scan allow_empty InPart parts (current_part ++ [ch]) quote_char rest
      | InPart =>
          if ch =? DOT then
            scan allow_empty AfterDot (parts ++ [trim_end current_part]) [] quote_char rest
          else scan allow_empty InPart parts (current_part ++ [ch]) quote_char rest
      | InQuotedPart =>
          let continue_ closing_quote :=
            if ch =? closing_quote then
              match rest with
              | ch2 :: rest2 =>
                  if ch2 =? closing_quote then
                    scan allow_empty InQuotedPart parts (current_part ++ [closing_quote]) quote_char rest2
                  else scan allow_empty AfterQuote parts current_part quote_char rest
              | [] => scan allow_empty AfterQuote parts current_part quote_char rest
              end
            else scan allow_empty InQuotedPart parts (current_part ++ [ch]) quote_char rest in
          match quote_char with
          | Some 91 => continue_ RBRACKET
          | Some 34 => continue_ DQUOTE
          | _ => Panic "internal error: entered unreachable code"
          end
      | AfterQuote =>
          if is_whitespace ch then scan allow_empty AfterQuote parts current_part quote_char rest
          else if ch =? DOT then
            scan allow_empty AfterDot (parts ++ [current_part]) [] None rest
          else Err after_quote_error
      | AfterDot =>
          if is_whitespace ch then scan allow_empty AfterDot parts current_part quote_char rest
          else if (ch =? LBRACKET) || (ch =? DQUOTE) then
            scan allow_empty InQuotedPart parts current_part (Some ch) rest
          else if ch =? DOT then
            if negb allow_empty then Err empty_part_error
            else scan allow_empty AfterDot (parts ++ [[]]) current_part quote_char rest
          else scan allow_empty InPart parts (current_part ++ [ch]) quote_char rest
      end
  end.

(** The right-justified array. *)
Definition right_justify (parts : list str) : list (option str) :=
  replicate (MAX_PARTS - length parts) None ++ (Some <$> parts).

Definition parse_multipart_identifier_with_max_parts (name : str) (allow_empty : bool)
    (max_parts : nat) : TdsResult (list (option str)) :=
  let? parts := scan allow_empty Init [] [] None name in
  if decide (max_parts < length parts)%nat then Err too_many_parts_error
  else Ok (right_justify parts).

Definition parse_multipart_identifier (name : str) (allow_empty : bool)
    : TdsResult (list (option str)) :=
  parse_multipart_identifier_with_max_parts name allow_empty MAX_PARTS.

Definition parse_bulk_copy_target_identifier (name : str) (allow_empty : bool)
    : TdsResult (list (option str)) :=
  parse_multipart_identifier_with_max_parts name allow_empty BULK_COPY_MAX_PARTS.

(** [str::replace] of one character by two. *)
Definition double_char (q : char) (s : str) : str :=
  concat ((fun c => if c =? q then [q; q] else [c]) <$> s).

Definition escape_identifier (name : str) : str :=
  [LBRACKET] ++ double_char RBRACKET name ++ [RBRACKET].

Definition escape_string_literal (input : str) : str := double_char SQUOTE input.

(** [skip_while(|part| part.is_none())]. *)
Fixpoint skip_none (parts : list (option str)) : list (option str) :=
  match parts with
  | None :: parts => skip_none parts
  | _ => parts
  end.

Definition build_part (part : option str) : str :=
  match part with
  | Some (c :: s) => escape_identifier (c :: s)
  | _ => []
  end.

Fixpoint build_parts (i : nat) (parts : list (option str)) : str :=
  match parts with
  | [] => []
  | part :: parts =>
      (if decide (0 < i)%nat then [DOT] else []) ++ build_part part ++ build_parts (S i) parts
  end.

Definition build_multipart_name (parts : list (option str)) : str := build_parts 0 (skip_none parts).

(** ** Quoting is undone by parsing *)

Lemma double_char_cons q c s :
  double_char q (c :: s) = (if c =? q then [q; q] else [c]) ++ double_char q s.
Proof. done. Qed.

Lemma scan_quoted_other allow parts cur c rest : c <> RBRACKET ->
  scan allow InQuotedPart parts cur (Some LBRACKET) (c :: rest) =
  scan allow InQuotedPart parts (cur ++ [c]) (Some LBRACKET) rest.
Proof. intros Hc. unfold LBRACKET. cbn [scan]. by rewrite (proj2 (Z.eqb_neq c RBRACKET)). Qed.

(** Inside brackets the machine reads the doubled text and stops at the closing bracket. *)
Lemma scan_quoted allow parts s : forall cur rest,
  (forall c rest', rest = c :: rest' -> c <> RBRACKET) ->
  scan allow InQuotedPart parts cur (Some LBRACKET) (double_char RBRACKET s ++ RBRACKET :: rest) =
  scan allow AfterQuote parts (cur ++ s) (Some LBRACKET) rest.
Proof.
  induction s as [|c s IH]; intros cur rest Hr.
  - rewrite app_nil_r. cbn. destruct rest as [|c rest']; [done|].
    rewrite (proj2 (Z.eqb_neq c RBRACKET)) by (by eapply Hr). done.
  - rewrite double_char_cons, <- app_assoc. destruct (Z.eqb_spec c RBRACKET) as [->|Hc].
    + cbn [app scan LBRACKET]. cbn. rewrite IH by done. by rewrite <- app_assoc.
    + cbn [app]. rewrite scan_quoted_other, IH by done. by rewrite <- app_assoc.
Qed.

Lemma build_parts_S i rest : build_parts (S i) rest = build_parts 1 rest.
Proof. induction rest as [|p rest IH] in i |- *; [done|]. cbn. by rewrite (IH (S i)), (IH 1%nat). Qed.

Lemma build_parts_1_cons p rest : build_parts 1 (p :: rest) = DOT :: build_part p ++ build_parts 1 rest.
Proof. cbn. by rewrite build_parts_S. Qed.

Lemma build_parts_1_head rest c s : build_parts 1 rest = c :: s -> c <> RBRACKET.
Proof. destruct rest; [done|]. rewrite build_parts_1_cons. by intros [= <- _]. Qed.

(** A quoted part from one of the two states that start a part. *)
Lemma scan_part st parts q s rest :
  In st [Init; AfterDot] -> s <> [] -> (forall c rest', rest = c :: rest' -> c <> RBRACKET) ->
  scan true st parts [] q (build_part (Some s) ++ rest) = scan true AfterQuote parts s (Some LBRACKET) rest.
Proof.
  intros Hst Hs Hr. destruct s as [|c s]; [done|]. cbn [build_part]. unfold escape_identifier.
  rewrite <- !app_assoc. cbn [app].
  assert (scan true st parts [] q (LBRACKET :: double_char RBRACKET (c :: s) ++ RBRACKET :: rest) =
          scan true InQuotedPart parts [] (Some LBRACKET) (double_char RBRACKET (c :: s) ++ RBRACKET :: rest)) as ->.
  { by repeat destruct Hst as [<-|Hst]. }
  by rewrite scan_quoted.
Qed.

Ltac part_side :=
  first [by left | by right; left | done | intros ? ? E; by eapply build_parts_1_head].

Lemma scan_built rest : forall parts p q,
  scan true AfterDot parts [] q (build_part p ++ build_parts 1 rest) =
  Ok (parts ++ (default [] <$> p :: rest)).
Proof.
  induction rest as [|p' rest IH]; intros parts p q.
  - destruct p as [[|c s]|]; [done| |done]. by rewrite scan_part by part_side.
  - destruct p as [[|c s]|].
    + rewrite build_parts_1_cons. cbn [build_part app scan]. cbn. rewrite IH. by rewrite <- app_assoc.
    + rewrite scan_part by part_side.
      rewrite build_parts_1_cons. cbn [scan]. cbn [is_whitespace]. cbn. rewrite IH. by rewrite <- app_assoc.
    + rewrite build_parts_1_cons. cbn [build_part app scan]. cbn. rewrite IH. by rewrite <- app_assoc.
Qed.

Lemma scan_built_name p rest :
  (p <> [] \/ rest <> []) ->
  scan true Init [] [] None (build_part (Some p) ++ build_parts 1 rest) =
  Ok (p :: (default [] <$> rest)).
Proof.
  intros Hne. destruct p as [|c s].
  - destruct rest as [|p' rest]; [by destruct Hne|]. rewrite build_parts_1_cons.
    cbn [build_part app scan]. cbn. by rewrite scan_built.
  - rewrite scan_part by part_side.
    destruct rest as [|p' rest]; [done|]. rewrite build_parts_1_cons. cbn [scan]. cbn. by rewrite scan_built.
Qed.

(** The array a name stands for: parts omitted in the middle are empty. *)
Fixpoint normalise (parts : list (option str)) : list (option str) :=
  match parts with
  | None :: parts => None :: normalise parts
  | _ => (fun p => Some (default [] p)) <$> parts
  end.

Lemma normalise_split parts : exists n, skip_none parts = drop n parts /\ (n <= length parts)%nat /\
  normalise parts = replicate n None ++ ((fun p => Some (default [] p)) <$> drop n parts).
Proof.
  induction parts as [|[p|] parts (n & Hs & Hn & Hr)]; [by exists 0%nat|by exists 0%nat; split_and!; [|lia|]|].
  exists (S n). cbn. split_and!; [done|lia|by rewrite Hr].
Qed.

(** A quoted multipart name is parsed back: for any array of four parts, building the name and
    parsing it gives the array again, with the parts omitted in the middle as empty ones, whatever
    brackets, quotes, dots or blanks the names contain; only an array without a table name is not
    covered. *)
Theorem built_name_is_parsed_back parts p rest :
  length parts = MAX_PARTS -> skip_none parts = Some p :: rest -> (p <> [] \/ rest <> []) ->
  parse_multipart_identifier (build_multipart_name parts) true = Ok (normalise parts).
Proof.
  intros Hl Hs Hne. destruct (normalise_split parts) as (n & Hd & Hn & ->).
  unfold parse_multipart_identifier, parse_multipart_identifier_with_max_parts, build_multipart_name.
  rewrite Hs. cbn [build_parts decide app]. change (build_parts 1 rest) with (build_parts 1 rest).
  rewrite decide_False by lia. cbn [app]. rewrite scan_built_name by done. cbn [rbind].
  assert (length (p :: (default [] <$> rest)) = MAX_PARTS - n)%nat as Hlen.
  { cbn [length]. rewrite length_fmap. rewrite <- Hl, <- length_drop, <- Hd, Hs. done. }
  rewrite decide_False by lia. unfold right_justify. rewrite Hlen, <- Hd, Hs.
  do 2 f_equal; [f_equal; lia|]. cbn. f_equal. by rewrite <- list_fmap_compose.
Qed.

Lemma built_name_is_parsed_back_witness :
  parse_multipart_identifier
    (build_multipart_name [None; Some [97; 93; 93]; None; Some [32; 34; 46; 91]]) true =
  Ok [None; Some [97; 93; 93]; Some []; Some [32; 34; 46; 91]].
Proof.
  apply (built_name_is_parsed_back [None; Some [97; 93; 93]; None; Some [32; 34; 46; 91]] [97; 93; 93] [None; Some [32; 34; 46; 91]]);
    [reflexivity|reflexivity|by left].
Defined.

(** ** Any text *)

Definition quote_ok (st : State) (q : option char) : Prop :=
  match st with InQuotedPart => q = Some LBRACKET \/ q = Some DQUOTE | _ => True end.

Lemma scan_completes allow n : forall chars st parts cur q,
  (length chars <= n)%nat -> quote_ok st q -> completes (scan allow st parts cur q chars).
Proof.
  induction n as [|n IH]; intros [|ch rest] st parts cur q Hl Hq; cbn [length] in Hl; try lia;
    try (cbn [scan]; unfold final_part; by repeat case_match).
  destruct st; cbn [scan]; try (repeat case_match; by first [done | apply IH; [cbn in *; lia|]]).
  - destruct (is_whitespace ch); [apply IH; [lia|done]|].
    destruct ((ch =? LBRACKET) || (ch =? DQUOTE)) eqn:E; [apply IH; [lia|]|].
    { apply orb_true_iff in E as [E%Z.eqb_eq|E%Z.eqb_eq]; subst ch; [by left|by right]. }
    repeat case_match; try done; (apply IH; [lia|done]).
  - destruct Hq as [-> | ->]; unfold LBRACKET, DQUOTE; destruct (_ =? _);
      try (apply IH; [lia|by (left + right)]); (destruct rest as [|c2 rest2]; [apply IH; [lia|done]|]);
      cbn [length] in Hl; destruct (_ =? _); apply IH; cbn [length]; try lia; by (left + right + idtac).
  - destruct (is_whitespace ch); [apply IH; [lia|done]|].
    destruct ((ch =? LBRACKET) || (ch =? DQUOTE)) eqn:E; [apply IH; [lia|]|].
    { apply orb_true_iff in E as [E%Z.eqb_eq|E%Z.eqb_eq]; subst ch; [by left|by right]. }
    repeat case_match; try done; (apply IH; [lia|done]).
Qed.

(** Any text is parsed or refused: for every input the parser returns four places, of which no
    more than the allowed number of trailing ones are filled, or a usage error; it never reaches
    the code marked unreachable. *)
Theorem parse_identifier_total name allow_empty max_parts :
  (max_parts <= MAX_PARTS)%nat ->
  match parse_multipart_identifier_with_max_parts name allow_empty max_parts with
  | Ok parts => exists ps, (length ps <= max_parts)%nat /\ length parts = MAX_PARTS /\
      parts = replicate (MAX_PARTS - length ps) None ++ (Some <$> ps)
  | Err e => True
  | _ => False
  end.
Proof.
  intros Hm. unfold parse_multipart_identifier_with_max_parts.
  pose proof (scan_completes allow_empty (length name) name Init [] [] None ltac:(done) I) as Hc.
  destruct (scan _ _ _ _ _ _) as [ps| | |]; cbn [rbind]; try done. case_decide as Hd; [done|].
  exists ps. split_and!; [lia| |done]. unfold right_justify. rewrite length_app, length_replicate, length_fmap. lia.
Qed.

Lemma parse_identifier_total_witness :
  match parse_multipart_identifier_with_max_parts [91; 97] false 3 with
  | Ok parts => exists ps, (length ps <= 3)%nat /\ length parts = MAX_PARTS /\
      parts = replicate (MAX_PARTS - length ps) None ++ (Some <$> ps)
  | Err e => True
  | _ => False
  end.
Proof. apply parse_identifier_total. unfold MAX_PARTS. lia. Defined.

(** Empty parts are not always refused: with [allow_empty] off, an omitted part is an error,
    while an empty quoted part is accepted as a name. *)
Example quoted_empty_part_is_accepted :
  parse_multipart_identifier [97; DOT; DOT; 98] false = Err empty_part_error /\
  parse_multipart_identifier [97; DOT; LBRACKET; RBRACKET; DOT; 98] false =
    Ok [None; Some [97]; Some []; Some [98]].
Proof. vm_compute. done. Qed.

(** ** Literals *)

(** Reads a quoted SQL literal up to its closing quote. *)
Fixpoint read_literal (s : str) : option (str * str) :=
  match s with
  | [] => None
  | c :: rest =>
      if c =? SQUOTE then
        match rest with
        | c2 :: rest2 =>
            if c2 =? SQUOTE then (fun r => (SQUOTE :: r.1, r.2)) <$> read_literal rest2
            else Some ([], rest)
        | [] => Some ([], [])
        end
      else (fun r => (c :: r.1, r.2)) <$> read_literal rest
  end.

(** A text placed in a literal cannot leave it: a reader of the quoted literal gets back exactly
    the text, whatever quotes it contains, and stops at the closing quote the client wrote. *)
Theorem escaped_literal_is_contained input rest :
  (forall c rest', rest = c :: rest' -> c <> SQUOTE) ->
  read_literal (escape_string_literal input ++ SQUOTE :: rest) = Some (input, rest).
Proof.
  intros Hr. unfold escape_string_literal. induction input as [|c s IH].
  - cbn. destruct rest as [|c rest']; [done|]. by rewrite (proj2 (Z.eqb_neq c SQUOTE)) by (by eapply Hr).
  - rewrite double_char_cons. destruct (Z.eqb_spec c SQUOTE) as [->|Hc].
    + cbn [app read_literal]. cbn. by rewrite IH.
    + cbn [app read_literal]. rewrite (proj2 (Z.eqb_neq c SQUOTE)) by done. by rewrite IH.
Qed.

Lemma escaped_literal_is_contained_witness :
  read_literal (escape_string_literal [79; 39; 66; 39; 39] ++ [SQUOTE; 59]) = Some ([79; 39; 66; 39; 39], [59]).
Proof. apply escaped_literal_is_contained. by intros c rest' [= <- _]. Defined.
