(* ===== verification/DataClassification.v ===== *)
(** * DATACLASSIFICATION (src/mssql-tds/src/token/data_classification.rs, src/mssql-tds/src/token/parsers/data_classification_parser.rs)

    The sensitivity metadata of a result set and its parser, which has no length field to go by
    and so counts what it reads against a budget. *)

From stdpp Require Import strings.
From S2P Require Import Prelude Core Unicode PacketReader.

(** ** Metadata *)

Inductive DataClassificationVersion := Version1 | Version2.

Definition classification_error (message : string) : Error :=
  ProtocolError ("DATACLASSIFICATION: " +:+ message).

Definition is_classification_error (e : Error) : bool :=
  match e with ProtocolError message => String.prefix "DATACLASSIFICATION: " message | _ => false end.

Definition DataClassificationVersion_try_from (value : Z) : TdsResult DataClassificationVersion :=
  match value with
  | 1 => Ok Version1
  | 2 => Ok Version2
  | _ => Err (classification_error "unsupported version; supported versions are 1 and 2")
  end.

Record SensitivityLabel := { label_name : str; label_id : str }.
Record InformationType := { type_name : str; type_id : str }.

Inductive SensitivityLabelReference := LabelUnspecified | LabelIndex_ (index : Z).
Inductive InformationTypeReference := TypeUnspecified | TypeIndex (index : Z).

Inductive SensitivityRank := RankNotDefined | RankNone | RankLow | RankMedium | RankHigh | RankCritical.

Definition SensitivityRank_try_from (value : Z) : TdsResult SensitivityRank :=
  match value with
  | -1 => Ok RankNotDefined
  | 0 => Ok RankNone
  | 10 => Ok RankLow
  | 20 => Ok RankMedium
  | 30 => Ok RankHigh
  | 40 => Ok RankCritical
  | _ => Err (classification_error "unknown sensitivity rank")
  end.

Definition SensitivityRank_i32 (r : SensitivityRank) : Z :=
  match r with
  | RankNotDefined => -1 | RankNone => 0 | RankLow => 10 | RankMedium => 20 | RankHigh => 30
  | RankCritical => 40
  end.

Record SensitivityProperty := {
  sensitivity_label : SensitivityLabelReference;
  information_type : InformationTypeReference;
  property_rank : option SensitivityRank;
}.

Record ColumnSensitivity := { properties : list SensitivityProperty }.

Record DataClassificationMetadata := {
  version : DataClassificationVersion;
  sensitivity_labels : list SensitivityLabel;
  information_types : list InformationType;
  rank : option SensitivityRank;
  columns : list ColumnSensitivity;
}.

Definition is_classified (c : ColumnSensitivity) : bool :=
  match properties c with [] => false | _ => true end.

Definition resolve_label (m : DataClassificationMetadata) (reference : SensitivityLabelReference)
    : option SensitivityLabel :=
  match reference with
  | LabelUnspecified => None
  | LabelIndex_ index => sensitivity_labels m !! Z.to_nat index
  end.

Definition resolve_information_type (m : DataClassificationMetadata)
    (reference : InformationTypeReference) : option InformationType :=
  match reference with
  | TypeUnspecified => None
  | TypeIndex index => information_types m !! Z.to_nat index
  end.

(** ** Fields and the budget *)

Inductive Field :=
  | LabelCount | LabelName (i : Z) | LabelId (i : Z)
  | InformationTypeCount | InformationTypeName (i : Z) | InformationTypeId (i : Z)
  | ResultSetRank | ColumnCount | PropertyCount (column : Z)
  | LabelIndex (column property : Z) | InformationTypeIndex (column property : Z)
  | PropertyRank (column property : Z).

(** [Display], without the numbers. *)
Definition Field_display (f : Field) : string :=
  match f with
  | LabelCount => "sensitivity-label count"
  | LabelName _ => "sensitivity label name"
  | LabelId _ => "sensitivity label id"
  | InformationTypeCount => "information-type count"
  | InformationTypeName _ => "information type name"
  | InformationTypeId _ => "information type id"
  | ResultSetRank => "result-set sensitivity rank"
  | ColumnCount => "result-set column count"
  | PropertyCount _ => "column sensitivity-property count"
  | LabelIndex _ _ => "column property sensitivity-label index"
  | InformationTypeIndex _ _ => "column property information-type index"
  | PropertyRank _ _ => "column property sensitivity rank"
  end.

Definition NULL_DICTIONARY_INDEX : Z := 65535.
Definition MAX_DATA_CLASSIFICATION_TOKEN_BYTES : Z := 16 * 1024 * 1024.

Record ParseBudget := { consumed : Z; limit : Z }.

Definition ParseBudget_new (limit : Z) : ParseBudget := {| consumed := 0; limit := limit |}.

(** [usize::saturating_add] and [saturating_mul]. *)
Definition saturate (z : Z) : Z := Z.min z (2 ^ 64 - 1).

Definition claim (n : Z) (field : Field) : M ParseBudget unit := fun b =>
  let c := saturate (consumed b + n) in
  if limit b <? c
  then (Err (classification_error (Field_display field +:+ " exceeds the maximum supported token size")), b)
  else (Ok tt, {| consumed := c; limit := limit b |}).

Definition validate_collection (count minimum_item_bytes : Z) (field : Field) : M ParseBudget unit := fun b =>
  let minimum_bytes := saturate (count * minimum_item_bytes) in
  let remaining := limit b - consumed b in
  if remaining <? minimum_bytes
  then (Err (classification_error (Field_display field +:+ " exceeds the remaining parser limit")), b)
  else (Ok tt, b).

Definition dictionary_index (index : Z) (dictionary_len : nat) (field : Field)
    : TdsResult (option Z) :=
  if index =? NULL_DICTIONARY_INDEX then Ok None
  else if decide (dictionary_len <= Z.to_nat index)%nat
  then Err (classification_error (Field_display field +:+ " is outside dictionary length"))
  else Ok (Some index).

Definition label_reference (index : Z) (dictionary_len : nat) (field : Field)
    : TdsResult SensitivityLabelReference :=
  let? o := dictionary_index index dictionary_len field in
  Ok match o with Some i => LabelIndex_ i | None => LabelUnspecified end.

Definition information_type_reference (index : Z) (dictionary_len : nat) (field : Field)
    : TdsResult InformationTypeReference :=
  let? o := dictionary_index index dictionary_len field in
  Ok match o with Some i => TypeIndex i | None => TypeUnspecified end.

(** ** The parser *)

Section parser.
Context {R : Type} `{ops : TdsPacketReader R}.

(** The reader and the budget are two pieces of the state. *)
Definition reading {A} (m : M R A) : M (R * ParseBudget) A := fun '(r, b) =>
  let '(x, r') := m r in (x, (r', b)).
Definition budgeting {A} (m : M ParseBudget A) : M (R * ParseBudget) A := fun '(r, b) =>
  let '(x, b') := m b in (x, (r, b')).

Definition read_u8 (field : Field) : M (R * ParseBudget) Z :=
  budgeting (claim 1 field) ;; reading read_byte.

Definition read_u16 (field : Field) : M (R * ParseBudget) Z :=
  budgeting (claim 2 field) ;; reading read_uint16.

Definition read_i32 (field : Field) : M (R * ParseBudget) Z :=
  budgeting (claim 4 field) ;; reading read_int32.

Definition read_rank (field : Field) : M (R * ParseBudget) SensitivityRank :=
  value <- read_i32 field ;;
  match SensitivityRank_try_from value with
  | Ok r => ret r
  | _ => throw (classification_error (Field_display field +:+ ": unknown value"))
  end.

(** [for i in 0..n] collecting the results. *)
Fixpoint for_each {S A} (n : nat) (i : Z) (f : Z -> M S A) : M S (list A) :=
  match n with
  | O => ret []
  | S n => x <- f i ;; xs <- for_each n (i + 1) f ;; ret (x :: xs)
  end.

Definition read_b_varchar (field : Field) : M (R * ParseBudget) str :=
  character_count <- read_u8 field ;;
  budgeting (claim (character_count * 2) field) ;;
  units <- for_each (Z.to_nat character_count) 0 (fun _ => reading read_uint16) ;;
  ret (from_utf16_lossy units).

Definition read_label (index : Z) : M (R * ParseBudget) SensitivityLabel :=
  name <- read_b_varchar (LabelName index) ;;
  id <- read_b_varchar (LabelId index) ;;
  ret {| label_name := name; label_id := id |}.

Definition read_information_type (index : Z) : M (R * ParseBudget) InformationType :=
  name <- read_b_varchar (InformationTypeName index) ;;
  id <- read_b_varchar (InformationTypeId index) ;;
  ret {| type_name := name; type_id := id |}.

Definition read_rank_if (v : DataClassificationVersion) (field : Field)
    : M (R * ParseBudget) (option SensitivityRank) :=
  match v with
  | Version1 => ret None
  | Version2 => r <- read_rank field ;; ret (Some r)
  end.

Definition read_property (v : DataClassificationVersion) (labels types : nat) (column property : Z)
    : M (R * ParseBudget) SensitivityProperty :=
  label_index <- read_u16 (LabelIndex column property) ;;
  information_type_index <- read_u16 (InformationTypeIndex column property) ;;
  property_rank <- read_rank_if v (PropertyRank column property) ;;
  label <- lift (label_reference label_index labels (LabelIndex column property)) ;;
  type <- lift (information_type_reference information_type_index types
                  (InformationTypeIndex column property)) ;;
  ret {| sensitivity_label := label; information_type := type; property_rank := property_rank |}.

Definition read_column (v : DataClassificationVersion) (property_bytes : Z) (labels types : nat)
    (column : Z) : M (R * ParseBudget) ColumnSensitivity :=
  property_count <- read_u16 (PropertyCount column) ;;
  budgeting (validate_collection property_count property_bytes (PropertyCount column)) ;;
  properties <- for_each (Z.to_nat property_count) 0 (read_property v labels types column) ;;
  ret {| properties := properties |}.

Definition parse_body (v : DataClassificationVersion) : M (R * ParseBudget) DataClassificationMetadata :=
  label_count <- read_u16 LabelCount ;;
  budgeting (validate_collection label_count 2 LabelCount) ;;
  labels <- for_each (Z.to_nat label_count) 0 read_label ;;
  information_type_count <- read_u16 InformationTypeCount ;;
  budgeting (validate_collection information_type_count 2 InformationTypeCount) ;;
  types <- for_each (Z.to_nat information_type_count) 0 read_information_type ;;
  rank <- read_rank_if v ResultSetRank ;;
  let property_bytes := match v with Version1 => 4 | Version2 => 8 end in
  column_count <- read_u16 ColumnCount ;;
  budgeting (validate_collection column_count 2 ColumnCount) ;;
  columns <- for_each (Z.to_nat column_count) 0
               (read_column v property_bytes (length labels) (length types)) ;;
  ret {| version := v; sensitivity_labels := labels; information_types := types; rank := rank;
         columns := columns |}.

Definition parse_within (v : DataClassificationVersion) (limit : Z)
    : M R DataClassificationMetadata := fun r =>
  let '(x, (r', _)) := parse_body v (r, ParseBudget_new limit) in (x, r').

Definition parse_with_version (v : DataClassificationVersion) : M R DataClassificationMetadata :=
  parse_within v MAX_DATA_CLASSIFICATION_TOKEN_BYTES.

(** [parse]: [negotiated] is the reader's negotiated version. *)
Definition parse_data_classification (negotiated : option DataClassificationVersion)
    : M R DataClassificationMetadata :=
  match negotiated with
  | Some v => parse_with_version v
  | None => throw (classification_error "token received but the feature was not negotiated")
  end.
End parser.
