(* ===== verification/DataClassificationLaws.v ===== *)
(** * The DATACLASSIFICATION parser reads back what the protocol lays out, and is safe

    The layout of sensitivity metadata; reading it within the budget; and what the parser
    guarantees of the metadata it returns on any input. *)

From stdpp Require Import strings.
From S2P Require Import Prelude Core ReadBuffer Transport Framing Unicode PacketReader.
From S2P Require Import Reader ReaderLaws Tokens TokenParsers TokenLaws TokenSafety DataClassification.

(** ** The layout *)

Definition encode_label (l : SensitivityLabel) : bytes :=
  b_varchar (label_name l) ++ b_varchar (label_id l).
Definition encode_type (t : InformationType) : bytes :=
  b_varchar (type_name t) ++ b_varchar (type_id t).
Definition encode_rank (r : option SensitivityRank) : bytes :=
  match r with Some r => le_bytes 4 (SensitivityRank_i32 r) | None => [] end.
Definition label_index (r : SensitivityLabelReference) : Z :=
  match r with LabelUnspecified => NULL_DICTIONARY_INDEX | LabelIndex_ i => i end.
Definition type_index (r : InformationTypeReference) : Z :=
  match r with TypeUnspecified => NULL_DICTIONARY_INDEX | TypeIndex i => i end.
Definition encode_property (p : SensitivityProperty) : bytes :=
  le_bytes 2 (label_index (sensitivity_label p)) ++ le_bytes 2 (type_index (information_type p)) ++
  encode_rank (property_rank p).
Definition encode_list {A} (enc : A -> bytes) (xs : list A) : bytes :=
  le_bytes 2 (Z.of_nat (length xs)) ++ concat (enc <$> xs).
Definition encode_column (c : ColumnSensitivity) : bytes := encode_list encode_property (properties c).
Definition encode_classification (m : DataClassificationMetadata) : bytes :=
  encode_list encode_label (sensitivity_labels m) ++ encode_list encode_type (information_types m) ++
  encode_rank (rank m) ++ encode_list encode_column (columns m).

(** ** Well-formed metadata *)

Definition rank_ok (v : DataClassificationVersion) (r : option SensitivityRank) : Prop :=
  match v with Version1 => r = None | Version2 => is_Some r end.
Definition index_ok (len : nat) (i : Z) : Prop := 0 <= i < NULL_DICTIONARY_INDEX /\ (Z.to_nat i < len)%nat.
Definition label_ref_ok (len : nat) (r : SensitivityLabelReference) : Prop :=
  match r with LabelUnspecified => True | LabelIndex_ i => index_ok len i end.
Definition type_ref_ok (len : nat) (r : InformationTypeReference) : Prop :=
  match r with TypeUnspecified => True | TypeIndex i => index_ok len i end.
Definition property_ok (v : DataClassificationVersion) (labels types : nat) (p : SensitivityProperty) : Prop :=
  label_ref_ok labels (sensitivity_label p) /\ type_ref_ok types (information_type p) /\
  rank_ok v (property_rank p).
Definition counted {A} (xs : list A) : Prop := Z.of_nat (length xs) < 65536.
Definition column_ok (v : DataClassificationVersion) (labels types : nat) (c : ColumnSensitivity) : Prop :=
  counted (properties c) /\ Forall (property_ok v labels types) (properties c).

(** What holds of any metadata the parser returns. *)
Definition metadata_ok (v : DataClassificationVersion) (m : DataClassificationMetadata) : Prop :=
  version m = v /\ counted (sensitivity_labels m) /\ counted (information_types m) /\
  rank_ok v (rank m) /\ counted (columns m) /\
  Forall (column_ok v (length (sensitivity_labels m)) (length (information_types m))) (columns m).

(** The texts that fit their length bytes. *)
Definition texts_ok (m : DataClassificationMetadata) : Prop :=
  Forall (fun l => short_str (label_name l) /\ short_str (label_id l)) (sensitivity_labels m) /\
  Forall (fun t => short_str (type_name t) /\ short_str (type_id t)) (information_types m).

(** ** Reading within the budget *)

Section reads_back.
Context {R : Type} {delivers : R -> bytes -> Prop} `{laws : PacketReaderLaws R delivers}.
(** The stream after the token. *)
Variable extra : bytes.

(** The reader delivers the rest of the token and then [extra], and the budget covers the rest
    of the token. *)
Definition within (s : R * ParseBudget) (bs : bytes) : Prop :=
  delivers (fst s) (bs ++ extra) /\ 0 <= consumed (snd s) /\
  consumed (snd s) + Z.of_nat (length bs) <= limit (snd s) < 2 ^ 63.

Lemma reads_claimed {A} n field (m : M R A) bs a :
  reads delivers m bs a -> Z.of_nat (length bs) = n ->
  reads within (budgeting (claim n field) ;; reading m) bs a.
Proof.
  intros Hm Hn [r b] more (Hd & H0 & Hb). cbn in *. rewrite <- app_assoc in Hd. rewrite length_app in Hb.
  destruct (Hm r (more ++ extra) Hd) as (r' & E & Hd').
  unfold bind, budgeting, reading, claim, saturate.
  rewrite Z.min_l, (proj2 (Z.ltb_ge _ _)), E by lia.
  eexists. split; [done|]. unfold within. cbn. split; [done|lia].
Qed.

Lemma reads_claim_bind {A B} n field (m : M R A) (m' : M (R * ParseBudget) A) (f : A -> B) bs a :
  reads delivers m bs a -> Z.of_nat (length bs) = n -> (forall s, m' s = reading m s) ->
  reads within (budgeting (claim n field) ;; (x <- m' ;; ret (f x))) bs (f a).
Proof.
  intros Hm Hn Em s more Hs.
  destruct (reads_claimed n field m bs a Hm Hn s more Hs) as (s' & E & Hs').
  exists s'. split; [|done]. unfold bind in *.
  destruct (budgeting (claim n field) s) as [[] s1]; try done. by rewrite Em, E.
Qed.

Lemma for_each_reading {A} (m : M R A) n : forall i s,
  for_each n i (fun _ => reading m) s = reading (for_each n i (fun _ => m)) s.
Proof.
  induction n as [|n IH]; intros i [r b]; cbn [for_each]; [done|]. unfold bind.
  cbn [reading]. destruct (m r) as [[a|e|p|] r']; try done. rewrite IH. cbn [reading].
  by destruct (for_each n (i + 1) (fun _ => m) r') as [[] ?].
Qed.

(** A count that passes the check is one whose entries follow. *)
Lemma reads_validated {A} count min field (m : M (R * ParseBudget) A) bs a :
  0 <= count * min <= Z.of_nat (length bs) -> reads within m bs a ->
  reads within (budgeting (validate_collection count min field) ;; m) bs a.
Proof.
  intros Hn Hm [r b] more Hs. pose proof Hs as (Hd & H0 & Hb). cbn in *. rewrite length_app in Hb.
  destruct (Hm (r, b) more Hs) as (s' & E & Hs'). exists s'. split; [|done].
  unfold bind, budgeting, validate_collection, saturate.
  by rewrite Z.min_l, (proj2 (Z.ltb_ge _ _)) by lia.
Qed.

Lemma reads_for_each {A} (f : Z -> M (R * ParseBudget) A) enc xs : forall i,
  Forall (fun x => forall i, reads within (f i) (enc x) x) xs ->
  reads within (for_each (length xs) i f) (concat (enc <$> xs)) xs.
Proof.
  induction xs as [|x xs IH]; intros i Hx; cbn [for_each length]; [apply reads_ret|].
  apply Forall_cons_1 in Hx as [Hx Hxs]. rewrite concat_fmap_cons.
  eapply reads_bind; [apply Hx|]. apply (reads_final _ (cons x)) with xs; [by apply IH|done].
Qed.

Lemma reads_u8 field z : 0 <= z < 256 -> reads within (read_u8 field) [byte_of z] z.
Proof. intros. apply reads_claimed; [by apply reads_byte|done]. Qed.

Lemma reads_u16 field z : in_unsigned 16 z -> reads within (read_u16 field) (le_bytes 2 z) z.
Proof. intros. apply reads_claimed; [by apply reads_uint16|by rewrite length_le_bytes]. Qed.

Lemma reads_rank field r :
  reads within (read_rank field) (le_bytes 4 (SensitivityRank_i32 r)) r.
Proof.
  unfold read_rank. rewrite <- (app_nil_r (le_bytes _ _)). eapply reads_bind.
  - apply reads_claimed; [apply reads_int32|by rewrite length_le_bytes]. by destruct r.
  - destruct r; apply reads_ret.
Qed.

Lemma reads_rank_if v field r : rank_ok v r -> reads within (read_rank_if v field) (encode_rank r) r.
Proof.
  destruct v; cbn; [intros ->; apply reads_ret|intros [r' ->]].
  apply (reads_final _ Some) with r'; [apply reads_rank|done].
Qed.

Lemma reads_units us : forall i,
  Forall (fun u => in_unsigned 16 u) us ->
  reads delivers (for_each (length us) i (fun _ => read_uint16)) (units_le us) us.
Proof.
  unfold units_le. induction us as [|u us IH]; intros i Hu; cbn [for_each length]; [apply reads_ret|].
  apply Forall_cons_1 in Hu as [Hu Hus]. rewrite concat_fmap_cons.
  eapply reads_bind; [by apply reads_uint16|]. apply (reads_final _ (cons u)) with us; [by apply IH|done].
Qed.

Lemma reads_varchar field s : short_str s -> reads within (read_b_varchar field) (b_varchar s) s.
Proof.
  intros [Hs Hl]. unfold read_b_varchar, b_varchar.
  eapply (reads_bind _ _ [_]); [apply reads_u8; lia|]. rewrite Nat2Z.id.
  eapply reads_eq; [eapply (reads_claim_bind _ _ (for_each _ 0 (fun _ => read_uint16)) _ from_utf16_lossy)|done|].
  - by apply reads_units, utf16_range.
  - rewrite length_units_le. lia.
  - apply for_each_reading.
  - by apply from_utf16_lossy_ok, from_utf16_utf16.
Qed.

Lemma reads_label i l :
  short_str (label_name l) /\ short_str (label_id l) ->
  reads within (read_label i) (encode_label l) l.
Proof.
  intros [? ?]. eapply reads_bind; [by apply reads_varchar|].
  eapply (reads_final _ (fun x => Build_SensitivityLabel _ x)); [by apply reads_varchar|by destruct l].
Qed.

Lemma reads_type i t :
  short_str (type_name t) /\ short_str (type_id t) ->
  reads within (read_information_type i) (encode_type t) t.
Proof.
  intros [? ?]. eapply reads_bind; [by apply reads_varchar|].
  eapply (reads_final _ (fun x => Build_InformationType _ x)); [by apply reads_varchar|by destruct t].
Qed.

Lemma dictionary_index_ok len i field : index_ok len i -> dictionary_index i len field = Ok (Some i).
Proof.
  intros [Hi Hl]. unfold dictionary_index. rewrite (proj2 (Z.eqb_neq _ _)) by lia.
  by rewrite decide_False by lia.
Qed.

Lemma label_reference_ok len r field :
  label_ref_ok len r ->
  in_unsigned 16 (label_index r) /\ label_reference (label_index r) len field = Ok r.
Proof.
  destruct r as [|i]; [done|]. cbn. intros Hi. unfold label_reference. rewrite dictionary_index_ok by done.
  destruct Hi. unfold NULL_DICTIONARY_INDEX in *. split; [split; lia|done].
Qed.

Lemma type_reference_ok len r field :
  type_ref_ok len r ->
  in_unsigned 16 (type_index r) /\ information_type_reference (type_index r) len field = Ok r.
Proof.
  destruct r as [|i]; [done|]. cbn. intros Hi. unfold information_type_reference.
  rewrite dictionary_index_ok by done.
  destruct Hi. unfold NULL_DICTIONARY_INDEX in *. split; [split; lia|done].
Qed.

Lemma reads_property v labels types column i p :
  property_ok v labels types p ->
  reads within (read_property v labels types column i) (encode_property p) p.
Proof.
  intros (Hl & Ht & Hr). unfold read_property, encode_property.
  destruct (label_reference_ok _ _ (LabelIndex column i) Hl) as [Hli El].
  destruct (type_reference_ok _ _ (InformationTypeIndex column i) Ht) as [Hti Et].
  eapply reads_bind; [by apply reads_u16|]. eapply reads_bind; [by apply reads_u16|].
  rewrite <- (app_nil_r (encode_rank _)). eapply reads_bind; [by apply reads_rank_if|].
  rewrite El, Et. destruct p. apply reads_ret.
Qed.

(** A counted collection: the count, its check and the entries. *)
Lemma reads_collection {A B} field min (f : Z -> M (R * ParseBudget) A) (k : list A -> M (R * ParseBudget) B)
    enc xs bs b :
  counted xs -> 0 <= min ->
  Forall (fun x => min <= Z.of_nat (length (enc x)) /\ forall i, reads within (f i) (enc x) x) xs ->
  reads within (k xs) bs b ->
  reads within (n <- read_u16 field ;; budgeting (validate_collection n min field) ;;
                x <- for_each (Z.to_nat n) 0 f ;; k x) (encode_list enc xs ++ bs) b.
Proof.
  intros Hc Hm Hx Hk. unfold encode_list. rewrite <- app_assoc.
  eapply reads_bind; [apply reads_u16; unfold counted in Hc; split; lia|].
  apply reads_validated; rewrite ?Nat2Z.id.
  - rewrite length_app. enough (Z.of_nat (length xs) * min <= Z.of_nat (length (concat (enc <$> xs)))) by lia.
    clear -Hx. induction Hx as [|x xs [Hx _] _ IH]; [cbn; lia|].
    rewrite concat_fmap_cons, length_app. cbn [length]. lia.
  - eapply reads_bind; [|done]. apply reads_for_each. eapply List.Forall_impl; [|exact Hx]. by intros ? [].
Qed.

Lemma length_encode_property v labels types p :
  property_ok v labels types p ->
  Z.of_nat (length (encode_property p)) = match v with Version1 => 4 | Version2 => 8 end.
Proof.
  intros (_ & _ & Hr). unfold encode_property. rewrite !length_app, !length_le_bytes.
  destruct v; cbn in Hr; [by rewrite Hr|]. destruct Hr as [r ->]. cbn. by rewrite length_le_bytes.
Qed.

Lemma reads_column v labels types i c :
  column_ok v labels types c ->
  reads within (read_column v (match v with Version1 => 4 | Version2 => 8 end) labels types i)
    (encode_column c) c.
Proof.
  intros [Hc Hp]. unfold encode_column. rewrite <- (app_nil_r (encode_list _ _)).
  apply reads_collection; [done|by destruct v| |destruct c; apply reads_ret].
  eapply List.Forall_impl; [|exact Hp]. intros p Hp'. split.
  - by rewrite (length_encode_property v labels types).
  - intros j. by apply reads_property.
Qed.

Lemma reads_body m :
  metadata_ok (version m) m -> texts_ok m ->
  reads within (parse_body (version m)) (encode_classification m) m.
Proof.
  intros (_ & Hl & Ht & Hr & Hc & Hcs) [Hls Hts]. unfold encode_classification.
  apply reads_collection; [done|lia| |].
  { eapply List.Forall_impl; [|exact Hls]. intros l Hl'. split; [|intros; by apply reads_label].
    unfold encode_label, b_varchar. rewrite length_app. cbn [length]. lia. }
  apply reads_collection; [done|lia| |].
  { eapply List.Forall_impl; [|exact Hts]. intros t Ht'. split; [|intros; by apply reads_type].
    unfold encode_type, b_varchar. rewrite length_app. cbn [length]. lia. }
  eapply reads_bind; [by apply reads_rank_if|]. cbv zeta. rewrite <- (app_nil_r (encode_list _ _)).
  apply reads_collection; [done|lia| |destruct m; apply reads_ret].
  eapply List.Forall_impl; [|exact Hcs]. intros c Hc'. split; [|intros; by apply reads_column].
  unfold encode_column, encode_list. rewrite length_app, length_le_bytes. lia.
Qed.
End reads_back.

(** Sensitivity metadata laid out as the protocol says, and within the size limit, is read
    back exactly by the parser for the negotiated version, over any packet reader that satisfies
    the reader laws.  Nothing marks the end of the token: the parser stops where it ends and the
    bytes after it are still to be read. *)
Theorem classification_reads_back {R} {delivers : R -> bytes -> Prop} `{laws : PacketReaderLaws R delivers} m :
  metadata_ok (version m) m -> texts_ok m ->
  Z.of_nat (length (encode_classification m)) <= MAX_DATA_CLASSIFICATION_TOKEN_BYTES ->
  reads delivers (parse_data_classification (Some (version m))) (encode_classification m) m.
Proof.
  intros Hm Ht Hl r more Hd. cbn. unfold parse_with_version, parse_within.
  destruct (reads_body more m Hm Ht (r, ParseBudget_new MAX_DATA_CLASSIFICATION_TOKEN_BYTES) [])
    as ([r' b'] & E & Hd' & _).
  - rewrite app_nil_r. split; [done|]. unfold MAX_DATA_CLASSIFICATION_TOKEN_BYTES in *. cbn. lia.
  - exists r'. by rewrite E.
Qed.

(** A result set of two columns, the first classified twice. *)
Definition sample_metadata : DataClassificationMetadata :=
  {| version := Version2;
     sensitivity_labels := [{| label_name := [72; 0x1F600]; label_id := [49] |}];
     information_types := [{| type_name := []; type_id := [50; 51] |}];
     rank := Some RankHigh;
     columns := [{| properties :=
        [{| sensitivity_label := LabelIndex_ 0; information_type := TypeIndex 0; property_rank := Some RankLow |};
         {| sensitivity_label := LabelUnspecified; information_type := TypeIndex 0;
            property_rank := Some RankNotDefined |}] |}; {| properties := [] |}] |}.

Lemma classification_reads_back_witness :
  reads list_delivers (parse_data_classification (Some Version2)) (encode_classification sample_metadata)
    sample_metadata /\
  fst (parse_data_classification (Some Version2) (encode_classification sample_metadata ++ [byte_of 0xFD])) =
    Ok sample_metadata.
Proof.
  split; [|vm_compute; reflexivity]. apply (classification_reads_back sample_metadata).
  - unfold metadata_ok, column_ok, property_ok, counted. cbn. split_and!; try done.
    repeat constructor; cbn; try lia; by eexists.
  - split; repeat constructor; done.
  - vm_compute. discriminate.
Defined.

(** ** On any input *)

Section safety.
Context {R : Type} {inv : R -> Prop} {left : R -> nat} `{rd : SafeReader R inv left}.

(** The budget is never overdrawn, so [limit - consumed] never underflows. *)
Definition budget_ok (s : R * ParseBudget) : Prop :=
  inv (fst s) /\ 0 <= consumed (snd s) <= limit (snd s) /\ limit (snd s) < 2 ^ 63.
Definition left_of (s : R * ParseBudget) : nat := left (fst s).

Lemma gives_reading {A} n (P : A -> Prop) m : gives inv left n P m -> gives budget_ok left_of n P (reading m).
Proof.
  intros Hm [r b] [Hr Hb]. destruct (Hm r Hr) as (Hc & Hi & Ha).
  unfold gives_at, reading. destruct (m r) as [x r']. done.
Qed.

Lemma gives_claim n field :
  0 <= n -> gives budget_ok left_of 0 (fun _ => True) (budgeting (claim n field)).
Proof.
  intros Hn [r b] [Hr Hb]. unfold gives_at, budgeting, claim, saturate. cbn in *.
  destruct (limit b <? _) eqn:E; cbn; [done|]. apply Z.ltb_ge in E.
  split_and!; [done|split; cbn; [done|lia]|]. intros [] _. unfold left_of. cbn. split; [lia|done].
Qed.

Lemma gives_validate n min field :
  gives budget_ok left_of 0 (fun _ => True) (budgeting (validate_collection n min field)).
Proof.
  intros [r b] [Hr Hb]. unfold gives_at, budgeting, validate_collection.
  destruct (_ <? _); cbn; [done|]. split_and!; [done..|]. intros [] _. unfold left_of. cbn. split; [lia|done].
Qed.

Lemma gives_bind0 {S A B} {i : S -> Prop} {l} n (P : A -> Prop) (Q : B -> Prop) (m : M S A) f :
  gives i l n P m -> (forall a, P a -> gives i l 0 Q (f a)) -> gives i l 0 Q (bind m f).
Proof. intros Hm Hf. eapply gives_weaken; [by eapply gives_bind|lia|done]. Qed.

Lemma gives_for_each {S A} {i : S -> Prop} {l} (P : A -> Prop) (f : Z -> M S A) n : forall k,
  (forall k, gives i l 0 P (f k)) ->
  gives i l 0 (fun xs => length xs = n /\ Forall P xs) (for_each n k f).
Proof.
  induction n as [|n IH]; intros k Hf; cbn [for_each]; [by apply gives_ret|].
  eapply gives_bind0; [apply Hf|]. intros x Hx. eapply gives_bind0; [by apply IH|]. intros xs [Hl Hxs].
  apply gives_ret. split; [cbn; lia|by constructor].
Qed.

Lemma read_u8_gives field : gives budget_ok left_of 1 (fun v => 0 <= v < 256) (read_u8 field).
Proof. eapply (gives_bind 0 1); [by apply gives_claim|]. intros _ _. apply gives_reading, safe_byte. Qed.

Lemma read_u16_gives field : gives budget_ok left_of 2 (in_unsigned 16) (read_u16 field).
Proof. eapply (gives_bind 0 2); [by apply gives_claim|]. intros _ _. apply gives_reading, safe_uint16. Qed.

Lemma read_rank_if_gives v field : gives budget_ok left_of 0 (rank_ok v) (read_rank_if v field).
Proof.
  destruct v; [by apply gives_ret|]. eapply gives_bind0 with (P := fun _ => True).
  - eapply gives_bind0.
    + eapply (gives_bind 0 4); [by apply gives_claim|]. intros _ _. apply gives_reading, safe_int32.
    + intros z _. unfold SensitivityRank_try_from. repeat case_match; by first [apply gives_ret|apply gives_throw].
  - intros r _. apply gives_ret. by eexists.
Qed.

Lemma read_b_varchar_gives field : gives budget_ok left_of 0 (fun _ => True) (read_b_varchar field).
Proof.
  eapply gives_bind0; [apply read_u8_gives|]. intros n Hn. cbv beta in Hn.
  eapply gives_bind0; [apply gives_claim; lia|]. intros _ _.
  eapply gives_bind0; [|intros; by apply gives_ret].
  apply (gives_for_each (fun _ => True)). intros _. eapply gives_weaken; [apply gives_reading, safe_uint16|lia|done].
Qed.

Lemma read_label_gives i : gives budget_ok left_of 0 (fun _ => True) (read_label i).
Proof. do 2 (eapply gives_bind0; [apply read_b_varchar_gives|]; intros ? _). by apply gives_ret. Qed.

Lemma read_type_gives i : gives budget_ok left_of 0 (fun _ => True) (read_information_type i).
Proof. do 2 (eapply gives_bind0; [apply read_b_varchar_gives|]; intros ? _). by apply gives_ret. Qed.

Lemma dictionary_index_gives i len field :
  in_unsigned 16 i -> completes (dictionary_index i len field) /\
  forall j, dictionary_index i len field = Ok (Some j) -> index_ok len j.
Proof.
  intros Hi. unfold dictionary_index. destruct (i =? NULL_DICTIONARY_INDEX) eqn:E; [done|].
  apply Z.eqb_neq in E. destruct (decide _) as [|Hl]; [done|]. split; [done|]. intros j [= <-].
  unfold index_ok, in_unsigned, NULL_DICTIONARY_INDEX in *. lia.
Qed.

Lemma label_reference_gives i len field :
  in_unsigned 16 i -> gives budget_ok left_of 0 (label_ref_ok len) (lift (label_reference i len field)).
Proof.
  intros Hi. destruct (dictionary_index_gives i len field Hi) as [Hc Hj]. unfold label_reference.
  apply gives_lift; destruct (dictionary_index i len field) as [[j|]| | |]; try done; intros ? [= <-]; cbn; auto.
Qed.

Lemma type_reference_gives i len field :
  in_unsigned 16 i ->
  gives budget_ok left_of 0 (type_ref_ok len) (lift (information_type_reference i len field)).
Proof.
  intros Hi. destruct (dictionary_index_gives i len field Hi) as [Hc Hj]. unfold information_type_reference.
  apply gives_lift; destruct (dictionary_index i len field) as [[j|]| | |]; try done; intros ? [= <-]; cbn; auto.
Qed.

Lemma read_property_gives v labels types column i :
  gives budget_ok left_of 0 (property_ok v labels types) (read_property v labels types column i).
Proof.
  eapply gives_bind0; [apply read_u16_gives|]; intros l Hl.
  eapply gives_bind0; [apply read_u16_gives|]; intros t Ht.
  eapply gives_bind0; [apply read_rank_if_gives|]; intros r Hr.
  eapply gives_bind0; [by apply label_reference_gives|]; intros lr Hlr.
  eapply gives_bind0; [by apply type_reference_gives|]; intros tr Htr.
  by apply gives_ret.
Qed.

(** A counted collection, whatever the count says. *)
Lemma gives_collection {A B} field min (P : A -> Prop) (Q : B -> Prop) f k :
  (forall i, gives budget_ok left_of 0 P (f i)) ->
  (forall xs, counted xs -> Forall P xs -> gives budget_ok left_of 0 Q (k xs)) ->
  gives budget_ok left_of 0 Q
    (n <- read_u16 field ;; budgeting (validate_collection n min field) ;;
     x <- for_each (Z.to_nat n) 0 f ;; k x).
Proof.
  intros Hf Hk. eapply gives_bind0; [apply read_u16_gives|]; intros n Hn.
  eapply gives_bind0; [apply gives_validate|]; intros _ _.
  eapply gives_bind0; [by apply gives_for_each|]; intros xs [Hl Hxs]. apply Hk; [|done].
  unfold counted, in_unsigned in *. lia.
Qed.

Lemma read_column_gives v min labels types i :
  gives budget_ok left_of 0 (column_ok v labels types) (read_column v min labels types i).
Proof.
  eapply gives_collection; [intros; apply read_property_gives|]. intros xs Hc Hxs. by apply gives_ret.
Qed.

Lemma parse_body_gives v : gives budget_ok left_of 0 (metadata_ok v) (parse_body v).
Proof.
  eapply gives_collection; [apply read_label_gives|]. intros ls Hls _.
  eapply gives_collection; [apply read_type_gives|]. intros ts Hts _.
  eapply gives_bind0; [apply read_rank_if_gives|]. intros r Hr. cbv zeta.
  eapply gives_collection; [intros; apply read_column_gives|]. intros cs Hc Hcs. by apply gives_ret.
Qed.

Lemma parse_classification_gives v : gives inv left 0 (metadata_ok v) (parse_data_classification (Some v)).
Proof.
  intros r Hr. unfold gives_at. cbn [parse_data_classification]. unfold parse_with_version, parse_within.
  destruct (parse_body_gives v (r, ParseBudget_new MAX_DATA_CLASSIFICATION_TOKEN_BYTES)) as (Hc & [Hi _] & Ha);
    [done|].
  destruct (parse_body v _) as [x [r' b']]. split_and!; [done..|]. cbn in *. intros m ->.
  by destruct (Ha m eq_refl).
Qed.

(** Whatever bytes follow the token's kind, the parser ends with an error or with metadata
    in which every reference resolves to an entry of its dictionary and ranks are present
    exactly in version 2.  It does not panic, the budget never underflows, and the reader's
    invariant is kept. *)
Theorem classification_is_safe v :
  gives inv left 0
    (fun m => metadata_ok v m /\
       forall c p, c ∈ columns m -> p ∈ properties c ->
         (sensitivity_label p = LabelUnspecified \/ is_Some (resolve_label m (sensitivity_label p))) /\
         (information_type p = TypeUnspecified \/ is_Some (resolve_information_type m (information_type p))))
    (parse_data_classification (Some v)).
Proof.
  intros r Hr. destruct (parse_classification_gives v r Hr) as (Hc & Hi & Ha). split_and!; [done..|].
  intros m Em. destruct (Ha m Em) as [Hl Hm]. split_and!; [done..|]. intros c p Hcm Hpc.
  destruct Hm as (_ & _ & _ & _ & _ & Hcs). rewrite list.Forall_forall in Hcs. destruct (Hcs c Hcm) as [_ Hps].
  rewrite list.Forall_forall in Hps. destruct (Hps p Hpc) as (Hlr & Htr & _).
  split; [destruct (sensitivity_label p)|destruct (information_type p)]; first [by left|right];
    apply lookup_lt_is_Some; [by destruct Hlr|by destruct Htr].
Qed.
End safety.

(** A property whose label index is outside of the dictionary. *)
Definition stray_reference : bytes :=
  byte_of <$> [0; 0; 0; 0; 1; 0; 1; 0; 3; 0; 255; 255].

Lemma classification_is_safe_witness :
  completes (fst (parse_data_classification (Some Version1)
                    (NetworkTransport_new (chunked [tabular_packet true stray_reference]) 64))) /\
  fst (parse_data_classification (Some Version1) stray_reference) =
    Err (classification_error "column property sensitivity-label index is outside dictionary length").
Proof.
  split; [|vm_compute; reflexivity].
  apply (classification_is_safe (inv := transport_wf) (left := Reader.left)), fresh_transport_wf. lia.
Defined.
