(* ===== verification/DataTypes.v ===== *)
(** * SQL data types on the wire (src/mssql-tds/src/datatypes/sqldatatypes.rs)

    The type identifiers, their classes by length encoding, and TYPE_INFO: what a column's
    description says of the values that follow. *)

From stdpp Require Import strings.
From S2P Require Import Prelude Core Unicode PacketReader Tokens.

(** ** Type identifiers *)

Inductive TdsDataType :=
  | DT_Void | DT_Image | DT_Text | DT_Guid | DT_VarBinary | DT_IntN | DT_VarChar | DT_DateN |
    DT_TimeN | DT_DateTime2N | DT_DateTimeOffsetN | DT_Binary | DT_Char | DT_Int1 | DT_Bit |
    DT_Int2 | DT_Decimal | DT_Int4 | DT_DateTim4 | DT_Flt4 | DT_Money | DT_DateTime |
    DT_Flt8 | DT_Numeric | DT_SsVariant | DT_NText | DT_BitN | DT_DecimalN | DT_NumericN |
    DT_FltN | DT_MoneyN | DT_DateTimeN | DT_Money4 | DT_Int8 | DT_BigVarBinary |
    DT_BigVarChar | DT_BigBinary | DT_BigChar | DT_NVarChar | DT_NChar | DT_Udt | DT_Xml |
    DT_SqlTable | DT_Json | DT_Vector | DT_None.

#[global] Instance TdsDataType_eq_dec : EqDecision TdsDataType.
Proof. solve_decision. Defined.

(** The discriminants of the enumeration. *)
Definition TdsDataType_u8 (t : TdsDataType) : Z :=
  match t with
  | DT_Void => 0x1F | DT_Image => 0x22 | DT_Text => 0x23 | DT_Guid => 0x24
  | DT_VarBinary => 0x25 | DT_IntN => 0x26 | DT_VarChar => 0x27 | DT_DateN => 0x28
  | DT_TimeN => 0x29 | DT_DateTime2N => 0x2A | DT_DateTimeOffsetN => 0x2B | DT_Binary => 0x2D
  | DT_Char => 0x2F | DT_Int1 => 0x30 | DT_Bit => 0x32 | DT_Int2 => 0x34 | DT_Decimal => 0x37
  | DT_Int4 => 0x38 | DT_DateTim4 => 0x3A | DT_Flt4 => 0x3B | DT_Money => 0x3C
  | DT_DateTime => 0x3D | DT_Flt8 => 0x3E | DT_Numeric => 0x3F | DT_SsVariant => 0x62
  | DT_NText => 0x63 | DT_BitN => 0x68 | DT_DecimalN => 0x6A | DT_NumericN => 0x6C
  | DT_FltN => 0x6D | DT_MoneyN => 0x6E | DT_DateTimeN => 0x6F | DT_Money4 => 0x7A
  | DT_Int8 => 0x7F | DT_BigVarBinary => 0xA5 | DT_BigVarChar => 0xA7 | DT_BigBinary => 0xAD
  | DT_BigChar => 0xAF | DT_NVarChar => 0xE7 | DT_NChar => 0xEF | DT_Udt => 0xF0
  | DT_Xml => 0xF1 | DT_SqlTable => 0xF3 | DT_Json => 0xF4 | DT_Vector => 0xF5
  | DT_None => 0x00
  end.

Definition invalid_tds_type : Error := ProtocolError "Invalid TDS Type".

Definition TdsDataType_try_from (value : Z) : TdsResult TdsDataType :=
  match value with
  | 0x1F => Ok DT_Void | 0x22 => Ok DT_Image | 0x23 => Ok DT_Text | 0x24 => Ok DT_Guid
  | 0x25 => Ok DT_VarBinary | 0x26 => Ok DT_IntN | 0x27 => Ok DT_VarChar | 0x28 => Ok DT_DateN
  | 0x29 => Ok DT_TimeN | 0x2A => Ok DT_DateTime2N | 0x2B => Ok DT_DateTimeOffsetN
  | 0x2D => Ok DT_Binary | 0x2F => Ok DT_Char | 0x30 => Ok DT_Int1 | 0x32 => Ok DT_Bit
  | 0x34 => Ok DT_Int2 | 0x37 => Ok DT_Decimal | 0x38 => Ok DT_Int4 | 0x3A => Ok DT_DateTim4
  | 0x3B => Ok DT_Flt4 | 0x3C => Ok DT_Money | 0x3D => Ok DT_DateTime | 0x3E => Ok DT_Flt8
  | 0x3F => Ok DT_Numeric | 0x62 => Ok DT_SsVariant | 0x63 => Ok DT_NText | 0x68 => Ok DT_BitN
  | 0x6A => Ok DT_DecimalN | 0x6C => Ok DT_NumericN | 0x6D => Ok DT_FltN
  | 0x6E => Ok DT_MoneyN | 0x6F => Ok DT_DateTimeN | 0x7A => Ok DT_Money4 | 0x7F => Ok DT_Int8
  | 0xA5 => Ok DT_BigVarBinary | 0xA7 => Ok DT_BigVarChar | 0xAD => Ok DT_BigBinary
  | 0xAF => Ok DT_BigChar | 0xE7 => Ok DT_NVarChar | 0xEF => Ok DT_NChar | 0xF0 => Ok DT_Udt
  | 0xF1 => Ok DT_Xml | 0xF3 => Ok DT_SqlTable | 0xF4 => Ok DT_Json | 0xF5 => Ok DT_Vector
  | _ => Err invalid_tds_type
  end.

Definition get_meta_type_name (t : TdsDataType) : TdsResult string :=
  match t with
  | DT_Int8 => Ok "bigint" | DT_Flt8 => Ok "float" | DT_Flt4 => Ok "real"
  | DT_BigBinary => Ok "binary" | DT_BigVarBinary => Ok "varbinary" | DT_Image => Ok "image"
  | DT_Bit => Ok "bit" | DT_Int1 => Ok "tinyint" | DT_Int2 => Ok "smallint"
  | DT_Int4 => Ok "int" | DT_BigChar => Ok "char" | DT_BigVarChar => Ok "varchar"
  | DT_Text => Ok "text" | DT_NChar => Ok "nchar" | DT_NVarChar => Ok "nvarchar"
  | DT_NText => Ok "ntext" | DT_DecimalN => Ok "decimal" | DT_Xml => Ok "xml"
  | DT_DateTime => Ok "datetime" | DT_DateTim4 => Ok "smalldatetime" | DT_Money => Ok "money"
  | DT_Money4 => Ok "smallmoney" | DT_Guid => Ok "uniqueidentifier"
  | DT_SsVariant => Ok "sql_variant" | DT_Udt => Ok "udt" | DT_Json => Ok "json"
  | DT_Vector => Ok "vector" | DT_DateN => Ok "date" | DT_TimeN => Ok "time"
  | DT_DateTime2N => Ok "datetime2" | DT_DateTimeOffsetN => Ok "datetimeoffset"
  | DT_VarChar => Ok "varchar" | DT_VarBinary => Ok "varbinary" | DT_Char => Ok "char"
  | DT_Decimal => Ok "decimal" | DT_Numeric => Ok "numeric" | DT_NumericN => Ok "numeric"
  | _ => Err (ImplementationError "get_meta_type_name called on a type which has no SQL declaration name")
  end.

(** ** Classes of types *)

Inductive FixedLengthTypes :=
  | FL_Int1 | FL_Bit | FL_Int2 | FL_Int4 | FL_DateTim4 | FL_Flt4 | FL_Money4 | FL_Money |
    FL_DateTime | FL_Flt8 | FL_Int8.

Definition FixedLengthTypes_try_from (value : TdsDataType) : TdsResult FixedLengthTypes :=
  match value with
  | DT_Int1 => Ok FL_Int1 | DT_Bit => Ok FL_Bit | DT_Int2 => Ok FL_Int2
  | DT_Int4 => Ok FL_Int4 | DT_DateTim4 => Ok FL_DateTim4 | DT_Flt4 => Ok FL_Flt4
  | DT_Money4 => Ok FL_Money4 | DT_Money => Ok FL_Money | DT_DateTime => Ok FL_DateTime
  | DT_Flt8 => Ok FL_Flt8 | DT_Int8 => Ok FL_Int8
  | _ => Err invalid_tds_type
  end.

Definition FixedLengthTypes_get_len (t : FixedLengthTypes) : Z :=
  match t with
  | FL_Int1 | FL_Bit => 1
  | FL_Int2 => 2
  | FL_Int4 | FL_DateTim4 | FL_Flt4 | FL_Money4 => 4
  | FL_Money | FL_DateTime | FL_Flt8 | FL_Int8 => 8
  end.

Inductive VariableLengthTypes :=
  | VL_Guid | VL_IntN | VL_BitN | VL_Decimal | VL_Numeric | VL_DecimalN | VL_NumericN |
    VL_FltN | VL_MoneyN | VL_DateTimeN | VL_DateN | VL_TimeN | VL_DateTime2N |
    VL_DateTimeOffsetN | VL_Char | VL_VarChar | VL_Binary | VL_VarBinary | VL_BigVarBinary |
    VL_BigVarChar | VL_BigBinary | VL_BigChar | VL_NVarChar | VL_NChar | VL_Text | VL_Image |
    VL_NText | VL_SsVariant | VL_Vector.

Definition VariableLengthTypes_try_from (value : TdsDataType) : TdsResult VariableLengthTypes :=
  match value with
  | DT_Guid => Ok VL_Guid | DT_IntN => Ok VL_IntN | DT_BitN => Ok VL_BitN
  | DT_Decimal => Ok VL_Decimal | DT_Numeric => Ok VL_Numeric | DT_DecimalN => Ok VL_DecimalN
  | DT_NumericN => Ok VL_NumericN | DT_FltN => Ok VL_FltN | DT_MoneyN => Ok VL_MoneyN
  | DT_DateTimeN => Ok VL_DateTimeN | DT_DateN => Ok VL_DateN | DT_TimeN => Ok VL_TimeN
  | DT_DateTime2N => Ok VL_DateTime2N | DT_DateTimeOffsetN => Ok VL_DateTimeOffsetN
  | DT_Char => Ok VL_Char | DT_VarChar => Ok VL_VarChar | DT_Binary => Ok VL_Binary
  | DT_VarBinary => Ok VL_VarBinary | DT_BigVarBinary => Ok VL_BigVarBinary
  | DT_BigVarChar => Ok VL_BigVarChar | DT_BigBinary => Ok VL_BigBinary
  | DT_BigChar => Ok VL_BigChar | DT_NVarChar => Ok VL_NVarChar | DT_NChar => Ok VL_NChar
  | DT_Text => Ok VL_Text | DT_Image => Ok VL_Image | DT_NText => Ok VL_NText
  | DT_SsVariant => Ok VL_SsVariant | DT_Vector => Ok VL_Vector
  | _ => Err invalid_tds_type
  end.

(** The number of bytes of the length declarator. *)
Definition get_len_byte_count (t : VariableLengthTypes) : Z :=
  match t with
  | VL_BigVarBinary | VL_BigVarChar | VL_BigBinary | VL_BigChar | VL_NVarChar | VL_NChar | VL_Vector => 2
  | VL_Image | VL_NText | VL_SsVariant | VL_Text => 4
  | _ => 1
  end.

Inductive PartialLengthType :=
  | PL_Xml | PL_BigVarChar | PL_BigVarBinary | PL_NVarChar | PL_Udt | PL_Json.

Definition PartialLengthType_try_from (value : TdsDataType) : TdsResult PartialLengthType :=
  match value with
  | DT_Xml => Ok PL_Xml | DT_BigVarChar => Ok PL_BigVarChar
  | DT_BigVarBinary => Ok PL_BigVarBinary | DT_NVarChar => Ok PL_NVarChar
  | DT_Udt => Ok PL_Udt | DT_Json => Ok PL_Json
  | _ => Err invalid_tds_type
  end.

(** ** TYPE_INFO *)

Record XmlInfo := {
  schema_present : Z;
  xml_db_name : option str;
  owning_schema : option str;
  xml_schema_collection : option str;
}.

Record UdtInfoInColMetadata := {
  max_byte_size : Z;
  udt_db_name : str;
  udt_schema_name : str;
  udt_type_name : str;
  assembly_qualified_name : str;
}.

Record UdtInfoInRpc := { rpc_db_name : str; rpc_schema_name : str; rpc_type_name : str }.

Inductive UdtInfo :=
  | InColMetadata (info : UdtInfoInColMetadata)
  | InRpc (info : UdtInfoInRpc).

Inductive TypeInfoVariant :=
  | FixedLen (t : FixedLengthTypes)
  | VarLenString (t : VariableLengthTypes) (length : Z) (collation : option SqlCollation)
  | VarLenPrecisionScale (t : VariableLengthTypes) (length precision scale : Z)
  | VarLenScale (t : VariableLengthTypes) (scale : Z)
  | VarLen (t : VariableLengthTypes) (length : Z)
  | PartialLen (t : PartialLengthType) (length : option Z) (collation : option SqlCollation)
      (xml : option XmlInfo) (udt : option UdtInfo).

Record TypeInfo := {
  tds_type : TdsDataType;
  ti_length : Z;
  type_info_variant : TypeInfoVariant;
}.

(** The constructors offered to callers. *)
Definition fixed_len (tds_type : TdsDataType) : TdsResult TypeInfo :=
  let? t := FixedLengthTypes_try_from tds_type in
  Ok {| tds_type := tds_type; ti_length := FixedLengthTypes_get_len t; type_info_variant := FixedLen t |}.

Definition invalid_constructor : Error := ProtocolError "Invalid TDS type for constructor".

Definition var_len (tds_type : TdsDataType) (length : Z) : TdsResult TypeInfo :=
  let? t := VariableLengthTypes_try_from tds_type in
  match t with
  | VL_MoneyN | VL_DateTimeN | VL_IntN | VL_FltN | VL_Guid | VL_BitN | VL_DateN | VL_Image
  | VL_BigVarBinary | VL_BigBinary | VL_SsVariant =>
      Ok {| tds_type := tds_type; ti_length := length; type_info_variant := VarLen t length |}
  | _ => Err invalid_constructor
  end.

Definition var_len_string (tds_type : TdsDataType) (length : Z) (collation : option SqlCollation)
    : TdsResult TypeInfo :=
  let? t := VariableLengthTypes_try_from tds_type in
  match t with
  | VL_BigChar | VL_BigVarChar | VL_Text | VL_NText | VL_NChar | VL_NVarChar =>
      Ok {| tds_type := tds_type; ti_length := length;
            type_info_variant := VarLenString t length collation |}
  | _ => Err invalid_constructor
  end.

Definition var_len_scale (tds_type : TdsDataType) (length scale : Z) : TdsResult TypeInfo :=
  let? t := VariableLengthTypes_try_from tds_type in
  match t with
  | VL_TimeN | VL_DateTime2N | VL_DateTimeOffsetN | VL_Vector =>
      Ok {| tds_type := tds_type; ti_length := length; type_info_variant := VarLenScale t scale |}
  | _ => Err invalid_constructor
  end.

Definition var_len_precision_scale (tds_type : TdsDataType) (length precision scale : Z)
    : TdsResult TypeInfo :=
  let? t := VariableLengthTypes_try_from tds_type in
  match t with
  | VL_Decimal | VL_Numeric | VL_DecimalN | VL_NumericN =>
      Ok {| tds_type := tds_type; ti_length := length;
            type_info_variant := VarLenPrecisionScale t length precision scale |}
  | _ => Err invalid_constructor
  end.

Definition partial_len (tds_type : TdsDataType) (length : Z) (collation : option SqlCollation)
    : TdsResult TypeInfo :=
  let? t := PartialLengthType_try_from tds_type in
  Ok {| tds_type := tds_type; ti_length := length;
        type_info_variant := PartialLen t (Some length) collation None None |}.

Definition udt_info (t : TypeInfo) : option UdtInfoInColMetadata :=
  match type_info_variant t with
  | PartialLen PL_Udt _ _ _ (Some (InColMetadata info)) => Some info
  | _ => None
  end.

Definition is_unicode_type (t : TdsDataType) : bool :=
  match t with DT_NVarChar | DT_NChar | DT_NText => true | _ => false end.

(** The scale decides the bytes of a time (sqltypes.rs). *)
Definition get_time_length_from_scale (scale : Z) : TdsResult Z :=
  if (0 <=? scale) && (scale <=? 2) then Ok 3
  else if (scale =? 3) || (scale =? 4) then Ok 4
  else if (5 <=? scale) && (scale <=? 7) then Ok 5
  else Err (UsageError "Invalid scale for Time type").

Inductive VectorBaseType := Float32 | Float16.

Definition VectorBaseType_try_from (value : Z) : TdsResult VectorBaseType :=
  match value with
  | 0x00 => Ok Float32
  | 0x01 => Ok Float16
  | _ => Err (ProtocolError "Unsupported Vector base type")
  end.

Section type_info.
Context {R : Type} `{ops : TdsPacketReader R}.

Definition get_variable_length (data_type : VariableLengthTypes) : M R Z :=
  match get_len_byte_count data_type with
  | 1 => read_byte
  | 2 => read_uint16
  | 4 =>
      len_i32 <- read_int32 ;;
      if len_i32 <? 0 then throw (ProtocolError "Invalid length value. Length cannot be negative.")
      else ret len_i32
  | _ => throw (ProtocolError "Invalid TDS length byte count")
  end.

(** The branch of [read_type_info] for variable-length types. *)
Definition read_var_type_info (data_type : TdsDataType) (vdt : VariableLengthTypes) : M R TypeInfo :=
  let type_info length variant :=
    {| tds_type := data_type; ti_length := length; type_info_variant := variant |} in
  match vdt with
  | VL_TimeN =>
      scale <- read_byte ;;
      length <- lift (get_time_length_from_scale scale) ;;
      ret (type_info length (VarLenScale vdt scale))
  | VL_DateTime2N =>
      scale <- read_byte ;;
      time_length <- lift (get_time_length_from_scale scale) ;;
      ret (type_info (time_length + 3) (VarLenScale vdt scale))
  | VL_DateTimeOffsetN =>
      scale <- read_byte ;;
      time_length <- lift (get_time_length_from_scale scale) ;;
      ret (type_info (time_length + 3 + 2) (VarLenScale vdt scale))
  | VL_Vector =>
      length <- read_uint16 ;;
      base_type_byte <- read_byte ;;
      _ <- lift (VectorBaseType_try_from base_type_byte) ;;
      ret (type_info length (VarLenScale vdt base_type_byte))
  | VL_MoneyN | VL_DateTimeN | VL_IntN | VL_FltN | VL_Guid | VL_BitN =>
      length <- read_byte ;; ret (type_info length (VarLen vdt length))
  | VL_DateN => ret (type_info 3 (VarLen vdt 3))
  | VL_DecimalN | VL_NumericN | VL_Decimal | VL_Numeric =>
      length <- match get_len_byte_count vdt with
                | 1 => read_byte
                | 2 => read_uint16
                | 4 => l <- read_int32 ;; ret (as_u64 l)
                | _ => throw (ProtocolError "Invalid TDS length byte count")
                end ;;
      precision <- read_byte ;;
      scale <- read_byte ;;
      ret (type_info length (VarLenPrecisionScale vdt length precision scale))
  | VL_BigChar | VL_BigVarChar | VL_Text | VL_NText | VL_NChar | VL_NVarChar =>
      length <- get_variable_length vdt ;;
      collation_bytes <- read_bytes 5 ;;
      let collation := match SqlCollation_try_from collation_bytes with Ok c => Some c | _ => None end in
      ret (type_info length (VarLenString vdt length collation))
  | VL_Image | VL_BigVarBinary | VL_BigBinary | VL_SsVariant =>
      length <- get_variable_length vdt ;; ret (type_info length (VarLen vdt length))
  | VL_Char | VL_VarChar | VL_Binary | VL_VarBinary =>
      throw (ProtocolError "Unsupported TDS type for TypeInfo::read()")
  end.

(** A length of 0xFFFF makes a character or binary type partially length-prefixed. *)
Definition convert_to_plp (data_type : TdsDataType) (type_info : TypeInfo) : TdsResult TypeInfo :=
  match data_type with
  | DT_BigVarChar | DT_BigVarBinary | DT_NVarChar =>
      if ti_length type_info =? 0xFFFF then
        let? plp_type := match PartialLengthType_try_from data_type with
                         | Ok p => Ok p
                         | _ => Err (ProtocolError "unknown length but has no partial-length form")
                         end in
        let? collation := match type_info_variant type_info with
                          | VarLenString _ _ collation => Ok collation
                          | VarLen _ _ => Ok None
                          | _ => Err (ProtocolError "unknown length with unsupported type info")
                          end in
        Ok {| tds_type := data_type; ti_length := ti_length type_info;
              type_info_variant := PartialLen plp_type (Some (ti_length type_info)) collation None None |}
      else Ok type_info
  | _ => Ok type_info
  end.

(** The branch for types that are always partially length-prefixed. *)
Definition read_plp_type_info (data_type : TdsDataType) (pt : PartialLengthType) : M R TypeInfo :=
  match pt with
  | PL_Udt =>
      len <- read_uint16 ;;
      db_name <- read_varchar_u8_length ;;
      schema_name <- read_varchar_u8_length ;;
      type_name <- read_varchar_u8_length ;;
      name <- read_varchar_u16_length ;;
      match name with
      | Some name =>
          ret {| tds_type := data_type; ti_length := len;
                 type_info_variant := PartialLen pt (Some len) None None
                   (Some (InColMetadata {| max_byte_size := as_u16 len; udt_db_name := db_name;
                      udt_schema_name := schema_name; udt_type_name := type_name;
                      assembly_qualified_name := name |})) |}
      | None => throw (ProtocolError "Missing UDT assembly qualified name")
      end
  | PL_Json =>
      ret {| tds_type := data_type; ti_length := 0xffff;
             type_info_variant := PartialLen pt None None None None |}
  | PL_Xml =>
      present <- read_byte ;;
      let if_present {A} (m : M R (option A)) : M R (option A) :=
        if present =? 1 then m else ret None in
      db_name <- if_present (s <- read_varchar_u8_length ;; ret (Some s)) ;;
      owning <- if_present (s <- read_varchar_u8_length ;; ret (Some s)) ;;
      collection <- if_present read_varchar_u16_length ;;
      ret {| tds_type := data_type; ti_length := 0xffff;
             type_info_variant := PartialLen pt None None
               (Some {| schema_present := present; xml_db_name := db_name; owning_schema := owning;
                        xml_schema_collection := collection |}) None |}
  | PL_BigVarChar | PL_BigVarBinary | PL_NVarChar =>
      panic "We shouldn't have reached here with a PLP type that is not UDT"
  end.

Definition read_type_info (data_type : TdsDataType) : M R TypeInfo :=
  if decide (data_type = DT_Void)
  then throw (ProtocolError "Void data type (0x1F) is not supported in column metadata")
  else
  match FixedLengthTypes_try_from data_type with
  | Ok fdt =>
      ret {| tds_type := data_type; ti_length := FixedLengthTypes_get_len fdt;
             type_info_variant := FixedLen fdt |}
  | _ =>
      match VariableLengthTypes_try_from data_type with
      | Ok vdt =>
          type_info <- read_var_type_info data_type vdt ;;
          lift (convert_to_plp data_type type_info)
      | _ =>
          match PartialLengthType_try_from data_type with
          | Ok pt => read_plp_type_info data_type pt
          | _ => throw (ProtocolError "Unsupported TDS data type in TYPE_INFO stream")
          end
      end
  end.
End type_info.
