(* ===== verification/ColMetadata.v ===== *)
(** * Column metadata (src/mssql-tds/src/query/metadata.rs, src/mssql-tds/src/token/parsers/colmetadata_parser.rs)

    What COLMETADATA says of each column, with the encryption metadata of Always Encrypted, and its
    parser. *)

From stdpp Require Import strings.
From S2P Require Import Prelude Core Unicode PacketReader Tokens TokenParsers DataTypes.

(** ** Data *)

Record MultiPartName := {
  mp_server_name : option str;
  mp_catalog_name : option str;
  mp_schema_name : option str;
  mp_table_name : str;
}.

#[export] Instance MultiPartName_eta : Eta MultiPartName := fun r =>
  Build_MultiPartName (mp_server_name r) (mp_catalog_name r) (mp_schema_name r) (mp_table_name r).

Record EncryptedCekValue := {
  encrypted_key : bytes;
  key_store_name : str;
  key_path : str;
  algorithm_name : str;
}.

Record CekTableEntry := {
  database_id : Z;
  cek_id : Z;
  cek_version : Z;
  cek_md_version : bytes;
  encrypted_cek_values : list EncryptedCekValue;
}.

Record CryptoMetadata := {
  cek_table_ordinal : Z;
  base_data_type : TdsDataType;
  base_type_info : TypeInfo;
  cipher_algorithm_id : Z;
  cipher_algorithm_name : option str;
  encryption_type : Z;
  normalization_rule_version : Z;
}.

Record ColumnMetadata := {
  user_type : Z;
  cm_flags : Z;
  type_info : TypeInfo;
  data_type : TdsDataType;
  column_name : str;
  multi_part_name : option MultiPartName;
  crypto_metadata : option CryptoMetadata;
}.

Record ColMetadataToken := {
  column_count : Z;
  cols : list ColumnMetadata;
  cek_table : list CekTableEntry;
}.

Definition ColMetadataToken_default : ColMetadataToken :=
  {| column_count := 0; cols := []; cek_table := [] |}.

(** ** Accessors *)

Definition has_flag (m : ColumnMetadata) (bit : Z) : bool := negb (Z.land (cm_flags m) bit =? 0).
Definition is_nullable (m : ColumnMetadata) : bool := has_flag m 0x01.
Definition is_case_sensitive (m : ColumnMetadata) : bool := has_flag m 0x02.
Definition is_identity (m : ColumnMetadata) : bool := has_flag m 0x10.
Definition is_computed (m : ColumnMetadata) : bool := has_flag m 0x20.
Definition is_sparse_column_set (m : ColumnMetadata) : bool := has_flag m 0x0400.
Definition is_encrypted (m : ColumnMetadata) : bool := has_flag m 0x0800.
Definition is_hidden (m : ColumnMetadata) : bool := has_flag m 0x2000.
Definition is_key_column (m : ColumnMetadata) : bool := has_flag m 0x4000.

Definition is_plp (m : ColumnMetadata) : bool :=
  match type_info_variant (type_info m) with PartialLen _ _ _ _ _ => true | _ => false end.

Inductive PlpEncoding := Utf16Text | Utf8Text | SingleByteText | BinaryPlp.

Definition plp_encoding (m : ColumnMetadata) : option PlpEncoding :=
  if negb (is_plp m) then None
  else Some
    match data_type m with
    | DT_NVarChar | DT_NChar | DT_Xml => Utf16Text
    | DT_Json => Utf8Text
    | DT_BigVarChar | DT_BigChar | DT_VarChar | DT_Char | DT_Text => SingleByteText
    | _ => BinaryPlp
    end.

Definition get_scale (m : ColumnMetadata) : option Z :=
  match type_info_variant (type_info m) with
  | VarLenScale _ scale => Some scale
  | VarLenPrecisionScale _ _ _ scale => Some scale
  | _ => None
  end.

Definition get_precision (m : ColumnMetadata) : option Z :=
  match type_info_variant (type_info m) with
  | VarLenPrecisionScale _ _ precision _ => Some precision
  | FixedLen FL_Money => Some 19
  | FixedLen FL_Money4 => Some 10
  | VarLen VL_MoneyN length =>
      match length with 8 => Some 19 | 4 => Some 10 | _ => None end
  | _ => None
  end.

Definition get_collation (m : ColumnMetadata) : option SqlCollation :=
  match type_info_variant (type_info m) with
  | VarLenString _ _ collation => collation
  | PartialLen _ _ collation _ _ => collation
  | _ => None
  end.

(** ** The parser *)

Definition FLAG_ENCRYPTED : Z := 0x0800.
Definition CUSTOM_CIPHER_ALGORITHM_ID : Z := 0.

Section parser.
Context {R : Type} `{ops : TdsPacketReader R}.

Definition parse_cek_value : M R EncryptedCekValue :=
  encrypted_len <- read_uint16 ;;
  encrypted_key <- read_bytes (Z.to_nat encrypted_len) ;;
  key_store_len <- read_byte ;;
  key_store_name <- read_unicode (Z.to_nat key_store_len) ;;
  key_path_len <- read_uint16 ;;
  key_path <- read_unicode (Z.to_nat key_path_len) ;;
  algorithm_len <- read_byte ;;
  algorithm_name <- read_unicode (Z.to_nat algorithm_len) ;;
  ret {| encrypted_key := encrypted_key; key_store_name := key_store_name; key_path := key_path;
         algorithm_name := algorithm_name |}.

Definition parse_cek_table_entry : M R CekTableEntry :=
  database_id <- read_int32 ;;
  cek_id <- read_int32 ;;
  cek_version <- read_int32 ;;
  cek_md_version <- read_bytes 8 ;;
  value_count <- read_byte ;;
  values <- repeat_read (Z.to_nat value_count) parse_cek_value ;;
  ret {| database_id := database_id; cek_id := cek_id; cek_version := cek_version;
         cek_md_version := cek_md_version; encrypted_cek_values := values |}.

Definition parse_cek_table : M R (list CekTableEntry) :=
  entry_count <- read_uint16 ;;
  repeat_read (Z.to_nat entry_count) parse_cek_table_entry.

Definition parse_crypto_metadata (has_cek_table : bool) : M R CryptoMetadata :=
  cek_table_ordinal <- (if has_cek_table then read_uint16 else ret 0) ;;
  _user_type <- read_uint32 ;;
  raw_base_type <- read_byte ;;
  base_data_type <- lift (match TdsDataType_try_from raw_base_type with
                          | Ok t => Ok t
                          | _ => Err (Io "InvalidData" "Invalid base data type in crypto metadata")
                          end) ;;
  base_type_info <- read_type_info base_data_type ;;
  cipher_algorithm_id <- read_byte ;;
  cipher_algorithm_name <-
    (if cipher_algorithm_id =? CUSTOM_CIPHER_ALGORITHM_ID then
       name_len <- read_byte ;;
       name <- read_unicode (Z.to_nat name_len) ;;
       ret (Some name)
     else ret None) ;;
  encryption_type <- read_byte ;;
  normalization_rule_version <- read_byte ;;
  ret {| cek_table_ordinal := cek_table_ordinal; base_data_type := base_data_type;
         base_type_info := base_type_info; cipher_algorithm_id := cipher_algorithm_id;
         cipher_algorithm_name := cipher_algorithm_name; encryption_type := encryption_type;
         normalization_rule_version := normalization_rule_version |}.

(** [while part_count > 0]: the parts count down to the table name. *)
Fixpoint read_name_parts (part_count : nat) (mpt : MultiPartName) : M R MultiPartName :=
  match part_count with
  | O => ret mpt
  | S n =>
      part_name <- read_varchar_u16_length ;;
      read_name_parts n
        match part_count with
        | 4%nat => mpt {{ mp_server_name := part_name }}
        | 3%nat => mpt {{ mp_catalog_name := part_name }}
        | 2%nat => mpt {{ mp_schema_name := part_name }}
        | 1%nat => mpt {{ mp_table_name := default [] part_name }}
        | _ => mpt
        end
  end.

Definition MultiPartName_default : MultiPartName :=
  {| mp_server_name := None; mp_catalog_name := None; mp_schema_name := None; mp_table_name := [] |}.

Definition read_multi_part_name (data_type : TdsDataType) : M R (option MultiPartName) :=
  match data_type with
  | DT_Text | DT_NText | DT_Image =>
      part_count <- read_byte ;;
      if part_count =? 0 then ret None
      else mpt <- read_name_parts (Z.to_nat part_count) MultiPartName_default ;; ret (Some mpt)
  | _ => ret None
  end.

(** One turn of the column loop. *)
Definition parse_column (is_column_encryption_supported : bool) : M R ColumnMetadata :=
  user_type <- read_uint32 ;;
  flags <- read_uint16 ;;
  raw_data_type <- read_byte ;;
  data_type <- lift (match TdsDataType_try_from raw_data_type with
                     | Ok t => Ok t
                     | _ => Err (Io "InvalidData" "Invalid data type")
                     end) ;;
  type_info <- read_type_info data_type ;;
  multi_part_name <- read_multi_part_name data_type ;;
  crypto_metadata <-
    (if is_column_encryption_supported && negb (Z.land flags FLAG_ENCRYPTED =? 0) then
       c <- parse_crypto_metadata is_column_encryption_supported ;; ret (Some c)
     else ret None) ;;
  col_name <- read_varchar_u8_length ;;
  ret {| user_type := user_type; cm_flags := flags; type_info := type_info; data_type := data_type;
         column_name := col_name; multi_part_name := multi_part_name;
         crypto_metadata := crypto_metadata |}.

(** [ColMetadataTokenParser::parse]; the argument is what the context says of encryption. *)
Definition parse_col_metadata (is_column_encryption_supported : bool) : M R ColMetadataToken :=
  col_count <- read_uint16 ;;
  if col_count =? 0xFFFF then ret ColMetadataToken_default
  else
  cek_table <- (if is_column_encryption_supported then parse_cek_table else ret []) ;;
  columns <- repeat_read (Z.to_nat col_count) (parse_column is_column_encryption_supported) ;;
  ret {| column_count := col_count; cols := columns; cek_table := cek_table |}.
End parser.
