(* ===== verification/Values.v ===== *)
(** * Column values (src/mssql-tds/src/datatypes/column_values.rs, sql_string.rs, sql_json.rs, sql_vector.rs)

    The values rows are made of.  A float is its bit pattern, and a UUID the bytes of its
    little-endian form. *)

From stdpp Require Import strings.
From S2P Require Import Prelude Core Unicode PacketReader Tokens DataTypes ColMetadata.

(** ** Text *)

Inductive EncodingType := Utf8 | Utf16 | LcidBased (collation : SqlCollation) | DelayedSet.

Record SqlString := {
  sql_bytes : bytes;
  encoding_type : EncodingType;
  narrow_string_byte_limit : option Z;
}.

Definition SqlString_new (bs : bytes) (encoding : EncodingType) : SqlString :=
  {| sql_bytes := bs; encoding_type := encoding; narrow_string_byte_limit := None |}.

(** [get_encoding_type]; without a collation the last [unwrap] panics. *)
Definition get_encoding_type (m : ColumnMetadata) : TdsResult EncodingType :=
  let collation := get_collation m in
  if is_unicode_type (data_type m) then Ok Utf16
  else match collation with
       | Some c => if utf8 c then Ok Utf8 else Ok (LcidBased c)
       | None => Panic "called `Option::unwrap()` on a `None` value"
       end.

Record SqlXml := { xml_bytes : bytes }.

(** [SqlXml::as_string]: an odd byte count panics in [chunk[1]], ill-formed UTF-16 in [unwrap]. *)
Definition SqlXml_as_string (x : SqlXml) : TdsResult str :=
  match le_units (xml_bytes x) with
  | None => Panic "index out of bounds"
  | Some us => match from_utf16 us with Some s => Ok s | None => Panic "called `Result::unwrap()` on an `Err` value" end
  end.

Definition SqlXml_from (s : str) : SqlXml := {| xml_bytes := units_le (utf16 s) |}.

Definition has_bom (x : SqlXml) : bool :=
  match xml_bytes x with
  | b0 :: b1 :: _ => (byte_val b0 =? 0xFF) && (byte_val b1 =? 0xFE)
  | _ => false
  end.

Record SqlJson := { json_bytes : bytes }.

(** ** Numbers and times *)

(** [DecimalParts] (decoder.rs): the magnitude is kept as two 64-bit halves. *)
Record DecimalParts := {
  is_positive : bool;
  dec_scale : Z;
  dec_precision : Z;
  magnitude_lo : Z;
  magnitude_hi : Z;
}.

Definition DecimalParts_new (is_positive : bool) (precision scale magnitude : Z) : DecimalParts :=
  {| is_positive := is_positive; dec_scale := scale; dec_precision := precision;
     magnitude_lo := as_u64 magnitude; magnitude_hi := as_u64 (Z.shiftr magnitude 64) |}.

Definition magnitude (d : DecimalParts) : Z := Z.lor (magnitude_lo d) (Z.shiftl (magnitude_hi d) 64).

Record SqlTime := { time_nanoseconds : Z; time_scale : Z }.
Record SqlDateTime2 := { dt2_days : Z; dt2_time : SqlTime }.
Record SqlDateTimeOffset := { dto_datetime2 : SqlDateTime2; dto_offset : Z }.
Record SqlSmallMoney := { int_val : Z }.
Record SqlMoney := { lsb_part : Z; msb_part : Z }.
Record SqlSmallDateTime := { sdt_days : Z; sdt_time : Z }.
Record SqlDateTime := { dt_days : Z; dt_time : Z }.
Record SqlDate := { days_since_01_01_0001 : Z }.

(** The 64-bit amount the two halves of a [money] stand for, as [TdsResult<f64>::from] builds it
    before it divides. *)
Definition money_val (m : SqlMoney) : Z :=
  let lsb_in_i64 := Z.land (lsb_part m) 0x00000000FFFFFFFF in
  to_signed 64 (Z.lor lsb_in_i64 (Z.shiftl (msb_part m) 32)).

Definition SqlDate_MAX_DAYS : Z := 3652058.

Definition SqlDate_create (days : Z) : TdsResult SqlDate :=
  if days <=? SqlDate_MAX_DAYS then Ok {| days_since_01_01_0001 := days |}
  else Err (UsageError "Date value is out of range for DATE column").

Definition SqlDate_unchecked_create (days : Z) : SqlDate := {| days_since_01_01_0001 := days |}.

(** ** Vectors *)

Inductive VectorData := VecFloat32 (values : list Z) | VecFloat16 (values : list Z).
Record SqlVector := { base_type : VectorBaseType; vec_data : VectorData }.

Definition VECTOR_HEADER_SIZE : Z := 8.
Definition VECTOR_MAX_SIZE : Z := 8000.

Definition element_size_bytes (t : VectorBaseType) : Z := match t with Float32 => 4 | Float16 => 2 end.
Definition max_dimensions (t : VectorBaseType) : Z := match t with Float32 => 1998 | Float16 => 3996 end.

Definition VectorLayoutFormat_try_from (value : Z) : TdsResult unit :=
  match value with 0xA9 => Ok tt | _ => Err (ProtocolError "Invalid Vector layout format") end.
Definition VectorLayoutVersion_try_from (value : Z) : TdsResult unit :=
  match value with 0x01 => Ok tt | _ => Err (ProtocolError "Unsupported Vector layout version") end.

Definition element_count (v : SqlVector) : Z :=
  match vec_data v with VecFloat32 l | VecFloat16 l => Z.of_nat (length l) end.
Definition total_size (v : SqlVector) : Z :=
  VECTOR_HEADER_SIZE + element_count v * element_size_bytes (base_type v).
Definition dimension_count (v : SqlVector) : Z := as_u16 (element_count v).

Definition validate_dimensions (v : SqlVector) : TdsResult unit :=
  if element_count v =? 0 then Err (ProtocolError "Vector must have at least one dimension")
  else if max_dimensions (base_type v) <? element_count v
  then Err (ProtocolError "Vector dimension count exceeds maximum")
  else if VECTOR_MAX_SIZE <? total_size v then Err (ProtocolError "Vector total size exceeds maximum")
  else Ok tt.

(** [chunks_exact]: the whole chunks of [n] bytes. *)
Fixpoint chunks_exact (fuel n : nat) (bs : bytes) : list bytes :=
  match fuel with
  | O => []
  | S fuel => if decide (n <= length bs)%nat then take n bs :: chunks_exact fuel n (drop n bs) else []
  end.

(** The [half] crate's conversion of a half-precision bit pattern. *)
Class HalfCrate := { f16_to_f32 : Z -> Z }.

Definition SqlVector_try_from_raw `{half : HalfCrate} (layout_format layout_version base_type : Z)
    (raw_bytes : bytes) : TdsResult SqlVector :=
  let? _ := VectorLayoutFormat_try_from layout_format in
  let? _ := VectorLayoutVersion_try_from layout_version in
  let? base_type_enum := VectorBaseType_try_from base_type in
  let size := element_size_bytes base_type_enum in
  if negb (Z.of_nat (length raw_bytes) mod size =? 0)
  then Err (ProtocolError "Malformed vector payload")
  else
    let chunks := chunks_exact (length raw_bytes) (Z.to_nat size) raw_bytes in
    let data := match base_type_enum with
                | Float32 => VecFloat32 (of_le <$> chunks)
                | Float16 => VecFloat16 ((fun c => f16_to_f32 (of_le c)) <$> chunks)
                end in
    let vector := {| base_type := base_type_enum; vec_data := data |} in
    let? _ := validate_dimensions vector in
    Ok vector.

(** ** Values *)

Inductive ColumnValues :=
  | TinyInt (v : Z)
  | SmallInt (v : Z)
  | Int (v : Z)
  | BigInt (v : Z)
  | Real (bits : Z)
  | Float (bits : Z)
  | Decimal (v : DecimalParts)
  | Numeric (v : DecimalParts)
  | Bit (v : bool)
  | CString (v : SqlString)
  | DateTime (v : SqlDateTime)
  | Date (v : SqlDate)
  | Time (v : SqlTime)
  | DateTime2 (v : SqlDateTime2)
  | DateTimeOffset (v : SqlDateTimeOffset)
  | SmallDateTime (v : SqlSmallDateTime)
  | SmallMoney (v : SqlSmallMoney)
  | Money (v : SqlMoney)
  | CBytes (v : bytes)
  | Xml (v : SqlXml)
  | Null
  | Uuid (bytes_le : bytes)
  | Json (v : SqlJson)
  | Vector (v : SqlVector).
