(* ===== verification/Plp.v ===== *)
(** * Partially length-prefixed values (src/mssql-tds/src/datatypes/decoder.rs)

    A PLP value is an eight-byte length, or a sentinel for NULL or for an unknown length, and then
    chunks with a length each, up to an empty one.  There are two readers of it: one collects the
    whole value, the other hands it out piece by piece, from the reader or from buffered bytes. *)

From stdpp Require Import strings.
From S2P Require Import Prelude Core Unicode PacketReader.

Definition SQL_PLP_NULL : Z := 0xffffffffffffffff.
Definition SQL_PLP_UNKNOWNLEN : Z := 0xfffffffffffffffe.
Definition SQL_PLP_MAXLEN : Z := 0xfffffffffffffffd.
Definition MAX_PLP_CHUNK_SIZE : Z := 16 * 1024 * 1024.
Definition MAX_PLP_SIZE : Z := 0x7fffffff.

Definition plp_too_long : Error := ProtocolError "PLP length exceeds maximum allowed size".
Definition plp_chunk_too_long : Error := ProtocolError "PLP chunk size exceeds maximum allowed chunk size".
Definition plp_total_too_long : Error := ProtocolError "PLP accumulated size exceeds maximum allowed size".
Definition plp_chunk_overflow : Error := ProtocolError "PLP chunk accumulation would overflow capacity".
Definition plp_past_declared : Error := ProtocolError "PLP chunk exceeds declared length".
Definition plp_ended_early : Error := ProtocolError "PLP stream ended before declared length was reached".

(** [usize::checked_add]. *)
Definition checked_add (a b : Z) : option Z := if a + b <? 2 ^ 64 then Some (a + b) else None.

(** ** The reader that collects the value *)

Inductive PlpFraming := PlpNull | PlpKnownLen (length : Z) | PlpUnknownLen.

Definition check_plp_chunk (chunk_len : Z) : TdsResult unit :=
  if MAX_PLP_CHUNK_SIZE <? chunk_len then Err plp_chunk_too_long else Ok tt.

Section collect.
Context {R : Type} `{ops : TdsPacketReader R}.

Definition read_plp_framing : M R PlpFraming :=
  long_len_i64 <- read_sync_first try_read_int64 read_int64 ;;
  let long_len := as_u64 long_len_i64 in
  if long_len =? SQL_PLP_NULL then ret PlpNull
  else if long_len =? SQL_PLP_UNKNOWNLEN then ret PlpUnknownLen
  else if (long_len_i64 <? 0) || (MAX_PLP_SIZE <? long_len) then throw plp_too_long
  else ret (PlpKnownLen long_len).

(** The loop of [read_plp_chunks_unknown_len]; [fuel] bounds the chunks. *)
Fixpoint unknown_len_loop (fuel : nat) (plp_buffer : bytes) (total_len chunk_len : Z) : M R bytes :=
  match fuel with
  | O => out_of_fuel
  | S fuel =>
      if 0 <? chunk_len then
        lift (check_plp_chunk chunk_len) ;;
        match checked_add total_len chunk_len with
        | None => throw plp_chunk_overflow
        | Some total_len =>
            if MAX_PLP_SIZE <? total_len then throw plp_total_too_long
            else
              read <- read_bytes (Z.to_nat chunk_len) ;;
              if negb (Z.of_nat (length read) =? chunk_len)
              then throw (ProtocolError "PLP chunk read returned fewer bytes than the chunk header declared")
              else
                chunk_len <- read_sync_first try_read_uint32 read_uint32 ;;
                unknown_len_loop fuel (plp_buffer ++ read) total_len chunk_len
        end
      else ret plp_buffer
  end.

Definition read_plp_chunks_unknown_len (fuel : nat) : M R bytes :=
  chunk_len <- read_sync_first try_read_uint32 read_uint32 ;;
  unknown_len_loop fuel [] 0 chunk_len.

(** The loop of [read_plp_chunks_into_slice]: [dest] has [dest_len] bytes, of which [done] are
    filled; the rest is zeroed at the end. *)
Fixpoint into_slice_loop (fuel : nat) (done : bytes) (dest_len declared_len chunk_len : Z) : M R bytes :=
  match fuel with
  | O => out_of_fuel
  | S fuel =>
      let offset := Z.of_nat (length done) in
      if 0 <? chunk_len then
        lift (check_plp_chunk chunk_len) ;;
        match checked_add offset chunk_len with
        | None => throw (ProtocolError "PLP chunk offset would overflow")
        | Some end_offset =>
            if (declared_len <? end_offset) || (dest_len <? end_offset)
            then throw (ProtocolError "PLP chunk exceeds wire-declared length")
            else
              read <- read_bytes (Z.to_nat chunk_len) ;;
              chunk_len <- read_sync_first try_read_uint32 read_uint32 ;;
              into_slice_loop fuel (done ++ read) dest_len declared_len chunk_len
        end
      else ret (done ++ replicate (Z.to_nat (dest_len - offset)) (byte_of 0))
  end.

Definition read_plp_chunks_into_slice (fuel : nat) (dest_len declared_len : Z) : M R bytes :=
  chunk_len <- read_sync_first try_read_uint32 read_uint32 ;;
  into_slice_loop fuel [] dest_len declared_len chunk_len.

Definition read_plp_bytes (fuel : nat) : M R (option bytes) :=
  framing <- read_plp_framing ;;
  match framing with
  | PlpNull => ret None
  | PlpKnownLen length => bs <- read_plp_chunks_into_slice fuel length length ;; ret (Some bs)
  | PlpUnknownLen => bs <- read_plp_chunks_unknown_len fuel ;; ret (Some bs)
  end.
End collect.

(** ** The reader that hands the value out *)

Inductive PlpChunkReadLength := Unknown | Known (n : Z).

Record PlpChunkStreamReader := {
  plp_length : PlpChunkReadLength;
  chunk_remaining : Z;
  reached_end : bool;
  total_read : Z;
}.

#[export] Instance PlpChunkStreamReader_eta : Eta PlpChunkStreamReader := fun r =>
  Build_PlpChunkStreamReader (plp_length r) (chunk_remaining r) (reached_end r) (total_read r).

Definition PlpChunkStreamReader_new (length : PlpChunkReadLength) : PlpChunkStreamReader :=
  {| plp_length := length; chunk_remaining := 0; reached_end := false; total_read := 0 |}.

Definition known_len (s : PlpChunkStreamReader) : option Z :=
  match plp_length s with Known n => Some n | Unknown => None end.

(** What both [begin] and [try_begin_buffered] make of the eight bytes. *)
Definition plp_header (raw_len_i64 : Z) : TdsResult (option PlpChunkStreamReader) :=
  let raw_len := as_u64 raw_len_i64 in
  if raw_len =? SQL_PLP_NULL then Ok None
  else
    let? length :=
      (if (raw_len =? SQL_PLP_UNKNOWNLEN) || (raw_len =? SQL_PLP_MAXLEN) then Ok Unknown
       else if (raw_len_i64 <? 0) || (MAX_PLP_SIZE <? raw_len) then Err plp_too_long
       else Ok (Known raw_len)) in
    Ok (Some (PlpChunkStreamReader_new length)).

Definition try_begin_buffered (bs : bytes) : TdsResult (option (option PlpChunkStreamReader * nat)) :=
  if decide (8 <= length bs)%nat then
    let? s := plp_header (of_le_signed (take 8 bs)) in Ok (Some (s, 8%nat))
  else Ok None.

Definition accept_chunk_length (chunk_len : Z) : M PlpChunkStreamReader bool := fun s =>
  if chunk_len =? 0 then
    let s := s {{ reached_end := true }} in
    match plp_length s with
    | Known known_len =>
        if negb (total_read s =? known_len) then (Err plp_ended_early, s) else (Ok false, s)
    | Unknown => (Ok false, s)
    end
  else if MAX_PLP_CHUNK_SIZE <? chunk_len then (Err plp_chunk_too_long, s)
  else
    match checked_add (total_read s) chunk_len with
    | None => (Err plp_chunk_overflow, s)
    | Some next_total =>
        if MAX_PLP_SIZE <? next_total then (Err plp_total_too_long, s)
        else if match plp_length s with Known n => n <? next_total | Unknown => false end
        then (Err plp_past_declared, s)
        else (Ok true, s {{ chunk_remaining := chunk_len }})
    end.

(** *** From buffered bytes

    The state is the reader and the position; [None] is "not buffered yet". *)

Definition get_at (bs : bytes) (from len : nat) : option bytes :=
  if decide (from + len <= length bs)%nat then Some (take len (drop from bs)) else None.

Definition try_ensure_active_buffered_chunk (bs : bytes) (position : nat) (s : PlpChunkStreamReader)
    : TdsResult (option bool) * (nat * PlpChunkStreamReader) :=
  if reached_end s then (Ok (Some false), (position, s))
  else if 0 <? chunk_remaining s then (Ok (Some true), (position, s))
  else
    match get_at bs position 4 with
    | None => (Ok None, (position, s))
    | Some header =>
        let '(r, s) := accept_chunk_length (of_le header) s in
        (let? b := r in Ok (Some b), ((position + 4)%nat, s))
    end.

(** The loop of [try_read_buffered_inner]: [out_len - length out] bytes are still wanted; what a
    dry run would write is collected too, and dropped by its caller. *)
Fixpoint buffered_loop (fuel : nat) (bs : bytes) (out_len : nat) (position : nat) (out : bytes)
    (s : PlpChunkStreamReader) : TdsResult (option (nat * bytes)) * PlpChunkStreamReader :=
  match fuel with
  | O => (OutOfFuel, s)
  | S fuel =>
      if decide (length out < out_len)%nat then
        let '(r, (position, s)) := try_ensure_active_buffered_chunk bs position s in
        match r with
        | Ok None => (Ok None, s)
        | Ok (Some false) => (Ok (Some (position, out)), s)
        | Ok (Some true) =>
            let to_read := Nat.min (out_len - length out) (Z.to_nat (chunk_remaining s)) in
            match get_at bs position to_read with
            | None => (Ok None, s)
            | Some payload =>
                buffered_loop fuel bs out_len (position + to_read) (out ++ payload)
                  (s {{ chunk_remaining ::= fun n => n - Z.of_nat to_read }}
                     {{ total_read ::= fun n => n + Z.of_nat to_read }})
            end
        | Err e => (Err e, s)
        | Panic p => (Panic p, s)
        | OutOfFuel => (OutOfFuel, s)
        end
      else (Ok (Some (position, out)), s)
  end.

Definition try_read_buffered_inner (bs : bytes) (out_len : nat) (s : PlpChunkStreamReader)
    : TdsResult (option (nat * bytes)) * PlpChunkStreamReader :=
  if decide (out_len = 0%nat) then
    let '(r, (position, s)) := try_ensure_active_buffered_chunk bs 0 s in
    (let? o := r in Ok (match o with Some _ => Some (position, []) | None => None end), s)
  else
    let '(r, s) := buffered_loop (S out_len) bs out_len 0 [] s in
    match r with
    | Ok (Some (position, out)) =>
        if (length out =? out_len)%nat && (chunk_remaining s =? 0) && negb (reached_end s) then
          let '(r, (position, s)) := try_ensure_active_buffered_chunk bs position s in
          (let? o := r in Ok (match o with Some _ => Some (position, out) | None => None end), s)
        else (Ok (Some (position, out)), s)
    | _ => (r, s)
    end.

(** The dry run on a copy, then the real run. *)
Definition try_read_buffered (bs : bytes) (out_len : nat) (s : PlpChunkStreamReader)
    : TdsResult (option (nat * bytes)) * PlpChunkStreamReader :=
  match fst (try_read_buffered_inner bs out_len s) with
  | Ok None => (Ok None, s)
  | Ok (Some _) => try_read_buffered_inner bs out_len s
  | Err e => (Err e, s)
  | Panic p => (Panic p, s)
  | OutOfFuel => (OutOfFuel, s)
  end.

(** A whole value of known length in one chunk. *)
Definition try_read_complete_buffered (bs : bytes) (out_len : nat) (s : PlpChunkStreamReader)
    : TdsResult (option (nat * bytes)) * PlpChunkStreamReader :=
  match plp_length s with
  | Unknown => (Ok None, s)
  | Known known_len =>
      if reached_end s || negb (chunk_remaining s =? 0) || negb (total_read s =? 0) then (Ok None, s)
      else
        let length_ := Z.to_nat known_len in
        if decide (out_len < length_)%nat then (Ok None, s)
        else
          match get_at bs 0 4 with
          | None => (Ok None, s)
          | Some chunk_header =>
              let chunk_len := of_le chunk_header in
              if (known_len =? 0) && (chunk_len =? 0)
              then (Ok (Some (4%nat, [])), s {{ reached_end := true }})
              else if negb (chunk_len =? known_len) then (Ok None, s)
              else
                match get_at bs 4 length_, get_at bs (4 + length_) 4 with
                | Some payload, Some terminator =>
                    if negb (of_le terminator =? 0) then (Ok None, s)
                    else (Ok (Some ((4 + length_ + 4)%nat, payload)),
                          s {{ total_read := known_len }} {{ reached_end := true }})
                | _, _ => (Ok None, s)
                end
          end
  end.

(** *** From the packet reader *)

Section stream.
Context {R : Type} `{ops : TdsPacketReader R}.

Definition plp_reading {A} (m : M R A) : M (R * PlpChunkStreamReader) A := fun '(r, s) =>
  let '(x, r') := m r in (x, (r', s)).
Definition plp_stream {A} (m : M PlpChunkStreamReader A) : M (R * PlpChunkStreamReader) A := fun '(r, s) =>
  let '(x, s') := m s in (x, (r, s')).

Definition plp_begin : M R (option PlpChunkStreamReader) :=
  raw_len_i64 <- read_sync_first try_read_int64 read_int64 ;;
  lift (plp_header raw_len_i64).

Definition ensure_active_chunk : M (R * PlpChunkStreamReader) bool :=
  s <- plp_stream (gets id) ;;
  if reached_end s then ret false
  else if 0 <? chunk_remaining s then ret true
  else
    chunk_len <- plp_reading (read_sync_first try_read_uint32 read_uint32) ;;
    plp_stream (accept_chunk_length chunk_len).

Definition plp_no_progress : Error :=
  ProtocolError "PLP stream read made no progress while bytes were requested".

Fixpoint read_into_loop (fuel out_len : nat) (out : bytes) : M (R * PlpChunkStreamReader) bytes :=
  match fuel with
  | O => out_of_fuel
  | S fuel =>
      if decide (length out < out_len)%nat then
        active <- ensure_active_chunk ;;
        if negb active then ret out
        else
          s <- plp_stream (gets id) ;;
          let to_read := Nat.min (out_len - length out) (Z.to_nat (chunk_remaining s)) in
          bs <- plp_reading (read_bytes to_read) ;;
          if decide (0 < to_read /\ length bs = 0)%nat then throw plp_no_progress
          else
            plp_stream (modify (fun s =>
              s {{ chunk_remaining ::= fun n => n - Z.of_nat (length bs) }}
                {{ total_read ::= fun n => n + Z.of_nat (length bs) }})) ;;
            read_into_loop fuel out_len (out ++ bs)
      else ret out
  end.

Definition read_into (out_len : nat) : M (R * PlpChunkStreamReader) bytes :=
  if decide (out_len = 0%nat) then _ <- ensure_active_chunk ;; ret []
  else
    out <- read_into_loop (S out_len) out_len [] ;;
    s <- plp_stream (gets id) ;;
    if (length out =? out_len)%nat && (chunk_remaining s =? 0) && negb (reached_end s)
    then _ <- ensure_active_chunk ;; ret out
    else ret out.

Fixpoint skip_to_end (fuel : nat) : M (R * PlpChunkStreamReader) unit :=
  match fuel with
  | O => out_of_fuel
  | S fuel =>
      active <- ensure_active_chunk ;;
      if negb active then ret tt
      else
        s <- plp_stream (gets id) ;;
        (if 0 <? chunk_remaining s then
           plp_reading (skip_bytes (Z.to_nat (chunk_remaining s))) ;;
           plp_stream (modify (fun s =>
             s {{ total_read ::= fun n => n + chunk_remaining s }} {{ chunk_remaining := 0 }}))
         else ret tt) ;;
        skip_to_end fuel
  end.
End stream.

#[global] Arguments ensure_active_chunk : simpl never.
#[global] Arguments read_sync_first : simpl never.
