(* ===== verification/PlpLaws.v ===== *)
(** * PLP values: what the readers give back, on well-formed and on any input

    The value comes back whole from the collecting reader, and in pieces of any size from the
    streaming one; the buffered variant of the streaming reader does what the waiting one does;
    and all of them end, with a value or an error, on any bytes. *)

From stdpp Require Import strings.
From S2P Require Import Prelude Core Unicode PacketReader ReaderLaws TokenParsers TokenLaws TokenSafety Plp.

(** ** The wire form of a value *)

Definition plp_chunk (c : bytes) : bytes := le_bytes 4 (Z.of_nat (length c)) ++ c.
Definition plp_chunks (cs : list bytes) : bytes := concat (plp_chunk <$> cs) ++ le_bytes 4 0.
Definition plp_size (cs : list bytes) : Z := Z.of_nat (length (concat cs)).
Definition encode_plp (known : bool) (cs : list bytes) : bytes :=
  le_bytes 8 (if known then plp_size cs else SQL_PLP_UNKNOWNLEN) ++ plp_chunks cs.
Definition encode_plp_null : bytes := le_bytes 8 SQL_PLP_NULL.

Definition chunk_ok (c : bytes) : Prop := 0 < Z.of_nat (length c) <= MAX_PLP_CHUNK_SIZE.
Definition plp_ok (cs : list bytes) : Prop := Forall chunk_ok cs /\ plp_size cs <= MAX_PLP_SIZE.

Lemma plp_chunks_cons c cs : plp_chunks (c :: cs) = le_bytes 4 (Z.of_nat (length c)) ++ c ++ plp_chunks cs.
Proof. unfold plp_chunks. rewrite concat_fmap_cons. unfold plp_chunk. by rewrite <- !app_assoc. Qed.

Lemma checked_add_small a b : a + b < 2 ^ 64 -> checked_add a b = Some (a + b).
Proof. intros. unfold checked_add. by rewrite (proj2 (Z.ltb_lt _ _)). Qed.

Lemma check_plp_chunk_ok z : z <= MAX_PLP_CHUNK_SIZE -> check_plp_chunk z = Ok tt.
Proof. intros. unfold check_plp_chunk. by rewrite (proj2 (Z.ltb_ge _ _)). Qed.

Ltac plp_consts := unfold MAX_PLP_SIZE, MAX_PLP_CHUNK_SIZE, SQL_PLP_NULL, SQL_PLP_UNKNOWNLEN, SQL_PLP_MAXLEN in *.

(** Boolean comparisons the context decides. *)
Ltac z_if :=
  repeat first [ rewrite (proj2 (Z.ltb_lt _ _)) by lia | rewrite (proj2 (Z.ltb_ge _ _)) by lia
               | rewrite (proj2 (Z.eqb_eq _ _)) by lia | rewrite (proj2 (Z.eqb_neq _ _)) by lia ].

Section whole.
Context {R : Type} {delivers : R -> bytes -> Prop} `{laws : PacketReaderLaws R delivers}.

Lemma reads_plp_header z {A} (k : Z -> M R A) bs a :
  in_unsigned 64 z -> reads delivers (k (to_signed 64 z)) bs a ->
  reads delivers (bind (read_sync_first try_read_int64 read_int64) k) (le_bytes 8 z ++ bs) a.
Proof.
  intros Hz Hk. eapply reads_bind; [|done].
  eapply reads_fixed_at; [apply sync_first_fixed; [apply law_try_int64|apply law_int64]|apply length_le_bytes|].
  unfold of_le_signed. rewrite length_le_bytes, of_le_unsigned; done.
Qed.

Lemma reads_lift_ok {A B} (x : TdsResult A) (a : A) (k : A -> M R B) bs b :
  x = Ok a -> reads delivers (k a) bs b -> reads delivers (bind (lift x) k) bs b.
Proof. intros -> H. exact H. Qed.

Lemma reads_unknown_chunks cs : forall fuel acc total,
  Forall chunk_ok cs -> (length cs < fuel)%nat -> 0 <= total -> total + plp_size cs <= MAX_PLP_SIZE ->
  reads delivers (n <- read_sync_first try_read_uint32 read_uint32 ;; unknown_len_loop fuel acc total n)
    (plp_chunks cs) (acc ++ concat cs).
Proof.
  induction cs as [|c cs IH]; intros [|fuel] acc total Hok Hf Ht Hs; cbn in Hf; try lia.
  - unfold plp_chunks. cbn [fmap list_fmap concat]. rewrite app_nil_l, app_nil_r, <- (app_nil_r (le_bytes 4 0)).
    eapply reads_bind; [apply reads_sync_uint32; split; lia|]. cbn. apply reads_ret.
  - apply list.Forall_cons in Hok as [[Hc1 Hc2] Hok]. rewrite plp_chunks_cons. unfold plp_size in *.
    cbn [concat] in *. len_simpl. plp_consts.
    eapply reads_bind; [apply reads_sync_uint32; split; lia|]. cbn [unknown_len_loop]. z_if.
    eapply reads_lift_ok; [apply check_plp_chunk_ok; plp_consts; lia|].
    rewrite checked_add_small by lia. plp_consts. z_if.
    eapply reads_bind; [apply reads_bytes; lia|]. rewrite Z.eqb_refl. cbn [negb].
    rewrite (app_assoc acc). apply IH; [done|lia..].
Qed.

(** A value that ends before its declared length is filled up with zeros. *)
Lemma reads_slice_chunks cs : forall fuel acc len,
  Forall chunk_ok cs -> (length cs < fuel)%nat -> Z.of_nat (length acc) + plp_size cs <= len -> len <= MAX_PLP_SIZE ->
  reads delivers (n <- read_sync_first try_read_uint32 read_uint32 ;; into_slice_loop fuel acc len len n)
    (plp_chunks cs) (acc ++ concat cs ++ replicate (Z.to_nat (len - Z.of_nat (length acc) - plp_size cs)) (byte_of 0)).
Proof.
  induction cs as [|c cs IH]; intros [|fuel] acc len Hok Hf Ht Hs; cbn in Hf; try lia.
  - unfold plp_chunks, plp_size. cbn [fmap list_fmap concat length].
    rewrite app_nil_l, Z.sub_0_r, <- (app_nil_r (le_bytes 4 0)).
    eapply reads_bind; [apply reads_sync_uint32; split; lia|]. apply reads_ret.
  - apply list.Forall_cons in Hok as [[Hc1 Hc2] Hok]. rewrite plp_chunks_cons. unfold plp_size in *.
    cbn [concat] in *. len_simpl. plp_consts.
    eapply reads_bind; [apply reads_sync_uint32; split; lia|]. cbn [into_slice_loop]. z_if.
    eapply reads_lift_ok; [apply check_plp_chunk_ok; plp_consts; lia|].
    rewrite checked_add_small by lia. z_if. cbn [orb].
    eapply reads_bind; [apply reads_bytes; lia|].
    eapply reads_eq; [apply (IH fuel (acc ++ c) len); [done|lia|len_simpl; lia|plp_consts; lia]|done|].
    rewrite <- !app_assoc. do 3 f_equal. len_simpl. f_equal. lia.
Qed.

Definition framing_value (f : PlpFraming) : Z :=
  match f with PlpNull => SQL_PLP_NULL | PlpUnknownLen => SQL_PLP_UNKNOWNLEN | PlpKnownLen n => n end.

Definition framing_ok (f : PlpFraming) : Prop :=
  match f with PlpKnownLen n => 0 <= n <= MAX_PLP_SIZE | _ => True end.

Lemma reads_framing f :
  framing_ok f -> reads delivers read_plp_framing (le_bytes 8 (framing_value f)) f.
Proof.
  intros Hf. rewrite <- (app_nil_r (le_bytes _ _)). destruct f as [|n|]; cbn [framing_value framing_ok] in *;
    apply reads_plp_header; try apply reads_ret; try done.
  - plp_consts. split; lia.
  - plp_consts. rewrite to_signed_id; [|lia|split; cbn; lia]. unfold as_u64.
    rewrite Z.mod_small by lia. plp_consts. z_if. apply reads_ret.
Qed.

Lemma reads_plp_declared fuel n cs :
  plp_ok cs -> plp_size cs <= n <= MAX_PLP_SIZE -> (length cs < fuel)%nat ->
  reads delivers (read_plp_bytes fuel) (le_bytes 8 n ++ plp_chunks cs)
    (Some (concat cs ++ replicate (Z.to_nat (n - plp_size cs)) (byte_of 0))).
Proof.
  intros [Hok Hs] Hn Hf. assert (0 <= plp_size cs) by (unfold plp_size; lia).
  eapply reads_bind; [apply (reads_framing (PlpKnownLen n)); cbn; lia|].
  apply (reads_bind_ret _ Some). eapply reads_eq; [apply (reads_slice_chunks cs fuel [] n); try done; cbn; lia|done|].
  cbn. by rewrite Z.sub_0_r.
Qed.

Lemma reads_plp fuel known cs :
  plp_ok cs -> (length cs < fuel)%nat ->
  reads delivers (read_plp_bytes fuel) (encode_plp known cs) (Some (concat cs)).
Proof.
  intros Hok Hf. unfold encode_plp. destruct known.
  - eapply reads_eq; [apply (reads_plp_declared fuel (plp_size cs) cs); [done|destruct Hok; lia|done]|done|].
    by rewrite Z.sub_diag, app_nil_r.
  - destruct Hok as [Hok Hs]. eapply reads_bind; [apply (reads_framing PlpUnknownLen); done|].
    apply (reads_bind_ret _ Some). apply (reads_unknown_chunks cs fuel []); try done; lia.
Qed.

Lemma reads_plp_null fuel : reads delivers (read_plp_bytes fuel) encode_plp_null None.
Proof.
  unfold encode_plp_null. rewrite <- (app_nil_r (le_bytes _ _)).
  eapply reads_bind; [apply (reads_framing PlpNull); done|]. apply reads_ret.
Qed.
End whole.

(** ** The streaming reader *)

(** [s] still has [payload] to hand out, from the bytes [wire] of the value not read yet. *)
Definition pending (s : PlpChunkStreamReader) (wire payload : bytes) : Prop :=
  if reached_end s then chunk_remaining s = 0 /\ wire = [] /\ payload = []
  else exists cur cs,
    chunk_remaining s = Z.of_nat (length cur) /\ wire = cur ++ plp_chunks cs /\ payload = cur ++ concat cs /\
    Forall chunk_ok cs /\ 0 <= total_read s /\ total_read s + Z.of_nat (length payload) <= MAX_PLP_SIZE /\
    match plp_length s with Known n => total_read s + Z.of_nat (length payload) = n | Unknown => True end.

Definition advanced (s s' : PlpChunkStreamReader) (n : nat) : Prop :=
  plp_length s' = plp_length s /\ total_read s' = total_read s + Z.of_nat n.

Lemma advanced_trans s1 s2 s3 n m : advanced s1 s2 n -> advanced s2 s3 m -> advanced s1 s3 (n + m).
Proof. intros [? ?] [? ?]. split; [congruence|lia]. Qed.

Lemma advanced_same s s' : plp_length s' = plp_length s -> total_read s' = total_read s -> advanced s s' 0.
Proof. intros. split; [done|lia]. Qed.

(** What [read_into] and [try_read_buffered] do to the reader after [n] bytes of the current chunk. *)
Definition take_chunk (n : nat) (s : PlpChunkStreamReader) : PlpChunkStreamReader :=
  s {{ chunk_remaining ::= fun k => k - Z.of_nat n }} {{ total_read ::= fun k => k + Z.of_nat n }}.

Lemma pending_take s wire p n :
  pending s wire p -> Z.of_nat n <= chunk_remaining s ->
  wire = take n p ++ drop n wire /\ pending (take_chunk n s) (drop n wire) (drop n p) /\ (n <= length p)%nat.
Proof.
  unfold pending, take_chunk. destruct s as [len k [] t]; cbn.
  - intros (-> & -> & ->) Hn. assert (n = 0%nat) as -> by lia. done.
  - intros (cur & cs & -> & -> & -> & Hok & H0 & Hm & Hl) Hn.
    rewrite !drop_app_le, take_app_le by lia. split_and!.
    + by rewrite app_assoc, take_drop.
    + exists (drop n cur), cs. len_simpl. split_and!; try done; try lia.
      destruct len; [done|]. lia.
    + len_simpl. lia.
Qed.

Section stream.
Context {R : Type} {delivers : R -> bytes -> Prop} `{laws : PacketReaderLaws R delivers}.

Lemma plp_reading_ok {A} (m : M R A) r s a r' :
  m r = (Ok a, r') -> plp_reading m (r, s) = (Ok a, (r', s)).
Proof. intros E. unfold plp_reading. by rewrite E. Qed.

(** A new chunk: its length from the reader, checked. *)
Lemma ensure_next r s n r' :
  reached_end s = false -> chunk_remaining s = 0 ->
  read_sync_first try_read_uint32 read_uint32 r = (Ok n, r') ->
  ensure_active_chunk (r, s) = let '(x, s') := accept_chunk_length n s in (x, (r', s')).
Proof.
  intros H1 H2 E. unfold ensure_active_chunk. rewrite (bind_ok _ _ _ s (r, s)) by done. rewrite H1, H2. cbn [Z.ltb Z.compare].
  rewrite (bind_ok _ _ _ n (r', s)) by (by apply plp_reading_ok). done.
Qed.

Lemma ensure_pending s wire p r more :
  pending s wire p -> delivers r (wire ++ more) ->
  exists r' s' wire', ensure_active_chunk (r, s) = (Ok (negb (bool_decide (p = []))), (r', s')) /\
    pending s' wire' p /\ delivers r' (wire' ++ more) /\ advanced s s' 0 /\
    (p = [] <-> reached_end s' = true) /\ (p <> [] -> 0 < chunk_remaining s').
Proof.
  intros Hp Hd. pose proof Hp as Hp'. unfold pending in Hp'. destruct s as [len k [] t]; cbn in Hp'.
  { destruct Hp' as (-> & -> & ->). exists r. do 2 eexists. split; [done|].
    split_and!; try done. by apply advanced_same. }
  destruct Hp' as (cur & cs & -> & -> & -> & Hok & H0 & Hm & Hl).
  destruct cur as [|b cur].
  2:{ exists r, (Build_PlpChunkStreamReader len (Z.of_nat (length (b :: cur))) false t). eexists.
      split; [by unfold ensure_active_chunk, plp_stream, bind; cbn|].
      split_and!; try done. by apply advanced_same. }
  destruct cs as [|c cs].
  - change (plp_chunks []) with (le_bytes 4 0) in *. destruct (reads_sync_uint32 0 ltac:(done) r more Hd) as (r' & E & Hd').
    eexists r', (Build_PlpChunkStreamReader len 0 true t), []. split.
    { erewrite ensure_next by done. unfold accept_chunk_length. destruct len; cbn in *; z_if; done. }
    split_and!; try done. by apply advanced_same.
  - apply list.Forall_cons in Hok as [[Hc1 Hc2] Hok]. cbn [app concat] in *. rewrite plp_chunks_cons, <- !app_assoc in Hd.
    len_simpl.
    destruct (reads_sync_uint32 (Z.of_nat (length c)) ltac:(plp_consts; split; lia) r _ Hd) as (r' & E & Hd').
    assert (c ++ concat cs <> []) by (intros [-> _]%app_nil; cbn in *; lia).
    exists r', (Build_PlpChunkStreamReader len (Z.of_nat (length c)) false t), (c ++ plp_chunks cs). split.
    { erewrite ensure_next by done. unfold accept_chunk_length. cbn. plp_consts. z_if. rewrite checked_add_small by lia. z_if.
      rewrite bool_decide_false by done. destruct len; [done|]. z_if. done. }
    split_and!; try done; try by apply advanced_same.
    + exists c, cs. cbn. len_simpl. split_and!; done.
    + by rewrite <- app_assoc.
Qed.
(** One round of the loop, with a chunk active. *)
Lemma read_into_round fuel n out r s s1 r1 bs r2 :
  (length out < n)%nat -> ensure_active_chunk (r, s) = (Ok true, (r1, s1)) ->
  read_bytes (Nat.min (n - length out) (Z.to_nat (chunk_remaining s1))) r1 = (Ok bs, r2) -> (0 < length bs)%nat ->
  read_into_loop (S fuel) n out (r, s) = read_into_loop fuel n (out ++ bs) (r2, take_chunk (length bs) s1).
Proof.
  intros Hn E1 E2 Hb. cbn [read_into_loop]. rewrite decide_True by done.
  rewrite (bind_ok _ _ _ _ _ E1). cbn [negb]. rewrite (bind_ok _ _ _ s1 (r1, s1)) by done.
  rewrite (bind_ok _ _ _ bs (r2, s1)) by (by apply plp_reading_ok). rewrite decide_False by lia. done.
Qed.

Lemma read_into_loop_spec fuel : forall n out s wire p r more,
  pending s wire p -> delivers r (wire ++ more) -> (length out <= n)%nat -> (n - length out < fuel)%nat ->
  exists r' s' wire',
    read_into_loop fuel n out (r, s) = (Ok (out ++ take (n - length out) p), (r', s')) /\
    pending s' wire' (drop (n - length out) p) /\ delivers r' (wire' ++ more) /\
    advanced s s' (length (take (n - length out) p)) /\ ((length p < n - length out)%nat -> reached_end s' = true).
Proof.
  induction fuel as [|fuel IH]; intros n out s wire p r more Hp Hd Ho Hf; [lia|].
  destruct (decide (length out < n)%nat) as [Hn|Hn].
  2:{ replace (n - length out)%nat with 0%nat by lia. rewrite take_0, drop_0, app_nil_r.
      exists r, s, wire. cbn [read_into_loop]. rewrite decide_False by done.
      split_and!; [done..|by apply advanced_same|lia]. }
  destruct (ensure_pending s wire p r more Hp Hd) as (r1 & s1 & wire1 & E1 & Hp1 & Hd1 & Ha & He & Hc).
  destruct (decide (p = [])) as [->|Hne].
  { exists r1, s1, wire1. rewrite take_nil, drop_nil, app_nil_r. cbn [read_into_loop].
    rewrite decide_True, (bind_ok _ _ _ _ _ E1) by done. cbn. split_and!; try done. intros _. by apply He. }
  rewrite bool_decide_false in E1 by done. specialize (Hc Hne).
  remember (Nat.min (n - length out) (Z.to_nat (chunk_remaining s1))) as m eqn:Em.
  destruct (pending_take s1 wire1 p m Hp1 ltac:(lia)) as (Hw & Hp2 & Hm). rewrite Hw, <- app_assoc in Hd1.
  assert (length (take m p) = m) as Hl by (len_simpl; lia).
  destruct (reads_bytes m (take m p) Hl r1 _ Hd1) as (r2 & E2 & Hd2).
  rewrite (read_into_round fuel n out r s s1 r1 (take m p) r2); [|done|done|by rewrite <- Em|lia].
  destruct (IH n (out ++ take m p) (take_chunk (length (take m p)) s1) (drop m wire1) (drop m p) r2 more)
    as (r' & s' & wire' & E & Hp' & Hd' & Ha' & He'); [by rewrite Hl|done|len_simpl; lia..|].
  replace (n - length (out ++ take m p))%nat with (n - length out - m)%nat in * by (len_simpl; lia).
  exists r', s', wire'. rewrite E, <- app_assoc, take_take_drop.
  rewrite drop_drop in Hp'. replace (m + (n - length out - m))%nat with (n - length out)%nat in * by lia.
  split_and!; try done.
  - destruct Ha, Ha' as [Ha1 Ha2]. split; [by rewrite Ha1|]. rewrite Ha2. cbn. len_simpl. lia.
  - intros Hlt. apply He'. len_simpl. lia.
Qed.

(** The contract of [read_into]: it hands out the next bytes of the value, all that were asked
    for unless the value ends, and it knows the end as soon as nothing is left. *)
Lemma read_into_spec n s wire p r more :
  pending s wire p -> delivers r (wire ++ more) ->
  exists r' s' wire',
    read_into n (r, s) = (Ok (take n p), (r', s')) /\ pending s' wire' (drop n p) /\
    delivers r' (wire' ++ more) /\ advanced s s' (length (take n p)) /\
    (drop n p = [] <-> reached_end s' = true).
Proof.
  intros Hp Hd. unfold read_into. destruct (decide (n = 0)%nat) as [->|Hn].
  { destruct (ensure_pending s wire p r more Hp Hd) as (r1 & s1 & wire1 & E1 & Hp1 & Hd1 & Ha & He & _).
    exists r1, s1, wire1. by rewrite (bind_ok _ _ _ _ _ E1), take_0, drop_0. }
  destruct (read_into_loop_spec (S n) n [] s wire p r more) as (r1 & s1 & wire1 & E1 & Hp1 & Hd1 & Ha & He);
    [done|done|cbn; lia|cbn; lia|].
  cbn [length] in *. rewrite Nat.sub_0_r, ?app_nil_l in *. rewrite (bind_ok _ _ _ _ _ E1).
  rewrite (bind_ok _ _ _ s1 (r1, s1)) by done.
  destruct (_ && _ && _) eqn:Hb.
  - destruct (ensure_pending s1 wire1 _ r1 more Hp1 Hd1) as (r2 & s2 & wire2 & E2 & Hp2 & Hd2 & Ha2 & He2 & _).
    exists r2, s2, wire2. rewrite (bind_ok _ _ _ _ _ E2). split_and!; try done.
    replace (length _) with (length (take n p) + 0)%nat by lia. by eapply advanced_trans.
  - exists r1, s1, wire1. split_and!; try done. split; intros H.
    + destruct (reached_end s1) eqn:Er; [done|]. rewrite andb_true_r in Hb.
      destruct (decide (length p < n)%nat) as [Hlt|Hge]; [specialize (He Hlt); congruence|].
      unfold pending in Hp1. rewrite Er, H in Hp1. destruct Hp1 as (cur & cs & Hk & _ & Hnil & _).
      symmetry in Hnil. apply app_nil in Hnil as [-> _]. rewrite Hk in Hb. cbn in Hb.
      rewrite andb_true_r in Hb. apply Nat.eqb_neq in Hb. len_simpl. lia.
    + unfold pending in Hp1. rewrite H in Hp1. by destruct Hp1 as (_ & _ & ?).
Qed.
Lemma skip_round fuel r s r1 s1 r2 :
  ensure_active_chunk (r, s) = (Ok true, (r1, s1)) -> 0 < chunk_remaining s1 ->
  skip_bytes (Z.to_nat (chunk_remaining s1)) r1 = (Ok tt, r2) ->
  skip_to_end (S fuel) (r, s) = skip_to_end fuel (r2, take_chunk (Z.to_nat (chunk_remaining s1)) s1).
Proof.
  intros E1 Hc E2. cbn [skip_to_end]. rewrite (bind_ok _ _ _ _ _ E1). cbn [negb].
  rewrite (bind_ok _ _ _ s1 (r1, s1)) by done. z_if.
  erewrite bind_ok; [reflexivity|].
  rewrite (bind_ok _ _ _ tt (r2, s1)) by (by apply plp_reading_ok).
  unfold plp_stream, modify, take_chunk, upd. destruct s1; cbn in *. repeat f_equal; lia.
Qed.

Lemma skip_to_end_spec fuel : forall s wire p r more,
  pending s wire p -> delivers r (wire ++ more) -> (length p < fuel)%nat ->
  exists r' s', skip_to_end fuel (r, s) = (Ok tt, (r', s')) /\ delivers r' more /\
    reached_end s' = true /\ advanced s s' (length p).
Proof.
  induction fuel as [|fuel IH]; intros s wire p r more Hp Hd Hf; [lia|].
  destruct (ensure_pending s wire p r more Hp Hd) as (r1 & s1 & wire1 & E1 & Hp1 & Hd1 & Ha & He & Hc).
  destruct (decide (p = [])) as [->|Hne].
  { exists r1, s1. pose proof (proj1 He eq_refl) as Hr. unfold pending in Hp1. rewrite Hr in Hp1.
    destruct Hp1 as (_ & -> & _). cbn [skip_to_end]. by rewrite (bind_ok _ _ _ _ _ E1). }
  rewrite bool_decide_false in E1 by done. specialize (Hc Hne).
  remember (Z.to_nat (chunk_remaining s1)) as m eqn:Em.
  destruct (pending_take s1 wire1 p m Hp1 ltac:(lia)) as (Hw & Hp2 & Hm). rewrite Hw, <- app_assoc in Hd1.
  destruct (reads_skip m (take m p) ltac:(len_simpl; lia) r1 _ Hd1) as (r2 & E2 & Hd2).
  destruct (IH (take_chunk m s1) (drop m wire1) (drop m p) r2 more) as (r' & s' & E & Hd' & He' & Ha');
    [done..|len_simpl; lia|].
  exists r', s'. subst m. rewrite (skip_round _ _ _ _ _ _ E1 Hc E2). split_and!; try done.
  - destruct Ha, Ha' as [Ha1 Ha2]. split; [by rewrite Ha1|]. rewrite Ha2. cbn. len_simpl. lia.
Qed.
End stream.

(** Reads of the given sizes, one after the other. *)
Fixpoint read_pieces {R} `{ops : TdsPacketReader R} (ns : list nat) : M (R * PlpChunkStreamReader) (list bytes) :=
  match ns with
  | [] => ret []
  | n :: ns => b <- read_into n ;; bs <- read_pieces ns ;; ret (b :: bs)
  end.

Section pieces.
Context {R : Type} {delivers : R -> bytes -> Prop} `{laws : PacketReaderLaws R delivers}.

Lemma read_pieces_spec ns : forall s wire p r more,
  pending s wire p -> delivers r (wire ++ more) ->
  exists pieces r' s' wire',
    read_pieces ns (r, s) = (Ok pieces, (r', s')) /\ concat pieces = take (sum_list ns) p /\
    pending s' wire' (drop (sum_list ns) p) /\ delivers r' (wire' ++ more).
Proof.
  induction ns as [|n ns IH]; intros s wire p r more Hp Hd.
  { exists [], r, s, wire. by rewrite take_0, drop_0. }
  destruct (read_into_spec n s wire p r more Hp Hd) as (r1 & s1 & wire1 & E1 & Hp1 & Hd1 & _).
  destruct (IH s1 wire1 _ r1 more Hp1 Hd1) as (pieces & r' & s' & wire' & E & Hc & Hp' & Hd').
  exists (take n p :: pieces), r', s', wire'. cbn [read_pieces]. rewrite (bind_ok _ _ _ _ _ E1), (bind_ok _ _ _ _ _ E).
  split_and!; [done|..|done].
  - cbn [concat sum_list]. by rewrite Hc, take_take_drop.
  - cbn [sum_list]. by rewrite drop_drop in Hp'.
Qed.

Lemma reads_begin_known n :
  0 <= n <= MAX_PLP_SIZE ->
  reads delivers plp_begin (le_bytes 8 n) (Some (PlpChunkStreamReader_new (Known n))).
Proof.
  intros Hn. plp_consts. rewrite <- (app_nil_r (le_bytes _ _)). apply reads_plp_header; [split; lia|].
  rewrite to_signed_id; [|lia|split; cbn; lia]. unfold plp_header, as_u64. plp_consts.
  rewrite Z.mod_small by lia. plp_consts. z_if. cbn. apply reads_ret.
Qed.

Lemma begin_spec known cs r more :
  plp_ok cs -> delivers r (encode_plp known cs ++ more) ->
  exists s r', plp_begin r = (Ok (Some s), r') /\ pending s (plp_chunks cs) (concat cs) /\
    delivers r' (plp_chunks cs ++ more).
Proof.
  intros [Hok Hs] Hd. unfold encode_plp in Hd. rewrite <- app_assoc in Hd.
  set (len := if known then Known (plp_size cs) else Unknown).
  assert (reads delivers plp_begin (le_bytes 8 (if known then plp_size cs else SQL_PLP_UNKNOWNLEN))
    (Some (PlpChunkStreamReader_new len))) as Hb.
  { destruct known; [apply reads_begin_known; unfold plp_size in *; lia|].
    rewrite <- (app_nil_r (le_bytes _ _)). apply reads_plp_header; [done|apply reads_ret]. }
  destruct (Hb r _ Hd) as (r' & E & Hd'). exists (PlpChunkStreamReader_new len), r'. split_and!; [done| |done].
  exists [], cs. unfold plp_size in *. cbn. split_and!; try done. by destruct known.
Qed.
End pieces.

(** ** Buffered and waiting reads *)

Lemma get_at_some bs from len x :
  get_at bs from len = Some x ->
  length x = len /\ (from + len <= length bs)%nat /\ drop from bs = x ++ drop (from + len) bs.
Proof.
  unfold get_at. case_decide as H; [|done]. intros [= <-]. split_and!; [len_simpl; lia|done|].
  by rewrite <- drop_drop, take_drop.
Qed.

Section buffered.
Context {R : Type} {delivers : R -> bytes -> Prop} `{laws : PacketReaderLaws R delivers}.

(** The result [x] of a buffered step at [position] and the waiting run [y] of the same step. *)
Definition agree_at {A B} (bs more : bytes) (f : A -> option (nat * B)) (x : TdsResult A * PlpChunkStreamReader)
    (y : TdsResult B * (R * PlpChunkStreamReader)) : Prop :=
  match fst x with
  | Ok a =>
      match f a with
      | Some (position, b) => exists rd, y = (Ok b, (rd, snd x)) /\
          delivers rd (drop position bs ++ more) /\ (position <= length bs)%nat
      | None => True
      end
  | Err e => exists rd, y = (Err e, (rd, snd x))
  | Panic _ | OutOfFuel => False
  end.

Lemma accept_keeps n s x s' :
  0 <= n -> 0 <= chunk_remaining s -> accept_chunk_length n s = (x, s') ->
  0 <= chunk_remaining s' /\ completes x /\ (x = Ok true -> 0 < chunk_remaining s').
Proof.
  intros Hn Hs. unfold accept_chunk_length.
  destruct (Z.eqb_spec n 0) as [->|Hne]; repeat case_match; intros [= <- <-]; cbn; split_and!; try done; lia.
Qed.

Lemma ensure_agrees bs more position s rd :
  0 <= chunk_remaining s -> (position <= length bs)%nat -> delivers rd (drop position bs ++ more) ->
  let '(x, (position', s')) := try_ensure_active_buffered_chunk bs position s in
  agree_at bs more (option_map (pair position')) (x, s') (ensure_active_chunk (rd, s)) /\
  0 <= chunk_remaining s' /\ (x = Ok (Some true) -> 0 < chunk_remaining s').
Proof.
  intros Hc Hp Hd. unfold try_ensure_active_buffered_chunk.
  destruct (reached_end s) eqn:Er.
  { split_and!; [|done..]. exists rd. unfold ensure_active_chunk. rewrite (bind_ok _ _ _ s (rd, s)), Er by done. done. }
  destruct (Z.ltb_spec 0 (chunk_remaining s)).
  { split_and!; [|done..]. exists rd. unfold ensure_active_chunk. rewrite (bind_ok _ _ _ s (rd, s)), Er by done.
    z_if. done. }
  destruct (get_at bs position 4) as [hd|] eqn:Eg; [|done].
  apply get_at_some in Eg as (Hl & Hle & Hdr). rewrite Hdr, <- app_assoc in Hd.
  assert (reads delivers (read_sync_first try_read_uint32 read_uint32) hd (of_le hd)) as Hr.
  { eapply reads_fixed_at; [apply sync_first_fixed; [apply law_try_uint32|apply law_uint32]|done..]. }
  destruct (Hr rd _ Hd) as (rd' & E & Hd').
  rewrite (ensure_next _ _ _ _ Er ltac:(lia) E). destruct (accept_chunk_length _ s) as [x s'] eqn:Ea.
  destruct (accept_keeps _ _ _ _ (proj1 (of_le_range hd)) Hc Ea) as (Hc' & Hx & Ht).
  split_and!; [|done|destruct x; naive_solver]. destruct x; cbn in *; try done; eauto.
Qed.
Lemma buffered_loop_agrees bs more n fuel : forall position out s rd,
  0 <= chunk_remaining s -> (position <= length bs)%nat -> (length out <= n)%nat -> (n - length out < fuel)%nat ->
  delivers rd (drop position bs ++ more) ->
  agree_at bs more id (buffered_loop fuel bs n position out s) (read_into_loop fuel n out (rd, s)) /\
  0 <= chunk_remaining (snd (buffered_loop fuel bs n position out s)).
Proof.
  induction fuel as [|fuel IH]; intros position out s rd Hc Hp Ho Hf Hd; [lia|].
  destruct (decide (length out < n)%nat) as [Hn|Hn].
  2:{ cbn [buffered_loop read_into_loop]. rewrite !decide_False by done. split; [|done]. by exists rd. }
  pose proof (ensure_agrees bs more position s rd Hc Hp Hd) as He. cbn [buffered_loop]. rewrite decide_True by done.
  destruct (try_ensure_active_buffered_chunk bs position s) as [x [position1 s1]]. destruct He as (Ha & Hc1 & Ht).
  destruct x as [[[]|]|e|w|]; cbn in Ha; try done.
  - destruct Ha as (rd1 & E1 & Hd1 & Hp1). specialize (Ht eq_refl).
    remember (Nat.min (n - length out) (Z.to_nat (chunk_remaining s1))) as m eqn:Em.
    destruct (get_at bs position1 m) as [bs1|] eqn:Eg; [|done].
    apply get_at_some in Eg as (Hl & Hle & Hdr). rewrite Hdr, <- app_assoc in Hd1.
    destruct (reads_bytes m bs1 Hl rd1 _ Hd1) as (rd2 & E2 & Hd2).
    rewrite (read_into_round fuel n out rd s s1 rd1 bs1 rd2); [|done|done|by rewrite <- Em|lia].
    rewrite <- Hl. apply IH; rewrite ?Hl; try done; len_simpl; cbn; lia.
  - destruct Ha as (rd1 & E1 & Hd1 & Hp1). split; [|done]. exists rd1. cbn [read_into_loop].
    by rewrite decide_True, (bind_ok _ _ _ _ _ E1) by done.
  - destruct Ha as (rd1 & E1). split; [|done]. exists rd1. cbn [read_into_loop].
    by rewrite decide_True, (bind_err _ _ _ _ _ E1) by done.
Qed.

Lemma inner_agrees bs more n s rd :
  0 <= chunk_remaining s -> delivers rd (bs ++ more) ->
  agree_at bs more id (try_read_buffered_inner bs n s) (read_into n (rd, s)).
Proof.
  intros Hc Hd. rewrite <- (drop_0 bs) in Hd. unfold try_read_buffered_inner, read_into. case_decide as Hn.
  { pose proof (ensure_agrees bs more 0 s rd Hc ltac:(lia) Hd) as He.
    destruct (try_ensure_active_buffered_chunk bs 0 s) as [x [position1 s1]]. destruct He as (Ha & _).
    destruct x as [[b|]|e|w|]; cbn in Ha |- *; try done.
    - destruct Ha as (rd1 & E1 & Hd1 & Hp1). exists rd1. by rewrite (bind_ok _ _ _ _ _ E1).
    - destruct Ha as (rd1 & E1). exists rd1. by rewrite (bind_err _ _ _ _ _ E1). }
  destruct (buffered_loop_agrees bs more n (S n) 0 [] s rd) as [Ha Hc1]; [done|lia|cbn; lia..|done|].
  destruct (buffered_loop _ bs n 0 [] s) as [x s1]. destruct x as [[[position out]|]|e|w|]; cbn in Ha; try done.
  2:{ destruct Ha as (rd1 & E1). exists rd1. by rewrite (bind_err _ _ _ _ _ E1). }
  destruct Ha as (rd1 & E1 & Hd1 & Hp1). rewrite (bind_ok _ _ _ _ _ E1), (bind_ok _ _ _ s1 (rd1, s1)) by done.
  destruct (_ && _ && _); [|by exists rd1].
  pose proof (ensure_agrees bs more position s1 rd1 Hc1 Hp1 Hd1) as He.
  destruct (try_ensure_active_buffered_chunk bs position s1) as [x [position2 s2]]. destruct He as (Ha2 & _).
  destruct x as [[b|]|e|w|]; cbn in Ha2 |- *; try done.
  - destruct Ha2 as (rd2 & E2 & Hd2 & Hp2). exists rd2. by rewrite (bind_ok _ _ _ _ _ E2).
  - destruct Ha2 as (rd2 & E2). exists rd2. by rewrite (bind_err _ _ _ _ _ E2).
Qed.
End buffered.

(** On any bytes, a buffered PLP read that answers is the waiting read of the same size: same
    bytes handed out, same reader state, same position in the stream; an error is the error the
    waiting read raises; and a read that is not ready leaves the reader as it was. *)
Theorem buffered_plp_read_agrees {R} {delivers : R -> bytes -> Prop} `{laws : PacketReaderLaws R delivers}
    bs more n s rd :
  0 <= chunk_remaining s -> delivers rd (bs ++ more) ->
  match try_read_buffered bs n s with
  | (Ok (Some (consumed, out)), s') =>
      exists rd', read_into n (rd, s) = (Ok out, (rd', s')) /\ delivers rd' (drop consumed bs ++ more)
  | (Ok None, s') => s' = s
  | (Err e, s') => s' = s /\ exists rd' s1, read_into n (rd, s) = (Err e, (rd', s1))
  | _ => False
  end.
Proof.
  intros Hc Hd. pose proof (inner_agrees bs more n s rd Hc Hd) as Ha. unfold try_read_buffered, agree_at in *.
  destruct (try_read_buffered_inner bs n s) as [[[[p o]|]|e|w|] s1]; cbn in *; try done.
  - destruct Ha as (rd1 & E & Hd1 & _). by exists rd1.
  - destruct Ha as (rd1 & E). split; [done|]. by exists rd1, s1.
Qed.

(** What the fast path accepts is a value in one chunk, or in none. *)
Lemma complete_buffered_inv bs n s consumed out s' :
  Z.of_nat (length bs) <= MAX_PLP_CHUNK_SIZE -> (forall k, plp_length s = Known k -> 0 <= k) ->
  try_read_complete_buffered bs n s = (Ok (Some (consumed, out)), s') ->
  exists wire, bs = wire ++ drop consumed bs /\ pending s wire out /\ (length out <= n)%nat /\ advanced s s' (length out) /\
    reached_end s' = true /\ chunk_remaining s' = 0.
Proof.
  intros Hb Hk. unfold try_read_complete_buffered. destruct s as [[|k] c e t]; cbn in *; [done|]. specialize (Hk k eq_refl).
  destruct e, (Z.eqb_spec c 0) as [->|]; cbn; try done. destruct (Z.eqb_spec t 0) as [->|]; cbn; [|done].
  case_decide as Hn; [done|]. destruct (get_at bs 0 4) as [hd|] eqn:Eh; [|done].
  apply get_at_some in Eh as (Hh & _ & Hbs). rewrite drop_0 in Hbs. pose proof (le_bytes_of_le 4 hd Hh) as Hhd.
  destruct ((k =? 0) && (of_le hd =? 0)) eqn:Ez.
  { apply andb_true_iff in Ez as [->%Z.eqb_eq Ez%Z.eqb_eq]. rewrite Ez in Hhd. intros [= <- <- <-].
    exists (le_bytes 4 0). split_and!; [by rewrite Hhd|..]; cbn; try done; try lia.
    exists [], []. cbn. plp_consts. done. }
  destruct (Z.eqb_spec (of_le hd) k) as [Ek|]; cbn [negb]; [|done].
  destruct (get_at bs 4 _) as [pl|] eqn:Ep; [|done]. destruct (get_at bs _ 4) as [tm|] eqn:Et; [|done].
  apply get_at_some in Ep as (Hp & Hple & Hbs1), Et as (Htm & Hle & Hbs2). pose proof (le_bytes_of_le 4 tm Htm) as Hend.
  destruct (Z.eqb_spec (of_le tm) 0) as [E0|]; cbn [negb]; [|done]. intros [= <- <- <-].
  assert (0 < k) by (apply andb_false_iff in Ez as [Ez%Z.eqb_neq|Ez%Z.eqb_neq]; lia).
  assert (hd ++ pl ++ tm = plp_chunks [pl]) as Hw.
  { rewrite plp_chunks_cons, Hp, Z2Nat.id, <- Ek, Hhd by lia. change (plp_chunks []) with (le_bytes 4 0).
    by rewrite <- E0, Hend. }
  exists (hd ++ pl ++ tm). split_and!; try done; try lia.
  - rewrite Hbs at 1. cbn [Nat.add] in *. by rewrite Hbs1, Hbs2, <- !app_assoc.
  - exists [], [pl]. cbn [concat]. rewrite app_nil_r, Hp. plp_consts. split_and!; try done; cbn; try lia.
    constructor; [|done]. split; plp_consts; lia.
  - split; cbn; [done|lia].
Qed.

(** A complete value read in one go is what [read_into] gives for the same destination.  The
    fast path does not check the chunk limit, so it is for fewer buffered bytes than that. *)
Theorem complete_plp_read_agrees {R} {delivers : R -> bytes -> Prop} `{laws : PacketReaderLaws R delivers}
    bs more n s consumed out s' rd :
  Z.of_nat (length bs) <= MAX_PLP_CHUNK_SIZE -> (forall k, plp_length s = Known k -> 0 <= k) ->
  try_read_complete_buffered bs n s = (Ok (Some (consumed, out)), s') -> delivers rd (bs ++ more) ->
  exists rd', read_into n (rd, s) = (Ok out, (rd', s')) /\ delivers rd' (drop consumed bs ++ more).
Proof.
  intros Hb Hk E Hd. destruct (complete_buffered_inv _ _ _ _ _ _ Hb Hk E) as (wire & Hw & Hp & Hn & [Hl Ht] & Hr & Hc).
  rewrite Hw, <- app_assoc in Hd. destruct (read_into_spec n s wire out rd _ Hp Hd) as (rd' & s1 & w1 & E1 & Hp1 & Hd1 & Ha & He).
  rewrite take_ge, drop_ge in * by lia. destruct Ha as [Hl1 Ht1]. pose proof (proj1 He eq_refl) as Hr1.
  unfold pending in Hp1. rewrite Hr1 in Hp1. destruct Hp1 as (Hc1 & -> & _).
  exists rd'. split; [|done]. rewrite E1. do 2 f_equal. destruct s', s1; cbn in *. f_equal; congruence.
Qed.

(** ** On any input *)

Section safety.
Context {R : Type} {inv : R -> Prop} {left : R -> nat} `{rd : SafeReader R inv left}.

Definition small_value (bs : bytes) : Prop := Z.of_nat (length bs) <= MAX_PLP_SIZE.

(** Every chunk uses up a byte at least, of the input and of the two gigabytes: this many rounds
    are enough. *)
Definition enough (fuel : nat) (r : R) (total : Z) : Prop :=
  Z.min (Z.of_nat (left r)) (MAX_PLP_SIZE - total) < Z.of_nat fuel.

Lemma gives_at0 {A B} n (P : A -> Prop) (Q : B -> Prop) (m : M R A) f r :
  inv r -> gives inv left n P m ->
  (forall a r', inv r' -> P a -> (left r' + n <= left r)%nat -> gives_at inv left 0 Q (f a) r') ->
  gives_at inv left 0 Q (bind m f) r.
Proof.
  intros Hr Hm Hf. eapply gives_at_weaken; [eapply gives_at_bind; [by apply Hm|exact Hf]|lia].
Qed.

Lemma check_plp_chunk_gives n : gives inv left 0 (fun _ => True) (lift (check_plp_chunk n)).
Proof. apply gives_lift; [|done]. unfold check_plp_chunk. by destruct (_ <? n). Qed.

Lemma read_chunk_len_gives : gives inv left 0 (in_unsigned 32) (read_sync_first try_read_uint32 read_uint32).
Proof. eauto with safe. Qed.

Lemma unknown_len_gives fuel : forall acc total n r,
  inv r -> 0 <= n -> total = Z.of_nat (length acc) -> total <= MAX_PLP_SIZE -> enough fuel r total ->
  gives_at inv left 0 small_value (unknown_len_loop fuel acc total n) r.
Proof.
  unfold enough. induction fuel as [|fuel IH]; intros acc total n r Hr Hn Ht Hm Hf; [lia|]. cbn [unknown_len_loop].
  destruct (Z.ltb_spec 0 n); [|by apply gives_ret; [unfold small_value; lia|]].
  eapply gives_at0; [done|apply check_plp_chunk_gives|]. intros _ r1 Hr1 _ Hl1.
  unfold checked_add. destruct (_ <? _); [|by apply gives_throw].
  destruct (Z.ltb_spec MAX_PLP_SIZE (total + n)); [by apply gives_throw|].
  eapply gives_at0; [done|apply safe_bytes|]. intros bs r2 Hr2 Hb Hl2. cbv beta in Hb.
  rewrite Hb, Z2Nat.id, Z.eqb_refl by lia. cbn [negb].
  eapply gives_at0; [done|apply read_chunk_len_gives|]. intros m r3 Hr3 Hm3 Hl3.
  apply IH; [done|apply Hm3|len_simpl; lia|lia|lia].
Qed.

Lemma into_slice_gives fuel : forall acc len n r,
  inv r -> 0 <= n -> Z.of_nat (length acc) <= len <= MAX_PLP_SIZE -> enough fuel r (Z.of_nat (length acc)) ->
  gives_at inv left 0 (fun bs => Z.of_nat (length bs) = len) (into_slice_loop fuel acc len len n) r.
Proof.
  unfold enough. induction fuel as [|fuel IH]; intros acc len n r Hr Hn Ht Hf; [lia|]. cbn [into_slice_loop].
  destruct (Z.ltb_spec 0 n); [|apply gives_ret; [len_simpl; lia|done]].
  eapply gives_at0; [done|apply check_plp_chunk_gives|]. intros _ r1 Hr1 _ Hl1.
  unfold checked_add. destruct (_ <? _); [|by apply gives_throw].
  destruct (Z.ltb_spec len (Z.of_nat (length acc) + n)); cbn [orb]; [by apply gives_throw|].
  eapply gives_at0; [done|apply safe_bytes|]. intros bs r2 Hr2 Hb Hl2. cbv beta in Hb.
  eapply gives_at0; [done|apply read_chunk_len_gives|]. intros m r3 Hr3 Hm3 Hl3.
  apply IH; [done|apply Hm3|len_simpl; lia|len_simpl; lia].
Qed.

Lemma read_plp_framing_gives : gives inv left 0 framing_ok read_plp_framing.
Proof.
  unfold read_plp_framing. eapply (gives_bind 0 0); [eauto with safe|]. intros n Hn. cbv beta zeta in *.
  destruct (_ =? SQL_PLP_NULL); [by apply gives_ret|]. destruct (_ =? SQL_PLP_UNKNOWNLEN); [by apply gives_ret|].
  destruct (_ || _) eqn:E; [apply gives_throw|]. apply orb_false_iff in E as [E1%Z.ltb_ge E2%Z.ltb_ge].
  apply gives_ret. cbn. split; [|done]. unfold as_u64. by apply Z.mod_pos_bound.
Qed.

Lemma read_plp_bytes_gives fuel r :
  inv r -> enough fuel r 0 -> gives_at inv left 0 (from_option small_value True) (read_plp_bytes fuel) r.
Proof.
  intros Hr Hf. unfold enough, read_plp_bytes in *. eapply gives_at0; [done|apply read_plp_framing_gives|].
  intros f r1 Hr1 Hk Hl1. destruct f as [|len|]; cbn in Hk; [by apply gives_ret|..].
  - apply (gives_at_bind 0 0 (fun bs => Z.of_nat (length bs) = len)).
    + eapply gives_at0; [done|apply read_chunk_len_gives|]. intros n r2 Hr2 Hn2 Hl2.
      apply into_slice_gives; [done|apply Hn2|cbn; lia|unfold enough; cbn; lia].
    + intros bs r3 Hr3 Hb _. apply gives_ret; [|done]. cbn. unfold small_value. lia.
  - apply (gives_at_bind 0 0 small_value).
    + eapply gives_at0; [done|apply read_chunk_len_gives|]. intros n r2 Hr2 Hn2 Hl2.
      apply unknown_len_gives; [done|apply Hn2|done|plp_consts; lia|unfold enough; lia].
    + intros bs r3 Hr3 Hb _. by apply gives_ret.
Qed.
(** The streaming reader's own invariant: what it has read and what the chunk still holds stay
    within the limits it checks. *)
Definition stream_ok (s : PlpChunkStreamReader) : Prop :=
  0 <= chunk_remaining s /\ 0 <= total_read s /\ total_read s + chunk_remaining s <= MAX_PLP_SIZE /\
  match plp_length s with Known n => total_read s + chunk_remaining s <= n | Unknown => True end.
Definition streaming (st : R * PlpChunkStreamReader) : Prop := inv (fst st) /\ stream_ok (snd st).
Definition stream_left (st : R * PlpChunkStreamReader) : nat := left (fst st).

Lemma gives_plp_reading {A} n (P : A -> Prop) m :
  gives inv left n P m -> gives streaming stream_left n P (plp_reading m).
Proof.
  intros Hm [r s] [Hr Hs]. destruct (Hm r Hr) as (Hc & Hi & Ha). unfold gives_at, plp_reading. by destruct (m r).
Qed.

Lemma accept_ok n s x s' :
  0 <= n -> stream_ok s -> chunk_remaining s = 0 -> accept_chunk_length n s = (x, s') ->
  completes x /\ stream_ok s' /\ total_read s' = total_read s /\ (x = Ok true -> 0 < chunk_remaining s').
Proof.
  intros Hn (? & ? & ? & ?) Hz. unfold accept_chunk_length, stream_ok, checked_add.
  destruct (Z.eqb_spec n 0) as [->|Hne].
  { cbn. destruct (plp_length s) eqn:El; [|destruct (total_read s =? n)]; intros [= <- <-]; cbn; rewrite El; split_and!; try done; lia. }
  destruct (Z.ltb_spec MAX_PLP_CHUNK_SIZE n); [by intros [= <- <-]|].
  destruct (_ <? 2 ^ 64); [|by intros [= <- <-]].
  destruct (Z.ltb_spec MAX_PLP_SIZE (total_read s + n)); [by intros [= <- <-]|].
  destruct (plp_length s) eqn:El; [|destruct (Z.ltb_spec n0 (total_read s + n))]; intros [= <- <-]; cbn; rewrite El;
    split_and!; try done; lia.
Qed.

(** [ensure_active_chunk] finds a chunk or the end; what was read before stays. *)
Definition ensured (s : PlpChunkStreamReader) (x : TdsResult bool * (R * PlpChunkStreamReader)) : Prop :=
  completes (fst x) /\ streaming (snd x) /\
  forall b, fst x = Ok b -> total_read (snd (snd x)) = total_read s /\ (b = true -> 0 < chunk_remaining (snd (snd x))).

Lemma ensure_gives r s :
  streaming (r, s) ->
  ensured s (ensure_active_chunk (r, s)) /\
  forall b, fst (ensure_active_chunk (r, s)) = Ok b -> (left (fst (snd (ensure_active_chunk (r, s)))) <= left r)%nat.
Proof.
  intros [Hr Hs]. cbn in Hr, Hs. destruct (read_chunk_len_gives r Hr) as (Hc & Hi & Ha).
  unfold ensure_active_chunk. rewrite (bind_ok _ _ _ s (r, s)) by done. destruct (reached_end s).
  { split; [|done]. split_and!; [done..|]. by intros ? [= <-]. }
  destruct (Z.ltb_spec 0 (chunk_remaining s)).
  { split; [|done]. split_and!; [done..|]. by intros ? [= <-]. }
  assert (chunk_remaining s = 0) as Hz by (destruct Hs; lia).
  unfold plp_reading, bind. destruct (read_sync_first _ _ r) as [[n|e|w|] r']; cbn in *; try done.
  destruct (Ha n eq_refl) as [Hl [Hn _]]. unfold plp_stream. destruct (accept_chunk_length n s) as [x s'] eqn:E.
  destruct (accept_ok _ _ _ _ Hn Hs Hz E) as (Hx & Hs' & Ht & Hp). split; [|intros; cbn; lia].
  split_and!; [done..|]. intros b Hb. cbn in *. split; [done|]. intros ->. by apply Hp.
Qed.

Lemma take_chunk_ok n s :
  stream_ok s -> Z.of_nat n <= chunk_remaining s -> stream_ok (take_chunk n s).
Proof.
  intros (? & ? & ? & ?) Hn. unfold stream_ok. cbn. destruct (plp_length s) eqn:E; split_and!; try done; lia.
Qed.

Lemma read_into_loop_gives fuel : forall n out r s,
  streaming (r, s) -> (length out <= n)%nat -> (n - length out < fuel)%nat ->
  gives_at streaming stream_left 0 (fun bs => length bs <= n)%nat (read_into_loop fuel n out) (r, s).
Proof.
  induction fuel as [|fuel IH]; intros n out r s Hst Ho Hf; [lia|]. cbn [read_into_loop].
  case_decide as Hn; [|by apply gives_ret].
  destruct (ensure_gives r s Hst) as [(Hc & Hs & Ht) Hl].
  unfold gives_at, bind. destruct (ensure_active_chunk (r, s)) as [[b|e|w|] [r1 s1]]; cbn in *; try done.
  destruct (Ht b eq_refl) as [Ht1 Hp1]. specialize (Hl b eq_refl). destruct b; cbn [negb].
  2:{ split_and!; [done..|]. intros ? [= <-]. unfold stream_left. cbn. lia. }
  specialize (Hp1 eq_refl). destruct Hs as [Hr1 Hs1]. cbn in *.
  remember (Nat.min (n - length out) (Z.to_nat (chunk_remaining s1))) as m eqn:Em.
  destruct (safe_bytes m r1 Hr1) as (Hc2 & Hi2 & Hb2). unfold plp_reading.
  destruct (read_bytes m r1) as [[bs|e|w|] r2]; cbn in *; try done. destruct (Hb2 bs eq_refl) as [Hl2 Hb].
  rewrite decide_False by lia. fold (take_chunk (length bs) s1).
  destruct (IH n (out ++ bs) r2 (take_chunk (length bs) s1)) as (Hc3 & Hi3 & Ha3).
  { split; [done|]. cbn. apply take_chunk_ok; [done|]. lia. }
  { len_simpl. lia. }
  { len_simpl. lia. }
  split_and!; [done..|]. intros a Ha. destruct (Ha3 a Ha) as [Hl3 ?].
  split; [|done]. etrans; [exact Hl3|]. unfold stream_left. cbn. lia.
Qed.

Lemma read_into_gives n : gives streaming stream_left 0 (fun bs => length bs <= n)%nat (read_into n).
Proof.
  intros [r s] Hst.
  assert (gives streaming stream_left 0 (fun _ => True) (ensure_active_chunk (R := R))) as He.
  { intros [r1 s1] Hst1. destruct (ensure_gives r1 s1 Hst1) as [(? & ? & ?) Hl]. split_and!; [done..|].
    intros b Hb. specialize (Hl b Hb). unfold stream_left. cbn. split; [lia|done]. }
  unfold read_into. case_decide as Hn.
  { eapply (gives_at_bind 0 0); [by apply He|]. intros. apply gives_ret; [cbn; lia|done]. }
  eapply (gives_at_bind 0 0); [apply read_into_loop_gives; [done|cbn; lia..]|]. intros out [r1 s1] Hst1 Ho _.
  apply (gives_at_bind 0 0 (fun _ => True)); [split_and!; try done; intros; cbn; split; [lia|done]|].
  intros s2 [r2 s3] Hst2 _ _.
  destruct (_ && _); [|by apply gives_ret].
  eapply (gives_at_bind 0 0); [by apply He|]. intros. by apply gives_ret.
Qed.

Lemma skip_to_end_gives fuel : forall r s,
  streaming (r, s) -> enough fuel r (total_read s) ->
  gives_at streaming stream_left 0 (fun _ => True) (skip_to_end fuel) (r, s).
Proof.
  unfold enough. induction fuel as [|fuel IH]; intros r s Hst Hf; [destruct Hst as [_ (? & ? & ? & _)]; cbn in *; lia|].
  cbn [skip_to_end]. destruct (ensure_gives r s Hst) as [(Hc & Hs & Ht) Hl].
  unfold gives_at, bind. destruct (ensure_active_chunk (r, s)) as [[b|e|w|] [r1 s1]]; cbn in *; try done.
  destruct (Ht b eq_refl) as [Ht1 Hp1]. specialize (Hl b eq_refl). destruct b; cbn [negb].
  2:{ split_and!; [done..|]. intros ? [= <-]. unfold stream_left. cbn. lia. }
  specialize (Hp1 eq_refl). destruct Hs as [Hr1 Hs1]. cbn in *. z_if.
  destruct (safe_skip (Z.to_nat (chunk_remaining s1)) r1 Hr1) as (Hc2 & Hi2 & Hb2). unfold plp_reading.
  destruct (skip_bytes _ r1) as [[[]|e|w|] r2]; cbn in *; try done. destruct (Hb2 tt eq_refl) as [Hl2 _].
  set (s2 := s1 {{ total_read ::= _ }} {{ chunk_remaining := 0 }}).
  destruct (IH r2 s2) as (Hc3 & Hi3 & Ha3).
  { split; [done|]. destruct Hs1 as (? & ? & ? & Hk). unfold stream_ok. cbn. destruct (plp_length s1); split_and!; try done; lia. }
  { cbn. lia. }
  split_and!; [done..|]. intros a Ha. destruct (Ha3 a Ha) as [Hl3 ?].
  split; [|done]. etrans; [exact Hl3|]. unfold stream_left. cbn. lia.
Qed.
End safety.

(** ** Properties *)

(** C31: A PLP value comes back from both readers: however it is cut into chunks and whether or not
    its length is declared, the collecting reader returns it whole and the streaming reader hands
    out its bytes in pieces of whatever sizes are asked for; skipping what is left then ends
    exactly behind the value. *)
Theorem plp_value_reads_back {R} {delivers : R -> bytes -> Prop} `{laws : PacketReaderLaws R delivers}
    fuel known cs ns r more :
  plp_ok cs -> (length cs < fuel)%nat -> (length (concat cs) < fuel)%nat ->
  delivers r (encode_plp known cs ++ more) ->
  (exists r', read_plp_bytes fuel r = (Ok (Some (concat cs)), r') /\ delivers r' more) /\
  (exists s r1 pieces st r2 s2,
     plp_begin r = (Ok (Some s), r1) /\ read_pieces ns (r1, s) = (Ok pieces, st) /\
     concat pieces = take (sum_list ns) (concat cs) /\
     skip_to_end fuel st = (Ok tt, (r2, s2)) /\ delivers r2 more).
Proof.
  intros Hok Hf Hl Hd. split; [by apply (reads_plp fuel known cs)|].
  destruct (begin_spec known cs r more Hok Hd) as (s & r1 & E1 & Hp1 & Hd1).
  destruct (read_pieces_spec ns s _ _ r1 more Hp1 Hd1) as (ps & r2 & s2 & w2 & E2 & Hc & Hp2 & Hd2).
  destruct (skip_to_end_spec fuel s2 w2 _ r2 more Hp2 Hd2) as (r3 & s3 & E3 & Hd3 & _); [len_simpl; lia|].
  by exists s, r1, ps, (r2, s2), r3, s3.
Qed.

Definition sample_chunks : list bytes := [byte_of <$> [1; 2; 3]; byte_of <$> [4]; byte_of <$> [5; 6]].

Lemma sample_chunks_ok : plp_ok sample_chunks.
Proof. split; [repeat constructor; vm_compute; done|vm_compute; done]. Qed.

Lemma plp_value_reads_back_witness :
  (exists r', read_plp_bytes (R := ByteReader) 10 (encode_plp false sample_chunks ++ [byte_of 9]) =
     (Ok (Some (byte_of <$> [1; 2; 3; 4; 5; 6])), r') /\ list_delivers r' [byte_of 9]) /\
  exists s r1 pieces st r2 s2,
     plp_begin (R := ByteReader) (encode_plp false sample_chunks ++ [byte_of 9]) = (Ok (Some s), r1) /\
     read_pieces [2; 3]%nat (r1, s) = (Ok pieces, st) /\ concat pieces = byte_of <$> [1; 2; 3; 4; 5] /\
     skip_to_end 10 st = (Ok tt, (r2, s2)) /\ list_delivers r2 [byte_of 9].
Proof.
  apply (plp_value_reads_back (delivers := list_delivers) 10 false sample_chunks [2; 3]%nat);
    [apply sample_chunks_ok|cbn; lia|cbn; lia|done].
Defined.

Lemma buffered_plp_read_agrees_witness :
  let s := PlpChunkStreamReader_new Unknown in
  let bs := plp_chunks sample_chunks in
  fst (try_read_buffered bs 4 s) = Ok (Some (16%nat, byte_of <$> [1; 2; 3; 4])) /\
  exists rd' s', read_into (R := ByteReader) 4 (bs ++ [byte_of 9], s) = (Ok (byte_of <$> [1; 2; 3; 4]), (rd', s')).
Proof.
  split; [vm_compute; reflexivity|].
  pose proof (buffered_plp_read_agrees (delivers := list_delivers) (plp_chunks sample_chunks) [byte_of 9] 4
    (PlpChunkStreamReader_new Unknown) _ ltac:(done) eq_refl) as H.
  destruct (try_read_buffered _ _ _) as [x s'] eqn:E.
  assert (x = Ok (Some (16%nat, byte_of <$> [1; 2; 3; 4]))) as -> by (apply (f_equal fst) in E; vm_compute in E |- *; congruence).
  destruct H as (rd' & H & _). by exists rd', s'.
Defined.

Lemma complete_plp_read_agrees_witness :
  exists rd', read_into (R := ByteReader) 8 (plp_chunks [byte_of <$> [1; 2; 3]] ++ [byte_of 9], PlpChunkStreamReader_new (Known 3)) =
    (Ok (byte_of <$> [1; 2; 3]),
     (rd', {| plp_length := Known 3; chunk_remaining := 0; reached_end := true; total_read := 3 |})) /\
    list_delivers rd' [byte_of 9].
Proof.
  destruct (complete_plp_read_agrees (delivers := list_delivers) (plp_chunks [byte_of <$> [1; 2; 3]]) [byte_of 9] 8
    (PlpChunkStreamReader_new (Known 3)) 11 (byte_of <$> [1; 2; 3])
    {| plp_length := Known 3; chunk_remaining := 0; reached_end := true; total_read := 3 |}
    (plp_chunks [byte_of <$> [1; 2; 3]] ++ [byte_of 9])) as (rd' & E & Hd);
    [vm_compute; done|intros k [= <-]; done|vm_compute; reflexivity|done|]. by exists rd'.
Defined.

(** Reading a PLP value ends on any input, with a value of at most 2 GiB or an error; so do
    skipping one and reading a piece of it.  The fuel counts the chunks: each uses up a byte of
    the input and of the limit. *)
Theorem plp_reading_ends {R} {inv : R -> Prop} {left : R -> nat} `{rd : SafeReader R inv left} fuel r s n :
  inv r -> stream_ok s -> enough (left := left) fuel r 0 ->
  completes (fst (read_plp_bytes fuel r)) /\
  (forall bs, fst (read_plp_bytes fuel r) = Ok (Some bs) -> Z.of_nat (length bs) <= MAX_PLP_SIZE) /\
  completes (fst (skip_to_end fuel (r, s))) /\ completes (fst (read_into n (r, s))).
Proof.
  intros Hr Hs Hf. destruct (read_plp_bytes_gives fuel r Hr Hf) as (? & _ & Ha). split_and!; [done|..].
  - intros bs E. by apply Ha in E as [_ ?].
  - apply skip_to_end_gives; [done|]. destruct Hs as (? & ? & ? & _). unfold enough in *. lia.
  - by apply read_into_gives.
Qed.

Lemma plp_reading_ends_witness :
  completes (fst (skip_to_end (R := ByteReader) 20 (byte_of <$> [5; 0; 0; 0; 1; 2], PlpChunkStreamReader_new Unknown))).
Proof.
  apply (plp_reading_ends (inv := fun _ : ByteReader => True) (left := length) 20 (byte_of <$> [5; 0; 0; 0; 1; 2])
           (PlpChunkStreamReader_new Unknown) 0);
    [done|vm_compute; done|vm_compute; reflexivity].
Defined.

(** The two readers disagree on a value that ends before its declared length: collected, it is
    filled up with zeros; skipped or streamed, it is an error. *)
Theorem short_plp_values_differ {R} {delivers : R -> bytes -> Prop} `{laws : PacketReaderLaws R delivers}
    c n r more :
  chunk_ok c -> Z.of_nat (length c) < n <= MAX_PLP_SIZE ->
  delivers r (le_bytes 8 n ++ plp_chunks [c] ++ more) ->
  (exists r', read_plp_bytes 2 r = (Ok (Some (c ++ replicate (Z.to_nat n - length c) (byte_of 0))), r')) /\
  (exists s r1 st, plp_begin r = (Ok (Some s), r1) /\ skip_to_end 2 (r1, s) = (Err plp_ended_early, st)).
Proof.
  intros Hc Hn Hd. assert (plp_size [c] = Z.of_nat (length c)) as Hsz by (unfold plp_size; cbn; by rewrite app_nil_r).
  assert (plp_ok [c]) as Hok by (split; [by constructor; [|constructor]|rewrite Hsz; lia]). split.
  { rewrite app_assoc in Hd. destruct (reads_plp_declared 2 n [c] Hok ltac:(lia) ltac:(cbn; lia) r more Hd) as (r' & E & _).
    exists r'. rewrite E, Hsz. cbn [concat]. rewrite app_nil_r. do 5 f_equal. lia. }
  destruct (reads_begin_known n ltac:(lia) r _ Hd) as (r1 & E1 & Hd1).
  exists (PlpChunkStreamReader_new (Known n)), r1. rewrite plp_chunks_cons, <- !app_assoc in Hd1. destruct Hc as [Hc1 Hc2].
  destruct (reads_sync_uint32 (Z.of_nat (length c)) ltac:(plp_consts; split; lia) r1 _ Hd1) as (r2 & E2 & Hd2).
  destruct (reads_skip (length c) c eq_refl r2 _ Hd2) as (r3 & E3 & Hd3). change (plp_chunks []) with (le_bytes 4 0) in Hd3.
  destruct (reads_sync_uint32 0 ltac:(done) r3 _ Hd3) as (r4 & E4 & Hd4).
  set (s1 := Build_PlpChunkStreamReader (Known n) (Z.of_nat (length c)) false 0).
  eexists. split; [done|]. rewrite (skip_round 1 r1 _ r2 s1 r3); [..|cbn; lia|cbn; by rewrite Nat2Z.id].
  - cbn [skip_to_end]. eapply bind_err. rewrite (ensure_next _ _ 0 r4); [|done|cbn; lia|done].
    unfold accept_chunk_length. cbn. z_if. reflexivity.
  - rewrite (ensure_next _ _ _ r2) with (3 := E2) by done. unfold accept_chunk_length. cbn. plp_consts. z_if.
    rewrite checked_add_small by lia. z_if. reflexivity.
Qed.

Definition short_value : bytes := byte_of <$> [1; 2; 3].
Definition short_wire : bytes := le_bytes 8 5 ++ plp_chunks [short_value] ++ [].

Lemma short_plp_values_differ_witness :
  (exists r', read_plp_bytes (R := ByteReader) 2 short_wire =
     (Ok (Some (short_value ++ replicate (Z.to_nat 5 - length short_value) (byte_of 0))), r')) /\
  (exists s r1 st, plp_begin (R := ByteReader) short_wire = (Ok (Some s), r1) /\
     skip_to_end 2 (r1, s) = (Err plp_ended_early, st)).
Proof.
  apply (short_plp_values_differ (delivers := list_delivers) short_value 5 short_wire []);
    [vm_compute; done|vm_compute; done|done].
Defined.
