(* ===== verification/Decoder.v ===== *)
(** * Decoding a column value (src/mssql-tds/src/datatypes/decoder.rs)

    One value of a row, read as its column's metadata describe it: [GenericDecoder::decode] with
    the strings, the vectors and the variants, which carry a type of their own.  Every scalar read
    is [read_sync_first]. *)

From stdpp Require Import strings.
From S2P Require Import Prelude Core Unicode PacketReader Tokens DataTypes ColMetadata Values Plp.

Definition MAX_ALLOC_SIZE : Z := 100 * 1024 * 1024.
Definition MAX_DECIMAL_INT_PARTS : Z := 4.
Definition MAX_DECIMAL_PRECISION : Z := 38.
Definition DECIMAL_MAGNITUDE_BYTES : Z := MAX_DECIMAL_INT_PARTS * 4.

Definition decimal_metadata_is_valid (precision scale : Z) : bool :=
  (0 <? precision) && (precision <=? MAX_DECIMAL_PRECISION) && (scale <=? precision).

(** A [u64] product; out of range it is Rust's overflow panic. *)
Definition mul_u64 (a b : Z) : TdsResult Z :=
  if a * b <? 2 ^ 64 then Ok (a * b) else Panic "attempt to multiply with overflow".

Definition scale_time_value (value scale : Z) : TdsResult Z :=
  match scale with
  | 0 => mul_u64 value 10000000
  | 1 => mul_u64 value 1000000
  | 2 => mul_u64 value 100000
  | 3 => mul_u64 value 10000
  | 4 => mul_u64 value 1000
  | 5 => mul_u64 value 100
  | 6 => mul_u64 value 10
  | _ => Ok value
  end.

Definition alloc_too_large : Error := ProtocolError "allocation size exceeds maximum allowed".

Definition validate_alloc_size (size : Z) : TdsResult unit :=
  if MAX_ALLOC_SIZE <? size then Err alloc_too_large else Ok tt.

Definition value_too_long (what : string) : Error := ProtocolError (what ++ " length exceeds maximum allowed size").

(** The magnitude of a decimal from at most 16 bytes, the missing ones zero. *)
Definition decimal_magnitude (bs : bytes) : Z :=
  of_le (bs ++ replicate (Z.to_nat DECIMAL_MAGNITUDE_BYTES - length bs) (byte_of 0)).

Definition of_option (wrap : DecimalParts -> ColumnValues) (o : option DecimalParts) : ColumnValues :=
  match o with Some d => wrap d | None => Null end.

Definition unsupported_type : Error :=
  UnimplementedFeature "Data type" "Data type is not yet supported in the decoder".

Definition is_long_len_type (data_type : TdsDataType) : bool :=
  match data_type with DT_NText | DT_Text => true | _ => false end.

(** Scalar reads, the buffered bytes first. *)
Abbreviation sync_byte := (read_sync_first try_read_byte read_byte).
Abbreviation sync_int16 := (read_sync_first try_read_int16 read_int16).
Abbreviation sync_uint16 := (read_sync_first try_read_uint16 read_uint16).
Abbreviation sync_uint24 := (read_sync_first try_read_uint24 read_uint24).
Abbreviation sync_int32 := (read_sync_first try_read_int32 read_int32).
Abbreviation sync_uint32 := (read_sync_first try_read_uint32 read_uint32).
Abbreviation sync_uint40 := (read_sync_first try_read_uint40 read_uint40).
Abbreviation sync_int64 := (read_sync_first try_read_int64 read_int64).
Abbreviation sync_float32 := (read_sync_first try_read_float32 read_float32).
Abbreviation sync_float64 := (read_sync_first try_read_float64 read_float64).

Section decoder.
Context {R : Type} `{ops : TdsPacketReader R} `{half : HalfCrate}.
(** Bounds the chunks of a PLP value. *)
Context (fuel : nat).

(** ** Numbers, dates and times *)

Definition read_decimal_data (length precision scale : Z) : M R (option DecimalParts) :=
  if negb (decimal_metadata_is_valid precision scale)
  then throw (ProtocolError "Invalid decimal precision / scale")
  else if length =? 0 then ret None
  else
    sign <- sync_byte ;;
    let is_positive := sign =? 1 in
    let magnitude_len := length - 1 in
    let number_of_int_parts := (magnitude_len + 3) / 4 in
    if MAX_DECIMAL_INT_PARTS <? number_of_int_parts
    then throw (ProtocolError "Decimal int parts exceeds maximum allowed")
    else
      magnitude <- read_bytes (Z.to_nat magnitude_len) ;;
      ret (Some (DecimalParts_new is_positive precision scale (decimal_magnitude magnitude))).

Definition read_decimal (metadata : ColumnMetadata) : M R (option DecimalParts) :=
  length <- sync_byte ;;
  match type_info_variant (type_info metadata) with
  | VarLenPrecisionScale _ _ precision scale => read_decimal_data length precision scale
  | _ => throw (ProtocolError "Invalid type info variant for Decimal/Numeric")
  end.

Definition read_datetime : M R SqlDateTime :=
  days <- sync_int32 ;; ticks <- sync_uint32 ;; ret {| dt_days := days; dt_time := ticks |}.

Definition read_small_datetime : M R SqlSmallDateTime :=
  days <- sync_uint16 ;; minutes <- sync_uint16 ;; ret {| sdt_days := days; sdt_time := minutes |}.

Definition read_date : M R SqlDate :=
  days <- sync_uint24 ;; ret (SqlDate_unchecked_create days).

Definition read_time (byte_len scale : Z) : M R SqlTime :=
  scaled_value <- match byte_len with
                  | 3 => sync_uint24
                  | 4 => sync_uint32
                  | _ => sync_uint40
                  end ;;
  ticks <- lift (scale_time_value scaled_value scale) ;;
  ret {| time_nanoseconds := ticks; time_scale := scale |}.

Definition read_datetime2 (byte_len scale : Z) : M R ColumnValues :=
  if byte_len <? 3 then throw (ProtocolError "Invalid DateTime2 byte length")
  else
    time <- read_time (byte_len - 3) scale ;;
    sql_date <- read_date ;;
    ret (DateTime2 {| dt2_days := days_since_01_01_0001 sql_date; dt2_time := time |}).

Definition read_datetime_offset (byte_len scale : Z) : M R ColumnValues :=
  if byte_len <? 2 then throw (ProtocolError "Invalid DateTimeOffset byte length")
  else
    datetime2 <- read_datetime2 (byte_len - 2) scale ;;
    match datetime2 with
    | DateTime2 dt2 =>
        offset <- sync_int16 ;;
        ret (DateTimeOffset {| dto_datetime2 := dt2; dto_offset := offset |})
    | _ => throw (ProtocolError "Internal error: read_datetime2 returned unexpected type")
    end.

Definition read_intn (byte_len : Z) : M R ColumnValues :=
  match byte_len with
  | 1 => v <- sync_byte ;; ret (TinyInt v)
  | 2 => v <- sync_int16 ;; ret (SmallInt v)
  | 4 => v <- sync_int32 ;; ret (Int v)
  | 8 => v <- sync_int64 ;; ret (BigInt v)
  | 0 => ret Null
  | _ => throw (Io "InvalidData" "Invalid IntN length")
  end.

Definition read_money4 : M R SqlSmallMoney := v <- sync_int32 ;; ret {| int_val := v |}.

Definition read_money8 : M R SqlMoney :=
  msb <- sync_int32 ;; lsb <- sync_int32 ;; ret {| lsb_part := lsb; msb_part := msb |}.

Definition read_daten (length : Z) : M R ColumnValues :=
  if length =? 0 then ret Null else d <- read_date ;; ret (Date d).

(** [Uuid::from_slice_le] takes any 16 bytes; the value is kept as these. *)
Definition read_guid (length : Z) : M R ColumnValues :=
  if 0 <? length then
    if negb (length =? 16) then throw (ProtocolError "Invalid GUID length")
    else
      lift (validate_alloc_size length) ;;
      bs <- read_bytes (Z.to_nat length) ;;
      ret (Uuid bs)
  else ret Null.

(** ** Vectors *)

Definition decode_vector (metadata : ColumnMetadata) : M R ColumnValues :=
  length_prefix_value <- sync_uint16 ;;
  if length_prefix_value =? 0xFFFF then ret Null
  else if VECTOR_MAX_SIZE <? length_prefix_value then throw (ProtocolError "Vector length exceeds maximum")
  else if length_prefix_value <? VECTOR_HEADER_SIZE
  then throw (ProtocolError "Vector length is less than minimum header size")
  else
    layout_format_byte <- sync_byte ;;
    layout_version_byte <- sync_byte ;;
    dimension_count <- sync_uint16 ;;
    base_type_byte <- sync_byte ;;
    _ <- sync_byte ;;
    _ <- sync_byte ;;
    _ <- sync_byte ;;
    _ <- lift (VectorLayoutFormat_try_from layout_format_byte) ;;
    _ <- lift (VectorLayoutVersion_try_from layout_version_byte) ;;
    base_type_in_metadata <-
      match type_info_variant (type_info metadata) with
      | VarLenScale _ scale => ret scale
      | _ => throw (ProtocolError "Vector metadata missing scale (base type)")
      end ;;
    if negb (base_type_byte =? base_type_in_metadata) then throw (ProtocolError "Vector base type mismatch")
    else
      base_type <- lift (VectorBaseType_try_from base_type_byte) ;;
      let length_in_metadata := ti_length (type_info metadata) in
      let length_from_vector_header := VECTOR_HEADER_SIZE + dimension_count * element_size_bytes base_type in
      if negb (length_prefix_value =? length_from_vector_header) || negb (length_prefix_value =? length_in_metadata)
      then throw (ProtocolError "Vector length mismatch")
      else
        raw_bytes <- read_bytes (Z.to_nat (length_prefix_value - VECTOR_HEADER_SIZE)) ;;
        vector <- lift (SqlVector_try_from_raw layout_format_byte layout_version_byte base_type_byte raw_bytes) ;;
        ret (Vector vector).

(** ** Strings: [StringDecoder::decode] *)

Definition TIMESTAMP_BYTE_COUNT : nat := 8.

Definition decode_string (metadata : ColumnMetadata) : M R ColumnValues :=
  encoding_type <- lift (get_encoding_type metadata) ;;
  if is_plp metadata then
    some_bytes <- read_plp_bytes fuel ;;
    match some_bytes with
    | Some bs => ret (CString (SqlString_new bs encoding_type))
    | None => ret Null
    end
  else if is_long_len_type (data_type metadata) then
    text_ptr_len <- sync_byte ;;
    if 0 <? text_ptr_len then
      skip_bytes (Z.to_nat text_ptr_len) ;;
      skip_bytes TIMESTAMP_BYTE_COUNT ;;
      length <- sync_uint32 ;;
      if MAX_ALLOC_SIZE <? length then throw (value_too_long "Text data")
      else if length =? 0 then ret (CString (SqlString_new [] encoding_type))
      else
        buffer <- read_bytes (Z.to_nat length) ;;
        ret (CString (SqlString_new buffer encoding_type))
    else ret Null
  else
    length <- sync_uint16 ;;
    if length =? 0xFFFF then ret Null
    else
      buffer <- read_bytes (Z.to_nat length) ;;
      ret (CString (SqlString_new buffer encoding_type)).

(** ** SQL_VARIANT: the value says its own type *)

Definition decode_one_byte_variant (tds_type : TdsDataType) (data_length : Z) : M R ColumnValues :=
  scale <- sync_byte ;;
  match tds_type with
  | DT_TimeN => time_nanos <- read_time (as_u8 data_length) scale ;; ret (Time time_nanos)
  | DT_DateTime2N => read_datetime2 (as_u8 data_length) scale
  | DT_DateTimeOffsetN => read_datetime_offset (as_u8 data_length) scale
  | _ => throw (ProtocolError "Invalid SQL_VARIANT: 1-byte property")
  end.

Definition decode_two_propbyte_variant (tds_type : TdsDataType) (data_length : Z) : M R ColumnValues :=
  match tds_type with
  | DT_BigVarBinary | DT_BigBinary =>
      _ <- sync_uint16 ;;
      if MAX_ALLOC_SIZE <? data_length then throw (value_too_long "SQL Variant binary data")
      else buffer <- read_bytes (Z.to_nat data_length) ;; ret (CBytes buffer)
  | DT_NumericN | DT_DecimalN =>
      precision <- sync_byte ;;
      scale <- sync_byte ;;
      decimal_parts <- read_decimal_data (as_u8 data_length) precision scale ;;
      ret (of_option (match tds_type with DT_NumericN => Numeric | _ => Decimal end) decimal_parts)
  | _ => throw (ProtocolError "Unexpected SQL variant base type for len(2) prop bytes")
  end.

Definition decode_seven_propbyte_variant (tds_type : TdsDataType) (data_length : Z) : M R ColumnValues :=
  match tds_type with
  | DT_BigVarChar | DT_BigChar | DT_NVarChar | DT_NChar =>
      collation_bytes <- read_bytes 5 ;;
      _ <- sync_uint16 ;;
      collation <- lift (SqlCollation_try_from collation_bytes) ;;
      if MAX_ALLOC_SIZE <? data_length then throw (value_too_long "SQL Variant string data")
      else
        buffer <- read_bytes (Z.to_nat data_length) ;;
        let encoding :=
          match tds_type with
          | DT_NVarChar | DT_NChar => Utf16
          | _ => if utf8 collation then Utf8 else LcidBased collation
          end in
        ret (CString (SqlString_new buffer encoding))
  | _ => throw (ProtocolError "Unexpected SQL variant base type for len(7) prop bytes")
  end.

(** The metadata a fixed-length base type is decoded with. *)
Definition variant_metadata (tds_type : TdsDataType) (data_length : Z) (t : FixedLengthTypes) : ColumnMetadata :=
  {| user_type := 0; cm_flags := 0;
     type_info := {| tds_type := tds_type; ti_length := data_length; type_info_variant := FixedLen t |};
     data_type := tds_type; column_name := []; multi_part_name := None; crypto_metadata := None |}.

Section variant.
(** [decode_boxed], the way back into [decode]. *)
Context (decode_boxed : ColumnMetadata -> M R ColumnValues).

Definition decode_zero_propbyte_variant (tds_type : TdsDataType) (data_length : Z) : M R ColumnValues :=
  match FixedLengthTypes_try_from tds_type with
  | Ok fixed_length_type => decode_boxed (variant_metadata tds_type data_length fixed_length_type)
  | _ =>
      match tds_type with
      | DT_Guid => read_guid (as_u8 data_length)
      | DT_DateN => read_daten (as_u8 data_length)
      | _ => throw (ProtocolError "For 0 byte property, only Guid and DateN are expected")
      end
  end.

Definition variant_underflow : Error := ProtocolError "SQL_VARIANT data length calculation underflow".

Definition read_sql_variant_with_base : M R (option TdsDataType * ColumnValues) :=
  length <- sync_uint32 ;;
  if length =? 0 then ret (None, Null)
  else
    variant_base_type <- sync_byte ;;
    tds_type <- lift (TdsDataType_try_from variant_base_type) ;;
    variant_prop_bytes <- sync_byte ;;
    if (length <? 2) || (length - 2 <? variant_prop_bytes) then throw variant_underflow
    else
      let data_length := length - 2 - variant_prop_bytes in
      col_value <-
        match variant_prop_bytes with
        | 0 => decode_zero_propbyte_variant tds_type data_length
        | 1 => decode_one_byte_variant tds_type data_length
        | 2 => decode_two_propbyte_variant tds_type data_length
        | 7 => decode_seven_propbyte_variant tds_type data_length
        | _ => throw (ProtocolError "Unexpected SQL variant properties length")
        end ;;
      ret (Some tds_type, col_value).

Definition read_sql_variant : M R ColumnValues :=
  '(_, value) <- read_sql_variant_with_base ;; ret value.

(** ** [GenericDecoder::decode] *)

(** The bytes of a PLP value under the wrapper of its type. *)
Definition decode_plp (wrap : bytes -> ColumnValues) : M R ColumnValues :=
  some_bytes <- read_plp_bytes fuel ;;
  match some_bytes with Some bs => ret (wrap bs) | None => ret Null end.

(** A BINARY or VARBINARY value with a two-byte length. *)
Definition decode_short_binary (what : string) : M R ColumnValues :=
  length <- sync_uint16 ;;
  if length =? 0xFFFF then ret Null
  else if MAX_ALLOC_SIZE <? length then throw (value_too_long what)
  else bs <- read_bytes (Z.to_nat length) ;; ret (CBytes bs).

Definition decode_image : M R ColumnValues :=
  text_ptr_len <- sync_byte ;;
  if text_ptr_len =? 0 then ret Null
  else
    skip_bytes (Z.to_nat text_ptr_len) ;;
    skip_bytes TIMESTAMP_BYTE_COUNT ;;
    length <- sync_uint32 ;;
    if MAX_ALLOC_SIZE <? length then throw (value_too_long "Image")
    else buffer <- read_bytes (Z.to_nat length) ;; ret (CBytes buffer).

Definition scale_of (metadata : ColumnMetadata) (what : string) : M R Z :=
  match get_scale metadata with
  | Some scale => ret scale
  | None => throw (ImplementationError (what ++ " type should have scale"))
  end.

Definition not_plp (what : string) : Error :=
  ProtocolError (what ++ " column metadata is not partially-length-prefixed").

Definition decode_with (metadata : ColumnMetadata) : M R ColumnValues :=
  match data_type metadata with
  | DT_Int1 => value <- sync_byte ;; ret (TinyInt value)
  | DT_Int2 => value <- sync_int16 ;; ret (SmallInt value)
  | DT_Int4 => value <- sync_int32 ;; ret (Int value)
  | DT_Int8 => value <- sync_int64 ;; ret (BigInt value)
  | DT_Flt4 => value <- sync_float32 ;; ret (Real value)
  | DT_Flt8 => value <- sync_float64 ;; ret (Float value)
  | DT_Money4 => v <- read_money4 ;; ret (SmallMoney v)
  | DT_Money => v <- read_money8 ;; ret (Money v)
  | DT_MoneyN =>
      byte_len <- sync_byte ;;
      match byte_len with
      | 4 => v <- read_money4 ;; ret (SmallMoney v)
      | 8 => v <- read_money8 ;; ret (Money v)
      | 0 => ret Null
      | _ => throw (ProtocolError "Invalid MoneyN length")
      end
  | DT_DecimalN => value <- read_decimal metadata ;; ret (of_option Decimal value)
  | DT_NumericN => value <- read_decimal metadata ;; ret (of_option Numeric value)
  | DT_Bit => value <- sync_byte ;; ret (Bit (value =? 1))
  | DT_NChar | DT_NVarChar | DT_BigChar | DT_BigVarChar | DT_Char | DT_VarChar | DT_NText | DT_Text =>
      decode_string metadata
  | DT_DateTime => value <- read_datetime ;; ret (DateTime value)
  | DT_IntN => byte_len <- sync_byte ;; read_intn byte_len
  | DT_BigBinary => decode_short_binary "BigBinary"
  | DT_BigVarBinary => if is_plp metadata then decode_plp CBytes else decode_short_binary "BigVarBinary"
  | DT_Xml =>
      if negb (is_plp metadata) then throw (not_plp "XML")
      else decode_plp (fun bs => Xml {| xml_bytes := bs |})
  | DT_Json =>
      if negb (is_plp metadata) then throw (not_plp "JSON")
      else decode_plp (fun bs => Json {| json_bytes := bs |})
  | DT_Vector => decode_vector metadata
  | DT_BitN =>
      byte_len <- sync_byte ;;
      if 0 <? byte_len then value <- sync_byte ;; ret (Bit (value =? 1)) else ret Null
  | DT_Guid => length <- sync_byte ;; read_guid length
  | DT_FltN =>
      length <- sync_byte ;;
      if length =? 0 then ret Null
      else if length =? 4 then value <- sync_float32 ;; ret (Real value)
      else value <- sync_float64 ;; ret (Float value)
  | DT_DateTimeN =>
      length <- sync_byte ;;
      if length =? 0 then ret Null
      else if length =? 4 then smalldatetime <- read_small_datetime ;; ret (SmallDateTime smalldatetime)
      else datetime <- read_datetime ;; ret (DateTime datetime)
  | DT_DateN => length <- sync_byte ;; read_daten length
  | DT_TimeN =>
      length <- sync_byte ;;
      match length with
      | 0 => ret Null
      | _ => scale <- scale_of metadata "TimeN" ;; t <- read_time length scale ;; ret (Time t)
      end
  | DT_DateTime2N =>
      length <- sync_byte ;;
      match length with
      | 0 => ret Null
      | _ => scale <- scale_of metadata "DateTime2N" ;; read_datetime2 length scale
      end
  | DT_DateTimeOffsetN =>
      length <- sync_byte ;;
      match length with
      | 0 => ret Null
      | _ => scale <- scale_of metadata "DateTimeOffsetN" ;; read_datetime_offset length scale
      end
  | DT_Image => decode_image
  | DT_Udt => if negb (is_plp metadata) then throw (not_plp "UDT") else decode_plp CBytes
  | DT_SsVariant => read_sql_variant
  | DT_DateTim4 =>
      daypart <- sync_uint16 ;; timepart <- sync_uint16 ;;
      ret (SmallDateTime {| sdt_days := daypart; sdt_time := timepart |})
  | DT_Decimal => throw (UnimplementedFeature "Fixed-length Decimal type" "Use DecimalN instead.")
  | DT_Numeric => throw (UnimplementedFeature "Fixed-length Numeric type" "Use NumericN instead.")
  | _ => throw unsupported_type
  end.
End variant.

(** A variant's base type is of fixed length, so [decode] re-enters itself once at most. *)
Definition decode : ColumnMetadata -> M R ColumnValues := decode_with (decode_with (fun _ => out_of_fuel)).
End decoder.
