(* ===== verification/DecoderLaws.v ===== *)
(** * Decoding: no input makes it panic, and a variant nests once

    Whatever the bytes, decoding a column whose metadata COLMETADATA can produce ends with a value
    or an error. *)

From stdpp Require Import strings.
From S2P Require Import Prelude Core Unicode PacketReader ReaderLaws Tokens TokenParsers TokenLaws TokenSafety.
From S2P Require Import DataTypes ColMetadata Values Plp PlpLaws Decoder.

(** Steps through reads, branches and ends of a decoder. *)
Ltac safe_auto :=
  repeat first [ safe_end | safe_step | progress case_match ].

(** ** Times *)

Lemma scale_time_value_in_range value scale :
  in_unsigned 40 value -> 0 <= scale -> exists ticks, scale_time_value value scale = Ok ticks /\ in_unsigned 64 ticks.
Proof.
  intros [H1 H2] Hs.
  assert (forall k, 0 <= k <= 10000000 -> mul_u64 value k = Ok (value * k) /\ in_unsigned 64 (value * k)) as Hm.
  { intros k Hk. assert (value * k < 2 ^ 64) by nia. unfold mul_u64. z_if. split; [done|]. split; nia. }
  unfold scale_time_value.
  repeat case_match; first [eexists; apply Hm; lia | exists value; split; [done|split; lia]].
Qed.

#[export] Hint Extern 1 (_ <= _)%Z => lia : safe.

Section safety.
Context {R : Type} {inv : R -> Prop} {left : R -> nat} `{rd : SafeReader R inv left} `{half : HalfCrate}.

Lemma read_decimal_data_safe length precision scale : safe inv left (read_decimal_data length precision scale).
Proof. unfold read_decimal_data. safe_auto. Qed.

Lemma read_time_safe byte_len scale : 0 <= scale -> safe inv left (read_time byte_len scale).
Proof.
  intros Hs. unfold read_time. eapply (safe_bind 0 (in_unsigned 40)).
  { repeat case_match; (eapply gives_weaken; [eauto with safe|lia|]); unfold in_unsigned; lia. }
  intros v Hv. destruct (scale_time_value_in_range v scale Hv Hs) as (ticks & -> & _).
  by apply gives_ret.
Qed.

Lemma read_datetime_safe : safe inv left read_datetime.
Proof. unfold read_datetime. safe_auto. Qed.

Lemma read_small_datetime_safe : safe inv left read_small_datetime.
Proof. unfold read_small_datetime. safe_auto. Qed.

Lemma read_date_safe : safe inv left read_date.
Proof. unfold read_date. safe_auto. Qed.

Lemma read_money4_safe : safe inv left read_money4.
Proof. unfold read_money4. safe_auto. Qed.

Lemma read_money8_safe : safe inv left read_money8.
Proof. unfold read_money8. safe_auto. Qed.

Hint Resolve read_decimal_data_safe read_time_safe read_datetime_safe read_small_datetime_safe read_date_safe
  read_money4_safe read_money8_safe : safe.

Lemma read_decimal_safe metadata : safe inv left (read_decimal metadata).
Proof. unfold read_decimal. safe_auto. Qed.

Lemma read_datetime2_safe byte_len scale : 0 <= scale -> safe inv left (read_datetime2 byte_len scale).
Proof. intros. unfold read_datetime2. safe_auto. Qed.

Hint Resolve read_decimal_safe read_datetime2_safe : safe.

Lemma read_datetime_offset_safe byte_len scale : 0 <= scale -> safe inv left (read_datetime_offset byte_len scale).
Proof. intros. unfold read_datetime_offset. safe_auto. Qed.

Lemma read_intn_safe byte_len : safe inv left (read_intn byte_len).
Proof. unfold read_intn. safe_auto. Qed.

Lemma read_daten_safe length : safe inv left (read_daten length).
Proof. unfold read_daten. safe_auto. Qed.

Lemma read_guid_safe length : safe inv left (read_guid length).
Proof.
  unfold read_guid. destruct (0 <? length); [|safe_end]. destruct (negb _); [safe_end|].
  eapply safe_bind; [apply lift_safe; unfold validate_alloc_size; by case_match|].
  intros _ _. safe_auto.
Qed.

Hint Resolve read_datetime_offset_safe read_intn_safe read_daten_safe read_guid_safe lift_safe : safe.

Lemma layout_format_completes v : completes (VectorLayoutFormat_try_from v).
Proof. unfold VectorLayoutFormat_try_from. by repeat case_match. Qed.

Lemma layout_version_completes v : completes (VectorLayoutVersion_try_from v).
Proof. unfold VectorLayoutVersion_try_from. by repeat case_match. Qed.

Lemma vector_base_type_completes v : completes (VectorBaseType_try_from v).
Proof. unfold VectorBaseType_try_from. by repeat case_match. Qed.

Lemma SqlVector_try_from_raw_completes f v b raw : completes (SqlVector_try_from_raw f v b raw).
Proof.
  unfold SqlVector_try_from_raw. apply completes_rbind; [apply layout_format_completes|intros _ _].
  apply completes_rbind; [apply layout_version_completes|intros _ _].
  apply completes_rbind; [apply vector_base_type_completes|intros t _].
  case_match; [done|]. apply completes_rbind; [|done]. unfold validate_dimensions. by repeat case_match.
Qed.

Lemma decode_vector_safe metadata : safe inv left (decode_vector metadata).
Proof.
  unfold decode_vector. safe_step. do 3 (case_match; [safe_end|]). do 7 safe_step.
  eapply safe_bind; [apply lift_safe, layout_format_completes|intros _ _].
  eapply safe_bind; [apply lift_safe, layout_version_completes|intros _ _].
  eapply (safe_bind 0 (fun _ => True)); [by case_match; safe_end|]. intros b _. case_match; [safe_end|].
  eapply safe_bind; [apply lift_safe, vector_base_type_completes|]. intros t _.
  case_match; [safe_end|]. safe_step.
  eapply safe_bind; [apply lift_safe, SqlVector_try_from_raw_completes|]. intros. safe_end.
Qed.

Lemma collation_of_five bs : length bs = 5%nat -> exists c, SqlCollation_try_from bs = Ok c.
Proof. intros H. do 6 (destruct bs as [|? bs]; try done). by eexists. Qed.

(** A decoder that reads a PLP value needs fuel for its chunks: more than the bytes that are left. *)
Definition safe_for (fuel : nat) {A} (m : M R A) : Prop :=
  forall r, inv r -> (left r < fuel)%nat -> gives_at inv left 0 (fun _ => True) m r.

Lemma safe_for_safe fuel {A} (m : M R A) : safe inv left m -> safe_for fuel m.
Proof. intros H r Hr _. by apply H. Qed.

Lemma safe_for_bind fuel {A B} n (P : A -> Prop) (m : M R A) (f : A -> M R B) :
  gives inv left n P m -> (forall a, P a -> safe_for fuel (f a)) -> safe_for fuel (bind m f).
Proof.
  intros Hm Hf r Hr Hl. eapply gives_at0; [done|exact Hm|]. intros a r' Hr' Ha Hl'. apply Hf; [done..|lia].
Qed.

Lemma read_plp_bytes_then fuel {A} (f : option bytes -> M R A) :
  (forall o, safe inv left (f o)) -> safe_for fuel (bind (read_plp_bytes fuel) f).
Proof.
  intros Hf r Hr Hl. eapply (gives_at_bind 0 0); [apply read_plp_bytes_gives; [done|]|intros; by apply Hf].
  unfold enough. lia.
Qed.

Lemma decode_plp_safe fuel wrap : safe_for fuel (decode_plp fuel wrap).
Proof. apply read_plp_bytes_then. intros [bs|]; safe_end. Qed.

Lemma decode_string_safe fuel metadata :
  completes (get_encoding_type metadata) -> safe_for fuel (decode_string fuel metadata).
Proof.
  intros Hc. eapply safe_for_bind; [by apply lift_safe|]. intros e _. case_match.
  { apply read_plp_bytes_then. intros [bs|]; safe_end. }
  apply safe_for_safe. case_match; safe_auto.
Qed.

Lemma decode_one_byte_variant_safe t len : safe inv left (decode_one_byte_variant t len).
Proof. unfold decode_one_byte_variant. safe_step. destruct t; safe_auto. Qed.

Lemma decode_two_propbyte_variant_safe t len : safe inv left (decode_two_propbyte_variant t len).
Proof. unfold decode_two_propbyte_variant. destruct t; try safe_end; safe_auto. Qed.

Lemma decode_seven_propbyte_variant_safe t len : safe inv left (decode_seven_propbyte_variant t len).
Proof.
  unfold decode_seven_propbyte_variant.
  destruct t; try safe_end; safe_step; safe_step;
    match goal with H : length _ = 5%nat |- _ => destruct (collation_of_five _ H) as [c ->] end;
    (eapply safe_bind; [by apply lift_safe|]); intros ? _; safe_auto.
Qed.

Lemma decode_short_binary_safe what : safe inv left (decode_short_binary what).
Proof. unfold decode_short_binary. safe_auto. Qed.

Lemma decode_image_safe : safe inv left decode_image.
Proof. unfold decode_image. safe_auto. Qed.

Hint Resolve decode_vector_safe decode_one_byte_variant_safe decode_two_propbyte_variant_safe
  decode_seven_propbyte_variant_safe decode_short_binary_safe decode_image_safe : safe.

(** What metadata must have to be decoded: a collation for text that is not Unicode, and a scale
    that is a byte. *)
Definition decodable (metadata : ColumnMetadata) : Prop :=
  match data_type metadata with
  | DT_NChar | DT_NVarChar | DT_BigChar | DT_BigVarChar | DT_Char | DT_VarChar | DT_NText | DT_Text =>
      completes (get_encoding_type metadata)
  | _ => True
  end /\ (forall scale, get_scale metadata = Some scale -> 0 <= scale).

(** The fixed-length types, which a variant hands back to the decoder. *)
Lemma decode_fixed_safe fuel d t len fl :
  FixedLengthTypes_try_from t = Ok fl -> safe inv left (decode_with fuel d (variant_metadata t len fl)).
Proof. intros H. unfold decode_with. destruct t; try done; cbn [data_type variant_metadata]; safe_auto. Qed.

Lemma read_sql_variant_with_base_safe d :
  (forall t len fl, FixedLengthTypes_try_from t = Ok fl -> safe inv left (d (variant_metadata t len fl))) ->
  safe inv left (read_sql_variant_with_base d).
Proof.
  intros Hd. unfold read_sql_variant_with_base. safe_step. case_match; [safe_end|]. safe_step.
  eapply safe_bind; [apply lift_safe; unfold TdsDataType_try_from; by repeat case_match|]. intros t _. safe_step.
  case_match; [safe_end|].
  eapply (safe_bind 0 (fun _ => True)); [|intros; safe_end].
  assert (safe inv left (decode_zero_propbyte_variant d t (a - 2 - a1))) as Hz.
  { unfold decode_zero_propbyte_variant. destruct (FixedLengthTypes_try_from t) eqn:E; [by apply Hd|..];
      destruct t; safe_auto. }
  repeat case_match; first [exact Hz | safe_end].
Qed.

Lemma scale_of_gives metadata what :
  (forall scale, get_scale metadata = Some scale -> 0 <= scale) ->
  gives inv left 0 (fun scale => 0 <= scale) (scale_of metadata what).
Proof. intros Hs. unfold scale_of. destruct (get_scale metadata); [apply gives_ret; auto|apply gives_throw]. Qed.

Lemma decode_with_safe fuel d metadata :
  (forall t len fl, FixedLengthTypes_try_from t = Ok fl -> safe inv left (d (variant_metadata t len fl))) ->
  decodable metadata -> safe_for fuel (decode_with fuel d metadata).
Proof.
  intros Hd [Hm Hs]. pose proof (scale_of_gives metadata) as Hsc. unfold decode_with.
  destruct (data_type metadata) eqn:Et;
    try (by apply decode_string_safe);
    try (case_match; [apply safe_for_safe; safe_end|]; apply decode_plp_safe);
    try (case_match; [apply decode_plp_safe|]; apply safe_for_safe; safe_end);
    apply safe_for_safe; safe_auto.
  - unfold read_sql_variant. eapply safe_bind; [by apply read_sql_variant_with_base_safe|]. intros [? ?] _. safe_end.
Qed.

Lemma decode_safe fuel metadata : decodable metadata -> safe_for fuel (decode fuel metadata).
Proof. apply decode_with_safe. intros. by eapply decode_fixed_safe. Qed.
End safety.
