(* ===== verification/ColMetadataLaws.v ===== *)
(** * Column metadata: what the parser gives back, on well-formed and on any input

    The description of the columns comes back as it was sent, and whatever is sent, the parser ends
    with metadata the decoder can use, or with an error. *)

From stdpp Require Import strings.
From S2P Require Import Prelude Core Unicode PacketReader ReaderLaws Tokens TokenParsers TokenLaws TokenSafety.
From S2P Require Import DataClassificationLaws DataTypes ColMetadata Values Plp PlpLaws Decoder DecoderLaws.

(** ** On any input *)

(** TYPE_INFO under which a column of the type can be decoded. *)
Definition usable (t : TdsDataType) (ti : TypeInfo) : Prop :=
  forall md, type_info md = ti -> data_type md = t -> decodable md.

Definition has_collation (ti : TypeInfo) : Prop :=
  exists c, match type_info_variant ti with
            | VarLenString _ _ o | PartialLen _ _ o _ _ => o = Some c
            | _ => False
            end.
Definition scale_ok (ti : TypeInfo) : Prop :=
  match type_info_variant ti with
  | VarLenScale _ scale | VarLenPrecisionScale _ _ _ scale => 0 <= scale
  | _ => True
  end.
Definition needs_collation (t : TdsDataType) : bool :=
  match t with DT_BigChar | DT_BigVarChar | DT_Char | DT_VarChar | DT_Text => true | _ => false end.

Lemma usable_intro t ti : scale_ok ti -> (needs_collation t = true -> has_collation ti) -> usable t ti.
Proof.
  intros Hs Hc md <- <-. split.
  - unfold get_encoding_type, get_collation, has_collation in *.
    destruct (data_type md); try done; destruct (Hc eq_refl) as [c Hv];
      destruct (type_info_variant (type_info md)); try done; subst; cbn; by case_match.
  - unfold get_scale, scale_ok in *. intros scale. destruct (type_info_variant _); try done; by intros [= <-].
Qed.

Section safety.
Context {R : Type} {inv : R -> Prop} {left : R -> nat} `{rd : SafeReader R inv left}.

Lemma time_length_completes scale : completes (get_time_length_from_scale scale).
Proof. unfold get_time_length_from_scale. by repeat case_match. Qed.

Lemma get_variable_length_gives t : gives inv left 0 (fun n => 0 <= n) (get_variable_length t).
Proof.
  unfold get_variable_length. destruct t; cbn;
    first [ eapply gives_weaken; [eauto with safe|lia|]; unfold in_unsigned; lia
          | eapply gives_bind0; [eauto with safe|]; intros n _; destruct (Z.ltb_spec n 0);
            [apply gives_throw|apply gives_ret; lia] ].
Qed.

(** What [read_var_type_info] gives: a string with its collation, a scale that is a byte. *)
Definition var_shape (vdt : VariableLengthTypes) (ti : TypeInfo) : Prop :=
  scale_ok ti /\
  match vdt with
  | VL_BigChar | VL_BigVarChar | VL_Text | VL_NText | VL_NChar | VL_NVarChar =>
      exists c, match type_info_variant ti with VarLenString _ _ o => o = Some c | _ => False end
  | VL_BigVarBinary => match type_info_variant ti with VarLen _ _ => True | _ => False end
  | VL_Char | VL_VarChar => False
  | _ => True
  end.

Ltac gives_auto :=
  repeat first [ apply gives_throw | apply gives_ret; by (split; cbn; try lia; eauto)
               | eapply gives_bind0; [solve [eauto with safe]|intros ? ?; cbv beta in *] ].

Lemma read_var_type_info_gives t vdt : gives inv left 0 (var_shape vdt) (read_var_type_info t vdt).
Proof.
  pose proof (fun s => lift_safe (inv := inv) (left := left) _ (time_length_completes s)) as Ht.
  pose proof (fun v => lift_safe (inv := inv) (left := left) _ (vector_base_type_completes v)) as Hv.
  pose proof get_variable_length_gives as Hg.
  unfold read_var_type_info. destruct vdt; cbn [get_len_byte_count]; gives_auto.
  all: match goal with H : length ?bs = 5%nat |- _ => destruct (collation_of_five bs H) as [c ->] end.
  all: apply gives_ret; split; cbn; eauto.
Qed.

Lemma convert_to_plp_usable t vdt ti ti' :
  VariableLengthTypes_try_from t = Ok vdt -> var_shape vdt ti -> convert_to_plp t ti = Ok ti' -> usable t ti'.
Proof.
  intros Ht [Hs Hv] E.
  assert (usable t ti) as Hu.
  { apply usable_intro; [done|]. unfold has_collation.
    destruct t; try done; injection Ht as <-; try done; intros _; destruct Hv as [c Hc]; exists c;
      by destruct (type_info_variant ti). }
  unfold convert_to_plp in E.
  destruct t; try (by injection E as <-); destruct (_ =? _); try (by injection E as <-); injection Ht as <-; cbn in Hv, E.
  all: destruct (type_info_variant ti); try done; injection E as <-; apply usable_intro; try done.
  all: by destruct Hv.
Qed.

Lemma convert_to_plp_completes t vdt ti :
  VariableLengthTypes_try_from t = Ok vdt -> var_shape vdt ti -> completes (convert_to_plp t ti).
Proof.
  intros Ht [Hs Hv]. unfold convert_to_plp. destruct t; try done; injection Ht as <-; cbn in Hv |- *;
    destruct (_ =? _); try done; destruct (type_info_variant ti); try done; by destruct Hv.
Qed.

Lemma some_name_safe : safe inv left (s <- read_varchar_u8_length ;; ret (Some s)).
Proof. eapply safe_bind; [apply read_varchar_u8_safe|]. intros. safe_end. Qed.

Hint Resolve read_varchar_u8_safe read_varchar_u16_safe some_name_safe : safe.

Lemma read_plp_type_info_gives t pt :
  PartialLengthType_try_from t = Ok pt -> (forall vdt, VariableLengthTypes_try_from t <> Ok vdt) ->
  gives inv left 0 (usable t) (read_plp_type_info t pt).
Proof.
  intros Ht Hv. destruct t; try done; injection Ht as <-; try (by specialize (Hv _ eq_refl)).
  all: unfold read_plp_type_info.
  all: repeat first [ apply gives_throw | apply gives_ret, usable_intro; done
    | eapply gives_bind0; [solve [eauto with safe]|intros ? ?]
    | progress case_match | progress cbv zeta ].
Qed.

Lemma read_type_info_gives t : gives inv left 0 (usable t) (read_type_info t).
Proof.
  unfold read_type_info. case_decide; [apply gives_throw|].
  destruct (FixedLengthTypes_try_from t) eqn:Ef.
  { apply gives_ret, usable_intro; [done|]. by destruct t. }
  all: destruct (VariableLengthTypes_try_from t) as [vdt| | |] eqn:Ev;
    [eapply gives_bind0; [apply read_var_type_info_gives|]; intros ti Hti; apply gives_lift;
       [by eapply convert_to_plp_completes|by intros; eapply convert_to_plp_usable]|..].
  all: destruct (PartialLengthType_try_from t) eqn:Ep; [apply read_plp_type_info_gives; [done|by intros vdt; rewrite Ev]|..].
  all: apply gives_throw.
Qed.

(** ** The columns *)

Hint Resolve repeat_read_safe lift_safe : safe.

Lemma read_unicode_n_safe n : safe inv left (read_unicode n).
Proof. unfold read_unicode. eapply safe_of, read_unicode_safe. Qed.

Hint Resolve read_unicode_n_safe : safe.

Lemma parse_cek_value_safe : safe inv left parse_cek_value.
Proof. unfold parse_cek_value. safe_auto. Qed.

Hint Resolve parse_cek_value_safe : safe.

Lemma parse_cek_table_entry_safe : safe inv left parse_cek_table_entry.
Proof. unfold parse_cek_table_entry. safe_auto. Qed.

Hint Resolve parse_cek_table_entry_safe : safe.

Lemma parse_cek_table_safe : safe inv left parse_cek_table.
Proof. unfold parse_cek_table. safe_auto. Qed.

Lemma data_type_or_completes v e :
  completes (match TdsDataType_try_from v with Ok t => Ok t | _ => Err e end).
Proof. by destruct (TdsDataType_try_from v). Qed.

Lemma type_info_safe t : safe inv left (read_type_info t).
Proof. eapply safe_of, read_type_info_gives. Qed.

Hint Resolve parse_cek_table_safe data_type_or_completes type_info_safe : safe.

Lemma parse_crypto_metadata_safe b : safe inv left (parse_crypto_metadata b).
Proof.
  unfold parse_crypto_metadata. eapply (safe_bind 0 (fun _ => True)); [destruct b; safe_end|]. intros o _.
  do 2 safe_step. eapply safe_bind; [apply lift_safe, data_type_or_completes|]. intros t _. do 2 safe_step.
  eapply (safe_bind 0 (fun _ => True)); [case_match; safe_auto|]. intros. safe_auto.
Qed.

Lemma read_name_parts_safe n : forall mpt, safe inv left (read_name_parts n mpt).
Proof. induction n as [|n IH]; intros mpt; cbn [read_name_parts]; [safe_end|]. safe_step. apply IH. Qed.

Hint Resolve read_name_parts_safe parse_crypto_metadata_safe : safe.

Lemma read_multi_part_name_safe t : safe inv left (read_multi_part_name t).
Proof. unfold read_multi_part_name. destruct t; safe_auto. Qed.

Hint Resolve read_multi_part_name_safe : safe.

Lemma parse_column_gives b : gives inv left 0 decodable (parse_column b).
Proof.
  unfold parse_column. do 3 (eapply gives_bind0; [eauto with safe|intros]).
  eapply gives_bind0; [apply lift_safe, data_type_or_completes|]. intros t _.
  eapply gives_bind0; [apply read_type_info_gives|]. intros ti Hti. eapply gives_bind0; [eauto with safe|]. intros mp _.
  eapply (gives_bind0 0 (fun _ => True)); [case_match; safe_auto|]. intros c _.
  eapply gives_bind0; [eauto with safe|]. intros name _. apply gives_ret. by apply Hti.
Qed.

Lemma gives_repeat {A} (P : A -> Prop) n (m : M R A) :
  gives inv left 0 P m -> gives inv left 0 (fun xs => length xs = n /\ Forall P xs) (repeat_read n m).
Proof.
  intros Hm. induction n as [|n IH]; cbn [repeat_read]; [by apply gives_ret|].
  eapply gives_bind0; [exact Hm|]. intros x Hx. eapply gives_bind0; [exact IH|]. intros xs [Hl Hxs].
  apply gives_ret. split; [cbn; lia|by constructor].
Qed.

(** A COLMETADATA token counts its columns, and each of them can be decoded. *)
Definition col_metadata_ok (t : ColMetadataToken) : Prop :=
  column_count t = Z.of_nat (length (cols t)) /\ Forall decodable (cols t).

Lemma parse_col_metadata_gives b : gives inv left 0 col_metadata_ok (parse_col_metadata b).
Proof.
  unfold parse_col_metadata. eapply gives_bind0; [eauto with safe|]. intros n Hn. case_match; [by apply gives_ret|].
  eapply (gives_bind0 0 (fun _ => True)); [case_match; safe_end|]. intros cek _.
  eapply gives_bind0; [apply gives_repeat, parse_column_gives|]. intros cs [Hl Hcs]. apply gives_ret.
  split; [|done]. cbn. destruct Hn. lia.
Qed.
End safety.

(** ** TYPE_INFO on the wire *)

Definition encode_collation (c : SqlCollation) : bytes := le_bytes 4 (info c) ++ [byte_of (sort_id c)].
Definition collation_wf (c : SqlCollation) : Prop := SqlCollation_try_from (encode_collation c) = Ok c.

Definition encode_len (t : VariableLengthTypes) (len : Z) : bytes :=
  match get_len_byte_count t with 1 => [byte_of len] | 2 => le_bytes 2 len | _ => le_bytes 4 len end.
Definition len_wf (t : VariableLengthTypes) (len : Z) : Prop :=
  match get_len_byte_count t with 1 => 0 <= len < 256 | 2 => in_unsigned 16 len | _ => 0 <= len < 2 ^ 31 end.

(** The type information of a column of the given type and the bytes that describe it. *)
Inductive type_info_layout : TypeInfo -> bytes -> Prop :=
  | lay_fixed t fl :
      FixedLengthTypes_try_from t = Ok fl ->
      type_info_layout {| tds_type := t; ti_length := FixedLengthTypes_get_len fl; type_info_variant := FixedLen fl |} []
  | lay_time t vdt extra scale n :
      In (t, vdt, extra) [(DT_TimeN, VL_TimeN, 0); (DT_DateTime2N, VL_DateTime2N, 3);
                          (DT_DateTimeOffsetN, VL_DateTimeOffsetN, 5)] ->
      get_time_length_from_scale scale = Ok n ->
      type_info_layout {| tds_type := t; ti_length := n + extra; type_info_variant := VarLenScale vdt scale |}
        [byte_of scale]
  | lay_vector len b bt :
      in_unsigned 16 len -> 0 <= b < 256 -> VectorBaseType_try_from b = Ok bt ->
      type_info_layout {| tds_type := DT_Vector; ti_length := len; type_info_variant := VarLenScale VL_Vector b |}
        (le_bytes 2 len ++ [byte_of b])
  | lay_small t vdt len :
      VariableLengthTypes_try_from t = Ok vdt ->
      In vdt [VL_MoneyN; VL_DateTimeN; VL_IntN; VL_FltN; VL_Guid; VL_BitN] -> 0 <= len < 256 ->
      type_info_layout {| tds_type := t; ti_length := len; type_info_variant := VarLen vdt len |} [byte_of len]
  | lay_date :
      type_info_layout {| tds_type := DT_DateN; ti_length := 3; type_info_variant := VarLen VL_DateN 3 |} []
  | lay_decimal t vdt len p s :
      VariableLengthTypes_try_from t = Ok vdt -> In vdt [VL_DecimalN; VL_NumericN; VL_Decimal; VL_Numeric] ->
      0 <= len < 256 -> 0 <= p < 256 -> 0 <= s < 256 ->
      type_info_layout {| tds_type := t; ti_length := len; type_info_variant := VarLenPrecisionScale vdt len p s |}
        [byte_of len; byte_of p; byte_of s]
  | lay_string t vdt len c :
      VariableLengthTypes_try_from t = Ok vdt ->
      In vdt [VL_BigChar; VL_BigVarChar; VL_Text; VL_NText; VL_NChar; VL_NVarChar] ->
      len_wf vdt len -> collation_wf c -> (In vdt [VL_BigVarChar; VL_NVarChar] -> len <> 0xFFFF) ->
      type_info_layout {| tds_type := t; ti_length := len; type_info_variant := VarLenString vdt len (Some c) |}
        (encode_len vdt len ++ encode_collation c)
  | lay_binary t vdt len :
      VariableLengthTypes_try_from t = Ok vdt -> In vdt [VL_Image; VL_BigVarBinary; VL_BigBinary; VL_SsVariant] ->
      len_wf vdt len -> (vdt = VL_BigVarBinary -> len <> 0xFFFF) ->
      type_info_layout {| tds_type := t; ti_length := len; type_info_variant := VarLen vdt len |} (encode_len vdt len)
  | lay_text_max t pt c :
      In (t, pt) [(DT_BigVarChar, PL_BigVarChar); (DT_NVarChar, PL_NVarChar)] -> collation_wf c ->
      type_info_layout {| tds_type := t; ti_length := 0xFFFF;
                          type_info_variant := PartialLen pt (Some 0xFFFF) (Some c) None None |}
        (le_bytes 2 0xFFFF ++ encode_collation c)
  | lay_binary_max :
      type_info_layout {| tds_type := DT_BigVarBinary; ti_length := 0xFFFF;
                          type_info_variant := PartialLen PL_BigVarBinary (Some 0xFFFF) None None None |}
        (le_bytes 2 0xFFFF)
  | lay_udt len db schema type_ name :
      in_unsigned 16 len -> short_str db -> short_str schema -> short_str type_ -> long_str name ->
      type_info_layout {| tds_type := DT_Udt; ti_length := len; type_info_variant := PartialLen PL_Udt (Some len) None None
          (Some (InColMetadata {| max_byte_size := len; udt_db_name := db; udt_schema_name := schema;
                                  udt_type_name := type_; assembly_qualified_name := name |})) |}
        (le_bytes 2 len ++ b_varchar db ++ b_varchar schema ++ b_varchar type_ ++ us_varchar name)
  | lay_json :
      type_info_layout {| tds_type := DT_Json; ti_length := 0xFFFF;
                          type_info_variant := PartialLen PL_Json None None None None |} []
  | lay_xml p :
      0 <= p < 256 -> p <> 1 ->
      type_info_layout {| tds_type := DT_Xml; ti_length := 0xFFFF; type_info_variant := PartialLen PL_Xml None None
          (Some {| schema_present := p; xml_db_name := None; owning_schema := None; xml_schema_collection := None |}) None |}
        [byte_of p]
  | lay_xml_schema db owner coll :
      short_str db -> short_str owner -> long_str coll ->
      type_info_layout {| tds_type := DT_Xml; ti_length := 0xFFFF; type_info_variant := PartialLen PL_Xml None None
          (Some {| schema_present := 1; xml_db_name := Some db; owning_schema := Some owner;
                   xml_schema_collection := Some coll |}) None |}
        ([byte_of 1] ++ b_varchar db ++ b_varchar owner ++ us_varchar coll).

Ltac in_cases H :=
  cbn [In] in H; repeat match type of H with _ \/ _ => destruct H as [H|H] end; try done; simplify_eq.

Section reading.
Context {R : Type} {delivers : R -> bytes -> Prop} `{laws : PacketReaderLaws R delivers}.

Lemma reads_last {A} (m : M R A) bs a : reads delivers m bs a -> reads delivers m (bs ++ []) a.
Proof. by rewrite app_nil_r. Qed.

Lemma reads_variable_length t len : len_wf t len -> reads delivers (get_variable_length t) (encode_len t len) len.
Proof.
  unfold len_wf, encode_len, get_variable_length. intros H.
  destruct t; cbn in *; auto with reads;
    (rewrite <- (app_nil_r (le_bytes 4 len)); eapply reads_bind; [apply reads_int32; split; lia|];
     rewrite (proj2 (Z.ltb_ge _ _)) by lia; apply reads_ret).
Qed.

Lemma reads_collation c {A} (k : option SqlCollation -> M R A) bs a :
  collation_wf c -> reads delivers (k (Some c)) bs a ->
  reads delivers (bs <- read_bytes 5 ;; k (match SqlCollation_try_from bs with Ok c => Some c | _ => None end))
    (encode_collation c ++ bs) a.
Proof.
  intros Hc Hk. eapply reads_bind; [by apply reads_bytes|]. by rewrite Hc.
Qed.

Lemma time_scale_byte scale n : get_time_length_from_scale scale = Ok n -> 0 <= scale < 256.
Proof.
  unfold get_time_length_from_scale. destruct (Z.leb_spec 0 scale), (Z.leb_spec scale 2); cbn; try lia;
    destruct (Z.eqb_spec scale 3), (Z.eqb_spec scale 4); cbn; try lia;
    destruct (Z.leb_spec 5 scale), (Z.leb_spec scale 7); cbn; try done; lia.
Qed.

Lemma reads_var_type_info t vdt ti ti' bs :
  VariableLengthTypes_try_from t = Ok vdt -> convert_to_plp t ti = Ok ti' ->
  reads delivers (read_var_type_info t vdt) bs ti -> reads delivers (read_type_info t) bs ti'.
Proof.
  intros Hv Hc Hr. rewrite <- (app_nil_r bs). unfold read_type_info. rewrite decide_False by (by intros ->).
  destruct (FixedLengthTypes_try_from t) eqn:Ef; [by destruct t|..]; rewrite Hv;
    (eapply reads_bind; [exact Hr|]); rewrite Hc; apply reads_ret.
Qed.

Lemma reads_plp_type_info t pt ti bs :
  t <> DT_Void -> PartialLengthType_try_from t = Ok pt -> In pt [PL_Udt; PL_Json; PL_Xml] ->
  reads delivers (read_plp_type_info t pt) bs ti -> reads delivers (read_type_info t) bs ti.
Proof.
  intros Hn Hp Hi Hr. unfold read_type_info. rewrite decide_False by done.
  destruct t; try done; injection Hp as <-; first [exact Hr | by cbn in Hi; intuition].
Qed.

(** Splits membership in a literal list. *)
Lemma reads_time_info t vdt extra scale n :
  In (t, vdt, extra) [(DT_TimeN, VL_TimeN, 0); (DT_DateTime2N, VL_DateTime2N, 3);
                      (DT_DateTimeOffsetN, VL_DateTimeOffsetN, 5)] ->
  get_time_length_from_scale scale = Ok n ->
  reads delivers (read_type_info t) [byte_of scale]
    {| tds_type := t; ti_length := n + extra; type_info_variant := VarLenScale vdt scale |}.
Proof.
  intros Hi Hn. pose proof (time_scale_byte _ _ Hn) as Hs.
  in_cases Hi; (eapply reads_var_type_info; [done|done|]);
    (eapply (reads_bind _ _ [_] []); [by apply reads_byte|]); rewrite Hn;
    rewrite ?Z.add_0_r; change 5 with (3 + 2); rewrite ?Z.add_assoc; apply reads_ret.
Qed.

Lemma reads_string_info t vdt ti len c :
  VariableLengthTypes_try_from t = Ok vdt ->
  In vdt [VL_BigChar; VL_BigVarChar; VL_Text; VL_NText; VL_NChar; VL_NVarChar] ->
  len_wf vdt len -> collation_wf c ->
  convert_to_plp t {| tds_type := t; ti_length := len; type_info_variant := VarLenString vdt len (Some c) |} = Ok ti ->
  reads delivers (read_type_info t) (encode_len vdt len ++ encode_collation c) ti.
Proof.
  intros Ht Hi Hl Hc Hp. eapply reads_var_type_info; [done|exact Hp|].
  in_cases Hi; (eapply reads_bind; [by apply reads_variable_length|]);
    rewrite <- (app_nil_r (encode_collation c)); (eapply reads_bind; [by apply reads_bytes|]); rewrite Hc;
    apply reads_ret.
Qed.

Lemma reads_binary_info t vdt ti len :
  VariableLengthTypes_try_from t = Ok vdt -> In vdt [VL_Image; VL_BigVarBinary; VL_BigBinary; VL_SsVariant] ->
  len_wf vdt len ->
  convert_to_plp t {| tds_type := t; ti_length := len; type_info_variant := VarLen vdt len |} = Ok ti ->
  reads delivers (read_type_info t) (encode_len vdt len) ti.
Proof.
  intros Ht Hi Hl Hp. eapply reads_var_type_info; [done|exact Hp|].
  in_cases Hi; eapply (reads_final _ _ _ len); by try apply reads_variable_length.
Qed.

Lemma convert_to_plp_short t ti :
  (In t [DT_BigVarChar; DT_BigVarBinary; DT_NVarChar] -> ti_length ti <> 0xFFFF) -> convert_to_plp t ti = Ok ti.
Proof.
  intros H. unfold convert_to_plp. destruct t; try done; by rewrite (proj2 (Z.eqb_neq _ _)) by (apply H; cbn; auto).
Qed.

(** Whatever TYPE_INFO the server sends, the parser gives it back. *)
Lemma reads_type_info ti bs :
  type_info_layout ti bs -> reads delivers (read_type_info (tds_type ti)) bs ti.
Proof.
  destruct 1 as [t fl Hf|t vdt extra scale n Hi Hn|len b bt Hl Hb Hbt|t vdt len Ht Hi Hl| |t vdt len p s Ht Hi Hl Hp Hs
    |t vdt len c Ht Hi Hl Hc Hm|t vdt len Ht Hi Hl Hm|t pt c Hi Hc| |len db schema type_ name Hl Hdb Hsc Hty Hna
    | |p Hp Hp1|db owner coll Hdb How Hco]; cbn [tds_type].
  - unfold read_type_info. rewrite decide_False by (by intros ->). rewrite Hf. apply reads_ret.
  - by apply reads_time_info.
  - eapply reads_var_type_info; [done|done|]. eapply reads_bind; [by apply reads_uint16|].
    eapply (reads_bind _ _ [_] []); [by apply reads_byte|]. rewrite Hbt. apply reads_ret.
  - in_cases Hi; destruct t; try done; (eapply reads_var_type_info; [done|done|]); (eapply (reads_final _ _ _ len); [by apply reads_byte|done]).
  - eapply reads_var_type_info; [done|done|]. apply reads_ret.
  - in_cases Hi; destruct t; try done; (eapply reads_var_type_info; [done|done|]);
      (eapply (reads_bind _ _ [_]); [by apply reads_byte|]); (eapply (reads_bind _ _ [_]); [by apply reads_byte|]);
      (eapply (reads_final _ _ [_]); [by apply reads_byte|done]).
  - eapply reads_string_info; [done..|]. apply convert_to_plp_short. intros Hv. apply Hm.
    in_cases Hi; in_cases Hv; cbn; tauto.
  - eapply reads_binary_info; [done..|]. apply convert_to_plp_short. intros Hv. apply Hm.
    in_cases Hi; in_cases Hv.
  - in_cases Hi; [apply (reads_string_info _ VL_BigVarChar _ 0xFFFF c)|apply (reads_string_info _ VL_NVarChar _ 0xFFFF c)];
      try done; cbn; tauto.
  - apply (reads_binary_info _ VL_BigVarBinary _ 0xFFFF); [done|cbn; tauto|split; cbn; lia|done].
  - apply (reads_plp_type_info _ PL_Udt); [done|done|cbn; tauto|].
    eapply reads_bind; [by apply reads_uint16|]. do 3 (eapply reads_bind; [by apply reads_b_varchar|]).
    rewrite <- (app_nil_r (us_varchar name)). eapply reads_bind; [by apply reads_us_varchar|].
    unfold as_u16. rewrite Z.mod_small by done. apply reads_ret.
  - apply (reads_plp_type_info _ PL_Json); [done|done|cbn; tauto|]. apply reads_ret.
  - apply (reads_plp_type_info _ PL_Xml); [done|done|cbn; tauto|]. eapply (reads_bind _ _ [_] []); [by apply reads_byte|].
    cbv zeta. rewrite (proj2 (Z.eqb_neq _ _)) by done. apply reads_ret.
  - apply (reads_plp_type_info _ PL_Xml); [done|done|cbn; tauto|]. eapply (reads_bind _ _ [_]); [by apply reads_byte|].
    cbv zeta. cbn [Z.eqb Pos.eqb].
    do 2 (eapply reads_bind; [by apply (reads_bind_ret _ Some), reads_b_varchar|]).
    eapply (reads_final _ _ _ (Some coll)); [by apply reads_us_varchar|done].
Qed.
End reading.

(** ** COLMETADATA on the wire *)

Definition opt_varchar (o : option str) : bytes :=
  match o with Some s => us_varchar s | None => le_bytes 2 LENGTH_NULL end.
Definition opt_long (o : option str) : Prop := match o with Some s => long_str s | None => True end.

Definition name_fields (mp : MultiPartName) : list (option str) :=
  [mp_server_name mp; mp_catalog_name mp; mp_schema_name mp; Some (mp_table_name mp)].
Definition has_table_name (t : TdsDataType) : bool :=
  match t with DT_Text | DT_NText | DT_Image => true | _ => false end.

(** The table a text or image column belongs to: its last [k] name parts. *)
Inductive name_layout (t : TdsDataType) : option MultiPartName -> bytes -> Prop :=
  | name_absent : has_table_name t = false -> name_layout t None []
  | name_empty : has_table_name t = true -> name_layout t None [byte_of 0]
  | name_given k mp :
      has_table_name t = true -> (1 <= k <= 4)%nat -> Forall opt_long (name_fields mp) ->
      Forall (eq None) (take (4 - k) (name_fields mp)) ->
      name_layout t (Some mp) (byte_of (Z.of_nat k) :: concat (opt_varchar <$> drop (4 - k) (name_fields mp))).

Inductive crypto_layout : CryptoMetadata -> bytes -> Prop :=
  | crypto_lay c user_type tib :
      in_unsigned 16 (cek_table_ordinal c) -> in_unsigned 32 user_type ->
      type_info_layout (base_type_info c) tib -> tds_type (base_type_info c) = base_data_type c ->
      0 <= cipher_algorithm_id c < 256 -> 0 <= encryption_type c < 256 -> 0 <= normalization_rule_version c < 256 ->
      match cipher_algorithm_name c with
      | Some name => cipher_algorithm_id c = CUSTOM_CIPHER_ALGORITHM_ID /\ short_str name
      | None => cipher_algorithm_id c <> CUSTOM_CIPHER_ALGORITHM_ID
      end ->
      crypto_layout c
        (le_bytes 2 (cek_table_ordinal c) ++ le_bytes 4 user_type ++ [byte_of (TdsDataType_u8 (base_data_type c))] ++
         tib ++ [byte_of (cipher_algorithm_id c)] ++
         match cipher_algorithm_name c with Some name => b_varchar name | None => [] end ++
         [byte_of (encryption_type c)] ++ [byte_of (normalization_rule_version c)]).

Inductive column_layout (encrypted : bool) : ColumnMetadata -> bytes -> Prop :=
  | column_lay m tib nb cb :
      in_unsigned 32 (user_type m) -> in_unsigned 16 (cm_flags m) ->
      type_info_layout (type_info m) tib -> tds_type (type_info m) = data_type m ->
      name_layout (data_type m) (multi_part_name m) nb -> short_str (column_name m) ->
      match crypto_metadata m with
      | Some c => encrypted && is_encrypted m = true /\ crypto_layout c cb
      | None => encrypted && is_encrypted m = false /\ cb = []
      end ->
      column_layout encrypted m
        (le_bytes 4 (user_type m) ++ le_bytes 2 (cm_flags m) ++ [byte_of (TdsDataType_u8 (data_type m))] ++
         tib ++ nb ++ cb ++ b_varchar (column_name m)).

Definition encode_cek_value (v : EncryptedCekValue) : bytes :=
  le_bytes 2 (Z.of_nat (length (encrypted_key v))) ++ encrypted_key v ++ b_varchar (key_store_name v) ++
  us_varchar (key_path v) ++ b_varchar (algorithm_name v).
Definition cek_value_wf (v : EncryptedCekValue) : Prop :=
  Z.of_nat (length (encrypted_key v)) < 65536 /\ short_str (key_store_name v) /\ long_str (key_path v) /\
  short_str (algorithm_name v).
Definition encode_cek_entry (e : CekTableEntry) : bytes :=
  le_bytes 4 (database_id e) ++ le_bytes 4 (cek_id e) ++ le_bytes 4 (cek_version e) ++ cek_md_version e ++
  [byte_of (Z.of_nat (length (encrypted_cek_values e)))] ++ concat (encode_cek_value <$> encrypted_cek_values e).
Definition cek_entry_wf (e : CekTableEntry) : Prop :=
  in_signed 32 (database_id e) /\ in_signed 32 (cek_id e) /\ in_signed 32 (cek_version e) /\
  length (cek_md_version e) = 8%nat /\ (length (encrypted_cek_values e) < 256)%nat /\
  Forall cek_value_wf (encrypted_cek_values e).
Definition encode_cek_table (es : list CekTableEntry) : bytes :=
  le_bytes 2 (Z.of_nat (length es)) ++ concat (encode_cek_entry <$> es).

Inductive col_metadata_layout (encrypted : bool) : ColMetadataToken -> bytes -> Prop :=
  | no_metadata : col_metadata_layout encrypted ColMetadataToken_default (le_bytes 2 0xFFFF)
  | metadata_of cs es bss :
      Z.of_nat (length cs) < 0xFFFF -> Z.of_nat (length es) < 65536 -> Forall cek_entry_wf es ->
      (encrypted = false -> es = []) -> Forall2 (column_layout encrypted) cs bss ->
      col_metadata_layout encrypted
        {| column_count := Z.of_nat (length cs); cols := cs; cek_table := es |}
        (le_bytes 2 (Z.of_nat (length cs)) ++ (if encrypted then encode_cek_table es else []) ++ concat bss).

Section token.
Context {R : Type} {delivers : R -> bytes -> Prop} `{laws : PacketReaderLaws R delivers}.

Lemma reads_repeat2 {A} (m : M R A) xs bss :
  Forall2 (fun x bs => reads delivers m bs x) xs bss ->
  reads delivers (repeat_read (length xs) m) (concat bss) xs.
Proof.
  induction 1 as [|x bs xs bss Hx _ IH]; cbn [repeat_read length concat]; [apply reads_ret|].
  eapply reads_bind; [done|]. by apply (reads_final _ (cons x)) with xs.
Qed.

(** A name with its length before it, as the encryption metadata have it. *)
Lemma reads_counted_name {A} s (k : str -> M R A) bs a :
  short_str s -> reads delivers (k s) bs a ->
  reads delivers (n <- read_byte ;; s <- read_unicode (Z.to_nat n) ;; k s) (b_varchar s ++ bs) a.
Proof.
  intros [Hs Hl] Hk. unfold b_varchar. rewrite <- app_comm_cons. eapply (reads_bind _ _ [_]); [apply reads_byte; lia|].
  eapply reads_bind; [|exact Hk]. apply reads_unicode_bytes; [done|lia].
Qed.

Lemma reads_counted_path {A} s (k : str -> M R A) bs a :
  long_str s -> reads delivers (k s) bs a ->
  reads delivers (n <- read_uint16 ;; s <- read_unicode (Z.to_nat n) ;; k s) (us_varchar s ++ bs) a.
Proof.
  intros [Hs Hl] Hk. unfold us_varchar. rewrite <- app_assoc. eapply reads_bind; [apply reads_uint16; split; lia|].
  eapply reads_bind; [|exact Hk]. apply reads_unicode_bytes; [done|lia].
Qed.

Lemma reads_cek_value v : cek_value_wf v -> reads delivers parse_cek_value (encode_cek_value v) v.
Proof.
  intros (Hk & Hn & Hp & Ha). unfold parse_cek_value, encode_cek_value.
  eapply reads_bind; [apply reads_uint16; split; lia|]. eapply reads_bind; [apply reads_bytes; lia|].
  apply reads_counted_name; [done|]. apply reads_counted_path; [done|].
  rewrite <- (app_nil_r (b_varchar (algorithm_name v))). apply reads_counted_name; [done|].
  destruct v; apply reads_ret.
Qed.

Lemma reads_cek_entry e : cek_entry_wf e -> reads delivers parse_cek_table_entry (encode_cek_entry e) e.
Proof.
  intros (H1 & H2 & H3 & H4 & H5 & H6). unfold parse_cek_table_entry, encode_cek_entry.
  do 3 (eapply reads_bind; [by apply reads_int32|]). eapply reads_bind; [by apply reads_bytes|].
  eapply (reads_bind _ _ [_]); [apply reads_byte; lia|]. rewrite Nat2Z.id.
  eapply (reads_final _ _ _ (encrypted_cek_values e)); [|by destruct e].
  apply reads_repeat. eapply list.Forall_impl; [exact H6|]. intros v. apply reads_cek_value.
Qed.

Lemma reads_cek_table es :
  Forall cek_entry_wf es -> Z.of_nat (length es) < 65536 -> reads delivers parse_cek_table (encode_cek_table es) es.
Proof.
  intros H Hl. unfold parse_cek_table. eapply reads_bind; [apply reads_uint16; split; lia|]. rewrite Nat2Z.id.
  apply reads_repeat. eapply list.Forall_impl; [exact H|]. intros e. apply reads_cek_entry.
Qed.

Lemma data_type_code ti bs :
  type_info_layout ti bs ->
  0 <= TdsDataType_u8 (tds_type ti) < 256 /\ TdsDataType_try_from (TdsDataType_u8 (tds_type ti)) = Ok (tds_type ti).
Proof.
  intros H. assert (tds_type ti <> DT_None) as Hn.
  { intros E. destruct H as [t fl Hf|t ? ? ? ? Hi| |t ? ? Ht| |t ? ? ? ? Ht|t ? ? ? Ht|t ? ? Ht|t ? ? Hi| | | | |];
      cbn in E; subst; try done; cbn in Hi; intuition congruence. }
  destruct (tds_type ti); try done; cbn; split; done || lia.
Qed.

(** A type code followed by the TYPE_INFO it announces. *)
Lemma reads_typed {A} ti tib (e : Error) (k : TdsDataType -> TypeInfo -> M R A) bs a :
  type_info_layout ti tib -> reads delivers (k (tds_type ti) ti) bs a ->
  reads delivers (raw <- read_byte ;;
                  t <- lift (match TdsDataType_try_from raw with Ok t => Ok t | _ => Err e end) ;;
                  ti <- read_type_info t ;; k t ti)
    ([byte_of (TdsDataType_u8 (tds_type ti))] ++ tib ++ bs) a.
Proof.
  intros Ht Hk. destruct (data_type_code _ _ Ht) as [Hr Hc].
  eapply reads_bind; [by apply reads_byte|]. rewrite Hc.
  eapply (reads_bind _ _ []); [apply reads_ret|]. eapply reads_bind; [by apply reads_type_info|done].
Qed.

Lemma reads_crypto c bs : crypto_layout c bs -> reads delivers (parse_crypto_metadata true) bs c.
Proof.
  destruct 1 as [c ut tib Ho Hu Ht Hb Ha He Hr Hn]. unfold parse_crypto_metadata.
  eapply reads_bind; [by apply reads_uint16|]. eapply reads_bind; [by apply reads_uint32|].
  rewrite <- Hb. apply reads_typed; [done|]. eapply reads_bind; [by apply reads_byte|].
  assert (forall n, cipher_algorithm_name c = n ->
    reads delivers (e <- read_byte ;; v <- read_byte ;;
      ret {| cek_table_ordinal := cek_table_ordinal c; base_data_type := tds_type (base_type_info c);
             base_type_info := base_type_info c; cipher_algorithm_id := cipher_algorithm_id c;
             cipher_algorithm_name := n; encryption_type := e; normalization_rule_version := v |})
      ([byte_of (encryption_type c)] ++ [byte_of (normalization_rule_version c)]) c) as Hrest.
  { intros n <-. eapply reads_bind; [by apply reads_byte|].
    eapply reads_final; [by apply reads_byte|]. rewrite Hb. by destruct c. }
  destruct (cipher_algorithm_name c) as [name|] eqn:En.
  - destruct Hn as [Hid Hn]. rewrite (proj2 (Z.eqb_eq _ _)) by done. eapply (reads_bind _ _ _ _ (Some name)); [|by apply Hrest].
    rewrite <- (app_nil_r (b_varchar name)). apply reads_counted_name; [done|apply reads_ret].
  - rewrite (proj2 (Z.eqb_neq _ _)) by done. eapply (reads_bind _ _ [] _ None); [apply reads_ret|by apply Hrest].
Qed.

Lemma reads_opt_varchar o : opt_long o -> reads delivers read_varchar_u16_length (opt_varchar o) o.
Proof. destruct o; [apply reads_us_varchar|intros _; apply reads_varchar_u16_null]. Qed.

Lemma reads_name_part n mpt o {bs mp} :
  opt_long o ->
  reads delivers (read_name_parts n match S n with
        | 4%nat => mpt {{ mp_server_name := o }}
        | 3%nat => mpt {{ mp_catalog_name := o }}
        | 2%nat => mpt {{ mp_schema_name := o }}
        | 1%nat => mpt {{ mp_table_name := default [] o }}
        | _ => mpt
        end) bs mp ->
  reads delivers (read_name_parts (S n) mpt) (opt_varchar o ++ bs) mp.
Proof. intros Ho Hk. cbn [read_name_parts]. eapply reads_bind; [by apply reads_opt_varchar|exact Hk]. Qed.

Lemma reads_names k mp :
  (1 <= k <= 4)%nat -> Forall opt_long (name_fields mp) -> Forall (eq None) (take (4 - k) (name_fields mp)) ->
  reads delivers (read_name_parts k MultiPartName_default) (concat (opt_varchar <$> drop (4 - k) (name_fields mp))) mp.
Proof.
  intros Hk Ho Hn. destruct mp as [a b c d]. unfold name_fields in *. cbn in Ho.
  repeat match goal with H : Forall _ (_ :: _) |- _ => apply list.Forall_cons in H as [? H] end.
  assert (k = 1 \/ k = 2 \/ k = 3 \/ k = 4)%nat as [->|[->|[->| ->]]] by lia; cbn in Hn; cbn [Nat.sub drop];
    repeat match goal with H : Forall _ (_ :: _) |- _ => apply list.Forall_cons in H as [<- H] end;
    rewrite ?concat_fmap_cons; repeat (apply reads_name_part; [done|]); apply reads_ret.
Qed.

Lemma reads_multi_part_name t o bs : name_layout t o bs -> reads delivers (read_multi_part_name t) bs o.
Proof.
  destruct 1 as [Ht|Ht|k mp Ht Hk Ho Hn]; unfold read_multi_part_name.
  - destruct t; try done; apply reads_ret.
  - destruct t; try done; (eapply (reads_bind _ _ [_] []); [by apply reads_byte|]; apply reads_ret).
  - destruct t; try done; (eapply (reads_bind _ _ [_]); [apply reads_byte; lia|];
      rewrite (proj2 (Z.eqb_neq _ _)), Nat2Z.id by lia; by apply (reads_bind_ret _ Some), reads_names).
Qed.

Lemma reads_column_metadata b m bs : column_layout b m bs -> reads delivers (parse_column b) bs m.
Proof.
  destruct 1 as [m tib nb cb Hu Hf Ht Hd Hn Hs Hc]. unfold parse_column.
  eapply reads_bind; [by apply reads_uint32|]. eapply reads_bind; [by apply reads_uint16|].
  rewrite <- Hd. apply reads_typed; [done|]. rewrite Hd. eapply reads_bind; [by apply reads_multi_part_name|].
  eapply (reads_bind _ _ _ _ (crypto_metadata m)).
  - destruct (crypto_metadata m) as [c|]; destruct Hc as [He Hc].
    + unfold is_encrypted, has_flag in He. change FLAG_ENCRYPTED with 0x0800. rewrite He.
      apply andb_true_iff in He as [-> _]. by apply (reads_bind_ret _ Some), reads_crypto.
    + unfold is_encrypted, has_flag in He. change FLAG_ENCRYPTED with 0x0800. rewrite He. subst. apply reads_ret.
  - eapply reads_final; [by apply reads_b_varchar|]. by destruct m.
Qed.

Lemma reads_col_metadata b t bs : col_metadata_layout b t bs -> reads delivers (parse_col_metadata b) bs t.
Proof.
  destruct 1 as [|cs es bss Hl He Hes Hb Hcs]; unfold parse_col_metadata.
  { rewrite <- (app_nil_r (le_bytes _ _)). eapply reads_bind; [by apply reads_uint16|]. apply reads_ret. }
  eapply reads_bind; [apply reads_uint16; split; lia|]. rewrite (proj2 (Z.eqb_neq _ _)) by lia.
  eapply (reads_bind _ _ _ _ es).
  { destruct b; [by apply reads_cek_table|]. rewrite (Hb eq_refl). apply reads_ret. }
  rewrite Nat2Z.id. eapply (reads_final _ _ _ cs); [|done].
  apply reads_repeat2. eapply list.Forall2_impl; [exact Hcs|]. intros m x. apply reads_column_metadata.
Qed.
End token.

(** ** Properties *)

(** C30: A COLMETADATA token comes back from any law-abiding reader: the columns with their types of
    every length class, collations, table names and names, and under Always Encrypted the key table
    and each column's encryption metadata. *)
Theorem col_metadata_reads_back {R} {delivers : R -> bytes -> Prop} `{laws : PacketReaderLaws R delivers} encrypted t bs :
  col_metadata_layout encrypted t bs -> reads delivers (parse_col_metadata encrypted) bs t.
Proof. apply reads_col_metadata. Qed.

Definition id_column : ColumnMetadata :=
  {| user_type := 0; cm_flags := 9; data_type := DT_IntN; column_name := [105; 100];
     type_info := {| tds_type := DT_IntN; ti_length := 4; type_info_variant := VarLen VL_IntN 4 |};
     multi_part_name := None; crypto_metadata := None |}.
Definition xml_column : ColumnMetadata :=
  {| user_type := 0; cm_flags := 8; data_type := DT_Xml; column_name := [120];
     type_info := {| tds_type := DT_Xml; ti_length := 0xFFFF; type_info_variant := PartialLen PL_Xml None None
       (Some {| schema_present := 0; xml_db_name := None; owning_schema := None; xml_schema_collection := None |}) None |};
     multi_part_name := None; crypto_metadata := None |}.

Definition two_columns : ColMetadataToken :=
  {| column_count := 2; cols := [id_column; xml_column]; cek_table := [] |}.
Definition two_columns_bytes : bytes :=
  byte_of <$> [2; 0; 0; 0; 0; 0; 9; 0; 0x26; 4; 2; 105; 0; 100; 0; 0; 0; 0; 0; 8; 0; 0xF1; 0; 1; 120; 0].

Lemma id_column_layout : column_layout false id_column (byte_of <$> [0; 0; 0; 0; 9; 0; 0x26; 4; 2; 105; 0; 100; 0]).
Proof.
  apply (column_lay false id_column [byte_of 4] [] []); try done.
  - apply (lay_small DT_IntN VL_IntN 4); [done|cbn; tauto|done].
  - by apply name_absent.
  - split; [by repeat constructor|vm_compute; done].
Qed.

Lemma xml_column_layout : column_layout false xml_column (byte_of <$> [0; 0; 0; 0; 8; 0; 0xF1; 0; 1; 120; 0]).
Proof.
  apply (column_lay false xml_column [byte_of 0] [] []); try done.
  - by apply (lay_xml 0).
  - by apply name_absent.
  - split; [by repeat constructor|vm_compute; done].
Qed.

Lemma col_metadata_reads_back_witness :
  reads list_delivers (parse_col_metadata (R := ByteReader) false) two_columns_bytes two_columns /\
  parse_col_metadata (R := ByteReader) false two_columns_bytes = (Ok two_columns, []).
Proof.
  split; [|vm_compute; reflexivity]. apply col_metadata_reads_back.
  replace two_columns_bytes with (le_bytes 2 (Z.of_nat (length [id_column; xml_column])) ++ [] ++ concat
    [byte_of <$> [0; 0; 0; 0; 9; 0; 0x26; 4; 2; 105; 0; 100; 0]; byte_of <$> [0; 0; 0; 0; 8; 0; 0xF1; 0; 1; 120; 0]])
    by (vm_compute; reflexivity).
  apply (metadata_of false [id_column; xml_column] []
    [byte_of <$> [0; 0; 0; 0; 9; 0; 0x26; 4; 2; 105; 0; 100; 0]; byte_of <$> [0; 0; 0; 0; 8; 0; 0xF1; 0; 1; 120; 0]]);
    try done.
  repeat constructor; [apply id_column_layout|apply xml_column_layout].
Defined.
