(* ===== verification/BufferedDecoder.v ===== *)
(** * Decoding from buffered bytes (src/mssql-tds/src/datatypes/decoder.rs)

    [try_decode_buffered] decodes a value that is wholly in the buffer without waiting for the
    connection.  A miss consumes nothing and leaves the value to [decode]. *)

From stdpp Require Import strings.
From S2P Require Import Prelude Core Unicode PacketReader Tokens DataTypes ColMetadata Values Plp Decoder.

Record BufferedSlice := { slice_bytes : bytes; slice_position : nat }.

#[export] Instance BufferedSlice_eta : Eta BufferedSlice := fun r =>
  Build_BufferedSlice (slice_bytes r) (slice_position r).

Definition BufferedSlice_new (bs : bytes) : BufferedSlice := {| slice_bytes := bs; slice_position := 0 |}.

(** An attempt: an error, a miss ([return Ok(None)]), or a value and the position behind it. *)
Definition B (A : Type) : Type := BufferedSlice -> TdsResult (option (A * BufferedSlice)).

Definition bret {A} (a : A) : B A := fun s => Ok (Some (a, s)).
Definition miss {A} : B A := fun _ => Ok None.
Definition blift {A} (r : TdsResult A) : B A := fun s => let? a := r in Ok (Some (a, s)).
Definition bthrow {A} (e : Error) : B A := fun _ => Err e.
Definition bbind {A C} (m : B A) (k : A -> B C) : B C := fun s =>
  match m s with
  | Ok (Some (a, s')) => k a s'
  | Ok None => Ok None
  | Err e => Err e
  | Panic w => Panic w
  | OutOfFuel => OutOfFuel
  end.

Notation "x <-? m ;; k" := (bbind m (fun x => k))
  (at level 20, m at level 99, k at level 200) : tds_scope.

(** [take], [take_slice] and [take_bytes]: the next [n] bytes, if they are all there. *)
Definition take_slice (n : nat) : B bytes := fun s =>
  match get_at (slice_bytes s) (slice_position s) n with
  | Some value => Ok (Some (value, s {{ slice_position ::= fun p => (p + n)%nat }}))
  | None => Ok None
  end.

Definition take_as {A} (n : nat) (f : bytes -> A) : B A := x <-? take_slice n ;; bret (f x).
Definition b_byte : B Z := take_as 1 of_le.
Definition b_i16 : B Z := take_as 2 of_le_signed.
Definition b_u16 : B Z := take_as 2 of_le.
Definition b_u24 : B Z := take_as 3 of_le.
Definition b_i32 : B Z := take_as 4 of_le_signed.
Definition b_u32 : B Z := take_as 4 of_le.
Definition b_u40 : B Z := take_as 5 of_le.
Definition b_i64 : B Z := take_as 8 of_le_signed.
Definition b_f32 : B Z := take_as 4 of_le.
Definition b_f64 : B Z := take_as 8 of_le.

Section buffered_decoder.

Definition buffered_money : B ColumnValues :=
  msb_part <-? b_i32 ;; lsb_part <-? b_i32 ;; bret (Money {| lsb_part := lsb_part; msb_part := msb_part |}).

Definition buffered_small_datetime : B ColumnValues :=
  days <-? b_u16 ;; time <-? b_u16 ;; bret (SmallDateTime {| sdt_days := days; sdt_time := time |}).

Definition buffered_datetime : B ColumnValues :=
  days <-? b_i32 ;; time <-? b_u32 ;; bret (DateTime {| dt_days := days; dt_time := time |}).

(** The arm of TIME, DATETIME2 and DATETIMEOFFSET. *)
Definition buffered_time (metadata : ColumnMetadata) : B ColumnValues :=
  length <-? b_byte ;;
  if length =? 0 then bret Null
  else
    match get_scale metadata with
    | None => bthrow (ImplementationError "type should have scale")
    | Some scale =>
        let trailing := match data_type metadata with
                        | DT_TimeN => Some 0
                        | DT_DateTime2N => Some 3
                        | DT_DateTimeOffsetN => Some 5
                        | _ => None
                        end in
        match trailing with
        | None => bthrow (ImplementationError "unexpected buffered time type")
        | Some trailing =>
            if length <? trailing then bthrow (ProtocolError "Invalid length")
            else
              scaled <-? match length - trailing with
                         | 3 => b_u24
                         | 4 => b_u32
                         | _ => b_u40
                         end ;;
              ticks <-? blift (scale_time_value scaled scale) ;;
              let time := {| time_nanoseconds := ticks; time_scale := scale |} in
              match data_type metadata with
              | DT_TimeN => bret (Time time)
              | DT_DateTime2N => days <-? b_u24 ;; bret (DateTime2 {| dt2_days := days; dt2_time := time |})
              | DT_DateTimeOffsetN =>
                  days <-? b_u24 ;;
                  offset <-? b_i16 ;;
                  bret (DateTimeOffset {| dto_datetime2 := {| dt2_days := days; dt2_time := time |};
                                          dto_offset := offset |})
              | _ => bthrow (ImplementationError "unexpected buffered time type")
              end
        end
    end.

(** The arm of DECIMAL and NUMERIC. *)
Definition buffered_decimal (metadata : ColumnMetadata) : B ColumnValues :=
  length <-? b_byte ;;
  match type_info_variant (type_info metadata) with
  | VarLenPrecisionScale _ _ precision scale =>
      if negb (decimal_metadata_is_valid precision scale)
      then bthrow (ProtocolError "Invalid decimal precision / scale")
      else if length =? 0 then bret Null
      else
        sign <-? b_byte ;;
        let magnitude_len := length - 1 in
        if MAX_DECIMAL_INT_PARTS <? (magnitude_len + 3) / 4
        then bthrow (ProtocolError "Decimal int parts exceeds maximum allowed")
        else
          source <-? take_slice (Z.to_nat magnitude_len) ;;
          let value := DecimalParts_new (sign =? 1) precision scale (decimal_magnitude source) in
          if decide (data_type metadata = DT_DecimalN) then bret (Decimal value) else bret (Numeric value)
  | _ => bthrow (ProtocolError "Invalid type info variant for Decimal/Numeric")
  end.

Definition decode_buffered (metadata : ColumnMetadata) : B ColumnValues :=
  match data_type metadata with
  | DT_Int1 => value <-? b_byte ;; bret (TinyInt value)
  | DT_Int2 => value <-? b_i16 ;; bret (SmallInt value)
  | DT_Int4 => value <-? b_i32 ;; bret (Int value)
  | DT_Int8 => value <-? b_i64 ;; bret (BigInt value)
  | DT_Flt4 => value <-? b_f32 ;; bret (Real value)
  | DT_Flt8 => value <-? b_f64 ;; bret (Float value)
  | DT_Bit => value <-? b_byte ;; bret (Bit (value =? 1))
  | DT_IntN =>
      length <-? b_byte ;;
      match length with
      | 0 => bret Null
      | 1 => value <-? b_byte ;; bret (TinyInt value)
      | 2 => value <-? b_i16 ;; bret (SmallInt value)
      | 4 => value <-? b_i32 ;; bret (Int value)
      | 8 => value <-? b_i64 ;; bret (BigInt value)
      | _ => bthrow (ProtocolError "Invalid IntN length")
      end
  | DT_FltN =>
      length <-? b_byte ;;
      match length with
      | 0 => bret Null
      | 4 => value <-? b_f32 ;; bret (Real value)
      | _ => value <-? b_f64 ;; bret (Float value)
      end
  | DT_BitN =>
      length <-? b_byte ;;
      match length with
      | 0 => bret Null
      | _ => value <-? b_byte ;; bret (Bit (value =? 1))
      end
  | DT_Money4 => value <-? b_i32 ;; bret (SmallMoney {| int_val := value |})
  | DT_Money => buffered_money
  | DT_MoneyN =>
      length <-? b_byte ;;
      match length with
      | 0 => bret Null
      | 4 => value <-? b_i32 ;; bret (SmallMoney {| int_val := value |})
      | 8 => buffered_money
      | _ => bthrow (ProtocolError "Invalid MoneyN length")
      end
  | DT_DateTim4 => buffered_small_datetime
  | DT_DateTime => buffered_datetime
  | DT_DateTimeN =>
      length <-? b_byte ;;
      match length with
      | 0 => bret Null
      | 4 => buffered_small_datetime
      | _ => buffered_datetime
      end
  | DT_DateN =>
      length <-? b_byte ;;
      match length with
      | 0 => bret Null
      | _ => value <-? b_u24 ;; bret (Date (SqlDate_unchecked_create value))
      end
  | DT_TimeN | DT_DateTime2N | DT_DateTimeOffsetN => buffered_time metadata
  | DT_Guid =>
      length <-? b_byte ;;
      if length =? 0 then bret Null
      else if negb (length =? 16) then bthrow (ProtocolError "Invalid GUID length")
      else bs <-? take_slice 16 ;; bret (Uuid bs)
  | DT_DecimalN | DT_NumericN => buffered_decimal metadata
  | DT_NChar | DT_NVarChar | DT_BigChar | DT_BigVarChar | DT_Char | DT_VarChar =>
      length <-? b_u16 ;;
      if length =? 0xFFFF then bret Null
      else
        bs <-? take_slice (Z.to_nat length) ;;
        encoding <-? blift (get_encoding_type metadata) ;;
        bret (CString (SqlString_new bs encoding))
  | DT_BigBinary | DT_BigVarBinary =>
      length <-? b_u16 ;;
      if length =? 0xFFFF then bret Null
      else bs <-? take_slice (Z.to_nat length) ;; bret (CBytes bs)
  | _ => miss
  end.

Definition try_decode_buffered (bs : bytes) (metadata : ColumnMetadata) : TdsResult (option (ColumnValues * nat)) :=
  if is_plp metadata || match crypto_metadata metadata with Some _ => true | None => false end then Ok None
  else
    let? o := decode_buffered metadata (BufferedSlice_new bs) in
    Ok (match o with Some (value, s) => Some (value, slice_position s) | None => None end).

(** ** [try_decode_buffered_variant] *)

(** A base type of fixed length, which must fill the rest of the value. *)
Definition buffered_fixed_variant (base : TdsDataType) (data_length : Z) : B ColumnValues := fun s =>
  match FixedLengthTypes_try_from base with
  | Ok fixed_type =>
      let? o := try_decode_buffered (drop (slice_position s) (slice_bytes s))
                  (variant_metadata base data_length fixed_type) in
      match o with
      | Some (value, used) =>
          if negb (Z.of_nat used =? data_length) then Ok None
          else Ok (Some (value, s {{ slice_position ::= fun p => (p + used)%nat }}))
      | None => Ok None
      end
  | _ => Ok None
  end.

Definition buffered_string_variant (base : TdsDataType) (data_length : Z) : B ColumnValues :=
  collation_bytes <-? take_slice 5 ;;
  _ <-? b_u16 ;;
  value_bytes <-? take_slice (Z.to_nat data_length) ;;
  encoding <-? match base with
               | DT_NVarChar | DT_NChar => bret Utf16
               | _ =>
                   collation <-? blift (SqlCollation_try_from collation_bytes) ;;
                   bret (if utf8 collation then Utf8 else LcidBased collation)
               end ;;
  bret (CString (SqlString_new value_bytes encoding)).

(** The payload of a variant of [length] bytes. *)
Definition buffered_variant_payload (length : Z) : B (TdsDataType * ColumnValues) :=
  base_byte <-? b_byte ;;
  base <-? blift (TdsDataType_try_from base_byte) ;;
  property_bytes <-? b_byte ;;
  if length <? 2 + property_bytes then bthrow variant_underflow
  else
    let data_length := length - (2 + property_bytes) in
    value <-? match property_bytes with
              | 0 => buffered_fixed_variant base data_length
              | 7 =>
                  match base with
                  | DT_BigVarChar | DT_BigChar | DT_NVarChar | DT_NChar => buffered_string_variant base data_length
                  | _ => miss
                  end
              | _ => miss
              end ;;
    bret (base, value).

Definition try_decode_buffered_variant (bs : bytes)
    : TdsResult (option (option TdsDataType * ColumnValues * nat)) :=
  let? o := b_u32 (BufferedSlice_new bs) in
  match o with
  | None => Ok None
  | Some (length, outer) =>
      if length =? 0 then Ok (Some (None, Null, slice_position outer))
      else
        let? o := take_slice (Z.to_nat length) outer in
        match o with
        | None => Ok None
        | Some (payload, outer) =>
            let? o := buffered_variant_payload length (BufferedSlice_new payload) in
            match o with
            | Some (base, value, reader) =>
                if decide (slice_position reader = List.length payload)
                then Ok (Some (Some base, value, slice_position outer))
                else Ok None
            | None => Ok None
            end
        end
  end.
End buffered_decoder.
