(* ===== verification/BufferedDecoderLaws.v ===== *)
(** * Buffered decoding is decoding

    What [try_decode_buffered] returns, [decode] reads from any law-abiding reader with the same
    bytes, using up as many of them; where it fails, so does [decode]. *)

From stdpp Require Import strings.
From S2P Require Import Prelude Core Unicode PacketReader ReaderLaws Tokens TokenParsers TokenLaws TokenSafety.
From S2P Require Import DataTypes ColMetadata Values Plp PlpLaws Decoder DecoderLaws BufferedDecoder.

(** The bytes behind the position. *)
Definition rest (s : BufferedSlice) : bytes := drop (slice_position s) (slice_bytes s).

(** [s'] is [s] after [used] more bytes. *)
Definition moved (s s' : BufferedSlice) (used : bytes) : Prop :=
  slice_bytes s' = slice_bytes s /\ slice_position s' = (slice_position s + length used)%nat /\ rest s = used ++ rest s'.

Lemma moved_refl s : moved s s [].
Proof. split_and!; [done|cbn; lia|done]. Qed.

Lemma moved_trans s1 s2 s3 a b : moved s1 s2 a -> moved s2 s3 b -> moved s1 s3 (a ++ b).
Proof.
  intros (H1 & H2 & H3) (H4 & H5 & H6). split_and!; [congruence|len_simpl; lia|]. by rewrite H3, H6, app_assoc.
Qed.

Section agrees.
Context {R : Type} {delivers : R -> bytes -> Prop} `{laws : PacketReaderLaws R delivers}.

(** [m] ends with an error on a reader that has [bs] next. *)
Definition fails {A} (m : M R A) (bs : bytes) : Prop :=
  forall r more, delivers r (bs ++ more) -> exists e r', m r = (Err e, r').

(** The attempt [b] and the read [m]: a value is the value [m] reads from the same bytes, an error
    is an error of [m]'s, and a miss says nothing. *)
Definition agrees {A} (b : B A) (m : M R A) : Prop := forall s,
  match b s with
  | Ok (Some (a, s')) => exists used, moved s s' used /\ reads delivers m used a
  | Ok None => True
  | Err _ => fails m (rest s)
  | Panic _ | OutOfFuel => False
  end.

Lemma agrees_ret {A} (a : A) : agrees (bret a) (ret a).
Proof. intros s. exists []. split; [apply moved_refl|apply reads_ret]. Qed.

Lemma agrees_miss {A} (m : M R A) : agrees miss m.
Proof. done. Qed.

Lemma agrees_throw {A} e e' : agrees (A := A) (bthrow e) (throw e').
Proof. intros s r more _. by exists e', r. Qed.

(** What an attempt can return. *)
Definition yields {A} (b : B A) (P : A -> Prop) : Prop := forall s a s', b s = Ok (Some (a, s')) -> P a.

Lemma agrees_bind_yields {A C} (P : A -> Prop) (b : B A) (k : A -> B C) (m : M R A) (f : A -> M R C) :
  agrees b m -> yields b P -> (forall a, P a -> agrees (k a) (f a)) -> agrees (bbind b k) (bind m f).
Proof.
  intros Hb HP Hk s. specialize (Hb s). unfold bbind. destruct (b s) as [[[a s1]|]|e|w|] eqn:E; try done.
  - destruct Hb as (used & Hm & Hr). specialize (Hk a (HP _ _ _ E) s1). destruct (k a s1) as [[[c s2]|]|e|w|]; try done.
    + destruct Hk as (used2 & Hm2 & Hr2). exists (used ++ used2). split; [by eapply moved_trans|by eapply reads_bind].
    + intros r more Hd. destruct Hm as (_ & _ & Hm). rewrite Hm, <- app_assoc in Hd.
      destruct (Hr r _ Hd) as (r1 & E1 & Hd1). destruct (Hk r1 more Hd1) as (e' & r2 & E2).
      exists e', r2. by rewrite (bind_ok _ _ _ _ _ E1).
  - intros r more Hd. destruct (Hb r more Hd) as (e' & r1 & E1). exists e', r1. by rewrite (bind_err _ _ _ _ _ E1).
Qed.

Lemma agrees_bind {A C} (b : B A) (k : A -> B C) (m : M R A) (f : A -> M R C) :
  agrees b m -> (forall a, agrees (k a) (f a)) -> agrees (bbind b k) (bind m f).
Proof. intros Hb Hk. by apply (agrees_bind_yields (fun _ => True)). Qed.

(** A pure step on one side or on both. *)
Lemma agrees_blift {A C} (x : TdsResult A) a (k : A -> B C) m : x = Ok a -> agrees (k a) m -> agrees (bbind (blift x) k) m.
Proof. intros -> Hk. exact Hk. Qed.

Lemma agrees_lift {A C} (x : TdsResult A) a (b : B C) (f : A -> M R C) :
  x = Ok a -> agrees b (f a) -> agrees b (bind (lift x) f).
Proof. intros -> Hk. exact Hk. Qed.

Lemma agrees_lift_both {A C} (x : TdsResult A) (k : A -> B C) (f : A -> M R C) :
  completes x -> (forall a, x = Ok a -> agrees (k a) (f a)) -> agrees (bbind (blift x) k) (bind (lift x) f).
Proof.
  intros Hx Hk. destruct x as [a|e| |]; try done; [by apply (Hk a)|]. intros s r more _. by exists e, r.
Qed.

Lemma agrees_slice n : agrees (take_slice n) (read_bytes n).
Proof.
  intros s. unfold take_slice. destruct (get_at _ _ n) as [x|] eqn:E; [|done].
  apply get_at_some in E as (Hl & Hle & Hd). exists x. split; [|by apply reads_bytes].
  split_and!; [done|cbn; lia|exact Hd].
Qed.

Lemma agrees_fixed {A} n (f : bytes -> A) m : reads_fixed delivers m n f -> agrees (take_as n f) m.
Proof.
  intros Hm s. unfold take_as, bbind, take_slice. destruct (get_at _ _ n) as [x|] eqn:E; [|done].
  apply get_at_some in E as (Hl & Hle & Hd). exists x. split; [|by apply Hm]. split_and!; [done|cbn; lia|exact Hd].
Qed.

Lemma agrees_byte : agrees b_byte sync_byte.
Proof. apply agrees_fixed, sync_first_fixed; [apply law_try_byte|apply law_byte]. Qed.
Lemma agrees_i16 : agrees b_i16 sync_int16.
Proof. apply agrees_fixed, sync_first_fixed; [apply law_try_int16|apply law_int16]. Qed.
Lemma agrees_u16 : agrees b_u16 sync_uint16.
Proof. apply agrees_fixed, sync_first_fixed; [apply law_try_uint16|apply law_uint16]. Qed.
Lemma agrees_u24 : agrees b_u24 sync_uint24.
Proof. apply agrees_fixed, sync_first_fixed; [apply law_try_uint24|apply law_uint24]. Qed.
Lemma agrees_i32 : agrees b_i32 sync_int32.
Proof. apply agrees_fixed, sync_first_fixed; [apply law_try_int32|apply law_int32]. Qed.
Lemma agrees_u32 : agrees b_u32 sync_uint32.
Proof. apply agrees_fixed, sync_first_fixed; [apply law_try_uint32|apply law_uint32]. Qed.
Lemma agrees_u40 : agrees b_u40 sync_uint40.
Proof. apply agrees_fixed, sync_first_fixed; [apply law_try_uint40|apply law_uint40]. Qed.
Lemma agrees_i64 : agrees b_i64 sync_int64.
Proof. apply agrees_fixed, sync_first_fixed; [apply law_try_int64|apply law_int64]. Qed.
Lemma agrees_f32 : agrees b_f32 sync_float32.
Proof. apply agrees_fixed, sync_first_fixed; [apply law_try_float32|apply law_float32]. Qed.
Lemma agrees_f64 : agrees b_f64 sync_float64.
Proof. apply agrees_fixed, sync_first_fixed; [apply law_try_float64|apply law_float64]. Qed.

(** The read side up to the monad laws. *)
Lemma agrees_ext {A} (b : B A) (m m' : M R A) : (forall r, m r = m' r) -> agrees b m -> agrees b m'.
Proof.
  intros E H s. specialize (H s). destruct (b s) as [[[a s']|]|e|w|]; try done.
  - destruct H as (used & Hm & Hr). exists used. split; [done|]. intros r more Hd. rewrite <- E. by apply Hr.
  - intros r more Hd. rewrite <- E. by apply (H r more).
Qed.

Lemma agrees_assoc {A C D} (b : B D) (m : M R A) (f : A -> M R C) (g : C -> M R D) :
  agrees b (x <- m ;; y <- f x ;; g y) -> agrees b (y <- (x <- m ;; f x) ;; g y).
Proof. apply agrees_ext. intros r. unfold bind. by destruct (m r) as [[] ?]. Qed.

Lemma agrees_ret_bind {A C} (b : B C) a (f : A -> M R C) : agrees b (f a) -> agrees b (bind (ret a) f).
Proof. exact id. Qed.

Lemma agrees_throw_bind {A C} e e' (f : A -> M R C) : agrees (bthrow e) (bind (throw e') f).
Proof. intros s r more _. by exists e', r. Qed.

Lemma take_as_yields {A} n (f : bytes -> A) : yields (take_as n f) (fun a => exists bs, length bs = n /\ a = f bs).
Proof.
  intros s a s'. unfold take_as, bbind, take_slice. destruct (get_at _ _ n) as [x|] eqn:E; [|done].
  intros [= <- _]. exists x. by apply get_at_some in E as [? _].
Qed.

Lemma take_unsigned_yields n : yields (take_as n of_le) (in_unsigned (8 * Z.of_nat n)).
Proof. intros s a s' H. destruct (take_as_yields _ _ _ _ _ H) as (bs & <- & ->). apply of_le_range. Qed.
End agrees.
Arguments agrees {R} delivers {A} b m.

Create HintDb agrees discriminated.
#[export] Hint Resolve agrees_ret agrees_miss agrees_throw agrees_slice agrees_byte agrees_i16 agrees_u16 agrees_u24
  agrees_i32 agrees_u32 agrees_u40 agrees_i64 agrees_f32 agrees_f64 : agrees.

(** Steps through both decoders together. *)
Ltac agree :=
  repeat first [ solve [eauto with agrees]
               | match goal with
                 | |- agrees _ _ (bind (bind _ _) _) => apply agrees_assoc
                 | |- agrees _ _ (bind (ret _) _) => apply agrees_ret_bind
                 | |- agrees _ (bthrow _) (bind (throw _) _) => apply agrees_throw_bind
                 end
               | eapply agrees_bind; [solve [eauto with agrees]|intros ?]
               | progress (case_match; simplify_eq) ].

Section decoders.
Context {R : Type} {delivers : R -> bytes -> Prop} `{laws : PacketReaderLaws R delivers} `{half : HalfCrate}.

Lemma agrees_money : agrees delivers buffered_money (v <- read_money8 ;; ret (Money v)).
Proof. unfold buffered_money, read_money8. agree. Qed.

Lemma agrees_small_datetime : agrees delivers buffered_small_datetime (v <- read_small_datetime ;; ret (SmallDateTime v)).
Proof. unfold buffered_small_datetime, read_small_datetime. agree. Qed.

Lemma agrees_datetime : agrees delivers buffered_datetime (v <- read_datetime ;; ret (DateTime v)).
Proof. unfold buffered_datetime, read_datetime. agree. Qed.

Lemma agrees_decimal metadata :
  In (data_type metadata) [DT_DecimalN; DT_NumericN] ->
  agrees delivers (buffered_decimal metadata)
    (value <- read_decimal metadata ;;
     ret (of_option (if decide (data_type metadata = DT_DecimalN) then Decimal else Numeric) value)).
Proof.
  intros Ht. unfold buffered_decimal, read_decimal. apply agrees_assoc, agrees_bind; [eauto with agrees|]. intros length.
  destruct (type_info_variant _); try apply agrees_throw_bind. unfold read_decimal_data.
  destruct (negb _); [apply agrees_throw_bind|]. destruct (length =? 0); [apply agrees_ret|].
  apply agrees_assoc, agrees_bind; [eauto with agrees|]. intros sign. cbv zeta.
  destruct (_ <? _); [apply agrees_throw_bind|]. apply agrees_assoc, agrees_bind; [eauto with agrees|]. intros source.
  destruct (decide _); apply agrees_ret.
Qed.

Lemma agrees_time_part n scale {C} (k : SqlTime -> B C) (f : SqlTime -> M R C) :
  0 <= scale -> (forall t, agrees delivers (k t) (f t)) ->
  agrees delivers
    (scaled <-? match n with 3 => b_u24 | 4 => b_u32 | _ => b_u40 end ;;
     ticks <-? blift (scale_time_value scaled scale) ;;
     k {| time_nanoseconds := ticks; time_scale := scale |}) (bind (read_time n scale) f).
Proof.
  intros Hs Hk. unfold read_time. apply agrees_assoc, (agrees_bind_yields (in_unsigned 40)).
  - repeat case_match; eauto with agrees.
  - intros s a s'. repeat case_match; intros H'%take_unsigned_yields; unfold in_unsigned in *; lia.
  - intros v Hv. destruct (scale_time_value_in_range v scale Hv Hs) as (ticks & E & _). rewrite E.
    apply agrees_blift with ticks; [done|]. apply Hk.
Qed.

Lemma match_zero {A} n (a b : A) : match n with 0 => a | _ => b end = if n =? 0 then a else b.
Proof. by destruct n. Qed.

(** The way to the time: a length that is not zero, and the scale. *)
Lemma agrees_timed metadata what trailing (k : Z -> Z -> B ColumnValues) (f : Z -> Z -> M R ColumnValues) :
  (forall scale, get_scale metadata = Some scale -> 0 <= scale) ->
  (forall length scale, 0 <= length < 256 -> 0 <= scale -> length < trailing -> exists e, f length scale = throw e) ->
  (forall length scale, 0 <= length < 256 -> 0 <= scale -> trailing <= length ->
     agrees delivers (k length scale) (f length scale)) ->
  agrees delivers
    (length <-? b_byte ;;
     if length =? 0 then bret Null
     else match get_scale metadata with
          | None => bthrow (ImplementationError "type should have scale")
          | Some scale => if length <? trailing then bthrow (ProtocolError "Invalid length") else k length scale
          end)
    (length <- sync_byte ;;
     match length with 0 => ret Null | _ => scale <- scale_of metadata what ;; f length scale end).
Proof.
  intros Hs Hlow Hk. apply (agrees_bind_yields (in_unsigned 8)); [eauto with agrees|apply take_unsigned_yields|].
  intros length [Hl1 Hl2]. rewrite match_zero. destruct (length =? 0); [apply agrees_ret|]. unfold scale_of.
  destruct (get_scale metadata) as [scale|]; [|apply agrees_throw_bind]. specialize (Hs _ eq_refl).
  apply agrees_ret_bind. destruct (Z.ltb_spec length trailing) as [Hl|Hl]; [|by apply Hk].
  destruct (Hlow length scale) as [e ->]; [done..|]. apply agrees_throw.
Qed.

Lemma agrees_timen metadata :
  data_type metadata = DT_TimeN -> (forall scale, get_scale metadata = Some scale -> 0 <= scale) ->
  agrees delivers (buffered_time metadata)
    (length <- sync_byte ;;
     match length with
     | 0 => ret Null
     | _ => scale <- scale_of metadata "TimeN" ;; t <- read_time length scale ;; ret (Time t)
     end).
Proof.
  intros Ht Hs. unfold buffered_time. rewrite Ht. apply (agrees_timed metadata _ 0); [done|intros; lia|].
  intros length scale _ H0 _. rewrite Z.sub_0_r.
  apply (agrees_time_part length scale (fun t => bret (Time t))); [done|]. eauto with agrees.
Qed.

Lemma agrees_datetime2 metadata :
  data_type metadata = DT_DateTime2N -> (forall scale, get_scale metadata = Some scale -> 0 <= scale) ->
  agrees delivers (buffered_time metadata)
    (length <- sync_byte ;;
     match length with
     | 0 => ret Null
     | _ => scale <- scale_of metadata "DateTime2N" ;; read_datetime2 length scale
     end).
Proof.
  intros Ht Hs. unfold buffered_time. rewrite Ht. unfold read_datetime2, read_date. apply (agrees_timed metadata _ 3); [done|..].
  - intros length scale _ _ Hl. z_if. by eexists.
  - intros length scale _ H0 Hl. z_if.
    apply (agrees_time_part _ _ (fun t => days <-? b_u24 ;; bret (DateTime2 {| dt2_days := days; dt2_time := t |}))); [done|].
    intros t. agree.
Qed.

Lemma agrees_datetime_offset metadata :
  data_type metadata = DT_DateTimeOffsetN -> (forall scale, get_scale metadata = Some scale -> 0 <= scale) ->
  agrees delivers (buffered_time metadata)
    (length <- sync_byte ;;
     match length with
     | 0 => ret Null
     | _ => scale <- scale_of metadata "DateTimeOffsetN" ;; read_datetime_offset length scale
     end).
Proof.
  intros Ht Hs. unfold buffered_time. rewrite Ht. unfold read_datetime_offset, read_datetime2, read_date.
  apply (agrees_timed metadata _ 5); [done|..].
  - intros length scale _ _ Hl. destruct (Z.ltb_spec length 2); [by eexists|]. z_if. by eexists.
  - intros length scale _ H0 Hl. z_if. replace (length - 2 - 3) with (length - 5) by lia. apply agrees_assoc.
    apply (agrees_time_part _ _ (fun t => days <-? b_u24 ;; offset <-? b_i16 ;;
      bret (DateTimeOffset {| dto_datetime2 := {| dt2_days := days; dt2_time := t |}; dto_offset := offset |}))); [done|].
    intros t. agree.
Qed.

Lemma agrees_string fuel metadata :
  completes (get_encoding_type metadata) -> is_plp metadata = false -> is_long_len_type (data_type metadata) = false ->
  agrees delivers
    (length <-? b_u16 ;;
     if length =? 0xFFFF then bret Null
     else bs <-? take_slice (Z.to_nat length) ;; encoding <-? blift (get_encoding_type metadata) ;;
          bret (CString (SqlString_new bs encoding)))
    (decode_string fuel metadata).
Proof.
  intros Hc Hp Hl. unfold decode_string. rewrite Hp, Hl. destruct (get_encoding_type metadata) as [e|e| |] eqn:E; try done.
  - apply agrees_lift with e; [done|]. apply agrees_bind; [eauto with agrees|]. intros length.
    destruct (_ =? _); [apply agrees_ret|]. apply agrees_bind; [eauto with agrees|]. intros bs. apply agrees_ret.
  - unfold get_encoding_type in E. by repeat case_match.
Qed.

Lemma agrees_guid :
  agrees delivers
    (length <-? b_byte ;;
     if length =? 0 then bret Null
     else if negb (length =? 16) then bthrow (ProtocolError "Invalid GUID length")
     else bs <-? take_slice 16 ;; bret (Uuid bs))
    (length <- sync_byte ;; read_guid length).
Proof.
  apply (agrees_bind_yields (in_unsigned 8)); [eauto with agrees|apply take_unsigned_yields|]. intros length [Hl _].
  unfold read_guid. destruct (Z.eqb_spec length 0) as [->|Hn]; [apply agrees_ret|]. z_if.
  destruct (Z.eqb_spec length 16) as [->|]; cbn [negb]; [|apply agrees_throw].
  apply agrees_lift with tt; [done|]. agree.
Qed.

Lemma agrees_bitn :
  agrees delivers
    (length <-? b_byte ;; match length with 0 => bret Null | _ => value <-? b_byte ;; bret (Bit (value =? 1)) end)
    (byte_len <- sync_byte ;; if 0 <? byte_len then value <- sync_byte ;; ret (Bit (value =? 1)) else ret Null).
Proof.
  apply (agrees_bind_yields (in_unsigned 8)); [eauto with agrees|apply take_unsigned_yields|]. intros length [Hl _].
  rewrite match_zero. destruct (Z.eqb_spec length 0) as [->|Hn]; [apply agrees_ret|]. z_if. agree.
Qed.

Lemma agrees_short_binary what :
  agrees delivers
    (length <-? b_u16 ;; if length =? 0xFFFF then bret Null else bs <-? take_slice (Z.to_nat length) ;; bret (CBytes bs))
    (decode_short_binary what).
Proof.
  unfold decode_short_binary. apply (agrees_bind_yields (in_unsigned 16)); [eauto with agrees|apply take_unsigned_yields|].
  intros length [_ Hl]. destruct (_ =? _); [apply agrees_ret|]. unfold MAX_ALLOC_SIZE. z_if. agree.
Qed.

Lemma agrees_decode fuel d metadata :
  decodable metadata -> is_plp metadata = false ->
  agrees delivers (decode_buffered metadata) (decode_with fuel d metadata).
Proof.
  intros [Hd Hs] Hp. unfold decode_buffered, decode_with. pose proof (agrees_decimal metadata) as Hdec.
  destruct (data_type metadata) eqn:Et; try apply agrees_miss;
    try (apply agrees_string; [done|done|by rewrite Et]); try apply agrees_guid; try apply agrees_bitn;
    try by (apply agrees_timen || apply agrees_datetime2 || apply agrees_datetime_offset).
  all: try (first [rewrite decide_True in Hdec by done | rewrite decide_False in Hdec by done]; apply Hdec; cbn; tauto).
  all: try (rewrite Hp; apply agrees_short_binary); try apply agrees_short_binary.
  all: unfold read_intn, read_daten, read_date, read_money4, read_small_datetime; pose proof agrees_money;
    pose proof agrees_small_datetime; pose proof agrees_datetime; agree.
Qed.

(** ** Variants *)

Lemma fixed_decodable t len fl : FixedLengthTypes_try_from t = Ok fl -> decodable (variant_metadata t len fl).
Proof. intros H. split; [by destruct t|done]. Qed.

Lemma agrees_fixed_variant fuel d t len :
  agrees delivers (buffered_fixed_variant t len) (decode_zero_propbyte_variant (decode_with fuel d) t len).
Proof.
  intros s. unfold buffered_fixed_variant, decode_zero_propbyte_variant.
  destruct (FixedLengthTypes_try_from t) as [fl|e| |] eqn:E; try done.
  pose proof (agrees_decode fuel d _ (fixed_decodable t len fl E) eq_refl (BufferedSlice_new (rest s))) as Ha.
  unfold try_decode_buffered. cbn [is_plp variant_metadata type_info type_info_variant crypto_metadata orb]. fold (rest s).
  destruct (decode_buffered _ _) as [[[v s1]|]|e|w|]; cbn in Ha |- *; try done.
  destruct Ha as (used & (_ & Hp & Hrest) & Hr). cbn in Hp. destruct (Z.eqb_spec (Z.of_nat (slice_position s1)) len); cbn; [|done].
  exists used. split; [|done]. unfold rest in Hrest |- *. cbn in Hrest. split_and!; [done|cbn; lia|].
  rewrite Hp in *. cbn. rewrite <- drop_drop. rewrite drop_0 in Hrest. rewrite Hrest.
  by rewrite drop_app_length.
Qed.

Lemma agrees_string_variant t len :
  In t [DT_BigVarChar; DT_BigChar; DT_NVarChar; DT_NChar] -> len <= MAX_ALLOC_SIZE ->
  agrees delivers (buffered_string_variant t len) (decode_seven_propbyte_variant t len).
Proof.
  intros Ht Hl. unfold buffered_string_variant, decode_seven_propbyte_variant.
  assert (yields (take_slice 5) (fun bs => length bs = 5%nat)) as Hy.
  { intros s a s'. unfold take_slice. destruct (get_at _ _ _) eqn:E; [|done]. intros [= <- _].
    by apply get_at_some in E as [? _]. }
  cbn [In] in Ht. repeat destruct Ht as [<-|Ht]; try done;
    (apply (agrees_bind_yields (fun bs => length bs = 5%nat)); [eauto with agrees|exact Hy|]);
    intros bs Hb; (apply agrees_bind; [eauto with agrees|]); intros _; destruct (collation_of_five bs Hb) as [c Hc];
    (apply agrees_lift with c; [done|]); z_if;
    (apply agrees_bind; [eauto with agrees|]); intros x; rewrite ?Hc; apply agrees_ret.
Qed.

(** What [read_sql_variant_with_base] does after a length that is not zero. *)
Definition variant_tail (d : ColumnMetadata -> M R ColumnValues) (length : Z) : M R (TdsDataType * ColumnValues) :=
  variant_base_type <- sync_byte ;;
  tds_type <- lift (TdsDataType_try_from variant_base_type) ;;
  variant_prop_bytes <- sync_byte ;;
  if (length <? 2) || (length - 2 <? variant_prop_bytes) then throw variant_underflow
  else
    let data_length := length - 2 - variant_prop_bytes in
    col_value <-
      match variant_prop_bytes with
      | 0 => decode_zero_propbyte_variant d tds_type data_length
      | 1 => decode_one_byte_variant tds_type data_length
      | 2 => decode_two_propbyte_variant tds_type data_length
      | 7 => decode_seven_propbyte_variant tds_type data_length
      | _ => throw (ProtocolError "Unexpected SQL variant properties length")
      end ;;
    ret (tds_type, col_value).

Lemma variant_split d r :
  read_sql_variant_with_base d r =
  (length <- sync_uint32 ;;
   if length =? 0 then ret (None, Null) else p <- variant_tail d length ;; ret (Some (fst p), snd p)) r.
Proof.
  unfold read_sql_variant_with_base, variant_tail, bind. destruct (sync_uint32 r) as [[n|e|w|] r1]; try done.
  destruct (n =? 0); [done|]. destruct (sync_byte r1) as [[b|e|w|] r2]; try done.
  unfold lift. destruct (TdsDataType_try_from b); try done. destruct (sync_byte r2) as [[p|e|w|] r3]; try done.
  destruct (_ || _); [done|]. cbv zeta.
  match goal with |- context [match ?m r3 with _ => _ end] => destruct (m r3) as [[] ?] end; done.
Qed.

Lemma agrees_variant_payload fuel d length :
  length <= MAX_ALLOC_SIZE ->
  agrees delivers (buffered_variant_payload length) (variant_tail (decode_with fuel d) length).
Proof.
  intros Hl. unfold buffered_variant_payload, variant_tail. apply agrees_bind; [eauto with agrees|]. intros b.
  apply agrees_lift_both; [unfold TdsDataType_try_from; by repeat case_match|]. intros t _.
  apply (agrees_bind_yields (in_unsigned 8)); [eauto with agrees|apply take_unsigned_yields|]. intros p [Hp _].
  replace ((length <? 2) || (length - 2 <? p)) with (length <? 2 + p)
    by (destruct (Z.ltb_spec length 2), (Z.ltb_spec (length - 2) p), (Z.ltb_spec length (2 + p)); cbn; done || lia).
  destruct (_ <? _); [apply agrees_throw|]. cbv zeta. rewrite Z.sub_add_distr. apply agrees_bind; [|eauto with agrees].
  repeat (case_match; try apply agrees_miss; try apply agrees_fixed_variant); subst;
    (apply agrees_string_variant; [cbn; tauto|lia]).
Qed.
End decoders.

(** ** The attempts as a whole *)

(** The buffered decoder is wire-compatible with [decode]: a value it finds in the buffered bytes
    is the value [decode] reads, from any reader that has these bytes next, and [decode] stops
    behind the same byte; bytes on which it fails make [decode] fail; on a miss it says nothing. *)
Lemma try_decode_agrees {R} {delivers : R -> bytes -> Prop} `{laws : PacketReaderLaws R delivers}
    `{half : HalfCrate} fuel metadata bs r more :
  decodable metadata -> delivers r (bs ++ more) ->
  match try_decode_buffered bs metadata with
  | Ok (Some (value, used)) =>
      (used <= length bs)%nat /\
      exists r', decode fuel metadata r = (Ok value, r') /\ delivers r' (drop used bs ++ more)
  | Ok None => True
  | Err _ => exists e r', decode fuel metadata r = (Err e, r')
  | _ => False
  end.
Proof.
  intros Hd Hr. unfold try_decode_buffered. destruct (is_plp metadata) eqn:Hp; [done|]. cbn [orb].
  destruct (crypto_metadata metadata); [done|].
  pose proof (agrees_decode fuel (decode_with fuel (fun _ => out_of_fuel)) metadata Hd Hp (BufferedSlice_new bs)) as Ha.
  destruct (decode_buffered _ _) as [[[v s]|]|e|w|]; cbn in Ha |- *; try done.
  - destruct Ha as (used & (Hb & Hpos & Hrest) & Hreads). unfold rest in Hrest. cbn in Hb, Hpos, Hrest. rewrite drop_0 in Hrest.
    split; [rewrite Hrest; len_simpl; lia|].
    rewrite Hrest, <- app_assoc in Hr. rewrite Hb, Hpos in *. by apply Hreads.
  - unfold rest in Ha. cbn in Ha. rewrite drop_0 in Ha. by apply (Ha r more).
Qed.

(** The same for variants, whose base type both report.  The buffer is smaller than the largest
    value the waiting decoder allocates for. *)
Lemma try_variant_agrees {R} {delivers : R -> bytes -> Prop} `{laws : PacketReaderLaws R delivers}
    `{half : HalfCrate} fuel bs r more :
  Z.of_nat (length bs) <= MAX_ALLOC_SIZE -> delivers r (bs ++ more) ->
  match try_decode_buffered_variant bs with
  | Ok (Some (base, value, used)) =>
      (used <= length bs)%nat /\
      exists r', read_sql_variant_with_base (decode_with fuel (fun _ => out_of_fuel)) r = (Ok (base, value), r') /\
        delivers r' (drop used bs ++ more)
  | Ok None => True
  | Err _ => exists e r', read_sql_variant_with_base (decode_with fuel (fun _ => out_of_fuel)) r = (Err e, r')
  | _ => False
  end.
Proof.
  intros Hm Hd. unfold try_decode_buffered_variant, b_u32, take_as, bbind, take_slice. rewrite variant_split.
  cbn [slice_bytes slice_position BufferedSlice_new].
  destruct (get_at bs 0 4) as [hd|] eqn:E0; [|done]. cbn. apply get_at_some in E0 as (Hl0 & _ & Hd0). rewrite drop_0 in Hd0.
  assert (reads delivers sync_uint32 hd (of_le hd)) as Hr0.
  { eapply reads_fixed_at; [apply sync_first_fixed; [apply law_try_uint32|apply law_uint32]|done..]. }
  rewrite Hd0, <- app_assoc in Hd. destruct (Hr0 r _ Hd) as (r0 & E & Hd1). rewrite (bind_ok _ _ _ _ _ E).
  destruct (of_le hd =? 0); [split; [rewrite Hd0; len_simpl; lia|by exists r0]|].
  destruct (get_at bs 4 _) as [payload|] eqn:E1; [|done]. cbn. apply get_at_some in E1 as (Hl1 & Hle & Hd2).
  cbn [Nat.add] in *. rewrite Hd2, <- app_assoc in Hd1. pose proof (of_le_range hd) as [Hpos _].
  pose proof (agrees_variant_payload fuel (fun _ => out_of_fuel) (of_le hd) ltac:(lia) (BufferedSlice_new payload)) as Ha.
  destruct (buffered_variant_payload _ _) as [[[[base v] s]|]|e|w|]; cbn in Ha |- *; try done.
  - destruct (decide _) as [Hend|]; [|done]. destruct Ha as (used & (Hb & Hp & Hrest) & Hreads).
    unfold rest in Hrest. cbn in Hb, Hp, Hrest. rewrite drop_0, Hb, Hend, drop_all, app_nil_r in Hrest. subst used.
    destruct (Hreads r0 _ Hd1) as (r1 & E2 & Hd3). split; [lia|]. exists r1. rewrite (bind_ok _ _ _ _ _ E2). done.
  - unfold rest in Ha. cbn in Ha. rewrite drop_0 in Ha. destruct (Ha r0 _ Hd1) as (e' & r1 & E2).
    exists e', r1. by rewrite (bind_err _ _ _ _ _ E2).
Qed.

(** A stand-in for the [half] crate: the values used here have no half-precision part. *)
#[local] Instance no_half : HalfCrate := {| f16_to_f32 := id |}.

Definition datetime2_column : ColumnMetadata :=
  {| user_type := 0; cm_flags := 9; data_type := DT_DateTime2N; column_name := [100];
     type_info := {| tds_type := DT_DateTime2N; ti_length := 7; type_info_variant := VarLenScale VL_DateTime2N 3 |};
     multi_part_name := None; crypto_metadata := None |}.
Definition datetime2_bytes : bytes := byte_of <$> [7; 0x10; 0x27; 0; 0; 0x5B; 0x95; 0x0A].
Definition datetime2_value : ColumnValues :=
  DateTime2 {| dt2_days := 0x0A955B; dt2_time := {| time_nanoseconds := 100000000; time_scale := 3 |} |}.

Definition variant_bytes : bytes := byte_of <$> [6; 0; 0; 0; 0x38; 0; 1; 2; 0; 0].
