(* ===== verification/RowWriter.v ===== *)
(** * Row writers (src/mssql-tds/src/datatypes/row_writer.rs)

    The sink the row decoder writes into, as a class of operations on a writer's state; the writer
    that collects a row and the one that discards it. *)

From stdpp Require Import strings.
From S2P Require Import Prelude Core Unicode PacketReader Tokens DataTypes ColMetadata Values.

(** What a destination is asked for. *)
Inductive ValueKind := VK_Bytes | VK_String (encoding : EncodingType).

(** The trait.  A borrowed and an owned [Cow] are the same bytes.  [value_destination] lends the
    writer's storage: [fill_destination] is what the decoder's writes to the lent slice do to the
    writer, and [commit_value] ends the loan. *)
Class RowWriter (W : Type) := {
  write_null : nat -> W -> W;
  write_bool : nat -> bool -> W -> W;
  write_u8 : nat -> Z -> W -> W;
  write_i16 : nat -> Z -> W -> W;
  write_i32 : nat -> Z -> W -> W;
  write_i64 : nat -> Z -> W -> W;
  write_f32 : nat -> Z -> W -> W;
  write_f64 : nat -> Z -> W -> W;
  write_string : nat -> bytes -> EncodingType -> W -> W;
  write_bytes : nat -> bytes -> W -> W;
  write_decimal : nat -> DecimalParts -> W -> W;
  write_numeric : nat -> DecimalParts -> W -> W;
  write_date : nat -> SqlDate -> W -> W;
  write_time : nat -> SqlTime -> W -> W;
  write_datetime : nat -> SqlDateTime -> W -> W;
  write_smalldatetime : nat -> SqlSmallDateTime -> W -> W;
  write_datetime2 : nat -> SqlDateTime2 -> W -> W;
  write_datetimeoffset : nat -> SqlDateTimeOffset -> W -> W;
  write_money : nat -> SqlMoney -> W -> W;
  write_smallmoney : nat -> SqlSmallMoney -> W -> W;
  write_uuid : nat -> bytes -> W -> W;
  write_xml : nat -> SqlXml -> W -> W;
  write_json : nat -> SqlJson -> W -> W;
  write_vector : nat -> SqlVector -> W -> W;
  write_variant_base_type : nat -> TdsDataType -> W -> W;
  end_row : W -> W;
  value_destination : nat -> ValueKind -> Z -> W -> option W;
  fill_destination : nat -> bytes -> W -> W;
  commit_value : nat -> bool -> W -> W;
}.

(** What the trait's documentation asks of a writer that lends a destination: a committed one holds
    the value it would have been given through [write_bytes] or [write_string]. *)
Class RowWriterLaws (W : Type) {ops : RowWriter W} := {
  law_lent_bytes col (bs : bytes) w w' :
    value_destination col VK_Bytes (Z.of_nat (length bs)) w = Some w' ->
    commit_value col true (fill_destination col bs w') = write_bytes col bs w;
  law_lent_string col (bs : bytes) encoding w w' :
    value_destination col (VK_String encoding) (Z.of_nat (length bs)) w = Some w' ->
    commit_value col true (fill_destination col bs w') = write_string col bs encoding w;
}.

(** [write_column_value] *)
Definition write_column_value {W} `{wr : RowWriter W} (col : nat) (value : ColumnValues) : W -> W :=
  match value with
  | Null => write_null col
  | Bit v => write_bool col v
  | TinyInt v => write_u8 col v
  | SmallInt v => write_i16 col v
  | Int v => write_i32 col v
  | BigInt v => write_i64 col v
  | Real v => write_f32 col v
  | Float v => write_f64 col v
  | CString v => write_string col (sql_bytes v) (encoding_type v)
  | CBytes v => write_bytes col v
  | Decimal v => write_decimal col v
  | Numeric v => write_numeric col v
  | Date v => write_date col v
  | Time v => write_time col v
  | DateTime v => write_datetime col v
  | SmallDateTime v => write_smalldatetime col v
  | DateTime2 v => write_datetime2 col v
  | DateTimeOffset v => write_datetimeoffset col v
  | Money v => write_money col v
  | SmallMoney v => write_smallmoney col v
  | Uuid v => write_uuid col v
  | Xml v => write_xml col v
  | Json v => write_json col v
  | Vector v => write_vector col v
  end.

(** ** [DefaultRowWriter] *)

Record DefaultRowWriter := {
  row : list ColumnValues;
  variant_bases : list (nat * TdsDataType);
}.

#[export] Instance DefaultRowWriter_eta : Eta DefaultRowWriter := fun r =>
  Build_DefaultRowWriter (row r) (variant_bases r).

Definition DefaultRowWriter_new : DefaultRowWriter := {| row := []; variant_bases := [] |}.

Definition push (value : ColumnValues) (w : DefaultRowWriter) : DefaultRowWriter :=
  w {{ row ::= fun l => l ++ [value] }}.

Definition variant_base (w : DefaultRowWriter) (index : nat) : option TdsDataType :=
  match list_find (fun p => fst p = index) (variant_bases w) with
  | Some (_, (_, base)) => Some base
  | None => None
  end.

Definition take_row (w : DefaultRowWriter) : list ColumnValues * DefaultRowWriter :=
  (row w, DefaultRowWriter_new).

#[global] Instance DefaultRowWriter_ops : RowWriter DefaultRowWriter := {
  write_null _ := push Null;
  write_bool _ v := push (Bit v);
  write_u8 _ v := push (TinyInt v);
  write_i16 _ v := push (SmallInt v);
  write_i32 _ v := push (Int v);
  write_i64 _ v := push (BigInt v);
  write_f32 _ v := push (Real v);
  write_f64 _ v := push (Float v);
  write_string _ bs e := push (CString (SqlString_new bs e));
  write_bytes _ bs := push (CBytes bs);
  write_decimal _ v := push (Decimal v);
  write_numeric _ v := push (Numeric v);
  write_date _ v := push (Date v);
  write_time _ v := push (Time v);
  write_datetime _ v := push (DateTime v);
  write_smalldatetime _ v := push (SmallDateTime v);
  write_datetime2 _ v := push (DateTime2 v);
  write_datetimeoffset _ v := push (DateTimeOffset v);
  write_money _ v := push (Money v);
  write_smallmoney _ v := push (SmallMoney v);
  write_uuid _ v := push (Uuid v);
  write_xml _ v := push (Xml v);
  write_json _ v := push (Json v);
  write_vector _ v := push (Vector v);
  write_variant_base_type _ base w := w {{ variant_bases ::= fun l => l ++ [(length (row w), base)] }};
  end_row := id;
  value_destination _ _ _ _ := None;
  fill_destination _ _ := id;
  commit_value _ _ := id;
}.

#[global] Instance DefaultRowWriter_laws : RowWriterLaws DefaultRowWriter.
Proof. by split. Qed.

(** ** [DiscardRowWriter] *)

Definition DiscardRowWriter : Type := unit.

#[global] Instance DiscardRowWriter_ops : RowWriter DiscardRowWriter := {
  write_null _ := id;
  write_bool _ _ := id;
  write_u8 _ _ := id;
  write_i16 _ _ := id;
  write_i32 _ _ := id;
  write_i64 _ _ := id;
  write_f32 _ _ := id;
  write_f64 _ _ := id;
  write_string _ _ _ := id;
  write_bytes _ _ := id;
  write_decimal _ _ := id;
  write_numeric _ _ := id;
  write_date _ _ := id;
  write_time _ _ := id;
  write_datetime _ _ := id;
  write_smalldatetime _ _ := id;
  write_datetime2 _ _ := id;
  write_datetimeoffset _ _ := id;
  write_money _ _ := id;
  write_smallmoney _ _ := id;
  write_uuid _ _ := id;
  write_xml _ _ := id;
  write_json _ _ := id;
  write_vector _ _ := id;
  write_variant_base_type _ _ := id;
  end_row := id;
  value_destination _ _ _ _ := None;
  fill_destination _ _ := id;
  commit_value _ _ := id;
}.

#[global] Instance DiscardRowWriter_laws : RowWriterLaws DiscardRowWriter.
Proof. by split. Qed.

(** A value that is not limited to narrow bytes is what the default writer pushes. *)
Lemma default_writes col v w :
  (forall s, v = CString s -> narrow_string_byte_limit s = None) -> write_column_value col v w = push v w.
Proof.
  intros H. destruct v as [| | | | | | | | |[bs e n]| | | | | | | | | | | | | |]; try done.
  specialize (H _ eq_refl). cbn in H. by subst.
Qed.
