(* ===== verification/RowDecoder.v ===== *)
(** * Decoding into a row writer (src/mssql-tds/src/datatypes/decoder.rs)

    [decode_into] hands each value to a row writer without building it first, and
    [try_decode_buffered_into] does so from buffered bytes. *)

From stdpp Require Import strings.
From S2P Require Import Prelude Core Unicode PacketReader Tokens DataTypes ColMetadata Values Plp Decoder.
From S2P Require Import BufferedDecoder RowWriter.

Section into.
Context {R : Type} `{ops : TdsPacketReader R} {W : Type} `{wr : RowWriter W} `{half : HalfCrate}.
Context (fuel : nat).

Definition from_reader {A} (m : M R A) : M (R * W) A := fun '(r, w) => let '(x, r') := m r in (x, (r', w)).
Definition to_writer (f : W -> W) : M (R * W) unit := modify (fun '(r, w) => (r, f w)).

(** A read whose value is written. *)
Definition write_read {A} (m : M R A) (write : A -> W -> W) : M (R * W) unit :=
  value <- from_reader m ;; to_writer (write value).

(** [read_value_into!]: the payload straight into the writer's destination, or through an owned
    buffer where it offers none. *)
Definition read_value_into (col : nat) (kind : ValueKind) (length : Z) (fill : M R bytes)
    (owned : bytes -> W -> W) : M (R * W) unit := fun '(r, w) =>
  match value_destination col kind length w with
  | Some w' =>
      match fill r with
      | (Ok bs, r') => (Ok tt, (r', commit_value col true (fill_destination col bs w')))
      | (Err e, r') => (Err e, (r', commit_value col false w'))
      | (Panic p, r') => (Panic p, (r', w'))
      | (OutOfFuel, r') => (OutOfFuel, (r', w'))
      end
  | None => write_read fill owned (r, w)
  end.

(** A payload of known size: from the buffer if it is there, else awaited. *)
Definition read_short (length : Z) : M R bytes :=
  o <- try_read_slice (Z.to_nat length) ;;
  match o with Some bs => ret bs | None => read_bytes (Z.to_nat length) end.

(** ** [StringDecoder::decode_string_into] *)
Definition decode_string_into (metadata : ColumnMetadata) (col : nat) : M (R * W) unit :=
  encoding_type <- lift (get_encoding_type metadata) ;;
  if is_plp metadata then
    framing <- from_reader read_plp_framing ;;
    match framing with
    | PlpNull => to_writer (write_null col)
    | PlpKnownLen length =>
        read_value_into col (VK_String encoding_type) length (read_plp_chunks_into_slice fuel length length)
          (fun bs => write_string col bs encoding_type)
    | PlpUnknownLen =>
        write_read (read_plp_chunks_unknown_len fuel) (fun bs => write_string col bs encoding_type)
    end
  else if is_long_len_type (data_type metadata) then
    text_ptr_len <- from_reader sync_byte ;;
    if text_ptr_len =? 0 then to_writer (write_null col)
    else
      from_reader (skip_bytes (Z.to_nat text_ptr_len)) ;;
      from_reader (skip_bytes TIMESTAMP_BYTE_COUNT) ;;
      length <- from_reader sync_uint32 ;;
      if MAX_ALLOC_SIZE <? length then throw (value_too_long "Text data")
      else
        write_read (if length =? 0 then ret [] else read_bytes (Z.to_nat length))
          (fun bs => write_string col bs encoding_type)
  else
    length <- from_reader sync_uint16 ;;
    if length =? 0xFFFF then to_writer (write_null col)
    else write_read (read_short length) (fun bs => write_string col bs encoding_type).

(** ** [GenericDecoder::decode_into] *)

Definition decode_short_binary_into (what : string) (col : nat) : M (R * W) unit :=
  length <- from_reader sync_uint16 ;;
  if length =? 0xFFFF then to_writer (write_null col)
  else if MAX_ALLOC_SIZE <? length then throw (value_too_long what)
  else write_read (read_short length) (write_bytes col).

Definition decode_plp_binary_into (col : nat) : M (R * W) unit :=
  framing <- from_reader read_plp_framing ;;
  match framing with
  | PlpNull => to_writer (write_null col)
  | PlpKnownLen length =>
      read_value_into col VK_Bytes length (read_plp_chunks_into_slice fuel length length) (write_bytes col)
  | PlpUnknownLen => write_read (read_plp_chunks_unknown_len fuel) (write_bytes col)
  end.

(** A value the caller has already decoded; other kinds are not written. *)
Definition write_datetime2_value (col : nat) (cv : ColumnValues) : W -> W :=
  match cv with DateTime2 dt2 => write_datetime2 col dt2 | _ => id end.
Definition write_datetimeoffset_value (col : nat) (cv : ColumnValues) : W -> W :=
  match cv with DateTimeOffset dto => write_datetimeoffset col dto | _ => id end.

Definition write_option {A} (col : nat) (write : nat -> A -> W -> W) (o : option A) : W -> W :=
  match o with Some v => write col v | None => write_null col end.

Definition decode_into (metadata : ColumnMetadata) (col : nat) : M (R * W) unit :=
  match data_type metadata with
  | DT_Int1 => write_read sync_byte (write_u8 col)
  | DT_Int2 => write_read sync_int16 (write_i16 col)
  | DT_Int4 => write_read sync_int32 (write_i32 col)
  | DT_Int8 => write_read sync_int64 (write_i64 col)
  | DT_IntN =>
      byte_len <- from_reader sync_byte ;;
      match byte_len with
      | 1 => write_read sync_byte (write_u8 col)
      | 2 => write_read sync_int16 (write_i16 col)
      | 4 => write_read sync_int32 (write_i32 col)
      | 8 => write_read sync_int64 (write_i64 col)
      | 0 => to_writer (write_null col)
      | _ => throw (Io "InvalidData" "Invalid IntN length")
      end
  | DT_Flt4 => write_read sync_float32 (write_f32 col)
  | DT_Flt8 => write_read sync_float64 (write_f64 col)
  | DT_FltN =>
      length <- from_reader sync_byte ;;
      match length with
      | 0 => to_writer (write_null col)
      | 4 => write_read sync_float32 (write_f32 col)
      | _ => write_read sync_float64 (write_f64 col)
      end
  | DT_Bit => write_read sync_byte (fun v => write_bool col (v =? 1))
  | DT_BitN =>
      byte_len <- from_reader sync_byte ;;
      if 0 <? byte_len then write_read sync_byte (fun v => write_bool col (v =? 1))
      else to_writer (write_null col)
  | DT_Money4 => write_read read_money4 (write_smallmoney col)
  | DT_Money => write_read read_money8 (write_money col)
  | DT_MoneyN =>
      byte_len <- from_reader sync_byte ;;
      match byte_len with
      | 4 => write_read read_money4 (write_smallmoney col)
      | 8 => write_read read_money8 (write_money col)
      | 0 => to_writer (write_null col)
      | _ => throw (ProtocolError "Invalid MoneyN length")
      end
  | DT_DecimalN => write_read (read_decimal metadata) (write_option col write_decimal)
  | DT_NumericN => write_read (read_decimal metadata) (write_option col write_numeric)
  | DT_NChar | DT_NVarChar | DT_BigChar | DT_BigVarChar | DT_Char | DT_VarChar | DT_NText | DT_Text =>
      decode_string_into metadata col
  | DT_BigBinary => decode_short_binary_into "BigBinary" col
  | DT_BigVarBinary =>
      if is_plp metadata then decode_plp_binary_into col else decode_short_binary_into "BigVarBinary" col
  | DT_DateTime => write_read read_datetime (write_datetime col)
  | DT_DateTim4 =>
      daypart <- from_reader sync_uint16 ;;
      write_read sync_uint16 (fun timepart => write_smalldatetime col {| sdt_days := daypart; sdt_time := timepart |})
  | DT_DateTimeN =>
      length <- from_reader sync_byte ;;
      match length with
      | 0 => to_writer (write_null col)
      | 4 => write_read read_small_datetime (write_smalldatetime col)
      | _ => write_read read_datetime (write_datetime col)
      end
  | DT_DateN =>
      length <- from_reader sync_byte ;;
      if length =? 0 then to_writer (write_null col) else write_read read_date (write_date col)
  | DT_TimeN =>
      length <- from_reader sync_byte ;;
      if length =? 0 then to_writer (write_null col)
      else scale <- from_reader (scale_of metadata "TimeN") ;; write_read (read_time length scale) (write_time col)
  | DT_DateTime2N =>
      length <- from_reader sync_byte ;;
      if length =? 0 then to_writer (write_null col)
      else
        scale <- from_reader (scale_of metadata "DateTime2N") ;;
        write_read (read_datetime2 length scale) (write_datetime2_value col)
  | DT_DateTimeOffsetN =>
      length <- from_reader sync_byte ;;
      if length =? 0 then to_writer (write_null col)
      else
        scale <- from_reader (scale_of metadata "DateTimeOffsetN") ;;
        write_read (read_datetime_offset length scale) (write_datetimeoffset_value col)
  | DT_Guid =>
      length <- from_reader sync_byte ;;
      if length =? 0 then to_writer (write_null col)
      else if negb (length =? 16) then throw (ProtocolError "Invalid GUID length")
      else write_read (read_bytes 16) (write_uuid col)
  | DT_SsVariant =>
      '(base, value) <- from_reader (read_sql_variant_with_base (decode_with fuel (fun _ => out_of_fuel))) ;;
      to_writer (match base with Some base => write_variant_base_type col base | None => id end) ;;
      to_writer (write_column_value col value)
  | _ => write_read (decode fuel metadata) (write_column_value col)
  end.
End into.

(** ** [try_decode_buffered_into]

    Each arm writes once, after its last read: an attempt returns that write. *)

Section buffered_into.
Context {W : Type} `{wr : RowWriter W}.

Definition buffered_write {A} (b : B A) (write : A -> W -> W) : B (W -> W) := value <-? b ;; bret (write value).

Definition buffered_money_parts : B SqlMoney :=
  msb_part <-? b_i32 ;; lsb_part <-? b_i32 ;; bret {| lsb_part := lsb_part; msb_part := msb_part |}.
Definition buffered_small_datetime_parts : B SqlSmallDateTime :=
  days <-? b_u16 ;; time <-? b_u16 ;; bret {| sdt_days := days; sdt_time := time |}.
Definition buffered_datetime_parts : B SqlDateTime :=
  days <-? b_i32 ;; time <-? b_u32 ;; bret {| dt_days := days; dt_time := time |}.

Definition buffered_time_into (metadata : ColumnMetadata) (col : nat) : B (W -> W) :=
  length <-? b_byte ;;
  if length =? 0 then bret (write_null col)
  else
    match get_scale metadata with
    | None => bthrow (ImplementationError "type should have scale")
    | Some scale =>
        let trailing := match data_type metadata with
                        | DT_TimeN => Some 0
                        | DT_DateTime2N => Some 3
                        | DT_DateTimeOffsetN => Some 5
                        | _ => None
                        end in
        match trailing with
        | None => bthrow (ImplementationError "unexpected buffered time type")
        | Some trailing =>
            if length <? trailing then bthrow (ProtocolError "Invalid length")
            else
              scaled <-? match length - trailing with
                         | 3 => b_u24
                         | 4 => b_u32
                         | _ => b_u40
                         end ;;
              ticks <-? blift (scale_time_value scaled scale) ;;
              let time := {| time_nanoseconds := ticks; time_scale := scale |} in
              match data_type metadata with
              | DT_TimeN => bret (write_time col time)
              | DT_DateTime2N =>
                  buffered_write b_u24 (fun days => write_datetime2 col {| dt2_days := days; dt2_time := time |})
              | DT_DateTimeOffsetN =>
                  days <-? b_u24 ;;
                  buffered_write b_i16 (fun offset => write_datetimeoffset col
                    {| dto_datetime2 := {| dt2_days := days; dt2_time := time |}; dto_offset := offset |})
              | _ => bthrow (ImplementationError "unexpected buffered time type")
              end
        end
    end.

Definition buffered_decimal_into (metadata : ColumnMetadata) (col : nat) : B (W -> W) :=
  length <-? b_byte ;;
  match type_info_variant (type_info metadata) with
  | VarLenPrecisionScale _ _ precision scale =>
      if negb (decimal_metadata_is_valid precision scale)
      then bthrow (ProtocolError "Invalid decimal precision / scale")
      else if length =? 0 then bret (write_null col)
      else
        sign <-? b_byte ;;
        let magnitude_len := length - 1 in
        if MAX_DECIMAL_INT_PARTS <? (magnitude_len + 3) / 4
        then bthrow (ProtocolError "Decimal int parts exceeds maximum allowed")
        else
          source <-? take_slice (Z.to_nat magnitude_len) ;;
          let value := DecimalParts_new (sign =? 1) precision scale (decimal_magnitude source) in
          if decide (data_type metadata = DT_DecimalN) then bret (write_decimal col value)
          else bret (write_numeric col value)
  | _ => bthrow (ProtocolError "Invalid type info variant for Decimal/Numeric")
  end.

(** The arms that end with [reader.position]. *)
Definition decode_buffered_into (metadata : ColumnMetadata) (col : nat) : option (B (W -> W)) :=
  match data_type metadata with
  | DT_Int1 => Some (buffered_write b_byte (write_u8 col))
  | DT_Int2 => Some (buffered_write b_i16 (write_i16 col))
  | DT_Int4 => Some (buffered_write b_i32 (write_i32 col))
  | DT_Int8 => Some (buffered_write b_i64 (write_i64 col))
  | DT_Flt4 => Some (buffered_write b_f32 (write_f32 col))
  | DT_Flt8 => Some (buffered_write b_f64 (write_f64 col))
  | DT_Bit => Some (buffered_write b_byte (fun v => write_bool col (v =? 1)))
  | DT_IntN => Some (
      length <-? b_byte ;;
      match length with
      | 0 => bret (write_null col)
      | 1 => buffered_write b_byte (write_u8 col)
      | 2 => buffered_write b_i16 (write_i16 col)
      | 4 => buffered_write b_i32 (write_i32 col)
      | 8 => buffered_write b_i64 (write_i64 col)
      | _ => bthrow (ProtocolError "Invalid IntN length")
      end)
  | DT_FltN => Some (
      length <-? b_byte ;;
      match length with
      | 0 => bret (write_null col)
      | 4 => buffered_write b_f32 (write_f32 col)
      | _ => buffered_write b_f64 (write_f64 col)
      end)
  | DT_BitN => Some (
      length <-? b_byte ;;
      match length with
      | 0 => bret (write_null col)
      | _ => buffered_write b_byte (fun v => write_bool col (v =? 1))
      end)
  | DT_Money4 => Some (buffered_write b_i32 (fun v => write_smallmoney col {| int_val := v |}))
  | DT_Money => Some (buffered_write buffered_money_parts (write_money col))
  | DT_MoneyN => Some (
      length <-? b_byte ;;
      match length with
      | 0 => bret (write_null col)
      | 4 => buffered_write b_i32 (fun v => write_smallmoney col {| int_val := v |})
      | 8 => buffered_write buffered_money_parts (write_money col)
      | _ => bthrow (ProtocolError "Invalid MoneyN length")
      end)
  | DT_DateTim4 => Some (buffered_write buffered_small_datetime_parts (write_smalldatetime col))
  | DT_DateTime => Some (buffered_write buffered_datetime_parts (write_datetime col))
  | DT_DateTimeN => Some (
      length <-? b_byte ;;
      match length with
      | 0 => bret (write_null col)
      | 4 => buffered_write buffered_small_datetime_parts (write_smalldatetime col)
      | _ => buffered_write buffered_datetime_parts (write_datetime col)
      end)
  | DT_DateN => Some (
      length <-? b_byte ;;
      match length with
      | 0 => bret (write_null col)
      | _ => buffered_write b_u24 (fun days => write_date col (SqlDate_unchecked_create days))
      end)
  | DT_TimeN | DT_DateTime2N | DT_DateTimeOffsetN => Some (buffered_time_into metadata col)
  | DT_Guid => Some (
      length <-? b_byte ;;
      if length =? 0 then bret (write_null col)
      else if negb (length =? 16) then bthrow (ProtocolError "Invalid GUID length")
      else buffered_write (take_slice 16) (write_uuid col))
  | DT_DecimalN | DT_NumericN => Some (buffered_decimal_into metadata col)
  | DT_NChar | DT_NVarChar | DT_BigChar | DT_BigVarChar | DT_Char | DT_VarChar => Some (
      length <-? b_u16 ;;
      if length =? 0xFFFF then bret (write_null col)
      else
        bs <-? take_slice (Z.to_nat length) ;;
        encoding <-? blift (get_encoding_type metadata) ;;
        bret (write_string col bs encoding))
  | DT_BigBinary | DT_BigVarBinary => Some (
      length <-? b_u16 ;;
      if length =? 0xFFFF then bret (write_null col)
      else buffered_write (take_slice (Z.to_nat length)) (write_bytes col))
  | _ => None
  end.

Definition try_decode_buffered_into (bs : bytes) (metadata : ColumnMetadata) (col : nat) (w : W)
    : TdsResult (option nat) * W :=
  let attempt : TdsResult (option ((W -> W) * nat)) :=
    if is_plp metadata || match crypto_metadata metadata with Some _ => true | None => false end then Ok None
    else
      match decode_buffered_into metadata col with
      | Some arm =>
          let? o := arm (BufferedSlice_new bs) in
          Ok (match o with Some (write, s) => Some (write, slice_position s) | None => None end)
      | None =>
          if decide (data_type metadata = DT_SsVariant) then
            let? o := try_decode_buffered_variant bs in
            Ok (match o with
                | Some (base, value, used) =>
                    Some (fun w => write_column_value col value
                           (match base with Some base => write_variant_base_type col base w | None => w end), used)
                | None => None
                end)
          else
            let? o := try_decode_buffered bs metadata in
            Ok (match o with Some (value, used) => Some (write_column_value col value, used) | None => None end)
      end in
  match attempt with
  | Ok (Some (write, used)) => (Ok (Some used), write w)
  | Ok None => (Ok None, w)
  | Err e => (Err e, w)
  | Panic p => (Panic p, w)
  | OutOfFuel => (OutOfFuel, w)
  end.
End buffered_into.
