(* ===== verification/ListReader.v ===== *)
(** * Decoding is a function of the bytes

    The decoders are generic over the packet reader.  Over a plain byte list they are functions of
    the bytes; over any law-abiding reader they do what they do over the bytes it delivers: the same
    value and the same bytes used up, and an error where the list gives one (other than the end of
    the list, where a reader would wait for more). *)

From stdpp Require Import strings.
From S2P Require Import Prelude Core Unicode PacketReader ReaderLaws Tokens TokenParsers TokenLaws TokenSafety.
From S2P Require Import DataTypes ColMetadata Values Plp PlpLaws Decoder DecoderLaws BufferedDecoder BufferedDecoderLaws.

Section lists.
Context {R : Type} {delivers : R -> bytes -> Prop} `{laws : PacketReaderLaws R delivers}.

(** [m] does over a reader what [l] does over the list of its bytes. *)
Definition lists {A} (l : M ByteReader A) (m : M R A) : Prop := forall bs,
  match l bs with
  | (Ok a, more) => exists used, bs = used ++ more /\ reads delivers m used a
  | (Err e, _) => e = end_of_data \/ fails (delivers := delivers) m bs
  | _ => True
  end.

Lemma lists_ret {A} (a : A) : lists (ret a) (ret a).
Proof. intros bs. exists []. split; [done|apply reads_ret]. Qed.

Lemma lists_throw {A} e : lists (A := A) (throw e) (throw e).
Proof. intros bs. right. intros r more _. by exists e, r. Qed.

Lemma lists_lift {A} (x : TdsResult A) : lists (lift x) (lift x).
Proof. destruct x as [a|e|w|]; [apply lists_ret|apply lists_throw|done|done]. Qed.

Lemma lists_out_of_fuel {A} (m : M R A) : lists out_of_fuel m.
Proof. done. Qed.

Lemma lists_bind {A C} (l : M ByteReader A) (k : A -> M ByteReader C) (m : M R A) (f : A -> M R C) :
  lists l m -> (forall a, lists (k a) (f a)) -> lists (bind l k) (bind m f).
Proof.
  intros Hl Hk bs. specialize (Hl bs). unfold bind. destruct (l bs) as [[a|e|w|] more]; try done.
  - destruct Hl as (used & -> & Hr). specialize (Hk a more). destruct (k a more) as [[c|e|w|] more2]; try done.
    + destruct Hk as (used2 & -> & Hr2). exists (used ++ used2). split; [by rewrite app_assoc|]. by eapply reads_bind.
    + destruct Hk as [->|Hf]; [by left|right]. intros r more' Hd. rewrite <- app_assoc in Hd.
      destruct (Hr r _ Hd) as (r1 & E1 & Hd1). destruct (Hf r1 more' Hd1) as (e' & r2 & E2).
      exists e', r2. by rewrite E1.
  - destruct Hl as [->|Hf]; [by left|right]. intros r more' Hd. destruct (Hf r more' Hd) as (e' & r1 & E1).
    exists e', r1. by rewrite E1.
Qed.

Lemma lists_read {A} n (f : bytes -> A) m : reads_fixed delivers m n f -> lists (list_read n f) m.
Proof.
  intros Hm bs. unfold list_read. case_decide as H; [|by left]. exists (take n bs). split; [by rewrite take_drop|].
  apply Hm. len_simpl. lia.
Qed.

Lemma list_sync {A} n (f : bytes -> A) bs :
  read_sync_first (list_try n f) (list_read n f) bs = list_read n f bs.
Proof.
  unfold read_sync_first, bind, list_try, list_read.
  destruct (decide (n <= length bs)%nat); cbn; [done|by rewrite decide_False].
Qed.

Lemma lists_ext {A} (l l' : M ByteReader A) m : (forall bs, l bs = l' bs) -> lists l' m -> lists l m.
Proof. intros E H bs. rewrite E. apply H. Qed.

Lemma lists_sync {A} n (f : bytes -> A) (t : M R (option A)) m :
  tries delivers t n f -> reads_fixed delivers m n f ->
  lists (read_sync_first (list_try n f) (list_read n f)) (read_sync_first t m).
Proof. intros. eapply lists_ext; [apply list_sync|]. by apply lists_read, sync_first_fixed. Qed.

Lemma lists_bytes n : lists (read_bytes n) (read_bytes n).
Proof. apply lists_read, law_bytes. Qed.

Lemma lists_skip n : lists (skip_bytes n) (skip_bytes n).
Proof. apply lists_read. intros bs Hb. by apply reads_skip. Qed.

Lemma lists_sync_byte : lists sync_byte sync_byte.
Proof. apply lists_sync; [apply law_try_byte|apply law_byte]. Qed.
Lemma lists_sync_int16 : lists sync_int16 sync_int16.
Proof. apply lists_sync; [apply law_try_int16|apply law_int16]. Qed.
Lemma lists_sync_uint16 : lists sync_uint16 sync_uint16.
Proof. apply lists_sync; [apply law_try_uint16|apply law_uint16]. Qed.
Lemma lists_sync_uint24 : lists sync_uint24 sync_uint24.
Proof. apply lists_sync; [apply law_try_uint24|apply law_uint24]. Qed.
Lemma lists_sync_int32 : lists sync_int32 sync_int32.
Proof. apply lists_sync; [apply law_try_int32|apply law_int32]. Qed.
Lemma lists_sync_uint32 : lists sync_uint32 sync_uint32.
Proof. apply lists_sync; [apply law_try_uint32|apply law_uint32]. Qed.
Lemma lists_sync_uint40 : lists sync_uint40 sync_uint40.
Proof. apply lists_sync; [apply law_try_uint40|apply law_uint40]. Qed.
Lemma lists_sync_int64 : lists sync_int64 sync_int64.
Proof. apply lists_sync; [apply law_try_int64|apply law_int64]. Qed.
Lemma lists_sync_float32 : lists sync_float32 sync_float32.
Proof. apply lists_sync; [apply law_try_float32|apply law_float32]. Qed.
Lemma lists_sync_float64 : lists sync_float64 sync_float64.
Proof. apply lists_sync; [apply law_try_float64|apply law_float64]. Qed.
End lists.
Arguments lists {R} delivers {A} l m.

Create HintDb lists discriminated.
#[export] Hint Resolve lists_ret lists_throw lists_lift lists_out_of_fuel lists_bytes lists_skip lists_sync_byte
  lists_sync_int16 lists_sync_uint16 lists_sync_uint24 lists_sync_int32 lists_sync_uint32 lists_sync_uint40
  lists_sync_int64 lists_sync_float32 lists_sync_float64 : lists.

(** Steps through both runs together. *)
Ltac list_auto :=
  repeat first [ solve [eauto with lists] | progress cbv zeta
               | eapply lists_bind; [solve [eauto with lists]|intros ?] | progress case_match ].

Section decoders.
Context {R : Type} {delivers : R -> bytes -> Prop} `{laws : PacketReaderLaws R delivers} `{half : HalfCrate}.

Lemma lists_read_decimal_data l p s : lists delivers (read_decimal_data l p s) (read_decimal_data l p s).
Proof. unfold read_decimal_data. list_auto. Qed.

Lemma lists_read_time n s : lists delivers (read_time n s) (read_time n s).
Proof. unfold read_time. apply lists_bind; [repeat case_match; eauto with lists|]. intros v. list_auto. Qed.

Hint Resolve lists_read_decimal_data lists_read_time : lists.

Lemma lists_read_decimal m : lists delivers (read_decimal m) (read_decimal m).
Proof. unfold read_decimal. list_auto. Qed.

Lemma lists_read_datetime : lists delivers read_datetime read_datetime.
Proof. unfold read_datetime. list_auto. Qed.

Lemma lists_read_small_datetime : lists delivers read_small_datetime read_small_datetime.
Proof. unfold read_small_datetime. list_auto. Qed.

Lemma lists_read_date : lists delivers read_date read_date.
Proof. unfold read_date. list_auto. Qed.

Hint Resolve lists_read_decimal lists_read_datetime lists_read_small_datetime lists_read_date : lists.

Lemma lists_read_datetime2 n s : lists delivers (read_datetime2 n s) (read_datetime2 n s).
Proof. unfold read_datetime2. list_auto. Qed.

Hint Resolve lists_read_datetime2 : lists.

Lemma lists_read_datetime_offset n s : lists delivers (read_datetime_offset n s) (read_datetime_offset n s).
Proof. unfold read_datetime_offset. list_auto. Qed.

Lemma lists_read_intn n : lists delivers (read_intn n) (read_intn n).
Proof. unfold read_intn. list_auto. Qed.

Lemma lists_read_money4 : lists delivers read_money4 read_money4.
Proof. unfold read_money4. list_auto. Qed.

Lemma lists_read_money8 : lists delivers read_money8 read_money8.
Proof. unfold read_money8. list_auto. Qed.

Lemma lists_read_daten n : lists delivers (read_daten n) (read_daten n).
Proof. unfold read_daten. list_auto. Qed.

Lemma lists_read_guid n : lists delivers (read_guid n) (read_guid n).
Proof. unfold read_guid. list_auto. Qed.

Hint Resolve lists_read_datetime_offset lists_read_intn lists_read_money4 lists_read_money8 lists_read_daten
  lists_read_guid : lists.

Lemma lists_decode_vector m : lists delivers (decode_vector m) (decode_vector m).
Proof.
  unfold decode_vector. apply lists_bind; [eauto with lists|intros l]. do 3 (case_match; [eauto with lists|]).
  do 7 (apply lists_bind; [eauto with lists|intros ?]). do 2 (apply lists_bind; [eauto with lists|intros []]).
  apply lists_bind; [case_match; eauto with lists|]. intros b. list_auto.
Qed.

(** *** PLP values *)

Lemma lists_framing : lists delivers read_plp_framing read_plp_framing.
Proof. unfold read_plp_framing. list_auto. Qed.

Lemma lists_unknown_len fuel : forall acc total n,
  lists delivers (unknown_len_loop fuel acc total n) (unknown_len_loop fuel acc total n).
Proof.
  induction fuel as [|fuel IH]; intros acc total n; cbn [unknown_len_loop]; [eauto with lists|]. list_auto.
Qed.

Lemma lists_into_slice fuel : forall acc a b n,
  lists delivers (into_slice_loop fuel acc a b n) (into_slice_loop fuel acc a b n).
Proof.
  induction fuel as [|fuel IH]; intros acc a b n; cbn [into_slice_loop]; [eauto with lists|]. list_auto.
Qed.

Lemma lists_chunks_unknown fuel :
  lists delivers (read_plp_chunks_unknown_len fuel) (read_plp_chunks_unknown_len fuel).
Proof. apply lists_bind; [eauto with lists|]. intros. apply lists_unknown_len. Qed.

Lemma lists_chunks_known fuel a b :
  lists delivers (read_plp_chunks_into_slice fuel a b) (read_plp_chunks_into_slice fuel a b).
Proof. apply lists_bind; [eauto with lists|]. intros. apply lists_into_slice. Qed.

Hint Resolve lists_decode_vector lists_framing lists_chunks_unknown lists_chunks_known : lists.

Lemma lists_plp_bytes fuel : lists delivers (read_plp_bytes fuel) (read_plp_bytes fuel).
Proof. unfold read_plp_bytes. list_auto. Qed.

Hint Resolve lists_plp_bytes : lists.

Lemma lists_decode_plp fuel wrap : lists delivers (decode_plp fuel wrap) (decode_plp fuel wrap).
Proof. unfold decode_plp. list_auto. Qed.

Lemma lists_decode_string fuel m : lists delivers (decode_string fuel m) (decode_string fuel m).
Proof. unfold decode_string. list_auto. Qed.

Lemma lists_decode_one t n : lists delivers (decode_one_byte_variant t n) (decode_one_byte_variant t n).
Proof. unfold decode_one_byte_variant. list_auto. Qed.

Lemma lists_decode_two t n : lists delivers (decode_two_propbyte_variant t n) (decode_two_propbyte_variant t n).
Proof. unfold decode_two_propbyte_variant. list_auto. Qed.

Lemma lists_decode_seven t n : lists delivers (decode_seven_propbyte_variant t n) (decode_seven_propbyte_variant t n).
Proof. unfold decode_seven_propbyte_variant. list_auto. Qed.

Lemma lists_short_binary what : lists delivers (decode_short_binary what) (decode_short_binary what).
Proof. unfold decode_short_binary. list_auto. Qed.

Lemma lists_image : lists delivers decode_image decode_image.
Proof. unfold decode_image. list_auto. Qed.

Lemma lists_scale_of m what : lists delivers (scale_of m what) (scale_of m what).
Proof. unfold scale_of. list_auto. Qed.

Hint Resolve lists_decode_plp lists_decode_string lists_decode_one lists_decode_two lists_decode_seven
  lists_short_binary lists_image lists_scale_of : lists.

Lemma lists_zero d d' t n :
  (forall m, lists delivers (d m) (d' m)) ->
  lists delivers (decode_zero_propbyte_variant d t n) (decode_zero_propbyte_variant d' t n).
Proof. intros Hd. unfold decode_zero_propbyte_variant. list_auto. Qed.

Lemma lists_variant d d' :
  (forall m, lists delivers (d m) (d' m)) ->
  lists delivers (read_sql_variant_with_base d) (read_sql_variant_with_base d').
Proof.
  intros Hd. pose proof (fun t n => lists_zero d d' t n Hd) as Hz. unfold read_sql_variant_with_base.
  apply lists_bind; [eauto with lists|intros l]. case_match; [eauto with lists|].
  do 3 (apply lists_bind; [eauto with lists|intros ?]). case_match; [eauto with lists|]. cbv zeta.
  apply lists_bind; [repeat case_match; eauto with lists|eauto with lists].
Qed.

Lemma lists_decode_with fuel d d' m :
  (forall m, lists delivers (d m) (d' m)) -> lists delivers (decode_with fuel d m) (decode_with fuel d' m).
Proof.
  intros Hd. pose proof (lists_variant d d' Hd) as Hv. unfold decode_with, read_sql_variant.
  destruct (data_type m); list_auto.
Qed.

Lemma lists_decode fuel m : lists delivers (decode fuel m) (decode fuel m).
Proof. do 2 (apply lists_decode_with; intros). eauto with lists. Qed.
End decoders.

#[export] Hint Resolve lists_read_decimal_data lists_read_time lists_read_decimal lists_read_datetime
  lists_read_small_datetime lists_read_date lists_read_datetime2 lists_read_datetime_offset lists_read_intn
  lists_read_money4 lists_read_money8 lists_read_daten lists_read_guid lists_decode_vector lists_framing
  lists_chunks_unknown lists_chunks_known lists_plp_bytes lists_scale_of lists_decode : lists.
