(* ===== verification/RowLaws.v ===== *)
(** * The writer paths agree with [decode]

    [decode_into] gives a row writer what [decode] would have returned, and [try_decode_buffered_into]
    what [try_decode_buffered] would have: the four routes from bytes to a column value are one
    function of the bytes. *)

From stdpp Require Import strings.
From S2P Require Import Prelude Core Unicode PacketReader ReaderLaws Tokens TokenParsers TokenLaws TokenSafety.
From S2P Require Import DataTypes ColMetadata Values Plp PlpLaws Decoder DecoderLaws BufferedDecoder BufferedDecoderLaws.
From S2P Require Import RowWriter RowDecoder ListReader.

(** What the values of a decoder have in common. *)
Definition returns {A} (l : M ByteReader A) (P : A -> Prop) : Prop := forall bs a more, l bs = (Ok a, more) -> P a.

Lemma returns_ret {A} (a : A) (P : A -> Prop) : P a -> returns (ret a) P.
Proof. intros HP bs a' more E. unfold ret in E. by simplify_eq. Qed.

Lemma returns_bind {A C} (P : A -> Prop) (Q : C -> Prop) l k :
  returns l P -> (forall a, P a -> returns (k a) Q) -> returns (bind l k) Q.
Proof.
  intros Hl Hk bs c more E. unfold bind in E. specialize (Hl bs). destruct (l bs) as [[a|e|p|] more']; simplify_eq.
  by eapply Hk; [eapply Hl|].
Qed.

Lemma returns_read {A} n (f : bytes -> A) (P : A -> Prop) :
  (forall bs, length bs = n -> P (f bs)) -> returns (list_read n f) P.
Proof.
  intros HP bs a more E. unfold list_read in E. case_decide; simplify_eq. apply HP. len_simpl. lia.
Qed.

Lemma returns_bytes n : returns (read_bytes n) (fun bs => length bs = n).
Proof. by apply returns_read. Qed.

Lemma returns_sync {A} n (f : bytes -> A) (P : A -> Prop) :
  (forall bs, length bs = n -> P (f bs)) -> returns (read_sync_first (list_try n f) (list_read n f)) P.
Proof. intros HP bs a more E. rewrite list_sync in E. by eapply returns_read. Qed.

Lemma returns_byte : returns sync_byte (fun v => 0 <= v).
Proof. apply returns_sync. intros bs _. apply of_le_range. Qed.

Section into.
Context {R : Type} {delivers : R -> bytes -> Prop} `{laws : PacketReaderLaws R delivers}.
Context {W : Type} `{wr : RowWriter W} `{wlaws : !RowWriterLaws W} `{half : HalfCrate}.

(** [m] reads what [l] reads from the list and hands its value to the writer through [g]. *)
Definition lists_into {A} (l : M ByteReader A) (g : A -> W -> W) (m : M (R * W) unit) : Prop := forall bs,
  match l bs with
  | (Ok a, more) => exists used, bs = used ++ more /\ forall r w tail, delivers r (used ++ tail) ->
      exists r', m (r, w) = (Ok tt, (r', g a w)) /\ delivers r' tail
  | (Err e, _) => e = end_of_data \/ forall r w tail, delivers r (bs ++ tail) -> exists e' st, m (r, w) = (Err e', st)
  | _ => True
  end.

Lemma into_throw {A} (g : A -> W -> W) e e' : lists_into (throw e) g (throw e').
Proof. intros bs. right. intros r w tail _. by exists e', (r, w). Qed.

Lemma into_write {A} (g : A -> W -> W) a f : g a = f -> lists_into (ret a) g (to_writer f).
Proof. intros <- bs. exists []. split; [done|]. intros r w tail Hd. by exists r. Qed.

(** A read, and what is done with a value [P] describes. *)
Lemma into_bind_yields {A C} (P : A -> Prop) (l : M ByteReader A) m (k : A -> M ByteReader C) g f :
  lists delivers l m -> returns l P ->
  (forall a, P a -> lists_into (k a) g (f a)) -> lists_into (bind l k) g (bind (from_reader m) f).
Proof.
  intros Hl HP Hk bs. specialize (Hl bs). specialize (HP bs). unfold bind, from_reader.
  destruct (l bs) as [[a|e|p|] more]; try done.
  - destruct Hl as (used & -> & Hr). specialize (Hk a (HP _ _ eq_refl) more).
    destruct (k a more) as [[c|e|p|] more2]; try done.
    + destruct Hk as (used2 & -> & Hm). exists (used ++ used2). split; [by rewrite app_assoc|].
      intros r w tail Hd. rewrite <- app_assoc in Hd. destruct (Hr r _ Hd) as (r1 & -> & Hd1). by apply Hm.
    + destruct Hk as [->|Hf]; [by left|right]. intros r w tail Hd. rewrite <- app_assoc in Hd.
      destruct (Hr r _ Hd) as (r1 & -> & Hd1). by apply (Hf r1 w tail).
  - destruct Hl as [->|Hf]; [by left|right]. intros r w tail Hd. destruct (Hf r tail Hd) as (e' & r1 & ->).
    by exists e', (r1, w).
Qed.

Lemma into_bind {A C} (l : M ByteReader A) m (k : A -> M ByteReader C) g f :
  lists delivers l m -> (forall a, lists_into (k a) g (f a)) -> lists_into (bind l k) g (bind (from_reader m) f).
Proof. intros Hl Hk. by eapply (into_bind_yields (fun _ => True)). Qed.

Lemma into_lift {A C} (x : TdsResult A) (k : A -> M ByteReader C) g f :
  (forall a, lists_into (k a) g (f a)) -> lists_into (bind (lift x) k) g (bind (lift x) f).
Proof. intros Hk. destruct x as [a|e|p|]; [apply Hk|apply (into_throw g e)|done|done]. Qed.

Lemma into_read {A} (l : M ByteReader A) m (g f : A -> W -> W) :
  lists delivers l m -> returns l (fun a => g a = f a) -> lists_into l g (write_read m f).
Proof.
  intros Hl HP bs. specialize (Hl bs). specialize (HP bs). unfold write_read, bind, from_reader.
  destruct (l bs) as [[a|e|p|] more]; try done.
  - destruct Hl as (used & -> & Hr). exists used. split; [done|]. intros r w tail Hd.
    destruct (Hr r _ Hd) as (r1 & -> & Hd1). exists r1. by rewrite (HP _ _ eq_refl).
  - destruct Hl as [->|Hf]; [by left|right]. intros r w tail Hd. destruct (Hf r tail Hd) as (e' & r1 & ->).
    by exists e', (r1, w).
Qed.

(** A read whose wrapped value is written unwrapped. *)
Lemma into_wrapped {A C} (l : M ByteReader A) m (h : A -> C) g f :
  lists delivers l m -> (forall a, g (h a) = f a) -> lists_into (bind l (fun a => ret (h a))) g (write_read m f).
Proof. intros Hl Hg. apply into_bind; [done|]. intros a. by apply into_write. Qed.

Lemma into_ext {A} (l l' : M ByteReader A) g m : (forall bs, l bs = l' bs) -> lists_into l' g m -> lists_into l g m.
Proof. intros E H bs. rewrite E. apply H. Qed.

Lemma into_same {A} (l : M ByteReader A) g g' m : (forall a, g a = g' a) -> lists_into l g m -> lists_into l g' m.
Proof.
  intros E H bs. specialize (H bs). destruct (l bs) as [[a| | |] more]; try done. by rewrite <- E.
Qed.

Lemma into_ext_m {A} (l : M ByteReader A) g m m' : (forall st, m st = m' st) -> lists_into l g m' -> lists_into l g m.
Proof. intros E H bs. specialize (H bs). destruct (l bs) as [[a| | |] more]; try done; by setoid_rewrite E. Qed.

(** One value after the other. *)
Lemma into_seq {A B C} (l1 : M ByteReader A) g1 m1 (l2 : M ByteReader B) g2 m2 (f : A -> B -> C) g :
  lists_into l1 g1 m1 -> lists_into l2 g2 m2 -> (forall a b w, g (f a b) w = g2 b (g1 a w)) ->
  lists_into (a <- l1 ;; b <- l2 ;; ret (f a b)) g (m1 ;; m2).
Proof.
  intros H1 H2 Hg bs. specialize (H1 bs). unfold bind. destruct (l1 bs) as [[a|e|p|] more]; try done.
  - destruct H1 as (u1 & -> & H1). specialize (H2 more). destruct (l2 more) as [[b|e|p|] more2]; try done; cbn.
    + destruct H2 as (u2 & -> & H2). exists (u1 ++ u2). split; [by rewrite app_assoc|]. intros r w tail Hd.
      rewrite <- app_assoc in Hd. destruct (H1 r w _ Hd) as (r1 & -> & Hd1).
      destruct (H2 r1 (g1 a w) _ Hd1) as (r2 & -> & Hd2). exists r2. by rewrite Hg.
    + destruct H2 as [->|Hf]; [by left|right]. intros r w tail Hd. rewrite <- app_assoc in Hd.
      destruct (H1 r w _ Hd) as (r1 & -> & Hd1). by eapply Hf.
  - destruct H1 as [->|Hf]; [by left|right]. intros r w tail Hd. destruct (Hf r w tail Hd) as (e' & st & ->). eauto.
Qed.

(** What [l] gives mapped by [h] and written by [g]. *)
Lemma into_map {A C} (l : M ByteReader A) (h : A -> C) g m :
  lists_into l (fun a => g (h a)) m -> lists_into (bind l (fun a => ret (h a))) g m.
Proof. intros H bs. specialize (H bs). unfold bind. by destruct (l bs) as [[]]. Qed.
End into.
Arguments lists_into {R} delivers {W A} l g m.

Create HintDb into discriminated.

(** Steps through a decoder of the list and the one that writes. *)
Ltac into_auto :=
  repeat first
    [ solve [eauto with into] | apply into_write; reflexivity | apply into_throw | progress cbv zeta
    | apply into_wrapped; [solve [eauto with lists]|reflexivity]
    | eapply into_bind; [solve [eauto with lists]|intros ?] | progress case_match ].

Section decode_into.
Context {R : Type} {delivers : R -> bytes -> Prop} `{laws : PacketReaderLaws R delivers}.
Context {W : Type} `{wr : RowWriter W} `{wlaws : !RowWriterLaws W} `{half : HalfCrate}.

(** A lent destination that the value fills is written like an owned value. *)
Lemma into_lent col kind n (l : M ByteReader bytes) fill owned :
  lists delivers l fill -> returns l (fun a => Z.of_nat (length a) = n) ->
  (forall a w w', Z.of_nat (length a) = n -> value_destination col kind n w = Some w' ->
    commit_value col true (fill_destination col a w') = owned a w) ->
  lists_into delivers l owned (read_value_into (W := W) col kind n fill owned).
Proof.
  intros Hl Hn Hc bs. pose proof (into_read l fill owned owned Hl (fun _ _ _ _ => eq_refl) bs) as Hr.
  specialize (Hl bs). specialize (Hn bs). unfold read_value_into. destruct (l bs) as [[a|e|p|] more]; try done.
  - destruct Hl as (used & -> & Hm). destruct Hr as (used' & E & Hr). apply app_inv_tail in E as <-.
    exists used. split; [done|]. intros r w tail Hd. destruct (value_destination col kind n w) as [w'|] eqn:Ed; [|by apply Hr].
    destruct (Hm r tail Hd) as (r1 & -> & Hd1). exists r1. by rewrite (Hc _ w) by eauto.
  - destruct Hl as [->|Hf]; [by left|]. destruct Hr as [->|Hr]; [by left|]. right. intros r w tail Hd.
    destruct (value_destination col kind n w); [|by eapply Hr]. destruct (Hf r tail Hd) as (e' & r1 & ->). eauto.
Qed.

Lemma into_slice_returns fuel : forall acc n d c, Z.of_nat (length acc) <= n ->
  returns (into_slice_loop fuel acc n d c) (fun a => Z.of_nat (length a) = n).
Proof.
  induction fuel as [|fuel IH]; intros acc n d c Ha; [done|]. cbn [into_slice_loop]. case_match eqn:Hc; z_if.
  2: { apply returns_ret. len_simpl. lia. }
  apply (returns_bind (fun _ => True)); [done|intros _ _]. unfold checked_add. repeat (case_match; [|done]).
  case_match eqn:Hx; simplify_eq; [done|]. apply orb_false_iff in Hx as [_ Hx]. z_if.
  eapply returns_bind; [apply returns_bytes|intros x Hlen]. eapply (returns_bind (fun _ => True)); [done|intros c' _].
  apply IH. len_simpl. lia.
Qed.

Lemma chunks_known_returns fuel n : 0 <= n ->
  returns (read_plp_chunks_into_slice fuel n n) (fun a => Z.of_nat (length a) = n).
Proof. intros. eapply (returns_bind (fun _ => True)); [done|intros c _]. by apply into_slice_returns. Qed.

Lemma framing_returns : returns read_plp_framing framing_ok.
Proof.
  intros bs f more E. pose proof (read_plp_framing_gives (rd := ByteReader_safe) bs I) as H. unfold gives_at in H.
  rewrite E in H. by apply H.
Qed.

Lemma bind_assoc {S A C D} (m : M S A) (f : A -> M S C) (g : C -> M S D) s :
  bind (bind m f) g s = bind m (fun a => bind (f a) g) s.
Proof. unfold bind. by destruct (m s) as [[]]. Qed.

(** A PLP value that is written as it is read. *)
Lemma into_plp fuel col kind (wrap : bytes -> ColumnValues) owned :
  (forall a, write_column_value col (wrap a) = owned a) ->
  (forall a w w', value_destination col kind (Z.of_nat (length a)) w = Some w' ->
    commit_value col true (fill_destination col a w') = owned a w) ->
  lists_into delivers (o <- read_plp_bytes fuel ;; match o with Some bs => ret (wrap bs) | None => ret Null end)
    (write_column_value (W := W) col)
    (framing <- from_reader read_plp_framing ;;
     match framing with
     | PlpNull => to_writer (write_null col)
     | PlpKnownLen length =>
         read_value_into col kind length (read_plp_chunks_into_slice fuel length length) owned
     | PlpUnknownLen => write_read (read_plp_chunks_unknown_len fuel) owned
     end).
Proof.
  intros Hw Hc. unfold read_plp_bytes. eapply into_ext; [intros bs; apply bind_assoc|].
  eapply (into_bind_yields framing_ok); [eauto with lists|apply framing_returns|]. intros [|n|] Hf; cbn in Hf.
  - by apply into_write.
  - eapply into_ext; [intros bs; apply bind_assoc|]. apply (into_map _ wrap).
    apply (into_same _ owned); [done|]. apply into_lent; [eauto with lists|apply chunks_known_returns; lia|].
    intros a w w' <-. apply Hc.
  - eapply into_ext; [intros bs; apply bind_assoc|]. apply into_wrapped; [eauto with lists|done].
Qed.

Lemma lists_read_short n : lists delivers (read_bytes (Z.to_nat n)) (read_short n).
Proof. apply lists_read. apply sync_first_fixed; [apply law_try_slice|apply law_bytes]. Qed.

Hint Resolve lists_read_short : lists.

Lemma into_text col encoding n :
  lists_into delivers
    (if n =? 0 then ret (CString (SqlString_new [] encoding))
     else buffer <- read_bytes (Z.to_nat n) ;; ret (CString (SqlString_new buffer encoding)))
    (write_column_value (W := W) col)
    (write_read (if n =? 0 then ret [] else read_bytes (Z.to_nat n)) (fun bs => write_string col bs encoding)).
Proof.
  case_match; [|by apply into_wrapped; [eauto with lists|]].
  intros bs. exists []. split; [done|]. intros r w tail Hd. by exists r.
Qed.

Lemma into_string fuel m col :
  lists_into delivers (decode_string fuel m) (write_column_value (W := W) col) (decode_string_into fuel m col).
Proof.
  unfold decode_string, decode_string_into. apply into_lift. intros e. case_match.
  { apply (into_plp fuel col (VK_String e) (fun bs => CString (SqlString_new bs e))); [done|].
    intros. by apply law_lent_string. }
  case_match; [|by into_auto]. eapply (into_bind_yields (fun v => 0 <= v)); [eauto with lists|apply returns_byte|].
  intros v Hv. destruct (Z.ltb_spec 0 v), (Z.eqb_spec v 0); try lia; [|by apply into_write].
  do 3 (apply into_bind; [eauto with lists|intros ?]). case_match; [apply into_throw|apply into_text].
Qed.

Lemma into_short_binary what col :
  lists_into delivers (decode_short_binary what) (write_column_value (W := W) col) (decode_short_binary_into what col).
Proof. unfold decode_short_binary, decode_short_binary_into. into_auto. Qed.

Lemma into_plp_binary fuel col :
  lists_into delivers (decode_plp fuel CBytes) (write_column_value (W := W) col) (decode_plp_binary_into fuel col).
Proof. apply into_plp; [done|]. intros. by apply law_lent_bytes. Qed.

Lemma into_decimal (wrap : DecimalParts -> ColumnValues) write m col :
  (forall d, write_column_value col (wrap d) = write col d) ->
  lists_into delivers (v <- read_decimal m ;; ret (of_option wrap v)) (write_column_value (W := W) col)
    (write_read (read_decimal m) (write_option col write)).
Proof. intros Hw. apply into_wrapped; [eauto with lists|]. intros [d|]; [apply Hw|done]. Qed.

Lemma datetime2_returns n s : returns (read_datetime2 n s) (fun v => exists d, v = DateTime2 d).
Proof.
  unfold read_datetime2. case_match; [done|]. do 2 (apply (returns_bind (fun _ => True)); [done|intros ? _]).
  apply returns_ret. eauto.
Qed.

Lemma datetimeoffset_returns n s : returns (read_datetime_offset n s) (fun v => exists d, v = DateTimeOffset d).
Proof.
  unfold read_datetime_offset. case_match; [done|]. eapply returns_bind; [apply datetime2_returns|]. intros ? [d ->].
  apply (returns_bind (fun _ => True)); [done|intros ? _]. apply returns_ret. eauto.
Qed.

Lemma returns_impl {A} (l : M ByteReader A) (P Q : A -> Prop) : returns l P -> (forall a, P a -> Q a) -> returns l Q.
Proof. intros H HQ bs a more E. eapply HQ, H, E. Qed.

Lemma into_datetime2 n s col :
  lists_into delivers (read_datetime2 n s) (write_column_value (W := W) col)
    (write_read (read_datetime2 n s) (write_datetime2_value col)).
Proof. apply into_read; [eauto with lists|]. eapply returns_impl; [apply datetime2_returns|]. by intros ? [d ->]. Qed.

Lemma into_datetimeoffset n s col :
  lists_into delivers (read_datetime_offset n s) (write_column_value (W := W) col)
    (write_read (read_datetime_offset n s) (write_datetimeoffset_value col)).
Proof.
  apply into_read; [eauto with lists|]. eapply returns_impl; [apply datetimeoffset_returns|]. by intros ? [d ->].
Qed.

Lemma match_zero_four {A} n (a b c : A) :
  match n with 0 => a | 4 => b | _ => c end = if n =? 0 then a else if n =? 4 then b else c.
Proof.
  destruct (Z.eqb_spec n 0) as [->|]; [done|]. destruct (Z.eqb_spec n 4) as [->|]; [done|]. by repeat case_match.
Qed.

Lemma into_guid n col : 0 <= n ->
  lists_into delivers (read_guid n) (write_column_value (W := W) col)
    (if n =? 0 then to_writer (write_null col)
     else if negb (n =? 16) then throw (ProtocolError "Invalid GUID length")
     else write_read (read_bytes 16) (write_uuid col)).
Proof.
  intros Hn. unfold read_guid. destruct (Z.ltb_spec 0 n), (Z.eqb_spec n 0); try lia; [|by apply into_write].
  destruct (Z.eqb_spec n 16) as [->|]; [|apply into_throw]. by apply into_wrapped; [eauto with lists|].
Qed.

Hint Resolve into_string into_short_binary into_plp_binary into_datetime2 into_datetimeoffset : into.

Lemma into_plain fuel m col :
  data_type m <> DT_SsVariant ->
  lists_into delivers (decode fuel m) (write_column_value (W := W) col) (decode_into fuel m col).
Proof.
  intros Hv. unfold decode_into. destruct (data_type m) eqn:Et; try done;
    try solve [apply into_read; [eauto with lists|]; by intros ???];
    unfold decode, read_intn, read_daten; unfold decode_with at 1; rewrite Et; try solve [into_auto];
    try solve [by apply into_decimal];
    (eapply (into_bind_yields (fun v => 0 <= v)); [eauto with lists|apply returns_byte|intros v Hpos]);
    rewrite ?match_zero_four, ?match_zero.
  all: try solve [into_auto].
  - by apply into_guid.
  - unfold read_daten. into_auto.
Qed.
End decode_into.

(** A value and, for a variant, the type it says it has. *)
Definition decode_with_base {R} `{ops : TdsPacketReader R} `{half : HalfCrate} (fuel : nat) (m : ColumnMetadata)
    : M R (option TdsDataType * ColumnValues) :=
  if decide (data_type m = DT_SsVariant)
  then read_sql_variant_with_base (decode_with fuel (fun _ => out_of_fuel))
  else v <- decode fuel m ;; ret (None, v).

Definition write_value {W} `{wr : RowWriter W} (col : nat) (v : option TdsDataType * ColumnValues) (w : W) : W :=
  write_column_value col (snd v)
    (match fst v with Some base => write_variant_base_type col base w | None => w end).

Lemma decode_with_base_value {R} `{ops : TdsPacketReader R} `{half : HalfCrate} fuel m bs :
  decode fuel m bs = (v <- decode_with_base fuel m ;; ret (snd v)) bs.
Proof.
  unfold decode_with_base. case_decide as E.
  - unfold decode. unfold decode_with at 1. rewrite E. unfold read_sql_variant, bind.
    by destruct (read_sql_variant_with_base _ bs) as [[[]| | |]].
  - unfold bind. by destruct (decode fuel m bs) as [[| | |]].
Qed.

Section decode_into_value.
Context {R : Type} {delivers : R -> bytes -> Prop} `{laws : PacketReaderLaws R delivers}.
Context {W : Type} `{wr : RowWriter W} `{wlaws : !RowWriterLaws W} `{half : HalfCrate}.

Lemma into_value fuel m col :
  lists_into delivers (decode_with_base fuel m) (write_value (W := W) col) (decode_into fuel m col).
Proof.
  unfold decode_with_base. case_decide as E; [|by apply into_map, into_plain].
  unfold decode_into. rewrite E. set (l := read_sql_variant_with_base _).
  apply (into_ext _ (bind l ret)); [intros bs; unfold bind; by destruct (l bs) as [[]]|]. apply into_bind.
  { apply lists_variant. intros. apply lists_decode_with. intros. eauto with lists. }
  intros [base v] bs. exists []. split; [done|]. intros r w tail Hd. exists r. by destruct base.
Qed.
End decode_into_value.

(** ** The buffered attempts *)

Section buffered.
Context {W : Type} `{wr : RowWriter W}.

Definition map_attempt {A C} (g : A -> C) (x : TdsResult (option (A * BufferedSlice))) :
    TdsResult (option (C * BufferedSlice)) :=
  let? o := x in Ok (match o with Some (a, s) => Some (g a, s) | None => None end).

(** [b'] writes what [b] returns. *)
Definition writes {A} (g : A -> W -> W) (b : B A) (b' : B (W -> W)) : Prop := forall s, b' s = map_attempt g (b s).

Lemma writes_ret {A} (g : A -> W -> W) a f : g a = f -> writes g (bret a) (bret f).
Proof. by intros <- s. Qed.

Lemma writes_throw {A} (g : A -> W -> W) e : writes g (bthrow e) (bthrow e).
Proof. done. Qed.

Lemma writes_bind {A C} (g : C -> W -> W) (b : B A) k k' :
  (forall a, writes g (k a) (k' a)) -> writes g (bbind b k) (bbind b k').
Proof. intros H s. unfold bbind. destruct (b s) as [[[a s']|]|e|p|]; try done. apply H. Qed.

Lemma writes_wrapped {A C} (g : C -> W -> W) (h : A -> C) (b : B A) f :
  (forall a, g (h a) = f a) -> writes g (bbind b (fun a => bret (h a))) (buffered_write b f).
Proof. intros H. apply writes_bind. intros a. by apply writes_ret. Qed.

(** A pair of reads whose parts are put together once in the value and once in what is written. *)
Lemma writes_pair {A1 A2 A C} (g : C -> W -> W) (b1 : B A1) (b2 : B A2) (mk : A1 -> A2 -> A) (h : A -> C) f :
  (forall a, g (h a) = f a) ->
  writes g (x <-? b1 ;; y <-? b2 ;; bret (h (mk x y))) (buffered_write (x <-? b1 ;; y <-? b2 ;; bret (mk x y)) f).
Proof.
  intros H s. unfold buffered_write, bbind, bret. destruct (b1 s) as [[[x s1]|]|e|p|]; try done.
  destruct (b2 s1) as [[[y s2]|]|e|p|]; try done. cbn. by rewrite H.
Qed.
End buffered.

Ltac writes_auto :=
  repeat first
    [ apply writes_ret; reflexivity | apply writes_throw | progress cbv zeta
    | apply writes_wrapped; reflexivity | apply (writes_pair (write_column_value _)); reflexivity
    | apply writes_bind; intros ? | progress case_match ].

Section buffered_into.
Context {W : Type} `{wr : RowWriter W}.

Lemma writes_time m col : writes (write_column_value (W := W) col) (buffered_time m) (buffered_time_into m col).
Proof.
  unfold buffered_time, buffered_time_into. apply writes_bind. intros n. case_match; [by apply writes_ret|].
  case_match; [|apply writes_throw]. destruct (data_type m); cbv zeta; try apply writes_throw;
    (case_match; [apply writes_throw|]; apply writes_bind; intros ?; apply writes_bind; intros ?; writes_auto).
Qed.

Lemma writes_decimal m col :
  writes (write_column_value (W := W) col) (buffered_decimal m) (buffered_decimal_into m col).
Proof. unfold buffered_decimal, buffered_decimal_into. writes_auto. Qed.

Lemma writes_decode m col arm :
  decode_buffered_into (W := W) m col = Some arm -> writes (write_column_value col) (decode_buffered m) arm.
Proof.
  unfold decode_buffered_into, decode_buffered, buffered_money, buffered_small_datetime, buffered_datetime,
    buffered_money_parts, buffered_small_datetime_parts, buffered_datetime_parts.
  destruct (data_type m); intros E; simplify_eq;
    first [apply writes_time | apply writes_decimal | writes_auto].
Qed.

(** The write of a value that was decoded. *)
Definition write_attempt {A} (g : A -> W -> W) (x : TdsResult (option (A * nat))) (w : W)
    : TdsResult (option nat) * W :=
  match x with
  | Ok (Some (a, used)) => (Ok (Some used), g a w)
  | Ok None => (Ok None, w)
  | Err e => (Err e, w)
  | Panic p => (Panic p, w)
  | OutOfFuel => (OutOfFuel, w)
  end.

(** [try_decode_buffered] with the base type of a variant. *)
Definition try_decode_buffered_base (bs : bytes) (m : ColumnMetadata)
    : TdsResult (option ((option TdsDataType * ColumnValues) * nat)) :=
  if is_plp m || match crypto_metadata m with Some _ => true | None => false end then Ok None
  else if decide (data_type m = DT_SsVariant) then try_decode_buffered_variant bs
  else
    let? o := try_decode_buffered bs m in
    Ok (match o with Some (v, used) => Some ((None, v), used) | None => None end).

Lemma buffered_into bs m col (w : W) :
  try_decode_buffered_into bs m col w = write_attempt (write_value col) (try_decode_buffered_base bs m) w.
Proof.
  unfold try_decode_buffered_into, try_decode_buffered_base.
  destruct (is_plp m || _) eqn:Ep; [done|]. destruct (decode_buffered_into m col) as [arm|] eqn:Ea.
  - pose proof (writes_decode m col arm Ea (BufferedSlice_new bs)) as ->.
    rewrite decide_False by (unfold decode_buffered_into in Ea; intros E; by rewrite E in Ea).
    unfold try_decode_buffered, map_attempt. rewrite Ep.
    by destruct (decode_buffered m (BufferedSlice_new bs)) as [[[]|]| | |].
  - case_decide.
    + by destruct (try_decode_buffered_variant bs) as [[[[[]]]|]| | |].
    + by destruct (try_decode_buffered bs m) as [[[]|]| | |].
Qed.
End buffered_into.

(** ** Properties *)

Section agreement.
Context {R : Type} {delivers : R -> bytes -> Prop} `{laws : PacketReaderLaws R delivers} `{half : HalfCrate}.

Lemma buffered_base_agrees fuel m bs r more :
  decodable m -> Z.of_nat (length bs) <= MAX_ALLOC_SIZE -> delivers r (bs ++ more) ->
  match try_decode_buffered_base bs m with
  | Ok (Some (value, used)) =>
      (used <= length bs)%nat /\
      exists r', decode_with_base fuel m r = (Ok value, r') /\ delivers r' (drop used bs ++ more)
  | Ok None => True
  | Err _ => exists e r', decode_with_base fuel m r = (Err e, r')
  | _ => False
  end.
Proof.
  intros Hm Hl Hd. unfold try_decode_buffered_base, decode_with_base. destruct (_ || _); [done|].
  case_decide as Et.
  { pose proof (try_variant_agrees fuel bs r more Hl Hd) as H.
    by destruct (try_decode_buffered_variant bs) as [[[[b v] used]|]|e|p|]. }
  pose proof (try_decode_agrees fuel m bs r more Hm Hd) as H.
  destruct (try_decode_buffered bs m) as [[[v used]|]|e|p|]; try done; cbn.
  - destruct H as (Hu & r' & E & Hd'). split; [done|]. exists r'. by rewrite (bind_ok _ _ _ _ _ E).
  - destruct H as (e' & r' & E). exists e', r'. by rewrite (bind_err _ _ _ _ _ E).
Qed.
End agreement.

(** The buffered decoders are wire-compatible with the waiting ones.  A value they find in the
    buffered bytes, with the base type a variant reports, is the one [decode] or
    [read_sql_variant_with_base] reads from any reader that has these bytes next, which stops behind
    the same byte; bytes on which they fail make the waiting decoder fail; they never panic; on a
    miss they say nothing.  The buffer is smaller than the largest value the decoder allocates for. *)
Theorem buffered_decode_agrees {R} {delivers : R -> bytes -> Prop} `{laws : PacketReaderLaws R delivers}
    `{half : HalfCrate} fuel m bs r more :
  decodable m -> Z.of_nat (length bs) <= MAX_ALLOC_SIZE -> delivers r (bs ++ more) ->
  match try_decode_buffered_base bs m with
  | Ok (Some (value, used)) =>
      (used <= length bs)%nat /\
      exists r', decode_with_base fuel m r = (Ok value, r') /\ delivers r' (drop used bs ++ more)
  | Ok None => True
  | Err _ => exists e r', decode_with_base fuel m r = (Err e, r')
  | _ => False
  end.
Proof. apply buffered_base_agrees. Qed.

#[local] Instance no_half : HalfCrate := {| f16_to_f32 := id |}.

Lemma datetime2_decodable : decodable datetime2_column.
Proof. split; [done|]. intros scale [= <-]. done. Qed.

Lemma buffered_decode_agrees_witness :
  try_decode_buffered datetime2_bytes datetime2_column = Ok (Some (datetime2_value, 8%nat)) /\
  exists r', decode_with_base (R := ByteReader) 1 datetime2_column (datetime2_bytes ++ [byte_of 1]) =
    (Ok (None, datetime2_value), r') /\ list_delivers r' [byte_of 1].
Proof.
  split; [vm_compute; reflexivity|].
  pose proof (buffered_decode_agrees (delivers := list_delivers) 1 datetime2_column datetime2_bytes
    (datetime2_bytes ++ [byte_of 1]) [byte_of 1]) as H.
  replace (try_decode_buffered_base _ _) with (Ok (Some ((@None TdsDataType, datetime2_value), 8%nat))) in H
    by (vm_compute; reflexivity).
  apply H; [apply datetime2_decodable|done|done].
Defined.

(** C18: [decode_into] hands any row writer the value [decode] would return (and first the base type, for
    a variant), over any law-abiding reader: it uses up the same bytes, fails where decoding the bytes
    fails, and a destination the writer lends is filled and committed as the owned value would be. *)
Theorem decode_into_agrees {R} {delivers : R -> bytes -> Prop} `{laws : PacketReaderLaws R delivers}
    {W} `{wr : RowWriter W} `{wlaws : !RowWriterLaws W} `{half : HalfCrate} fuel m col :
  (forall bs, decode (R := ByteReader) fuel m bs = (v <- decode_with_base fuel m ;; ret (snd v)) bs) /\
  lists_into delivers (decode_with_base fuel m) (write_value (W := W) col) (decode_into fuel m col).
Proof. split; [intros bs; apply decode_with_base_value|apply into_value]. Qed.

Lemma decode_into_agrees_witness :
  exists r', decode_into (R := ByteReader) 9 datetime2_column 0 (datetime2_bytes ++ [byte_of 1], DefaultRowWriter_new) =
    (Ok tt, (r', {| row := [datetime2_value]; variant_bases := [] |})) /\ list_delivers r' [byte_of 1].
Proof.
  destruct (decode_into_agrees (delivers := list_delivers) (W := DefaultRowWriter) 9 datetime2_column 0) as [_ H].
  specialize (H datetime2_bytes).
  replace (decode_with_base 9 datetime2_column datetime2_bytes)
    with (Ok (@None TdsDataType, datetime2_value), @nil Byte.byte) in H by (vm_compute; reflexivity).
  destruct H as (used & E & H). rewrite app_nil_r in E. subst used. by apply (H _ DefaultRowWriter_new [byte_of 1]).
Defined.

(** C19: Decoding straight from the buffer into a row writer is decoding the value and writing it; where it
    succeeds, the waiting [decode_into] over any reader that has the bytes next leaves the writer in
    the same state and stops behind the same byte; otherwise the writer is untouched. *)
Theorem buffered_into_agrees {R} {delivers : R -> bytes -> Prop} `{laws : PacketReaderLaws R delivers}
    {W} `{wr : RowWriter W} `{wlaws : !RowWriterLaws W} `{half : HalfCrate} fuel m col bs r more (w : W) :
  decodable m -> Z.of_nat (length bs) <= MAX_ALLOC_SIZE -> delivers r (bs ++ more) ->
  try_decode_buffered_into bs m col w = write_attempt (write_value col) (try_decode_buffered_base bs m) w /\
  match try_decode_buffered_into bs m col w with
  | (Ok (Some used), w') =>
      exists r', decode_into fuel m col (r, w) = (Ok tt, (r', w')) /\ delivers r' (drop used bs ++ more)
  | (Ok None, w') | (Err _, w') => w' = w
  | _ => False
  end.
Proof.
  intros Hm Hl Hd. split; [apply buffered_into|]. rewrite buffered_into.
  pose proof (buffered_base_agrees (delivers := list_delivers) fuel m bs bs [] Hm Hl ltac:(by rewrite app_nil_r)) as H.
  destruct (try_decode_buffered_base bs m) as [[[v used]|]|e|p|]; try done. cbn.
  destruct H as (_ & more' & E & Hmore). rewrite app_nil_r in Hmore. unfold list_delivers in Hmore. subst more'.
  pose proof (into_value (delivers := delivers) (W := W) fuel m col bs) as Hi. rewrite E in Hi.
  destruct Hi as (pre & Hb & Hi). rewrite Hb, <- app_assoc in Hd. by apply Hi.
Qed.

Lemma buffered_into_agrees_witness :
  try_decode_buffered_into datetime2_bytes datetime2_column 0 DefaultRowWriter_new =
    (Ok (Some 8%nat), {| row := [datetime2_value]; variant_bases := [] |}) /\
  exists r', decode_into (R := ByteReader) 9 datetime2_column 0 (datetime2_bytes ++ [byte_of 1], DefaultRowWriter_new) =
    (Ok tt, (r', {| row := [datetime2_value]; variant_bases := [] |})) /\ list_delivers r' [byte_of 1].
Proof.
  split; [vm_compute; reflexivity|].
  destruct (buffered_into_agrees (delivers := list_delivers) 9 datetime2_column 0 datetime2_bytes
    (datetime2_bytes ++ [byte_of 1]) [byte_of 1] DefaultRowWriter_new datetime2_decodable) as [_ H]; [done|done|].
  replace (try_decode_buffered_into _ _ _ _)
    with (@Ok (option nat) (Some 8%nat), {| row := [datetime2_value]; variant_bases := [] |}) in H by (vm_compute; reflexivity).
  exact H.
Defined.
