(* ===== verification/Rows.v ===== *)
(** * Rows (src/mssql-tds/src/token/parsers, src/mssql-tds/src/io/token_stream.rs)

    The parsers of ROW, NBCROW and RETURNVALUE, the loop that drives a row into a row writer and
    pauses in it, and the token dispatcher with the tokens that carry column data. *)

From stdpp Require Import strings.
From S2P Require Import Prelude Core Unicode PacketReader Tokens TokenParsers DataClassification.
From S2P Require Import DataTypes ColMetadata Values Plp Decoder BufferedDecoder RowWriter RowDecoder.

(** [CellDecryptor::decrypt], a trait object. *)
Definition CellDecryptor : Type := CryptoMetadata -> bytes -> TdsResult ColumnValues.

Inductive ParserContext :=
  | CtxColumnMetadata (metadata : ColMetadataToken) (decryptor : option CellDecryptor)
  | CtxColumnEncryption (supported : bool)
  | CtxNone.

Definition is_column_encryption_supported (context : ParserContext) : bool :=
  match context with CtxColumnEncryption true => true | _ => false end.

Definition extract_row_context (context : ParserContext) : TdsResult (ColMetadataToken * option CellDecryptor) :=
  match context with
  | CtxColumnMetadata metadata decryptor => Ok (metadata, decryptor)
  | _ => Err (ProtocolError "Expected ColumnMetadata in context for row decoding")
  end.

(** [usize::div_ceil] by eight. *)
Definition bitmap_length (columns : nat) : nat := ((columns + 7) / 8)%nat.

Definition is_null_value_in_column (null_bitmap : bytes) (index : nat) : TdsResult bool :=
  match null_bitmap !! (index / 8)%nat with
  | Some b => Ok (negb (Z.land (byte_val b) (Z.shiftl 1 (Z.of_nat (index mod 8))) =? 0))
  | None => Panic "index out of bounds"
  end.

Inductive ReturnValueStatus := OutputParam | Udf | UnknownStatus (value : Z).

Definition ReturnValueStatus_from (value : Z) : ReturnValueStatus :=
  match value with 0x01 => OutputParam | 0x02 => Udf | _ => UnknownStatus value end.

Record ReturnValueToken := {
  param_ordinal : Z;
  param_name : str;
  rv_value : ColumnValues;
  rv_metadata : ColumnMetadata;
  rv_status : ReturnValueStatus;
}.

(** The tokens the dispatcher leaves to the parsers of column data. *)
Inductive DataToken :=
  | D_ColMetadata (t : ColMetadataToken)
  | D_Row (all_values : list ColumnValues)
  | D_ReturnValue (t : ReturnValueToken)
  | D_DataClassification (t : DataClassificationMetadata).

(** ** The parsers *)

Section parsers.
Context {R : Type} `{ops : TdsPacketReader R} `{half : HalfCrate}.
Context (fuel : nat).

Definition decrypt_encrypted_column (metadata : ColumnMetadata) (decryptor : CellDecryptor) : M R ColumnValues :=
  value <- decode fuel metadata ;;
  match value with
  | Null => ret Null
  | CBytes cipher =>
      match crypto_metadata metadata with
      | Some crypto_metadata => lift (decryptor crypto_metadata cipher)
      | None => throw (ColumnEncryptionError "decrypt_encrypted_column called for non-encrypted column")
      end
  | _ => throw (ColumnEncryptionError "Encrypted column was expected to arrive as varbinary cipher bytes")
  end.

(** The value of a column: what the loops of both row parsers push. *)
Definition column_value (decryptor : option CellDecryptor) (metadata : ColumnMetadata) : M R ColumnValues :=
  match crypto_metadata metadata, decryptor with
  | Some _, Some dec => decrypt_encrypted_column metadata dec
  | Some _, None => decode fuel metadata
  | None, _ => decode fuel metadata
  end.

Definition no_row_context : Error := Io "InvalidData" "Expected ColumnMetadata in context".

Fixpoint row_values (decryptor : option CellDecryptor) (all_metadata : list ColumnMetadata) : M R (list ColumnValues) :=
  match all_metadata with
  | [] => ret []
  | metadata :: rest =>
      value <- column_value decryptor metadata ;;
      values <- row_values decryptor rest ;;
      ret (value :: values)
  end.

(** [RowTokenParser::parse] *)
Definition parse_row (context : ParserContext) : M R (list ColumnValues) :=
  match context with
  | CtxColumnMetadata metadata decryptor => row_values decryptor (cols metadata)
  | _ => throw no_row_context
  end.

Fixpoint nbc_row_values (decryptor : option CellDecryptor) (bitmap : bytes) (index : nat)
    (all_metadata : list ColumnMetadata) : M R (list ColumnValues) :=
  match all_metadata with
  | [] => ret []
  | metadata :: rest =>
      is_null <- lift (is_null_value_in_column bitmap index) ;;
      value <- (if (is_null : bool) then ret Null else column_value decryptor metadata) ;;
      values <- nbc_row_values decryptor bitmap (S index) rest ;;
      ret (value :: values)
  end.

(** [NbcRowTokenParser::parse] *)
Definition parse_nbc_row (context : ParserContext) : M R (list ColumnValues) :=
  match context with
  | CtxColumnMetadata metadata decryptor =>
      bitmap <- read_bytes (bitmap_length (length (cols metadata))) ;;
      nbc_row_values decryptor bitmap 0 (cols metadata)
  | _ => throw no_row_context
  end.

(** [ReturnValueTokenParser::parse]; twice a byte does not overflow. *)
Definition parse_return_value : M R ReturnValueToken :=
  param_ordinal <- read_uint16 ;;
  param_name_length <- read_byte ;;
  param_name <- read_unicode_with_byte_length (Z.to_nat (param_name_length * 2)) ;;
  status_byte <- read_byte ;;
  let status := ReturnValueStatus_from status_byte in
  user_type <- read_uint32 ;;
  flags <- read_uint16 ;;
  tds_type <- read_byte ;;
  data_type <- lift (TdsDataType_try_from tds_type) ;;
  type_info <- read_type_info data_type ;;
  crypto_metadata <-
    (if negb (Z.land flags FLAG_ENCRYPTED =? 0) then c <- parse_crypto_metadata false ;; ret (Some c) else ret None) ;;
  let column_metadata :=
    {| user_type := user_type; cm_flags := flags; type_info := type_info; data_type := data_type;
       column_name := param_name; multi_part_name := None; crypto_metadata := crypto_metadata |} in
  value <- decode fuel column_metadata ;;
  ret {| param_ordinal := param_ordinal; param_name := param_name; rv_value := value;
         rv_metadata := column_metadata; rv_status := status |}.

(** What the registry's parsers make of the tokens that carry column data; [negotiated] is the
    data-classification version the registry was built with. *)
Definition parse_data (negotiated : option DataClassificationVersion) (context : ParserContext)
    (token_type : TokenType) : M R DataToken :=
  match token_type with
  | TT_ColMetadata => map_token D_ColMetadata (parse_col_metadata (is_column_encryption_supported context))
  | TT_Row => map_token D_Row (parse_row context)
  | TT_NbcRow => map_token D_Row (parse_nbc_row context)
  | TT_ReturnValue => map_token D_ReturnValue parse_return_value
  | TT_DataClassification => map_token D_DataClassification (parse_data_classification negotiated)
  | _ => throw (no_parser_error token_type)
  end.
End parsers.
