(* ===== verification/RowDriver.v ===== *)
(** * Driving a row into a writer (src/mssql-tds/src/io/token_stream.rs, src/mssql-tds/src/datatypes/decoder.rs)

    [drive_row_columns] decodes, skips or pauses at each column of a ROW or NBCROW as a policy asks;
    a paused row is resumed from its pause state, and a paused PLP column is streamed first. *)

From stdpp Require Import strings.
From S2P Require Import Prelude Core Unicode PacketReader Tokens TokenParsers DataClassification.
From S2P Require Import DataTypes ColMetadata Values Plp Decoder BufferedDecoder RowWriter RowDecoder Rows.

(** ** [PlpColumnStream] *)

Record PlpColumnStream := {
  plp_type : PartialLengthType;
  stream_collation : option SqlCollation;
  inner : PlpChunkStreamReader;
}.

Definition type_from_metadata (metadata : ColumnMetadata) : TdsResult (PartialLengthType * option SqlCollation) :=
  match type_info_variant (type_info metadata) with
  | PartialLen pt _ collation _ _ => Ok (pt, collation)
  | _ => Err (ProtocolError "Column is not a PLP type")
  end.

(** [PlpColumnStream::try_begin_buffered] *)
Definition stream_try_begin_buffered (metadata : ColumnMetadata) (bs : bytes)
    : TdsResult (option (option PlpColumnStream * nat)) :=
  let? '(plp_type, collation) := type_from_metadata metadata in
  let? o := try_begin_buffered bs in
  Ok (match o with
      | None => None
      | Some (inner, used) =>
          Some ((fun s => {| plp_type := plp_type; stream_collation := collation; inner := s |}) <$> inner, used)
      end).

Section plp_column.
Context {R : Type} `{ops : TdsPacketReader R}.

(** [PlpColumnStream::begin] *)
Definition stream_begin (metadata : ColumnMetadata) : M R (option PlpColumnStream) :=
  '(plp_type, collation) <- lift (type_from_metadata metadata) ;;
  inner <- plp_begin ;;
  ret ((fun s => {| plp_type := plp_type; stream_collation := collation; inner := s |}) <$> inner).

(** [PlpColumnStream::skip_to_end] on a stream that is dropped afterwards. *)
Definition stream_skip_to_end (fuel : nat) (stream : PlpColumnStream) : M R unit := fun r =>
  let '(x, (r', _)) := skip_to_end fuel (r, inner stream) in (x, r').
End plp_column.

(** ** Pause states *)

Inductive ColumnPolicy := DecodeAll | DecodePrefix (end_ : nat) | DecodeOne (target : nat) | SkipAll.

Record RowPauseState := {
  next_column_index : nat;
  pause_metadata : ColMetadataToken;
  nbc_null_bitmap : option bytes;
  pause_decryptor : option CellDecryptor;
}.

#[export] Instance RowPauseState_eta : Eta RowPauseState := fun r =>
  Build_RowPauseState (next_column_index r) (pause_metadata r) (nbc_null_bitmap r) (pause_decryptor r).

Record PlpPauseState := { row_pause_state : RowPauseState; plp_column_stream : PlpColumnStream }.

#[export] Instance PlpPauseState_eta : Eta PlpPauseState := fun r =>
  Build_PlpPauseState (row_pause_state r) (plp_column_stream r).

Inductive RowReadResult :=
  | RowWritten
  | ReadToken (t : Tokens DataToken)
  | RowPaused (s : RowPauseState)
  | PlpPaused (s : PlpPauseState).

Inductive RowHeader :=
  | Positioned (s : RowPauseState)
  | HeaderToken (t : Tokens DataToken).

(** ** The driver *)

Section driver.
Context {R : Type} `{ops : TdsPacketReader R} {W : Type} `{wr : RowWriter W} `{half : HalfCrate}.
Context (fuel : nat).

Definition skip_column (meta : ColumnMetadata) (col : nat) : M R unit :=
  if is_plp meta then
    stream <- stream_begin meta ;;
    match stream with
    | Some stream => stream_skip_to_end fuel stream
    | None => ret tt
    end
  else fun r => let '(x, (r', _)) := decode_into (W := DiscardRowWriter) fuel meta col (r, tt) in (x, r').

Section row.
Context (metadata : ColMetadataToken) (decryptor : option CellDecryptor) (bitmap : option bytes).

Definition pause_at (col : nat) : RowPauseState :=
  {| next_column_index := col; pause_metadata := metadata; nbc_null_bitmap := bitmap; pause_decryptor := decryptor |}.

Definition pause_after_column (col : nat) : RowReadResult :=
  if decide (col + 1 < length (cols metadata))%nat then RowPaused (pause_at (col + 1)) else RowWritten.

Definition decode_or_decrypt_column (meta : ColumnMetadata) (col : nat) : M (R * W) unit :=
  match crypto_metadata meta, decryptor with
  | Some _, Some dec => write_read (decrypt_encrypted_column fuel meta dec) (write_column_value col)
  | Some _, None => decode_into fuel meta col
  | None, _ => decode_into fuel meta col
  end.

(** [try_decode_buffered_into] on what is buffered, unless nothing is. *)
Definition try_buffered_column (meta : ColumnMetadata) (col : nat) : M (R * W) (option nat) :=
  now <- from_reader buffered_slice ;;
  match now with
  | [] => ret None
  | _ => fun '(r, w) => let '(x, w') := try_decode_buffered_into now meta col w in (x, (r, w'))
  end.

(** The column is decoded: from the buffer if it is all there. *)
Definition decode_column (meta : ColumnMetadata) (col : nat) : M (R * W) unit :=
  o <- try_buffered_column meta col ;;
  match o with
  | Some consumed =>
      o <- from_reader (try_read_slice consumed) ;;
      match o with
      | Some _ => ret tt
      | None => throw (ProtocolError "Buffered column bytes disappeared before consumption")
      end
  | None => decode_or_decrypt_column meta col
  end.

(** The cursor's target is a PLP column: its header is read and the payload left to the caller. *)
Definition pause_at_plp (meta : ColumnMetadata) (col : nat) : M (R * W) RowReadResult :=
  match crypto_metadata meta with
  | Some _ =>
      throw (UnimplementedFeature "Always Encrypted paused PLP streaming"
               "Encrypted PLP column cannot be streamed via read_active_plp_bytes yet.")
  | None =>
      stream <- from_reader (stream_begin meta) ;;
      match stream with
      | None => to_writer (write_null col) ;; ret (pause_after_column col)
      | Some plp_stream =>
          ret (PlpPaused {| row_pause_state := pause_at (col + 1); plp_column_stream := plp_stream |})
      end
  end.

Definition stops_here (plan : ColumnPolicy) (col : nat) : bool :=
  match plan with DecodeOne target => bool_decide (target = col) | _ => false end.

Definition skips (plan : ColumnPolicy) (col : nat) : bool :=
  match plan with
  | SkipAll => true
  | DecodeOne target => bool_decide (col < target)%nat
  | DecodeAll | DecodePrefix _ => false
  end.

Definition is_null_at (col : nat) : TdsResult bool :=
  match bitmap with Some bm => is_null_value_in_column bm col | None => Ok false end.

(** One turn of the loop: [Some] is an early [return]. *)
Definition drive_column (plan : ColumnPolicy) (col : nat) (meta : ColumnMetadata)
    : M (R * W) (option RowReadResult) :=
  if match plan with DecodePrefix end_ => bool_decide (end_ <= col)%nat | _ => false end
  then ret (Some (RowPaused (pause_at col)))
  else
    let stop_here := stops_here plan col in
    let skip := skips plan col in
    is_null <- lift (is_null_at col) ;;
    if (is_null : bool) then
      (if negb skip then to_writer (write_null col) else ret tt) ;;
      ret (if stop_here then Some (pause_after_column col) else None)
    else if skip then from_reader (skip_column meta col) ;; ret None
    else if stop_here && is_plp meta then result <- pause_at_plp meta col ;; ret (Some result)
    else
      decode_column meta col ;;
      ret (if stop_here then Some (pause_after_column col) else None).

Fixpoint drive_loop (plan : ColumnPolicy) (col : nat) (columns : list ColumnMetadata) : M (R * W) RowReadResult :=
  match columns with
  | [] => ret RowWritten
  | meta :: rest =>
      o <- drive_column plan col meta ;;
      match o with
      | Some result => ret result
      | None => drive_loop plan (S col) rest
      end
  end.

Definition drive_row_columns (start_col : nat) (plan : ColumnPolicy) : M (R * W) RowReadResult :=
  drive_loop plan start_col (drop start_col (cols metadata)).
End row.

Definition resume_row_into_internal (pause_state : RowPauseState) (plan : ColumnPolicy) : M (R * W) RowReadResult :=
  drive_row_columns (pause_metadata pause_state) (pause_decryptor pause_state) (nbc_null_bitmap pause_state)
    (next_column_index pause_state) plan.

(** [fill_bitmap] *)
Definition fill_bitmap (expected : nat) : M R bytes :=
  bs <- read_bytes expected ;;
  if decide (length bs = expected) then ret bs else throw (ProtocolError "NBCROW null bitmap truncated").

Section tokens.
Context (negotiated : option DataClassificationVersion) (context : ParserContext).

Definition receive_row_into_internal (plan : ColumnPolicy) : M (R * W) RowReadResult :=
  token_type_byte <- from_reader read_byte ;;
  token_type <- lift (TokenType_try_from token_type_byte) ;;
  match token_type with
  | TT_Row =>
      '(metadata, decryptor) <- lift (extract_row_context context) ;;
      drive_row_columns metadata decryptor None 0 plan
  | TT_NbcRow =>
      '(metadata, decryptor) <- lift (extract_row_context context) ;;
      bitmap <- from_reader (fill_bitmap (bitmap_length (length (cols metadata)))) ;;
      drive_row_columns metadata decryptor (Some bitmap) 0 plan
  | _ =>
      token <- from_reader (dispatch_token fuel (parse_data fuel negotiated context) token_type) ;;
      ret (ReadToken token)
  end.

Definition receive_row_header_internal : M R RowHeader :=
  token_type_byte <- read_byte ;;
  token_type <- lift (TokenType_try_from token_type_byte) ;;
  match token_type with
  | TT_Row =>
      '(metadata, decryptor) <- lift (extract_row_context context) ;;
      ret (Positioned {| next_column_index := 0; pause_metadata := metadata; nbc_null_bitmap := None;
                         pause_decryptor := decryptor |})
  | TT_NbcRow =>
      '(metadata, decryptor) <- lift (extract_row_context context) ;;
      bitmap <- fill_bitmap (bitmap_length (length (cols metadata))) ;;
      ret (Positioned {| next_column_index := 0; pause_metadata := metadata; nbc_null_bitmap := Some bitmap;
                         pause_decryptor := decryptor |})
  | _ => token <- dispatch_token fuel (parse_data fuel negotiated context) token_type ;; ret (HeaderToken token)
  end.
End tokens.

Definition read_active_plp_bytes_internal (out_len : nat) : M (R * PlpPauseState) bytes := fun '(r, p) =>
  let stream := plp_column_stream p in
  let '(x, (r', s)) := read_into out_len (r, inner stream) in
  (x, (r', p {{ plp_column_stream :=
                  {| plp_type := plp_type stream; stream_collation := stream_collation stream; inner := s |} }})).
End driver.
