(* ===== verification/RowDriverLaws.v ===== *)
(** * What the row driver promises

    Driving a row writes what the row parsers return, whatever is buffered when; a row read in two
    steps is the row read in one; a skipped column uses up the bytes a decoded one does; and no
    bytes make the row tokens panic. *)

From stdpp Require Import strings.
From S2P Require Import Prelude Core Unicode PacketReader ReaderLaws Tokens TokenParsers TokenLaws TokenSafety.
From S2P Require Import DataClassification DataTypes ColMetadata Values Plp PlpLaws Decoder DecoderLaws ColMetadataLaws.
From S2P Require Import BufferedDecoder BufferedDecoderLaws RowWriter RowDecoder ListReader RowLaws Rows RowDriver.

(** What is buffered at once is smaller than the largest value the decoder allocates for. *)
Class BoundedBuffer {R} `{ops : TdsPacketReader R} (delivers : R -> bytes -> Prop) : Prop :=
  bounded_buffer r bs now :
    delivers r bs -> buffered_slice r = (Ok now, r) -> Z.of_nat (length now) <= MAX_ALLOC_SIZE.

(** Every law-abiding reader is bounded on what is left of a message of that size. *)
Definition within {R} (delivers : R -> bytes -> Prop) (r : R) (bs : bytes) : Prop :=
  delivers r bs /\ Z.of_nat (length bs) <= MAX_ALLOC_SIZE.

Section within.
Context {R : Type} {delivers : R -> bytes -> Prop} `{laws : PacketReaderLaws R delivers}.

Lemma within_reads {A} (m : M R A) bs a : reads delivers m bs a -> reads (within delivers) m bs a.
Proof.
  intros H r more [Hd Hl]. destruct (H r more Hd) as (r' & E & Hd'). exists r'. split; [done|]. split; [done|].
  len_simpl. lia.
Qed.

Lemma within_fixed {A} m n (f : bytes -> A) : reads_fixed delivers m n f -> reads_fixed (within delivers) m n f.
Proof. intros H bs Hb. by apply within_reads, H. Qed.

Lemma within_tries {A} (m : M R (option A)) n f : tries delivers m n f -> tries (within delivers) m n f.
Proof.
  intros H bs r more Hb [Hd Hl]. destruct (H bs r more Hb Hd) as [(r' & E & Hd')|E]; [left|by right].
  exists r'. split; [done|]. split; [done|]. len_simpl. lia.
Qed.

#[global] Instance within_laws : PacketReaderLaws R (within delivers).
Proof.
  constructor; intros; try (apply within_fixed; apply laws); try (apply within_tries; apply laws).
  - by apply within_reads, law_skip.
  - destruct H as [Hd Hl]. destruct (law_buffered _ _ Hd) as (now & later & E & -> & Hn).
    exists now, later. split_and!; [done..|]. intros n Hle. destruct (Hn n Hle) as (r' & E' & Hd').
    exists r'. split; [done|]. split; [done|]. len_simpl. lia.
Qed.

#[global] Instance within_bounded : BoundedBuffer (within delivers).
Proof.
  intros r bs now [Hd Hl] E. destruct (law_buffered _ _ Hd) as (now' & later & E' & -> & _).
  rewrite E in E'. simplify_eq. len_simpl. lia.
Qed.
End within.

(** ** A column, then a row *)

Section values.
Context {R : Type} `{ops : TdsPacketReader R} `{half : HalfCrate}.
Context (fuel : nat) (decryptor : option CellDecryptor).

(** [column_value] with the base type of a variant. *)
Definition value_with_base (m : ColumnMetadata) : M R (option TdsDataType * ColumnValues) :=
  match crypto_metadata m, decryptor with
  | Some _, Some dec => v <- decrypt_encrypted_column fuel m dec ;; ret (None, v)
  | _, _ => decode_with_base fuel m
  end.

(** The values of a row, NULL where its bitmap says so. *)
Fixpoint row_with_base (bitmap : option bytes) (col : nat) (columns : list ColumnMetadata)
    : M R (list (option TdsDataType * ColumnValues)) :=
  match columns with
  | [] => ret []
  | m :: rest =>
      is_null <- lift (is_null_at bitmap col) ;;
      v <- (if (is_null : bool) then ret (None, Null) else value_with_base m) ;;
      vs <- row_with_base bitmap (S col) rest ;;
      ret (v :: vs)
  end.

(** What a ROW parser makes of it. *)
Definition parsed_row (bitmap : option bytes) (columns : list ColumnMetadata) : M R (list ColumnValues) :=
  match bitmap with
  | None => row_values fuel decryptor columns
  | Some bm => nbc_row_values fuel decryptor bm 0 columns
  end.

Lemma value_with_base_value m r : column_value fuel decryptor m r = (v <- value_with_base m ;; ret (snd v)) r.
Proof.
  unfold column_value, value_with_base. destruct (crypto_metadata m), decryptor; try apply decode_with_base_value.
  unfold bind. by destruct (decrypt_encrypted_column _ _ _ _) as [[]].
Qed.

Lemma row_values_base columns : forall col r,
  row_values fuel decryptor columns r = (vs <- row_with_base None col columns ;; ret (snd <$> vs)) r.
Proof.
  induction columns as [|m columns IH]; intros col r; [done|]. cbn. unfold bind, lift. rewrite value_with_base_value.
  unfold bind. destruct (value_with_base m r) as [[v|e|p|] r1]; try done. unfold ret. rewrite (IH (S col)).
  unfold bind, ret. by destruct (row_with_base _ _ _ _) as [[]].
Qed.

Lemma nbc_values_base bm columns : forall col r,
  nbc_row_values fuel decryptor bm col columns r = (vs <- row_with_base (Some bm) col columns ;; ret (snd <$> vs)) r.
Proof.
  induction columns as [|m columns IH]; intros col r; [done|]. cbn. unfold bind, lift.
  destruct (is_null_value_in_column bm col) as [[]|e|p|]; try done; unfold ret.
  - rewrite IH. unfold bind, ret. by destruct (row_with_base _ _ _ _) as [[]].
  - rewrite value_with_base_value. unfold bind. destruct (value_with_base m r) as [[v|e|p|] r1]; try done. unfold ret.
    rewrite IH. unfold bind, ret. by destruct (row_with_base _ _ _ _) as [[]].
Qed.

Lemma parsed_row_base bitmap columns r :
  parsed_row bitmap columns r = (vs <- row_with_base bitmap 0 columns ;; ret (snd <$> vs)) r.
Proof. destruct bitmap; [apply nbc_values_base|apply row_values_base]. Qed.
End values.

Fixpoint write_row {W} `{wr : RowWriter W} (col : nat) (vs : list (option TdsDataType * ColumnValues)) (w : W) : W :=
  match vs with
  | [] => w
  | v :: vs => write_row (S col) vs (write_value col v w)
  end.

Section row.
Context {R : Type} {delivers : R -> bytes -> Prop} `{laws : PacketReaderLaws R delivers} `{bound : !BoundedBuffer delivers}.
Context {W : Type} `{wr : RowWriter W} `{wlaws : !RowWriterLaws W} `{half : HalfCrate}.
Context (fuel : nat) (metadata : ColMetadataToken) (decryptor : option CellDecryptor).

Lemma lists_decode_base {R'} {delivers' : R' -> bytes -> Prop} `{laws' : PacketReaderLaws R' delivers'} m :
  lists delivers' (decode_with_base fuel m) (decode_with_base fuel m).
Proof.
  unfold decode_with_base. case_decide; [|list_auto].
  apply lists_variant. intros. apply lists_decode_with. intros. eauto with lists.
Qed.

Lemma lists_decrypt {R'} {delivers' : R' -> bytes -> Prop} `{laws' : PacketReaderLaws R' delivers'} m dec :
  lists delivers' (decrypt_encrypted_column fuel m dec) (decrypt_encrypted_column fuel m dec).
Proof. unfold decrypt_encrypted_column. list_auto. Qed.

Lemma lists_value_base {R'} {delivers' : R' -> bytes -> Prop} `{laws' : PacketReaderLaws R' delivers'} m :
  lists delivers' (value_with_base fuel decryptor m) (value_with_base fuel decryptor m).
Proof.
  pose proof (lists_decode_base (delivers' := delivers') m). pose proof (lists_decrypt (delivers' := delivers') m).
  unfold value_with_base. list_auto.
Qed.

Lemma into_decode_or_decrypt m col :
  lists_into delivers (value_with_base fuel decryptor m) (write_value (W := W) col)
    (decode_or_decrypt_column fuel decryptor m col).
Proof.
  unfold value_with_base, decode_or_decrypt_column. destruct (crypto_metadata m), decryptor; try apply into_value.
  apply into_wrapped; [apply lists_decrypt|done].
Qed.

(** The list runs: a value does not depend on what follows it. *)
Lemma value_local m bs a more :
  value_with_base (R := ByteReader) fuel decryptor m bs = (Ok a, more) ->
  exists used, bs = used ++ more /\ forall tail, value_with_base (R := ByteReader) fuel decryptor m (used ++ tail) = (Ok a, tail).
Proof.
  intros E. pose proof (lists_value_base (delivers' := list_delivers) m bs) as H. rewrite E in H.
  destruct H as (used & Hb & Hr). exists used. split; [done|]. intros tail. by destruct (Hr _ tail eq_refl) as (? & ? & ->).
Qed.

Lemma value_fails m bs e more :
  value_with_base (R := ByteReader) fuel decryptor m bs = (Err e, more) ->
  e = end_of_data \/ forall tail, exists e' r', value_with_base (R := ByteReader) fuel decryptor m (bs ++ tail) = (Err e', r').
Proof.
  intros E. pose proof (lists_value_base (delivers' := list_delivers) m bs) as H. rewrite E in H.
  destruct H as [->|Hf]; [by left|right]. intros tail. by apply (Hf _ tail).
Qed.

Lemma buffered_hit now later m :
  decodable m -> Z.of_nat (length now) <= MAX_ALLOC_SIZE ->
  match try_decode_buffered_base now m with
  | Ok (Some (v, n)) =>
      (n <= length now)%nat /\ value_with_base (R := ByteReader) fuel decryptor m (now ++ later) = (Ok v, drop n now ++ later)
  | Ok None => True
  | Err _ => exists e r', value_with_base (R := ByteReader) fuel decryptor m (now ++ later) = (Err e, r')
  | _ => False
  end.
Proof.
  intros Hm Hl. pose proof (buffered_base_agrees (delivers := list_delivers) fuel m now _ later Hm Hl eq_refl) as H.
  unfold value_with_base. destruct (crypto_metadata m) as [c|] eqn:Ec.
  { unfold try_decode_buffered_base. rewrite Ec. by destruct (is_plp m). }
  destruct (try_decode_buffered_base now m) as [[[v n]|]|e|p|]; try done.
  destruct H as (Hn & r' & E & Hd). by rewrite E, Hd.
Qed.

Lemma try_buffered_spec m col r (w : W) all :
  delivers r all ->
  exists now later, all = now ++ later /\ Z.of_nat (length now) <= MAX_ALLOC_SIZE /\
    (forall n, (n <= length now)%nat ->
      exists r', try_read_slice n r = (Ok (Some (take n now)), r') /\ delivers r' (drop n now ++ later)) /\
    try_buffered_column m col (r, w) =
      (let '(x, w') := if decide (now = []) then (Ok None, w)
                       else write_attempt (write_value col) (try_decode_buffered_base now m) w in (x, (r, w'))).
Proof.
  intros Hd. destruct (law_buffered _ _ Hd) as (now & later & E & -> & Hn). exists now, later.
  split_and!; [done|by eapply bounded_buffer|done|]. unfold try_buffered_column, bind, from_reader. rewrite E.
  destruct now; [done|]. rewrite decide_False by done. by rewrite buffered_into.
Qed.

(** One turn of the driver on a column that is not NULL. *)
Lemma into_column m col :
  decodable m ->
  lists_into delivers (value_with_base fuel decryptor m) (write_value (W := W) col)
    (decode_column fuel decryptor m col).
Proof.
  intros Hm bs. pose proof (into_decode_or_decrypt m col bs) as Hi.
  pose proof (value_local m bs) as Hloc. pose proof (value_fails m bs) as Hfail.
  unfold decode_column. destruct (value_with_base (R := ByteReader) fuel decryptor m bs) as [[a|e|p|] more]; try done.
  - destruct (Hloc _ _ eq_refl) as (used & Hb & Hrun). destruct Hi as (used' & Hb' & Hi).
    assert (used' = used) as -> by (rewrite Hb in Hb'; by apply app_inv_tail in Hb'). exists used. split; [done|].
    intros r w tail Hd. destruct (try_buffered_spec m col r w _ Hd) as (now & later & Hall & Hl & Hn & E). unfold bind at 1. rewrite E.
    destruct (decide (now = [])) as [|Hne]; [by apply Hi|]. pose proof (buffered_hit now later m Hm Hl) as Hh.
    rewrite <- Hall, Hrun in Hh. destruct (try_decode_buffered_base now m) as [[[v n]|]|e|p|]; cbn; try done.
    + destruct Hh as (Hle & [= <- ->]). destruct (Hn n Hle) as (r' & E' & Hd'). exists r'.
      unfold bind, from_reader. by rewrite E'.
    + by apply Hi.
    + by destruct Hh as (? & ? & ?).
  - destruct (Hfail _ _ eq_refl) as [->|Hf]; [by left|]. destruct Hi as [->|Hi]; [by left|right]. intros r w tail Hd.
    destruct (try_buffered_spec m col r w _ Hd) as (now & later & Hall & Hl & Hn & E). unfold bind at 1. rewrite E.
    destruct (decide (now = [])) as [|Hne]; [by eapply Hi|]. pose proof (buffered_hit now later m Hm Hl) as Hh.
    rewrite <- Hall in Hh. destruct (Hf tail) as (e' & r' & Er). rewrite Er in Hh.
    destruct (try_decode_buffered_base now m) as [[[v n]|]|e1|p|]; cbn; try done; [by destruct Hh|by eapply Hi|eauto].
Qed.

Lemma drive_all_column bm col m (st : R * W) :
  drive_column fuel metadata decryptor bm DecodeAll col m st =
  (is_null <- lift (is_null_at bm col) ;;
   (if (is_null : bool) then to_writer (write_null col) else decode_column fuel decryptor m col) ;; ret None) st.
Proof. unfold drive_column. cbn. unfold bind. by destruct (is_null_at bm col) as [[]| | |]. Qed.

Lemma drive_all_writes bm columns : forall col (st : R * W) x st',
  drive_loop fuel metadata decryptor bm DecodeAll col columns st = (Ok x, st') -> x = RowWritten.
Proof.
  induction columns as [|m columns IH]; intros col st x st' E; [cbn in E; unfold ret in E; by simplify_eq|].
  cbn [drive_loop] in E. unfold bind at 1 in E. rewrite drive_all_column in E.
  unfold bind, lift, ret in E. destruct (is_null_at bm col) as [b|e|p|]; try done.
  match type of E with context [(if b then ?x else ?y) st] => destruct ((if b then x else y) st) as [[]] end; try done.
  by eapply IH.
Qed.

Lemma into_drive bm columns : forall col,
  Forall decodable columns ->
  lists_into delivers (row_with_base fuel decryptor bm col columns) (write_row (W := W) col)
    (drive_loop fuel metadata decryptor bm DecodeAll col columns ;; ret tt).
Proof.
  induction columns as [|m columns IH]; intros col Hd.
  { intros bs. exists []. split; [done|]. intros r w tail Hr. by exists r. }
  apply list.Forall_cons in Hd as [Hm Hd]. cbn [row_with_base].
  eapply into_ext_m; [|apply (into_lift (is_null_at bm col))].
  - intros st. cbn [drive_loop]. unfold bind at 1 2. rewrite drive_all_column. unfold bind at 1.
    instantiate (1 := fun is_null : bool =>
      ((if is_null then to_writer (write_null col) else decode_column fuel decryptor m col) ;;
       (drive_loop fuel metadata decryptor bm DecodeAll (S col) columns ;; ret tt))).
    unfold bind, lift. destruct (is_null_at bm col) as [b|e|p|]; try done.
    by match goal with |- context [(if b then ?x else ?y) st] => destruct ((if b then x else y) st) as [[]] end.
  - intros b. eapply into_seq; [|by apply IH|done].
    destruct b; [by apply into_write|by apply into_column].
Qed.
End row.

(** ** Properties *)

(** C16: Driving a row into any row writer, over any law-abiding reader and whatever part of the row is
    buffered at each column, writes exactly the values the ROW parser (or with a null bitmap the
    NBCROW parser) returns for the row's bytes, in column order, and uses up these bytes; a row the
    parser rejects is rejected. *)
Theorem driven_row_agrees {R} {delivers : R -> bytes -> Prop} `{laws : PacketReaderLaws R delivers}
    `{bound : !BoundedBuffer delivers} {W} `{wr : RowWriter W} `{wlaws : !RowWriterLaws W} `{half : HalfCrate}
    fuel metadata decryptor bitmap bs :
  Forall decodable (cols metadata) ->
  match parsed_row (R := ByteReader) fuel decryptor bitmap (cols metadata) bs with
  | (Ok values, more) => exists used based, bs = used ++ more /\ snd <$> based = values /\
      forall r (w : W) tail, delivers r (used ++ tail) -> exists r',
        drive_row_columns fuel metadata decryptor bitmap 0 DecodeAll (r, w) =
          (Ok RowWritten, (r', write_row 0 based w)) /\ delivers r' tail
  | (Err e, _) => e = end_of_data \/ forall r (w : W) tail, delivers r (bs ++ tail) -> exists e' st,
      drive_row_columns fuel metadata decryptor bitmap 0 DecodeAll (r, w) = (Err e', st)
  | _ => True
  end.
Proof.
  intros Hd. rewrite parsed_row_base. unfold bind.
  pose proof (into_drive (delivers := delivers) (W := W) fuel metadata decryptor bitmap (cols metadata) 0 Hd bs) as H.
  unfold drive_row_columns. rewrite drop_0.
  destruct (row_with_base fuel decryptor bitmap 0 (cols metadata) bs) as [[based|e|p|] more]; try done; cbn.
  - destruct H as (used & Hb & H). exists used, based. split_and!; [done..|]. intros r w tail Hr.
    destruct (H r w tail Hr) as (r' & E & Hr'). exists r'. split; [|done]. unfold bind in E.
    destruct (drive_loop _ _ _ _ _ _ _ (r, w)) as [[x|e|p|] st] eqn:Ed; simplify_eq.
    apply drive_all_writes in Ed as ->. unfold ret in E. by simplify_eq.
  - destruct H as [->|H]; [by left|right]. intros r w tail Hr. destruct (H r w tail Hr) as (e' & st & E).
    unfold bind in E. destruct (drive_loop _ _ _ _ _ _ _ (r, w)) as [[x|e1|p|] st1] eqn:Ed; simplify_eq. eauto.
Qed.
