(* ===== verification/RowCursorLaws.v ===== *)
(** * Reading a row column by column

    A row that was paused and resumed is the row read at once; a skipped column uses up the bytes a
    decoded one does, so that a cursor that skips to a column reads the value the row has there. *)

From stdpp Require Import strings.
From S2P Require Import Prelude Core Unicode PacketReader ReaderLaws Tokens TokenParsers TokenLaws TokenSafety.
From S2P Require Import DataClassification DataTypes ColMetadata Values Plp PlpLaws Decoder DecoderLaws ColMetadataLaws.
From S2P Require Import BufferedDecoder BufferedDecoderLaws RowWriter RowDecoder ListReader RowLaws Rows RowDriver.
From S2P Require Import RowDriverLaws.

(** ** Pausing and resuming *)

Section pause.
Context {R : Type} `{ops : TdsPacketReader R} {W : Type} `{wr : RowWriter W} `{half : HalfCrate}.
Context (fuel : nat).

(** What the caller of a paused row does to get the rest of it. *)
Definition then_rest (m : M (R * W) RowReadResult) : M (R * W) RowReadResult :=
  result <- m ;;
  match result with
  | RowPaused s => resume_row_into_internal fuel s DecodeAll
  | _ => ret result
  end.

Section row.
Context (metadata : ColMetadataToken) (decryptor : option CellDecryptor) (bm : option bytes).

Lemma prefix_then_rest end_ columns : forall col st,
  columns = drop col (cols metadata) ->
  then_rest (drive_loop fuel metadata decryptor bm (DecodePrefix end_) col columns) st =
  drive_loop fuel metadata decryptor bm DecodeAll col columns st.
Proof.
  induction columns as [|m columns IH]; intros col st Hc; [done|].
  assert (Hc' : columns = drop (S col) (cols metadata)) by (rewrite <- Nat.add_1_r, <- drop_drop, <- Hc; done).
  cbn [drive_loop]. specialize (IH (S col)). unfold then_rest in *.
  destruct (decide (end_ <= col)%nat) as [He|He].
  { unfold bind at 1 2, drive_column at 1. rewrite bool_decide_eq_true_2 by done.
    unfold ret, resume_row_into_internal, drive_row_columns. cbn [next_column_index pause_at pause_metadata
      pause_decryptor nbc_null_bitmap]. by rewrite <- Hc. }
  assert (Ha : forall st, drive_column fuel metadata decryptor bm (DecodePrefix end_) col m st =
               drive_column fuel metadata decryptor bm DecodeAll col m (st : R * W))
    by (intros; unfold drive_column; by rewrite bool_decide_eq_false_2).
  unfold bind in *. rewrite Ha, drive_all_column. unfold bind, lift.
  destruct (is_null_at bm col) as [[]|e|p|]; try done; [by apply IH|].
  destruct (decode_column _ _ _ _ _) as [[]]; try done. by apply IH.
Qed.

Lemma one_then_rest col m columns st :
  m :: columns = drop col (cols metadata) -> is_plp m = false ->
  then_rest (drive_loop fuel metadata decryptor bm (DecodeOne col) col (m :: columns)) st =
  drive_loop fuel metadata decryptor bm DecodeAll col (m :: columns) st.
Proof.
  intros Hc Hp.
  assert (Hc' : columns = drop (S col) (cols metadata)) by (rewrite <- Nat.add_1_r, <- drop_drop, <- Hc; done).
  assert (Hn : forall st, (match pause_after_column metadata decryptor bm col with
                           | RowPaused s => resume_row_into_internal fuel s DecodeAll
                           | _ => ret (pause_after_column metadata decryptor bm col) end) st =
               drive_loop fuel metadata decryptor bm DecodeAll (S col) columns (st : R * W)).
  { intros st'. unfold pause_after_column. case_decide as Hl; cbn.
    - unfold resume_row_into_internal, drive_row_columns. cbn. by rewrite Nat.add_1_r, <- Hc'.
    - assert (columns = []) as -> by (rewrite Hc'; apply drop_ge; lia). done. }
  cbn [drive_loop]. unfold then_rest, bind. rewrite drive_all_column. unfold drive_column, stops_here, skips.
  rewrite (bool_decide_eq_true_2 (col = col)), (bool_decide_eq_false_2 (col < col)%nat) by lia. rewrite Hp. cbn. unfold bind, lift.
  destruct (is_null_at bm col) as [[]|e|p|]; try done; cbn; [apply Hn|].
  destruct (decode_column _ _ _ _ _) as [[]]; try done. unfold ret. apply Hn.
Qed.
End row.

(** A policy that pauses where [DecodeAll] would go on: before a column, or after the next one (but
    not at a PLP column, which the caller streams). *)
Definition pauses_in (metadata : ColMetadataToken) (start : nat) (plan : ColumnPolicy) : Prop :=
  match plan with
  | DecodePrefix _ => True
  | DecodeOne target => target = start /\ forall m, cols metadata !! target = Some m -> is_plp m = false
  | DecodeAll | SkipAll => False
  end.
End pause.

(** C32: A row that is paused, before a column or after the one that was asked for, and then resumed is
    the row read at once: the same values written, the same result and the same reader. *)
Theorem paused_row_resumes {R} `{ops : TdsPacketReader R} {W} `{wr : RowWriter W} `{half : HalfCrate}
    fuel metadata decryptor bitmap start plan (st : R * W) :
  pauses_in metadata start plan ->
  then_rest fuel (drive_row_columns fuel metadata decryptor bitmap start plan) st =
  drive_row_columns fuel metadata decryptor bitmap start DecodeAll st.
Proof.
  intros Hp. unfold drive_row_columns. destruct plan as [|e|t|]; try done; [by apply prefix_then_rest|].
  destruct Hp as [-> Hp]. destruct (drop start (cols metadata)) as [|m columns] eqn:E; [done|].
  apply one_then_rest; [done|]. apply Hp. by rewrite <- (Nat.add_0_r start), <- lookup_drop, E.
Qed.

(** ** Skipping *)

(** [walk k n w]: after a chunk header of [n], [w] is [k] chunks and the terminator. *)
Inductive walk : nat -> Z -> bytes -> Prop :=
  | walk_end : walk 0 0 []
  | walk_chunk k n c header w :
      0 < n -> Z.of_nat (length c) = n -> length header = 4%nat -> walk k (of_le header) w ->
      walk (S k) n (c ++ header ++ w).

Lemma list_bytes_ok n bs a more :
  read_bytes (R := ByteReader) n bs = (Ok a, more) -> length a = n /\ bs = a ++ more.
Proof.
  cbn. unfold list_read. case_decide; [|done]. intros [= <- <-]. split; [unfold id; len_simpl; lia|].
  symmetry. apply take_drop.
Qed.

Lemma list_uint32_ok (bs : ByteReader) n more :
  sync_uint32 bs = (Ok n, more) -> exists h, length h = 4%nat /\ n = of_le h /\ bs = h ++ more.
Proof.
  intros E. assert (list_read 4 of_le bs = (Ok n, more)) as E' by (rewrite <- E; symmetry; apply list_sync).
  revert E'. unfold list_read. case_decide; [|done]. intros [= <- <-]. exists (take 4 bs).
  split_and!; [len_simpl; lia|done|by rewrite take_drop].
Qed.

(** The chunk just accepted and the header behind it. *)
Lemma walk_step (bs : ByteReader) n c rest h more :
  0 < n -> read_bytes (Z.to_nat n) bs = (Ok c, rest) -> sync_uint32 rest = (Ok h, more) ->
  0 <= h /\ (forall k w last, more = w ++ last -> walk k h w -> exists w', bs = w' ++ last /\ walk (S k) n w').
Proof.
  intros Hn Hc Hh. apply list_bytes_ok in Hc as [Hl ->]. apply list_uint32_ok in Hh as (hd & Hl4 & -> & ->).
  split; [apply of_le_range|]. intros k w last -> Hw. exists (c ++ hd ++ w). split; [by rewrite <- !app_assoc|]. constructor; [done|lia|done|done].
Qed.

Lemma unknown_walks fuel : forall acc total n (bs : ByteReader) a more,
  0 <= n -> unknown_len_loop fuel acc total n bs = (Ok a, more) -> exists k w, (k < fuel)%nat /\ bs = w ++ more /\ walk k n w.
Proof.
  induction fuel as [|fuel IH]; intros acc total n bs a more Hn E; [done|]. cbn [unknown_len_loop] in E.
  destruct (Z.ltb_spec 0 n) as [Hpos|]; [|unfold ret in E; simplify_eq; exists 0%nat, []; replace n with 0 by lia; split_and!; [lia|done|constructor]].
  apply bind_inv_ok in E as (? & ? & E0 & E). unfold lift in E0. simplify_eq. case_match; [|done]. case_match; [done|].
  apply bind_inv_ok in E as (c & rest & Ec & E). case_match; [done|]. apply bind_inv_ok in E as (h & more' & Eh & E).
  destruct (walk_step _ _ _ _ _ _ Hpos Ec Eh) as [Hh Hs]. destruct (IH _ _ _ _ _ _ Hh E) as (k & w & Hk & Hb & Hw).
  destruct (Hs _ _ _ Hb Hw) as (w' & -> & Hw'). exists (S k), w'. split_and!; [lia|done|done].
Qed.

Lemma slice_walks fuel : forall acc d1 d2 n (bs : ByteReader) a more,
  0 <= n -> into_slice_loop fuel acc d1 d2 n bs = (Ok a, more) -> exists k w, (k < fuel)%nat /\ bs = w ++ more /\ walk k n w.
Proof.
  induction fuel as [|fuel IH]; intros acc d1 d2 n bs a more Hn E; [done|]. cbn [into_slice_loop] in E.
  destruct (Z.ltb_spec 0 n) as [Hpos|]; [|unfold ret in E; simplify_eq; exists 0%nat, []; replace n with 0 by lia; split_and!; [lia|done|constructor]].
  apply bind_inv_ok in E as (? & ? & E0 & E). unfold lift in E0. simplify_eq. case_match; [|done]. case_match; [done|].
  apply bind_inv_ok in E as (c & rest & Ec & E). apply bind_inv_ok in E as (h & more' & Eh & E).
  destruct (walk_step _ _ _ _ _ _ Hpos Ec Eh) as [Hh Hs]. destruct (IH _ _ _ _ _ _ _ Hh E) as (k & w & Hk & Hb & Hw).
  destruct (Hs _ _ _ Hb Hw) as (w' & -> & Hw'). exists (S k), w'. split_and!; [lia|done|done].
Qed.

(** What PLP values look like to the reader that collects them. *)
Definition plp_wire (fuel : nat) (w : bytes) : Prop :=
  exists hd, length hd = 8%nat /\
    (w = hd /\ as_u64 (of_le_signed hd) = SQL_PLP_NULL \/
     exists h k w', w = hd ++ h ++ w' /\ length h = 4%nat /\ (k < fuel)%nat /\ walk k (of_le h) w' /\
       as_u64 (of_le_signed hd) <> SQL_PLP_NULL).

Lemma plp_bytes_wire fuel (bs : ByteReader) o more :
  read_plp_bytes fuel bs = (Ok o, more) -> exists w, bs = w ++ more /\ plp_wire fuel w.
Proof.
  unfold read_plp_bytes. intros (f & bs1 & Ef & E)%bind_inv_ok. unfold read_plp_framing in Ef.
  apply bind_inv_ok in Ef as (n & bs2 & En & Ef).
  assert (list_read 8 of_le_signed bs = (Ok n, bs2)) as En' by (rewrite <- En; symmetry; apply list_sync).
  revert En'. unfold list_read. case_decide; [|done]. intros [= <- <-].
  destruct (Z.eqb_spec (as_u64 (of_le_signed (take 8 bs))) SQL_PLP_NULL) as [Hn|Hn].
  { unfold ret in Ef, E. simplify_eq. exists (take 8 bs). split; [by rewrite take_drop|].
    exists (take 8 bs). split; [len_simpl; lia|]. by left. }
  assert (bs1 = drop 8 bs) as -> by (repeat case_match; unfold ret, throw in Ef; by simplify_eq).
  assert (exists h k w, length h = 4%nat /\ drop 8 bs = h ++ w ++ more /\ (k < fuel)%nat /\ walk k (of_le h) w)
    as (h & k & w & Hl & Hd & Hk & Hw).
  { destruct f as [|len|]; [by repeat case_match; simplify_eq|..]; apply bind_inv_ok in E as (v & bs3 & Ev & E);
      unfold ret in E; simplify_eq; apply bind_inv_ok in Ev as (h & bs4 & Eh & Ev);
      apply list_uint32_ok in Eh as (hd & Hl & -> & ->);
      [apply slice_walks in Ev|apply unknown_walks in Ev]; try apply of_le_range;
      destruct Ev as (k & w & Hk & -> & Hw); by exists hd, k, w. }
  exists (take 8 bs ++ h ++ w). split; [by rewrite <- !app_assoc, <- Hd, take_drop|].
  exists (take 8 bs). split; [len_simpl; lia|]. right. by exists h, k, w.
Qed.

(** A read that fails, or ends right behind [w]. *)
Definition steps_over {R S A} (delivers : R -> bytes -> Prop) (reader : S -> R) (m : M S A) (w : bytes) (s : S) : Prop :=
  forall tail, delivers (reader s) (w ++ tail) ->
  match m s with
  | (Ok _, s') => delivers (reader s') tail
  | (Err _, _) => True
  | _ => False
  end.

Section skip.
Context {R : Type} {delivers : R -> bytes -> Prop} `{laws : PacketReaderLaws R delivers} `{half : HalfCrate}.

Lemma accept_nonzero n s x s' :
  0 < n -> accept_chunk_length n s = (x, s') ->
  (exists e, x = Err e) \/ x = Ok true /\ chunk_remaining s' = n /\ reached_end s' = reached_end s.
Proof.
  intros Hn. unfold accept_chunk_length. destruct (Z.eqb_spec n 0); [lia|].
  repeat case_match; intros [= <- <-]; eauto; right; by destruct s.
Qed.

Lemma reads_header h : length h = 4%nat -> reads delivers sync_uint32 h (of_le h).
Proof.
  intros Hl. eapply reads_fixed_at; [apply sync_first_fixed; [apply law_try_uint32|apply law_uint32]|done..].
Qed.

Lemma skip_walk k : forall fuel h w s,
  (k < fuel)%nat -> length h = 4%nat -> walk k (of_le h) w -> reached_end s = false -> chunk_remaining s = 0 ->
  forall r, steps_over delivers fst (skip_to_end fuel) (h ++ w) (r, s).
Proof.
  induction k as [|k IH]; intros fuel h w s Hk Hl Hw Hr Hc r tail Hd; (destruct fuel as [|fuel]; [lia|]); cbn [fst] in Hd;
    rewrite <- app_assoc in Hd; destruct (reads_header h Hl r _ Hd) as (r1 & E1 & Hd1);
    pose proof (ensure_next r s _ r1 Hr Hc E1) as Ee; destruct (accept_chunk_length (of_le h) s) as [x s1] eqn:Ea.
  - inversion Hw; subst. cbn [app] in Hd1. assert (of_le h = 0) as Hh by done. unfold accept_chunk_length in Ea. rewrite Hh in Ea. cbn in Ea.
    cbn [skip_to_end]. unfold bind at 1. rewrite Ee. unfold ret. by repeat case_match; simplify_eq.
  - inversion Hw as [|k' n c h' w' Hn Hlc Hlh Hw']; subst. destruct (accept_nonzero _ _ _ _ Hn Ea) as [[e ->]|(-> & Hc1 & Hr1)].
    { cbn [skip_to_end]. unfold bind at 1. by rewrite Ee. }
    rewrite <- !app_assoc in Hd1.
    destruct (reads_skip (Z.to_nat (chunk_remaining s1)) c ltac:(rewrite Hc1; lia) r1 _ Hd1) as (r2 & E2 & Hd2).
    rewrite (skip_round _ _ _ _ _ _ Ee ltac:(lia) E2).
    apply (IH fuel h' w'); cbn; [lia|done|done| |lia|by rewrite <- app_assoc]. by rewrite Hr1.
Qed.

Lemma plp_header_starts n :
  match plp_header n with
  | Ok (Some s) => as_u64 n <> SQL_PLP_NULL /\ reached_end s = false /\ chunk_remaining s = 0
  | Ok None => as_u64 n = SQL_PLP_NULL
  | Err _ => True
  | _ => False
  end.
Proof.
  unfold plp_header, rbind. destruct (Z.eqb_spec (as_u64 n) SQL_PLP_NULL); [done|]. by repeat case_match; simplify_eq.
Qed.

Lemma skip_plp fuel m col w r :
  is_plp m = true -> plp_wire fuel w -> steps_over delivers id (skip_column fuel m col) w r.
Proof.
  intros Hp (hd & Hl & Hw) tail Hd. unfold skip_column. rewrite Hp. unfold stream_begin, type_from_metadata.
  unfold is_plp in Hp. destruct (type_info_variant (type_info m)); try done. cbn [lift].
  assert (reads delivers (read_sync_first try_read_int64 read_int64) hd (of_le_signed hd)) as Hr.
  { eapply reads_fixed_at; [apply sync_first_fixed; [apply law_try_int64|apply law_int64]|done..]. }
  unfold plp_begin. assert (exists u, w = hd ++ u) as (u & ->) by (destruct Hw as [[-> _]|(h & k & w' & -> & _)];
    [exists []; by rewrite app_nil_r|eauto]). unfold id in Hd. rewrite <- app_assoc in Hd.
  destruct (Hr r _ Hd) as (r1 & E1 & Hd1). unfold bind, lift. rewrite E1.
  pose proof (plp_header_starts (of_le_signed hd)) as Hh.
  destruct (plp_header (of_le_signed hd)) as [[s|]|e|p|]; try done; unfold ret; cbn;
    destruct Hw as [[Hw Hn]|(h & k & w' & Hw & Hl4 & Hk & Hwk & Hn)]; try by destruct Hh.
  - apply app_inv_head in Hw as ->. destruct Hh as (_ & Hr1 & Hc1). unfold stream_skip_to_end. cbn [inner].
    pose proof (skip_walk k fuel h w' s Hk Hl4 Hwk Hr1 Hc1 r1 tail Hd1) as Hs. by destruct (skip_to_end fuel _) as [[] []].
  - rewrite <- (app_nil_r hd) in Hw at 2. by apply app_inv_head in Hw as ->.
Qed.

(** A column of a PLP layout has one of the PLP types, as COLMETADATA makes it. *)
Definition plp_typed (m : ColumnMetadata) : Prop :=
  is_plp m = true -> exists pt, PartialLengthType_try_from (data_type m) = Ok pt.

Lemma decode_plp_wire fuel m (bs : ByteReader) v more :
  is_plp m = true -> plp_typed m -> decode fuel m bs = (Ok v, more) -> exists w, bs = w ++ more /\ plp_wire fuel w.
Proof.
  intros Hp [pt Ht] E; [done|]. unfold decode in E. unfold decode_with at 1 in E. unfold decode_string, decode_plp in E. rewrite Hp in E.
  destruct (data_type m); try done; cbn [negb] in E;
    lazymatch type of E with
    | context [get_encoding_type] => apply bind_inv_ok in E as (e & bs0 & E0 & E); unfold lift in E0; simplify_eq
    | _ => idtac
    end;
    apply bind_inv_ok in E as (o & bs1 & E1 & E); apply plp_bytes_wire in E1 as (w & -> & Hw);
    exists w; (split; [|done]); f_equal; by destruct o; unfold ret in E; simplify_eq.
Qed.

(** A column that is skipped ends where the decoded one does. *)
Lemma skip_value fuel dec m col (bs : ByteReader) v more :
  plp_typed m -> value_with_base fuel dec m bs = (Ok v, more) ->
  exists used, bs = used ++ more /\ forall r, steps_over delivers id (skip_column fuel m col) used r.
Proof.
  intros Ht E. assert (exists v', decode_with_base fuel m bs = (Ok v', more)) as (v' & E').
  { unfold value_with_base in E. destruct (crypto_metadata m), dec; eauto. apply bind_inv_ok in E as (x & bs1 & E & Er).
    apply bind_inv_ok in E as (y & bs2 & E & Ey). rewrite decode_with_base_value in E. apply bind_inv_ok in E as (z & bs3 & E & Ez).
    unfold ret in *. simplify_eq. exists z. rewrite E. f_equal. unfold lift, throw in *. by repeat case_match; simplify_eq. }
  destruct (is_plp m) eqn:Hp.
  - assert (decode fuel m bs = (Ok (snd v'), more)) as Ed by (rewrite decode_with_base_value; by erewrite bind_ok).
    destruct (decode_plp_wire fuel m bs _ _ Hp Ht Ed) as (w & -> & Hw). exists w. split; [done|]. intros r. by apply skip_plp.
  - pose proof (into_value (delivers := delivers) (W := DiscardRowWriter) fuel m col bs) as Hi. rewrite E' in Hi.
    destruct Hi as (used & -> & Hi). exists used. split; [done|]. intros r tail Hd. unfold skip_column. rewrite Hp.
    destruct (Hi r tt tail Hd) as (r' & E2 & Hd'). unfold DiscardRowWriter in *. by rewrite E2.
Qed.
End skip.

Section cursor.
Context {R : Type} {delivers : R -> bytes -> Prop} `{laws : PacketReaderLaws R delivers} `{bound : !BoundedBuffer delivers}.
Context {W : Type} `{wr : RowWriter W} `{wlaws : !RowWriterLaws W} `{half : HalfCrate}.
Context (fuel : nat) (metadata : ColMetadataToken) (decryptor : option CellDecryptor) (bm : option bytes) (target : nat).

(** The cursor on column [target]: it fails, or [v] is written and the rest of the row [vs] is next. *)
Definition cursor_at (columns : list ColumnMetadata) (v : option TdsDataType * ColumnValues)
    (vs : list (option TdsDataType * ColumnValues)) (more tail : bytes) (w : W)
    (x : TdsResult RowReadResult * (R * W)) : Prop :=
  match x with
  | (Ok result, (r', w')) =>
      result = pause_after_column metadata decryptor bm target /\ w' = write_value target v w /\
      exists rest, delivers r' (rest ++ tail) /\
        row_with_base fuel decryptor bm (S target) columns (rest ++ more : ByteReader) = (Ok vs, more)
  | (Err _, _) => True
  | _ => False
  end.

Lemma row_cons_inv m columns col (bs : ByteReader) vs more :
  row_with_base fuel decryptor bm col (m :: columns) bs = (Ok vs, more) ->
  exists b v vs' bs1, is_null_at bm col = Ok b /\ vs = v :: vs' /\
    (if (b : bool) then ret (None, Null) else value_with_base fuel decryptor m) bs = (Ok v, bs1) /\
    row_with_base fuel decryptor bm (S col) columns bs1 = (Ok vs', more).
Proof.
  cbn [row_with_base]. intros (b & bs0 & Eb & (v & bs1 & Ev & (vs' & bs2 & Evs & E)%bind_inv_ok)%bind_inv_ok)%bind_inv_ok.
  unfold lift in Eb. unfold ret in E. simplify_eq. by exists b, v, vs', bs1.
Qed.

(** A row's bytes end where its values do. *)
Lemma row_used columns : forall col (bs : ByteReader) vs more,
  row_with_base fuel decryptor bm col columns bs = (Ok vs, more) -> exists used, bs = used ++ more.
Proof.
  induction columns as [|m columns IH]; intros col bs vs more E; [unfold row_with_base, ret in E; simplify_eq; by exists []|].
  apply row_cons_inv in E as (b & v & vs' & bs1 & _ & _ & Ev & E). destruct (IH _ _ _ _ E) as (u & ->).
  destruct b; [unfold ret in Ev; simplify_eq; eauto|]. apply value_local in Ev as (u1 & -> & _).
  exists (u1 ++ u). by rewrite app_assoc.
Qed.

(** The turn at the target itself. *)
Lemma cursor_target m columns (bs : ByteReader) v vs more :
  decodable m -> is_plp m = false ->
  row_with_base fuel decryptor bm target (m :: columns) bs = (Ok (v :: vs), more) ->
  exists used, bs = used ++ more /\ forall r w tail, delivers r (used ++ tail) ->
    cursor_at columns v vs more tail w
      (drive_loop fuel metadata decryptor bm (DecodeOne target) target (m :: columns) (r, w)).
Proof.
  intros Hm Hp E. apply row_cons_inv in E as (b & v' & vs' & bs1 & Eb & [= <- <-] & Ev & E).
  destruct (row_used _ _ _ _ _ E) as (u & ->). cbn [drive_loop]. unfold drive_column, stops_here, skips.
  rewrite (bool_decide_eq_true_2 (target = target)), (bool_decide_eq_false_2 (target < target)%nat), Hp by lia.
  cbn [negb andb]. rewrite Eb. destruct b.
  - unfold ret in Ev. simplify_eq. exists u. split; [done|]. intros r w tail Hd. cbn. split_and!; [done..|]. by exists u.
  - pose proof (into_column (delivers := delivers) (W := W) fuel decryptor m target Hm bs) as Hi. rewrite Ev in Hi.
    destruct Hi as (u1 & -> & Hi). exists (u1 ++ u). split; [by rewrite app_assoc|]. intros r w tail Hd.
    rewrite <- app_assoc in Hd. destruct (Hi r w _ Hd) as (r' & E1 & Hd'). unfold bind, lift. rewrite E1. cbn.
    split_and!; [done..|]. by exists u.
Qed.

Lemma cursor_reads columns : forall col (bs : ByteReader) vs more m v,
  Forall decodable columns -> Forall plp_typed columns -> (col <= target)%nat ->
  columns !! (target - col)%nat = Some m -> is_plp m = false -> vs !! (target - col)%nat = Some v ->
  row_with_base fuel decryptor bm col columns bs = (Ok vs, more) ->
  exists used, bs = used ++ more /\ forall r w tail, delivers r (used ++ tail) ->
    cursor_at (drop (S (target - col)) columns) v (drop (S (target - col)) vs) more tail w
      (drive_loop fuel metadata decryptor bm (DecodeOne target) col columns (r, w)).
Proof.
  induction columns as [|m0 columns IH]; intros col bs vs more m v Hd Ht Hc Hm Hp Hv E; [done|].
  apply list.Forall_cons in Hd as [Hd0 Hd]. apply list.Forall_cons in Ht as [Ht0 Ht].
  destruct (decide (col = target)) as [->|Hne].
  { rewrite Nat.sub_diag in *. cbn in Hm. simplify_eq. destruct vs as [|v0 vs]; [done|]. cbn in Hv. simplify_eq. cbn.
    by apply cursor_target. }
  replace (target - col)%nat with (S (target - S col))%nat in * by lia. cbn in Hm.
  apply row_cons_inv in E as (b & v0 & vs' & bs1 & Eb & -> & Ev & E). cbn in Hv.
  destruct (IH (S col) bs1 vs' more m v Hd Ht ltac:(lia) Hm Hp Hv E) as (u & -> & Hu).
  cbn [drive_loop]. unfold drive_column, stops_here, skips.
  rewrite (bool_decide_eq_false_2 (target = col)), (bool_decide_eq_true_2 (col < target)%nat) by lia. rewrite Eb. destruct b.
  - unfold ret in Ev. simplify_eq. exists u. split; [done|]. intros r w tail Hr. by apply Hu.
  - destruct (skip_value (delivers := delivers) fuel decryptor m0 col bs v0 _ Ht0 Ev) as (u1 & -> & Hs).
    exists (u1 ++ u). split; [by rewrite app_assoc|]. intros r w tail Hr. rewrite <- app_assoc in Hr.
    specialize (Hs r _ Hr). unfold bind, lift, from_reader. destruct (skip_column fuel m0 col r) as [[] r1]; try done.
    by apply Hu.
Qed.
End cursor.

(** ** Properties *)

(** A column that is skipped (streamed over without decoding if it is a PLP column) ends at the byte
    where decoding it ends, over any law-abiding reader, or fails; it never panics. *)
Theorem skipped_column_in_step {R} {delivers : R -> bytes -> Prop} `{laws : PacketReaderLaws R delivers}
    `{half : HalfCrate} fuel m col (bs : ByteReader) v more :
  plp_typed m -> decode fuel m bs = (Ok v, more) ->
  exists used, bs = used ++ more /\ forall r tail, delivers r (used ++ tail) ->
    match skip_column fuel m col r with
    | (Ok _, r') => delivers r' tail
    | (Err _, _) => True
    | _ => False
    end.
Proof.
  intros Ht E. rewrite decode_with_base_value in E. apply bind_inv_ok in E as (v' & bs' & E & Er). unfold ret in Er.
  simplify_eq. assert (value_with_base fuel None m bs = (Ok v', more)) as E'
    by (unfold value_with_base; by destruct (crypto_metadata m)).
  destruct (skip_value (delivers := delivers) fuel None m col bs v' more Ht E') as (used & Hb & Hs).
  exists used. split; [done|]. intros r tail Hd. by apply Hs.
Qed.

Lemma row_lookup {R} `{ops : TdsPacketReader R} `{half : HalfCrate} fuel dec bm columns : forall col r vs r' i m,
  row_with_base fuel dec bm col columns r = (Ok vs, r') -> columns !! i = Some m -> exists v, vs !! i = Some v.
Proof.
  induction columns as [|m0 columns IH]; intros col r vs r' i m E Hi; [done|]. cbn [row_with_base] in E.
  apply bind_inv_ok in E as (b & r0 & _ & E). apply bind_inv_ok in E as (v & r1 & _ & E).
  apply bind_inv_ok in E as (vs' & r2 & Evs & E). unfold ret in E. simplify_eq. destruct i as [|i]; [by exists v|].
  apply (IH _ _ _ _ _ _ Evs Hi).
Qed.

(** A cursor that skips to a column (not a PLP one, which it would stream) and decodes only that one
    writes the value the row parser returns for that column, and leaves the rest of the row next on
    the reader, for another read or for skipping it. *)
Theorem cursor_reads_the_column {R} {delivers : R -> bytes -> Prop} `{laws : PacketReaderLaws R delivers}
    `{bound : !BoundedBuffer delivers} {W} `{wr : RowWriter W} `{wlaws : !RowWriterLaws W} `{half : HalfCrate}
    fuel metadata decryptor bm target (bs : ByteReader) values more m :
  Forall decodable (cols metadata) -> Forall plp_typed (cols metadata) ->
  cols metadata !! target = Some m -> is_plp m = false ->
  parsed_row fuel decryptor bm (cols metadata) bs = (Ok values, more) ->
  exists used v vs, bs = used ++ more /\ values !! target = Some (snd v) /\
    forall r (w : W) tail, delivers r (used ++ tail) ->
      cursor_at (delivers := delivers) fuel metadata decryptor bm target (drop (S target) (cols metadata)) v vs more tail w
        (drive_row_columns fuel metadata decryptor bm 0 (DecodeOne target) (r, w)).
Proof.
  intros Hd Ht Hm Hp E. rewrite parsed_row_base in E. apply bind_inv_ok in E as (vs & bs' & E & Er).
  unfold ret in Er. simplify_eq. destruct (row_lookup _ _ _ _ _ _ _ _ _ _ E Hm) as (v & Hv).
  pose proof (cursor_reads (delivers := delivers) (W := W) fuel metadata decryptor bm target (cols metadata) 0 bs vs more m v
    Hd Ht ltac:(lia)) as H. rewrite Nat.sub_0_r in H. destruct (H Hm Hp Hv E) as (used & Hb & Hu).
  exists used, v, (drop (S target) vs). split_and!; [done|by rewrite list_lookup_fmap, Hv|]. intros r w tail Hr.
  unfold drive_row_columns. rewrite drop_0. by apply Hu.
Qed.

#[local] Instance no_half : HalfCrate := {| f16_to_f32 := id |}.

(** A row of an XML value in two chunks and an integer. *)
Definition sample_row_columns : ColMetadataToken :=
  {| column_count := 2; cols := [xml_column; id_column]; cek_table := [] |}.
Definition sample_row_bytes : bytes :=
  encode_plp false sample_chunks ++ (byte_of <$> [4; 1; 2; 0; 0]).
Definition sample_row_values : list ColumnValues := [Xml {| xml_bytes := byte_of <$> [1; 2; 3; 4; 5; 6] |}; Int 513].

Lemma sample_row_decodable : Forall decodable (cols sample_row_columns).
Proof. repeat constructor; by intros ? [=]. Qed.

Lemma sample_row_typed : Forall plp_typed (cols sample_row_columns).
Proof. repeat constructor; intros Hp; [by exists PL_Xml|done]. Qed.

Lemma sample_row_parsed :
  parsed_row (R := ByteReader) 9 None None (cols sample_row_columns) sample_row_bytes = (Ok sample_row_values, []).
Proof. vm_compute. reflexivity. Qed.

Lemma driven_row_agrees_witness :
  exists used based, sample_row_bytes = used ++ [] /\ snd <$> based = sample_row_values /\
    forall r (w : DefaultRowWriter) tail, within list_delivers r (used ++ tail) -> exists r',
      drive_row_columns (R := ByteReader) 9 sample_row_columns None None 0 DecodeAll (r, w) =
        (Ok RowWritten, (r', write_row 0 based w)) /\ within list_delivers r' tail.
Proof.
  pose proof (driven_row_agrees (delivers := within list_delivers) (W := DefaultRowWriter) 9 sample_row_columns None None
    sample_row_bytes sample_row_decodable) as H. rewrite sample_row_parsed in H. exact H.
Defined.

Lemma paused_row_resumes_witness :
  then_rest 9 (drive_row_columns (R := ByteReader) 9 sample_row_columns None None 0 (DecodePrefix 1))
    (sample_row_bytes, DefaultRowWriter_new) =
  drive_row_columns 9 sample_row_columns None None 0 DecodeAll (sample_row_bytes, DefaultRowWriter_new).
Proof. apply (paused_row_resumes 9 sample_row_columns None None 0 (DecodePrefix 1)). exact I. Defined.

Lemma skipped_column_in_step_witness :
  exists used, sample_row_bytes = used ++ (byte_of <$> [4; 1; 2; 0; 0]) /\
    forall r tail, list_delivers r (used ++ tail) ->
    match skip_column (R := ByteReader) 9 xml_column 0 r with
    | (Ok _, r') => list_delivers r' tail
    | (Err _, _) => True
    | _ => False
    end.
Proof.
  apply (skipped_column_in_step (delivers := list_delivers) 9 xml_column 0 sample_row_bytes
    (Xml {| xml_bytes := byte_of <$> [1; 2; 3; 4; 5; 6] |})); [intros _; by exists PL_Xml|vm_compute; reflexivity].
Defined.

Lemma cursor_reads_the_column_witness :
  exists used v vs, sample_row_bytes = used ++ [] /\ sample_row_values !! 1%nat = Some (snd v) /\
    forall r (w : DefaultRowWriter) tail, within list_delivers r (used ++ tail) ->
      cursor_at (delivers := within list_delivers) 9 sample_row_columns None None 1 [] v vs [] tail w
        (drive_row_columns (R := ByteReader) 9 sample_row_columns None None 0 (DecodeOne 1) (r, w)).
Proof.
  apply (cursor_reads_the_column (delivers := within list_delivers) (W := DefaultRowWriter) 9 sample_row_columns None None 1
    sample_row_bytes sample_row_values [] id_column sample_row_decodable sample_row_typed eq_refl eq_refl sample_row_parsed).
Defined.
