(* ===== verification/RowSafety.v ===== *)
(** * No bytes make the row tokens panic

    The parsers and the row driver on arbitrary bytes: they end with a value or an error, and the
    column metadata a server sends is fit for the rows that follow. *)

From stdpp Require Import strings.
From S2P Require Import Prelude Core ReadBuffer Transport Framing Unicode PacketReader Reader ReaderLaws.
From S2P Require Import Tokens TokenParsers TokenLaws TokenSafety DataClassification DataClassificationLaws DataTypes ColMetadata Values.
From S2P Require Import Plp PlpLaws Decoder DecoderLaws ColMetadataLaws BufferedDecoder BufferedDecoderLaws RowWriter RowDecoder.
From S2P Require Import ListReader RowLaws Rows RowDriver RowDriverLaws RowCursorLaws.

(** A decryptor ends with a value or an error. *)
Definition decryptor_ok (d : option CellDecryptor) : Prop :=
  match d with Some dec => forall cm bs, completes (dec cm bs) | None => True end.

(** The context COLMETADATA leaves for the rows. *)
Definition context_ok (context : ParserContext) : Prop :=
  match context with
  | CtxColumnMetadata metadata decryptor => Forall decodable (cols metadata) /\ decryptor_ok decryptor
  | _ => True
  end.

Definition data_token_ok (d : DataToken) : Prop :=
  match d with D_ColMetadata t => col_metadata_ok t | _ => True end.

Section safety.
Context {R : Type} {inv : R -> Prop} {left : R -> nat} `{rd : SafeReader R inv left} `{half : HalfCrate}.

Lemma safe_for_seq fuel {A B} (m : M R A) (f : A -> M R B) :
  safe_for (inv := inv) (left := left) fuel m -> (forall a, safe_for (inv := inv) (left := left) fuel (f a)) ->
  safe_for (inv := inv) (left := left) fuel (bind m f).
Proof.
  intros Hm Hf r Hr Hl. apply (gives_at_bind 0 0 (fun _ => True)); [by apply Hm|]. intros a r' Hr' _ Hl'.
  apply Hf; [done|lia].
Qed.

Lemma decrypt_safe fuel m dec :
  decodable m -> (forall cm bs, completes (dec cm bs)) ->
  safe_for (inv := inv) (left := left) fuel (decrypt_encrypted_column fuel m dec).
Proof.
  intros Hm Hd. apply safe_for_seq; [by apply decode_safe|]. intros v. apply safe_for_safe.
  destruct v; try safe_end. case_match; [by apply lift_safe|safe_end].
Qed.

Lemma column_value_safe fuel dec m :
  decodable m -> decryptor_ok dec -> safe_for (inv := inv) (left := left) fuel (column_value fuel dec m).
Proof.
  intros Hm Hd. unfold column_value.
  destruct (crypto_metadata m), dec; try (by apply decode_safe). by apply decrypt_safe.
Qed.

Lemma row_values_safe fuel dec columns :
  Forall decodable columns -> decryptor_ok dec -> safe_for (inv := inv) (left := left) fuel (row_values fuel dec columns).
Proof.
  intros Hc Hd. induction Hc as [|m columns Hm Hc IH]; cbn [row_values]; [apply safe_for_safe; safe_end|].
  apply safe_for_seq; [by apply column_value_safe|]. intros v. apply safe_for_seq; [done|]. intros vs.
  apply safe_for_safe. safe_end.
Qed.

Lemma null_bit_ok bitmap index : (index / 8 < length bitmap)%nat -> exists b, is_null_value_in_column bitmap index = Ok b.
Proof.
  intros H. unfold is_null_value_in_column. destruct (lookup_lt_is_Some_2 _ _ H) as [b ->]. eauto.
Qed.

Lemma bitmap_covers n : (n <= 8 * bitmap_length n)%nat.
Proof.
  unfold bitmap_length. pose proof (Nat.div_mod_eq (n + 7) 8). pose proof (Nat.mod_upper_bound (n + 7) 8). lia.
Qed.

Lemma nbc_row_values_safe fuel dec bitmap columns : forall index,
  (index + length columns <= 8 * length bitmap)%nat -> Forall decodable columns -> decryptor_ok dec ->
  safe_for (inv := inv) (left := left) fuel (nbc_row_values fuel dec bitmap index columns).
Proof.
  induction columns as [|m columns IH]; intros index Hb Hc Hd; cbn [nbc_row_values]; [apply safe_for_safe; safe_end|].
  apply list.Forall_cons in Hc as [Hm Hc]. cbn in Hb. destruct (null_bit_ok bitmap index ltac:(apply Nat.Div0.div_lt_upper_bound; lia)) as [b ->].
  apply safe_for_seq; [apply safe_for_safe; by apply lift_safe|]. intros b'.
  apply safe_for_seq; [destruct b'; [apply safe_for_safe; safe_end|by apply column_value_safe]|]. intros v.
  apply safe_for_seq; [apply IH; [lia|done|done]|]. intros vs. apply safe_for_safe. safe_end.
Qed.

Lemma parse_row_safe fuel context :
  context_ok context -> safe_for (inv := inv) (left := left) fuel (parse_row fuel context).
Proof.
  destruct context as [md dec| |]; intros Hc; try (apply safe_for_safe; safe_end). by apply row_values_safe; apply Hc.
Qed.

Lemma parse_nbc_row_safe fuel context :
  context_ok context -> safe_for (inv := inv) (left := left) fuel (parse_nbc_row fuel context).
Proof.
  destruct context as [md dec| |]; intros Hc; try (apply safe_for_safe; safe_end). destruct Hc as [Hc Hd].
  eapply safe_for_bind; [apply safe_bytes|]. intros bs Hb. cbv beta in Hb. apply nbc_row_values_safe; [|done|done].
  rewrite Hb. apply bitmap_covers.
Qed.

Lemma data_type_completes v : completes (TdsDataType_try_from v).
Proof. unfold TdsDataType_try_from. by repeat case_match. Qed.

Lemma parse_return_value_safe fuel : safe_for (inv := inv) (left := left) fuel (parse_return_value fuel).
Proof.
  unfold parse_return_value. eapply safe_for_bind; [apply safe_uint16|]. intros o _.
  eapply safe_for_bind; [apply safe_byte|]. intros n Hn.
  replace (Z.to_nat (n * 2)) with (Z.to_nat n * 2)%nat by (cbv beta in Hn; lia).
  eapply safe_for_bind; [apply read_unicode_safe|]. intros name _.
  eapply safe_for_bind; [apply safe_byte|]. intros st _. eapply safe_for_bind; [apply safe_uint32|]. intros ut _.
  eapply safe_for_bind; [apply safe_uint16|]. intros flags _. eapply safe_for_bind; [apply safe_byte|]. intros ty _.
  eapply safe_for_bind; [apply lift_safe, data_type_completes|]. intros t _.
  eapply safe_for_bind; [apply read_type_info_gives|]. intros ti Hti.
  eapply (safe_for_bind _ 0 (fun _ => True)).
  { case_match; [|safe_end]. eapply safe_bind; [apply parse_crypto_metadata_safe|]. intros c _. safe_end. }
  intros c _. cbv zeta. apply safe_for_seq; [apply decode_safe; by apply Hti|]. intros v. apply safe_for_safe. safe_end.
Qed.

Lemma gives_map {A B} (f : A -> B) (P : B -> Prop) (Q : A -> Prop) (m : M R A) r :
  gives_at inv left 0 Q m r -> (forall a, Q a -> P (f a)) -> gives_at inv left 0 P (map_token f m) r.
Proof. intros Hm HP. apply (gives_at_bind 0 0 Q); [done|]. intros a r' Hr' Ha _. apply gives_ret; [by apply HP|done]. Qed.

Lemma parse_data_gives fuel negotiated context k r :
  context_ok context -> inv r -> (left r < fuel)%nat ->
  gives_at inv left 0 data_token_ok (parse_data fuel negotiated context k) r.
Proof.
  intros Hc Hr Hf. destruct k; cbn [parse_data]; try (by apply gives_throw).
  - by eapply gives_map; [by apply parse_col_metadata_gives|].
  - destruct negotiated as [v|]; cbn [parse_data_classification].
    + by eapply gives_map; [by apply (parse_classification_gives v)|].
    + by eapply (gives_map _ _ (fun _ => True)); [by apply gives_throw|].
  - by eapply gives_map; [by apply parse_nbc_row_safe|].
  - by eapply gives_map; [by apply parse_return_value_safe|].
  - by eapply gives_map; [by apply parse_row_safe|].
Qed.
End safety.

(** C15: No byte stream makes receiving a token panic or loop: over any reader that is safe on any input,
    with or without column metadata in the context, the dispatcher ends with a token, having used up
    at least one byte, or with an error, and the reader's invariant holds again.  The columns of a
    COLMETADATA token are as many as it says and fit to be decoded, which is what the context of the
    rows that follow needs.  The fuel, more than the bytes the reader holds, bounds the turns of the
    FEATUREEXTACK loop and the chunks of a value. *)
Theorem receive_token_safe {R} {inv : R -> Prop} {left : R -> nat} `{rd : SafeReader R inv left} `{half : HalfCrate}
    fuel negotiated context r :
  context_ok context -> inv r -> (left r < fuel)%nat ->
  gives_at inv left 1 (token_data data_token_ok)
    (receive_token_internal fuel (parse_data fuel negotiated context)) r.
Proof. intros Hc Hr Hf. apply receive_token_gives; [|done|done]. intros. by apply parse_data_gives. Qed.

#[local] Instance no_half : HalfCrate := {| f16_to_f32 := id |}.

Lemma receive_token_safe_witness :
  gives_at transport_wf Reader.left 1 (token_data data_token_ok)
    (receive_token_internal 100 (parse_data 100 None CtxNone)) hostile_transport /\
  fst (receive_token_internal 100 (parse_data 100 None CtxNone) hostile_transport) =
    Err (invalid_data "FedAuth string data out of bounds").
Proof.
  split; [|vm_compute; reflexivity].
  apply receive_token_safe; [exact I|apply fresh_transport_wf; lia|].
  apply Nat.ltb_lt. vm_compute. reflexivity.
Defined.

(** ** No bytes make the row driver panic

    Reading a row into a writer on arbitrary bytes, under any policy: it ends with a result or an
    error.  The state is the reader with the writer, of which only the reader's invariant matters. *)

(** ** Buffered attempts *)

Definition b_safe {A} (b : B A) : Prop := forall s, completes (b s).

Lemma b_safe_bind {A C} (P : A -> Prop) (b : B A) (k : A -> B C) :
  b_safe b -> yields b P -> (forall a, P a -> b_safe (k a)) -> b_safe (bbind b k).
Proof.
  intros Hb HP Hk s. specialize (Hb s). unfold bbind. destruct (b s) as [[[a s']|]|e|p|] eqn:E; try done.
  by eapply Hk, HP.
Qed.

Lemma take_as_safe {A} n (f : bytes -> A) : b_safe (take_as n f).
Proof. intros s. unfold take_as, take_slice, bbind. by destruct (get_at _ _ _). Qed.

Lemma take_slice_safe n : b_safe (take_slice n).
Proof. intros s. unfold take_slice. by case_match. Qed.

Lemma bret_safe {A} (a : A) : b_safe (bret a).
Proof. done. Qed.

Lemma bthrow_safe {A} e : b_safe (bthrow (A := A) e).
Proof. done. Qed.

Lemma miss_safe {A} : b_safe (miss (A := A)).
Proof. done. Qed.

Lemma blift_safe {A} (x : TdsResult A) : completes x -> b_safe (blift x).
Proof. intros H s. unfold blift. by destruct x. Qed.

Create HintDb bsafe discriminated.
#[export] Hint Resolve take_as_safe take_slice_safe bret_safe bthrow_safe miss_safe : bsafe.
#[export] Hint Unfold b_byte b_u16 b_u24 b_u32 b_u40 : bsafe.

Lemma variant_string_safe base len : b_safe (buffered_string_variant base len).
Proof.
  unfold buffered_string_variant.
  apply (b_safe_bind (fun bs => length bs = 5%nat)); [eauto with bsafe|..].
  { intros s a s'. unfold take_slice. destruct (get_at _ _ _) eqn:E; [|done]. intros [= <- _].
    by apply get_at_some in E as [? _]. }
  intros bs Hb. destruct (collation_of_five bs Hb) as [c Hc].
  apply (b_safe_bind (fun _ => True)); [apply take_as_safe|done|]. intros _ _.
  apply (b_safe_bind (fun _ => True)); [eauto with bsafe|done|]. intros x _.
  apply (b_safe_bind (fun _ => True)); [|done|eauto with bsafe].
  destruct base; eauto with bsafe; rewrite Hc; by apply (b_safe_bind (fun _ => True)); [apply blift_safe|..].
Qed.

Lemma fixed_variant_safe base len : b_safe (buffered_fixed_variant base len).
Proof.
  intros s. unfold buffered_fixed_variant. destruct (FixedLengthTypes_try_from base) as [fl| | |] eqn:E; try done.
  pose proof (try_decode_agrees (delivers := list_delivers) (half := {| f16_to_f32 := id |}) 1 (variant_metadata base len fl)
    (drop (slice_position s) (slice_bytes s)) _ [] (fixed_decodable base len fl E) eq_refl) as H.
  destruct (try_decode_buffered _ _) as [[[v used]|]|e|p|]; try done. cbn. by case_match.
Qed.

Lemma try_variant_completes bs : completes (try_decode_buffered_variant bs).
Proof.
  assert (Hp : forall n, b_safe (buffered_variant_payload n)).
  { intros n. unfold buffered_variant_payload. apply (b_safe_bind (fun _ => True)); [apply take_as_safe|done|]. intros b _.
    apply (b_safe_bind (fun _ => True)); [apply blift_safe, data_type_completes|done|]. intros t _.
    apply (b_safe_bind (fun _ => True)); [apply take_as_safe|done|]. intros p _. case_match; [done|].
    apply (b_safe_bind (fun _ => True)); [|done|eauto with bsafe].
    repeat (case_match; eauto using fixed_variant_safe, variant_string_safe with bsafe). }
  unfold try_decode_buffered_variant, b_u32, take_as, bbind, take_slice, rbind.
  repeat case_match; simplify_eq; try done; match goal with
    | E : buffered_variant_payload ?n ?s = _ |- _ => specialize (Hp n s); by rewrite E in Hp end.
Qed.

Lemma buffered_base_completes m bs : decodable m -> completes (try_decode_buffered_base bs m).
Proof.
  intros Hm. unfold try_decode_buffered_base. case_match; [done|]. case_decide; [apply try_variant_completes|].
  pose proof (try_decode_agrees (delivers := list_delivers) (half := {| f16_to_f32 := id |}) 1 m bs _ [] Hm eq_refl) as Ha.
  by destruct (try_decode_buffered bs m) as [[[]|]| | |].
Qed.

(** ** The reader with a writer *)

Section safety.
Context {R : Type} {inv : R -> Prop} {left : R -> nat} `{rd : SafeReader R inv left}.
Context {W : Type} `{wr : RowWriter W} `{half : HalfCrate}.

Definition pair_inv (st : R * W) : Prop := inv (fst st).
Definition pair_left (st : R * W) : nat := left (fst st).

(** [m] ends with a value or an error, with fuel for the bytes that are left. *)
Definition ends (fuel : nat) {A} (m : M (R * W) A) : Prop :=
  forall st, pair_inv st -> (pair_left st < fuel)%nat -> gives_at pair_inv pair_left 0 (fun _ => True) m st.

Lemma from_reader_at {A} n (P : A -> Prop) (m : M R A) r (w : W) :
  gives_at inv left n P m r -> gives_at pair_inv pair_left n P (from_reader m) (r, w).
Proof. intros (Hc & Hi & Ha). unfold gives_at, from_reader in *. by destruct (m r). Qed.

Lemma ends_reader fuel {A} (m : M R A) : safe_for (inv := inv) (left := left) fuel m -> ends fuel (from_reader m).
Proof. intros H [r w] Hr Hl. by apply from_reader_at, H. Qed.

Lemma ends_bind_reader fuel {A C} n (P : A -> Prop) (m : M R A) (f : A -> M (R * W) C) :
  gives inv left n P m -> (forall a, P a -> ends fuel (f a)) -> ends fuel (bind (from_reader m) f).
Proof.
  intros Hm Hf [r w] Hr Hl. apply (gives_at_weaken (n + 0)); [|lia].
  eapply (gives_at_bind n 0 P); [by apply from_reader_at, Hm|].
  intros a st Hst Ha Hle. apply Hf; [done..|]. unfold pair_left in *. cbn in *. lia.
Qed.

Lemma ends_bind fuel {A C} (m : M (R * W) A) (f : A -> M (R * W) C) :
  ends fuel m -> (forall a, ends fuel (f a)) -> ends fuel (bind m f).
Proof.
  intros Hm Hf st Hst Hl. apply (gives_at_bind 0 0 (fun _ => True)); [by apply Hm|].
  intros a st' Hst' _ Hle. apply Hf; [done|lia].
Qed.

Lemma ends_ret fuel {A} (a : A) : ends fuel (ret a).
Proof. intros st Hst _. by apply gives_ret. Qed.

Lemma ends_throw fuel {A} e : ends (A := A) fuel (throw e).
Proof. intros st Hst _. by apply gives_throw. Qed.

Lemma ends_lift fuel {A} (x : TdsResult A) : completes x -> ends fuel (lift x).
Proof. intros Hx st Hst _. by apply gives_lift. Qed.

Lemma ends_if fuel {A} (b : bool) (m m' : M (R * W) A) : ends fuel m -> ends fuel m' -> ends fuel (if b then m else m').
Proof. by destruct b. Qed.

Lemma ends_write fuel f : ends fuel (to_writer f).
Proof. intros [r w] Hr _. unfold gives_at, to_writer, modify. cbn. split_and!; [done..|]. intros. unfold pair_left. cbn. lia. Qed.

Lemma ends_write_read fuel {A} (m : M R A) f : safe_for (inv := inv) (left := left) fuel m -> ends fuel (write_read m f).
Proof. intros H. apply ends_bind; [by apply ends_reader|]. intros. apply ends_write. Qed.

Lemma ends_lent fuel col kind n (fill : M R bytes) owned :
  safe_for (inv := inv) (left := left) fuel fill -> ends fuel (read_value_into col kind n fill owned).
Proof.
  intros H [r w] Hr Hl. unfold gives_at, read_value_into. destruct (value_destination col kind n w) as [w'|].
  - destruct (H r Hr Hl) as (Hc & Hi & Ha). destruct (fill r) as [[bs|e|p|] r']; cbn in *; try done.
    split_and!; [done..|]. intros a _. by destruct (Ha bs eq_refl).
  - by apply (ends_write_read fuel fill owned H (r, w)).
Qed.

Lemma gives_at_weaken_post {A} (P : A -> Prop) (m : M R A) r :
  gives_at inv left 0 P m r -> gives_at inv left 0 (fun _ => True) m r.
Proof. intros (? & ? & Ha). split_and!; [done..|]. intros a E. by destruct (Ha a E). Qed.

Lemma chunks_known_safe fuel n : 0 <= n <= MAX_PLP_SIZE ->
  safe_for (inv := inv) (left := left) fuel (read_plp_chunks_into_slice fuel n n).
Proof.
  intros Hn r Hr Hl. eapply gives_at0; [done|apply read_chunk_len_gives|]. intros c r1 Hr1 Hc Hl1.
  eapply gives_at_weaken_post; [apply into_slice_gives; [done|apply Hc|cbn; lia|unfold enough; cbn; lia]].
Qed.

Lemma chunks_unknown_safe fuel : safe_for (inv := inv) (left := left) fuel (read_plp_chunks_unknown_len fuel).
Proof.
  intros r Hr Hl. eapply gives_at0; [done|apply read_chunk_len_gives|]. intros c r1 Hr1 Hc Hl1.
  eapply gives_at_weaken_post;
    [apply unknown_len_gives; [done|apply Hc|done|plp_consts; lia|unfold enough; lia]].
Qed.

Lemma ends_plp fuel col kind owned :
  ends fuel
    (framing <- from_reader read_plp_framing ;;
     match framing with
     | PlpNull => to_writer (write_null col)
     | PlpKnownLen length =>
         read_value_into col kind length (read_plp_chunks_into_slice fuel length length) owned
     | PlpUnknownLen => write_read (read_plp_chunks_unknown_len fuel) owned
     end).
Proof.
  eapply ends_bind_reader; [apply read_plp_framing_gives|]. intros [|n|] Hf; cbn in Hf.
  - apply ends_write.
  - apply ends_lent, chunks_known_safe. lia.
  - apply ends_write_read, chunks_unknown_safe.
Qed.

Lemma read_short_safe n : safe inv left (read_short n).
Proof. unfold read_short. safe_step. case_match; safe_end. Qed.

Lemma ends_write_safe fuel {A} (m : M R A) (f : A -> W -> W) : safe inv left m -> ends fuel (write_read m f).
Proof. intros H. by apply ends_write_read, safe_for_safe. Qed.
End safety.

(** Steps through a decoder that writes. *)
Ltac ends_auto :=
  repeat first
    [ apply ends_write | apply ends_throw | apply ends_ret
    | apply ends_write_safe; solve [eauto with safe | safe_auto]
    | eapply ends_bind_reader; [solve [eauto with safe]|intros ? ?; cbv beta in *]
    | progress case_match ].

Section decode_into.
Context {R : Type} {inv : R -> Prop} {left : R -> nat} `{rd : SafeReader R inv left} `{half : HalfCrate}.

Hint Resolve read_short_safe read_decimal_safe read_time_safe read_datetime2_safe read_datetime_offset_safe
  read_datetime_safe read_small_datetime_safe read_date_safe read_money4_safe read_money8_safe : safe.

Lemma decode_string_into_ends {W} `{wr : RowWriter W} fuel m col :
  completes (get_encoding_type m) -> ends (inv := inv) (left := left) (W := W) fuel (decode_string_into fuel m col).
Proof.
  intros Hc. apply ends_bind; [by apply ends_lift|]. intros e. case_match; [apply ends_plp|]. case_match; ends_auto.
Qed.

Lemma decode_into_ends {W} `{wr : RowWriter W} fuel m col :
  decodable m -> ends (inv := inv) (left := left) (W := W) fuel (decode_into fuel m col).
Proof.
  intros Hm. pose proof Hm as [Ht Hs]. pose proof (scale_of_gives (inv := inv) (left := left) m) as Hsc.
  unfold decode_into, decode_short_binary_into, decode_plp_binary_into.
  destruct (data_type m) eqn:Et; try (by apply decode_string_into_ends); try (by apply ends_write_read, decode_safe);
    try solve [ends_auto]; try (case_match; [apply ends_plp|ends_auto]).
  eapply ends_bind_reader; [apply read_sql_variant_with_base_safe; intros; by eapply decode_fixed_safe|].
  intros [base v] _. apply ends_bind; [apply ends_write|]. intros. apply ends_write.
Qed.

(** ** The driver *)

Lemma plp_begin_gives :
  gives inv left 0 (from_option (fun s => stream_ok s /\ total_read s = 0) True) plp_begin.
Proof.
  unfold plp_begin. eapply gives_bind0; [eauto with safe|]. intros n Hn. apply gives_lift.
  - pose proof (plp_header_starts n) as H. by destruct (plp_header n) as [[]| | |].
  - intros [s|]; [|done]. unfold plp_header, rbind. repeat case_match; intros; simplify_eq; cbn.
    all: unfold stream_ok; cbn; plp_consts; split_and!; try done; unfold as_u64; apply Z.mod_pos_bound; done.
Qed.

Lemma skip_column_safe fuel m col :
  decodable m -> safe_for (inv := inv) (left := left) fuel (skip_column fuel m col).
Proof.
  intros Hm. unfold skip_column. case_match.
  - unfold stream_begin. eapply safe_for_bind.
    { eapply gives_bind0; [apply lift_safe; unfold type_from_metadata; by case_match|]. intros [pt c] _.
      eapply gives_bind0; [apply plp_begin_gives|]. intros o Ho. apply gives_ret.
      instantiate (1 := from_option (fun s => stream_ok (inner s) /\ total_read (inner s) = 0) True). by destruct o. }
    intros [s|] Hs; [|apply safe_for_safe; safe_end]. destruct Hs as [Hs Ht]. intros r Hr Hl.
    destruct (skip_to_end_gives (inv := inv) (left := left) fuel r (inner s)) as (Hc & [Hi _] & Ha);
      [by split|unfold enough; lia|]. unfold gives_at, stream_skip_to_end.
    destruct (skip_to_end fuel (r, inner s)) as [x [r' s']]. split_and!; [done..|]. intros a E. by apply (Ha a).
  - intros r Hr Hl. destruct (decode_into_ends (W := DiscardRowWriter) fuel m col Hm (r, tt) Hr Hl) as (Hc & Hi & Ha).
    unfold gives_at. unfold DiscardRowWriter in *. destruct (decode_into _ _ _ _) as [x [r' w']]. by split_and!.
Qed.
End decode_into.

Section driver.
Context {R : Type} {inv : R -> Prop} {left : R -> nat} `{rd : SafeReader R inv left}.
Context {W : Type} `{wr : RowWriter W} `{half : HalfCrate}.
Context (fuel : nat) (metadata : ColMetadataToken) (decryptor : option CellDecryptor) (bm : option bytes).
Context (Hdec : decryptor_ok decryptor).

Lemma try_buffered_ends m col :
  decodable m -> ends (inv := inv) (left := left) (W := W) fuel (try_buffered_column m col).
Proof.
  intros Hm. eapply ends_bind_reader; [apply safe_buffered|]. intros now _. destruct now as [|b now]; [apply ends_ret|].
  intros [r w] Hr Hl. unfold gives_at. rewrite buffered_into.
  pose proof (buffered_base_completes m (b :: now) Hm) as Hc.
  destruct (try_decode_buffered_base _ _) as [[[v n]|]|e|p|]; cbn in *; try done;
    (split_and!; [done..|]); intros ? [= <-]; unfold pair_left; cbn; lia.
Qed.

Lemma decode_column_ends m col :
  decodable m -> ends (inv := inv) (left := left) (W := W) fuel (decode_column fuel decryptor m col).
Proof.
  intros Hm. apply ends_bind; [by apply try_buffered_ends|]. intros [n|].
  - eapply ends_bind_reader; [apply safe_try_slice|]. intros [bs|] _; [apply ends_ret|apply ends_throw].
  - unfold decode_or_decrypt_column. destruct (crypto_metadata m), decryptor; try (by apply decode_into_ends).
    by apply ends_write_read, decrypt_safe.
Qed.

Lemma pause_at_plp_ends m col :
  ends (inv := inv) (left := left) (W := W) fuel (pause_at_plp metadata decryptor bm m col).
Proof.
  unfold pause_at_plp. case_match; [apply ends_throw|]. eapply (ends_bind_reader _ 0 (fun _ => True)).
  - unfold stream_begin. eapply gives_bind0; [apply lift_safe; unfold type_from_metadata; by case_match|]. intros [pt c] _.
    eapply gives_bind0; [apply plp_begin_gives|]. intros o _. by apply gives_ret.
  - intros [s|] _; [apply ends_ret|]. apply ends_bind; [apply ends_write|]. intros. apply ends_ret.
Qed.

Lemma drive_column_ends plan col m :
  decodable m -> completes (is_null_at bm col) ->
  ends (inv := inv) (left := left) (W := W) fuel (drive_column fuel metadata decryptor bm plan col m).
Proof.
  intros Hm Hn. unfold drive_column. apply ends_if; [apply ends_ret|]. cbv zeta. apply ends_bind; [by apply ends_lift|].
  intros b. destruct b.
  { apply ends_bind; [apply ends_if; [apply ends_write|apply ends_ret]|]. intros. apply ends_ret. }
  apply ends_if; [apply ends_bind; [by apply ends_reader, skip_column_safe|]; intros; apply ends_ret|].
  apply ends_if; [apply ends_bind; [apply pause_at_plp_ends|]; intros; apply ends_ret|].
  apply ends_bind; [by apply decode_column_ends|]. intros. apply ends_ret.
Qed.

(** The bitmap, if there is one, has a bit for every column. *)
Definition bitmap_ok (columns : nat) : Prop := match bm with Some b => (columns <= 8 * length b)%nat | None => True end.

Lemma null_bit_completes columns col : bitmap_ok columns -> (col < columns)%nat -> completes (is_null_at bm col).
Proof.
  unfold bitmap_ok, is_null_at. destruct bm as [b|]; [|done]. intros Hb Hc.
  by destruct (null_bit_ok b col ltac:(apply Nat.Div0.div_lt_upper_bound; lia)) as [x ->].
Qed.

Lemma drive_loop_ends plan columns : forall col,
  Forall decodable columns -> bitmap_ok (col + length columns) ->
  ends (inv := inv) (left := left) (W := W) fuel (drive_loop fuel metadata decryptor bm plan col columns).
Proof.
  induction columns as [|m columns IH]; intros col Hc Hb; cbn [drive_loop]; [apply ends_ret|].
  apply list.Forall_cons in Hc as [Hm Hc]. cbn in Hb. apply ends_bind.
  - apply drive_column_ends; [done|]. eapply null_bit_completes; [exact Hb|lia].
  - intros [x|]; [apply ends_ret|]. apply IH; [done|]. by rewrite Nat.add_succ_l, <- Nat.add_succ_r.
Qed.

Lemma drive_row_ends plan start :
  Forall decodable (cols metadata) -> bitmap_ok (length (cols metadata)) ->
  ends (inv := inv) (left := left) (W := W) fuel (drive_row_columns fuel metadata decryptor bm start plan).
Proof.
  intros Hc Hb. destruct (decide (start <= length (cols metadata))%nat).
  - apply drive_loop_ends; [by apply list.Forall_drop|]. rewrite length_drop. by replace (start + _)%nat with (length (cols metadata)) by lia.
  - unfold drive_row_columns. rewrite drop_ge by lia. apply ends_ret.
Qed.
End driver.

Section receive.
Context {R : Type} {inv : R -> Prop} {left : R -> nat} `{rd : SafeReader R inv left}.
Context {W : Type} `{wr : RowWriter W} `{half : HalfCrate}.
Context (fuel : nat) (negotiated : option DataClassificationVersion) (context : ParserContext) (plan : ColumnPolicy).
Context (Hcontext : context_ok context).

Lemma row_arm_ends :
  ends (inv := inv) (left := left) (W := W) fuel
    ('(metadata, decryptor) <- lift (extract_row_context context) ;; drive_row_columns fuel metadata decryptor None 0 plan).
Proof.
  destruct context as [md dec| |]; [|apply ends_throw..]. destruct Hcontext as [Hc Hd].
  by apply (drive_row_ends fuel md dec None).
Qed.

Lemma nbc_arm_ends :
  ends (inv := inv) (left := left) (W := W) fuel
    ('(metadata, decryptor) <- lift (extract_row_context context) ;;
     bitmap <- from_reader (fill_bitmap (bitmap_length (length (cols metadata)))) ;;
     drive_row_columns fuel metadata decryptor (Some bitmap) 0 plan).
Proof.
  destruct context as [md dec| |]; [|apply ends_throw..]. destruct Hcontext as [Hc Hd].
  change (ends (inv := inv) (left := left) (W := W) fuel
    (bitmap <- from_reader (fill_bitmap (bitmap_length (length (cols md)))) ;;
     drive_row_columns fuel md dec (Some bitmap) 0 plan)).
  apply (ends_bind_reader fuel 0 (fun bs => length bs = bitmap_length (length (cols md)))).
  { unfold fill_bitmap. eapply gives_bind0; [apply safe_bytes|]. intros bs Hb. cbv beta in Hb.
    rewrite decide_True by done. by apply gives_ret. }
  intros bs Hb. apply drive_row_ends; [done..|]. unfold bitmap_ok. rewrite Hb. apply bitmap_covers.
Qed.

Lemma token_arm_ends k :
  ends (inv := inv) (left := left) (W := W) fuel
    (token <- from_reader (dispatch_token fuel (parse_data fuel negotiated context) k) ;; ret (ReadToken token)).
Proof.
  apply ends_bind; [|intros; apply ends_ret]. apply ends_reader. intros r Hr Hl. eapply gives_at_weaken_post.
  apply dispatch_token_gives; [|done|done]. intros k'. by apply parse_data_gives.
Qed.
End receive.

(** ** Properties *)

(** C17: Whatever bytes the server sends, reading the next row into any row writer, under any policy,
    ends: with a result, having used up a byte at least, or with an error.  It does not panic (in
    particular no bit of a null bitmap is looked up outside of it), the fuel of more than the bytes
    that are left is enough, and the reader's invariant holds again. *)
Theorem receive_row_safe {R} {inv : R -> Prop} {left : R -> nat} `{rd : SafeReader R inv left}
    {W} `{wr : RowWriter W} `{half : HalfCrate} fuel negotiated context plan r (w : W) :
  context_ok context -> inv r -> (left r < fuel)%nat ->
  gives_at (pair_inv (inv := inv)) (pair_left (left := left)) 1 (fun _ => True)
    (receive_row_into_internal fuel negotiated context plan) (r, w).
Proof.
  intros Hc Hr Hf. apply (gives_at_bind 1 0 (fun v => 0 <= v < 256)); [by apply from_reader_at, safe_byte|].
  intros b st Hst _ Hl. unfold pair_left in Hl. cbn in Hl.
  apply (gives_at_bind 0 0 (fun _ => True)); [apply gives_lift; [apply TokenType_try_from_completes|done|done]|].
  intros k st1 Hst1 _ Hl1. assert (pair_left (left := left) st1 < fuel)%nat as Hf1 by (unfold pair_left in *; lia).
  destruct k; first [by apply row_arm_ends | by apply nbc_arm_ends | by apply token_arm_ends].
Qed.

(** An NBCROW of nine columns that ends within its bitmap. *)
Definition nine_columns : ColMetadataToken :=
  {| column_count := 9; cols := replicate 9 id_column; cek_table := [] |}.
Definition short_nbc_row : NetworkTransport := NetworkTransport_new (chunked [tabular_packet true (byte_of <$> [0xD2; 255])]) 64.

Lemma receive_row_safe_witness :
  gives_at (pair_inv (inv := transport_wf)) (pair_left (left := Reader.left)) 1 (fun _ => True)
    (receive_row_into_internal 100 None (CtxColumnMetadata nine_columns None) DecodeAll)
    (short_nbc_row, DefaultRowWriter_new).
Proof.
  apply receive_row_safe; [|apply fresh_transport_wf; lia|apply Nat.ltb_lt; vm_compute; reflexivity].
  split; [repeat constructor; by intros ? [=]|done].
Defined.
