(* ===== verification/NbcBitmap.v ===== *)
(** * The shared null bitmap (src/mssql-tds/src/io/token_stream.rs, src/mssql-tds/src/connection/transport/network_transport.rs)

    The bitmap of an NBCROW is an [Arc<[u8]>] that the transport caches and refills in place for the
    next row, unless a paused row still holds it.  The store has the contents and the strong count of
    each allocation. *)

From stdpp Require Import gmap strings.
From S2P Require Import Prelude Core Unicode PacketReader ReaderLaws Tokens TokenParsers TokenLaws TokenSafety.
From S2P Require Import DataClassification DataTypes ColMetadata Values Plp Decoder BufferedDecoder RowWriter RowDecoder.
From S2P Require Import Rows RowDriver.

Record ArcStore := {
  cells : gmap nat (bytes * nat);
  next_cell : nat;
  scratch : option nat;
}.

#[export] Instance ArcStore_eta : Eta ArcStore := fun r => Build_ArcStore (cells r) (next_cell r) (scratch r).

Definition ArcStore_new : ArcStore := {| cells := ∅; next_cell := 0; scratch := None |}.

(** Dropping a reference; the last one frees the allocation. *)
Definition arc_drop (l : nat) (a : ArcStore) : ArcStore :=
  match cells a !! l with
  | Some (_, 1%nat) => a {{ cells ::= delete l }}
  | Some (bs, n) => a {{ cells ::= <[l := (bs, (n - 1)%nat)]> }}
  | None => a
  end.

(** [Arc::get_mut]: only for a sole owner. *)
Definition get_mut (l : nat) (a : ArcStore) : option bytes :=
  match cells a !! l with Some (bs, 1%nat) => Some bs | _ => None end.

(** The allocation [l] with its new contents, held by the scratch and by the caller. *)
Definition share (l : nat) (bs : bytes) (a : ArcStore) : ArcStore :=
  a {{ cells ::= <[l := (bs, 2%nat)]> }} {{ scratch := Some l }}.

Definition alloc (bs : bytes) (a : ArcStore) : nat * ArcStore :=
  (next_cell a, a {{ cells ::= <[next_cell a := (bs, 1%nat)]> }} {{ next_cell ::= S }}).

(** The cached allocation if it can be refilled; the reference is taken out of the scratch, and
    dropped if not used. *)
Definition take_cached (bitmap_len : nat) (a : ArcStore) : option nat * ArcStore :=
  let a' := a {{ scratch := None }} in
  match scratch a with
  | Some l =>
      match get_mut l a' with
      | Some buffer => if decide (length buffer = bitmap_len) then (Some l, a') else (None, arc_drop l a')
      | None => (None, arc_drop l a')
      end
  | None => (None, a')
  end.

(** [read_nbc_bitmap] *)
Definition read_nbc_bitmap {R} `{ops : TdsPacketReader R} (bitmap_len : nat) : M (R * ArcStore) nat := fun '(r, a) =>
  let '(cached, a) := take_cached bitmap_len a in
  let '(l, a) := match cached with Some l => (l, a) | None => alloc (replicate bitmap_len (byte_of 0)) a end in
  match fill_bitmap bitmap_len r with
  | (Ok bs, r') => (Ok l, (r', share l bs a))
  | (Err e, r') => (Err e, (r', arc_drop l a))
  | (Panic p, r') => (Panic p, (r', a))
  | (OutOfFuel, r') => (OutOfFuel, (r', a))
  end.

(** The bitmap [try_receive_row_header] makes of bytes it has at hand. *)
Definition cache_bitmap (bitmap_bytes : bytes) (a : ArcStore) : nat * ArcStore :=
  let '(cached, a) := take_cached (length bitmap_bytes) a in
  let '(l, a) := match cached with Some l => (l, a) | None => alloc bitmap_bytes a end in
  (l, share l bitmap_bytes a).

(** ** Who holds what *)

Definition contents (a : ArcStore) (l : nat) : option bytes := fst <$> cells a !! l.

(** References to [l]: those of the paused rows [held], and the cache's. *)
Definition references (held : list nat) (a : ArcStore) (l : nat) : nat :=
  (count_occ Nat.eq_dec held l + (if decide (scratch a = Some l) then 1 else 0))%nat.

Record store_ok (held : list nat) (a : ArcStore) : Prop := {
  ok_counts l : snd <$> cells a !! l = match references held a l with O => None | n => Some n end;
  ok_fresh l : (next_cell a <= l)%nat -> cells a !! l = None;
}.

Lemma held_has held a l : store_ok held a -> In l held -> exists bs, contents a l = Some bs.
Proof.
  intros [Hc _] Hl. specialize (Hc l). apply (count_occ_In Nat.eq_dec) in Hl. unfold references, contents in *.
  destruct (cells a !! l) as [[bs n]|]; [by exists bs|]. cbn in Hc. case_match; [lia|done].
Qed.

Lemma references_cons l held a l' :
  references (l :: held) a l' = (references held a l' + (if decide (l = l') then 1 else 0))%nat.
Proof. unfold references. cbn. destruct (Nat.eq_dec l l'), (decide (l = l')); try done; lia. Qed.

(** Moving the cache's reference to the caller. *)
Lemma references_taken held a l l' :
  scratch a = Some l -> references (l :: held) (a {{ scratch := None }}) l' = references held a l'.
Proof.
  intros E. rewrite references_cons. unfold references. cbn. rewrite E. rewrite (decide_False (P := None = Some l')) by done.
  destruct (decide (l = l')), (decide (Some l = Some l')); simplify_eq; try done; lia.
Qed.

Lemma drop_ok l held a :
  store_ok (l :: held) a ->
  store_ok held (arc_drop l a) /\ scratch (arc_drop l a) = scratch a /\
  forall l', In l' held -> contents (arc_drop l a) l' = contents a l'.
Proof.
  intros [Hc Hf]. pose proof (Hc l) as Hl. rewrite references_cons, decide_True in Hl by done. rewrite Nat.add_1_r in Hl.
  unfold arc_drop. destruct (cells a !! l) as [[bs n]|] eqn:E; [|done]. cbn in Hl. simplify_eq.
  assert (Hd : forall l', l' <> l -> references (l :: held) a l' = references held a l').
  { intros l' Hne. rewrite references_cons, decide_False by done. lia. }
  destruct (references held a l) as [|k] eqn:Er.
  - split_and!; [constructor|done|].
    + intros l'. cbn. destruct (decide (l' = l)) as [->|Hne].
      * rewrite lookup_delete_eq. change (references held _ l) with (references held a l). by rewrite Er.
      * rewrite lookup_delete_ne by done. change (references held _ l') with (references held a l').
        by rewrite Hc, Hd.
    + intros l' Hl'. cbn in *. apply lookup_delete_None. right. by apply Hf.
    + intros l' Hin. unfold contents. cbn. rewrite lookup_delete_ne; [done|]. intros <-.
      unfold references in Er. apply (count_occ_In Nat.eq_dec) in Hin. lia.
  - split_and!; [constructor|done|].
    + intros l'. cbn. destruct (decide (l' = l)) as [->|Hne].
      * rewrite lookup_insert_eq. change (references held _ l) with (references held a l). by rewrite Er.
      * rewrite lookup_insert_ne by done. change (references held _ l') with (references held a l').
        by rewrite Hc, Hd.
    + intros l' Hl'. cbn in *. rewrite lookup_insert_ne; [by apply Hf|]. intros ->. by rewrite Hf in E.
    + intros l' Hin. unfold contents. cbn. destruct (decide (l' = l)) as [->|Hne].
      * by rewrite lookup_insert_eq, E.
      * by rewrite lookup_insert_ne.
Qed.

Lemma take_cached_ok n held a :
  store_ok held a ->
  let '(o, a') := take_cached n a in
  scratch a' = None /\ (forall l', In l' held -> contents a' l' = contents a l') /\
  match o with
  | Some l => store_ok (l :: held) a' /\ ~ In l held
  | None => store_ok held a'
  end.
Proof.
  intros Hok. pose proof Hok as [Hc Hf]. unfold take_cached. destruct (scratch a) as [l|] eqn:Es.
  2:{ split_and!; [done..|]. constructor; [|done]. intros l. cbn. rewrite Hc. unfold references. cbn. by rewrite Es. }
  assert (Ht : store_ok (l :: held) (a {{ scratch := None }})).
  { constructor; [|done]. intros l'. rewrite (references_taken held a l) by done. apply Hc. }
  pose proof (drop_ok l held _ Ht) as (Hd & Hs & Hk). unfold get_mut. cbn [cells].
  change (cells (a {{ scratch := None }})) with (cells a).
  destruct (cells a !! l) as [[bs [|[|k]]]|] eqn:E; try (split_and!; [done|by intros l' ?; rewrite Hk|done]).
  case_decide; [|split_and!; [done|by intros l' ?; rewrite Hk|done]]. split_and!; [done..|].
  intros Hin. specialize (Hc l). rewrite E in Hc. cbn in Hc. unfold references in Hc. rewrite Es, decide_True in Hc by done.
  apply (count_occ_In Nat.eq_dec) in Hin. rewrite Nat.add_1_r in Hc. simplify_eq. lia.
Qed.

Lemma alloc_ok bs held a :
  store_ok held a ->
  let '(l, a') := alloc bs a in
  store_ok (l :: held) a' /\ ~ In l held /\ scratch a' = scratch a /\
  forall l', In l' held -> contents a' l' = contents a l'.
Proof.
  intros [Hc Hf]. unfold alloc. assert (Hn : references held a (next_cell a) = 0%nat).
  { specialize (Hc (next_cell a)). rewrite Hf in Hc by done. cbn in Hc. by case_match. }
  assert (Hh : ~ In (next_cell a) held).
  { intros Hin. apply (count_occ_In Nat.eq_dec) in Hin. unfold references in Hn. lia. }
  split_and!; [constructor|done|done|].
  - intros l. rewrite references_cons. cbn.
    match goal with |- context [references held ?a' l] => change (references held a' l) with (references held a l) end.
    destruct (decide (l = next_cell a)) as [->|Hne].
    + by rewrite lookup_insert_eq, Hn, decide_True.
    + rewrite lookup_insert_ne, decide_False by done. by rewrite Nat.add_0_r.
  - intros l Hl. cbn in *. rewrite lookup_insert_ne by lia. apply Hf. lia.
  - intros l Hin. unfold contents. cbn. rewrite lookup_insert_ne; [done|]. intros E. by rewrite E in Hh.
Qed.

(** The sole owner of [l] refills it and shares it with the cache. *)
Lemma share_ok l bs held a :
  store_ok (l :: held) a -> ~ In l held -> scratch a = None ->
  store_ok (l :: held) (share l bs a) /\ contents (share l bs a) l = Some bs /\
  forall l', In l' held -> contents (share l bs a) l' = contents a l'.
Proof.
  intros [Hc Hf] Hin Hs. apply (count_occ_not_In Nat.eq_dec) in Hin as Hco. split_and!; [constructor|..].
  - intros l'. unfold share. cbn. unfold references. cbn. destruct (decide (l' = l)) as [->|Hne].
    + rewrite lookup_insert_eq. destruct (Nat.eq_dec l l); [|done]. rewrite Hco. by rewrite decide_True.
    + rewrite lookup_insert_ne by done. rewrite (Hc l'). unfold references. cbn. rewrite Hs.
      rewrite !decide_False by congruence. done.
  - intros l' Hl'. unfold share in *. cbn in *. rewrite lookup_insert_ne; [by apply Hf|]. intros ->.
    specialize (Hc l'). rewrite (Hf _ Hl') in Hc. unfold references in Hc. cbn in Hc. 
    destruct (Nat.eq_dec l' l'); done.
  - unfold contents, share. cbn. by rewrite lookup_insert_eq.
  - intros l' Hl'. unfold contents, share. cbn. rewrite lookup_insert_ne; [done|]. by intros ->.
Qed.

Lemma cached_or_new n bs held a :
  store_ok held a ->
  let '(cached, a1) := take_cached n a in
  let '(l, a2) := match cached with Some l => (l, a1) | None => alloc bs a1 end in
  store_ok (l :: held) a2 /\ ~ In l held /\ scratch a2 = None /\
  forall l', In l' held -> contents a2 l' = contents a l'.
Proof.
  intros Hok. pose proof (take_cached_ok n held a Hok) as H. destruct (take_cached n a) as [[l|] a1].
  - destruct H as (Hs & Hk & Ho & Hi). done.
  - destruct H as (Hs & Hk & Ho). pose proof (alloc_ok bs held a1 Ho) as H. destruct (alloc bs a1) as [l a2].
    destruct H as (Ho2 & Hi & Hs2 & Hk2). split_and!; [done|done|congruence|]. intros l' Hl'. rewrite Hk2; auto.
Qed.

Lemma cache_bitmap_ok bs held a :
  store_ok held a ->
  let '(l, a') := cache_bitmap bs a in
  contents a' l = Some bs /\ store_ok (l :: held) a' /\ forall l', In l' held -> contents a' l' = contents a l'.
Proof.
  intros Hok. pose proof (cached_or_new (length bs) bs held a Hok) as H. unfold cache_bitmap.
  destruct (take_cached (length bs) a) as [cached a1].
  destruct (match cached with Some l => (l, a1) | None => alloc bs a1 end) as [l a2].
  destruct H as (Ho & Hi & Hs & Hk). pose proof (share_ok l bs held a2 Ho Hi Hs) as (Ho' & Hc & Hk').
  split_and!; [done..|]. intros l' Hl'. rewrite Hk'; auto.
Qed.

(** Refilling the cached null bitmap is invisible.  Reading a row's bitmap gives the bytes a fresh
    buffer would have been filled with, whatever the cache holds; and the bitmap of every paused row
    that is still held keeps its contents, since a cached bitmap is refilled only when nothing else
    refers to it.  Dropping a paused row frees nothing that another one holds.  The same holds of the
    bitmap the synchronous path caches. *)
Theorem held_bitmaps_survive {R} `{ops : TdsPacketReader R} n held (r : R) a :
  store_ok held a ->
  let '(x, (r', a')) := read_nbc_bitmap n (r, a) in
  fst (fill_bitmap n r) = (let? l := x in match contents a' l with Some bs => Ok bs | None => Panic "dangling" end) /\
  (completes x -> r' = snd (fill_bitmap n r) /\ forall l, In l held -> contents a' l = contents a l) /\
  match x with
  | Ok l => store_ok (l :: held) a' /\ store_ok held (arc_drop l a')
  | Err _ => store_ok held a'
  | _ => True
  end /\
  forall bs, let '(l, a'') := cache_bitmap bs a in
    contents a'' l = Some bs /\ store_ok (l :: held) a'' /\ forall l', In l' held -> contents a'' l' = contents a l'.
Proof.
  intros Hok. pose proof (fun bs => cache_bitmap_ok bs held a Hok) as Hcache. pose proof (cached_or_new n (replicate n (byte_of 0)) held a Hok) as H. unfold read_nbc_bitmap.
  destruct (take_cached n a) as [cached a1].
  destruct (match cached with Some l => (l, a1) | None => alloc (replicate n (byte_of 0)) a1 end) as [l a2].
  destruct H as (Ho & Hi & Hs & Hk). destruct (fill_bitmap n r) as [[bs|e|p|] r']; cbn; try done.
  - pose proof (share_ok l bs held a2 Ho Hi Hs) as (Ho' & Hc & Hk'). rewrite Hc. split_and!; [done|..].
    + intros _. split; [done|]. intros l' Hl'. rewrite Hk'; auto.
    + done.
    + by apply drop_ok.
    + done.
  - destruct (drop_ok l held a2 Ho) as (Ho' & _ & Hk'). split_and!; [done| |done|done].
    intros _. split; [done|]. intros l' Hl'. rewrite Hk'; auto.
Qed.

Definition paused_store : ArcStore := {| cells := {[ 0%nat := (byte_of <$> [7], 2%nat) ]}; next_cell := 1; scratch := Some 0%nat |}.

Lemma paused_store_ok : store_ok [0%nat] paused_store.
Proof.
  constructor; intros l; cbn; [|intros H; rewrite lookup_singleton_ne by lia; done].
  destruct (decide (l = 0%nat)) as [->|Hne]; [by rewrite lookup_singleton_eq|].
  rewrite lookup_singleton_ne by done. unfold references. cbn [scratch paused_store]. rewrite decide_False by congruence.
  by destruct l.
Qed.

(** The next row's bitmap goes to a new allocation while a paused row holds the cached one. *)
Lemma held_bitmaps_survive_witness :
  (let '(x, (_, a')) := read_nbc_bitmap (R := ByteReader) 1 (byte_of <$> [9], paused_store) in
   (x, contents a' 0%nat, contents a' 1%nat)) = (Ok 1%nat, Some (byte_of <$> [7]), Some (byte_of <$> [9])) /\
  (let '(x, (r', a')) := read_nbc_bitmap (R := ByteReader) 1 (byte_of <$> [9], paused_store) in
   completes x -> r' = snd (fill_bitmap 1 (byte_of <$> [9] : ByteReader)) /\ forall l, In l [0%nat] -> contents a' l = contents paused_store l).
Proof.
  split; [vm_compute; reflexivity|].
  pose proof (held_bitmaps_survive 1 [0%nat] (byte_of <$> [9] : ByteReader) paused_store paused_store_ok) as H.
  destruct (read_nbc_bitmap 1 _) as [x [r' a']]. exact (proj1 (proj2 H)).
Defined.
