(* ===== verification/BufferedRows.v ===== *)
(** * Rows from the transport's buffer (src/mssql-tds/src/connection/transport/network_transport.rs)

    The synchronous fast path of [NetworkTransport]: row headers, columns, PLP payloads and whole row
    prefixes taken from bytes that are already buffered, consuming nothing on a miss. *)

From stdpp Require Import strings.
From S2P Require Import Prelude Core ReadBuffer Transport Framing Unicode PacketReader Reader ReaderLaws.
From S2P Require Import Tokens TokenParsers TokenLaws TokenSafety DataClassification DataTypes ColMetadata Values Plp.
From S2P Require Import PlpLaws Decoder DecoderLaws ColMetadataLaws BufferedDecoder BufferedDecoderLaws RowWriter RowDecoder ListReader.
From S2P Require Import RowLaws Rows RowDriver RowDriverLaws RowCursorLaws.

Definition buffered_bytes : M TdsReadBuffer bytes :=
  b <- gets id ;; lift (get_buffered_slice b).

(** [try_receive_row_header]; the allocation of the bitmap is [cache_bitmap]'s. *)
Definition try_receive_row_header (context : ParserContext) : M TdsReadBuffer (option RowPauseState) :=
  match context with
  | CtxColumnMetadata metadata decryptor =>
      let positioned bitmap :=
        {| next_column_index := 0; pause_metadata := metadata; nbc_null_bitmap := bitmap; pause_decryptor := decryptor |} in
      buffered <- buffered_bytes ;;
      match buffered with
      | [] => ret None
      | token :: _ =>
          if byte_val token =? TokenType_u8 TT_Row then consume_bytes 1 ;; ret (Some (positioned None))
          else if negb (byte_val token =? TokenType_u8 TT_NbcRow) then ret None
          else
            let bitmap_len := bitmap_length (length (cols metadata)) in
            match get_at buffered 1 bitmap_len with
            | None => ret None
            | Some bitmap => consume_bytes (1 + bitmap_len) ;; ret (Some (positioned (Some bitmap)))
            end
      end
  | _ => throw (ProtocolError "Expected ColumnMetadata in context for row decoding")
  end.

(** The column a buffered read is asked for, if it is the next one. *)
Definition next_target (pause_state : RowPauseState) (target : nat) : option ColumnMetadata :=
  if decide (target = next_column_index pause_state) then cols (pause_metadata pause_state) !! target else None.

Definition has_decryptor (pause_state : RowPauseState) : bool :=
  match pause_decryptor pause_state with Some _ => true | None => false end.

Definition try_read_buffered_column (pause_state : RowPauseState) (target : nat)
    : M TdsReadBuffer (option ColumnValues) :=
  match next_target pause_state target with
  | None => ret None
  | Some metadata =>
      is_null <- lift (is_null_at (nbc_null_bitmap pause_state) target) ;;
      if (is_null : bool) then ret (Some Null)
      else if has_decryptor pause_state then ret None
      else
        buffered <- buffered_bytes ;;
        o <- lift (try_decode_buffered buffered metadata) ;;
        match o with
        | Some (value, used) => consume_bytes used ;; ret (Some value)
        | None => ret None
        end
  end.

Definition try_read_buffered_column_with_base (pause_state : RowPauseState) (target : nat)
    : M TdsReadBuffer (option (ColumnValues * option TdsDataType)) :=
  match next_target pause_state target with
  | None => ret None
  | Some metadata =>
      is_null <- lift (is_null_at (nbc_null_bitmap pause_state) target) ;;
      if (is_null : bool) then ret (Some (Null, None))
      else if negb (bool_decide (data_type metadata = DT_SsVariant)) then
        value <- try_read_buffered_column pause_state target ;;
        ret ((fun value => (value, None)) <$> value)
      else if has_decryptor pause_state then ret None
      else
        buffered <- buffered_bytes ;;
        o <- lift (try_decode_buffered_variant buffered) ;;
        match o with
        | Some (base, value, used) => consume_bytes used ;; ret (Some (value, base))
        | None => ret None
        end
  end.

Definition try_begin_buffered_plp (pause_state : RowPauseState) (target : nat)
    : M TdsReadBuffer (option (option PlpColumnStream)) :=
  match cols (pause_metadata pause_state) !! target with
  | None => ret None
  | Some metadata =>
      buffered <- buffered_bytes ;;
      o <- lift (stream_try_begin_buffered metadata buffered) ;;
      match o with
      | Some (stream, used) => consume_bytes used ;; ret (Some stream)
      | None => ret None
      end
  end.

(** [CompleteBufferedPlp]: the payload written to [out], the declared length, the payload read. *)
Definition try_read_complete_buffered_plp_column (pause_state : RowPauseState) (target out_len : nat)
    : M TdsReadBuffer (option (option (bytes * option Z * Z))) :=
  match cols (pause_metadata pause_state) !! target with
  | None => ret None
  | Some metadata =>
      buffered <- buffered_bytes ;;
      o <- lift (stream_try_begin_buffered metadata buffered) ;;
      match o with
      | None => ret None
      | Some (None, header_used) => consume_bytes header_used ;; ret (Some None)
      | Some (Some stream, header_used) =>
          if decide (length buffered < header_used)%nat then ret None
          else
            let '(x, s) := try_read_complete_buffered (drop header_used buffered) out_len (inner stream) in
            o <- lift x ;;
            match o with
            | None => ret None
            | Some (payload_used, written) =>
                consume_bytes (header_used + payload_used) ;;
                ret (Some (Some (written, known_len s, total_read s)))
            end
      end
  end.

(** [try_read_buffered_plp]; [fuel] bounds the packets that are taken in. *)
Fixpoint try_read_buffered_plp (fuel out_len : nat) : M (NetworkTransport * PlpPauseState) (option bytes) :=
  match fuel with
  | O => out_of_fuel
  | S fuel => fun '(t, p) =>
      match get_buffered_slice (tds_read_buffer t) with
      | Ok buffered =>
          let stream := plp_column_stream p in
          let '(x, s) := try_read_buffered buffered out_len (inner stream) in
          let p := p {{ plp_column_stream :=
                          {| plp_type := plp_type stream; stream_collation := stream_collation stream; inner := s |} }} in
          match x with
          | Ok (Some (used, written)) =>
              let '(y, b) := consume_bytes used (tds_read_buffer t) in
              (let? _ := y in Ok (Some written), (t {{ tds_read_buffer := b }}, p))
          | Ok None =>
              match try_read_tds_packet t with
              | (Ok true, t) => try_read_buffered_plp fuel out_len (t, p)
              | (Ok false, t) => (Ok None, (t, p))
              | (Err e, t) => (Err e, (t, p))
              | (Panic w, t) => (Panic w, (t, p))
              | (OutOfFuel, t) => (OutOfFuel, (t, p))
              end
          | Err e => (Err e, (t, p))
          | Panic w => (Panic w, (t, p))
          | OutOfFuel => (OutOfFuel, (t, p))
          end
      | Err e => (Err e, (t, p))
      | Panic w => (Panic w, (t, p))
      | OutOfFuel => (OutOfFuel, (t, p))
      end
  end.

(** ** A prefix of the row *)

Section prefix.
Context {W : Type} `{wr : RowWriter W}.

(** The loop: the columns left, the next column's index and the bytes consumed so far.  [Ok false]
    leaves the rest of the row to the waiting reader. *)
Fixpoint buffered_columns (columns : list ColumnMetadata) (bitmap : option bytes) (end_column : nat) (buffered : bytes)
    (col consumed : nat) (w : W) : TdsResult bool * (nat * nat * W) :=
  match columns with
  | [] => (Ok true, (col, consumed, w))
  | metadata :: rest =>
      if decide (col < end_column)%nat then
        match is_null_at bitmap col with
        | Ok true => buffered_columns rest bitmap end_column buffered (S col) consumed (write_null col w)
        | Ok false =>
            if decide (length buffered < consumed)%nat
            then (Err (ProtocolError "Buffered row decoder consumed past the available data"), (col, consumed, w))
            else
              let '(x, w) := try_decode_buffered_into (drop consumed buffered) metadata col w in
              match x with
              | Ok (Some used) => buffered_columns rest bitmap end_column buffered (S col) (consumed + used) w
              | Ok None => (Ok false, (col, consumed, w))
              | Err e => (Err e, (col, consumed, w))
              | Panic p => (Panic p, (col, consumed, w))
              | OutOfFuel => (OutOfFuel, (col, consumed, w))
              end
        | Err e => (Err e, (col, consumed, w))
        | Panic p => (Panic p, (col, consumed, w))
        | OutOfFuel => (OutOfFuel, (col, consumed, w))
        end
      else (Ok true, (col, consumed, w))
  end.

Definition try_read_buffered_row_prefix_into (end_column : nat) : M (TdsReadBuffer * RowPauseState * W) bool :=
  fun '(b, s, w) =>
    if has_decryptor s then (Ok false, (b, s, w))
    else
      match get_buffered_slice b with
      | Ok buffered =>
          let columns := cols (pause_metadata s) in
          let start := next_column_index s in
          let '(outcome, (col, consumed, w)) :=
            buffered_columns (drop start columns) (nbc_null_bitmap s) end_column buffered start 0 w in
          let s := s {{ next_column_index := col }} in
          match outcome with
          | Panic p => (Panic p, (b, s, w))
          | OutOfFuel => (OutOfFuel, (b, s, w))
          | _ =>
              match consume_bytes consumed b with
              | (Ok _, b) =>
                  (let? complete := outcome in
                   Ok (complete && (bool_decide (end_column <= col)%nat || bool_decide (length columns <= col)%nat)),
                   (b, s, w))
              | (Err e, b) => (Err e, (b, s, w))
              | (Panic p, b) => (Panic p, (b, s, w))
              | (OutOfFuel, b) => (OutOfFuel, (b, s, w))
              end
          end
      | Err e => (Err e, (b, s, w))
      | Panic p => (Panic p, (b, s, w))
      | OutOfFuel => (OutOfFuel, (b, s, w))
      end.
End prefix.

(** ** The buffered fast path reads the same row

    What [try_read_buffered_row_prefix_into] writes are the first values of the row, and the bytes it
    leaves in the buffer are the rest of it. *)

Section prefix.
Context {W : Type} `{wr : RowWriter W} `{half : HalfCrate}.
Context (fuel : nat) (bm : option bytes) (end_column : nat) (buffered later : bytes).
Context (Hsmall : Z.of_nat (length buffered) <= MAX_ALLOC_SIZE).

(** After [n] columns the writer has their values, and the rest of the row is next. *)
Definition prefix_read (columns : list ColumnMetadata) (col : nat) (vs : list (option TdsDataType * ColumnValues))
    (more : bytes) (w : W) (x : TdsResult bool * (nat * nat * W)) : Prop :=
  exists n complete consumed,
    x = (Ok complete, ((col + n)%nat, consumed, write_row col (take n vs) w)) /\
    (n <= length columns)%nat /\ (consumed <= length buffered)%nat /\
    row_with_base (R := ByteReader) fuel None bm (col + n) (drop n columns) (drop consumed buffered ++ later) =
      (Ok (drop n vs), more) /\
    (complete = true -> (end_column <= col + n)%nat \/ n = length columns).

Lemma prefix_here columns col vs more (w : W) consumed complete :
  (consumed <= length buffered)%nat ->
  row_with_base (R := ByteReader) fuel None bm col columns (drop consumed buffered ++ later) = (Ok vs, more) ->
  (complete = true -> (end_column <= col)%nat \/ columns = []) ->
  prefix_read columns col vs more w (Ok complete, (col, consumed, w)).
Proof.
  intros Hc E Hx. exists 0%nat, complete, consumed. rewrite Nat.add_0_r, !drop_0. split_and!; [done|lia|done|done|].
  intros Ht. destruct (Hx Ht) as [He| ->]; auto.
Qed.

Lemma prefix_next m columns col v vs more (w : W) x :
  prefix_read columns (S col) vs more (write_value col v w) x -> prefix_read (m :: columns) col (v :: vs) more w x.
Proof.
  intros (n & complete & consumed & -> & Hn & Hc & E & Hx). exists (S n), complete, consumed.
  rewrite Nat.add_succ_r. cbn [take drop length write_row]. split_and!; [done|lia|done|done|]. intros Ht.
  destruct (Hx Ht); [left; lia|right; lia].
Qed.

Lemma buffered_columns_spec columns : forall col consumed w vs more,
  Forall decodable columns -> (consumed <= length buffered)%nat ->
  row_with_base (R := ByteReader) fuel None bm col columns (drop consumed buffered ++ later) = (Ok vs, more) ->
  prefix_read columns col vs more w (buffered_columns columns bm end_column buffered col consumed w).
Proof.
  induction columns as [|m columns IH]; intros col consumed w vs more Hd Hc E; cbn [buffered_columns].
  { apply prefix_here; auto. }
  apply list.Forall_cons in Hd as [Hm Hd]. case_decide as Hlt; [|apply prefix_here; [done|done|left; lia]].
  pose proof E as (b & v & vs' & bs1 & Eb & -> & Ev & Er)%row_cons_inv. rewrite Eb. destruct b.
  { unfold ret in Ev. simplify_eq. apply prefix_next. by apply IH. }
  rewrite decide_False by lia. rewrite buffered_into.
  pose proof (buffered_hit fuel None (drop consumed buffered) later m Hm ltac:(rewrite length_drop; lia)) as H.
  rewrite Ev in H. destruct (try_decode_buffered_base _ m) as [[[v' used]|]|e|p|]; cbn; try done.
  - destruct H as [Hu [= <- ->]]. rewrite length_drop in Hu. apply prefix_next, IH; [done|lia|].
    by rewrite <- drop_drop.
  - by apply prefix_here.
  - by destruct H as (? & ? & ?).
Qed.
End prefix.

(** C33: The synchronous fast path reads the row the waiting reader would.  On a buffer whose bytes,
    with what is still to come, continue a row, it writes the values of the next columns in order
    (all up to the end column, or as many as are wholly buffered), moves the pause state behind them,
    consumes exactly their bytes, and reports completion only when nothing before the end column is
    left; the rest of the row is then what the buffer and what is still to come decode to. *)
Theorem buffered_prefix_agrees {W} `{wr : RowWriter W} `{half : HalfCrate} fuel b s end_column later vs more (w : W) :
  buffer_wf b -> Z.of_nat (length (unread b)) <= MAX_ALLOC_SIZE -> pause_decryptor s = None ->
  Forall decodable (cols (pause_metadata s)) ->
  let columns := drop (next_column_index s) (cols (pause_metadata s)) in
  row_with_base (R := ByteReader) fuel None (nbc_null_bitmap s) (next_column_index s) columns (unread b ++ later) =
    (Ok vs, more) ->
  exists n b' complete,
    try_read_buffered_row_prefix_into end_column (b, s, w) =
      (Ok complete, (b', s {{ next_column_index := (next_column_index s + n)%nat }},
                     write_row (next_column_index s) (take n vs) w)) /\
    buffer_wf b' /\ same_frame b b' /\
    row_with_base (R := ByteReader) fuel None (nbc_null_bitmap s) (next_column_index s + n) (drop n columns)
      (unread b' ++ later) = (Ok (drop n vs), more) /\
    (complete = true -> (end_column <= next_column_index s + n)%nat \/ n = length columns).
Proof.
  intros Hwf Hl Hdec Hd columns E. subst columns. unfold try_read_buffered_row_prefix_into, has_decryptor. rewrite Hdec.
  assert (get_buffered_slice b = Ok (unread b)) as ->.
  { unfold get_buffered_slice, index_range, unread. destruct Hwf. by rewrite decide_True by lia. }
  pose proof (buffered_columns_spec fuel (nbc_null_bitmap s) end_column (unread b) later Hl _ (next_column_index s) 0
    w vs more (list.Forall_drop _ (next_column_index s) _ Hd) ltac:(lia)) as H. rewrite drop_0 in H.
  destruct (H E) as (n & complete & consumed & -> & Hn & Hc & Er & Hx).
  destruct (consume_bytes_ok consumed b Hwf) as (b' & -> & Hwf' & Hf & Hu & _); [by rewrite <- length_unread|].
  exists n, b'. eexists. split; [done|]. split_and!; [done|done|by rewrite Hu|].
  intros [Ht _]%andb_prop. by apply Hx.
Qed.

#[local] Instance no_half : HalfCrate := {| f16_to_f32 := id |}.

(** Two integers, of which the second is not wholly buffered. *)
Definition half_row_buffer : TdsReadBuffer :=
  {| buffer_position := 0; buffer_length := 7; max_packet_size := 8;
     working_buffer := (byte_of <$> [4; 1; 2; 0; 0; 4; 9]) ++ replicate 9 (byte_of 0);
     pending_bytes := 0; pending_bytes_offset := 0; end_of_message := false |}.
Definition half_row_state : RowPauseState :=
  {| next_column_index := 0; nbc_null_bitmap := None; pause_decryptor := None;
     pause_metadata := {| column_count := 2; cols := [id_column; id_column]; cek_table := [] |} |}.

Lemma buffered_prefix_agrees_witness :
  exists n b' complete,
    try_read_buffered_row_prefix_into 2 (half_row_buffer, half_row_state, DefaultRowWriter_new) =
      (Ok complete, (b', half_row_state {{ next_column_index := n }},
                     write_row 0 (take n [(None, Int 513); (None, Int 9)]) DefaultRowWriter_new)) /\
    buffer_wf b' /\ same_frame half_row_buffer b' /\
    row_with_base (R := ByteReader) 1 None None n (drop n [id_column; id_column]) (unread b' ++ (byte_of <$> [0; 0; 0])) =
      (Ok (drop n [(None, Int 513); (None, Int 9)]), []) /\
    (complete = true -> (2 <= n)%nat \/ n = 2%nat).
Proof.
  apply (buffered_prefix_agrees 1 half_row_buffer half_row_state 2 (byte_of <$> [0; 0; 0])
    [(None, Int 513); (None, Int 9)] [] DefaultRowWriter_new);
    [constructor; cbn; lia|vm_compute; done|done|repeat constructor; by intros ? [=]|vm_compute; reflexivity].
Defined.
