(* ===== verification/Decimal.v ===== *)
(** * Decimal values (src/mssql-tds/src/datatypes/decoder.rs)

    [DecimalParts]: its text, rendered from 64-bit limbs into a fixed buffer, its 32-bit words, and
    its construction from integers. *)

From stdpp Require Import strings.
From S2P Require Import Prelude Core Unicode PacketReader Tokens DataTypes ColMetadata Values Decoder.

Definition DECIMAL_STR_LEN : nat := 48.

Definition clamped_scale (d : DecimalParts) : nat := Nat.min (Z.to_nat (dec_scale d)) (DECIMAL_STR_LEN - 3).

(** ** [format_into] *)

Definition LIMB : Z := 10000000000000000000.
Definition LIMB_DIGITS : nat := 19.
Definition U64_MAX : Z := 2 ^ 64 - 1.

(** The limbs and [limb_count]. *)
Definition split_limbs (magnitude : Z) : list Z * nat :=
  if magnitude <=? U64_MAX then ([magnitude; 0; 0], 1%nat)
  else
    let rest := magnitude / LIMB in
    if rest <=? U64_MAX then ([magnitude mod LIMB; rest; 0], 2%nat)
    else ([magnitude mod LIMB; rest mod LIMB; as_u64 (rest / LIMB)], 3%nat).

(** [pos -= 1; buf[pos] = c]: the buffer is filled from its end. *)
Definition put (c : Z) (out : list Z) : TdsResult (list Z) :=
  if decide (length out < DECIMAL_STR_LEN)%nat then Ok (c :: out) else Panic "attempt to subtract with overflow".

Fixpoint digits_loop (fuel : nat) (limbs : list Z) (limb_count scale : nat) (out : list Z) (emitted limb taken : nat)
    (current : Z) : TdsResult (list Z) :=
  match fuel with
  | O => OutOfFuel
  | S fuel =>
      let? out := if decide (0 < scale /\ emitted = scale)%nat then put 46 out else Ok out in
      let digit := current mod 10 in
      let current := current / 10 in
      let taken := S taken in
      let? out := put (48 + digit) out in
      let emitted := S emitted in
      let? '(limb, taken, current) :=
        (if decide (taken = LIMB_DIGITS /\ limb + 1 < limb_count)%nat
         then match limbs !! S limb with
              | Some next => Ok (S limb, 0%nat, next)
              | None => Panic "index out of bounds"
              end
         else Ok (limb, taken, current)) in
      if decide ((limb + 1 = limb_count)%nat /\ current = 0 /\ (scale < emitted)%nat) then Ok out
      else digits_loop fuel limbs limb_count scale out emitted limb taken current
  end.

(** The characters of the populated suffix; at most [DECIMAL_STR_LEN] turns fill the buffer. *)
Definition format_into (d : DecimalParts) : TdsResult (list Z) :=
  let '(limbs, limb_count) := split_limbs (magnitude d) in
  match limbs !! 0%nat with
  | Some first =>
      let? out := digits_loop (S DECIMAL_STR_LEN) limbs limb_count (clamped_scale d) [] 0 0 0 first in
      if is_positive d then Ok out else put 45 out
  | None => Panic "index out of bounds"
  end.

(** ** Words *)

Definition word (d : DecimalParts) (index : nat) : Z :=
  if decide (Z.to_nat MAX_DECIMAL_INT_PARTS <= index)%nat then 0
  else as_i32 (as_u32 (Z.shiftr (magnitude d) (Z.of_nat index * 32))).

Definition bit_length (m : Z) : Z := if m =? 0 then 0 else Z.log2 m + 1.

(** [(128 - leading_zeros).div_ceil(32).max(1)] *)
Definition word_count (d : DecimalParts) : nat := Nat.max (Z.to_nat ((bit_length (magnitude d) + 31) / 32)) 1.

Fixpoint fold_words (i : nat) (words : list Z) (acc : Z) : Z :=
  match words with
  | [] => acc
  | word :: words => fold_words (S i) words (Z.lor acc (Z.shiftl (as_u32 word) (Z.of_nat i * 32)))
  end.

(** [from_words] as a release build runs it; its [debug_assert] is [try_from_words]' test. *)
Definition from_words (is_positive : bool) (precision scale : Z) (words : list Z) : DecimalParts :=
  DecimalParts_new is_positive precision scale (fold_words 0 (take (Z.to_nat MAX_DECIMAL_INT_PARTS) words) 0).

Definition try_from_words (is_positive : bool) (precision scale : Z) (words : list Z) : option DecimalParts :=
  if forallb (fun word => word =? 0) (drop (Z.to_nat MAX_DECIMAL_INT_PARTS) words)
  then Some (from_words is_positive precision scale words) else None.

(** ** Integers *)

Definition checked_u128 (z : Z) : option Z := if z <? 2 ^ 128 then Some z else None.

Definition from_i64 (value precision scale : Z) : TdsResult DecimalParts :=
  match checked_u128 (10 ^ scale) with
  | Some factor =>
      match checked_u128 (Z.abs value * factor) with
      | Some magnitude => Ok (DecimalParts_new (0 <=? value) precision scale magnitude)
      | None => Err (TypeConversionError "Decimal value does not fit in a 128-bit magnitude")
      end
  | None => Err (TypeConversionError "Decimal value does not fit in a 128-bit magnitude")
  end.

(** ** The parts *)

(** The halves are 64-bit values, and the magnitude put together from them is the one split. *)
Definition decimal_ok (d : DecimalParts) : Prop :=
  in_unsigned 64 (magnitude_lo d) /\ in_unsigned 64 (magnitude_hi d).

Lemma lor_shiftl_add a b n : 0 <= n -> 0 <= a < 2 ^ n -> Z.lor a (Z.shiftl b n) = a + b * 2 ^ n.
Proof.
  intros Hn Ha. assert (Z.land a (Z.shiftl b n) = 0) as H0.
  { apply Z.bits_inj'. intros i Hi. rewrite Z.land_spec, Z.bits_0. destruct (Z.ltb_spec i n).
    - rewrite Z.shiftl_spec_low by done. apply andb_false_r.
    - destruct (decide (a = 0)) as [->|]; [by rewrite Z.bits_0|]. rewrite Z.bits_above_log2; [done|lia|].
      enough (Z.log2 a < n) by lia. apply Z.log2_lt_pow2; lia. }
  rewrite <- Z.lxor_lor by done. rewrite <- Z.add_nocarry_lxor by done. by rewrite Z.shiftl_mul_pow2.
Qed.

Lemma magnitude_sum d : decimal_ok d -> magnitude d = magnitude_lo d + magnitude_hi d * 2 ^ 64.
Proof. intros [Hl Hh]. apply lor_shiftl_add; [lia|apply Hl]. Qed.

Lemma magnitude_range d : decimal_ok d -> in_unsigned 128 (magnitude d).
Proof. intros H. rewrite magnitude_sum by done. destruct H as [[] []]. split; lia. Qed.

Lemma decimal_new_ok p precision scale m : decimal_ok (DecimalParts_new p precision scale m).
Proof. split; apply Z.mod_pos_bound; done. Qed.

Lemma magnitude_new p precision scale m :
  in_unsigned 128 m -> magnitude (DecimalParts_new p precision scale m) = m.
Proof.
  intros [H1 H2]. rewrite magnitude_sum by apply decimal_new_ok. cbn. unfold as_u64. rewrite Z.shiftr_div_pow2 by lia.
  rewrite (Z.mod_small (m / 2 ^ 64)) by (split; [apply Z.div_pos; lia|apply Z.div_lt_upper_bound; lia]).
  pose proof (Z.div_mod m (2 ^ 64)). lia.
Qed.

Lemma new_magnitude d :
  decimal_ok d -> DecimalParts_new (is_positive d) (dec_precision d) (dec_scale d) (magnitude d) = d.
Proof.
  intros Hd. pose proof (magnitude_sum d Hd) as Hm. destruct Hd as [[Hl1 Hl2] [Hh1 Hh2]]. unfold DecimalParts_new. rewrite Hm.
  unfold as_u64. rewrite Z.shiftr_div_pow2, Z.div_add by lia. rewrite (Z.div_small (magnitude_lo d)) by lia.
  rewrite Z.mod_add, !Z.mod_small by lia. by destruct d.
Qed.

(** ** Digits *)

Definition is_digit (d : Z) : Prop := 0 <= d < 10.

(** The number a list of digits stands for, the most significant first. *)
Fixpoint of_digits (ds : list Z) : Z :=
  match ds with [] => 0 | d :: ds => d * 10 ^ Z.of_nat (length ds) + of_digits ds end.

Definition chars (ds : list Z) : list Z := Z.add 48 <$> ds.

(** Digits with the point before the last [scale] of them, once there are more. *)
Definition layout (scale : nat) (ds : list Z) : list Z :=
  if decide (0 < scale < length ds)%nat
  then chars (take (length ds - scale) ds) ++ 46 :: chars (drop (length ds - scale) ds)
  else chars ds.

Lemma length_layout scale ds :
  length (layout scale ds) = (length ds + (if decide (0 < scale < length ds) then 1 else 0))%nat.
Proof.
  unfold layout, chars. case_decide; [|rewrite length_fmap; lia]. rewrite length_app. cbn.
  rewrite !length_fmap, length_take, length_drop. lia.
Qed.

Lemma layout_cons scale d ds :
  layout scale (d :: ds) =
  (48 + d) :: (if decide (0 < scale /\ length ds = scale)%nat then 46 :: layout scale ds else layout scale ds).
Proof.
  unfold layout. cbn [length]. destruct (decide (0 < scale /\ length ds = scale)%nat) as [[Hs He]|Hn].
  - rewrite decide_True, decide_False by lia. replace (S (length ds) - scale)%nat with 1%nat by lia. done.
  - destruct (decide (0 < scale < length ds)%nat).
    + rewrite decide_True by lia. by replace (S (length ds) - scale)%nat with (S (length ds - scale)) by lia.
    + rewrite decide_False by lia. done.
Qed.

(** ** Limbs *)

Fixpoint limbs_value (ls : list Z) : Z := match ls with [] => 0 | l :: ls => l + LIMB * limbs_value ls end.

(** What is left of the number, in the current limb and those above. *)
Definition full (ls : list Z) (limb taken : nat) (current : Z) : Z :=
  current + 10 ^ Z.of_nat (LIMB_DIGITS - taken) * limbs_value (drop (S limb) ls).

(** All limbs but the last are below [LIMB], and what is above them is not zero. *)
Definition limbs_ok (ls : list Z) : Prop :=
  Forall (fun l => 0 <= l) ls /\
  forall i, (S i < length ls)%nat -> (exists l, ls !! i = Some l /\ l < LIMB) /\ 0 < limbs_value (drop (S i) ls).

Definition place_ok (ls : list Z) (limb taken : nat) (current : Z) : Prop :=
  (limb < length ls)%nat /\ 0 <= current /\
  ((S limb < length ls)%nat -> (taken < LIMB_DIGITS)%nat /\ current < 10 ^ Z.of_nat (LIMB_DIGITS - taken)).

Lemma split_limbs_ok m :
  in_unsigned 128 m ->
  let '(limbs, count) := split_limbs m in
  let ls := take count limbs in
  length ls = count /\ (0 < count)%nat /\ limbs_ok ls /\ limbs_value ls = m.
Proof.
  intros [H0 H1]. unfold split_limbs, U64_MAX. pose proof (Z.div_mod m LIMB ltac:(done)) as Hd.
  pose proof (Z.mod_pos_bound m LIMB ltac:(done)) as Hr. destruct (Z.leb_spec m (2 ^ 64 - 1)).
  { cbn. split_and!; [done|lia| |lia]. split; [by repeat constructor|]. cbn. lia. }
  assert (0 < m / LIMB) by (apply Z.div_str_pos; unfold LIMB; lia). cbv zeta. destruct (Z.leb_spec (m / LIMB) (2 ^ 64 - 1)).
  { cbn [take length]. split_and!; [done|lia| |unfold limbs_value; lia]. split; [repeat constructor; lia|].
    intros [|i] Hi; cbn in *; [|lia]. split; [eexists; split; [done|lia]|lia]. }
  set (rest := m / LIMB) in *. pose proof (Z.div_mod rest LIMB ltac:(done)) as Hd2.
  pose proof (Z.mod_pos_bound rest LIMB ltac:(done)) as Hr2.
  assert (0 < rest / LIMB) by (apply Z.div_str_pos; unfold LIMB; lia).
  assert (rest / LIMB < 2 ^ 64).
  { apply Z.div_lt_upper_bound; [done|]. subst rest. apply Z.div_lt_upper_bound; [done|]. unfold LIMB. lia. }
  unfold as_u64. rewrite (Z.mod_small (rest / LIMB)) by lia.
  cbn [take length]. split_and!; [done|lia| |cbn; lia]. split; [repeat constructor; lia|].
  intros [|[|i]] Hi; cbn in *; [| |lia]; (split; [eexists; split; [done|lia]|nia]).
Qed.

Lemma full_digit ls limb taken current :
  place_ok ls limb taken current -> full ls limb taken current mod 10 = current mod 10.
Proof.
  intros (Hl & _ & Hp). unfold full. destruct (decide (S limb < length ls)%nat) as [Hn|Hn].
  - destruct (Hp Hn) as [Ht _]. replace (LIMB_DIGITS - taken)%nat with (S (LIMB_DIGITS - S taken)) by lia.
    rewrite Nat2Z.inj_succ, Z.pow_succ_r by lia. rewrite <- Z.mul_assoc, Z.mul_comm, Z.mod_add by done. done.
  - rewrite drop_ge by lia. cbn. by rewrite Z.mul_0_r, Z.add_0_r.
Qed.

(** One digit further. *)
Lemma full_next ls (limbs : list Z) limb taken current :
  limbs_ok ls -> (forall i, (i < length ls)%nat -> limbs !! i = ls !! i) -> place_ok ls limb taken current ->
  exists limb' taken' current',
    (if decide (S taken = LIMB_DIGITS /\ limb + 1 < length ls)%nat
     then match limbs !! S limb with
          | Some next => Ok (S limb, 0%nat, next)
          | None => Panic "index out of bounds"
          end
     else Ok (limb, S taken, current / 10)) = Ok (limb', taken', current') /\
    place_ok ls limb' taken' current' /\ full ls limb' taken' current' = full ls limb taken current / 10 /\
    ((limb' + 1)%nat = length ls -> full ls limb' taken' current' = current') /\
    ((S limb' < length ls)%nat -> 0 < full ls limb' taken' current').
Proof.
  intros [Hpos Hok] Hlk (Hl & H0 & Hp).
  assert (Hlast : forall l t c, (l + 1)%nat = length ls -> full ls l t c = c).
  { intros l t c E. unfold full. rewrite drop_ge by lia. cbn. lia. }
  assert (Hmore : forall l t c, 0 <= c -> (S l < length ls)%nat -> 0 < full ls l t c).
  { intros l t c Hc Hlt. unfold full. destruct (Hok l Hlt) as [_ Hv].
    assert (0 < 10 ^ Z.of_nat (LIMB_DIGITS - t)) by (apply Z.pow_pos_nonneg; lia). nia. }
  case_decide as Hd.
  - destruct Hd as [Ht Hc]. destruct (Hp ltac:(lia)) as [_ Hb].
    destruct (lookup_lt_is_Some_2 ls (S limb) ltac:(lia)) as [next Hn]. rewrite Hlk, Hn by lia.
    exists (S limb), 0%nat, next.
    assert (0 <= next) as Hnext by (rewrite list.Forall_lookup in Hpos; by apply (Hpos (S limb))).
    split_and!; [done| | |apply Hlast|by apply Hmore].
    + split_and!; [lia|done|]. intros Hs. split; [unfold LIMB_DIGITS; lia|]. destruct (Hok (S limb) Hs) as [(l & E & Hlt) _].
      rewrite Hn in E. by simplify_eq.
    + assert (full ls limb taken current = current + 10 * limbs_value (drop (S limb) ls)) as ->.
      { unfold full. by replace (LIMB_DIGITS - taken)%nat with 1%nat by lia. }
      replace (LIMB_DIGITS - taken)%nat with 1%nat in Hb by lia. cbn in Hb.
      rewrite Z.mul_comm, Z.div_add, Z.div_small by lia. rewrite (drop_S ls next (S limb) Hn). done.
  - exists limb, (S taken), (current / 10). assert (0 <= current / 10) by (apply Z.div_pos; lia).
    split_and!; [done| | |apply Hlast|by apply Hmore].
    + split_and!; [done|done|]. intros Hs. destruct (Hp Hs) as [Ht Hb]. assert (S taken < LIMB_DIGITS)%nat by lia.
      split; [done|]. apply Z.div_lt_upper_bound; [done|].
      replace (LIMB_DIGITS - taken)%nat with (S (LIMB_DIGITS - S taken)) in Hb by lia.
      by rewrite Nat2Z.inj_succ, Z.pow_succ_r in Hb by lia.
    + destruct (decide (S limb < length ls)%nat) as [Hs|Hs].
      * destruct (Hp Hs) as [Ht Hb]. unfold full. replace (LIMB_DIGITS - taken)%nat with (S (LIMB_DIGITS - S taken)) by lia.
        rewrite (Nat2Z.inj_succ (LIMB_DIGITS - S taken)), Z.pow_succ_r by lia.
        rewrite <- Z.mul_assoc, (Z.mul_comm 10), Z.div_add by done. done.
      * rewrite !Hlast by lia. done.
Qed.

Lemma of_digits_bound ds : Forall is_digit ds -> 0 <= of_digits ds < 10 ^ Z.of_nat (length ds).
Proof.
  induction 1 as [|d ds [Hd1 Hd2] _ IH]; [done|]. cbn [of_digits length]. rewrite Nat2Z.inj_succ, Z.pow_succ_r by lia. nia.
Qed.

(** The digits produced so far, and whether there are more. *)
Record digits_of (m : Z) (scale : nat) (ds : list Z) : Prop := {
  do_digits : Forall is_digit ds;
  do_value : of_digits ds = m mod 10 ^ Z.of_nat (length ds);
  do_more : (length ds <= scale)%nat \/ 0 < m / 10 ^ Z.of_nat (length ds);
}.

Lemma digits_next m scale ds :
  0 <= m -> digits_of m scale ds ->
  let e := Z.of_nat (length ds) in
  Forall is_digit ((m / 10 ^ e) mod 10 :: ds) /\ of_digits ((m / 10 ^ e) mod 10 :: ds) = m mod 10 ^ (e + 1) /\
  m / 10 ^ (e + 1) = m / 10 ^ e / 10.
Proof.
  intros Hm [Hd Hv _] e. assert (0 < 10 ^ e) by (apply Z.pow_pos_nonneg; lia). split_and!.
  - constructor; [apply Z.mod_pos_bound; done|done].
  - cbn [of_digits]. rewrite Hv, Z.pow_add_r, Z.pow_1_r, Z.rem_mul_r by lia. fold e. lia.
  - by rewrite Z.pow_add_r, Z.pow_1_r, Z.div_div by lia.
Qed.

(** All digits of [m], with one before the point at least and no zero in front that is not needed. *)
Definition rendered (m : Z) (scale : nat) (ds : list Z) : Prop :=
  Forall is_digit ds /\ of_digits ds = m /\ (scale < length ds <= 46)%nat /\
  (length ds = S scale \/ exists d ds', ds = d :: ds' /\ d <> 0).

Lemma digits_few m scale ds :
  in_unsigned 128 m -> (scale <= 45)%nat -> digits_of m scale ds -> (length ds <= 45)%nat.
Proof.
  intros [Hm1 Hm2] Hs [_ _ [Hl|Hp]]; [lia|]. destruct (decide (length ds <= 45)%nat) as [|Hn]; [done|]. exfalso.
  assert (m / 10 ^ Z.of_nat (length ds) = 0); [|lia]. apply Z.div_small. split; [done|].
  apply (Z.lt_le_trans _ (10 ^ 46)); [lia|]. apply Z.pow_le_mono_r; lia.
Qed.

Lemma put_ok c out : (length out < 48)%nat -> put c out = Ok (c :: out).
Proof. intros H. unfold put, DECIMAL_STR_LEN. by rewrite decide_True. Qed.

(** One turn writes the next digit, and the point in front of it where it belongs. *)
Lemma turn_writes scale ds d :
  (length ds <= 45)%nat ->
  (let? out := if decide (0 < scale /\ length ds = scale)%nat then put 46 (layout scale ds) else Ok (layout scale ds) in
   put (48 + d) out) = Ok (layout scale (d :: ds)).
Proof.
  intros Hl. rewrite layout_cons. destruct (decide (0 < scale /\ length ds = scale)%nat) as [[H1 H2]|H].
  - rewrite put_ok by (rewrite length_layout, decide_False; lia). cbn. rewrite put_ok; [done|]. cbn.
    rewrite length_layout, decide_False; lia.
  - cbn. rewrite put_ok; [done|]. rewrite length_layout. case_match; lia.
Qed.

Lemma digits_loop_spec limbs ls scale m :
  limbs_ok ls -> (forall i, (i < length ls)%nat -> limbs !! i = ls !! i) -> in_unsigned 128 m -> (scale <= 45)%nat ->
  forall fuel ds limb taken current,
  digits_of m scale ds -> place_ok ls limb taken current ->
  full ls limb taken current = m / 10 ^ Z.of_nat (length ds) -> (46 - length ds <= fuel)%nat ->
  exists ds', digits_loop fuel limbs (length ls) scale (layout scale ds) (length ds) limb taken current =
    Ok (layout scale ds') /\ rendered m scale ds'.
Proof.
  intros Hls Hlk Hm Hs. induction fuel as [|fuel IH]; intros ds limb taken current Hd Hp Hf Hfuel.
  { pose proof (digits_few m scale ds Hm Hs Hd). lia. }
  pose proof (digits_few m scale ds Hm Hs Hd) as Hl. pose proof (digits_next m scale ds (proj1 Hm) Hd) as (Hdig & Hval & Hdiv).
  pose proof (full_digit ls limb taken current Hp) as Hdigit. rewrite Hf in Hdigit.
  destruct (full_next ls limbs limb taken current Hls Hlk Hp) as (limb' & taken' & current' & En & Hp' & Hf' & Hlast & Hmore).
  rewrite Hf, <- Hdiv in Hf'. cbn [digits_loop]. pose proof (turn_writes scale ds (current mod 10) Hl) as Ht.
  match type of Ht with rbind ?x _ = _ => destruct x as [out| | |]; try done end. cbn [rbind] in Ht |- *. cbv zeta.
  rewrite Ht. cbn [rbind]. rewrite En. cbn [rbind]. set (ds1 := current mod 10 :: ds) in *. rewrite Hdigit in Hdig, Hval. fold ds1 in Hdig, Hval.
  assert (Hl1 : Z.of_nat (length ds1) = Z.of_nat (length ds) + 1) by (cbn; lia).
  destruct (decide ((limb' + 1)%nat = length ls /\ current' = 0 /\ (scale < S (length ds))%nat)) as [Hstop|Hstop].
  - destruct Hstop as (Hb & Hc & He). exists ds1. split; [done|]. rewrite (Hlast Hb), Hc in Hf'.
    assert (m < 10 ^ (Z.of_nat (length ds) + 1)) as Hlt.
    { symmetry in Hf'. apply Z.div_small_iff in Hf'; [|apply Z.pow_nonzero; lia]. destruct Hf' as [|Hneg]; [lia|].
      assert (0 < 10 ^ (Z.of_nat (length ds) + 1)) by (apply Z.pow_pos_nonneg; lia). lia. }
    split_and!; [done| |cbn; lia|cbn; lia|].
    + rewrite Hval. apply Z.mod_small. destruct Hm. lia.
    + destruct (do_more _ _ _ Hd) as [Hle|Hpos]; [left; cbn; lia|right]. exists (current mod 10), ds. split; [done|].
      rewrite <- Hdigit. rewrite Z.mod_small; [lia|]. split; [lia|]. apply Z.div_lt_upper_bound; [apply Z.pow_pos_nonneg; lia|].
      rewrite Z.pow_add_r in Hlt by lia. lia.
  - change (S (length ds)) with (length ds1). apply IH; [|done|by rewrite Hl1|cbn; lia].
    constructor; [done|by rewrite Hl1|]. rewrite Hl1, <- Hf'. destruct (decide (limb' + 1 = length ls)%nat) as [Hb|Hb].
    + rewrite (Hlast Hb). destruct (decide (current' = 0)); [left; cbn; apply Nat.le_ngt; intros ?; apply Hstop; auto with lia|right].
      destruct Hp' as (_ & Hc' & _). lia.
    + right. apply Hmore. destruct Hp'. lia.
Qed.

(** ** Words *)

Lemma fold_words_shift m k : forall i acc,
  0 <= m -> acc = m mod 2 ^ (Z.of_nat i * 32) ->
  fold_words i ((fun j => as_i32 (as_u32 (Z.shiftr m (Z.of_nat j * 32)))) <$> seq i k) acc =
  m mod 2 ^ (Z.of_nat (i + k) * 32).
Proof.
  induction k as [|k IH]; intros i acc Hm ->; cbn; [by rewrite Nat.add_0_r|]. rewrite (IH (S i)); [f_equal; do 2 f_equal; lia|done|].
  assert (as_u32 (as_i32 (as_u32 (Z.shiftr m (Z.of_nat i * 32)))) = as_u32 (Z.shiftr m (Z.of_nat i * 32))) as ->.
  { unfold as_u32, as_i32. rewrite mod_to_signed. apply Z.mod_mod. done. }
  rewrite lor_shiftl_add; [|lia|apply Z.mod_pos_bound, Z.pow_pos_nonneg; lia].
  rewrite Z.shiftr_div_pow2 by lia. unfold as_u32. replace (Z.of_nat (S i) * 32) with (Z.of_nat i * 32 + 32) by lia.
  rewrite Z.pow_add_r by lia. rewrite Z.rem_mul_r by (try apply Z.pow_pos_nonneg; try apply Z.pow_nonzero; lia). lia.
Qed.

Lemma word_count_fits d : decimal_ok d -> magnitude d < 2 ^ (Z.of_nat (word_count d) * 32).
Proof.
  intros Hd. pose proof (magnitude_range d Hd) as [H1 H2]. unfold word_count, bit_length.
  destruct (Z.eqb_spec (magnitude d) 0) as [->|Hn]; [apply Z.pow_pos_nonneg; lia|].
  apply Z.log2_lt_pow2; [lia|]. pose proof (Z.log2_nonneg (magnitude d)).
  pose proof (Z.div_mod (Z.log2 (magnitude d) + 1 + 31) 32 ltac:(done)).
  pose proof (Z.mod_pos_bound (Z.log2 (magnitude d) + 1 + 31) 32 ltac:(done)). lia.
Qed.

Lemma word_small d i :
  (i < 4)%nat -> word d i = as_i32 (as_u32 (Z.shiftr (magnitude d) (Z.of_nat i * 32))).
Proof. intros. unfold word. rewrite decide_False; [done|]. unfold MAX_DECIMAL_INT_PARTS. lia. Qed.

(** ** The text as a whole *)

Lemma layout_split scale ds :
  (scale < length ds)%nat ->
  let n := (length ds - scale)%nat in
  layout scale ds = chars (take n ds) ++ (if decide (drop n ds = []) then [] else 46 :: chars (drop n ds)).
Proof.
  intros Hl n. unfold layout. fold n. destruct (decide (0 < scale)%nat) as [Hc|Hc].
  - rewrite decide_True by lia. rewrite decide_False; [done|]. intros E0. apply (f_equal length) in E0.
    rewrite length_drop in E0. cbn in E0. lia.
  - rewrite decide_False by lia. rewrite (drop_ge ds n), (take_ge ds n) by lia. by rewrite decide_True, app_nil_r.
Qed.

Lemma layout_nil scale : layout scale [] = [].
Proof. unfold layout. rewrite decide_False; [done|]. cbn. lia. Qed.

Lemma format_digits d :
  decimal_ok d ->
  exists ds, rendered (magnitude d) (clamped_scale d) ds /\
    format_into d = (if is_positive d then Ok (layout (clamped_scale d) ds) else put 45 (layout (clamped_scale d) ds)).
Proof.
  intros Hd. pose proof (magnitude_range d Hd) as Hm. unfold format_into.
  pose proof (split_limbs_ok (magnitude d) Hm) as H. destruct (split_limbs (magnitude d)) as [limbs count].
  destruct H as (Hlen & Hpos & Hok & Hv). set (ls := take count limbs) in *.
  assert (Hlk : forall i, (i < length ls)%nat -> limbs !! i = ls !! i).
  { intros i Hi. unfold ls. by rewrite lookup_take_lt by lia. }
  destruct (lookup_lt_is_Some_2 ls 0 ltac:(lia)) as [first Hf]. rewrite Hlk, Hf by lia.
  assert (Hfull : full ls 0 0 first = magnitude d).
  { rewrite <- Hv. unfold full. destruct ls as [|l ls']; [done|]. cbn in Hf. by simplify_eq. }
  destruct (digits_loop_spec limbs ls (clamped_scale d) (magnitude d) Hok Hlk Hm
    ltac:(unfold clamped_scale, DECIMAL_STR_LEN; lia) (S DECIMAL_STR_LEN) [] 0 0 first) as (ds & E & Hr).
  { constructor; [constructor|cbn; by rewrite Z.mod_1_r|left; cbn; lia]. }
  { destruct Hok as [Hp Ho]. split_and!; [lia|rewrite list.Forall_lookup in Hp; by apply (Hp 0%nat)|]. intros Hs1.
    split; [unfold LIMB_DIGITS; lia|]. destruct (Ho 0%nat Hs1) as [(l & El & Hlt) _]. rewrite Hf in El. by simplify_eq. }
  { rewrite Hfull. cbn. by rewrite Z.div_1_r. }
  { unfold DECIMAL_STR_LEN. cbn. lia. }
  exists ds. split; [done|]. rewrite layout_nil in E. cbn [length] in E. by rewrite <- Hlen, E.
Qed.

(** ** Properties *)

(** A decimal renders as its value: an optional minus sign, at least one digit, and after a point
    exactly as many digits as its scale (bounded by the buffer), without a needless leading zero;
    read back, the digits are the magnitude.  The rendering never panics: every value with two 64-bit
    halves and any scale fits the 48 bytes. *)
Theorem decimal_renders d :
  decimal_ok d ->
  exists int frac,
    format_into d = Ok ((if is_positive d then [] else [45]) ++ chars int ++
                        (if decide (frac = []) then [] else 46 :: chars frac)) /\
    Forall is_digit (int ++ frac) /\ of_digits (int ++ frac) = magnitude d /\
    length frac = clamped_scale d /\ (length int = 1%nat \/ exists x int', int = x :: int' /\ x <> 0).
Proof.
  intros Hd. destruct (format_digits d Hd) as (ds & (Hdig & Hval & [Hl1 Hl2] & Hlead) & E).
  pose proof (layout_split (clamped_scale d) ds Hl1) as Hlay. cbv zeta in Hlay.
  set (n := (length ds - clamped_scale d)%nat) in *. exists (take n ds), (drop n ds). rewrite take_drop.
  split_and!; [|done|done|rewrite length_drop; lia|].
  - rewrite E, <- Hlay. destruct (is_positive d); [done|]. rewrite put_ok; [done|]. rewrite length_layout.
    destruct (decide (0 < clamped_scale d < length ds)%nat); lia.
  - destruct Hlead as [Hl|(x & ds' & -> & Hx)]; [left; rewrite length_take; lia|right].
    assert (n = S (n - 1)) as -> by (cbn in *; lia). cbn. eauto.
Qed.

Definition wide_decimal : DecimalParts := DecimalParts_new false 38 3 (10 ^ 38 - 5).

Lemma decimal_renders_witness :
  format_into wide_decimal = Ok ([45] ++ chars (replicate 35 9) ++ [46] ++ chars [9; 9; 5]) /\
  exists int frac,
    format_into wide_decimal = Ok ((if is_positive wide_decimal then [] else [45]) ++ chars int ++
                                   (if decide (frac = []) then [] else 46 :: chars frac)) /\
    of_digits (int ++ frac) = magnitude wide_decimal.
Proof.
  split; [vm_compute; reflexivity|].
  destruct (decimal_renders wide_decimal (decimal_new_ok _ _ _ _)) as (int & frac & E & _ & Hv & _).
  exists int, frac. split; [exact E|exact Hv].
Defined.

(** A decimal survives being taken apart into 32-bit words and put together again, from as many
    words as [word_count] says or from more of them, padded with zeros; words that do not fit a
    128-bit magnitude are rejected. *)
Theorem decimal_words_round_trip d n :
  decimal_ok d -> (word_count d <= n)%nat ->
  try_from_words (is_positive d) (dec_precision d) (dec_scale d) (word d <$> seq 0 n) = Some d /\
  forall extra, extra <> 0 ->
    try_from_words (is_positive d) (dec_precision d) (dec_scale d) ((word d <$> seq 0 4) ++ [extra]) = None.
Proof.
  intros Hd Hn. split.
  - unfold try_from_words, MAX_DECIMAL_INT_PARTS. change (Z.to_nat 4) with 4%nat.
    assert (forallb (fun word => word =? 0) (drop 4 (word d <$> seq 0 n)) = true) as ->.
    { apply forallb_forall. intros x Hx. apply list_elem_of_In, list_elem_of_lookup in Hx as [i Hx].
      rewrite lookup_drop, list_lookup_fmap in Hx. apply fmap_Some in Hx as (j & Hj & ->).
      apply lookup_seq in Hj as [-> _]. unfold word. rewrite decide_True; [done|]. unfold MAX_DECIMAL_INT_PARTS. lia. }
    f_equal. unfold from_words, MAX_DECIMAL_INT_PARTS. change (Z.to_nat 4) with 4%nat.
    rewrite <- fmap_take, take_seq. pose proof (magnitude_range d Hd) as [H1 H2].
    rewrite (list_fmap_ext (word d) (fun j => as_i32 (as_u32 (Z.shiftr (magnitude d) (Z.of_nat j * 32))))).
    + rewrite fold_words_shift by (try done; cbn; by rewrite Z.mod_1_r). rewrite Z.mod_small; [by apply new_magnitude|].
      split; [done|]. pose proof (word_count_fits d Hd). cbn [Nat.add]. destruct (decide (n <= 4)%nat).
      * rewrite Nat.min_r by lia. eapply Z.lt_le_trans; [done|]. apply Z.pow_le_mono_r; lia.
      * rewrite Nat.min_l by lia. done.
    + intros i x Hx. apply lookup_seq in Hx as [-> Hi]. apply word_small. lia.
  - intros extra He. unfold try_from_words. rewrite drop_app_length' by done. cbn [forallb].
    by rewrite (proj2 (Z.eqb_neq _ _) He).
Qed.

Lemma decimal_words_round_trip_witness :
  try_from_words (is_positive wide_decimal) (dec_precision wide_decimal) (dec_scale wide_decimal)
    (word wide_decimal <$> seq 0 4) = Some wide_decimal.
Proof.
  apply (decimal_words_round_trip wide_decimal 4 (decimal_new_ok _ _ _ _)). apply Nat.leb_le. vm_compute. reflexivity.
Defined.
