(* ===== verification/NarrowText.v ===== *)
(** * Narrow text (src/mssql-tds/src/datatypes/sql_string.rs, sql_string/encoding.rs, lcid_encoding.rs)

    The encodings of narrow character columns: which one a collation selects, the two OEM code pages the
    crate has tables for, and how text is encoded with a substitute for what an encoding lacks.  The other
    encodings are those of the encoding_rs crate, a parameter here. *)

From stdpp Require Import strings.
From S2P Require Import Prelude Core Unicode PacketReader Tokens DataTypes ColMetadata Values.

(** The encodings of encoding_rs the code names. *)
Inductive Encoding :=
  | UTF_8 | UTF_16LE | SHIFT_JIS | GBK | BIG5 | EUC_KR | WINDOWS_874 | WINDOWS_1250 | WINDOWS_1251 | WINDOWS_1252
  | WINDOWS_1253 | WINDOWS_1254 | WINDOWS_1255 | WINDOWS_1256 | WINDOWS_1257 | WINDOWS_1258.

#[global] Instance Encoding_eq_dec : EqDecision Encoding.
Proof. solve_decision. Defined.

(** [Encoding::decode_without_bom_handling]: the text and whether the input was malformed.
    [Encoding::encode]: the bytes, the encoding used and whether a character was unmappable. *)
Class EncodingRs := {
  rs_decode : Encoding -> bytes -> str * bool;
  rs_encode : Encoding -> str -> bytes * Encoding * bool;
}.

Inductive ResolvedEncoding := ByEncodingRs (e : Encoding) | Oem437 | Oem850.

(** ** Tables *)

Definition lcid_encodings : list (list Z * Encoding) :=
  [ ([
       0x0409; 0x0809; 0x0C09; 0x1009; 0x1409; 0x1809; 0x1C09; 0x2009; 0x2409; 0x2809; 0x2C09; 0x3009; 0x3409;
       0x0407; 0x0807; 0x0C07; 0x1007; 0x1407; 0x040C; 0x080C; 0x0C0C; 0x100C; 0x140C; 0x180C; 0x040A; 0x080A;
       0x0C0A; 0x100A; 0x140A; 0x180A; 0x1C0A; 0x200A; 0x240A; 0x280A; 0x2C0A; 0x300A; 0x340A; 0x380A; 0x3C0A;
       0x400A; 0x440A; 0x480A; 0x4C0A; 0x500A; 0x0410; 0x0810; 0x0413; 0x0813; 0x0416; 0x0816; 0x041D; 0x081D;
       0x0414; 0x0814; 0x0406; 0x040B; 0x040F; 0x0438], WINDOWS_1252);
    ([0x0411], SHIFT_JIS);
    ([0x0804; 0x1004], GBK);
    ([0x0404; 0x0C04; 0x1404], BIG5);
    ([0x0412], EUC_KR);
    ([0x0415; 0x0405; 0x040E; 0x0418; 0x041A; 0x041B; 0x0424; 0x041C], WINDOWS_1250);
    ([
       0x0419; 0x0422; 0x0423; 0x0402; 0x0C1A; 0x1C1A; 0x281A; 0x042F; 0x043F; 0x0843; 0x0444; 0x0440], WINDOWS_1251);
    ([0x0408], WINDOWS_1253);
    ([0x041F; 0x042C], WINDOWS_1254);
    ([0x040D], WINDOWS_1255);
    ([
       0x0401; 0x0801; 0x0C01; 0x1001; 0x1401; 0x1801; 0x1C01; 0x2001; 0x2401; 0x2801; 0x2C01; 0x3001; 0x3401;
       0x3801; 0x3C01; 0x4001; 0x0420; 0x0429], WINDOWS_1256);
    ([0x0425; 0x0426; 0x0427], WINDOWS_1257);
    ([0x042A], WINDOWS_1258);
    ([0x041E], WINDOWS_874) ].

Definition lcid_code_pages : list (Z * Z) :=
  [
    (0x0401, 1256); (0x0404, 950); (0x0405, 1250); (0x0406, 1252); (0x0408, 1253); (0x0409, 1252);
    (0x040A, 1252); (0x040B, 1252); (0x040C, 1252); (0x040D, 1255); (0x040E, 1250); (0x040F, 1252);
    (0x0411, 932); (0x0412, 949); (0x0414, 1252); (0x0415, 1250); (0x0417, 1252); (0x0418, 1250);
    (0x0419, 1251); (0x041A, 1250); (0x041B, 1250); (0x041C, 1250); (0x041E, 874); (0x041F, 1254);
    (0x0420, 1256); (0x0422, 1251); (0x0424, 1250); (0x0425, 1257); (0x0426, 1257); (0x0427, 1257);
    (0x0429, 1256); (0x042A, 1258); (0x042C, 1254); (0x042E, 1252); (0x042F, 1251); (0x043B, 1252);
    (0x043F, 1251); (0x0442, 1250); (0x0443, 1254); (0x0444, 1251); (0x0452, 1252); (0x0462, 1252);
    (0x046D, 1251); (0x047A, 1252); (0x047C, 1252); (0x047E, 1252); (0x0480, 1256); (0x0483, 1252);
    (0x0485, 1251); (0x048C, 1256); (0x0804, 936); (0x081A, 1250); (0x0827, 1257); (0x082C, 1251);
    (0x083B, 1252); (0x085F, 1252); (0x0C04, 950); (0x0C0A, 1252); (0x0C1A, 1251); (0x1404, 950);
    (0x141A, 1250); (0x201A, 1251); (0x10407, 1252); (0x1040E, 1250); (0x10411, 932); (0x10412, 949);
    (0x10437, 1252); (0x20804, 936); (0x21404, 950); (0x30404, 950); (0x40411, 932) ].

Definition CODE_PAGE_FROM_SORT_ID : list (option Z) :=
  replicate 30 None ++ replicate 5 (Some 437) ++ replicate 5 None ++ replicate 5 (Some 850) ++
  replicate 4 None ++ replicate 1 (Some 850) ++ replicate 5 (Some 1252) ++ replicate 7 (Some 850) ++
  replicate 9 None ++ replicate 5 (Some 1252) ++ replicate 4 None ++ replicate 18 (Some 1250) ++
  replicate 6 None ++ replicate 5 (Some 1251) ++ replicate 3 None ++ replicate 3 (Some 1253) ++
  replicate 5 None ++ replicate 3 (Some 1253) ++ replicate 1 None ++ replicate 1 (Some 1253) ++
  replicate 3 None ++ replicate 3 (Some 1254) ++ replicate 5 None ++ replicate 3 (Some 1255) ++
  replicate 5 None ++ replicate 3 (Some 1256) ++ replicate 5 None ++ replicate 9 (Some 1257) ++
  replicate 22 None ++ replicate 4 (Some 1252) ++ replicate 5 None ++ replicate 2 (Some 932) ++
  replicate 2 (Some 949) ++ replicate 2 (Some 950) ++ replicate 2 (Some 936) ++ replicate 1 (Some 932) ++
  replicate 1 (Some 949) ++ replicate 1 (Some 950) ++ replicate 1 (Some 936) ++ replicate 3 (Some 874) ++
  replicate 3 None ++ replicate 8 (Some 1252) ++ replicate 38 None.

Definition CP437 : list char :=
  [
    0x00c7; 0x00fc; 0x00e9; 0x00e2; 0x00e4; 0x00e0; 0x00e5; 0x00e7; 0x00ea; 0x00eb; 0x00e8; 0x00ef; 0x00ee;
    0x00ec; 0x00c4; 0x00c5; 0x00c9; 0x00e6; 0x00c6; 0x00f4; 0x00f6; 0x00f2; 0x00fb; 0x00f9; 0x00ff; 0x00d6;
    0x00dc; 0x00a2; 0x00a3; 0x00a5; 0x20a7; 0x0192; 0x00e1; 0x00ed; 0x00f3; 0x00fa; 0x00f1; 0x00d1; 0x00aa;
    0x00ba; 0x00bf; 0x2310; 0x00ac; 0x00bd; 0x00bc; 0x00a1; 0x00ab; 0x00bb; 0x2591; 0x2592; 0x2593; 0x2502;
    0x2524; 0x2561; 0x2562; 0x2556; 0x2555; 0x2563; 0x2551; 0x2557; 0x255d; 0x255c; 0x255b; 0x2510; 0x2514;
    0x2534; 0x252c; 0x251c; 0x2500; 0x253c; 0x255e; 0x255f; 0x255a; 0x2554; 0x2569; 0x2566; 0x2560; 0x2550;
    0x256c; 0x2567; 0x2568; 0x2564; 0x2565; 0x2559; 0x2558; 0x2552; 0x2553; 0x256b; 0x256a; 0x2518; 0x250c;
    0x2588; 0x2584; 0x258c; 0x2590; 0x2580; 0x03b1; 0x00df; 0x0393; 0x03c0; 0x03a3; 0x03c3; 0x00b5; 0x03c4;
    0x03a6; 0x0398; 0x03a9; 0x03b4; 0x221e; 0x03c6; 0x03b5; 0x2229; 0x2261; 0x00b1; 0x2265; 0x2264; 0x2320;
    0x2321; 0x00f7; 0x2248; 0x00b0; 0x2219; 0x00b7; 0x221a; 0x207f; 0x00b2; 0x25a0; 0x00a0 ].

Definition CP850 : list char :=
  [
    0x00c7; 0x00fc; 0x00e9; 0x00e2; 0x00e4; 0x00e0; 0x00e5; 0x00e7; 0x00ea; 0x00eb; 0x00e8; 0x00ef; 0x00ee;
    0x00ec; 0x00c4; 0x00c5; 0x00c9; 0x00e6; 0x00c6; 0x00f4; 0x00f6; 0x00f2; 0x00fb; 0x00f9; 0x00ff; 0x00d6;
    0x00dc; 0x00f8; 0x00a3; 0x00d8; 0x00d7; 0x0192; 0x00e1; 0x00ed; 0x00f3; 0x00fa; 0x00f1; 0x00d1; 0x00aa;
    0x00ba; 0x00bf; 0x00ae; 0x00ac; 0x00bd; 0x00bc; 0x00a1; 0x00ab; 0x00bb; 0x2591; 0x2592; 0x2593; 0x2502;
    0x2524; 0x00c1; 0x00c2; 0x00c0; 0x00a9; 0x2563; 0x2551; 0x2557; 0x255d; 0x00a2; 0x00a5; 0x2510; 0x2514;
    0x2534; 0x252c; 0x251c; 0x2500; 0x253c; 0x00e3; 0x00c3; 0x255a; 0x2554; 0x2569; 0x2566; 0x2560; 0x2550;
    0x256c; 0x00a4; 0x00f0; 0x00d0; 0x00ca; 0x00cb; 0x00c8; 0x0131; 0x00cd; 0x00ce; 0x00cf; 0x2518; 0x250c;
    0x2588; 0x2584; 0x00a6; 0x00cc; 0x2580; 0x00d3; 0x00df; 0x00d4; 0x00d2; 0x00f5; 0x00d5; 0x00b5; 0x00fe;
    0x00de; 0x00da; 0x00db; 0x00d9; 0x00fd; 0x00dd; 0x00af; 0x00b4; 0x00ad; 0x00b1; 0x2017; 0x00be; 0x00b6;
    0x00a7; 0x00f7; 0x00b8; 0x00b0; 0x00a8; 0x00b7; 0x00b9; 0x00b3; 0x00b2; 0x25a0; 0x00a0 ].

(** ** UTF-8 *)

(** The scalar value a sequence of bytes begins with and its length, as its lead byte says. *)
Definition utf8_candidate (bs : bytes) : option (char * nat) :=
  match byte_val <$> bs with
  | a :: rest =>
      if a <? 0x80 then Some (a, 1%nat)
      else match rest with
           | b :: rest =>
               if a <? 0xE0 then Some ((a - 0xC0) * 0x40 + (b - 0x80), 2%nat)
               else match rest with
                    | c :: rest =>
                        if a <? 0xF0 then Some ((a - 0xE0) * 0x1000 + (b - 0x80) * 0x40 + (c - 0x80), 3%nat)
                        else match rest with
                             | d :: _ =>
                                 Some ((a - 0xF0) * 0x40000 + (b - 0x80) * 0x1000 + (c - 0x80) * 0x40 + (d - 0x80), 4%nat)
                             | [] => None
                             end
                    | [] => None
                    end
           | [] => None
           end
  | [] => None
  end.

(** [str::from_utf8]: each sequence must be the encoding of a scalar value. *)
Fixpoint from_utf8_loop (fuel : nat) (bs : bytes) : option str :=
  match bs, fuel with
  | [], _ => Some []
  | _, O => None
  | _, S fuel =>
      match utf8_candidate bs with
      | Some (c, n) =>
          if is_scalar c && bool_decide (byte_val <$> take n bs = byte_val <$> encode_utf8 c)
          then cons c <$> from_utf8_loop fuel (drop n bs) else None
      | None => None
      end
  end.

Definition from_utf8 (bs : bytes) : option str := from_utf8_loop (length bs) bs.

(** ** [ResolvedEncoding] *)

Definition is_ascii_char (c : char) : bool := c <? 128.

Definition decode_oem (table : list char) (b : byte) : TdsResult char :=
  if byte_val b <? 128 then Ok (byte_val b)
  else match table !! Z.to_nat (byte_val b - 128) with Some c => Ok c | None => Panic "index out of bounds" end.

(** [Iterator::position]. *)
Fixpoint index_of (c : char) (table : list char) : option nat :=
  match table with
  | [] => None
  | entry :: table => if entry =? c then Some 0%nat else S <$> index_of c table
  end.

(** The decimal digits of a number, for [format!]. *)
Fixpoint decimal_digits (fuel : nat) (n : Z) (acc : bytes) : bytes :=
  match fuel with
  | O => acc
  | S fuel =>
      let acc := byte_of (48 + n mod 10) :: acc in
      if n / 10 =? 0 then acc else decimal_digits fuel (n / 10) acc
  end.

(** [format!("&#{};", u32::from(character))]; a scalar value has at most seven digits. *)
Definition character_reference (c : char) : bytes :=
  [byte_of 38; byte_of 35] ++ decimal_digits 7 c [] ++ [byte_of 59].

Fixpoint encode_oem (table : list char) (text : str) : bytes * bool :=
  match text with
  | [] => ([], false)
  | c :: text =>
      let '(rest, errors) := encode_oem table text in
      if is_ascii_char c then (byte_of c :: rest, errors)
      else match index_of c table with
           | Some index => (byte_of (as_u8 (Z.of_nat index) + 128) :: rest, errors)
           | None => (character_reference c ++ rest, true)
           end
  end.

Fixpoint traverse_bytes (f : byte -> TdsResult char) (bs : bytes) : TdsResult str :=
  match bs with
  | [] => Ok []
  | b :: bs => let? c := f b in let? s := traverse_bytes f bs in Ok (c :: s)
  end.

Definition oem_table (e : ResolvedEncoding) : option (list char) :=
  match e with ByEncodingRs _ => None | Oem437 => Some CP437 | Oem850 => Some CP850 end.

Section codecs.
Context `{rs : EncodingRs}.

(** [decode_without_bom_handling]; the ASCII shortcut decodes the bytes as they are. *)
Definition resolved_decode (e : ResolvedEncoding) (bs : bytes) : TdsResult (str * bool) :=
  match e with
  | ByEncodingRs e => Ok (rs_decode e bs)
  | Oem437 | Oem850 =>
      if forallb (fun b => byte_val b <? 128) bs then Ok (byte_val <$> bs, false)
      else let? s := traverse_bytes (decode_oem (default [] (oem_table e))) bs in Ok (s, false)
  end.

(** [ResolvedEncoding::encode] *)
Definition resolved_encode (e : ResolvedEncoding) (text : str) : bytes * ResolvedEncoding * bool :=
  match e with
  | ByEncodingRs enc => let '(bs, used, errors) := rs_encode enc text in (bs, ByEncodingRs used, errors)
  | Oem437 | Oem850 =>
      if forallb is_ascii_char text then (as_bytes text, e, false)
      else let '(bs, errors) := encode_oem (default [] (oem_table e)) text in (bs, e, errors)
  end.

(** ** Collations *)

Definition lcid_to_encoding (lcid : Z) : option Encoding :=
  snd <$> List.find (fun g => existsb (Z.eqb lcid) (fst g)) lcid_encodings.

Definition lcid_to_code_page (lcid : Z) : option Z :=
  snd <$> List.find (fun p => fst p =? lcid) lcid_code_pages.

(** The LCID with its sort version, the lower 20 bits. *)
Definition collation_lcid (c : SqlCollation) : Z := Z.land (info c) 0xFFFFF.

(** [CODE_PAGE_FROM_SORT_ID[sort_id]], whose index is a [u8]. *)
Definition sort_id_code_page (c : SqlCollation) : option Z :=
  match CODE_PAGE_FROM_SORT_ID !! Z.to_nat (sort_id c) with Some p => p | None => None end.

Definition try_resolve_collation (c : SqlCollation) : option ResolvedEncoding :=
  if utf8 c then Some (ByEncodingRs UTF_8)
  else
    let by_lcid := ByEncodingRs <$> lcid_to_encoding (collation_lcid c) in
    match sort_id_code_page c with
    | Some code_page =>
        match code_page with
        | 437 => Some Oem437
        | 850 => Some Oem850
        | 874 => Some (ByEncodingRs WINDOWS_874)
        | 932 => Some (ByEncodingRs SHIFT_JIS)
        | 936 => Some (ByEncodingRs GBK)
        | 949 => Some (ByEncodingRs EUC_KR)
        | 950 => Some (ByEncodingRs BIG5)
        | 1250 => Some (ByEncodingRs WINDOWS_1250)
        | 1251 => Some (ByEncodingRs WINDOWS_1251)
        | 1252 => Some (ByEncodingRs WINDOWS_1252)
        | 1253 => Some (ByEncodingRs WINDOWS_1253)
        | 1254 => Some (ByEncodingRs WINDOWS_1254)
        | 1255 => Some (ByEncodingRs WINDOWS_1255)
        | 1256 => Some (ByEncodingRs WINDOWS_1256)
        | 1257 => Some (ByEncodingRs WINDOWS_1257)
        | _ => by_lcid
        end
    | None => by_lcid
    end.

Definition resolve_collation (c : SqlCollation) : ResolvedEncoding :=
  default (ByEncodingRs WINDOWS_1252) (try_resolve_collation c).

Definition collation_code_page (c : SqlCollation) : option Z :=
  if utf8 c then Some 65001
  else match sort_id_code_page c with
       | Some code_page => Some code_page
       | None => lcid_to_code_page (collation_lcid c)
       end.

(** ** Encoding with substitutes *)

Definition NARROW_SUBSTITUTE_BYTE : byte := byte_of 63.

Record NarrowEncoded := { ne_bytes : bytes; had_loss : bool }.

(** [char::len_utf16] *)
Definition len_utf16 (c : char) : nat := length (encode_utf16 c).

Definition substitutes (c : char) : bytes := replicate (len_utf16 c) NARROW_SUBSTITUTE_BYTE.

Definition substitute_unmappable (text : str) (e : ResolvedEncoding) : bytes :=
  concat ((fun c => let '(bs, _, failed) := resolved_encode e [c] in
                    if (failed : bool) then substitutes c else bs) <$> text).

Definition encode_narrow_with (text : str) (e : ResolvedEncoding) : NarrowEncoded :=
  let '(encoded, encoding_used, had_errors) := resolved_encode e text in
  if (had_errors : bool)
  then {| ne_bytes := substitute_unmappable text encoding_used; had_loss := true |}
  else {| ne_bytes := encoded; had_loss := false |}.

Definition encode_narrow (text : str) (c : SqlCollation) : NarrowEncoded :=
  encode_narrow_with text (resolve_collation c).

(** [encode_latin1_for_wire] of tds_value_serializer.rs. *)
Fixpoint encode_latin1_for_wire (text : str) : NarrowEncoded :=
  match text with
  | [] => {| ne_bytes := []; had_loss := false |}
  | c :: text =>
      let rest := encode_latin1_for_wire text in
      if c <? 256 then {| ne_bytes := byte_of c :: ne_bytes rest; had_loss := had_loss rest |}
      else {| ne_bytes := substitutes c ++ ne_bytes rest; had_loss := true |}
  end.

(** [encode_narrow_for_wire] of tds_value_serializer.rs. *)
Definition encode_narrow_for_wire (text : str) (collation : option SqlCollation) : NarrowEncoded :=
  match collation with
  | None => encode_latin1_for_wire text
  | Some c =>
      match try_resolve_collation c with
      | None => encode_latin1_for_wire text
      | Some e => encode_narrow_with text e
      end
  end.

(** [fit_narrow_byte_limit]: only trailing spaces may be cut off. *)
Definition fit_narrow_byte_limit (bs : bytes) (maximum : Z) : TdsResult bytes :=
  if Z.of_nat (length bs) <=? maximum then Ok bs
  else if forallb (fun b => byte_val b =? 32) (drop (Z.to_nat maximum) bs) then Ok (take (Z.to_nat maximum) bs)
  else Err (EncodedValueTooLong (length bs) maximum).

(** ** [SqlString] *)

(** [SqlString::decode]; [String::from_utf8] refuses ill-formed bytes, which the source unwraps. *)
Definition SqlString_decode (bs : bytes) (encoding : EncodingType) : TdsResult str :=
  match encoding with
  | Utf8 =>
      match from_utf8 bs with
      | Some s => Ok s
      | None => Panic "called `Result::unwrap()` on an `Err` value"
      end
  | Utf16 => Ok (fst (rs_decode UTF_16LE bs))
  | LcidBased collation => let? '(decoded, _) := resolved_decode (resolve_collation collation) bs in Ok decoded
  | DelayedSet => Panic "not implemented: DelayedSet encoding conversion to UTF8 not implemented"
  end.

Definition to_utf8_string (s : SqlString) : TdsResult str := SqlString_decode (sql_bytes s) (encoding_type s).
End codecs.

Definition from_utf8_string (s : str) : SqlString := SqlString_new (units_le (utf16 s)) Utf16.

Definition as_utf16_bytes (s : SqlString) : option bytes :=
  match encoding_type s with Utf16 => Some (sql_bytes s) | _ => None end.

Definition as_raw_wire_bytes (s : SqlString) : option bytes :=
  match encoding_type s with DelayedSet | LcidBased _ => Some (sql_bytes s) | _ => None end.

(** ** Narrow text: theorems

    The encoding a collation selects has the code page the collation names; the OEM code pages lose
    nothing; and encoding in two passes is encoding character by character. *)

(** ** Code pages *)

(** The Windows code page an encoding of the WHATWG standard is of. *)
Definition code_page_of (e : ResolvedEncoding) : option Z :=
  match e with
  | Oem437 => Some 437
  | Oem850 => Some 850
  | ByEncodingRs e =>
      match e with
      | UTF_8 => Some 65001 | UTF_16LE => None | SHIFT_JIS => Some 932 | GBK => Some 936 | BIG5 => Some 950
      | EUC_KR => Some 949 | WINDOWS_874 => Some 874 | WINDOWS_1250 => Some 1250 | WINDOWS_1251 => Some 1251
      | WINDOWS_1252 => Some 1252 | WINDOWS_1253 => Some 1253 | WINDOWS_1254 => Some 1254
      | WINDOWS_1255 => Some 1255 | WINDOWS_1256 => Some 1256 | WINDOWS_1257 => Some 1257
      | WINDOWS_1258 => Some 1258
      end
  end.

Definition known_pages : list Z := [437; 850; 874; 932; 936; 949; 950; 1250; 1251; 1252; 1253; 1254; 1255; 1256; 1257].

(** Every code page of the sort table has an encoding, so the fallback to the LCID is never taken there. *)
Lemma sort_id_page_known c p : sort_id_code_page c = Some p -> In p known_pages.
Proof.
  unfold sort_id_code_page. case_match eqn:E; [|done]. intros ->. apply list_elem_of_lookup_2 in E.
  assert (H : forallb (fun o => match o with Some p => existsb (Z.eqb p) known_pages | None => true end)
                CODE_PAGE_FROM_SORT_ID = true) by (vm_compute; done).
  rewrite forallb_forall in H. specialize (H (Some p)). rewrite <- list_elem_of_In in H. apply H in E.
  apply existsb_exists in E as (q & Hq & Hp). apply Z.eqb_eq in Hp. by subst.
Qed.

Lemma find_some_in {A} (f : A -> bool) l x : List.find f l = Some x -> In x l /\ f x = true.
Proof. apply find_some. Qed.

(** The two locale maps agree where both have an entry. *)
Lemma locale_maps_agree lcid e p :
  lcid_to_encoding lcid = Some e -> lcid_to_code_page lcid = Some p -> code_page_of (ByEncodingRs e) = Some p.
Proof.
  unfold lcid_to_encoding, lcid_to_code_page. intros (g & Hg & ->)%fmap_Some (q & Hq & ->)%fmap_Some.
  apply find_some_in in Hq as [Hq Hl]. apply Z.eqb_eq in Hl. subst lcid.
  assert (H : forallb (fun q => match List.find (fun g => existsb (Z.eqb (fst q)) (fst g)) lcid_encodings with
                                | Some g => bool_decide (code_page_of (ByEncodingRs (snd g)) = Some (snd q))
                                | None => true
                                end) lcid_code_pages = true) by (vm_compute; done).
  rewrite forallb_forall in H. apply H in Hq. rewrite Hg in Hq. by apply bool_decide_eq_true in Hq.
Qed.

(** A collation's narrow text is decoded in the code page the collation is reported to have,
    wherever both are known. *)
Theorem code_pages_agree c e p :
  try_resolve_collation c = Some e -> collation_code_page c = Some p -> code_page_of e = Some p.
Proof.
  unfold try_resolve_collation, collation_code_page. destruct (utf8 c); [by intros [= <-] [= <-]|].
  destruct (sort_id_code_page c) as [page|] eqn:Es.
  - intros He [= <-]. apply sort_id_page_known in Es.
    repeat (destruct Es as [<-|Es]; [by simplify_eq/=|]). done.
  - intros (e' & He & ->)%fmap_Some Hp. by eapply locale_maps_agree.
Qed.

Definition latin1_collation : SqlCollation :=
  {| info := 0x0409; lcid_language_id := 0x0409; col_flags := 0; sort_id := 52 |}.

Lemma code_pages_agree_witness : code_page_of (ByEncodingRs WINDOWS_1252) = Some 1252.
Proof. apply (code_pages_agree latin1_collation); vm_compute; reflexivity. Defined.

(** Collations of a code page the crate can decode whose LCID it does not know: their text is decoded
    as Windows-1252. *)
Definition japanese_unicode : SqlCollation :=
  {| info := 0x10411; lcid_language_id := 0x0411; col_flags := 0; sort_id := 0 |}.

Lemma unknown_locale_falls_back :
  collation_code_page japanese_unicode = Some 932 /\ resolve_collation japanese_unicode = ByEncodingRs WINDOWS_1252 /\
  code_page_of (ByEncodingRs SHIFT_JIS) = Some 932.
Proof. by vm_compute. Qed.

(** ** OEM code pages *)

Definition is_oem (e : ResolvedEncoding) : Prop := oem_table e <> None.

Definition table_of (e : ResolvedEncoding) : list char := default [] (oem_table e).

(** A byte as an OEM code page reads it. *)
Definition oem_char (e : ResolvedEncoding) (b : byte) : char :=
  if byte_val b <? 128 then byte_val b else default 0 (table_of e !! Z.to_nat (byte_val b - 128)).

(** The byte an OEM code page has for a character. *)
Definition oem_byte (e : ResolvedEncoding) (c : char) : option byte :=
  if is_ascii_char c then Some (byte_of c)
  else (fun i => byte_of (as_u8 (Z.of_nat i) + 128)) <$> index_of c (table_of e).

Definition all_bytes : bytes := byte_of <$> (Z.of_nat <$> seq 0 256).

Lemma in_all_bytes b : In b all_bytes.
Proof.
  apply list_elem_of_In, list_elem_of_fmap. exists (byte_val b). split; [by rewrite byte_of_val|].
  apply list_elem_of_fmap. exists (Z.to_nat (byte_val b)). pose proof (byte.unsigned_range b). unfold byte_val. split; [lia|].
  apply elem_of_seq. lia.
Qed.

(** The tables are one to one and have no ASCII characters. *)
Lemma oem_byte_char e b : is_oem e -> oem_byte e (oem_char e b) = Some b.
Proof.
  intros He. pose proof (in_all_bytes b) as Hb.
  assert (H : forallb (fun b => bool_decide (byte_val <$> oem_byte e (oem_char e b) = Some (byte_val b))) all_bytes = true).
  { destruct e; [done|vm_compute; done..]. }
  rewrite forallb_forall in H. apply H, bool_decide_eq_true, fmap_Some in Hb as (b' & -> & E).
  by rewrite <- (byte_of_val b), E, byte_of_val.
Qed.

Lemma index_of_lookup c l i : index_of c l = Some i -> l !! i = Some c.
Proof.
  revert i. induction l as [|x l IH]; intros i; cbn; [done|]. destruct (Z.eqb_spec x c) as [->|].
  - by intros [= <-].
  - intros (j & Hj & ->)%fmap_Some. cbn. auto.
Qed.

Lemma table_length e : (length (table_of e) <= 128)%nat.
Proof. destruct e; vm_compute; lia. Qed.

Lemma oem_char_byte e c b : 0 <= c -> oem_byte e c = Some b -> oem_char e b = c.
Proof.
  unfold oem_byte, oem_char, is_ascii_char. intros Hc. destruct (Z.ltb_spec c 128).
  - intros [= <-]. rewrite byte_val_of by lia. by destruct (Z.ltb_spec c 128); [|lia].
  - intros (i & Hi & ->)%fmap_Some. apply index_of_lookup in Hi. pose proof (lookup_lt_Some _ _ _ Hi) as Hl.
    pose proof (table_length e). unfold as_u8. rewrite (Z.mod_small (Z.of_nat i)) by lia.
    rewrite byte_val_of by lia. destruct (Z.ltb_spec (Z.of_nat i + 128) 128); [lia|].
    replace (Z.to_nat (Z.of_nat i + 128 - 128)) with i by lia. by rewrite Hi.
Qed.

(** ** Coding whole texts *)

Section codecs.
Context `{rs : EncodingRs}.

(** [e] codes each character on its own: [f] has its bytes, if it has any. *)
Definition characterwise (e : ResolvedEncoding) (f : char -> option bytes) : Prop :=
  forall text, str_wf text ->
    exists bs, resolved_encode e text = (bs, e, existsb (fun c => bool_decide (f c = None)) text) /\
      (Forall (fun c => f c <> None) text -> bs = concat (default [] ∘ f <$> text)).

(** The reference: each character's bytes, or the substitutes for it. *)
Definition narrow_reference (f : char -> option bytes) (text : str) : NarrowEncoded :=
  {| ne_bytes := concat ((fun c => default (substitutes c) (f c)) <$> text);
     had_loss := existsb (fun c => bool_decide (f c = None)) text |}.

Lemma none_unmapped (f : char -> option bytes) text :
  existsb (fun c => bool_decide (f c = None)) text = false <-> Forall (fun c => f c <> None) text.
Proof.
  induction text as [|c text IH]; cbn; [by split|]. rewrite orb_false_iff, IH, bool_decide_eq_false.
  split; [intros []; by constructor|by inversion 1].
Qed.

Lemma substitute_reference e f text :
  characterwise e f -> str_wf text -> substitute_unmappable text e = ne_bytes (narrow_reference f text).
Proof.
  intros He. unfold substitute_unmappable, narrow_reference. cbn [ne_bytes].
  induction 1 as [|c text Hc _ IH]; [done|]. cbn [fmap list_fmap concat]. f_equal; [|done].
  destruct (He [c] ltac:(by constructor)) as (bs & -> & Hbs). cbn [existsb]. rewrite orb_false_r.
  case_bool_decide as Hf; [by rewrite Hf|]. rewrite Hbs by (by constructor). cbn. rewrite app_nil_r.
  by destruct (f c).
Qed.

Lemma mapped_bytes (f : char -> option bytes) text :
  Forall (fun c => f c <> None) text ->
  concat (default [] ∘ f <$> text) = concat ((fun c => default (substitutes c) (f c)) <$> text).
Proof.
  induction 1 as [|c text Hc _ IH]; [done|]. cbn [fmap list_fmap concat]. rewrite IH. cbn.
  by destruct (f c).
Qed.

(** Encoding the text as a whole, and again character by character when something had no
    representation, gives the reference. *)
Theorem narrow_encoding_is_characterwise e f text :
  characterwise e f -> str_wf text -> encode_narrow_with text e = narrow_reference f text.
Proof.
  intros He Ht. unfold encode_narrow_with. destruct (He text Ht) as (bs & -> & Hbs).
  destruct (existsb _ text) eqn:E.
  - rewrite (substitute_reference e f) by done. unfold narrow_reference. cbn. by rewrite E.
  - apply none_unmapped in E as E'. rewrite Hbs by done. unfold narrow_reference. by rewrite E, mapped_bytes.
Qed.
End codecs.

(** ** The OEM code pages lose nothing *)

Section oem.
Context `{rs : EncodingRs} (e : ResolvedEncoding) (Hoem : is_oem e).

Definition oem_bytes (c : char) : option bytes := (fun b => [b]) <$> oem_byte e c.

Lemma oem_bytes_eq c :
  oem_bytes c = if is_ascii_char c then Some [byte_of c]
                else (fun i => [byte_of (as_u8 (Z.of_nat i) + 128)]) <$> index_of c (table_of e).
Proof. unfold oem_bytes, oem_byte. destruct (is_ascii_char c); [done|]. by destruct (index_of _ _). Qed.

Lemma encode_oem_spec text :
  encode_oem (table_of e) text =
    (fst (encode_oem (table_of e) text), existsb (fun c => bool_decide (oem_bytes c = None)) text) /\
  (Forall (fun c => oem_bytes c <> None) text ->
   fst (encode_oem (table_of e) text) = concat (default [] ∘ oem_bytes <$> text)).
Proof.
  induction text as [|c text [IH1 IH2]]; [done|]. cbn [encode_oem existsb fmap list_fmap concat].
  destruct (encode_oem (table_of e) text) as [rest errors]. cbn in IH1, IH2. injection IH1 as ->.
  rewrite list.Forall_cons. unfold compose at 1. rewrite !oem_bytes_eq. destruct (is_ascii_char c).
  - split; [done|]. intros [_ Ht]. cbn. by rewrite IH2.
  - destruct (index_of c (table_of e)); cbn; (split; [done|]); intros [? Ht]; [by rewrite IH2|done].
Qed.

Lemma ascii_oem text :
  str_wf text -> forallb is_ascii_char text = true ->
  existsb (fun c => bool_decide (oem_bytes c = None)) text = false /\
  as_bytes text = concat (default [] ∘ oem_bytes <$> text).
Proof.
  unfold as_bytes. induction 1 as [|c text Hc _ IH]; [done|]. cbn. intros [Ha Ht]%andb_true_iff.
  destruct (IH Ht) as [-> ->]. rewrite oem_bytes_eq, Ha. cbn. split; [done|].
  unfold encode_utf8. unfold is_ascii_char in Ha. by replace (c <? 0x80) with true.
Qed.

Lemma oem_characterwise : characterwise e oem_bytes.
Proof.
  intros text Ht. assert (E : resolved_encode e text =
    (if forallb is_ascii_char text then (as_bytes text, e, false)
     else let '(bs, errors) := encode_oem (table_of e) text in (bs, e, errors))) by (by destruct e).
  rewrite E. destruct (forallb is_ascii_char text) eqn:Ea.
  - destruct (ascii_oem text Ht Ea) as [-> Hb]. eauto.
  - destruct (encode_oem_spec text) as [Hs Hb]. rewrite Hs. eauto.
Qed.

Lemma decode_oem_char b : decode_oem (table_of e) b = Ok (oem_char e b).
Proof.
  unfold decode_oem, oem_char. case_match; [done|]. destruct (table_of e !! _) eqn:El; [done|].
  apply lookup_ge_None in El. pose proof (byte.unsigned_range b). unfold byte_val in *.
  destruct e; [done|..]; cbn in El; lia.
Qed.

Lemma oem_decode bs : resolved_decode e bs = Ok (oem_char e <$> bs, false).
Proof.
  assert (E : resolved_decode e bs =
    (if forallb (fun b => byte_val b <? 128) bs then Ok (byte_val <$> bs, false)
     else let? s := traverse_bytes (decode_oem (table_of e)) bs in Ok (s, false))) by (by destruct e).
  rewrite E. clear E. destruct (forallb _ bs) eqn:Ea.
  - do 2 f_equal. apply list_fmap_ext. intros i b Hb%list_elem_of_lookup_2%list_elem_of_In.
    rewrite forallb_forall in Ea. unfold oem_char. by rewrite (Ea b).
  - assert (Ht : traverse_bytes (decode_oem (table_of e)) bs = Ok (oem_char e <$> bs)); [|by rewrite Ht].
    clear Ea. induction bs as [|b bs IH]; [done|]. cbn [traverse_bytes fmap list_fmap].
    rewrite decode_oem_char, IH. done.
Qed.
End oem.

Lemma oem_char_scalar e b : is_oem e -> is_scalar (oem_char e b) = true.
Proof.
  intros He. pose proof (in_all_bytes b) as Hb.
  assert (H : forallb (fun b => is_scalar (oem_char e b)) all_bytes = true).
  { destruct e; [done|vm_compute; done..]. }
  rewrite forallb_forall in H. by apply H.
Qed.

(** With an OEM code page, every byte string is a text that encodes back to it, and a text it has all the
    characters of is decoded back. *)
Theorem oem_round_trip `{rs : EncodingRs} e bs text :
  is_oem e -> str_wf text ->
  (exists s, resolved_decode e bs = Ok (s, false) /\ encode_narrow_with s e = {| ne_bytes := bs; had_loss := false |}) /\
  (had_loss (encode_narrow_with text e) = false ->
   resolved_decode e (ne_bytes (encode_narrow_with text e)) = Ok (text, false)).
Proof.
  intros He Ht. split.
  - eexists. split; [by apply oem_decode|].
    assert (Hs : str_wf (oem_char e <$> bs)).
    { apply list.Forall_fmap, list.Forall_true. intros b. by apply oem_char_scalar. }
    rewrite (narrow_encoding_is_characterwise e (oem_bytes e)); [|by apply oem_characterwise|done].
    unfold narrow_reference. clear Hs. induction bs as [|b bs IH]; [done|]. injection IH as IH1 IH2.
    cbn [fmap list_fmap concat existsb]. rewrite IH1, IH2. unfold oem_bytes. by rewrite oem_byte_char.
  - rewrite (narrow_encoding_is_characterwise e (oem_bytes e)) by (try done; by apply oem_characterwise).
    cbn. rewrite oem_decode, none_unmapped by done. intros Hall. do 2 f_equal.
    induction Ht as [|c text Hc Ht IH]; [done|]. inversion Hall as [|? ? Hm Hall']; subst.
    cbn [fmap list_fmap concat]. rewrite fmap_app, IH by done.
    unfold oem_bytes in *. destruct (oem_byte e c) as [b|] eqn:Eb; [|done]. cbn. f_equal.
    apply oem_char_byte; [|done]. unfold is_scalar in Hc. lia.
Qed.

(** An instance for the samples: every encoding is taken to be UTF-8. *)
Definition sample_rs : EncodingRs :=
  {| rs_decode _ bs := (byte_val <$> bs, false); rs_encode e text := (as_bytes text, e, false) |}.

(** Czech text under CP850: the letter r with caron is substituted. *)
Lemma narrow_encoding_is_characterwise_witness :
  encode_narrow_with (rs := sample_rs) [0x159; 0xE1; 0x64] Oem850 =
  {| ne_bytes := [byte_of 63; byte_of 160; byte_of 100]; had_loss := true |}.
Proof.
  rewrite (narrow_encoding_is_characterwise (rs := sample_rs) Oem850 (oem_bytes Oem850)); [reflexivity| |].
  - by apply oem_characterwise.
  - by repeat constructor.
Defined.

Lemma oem_round_trip_witness :
  resolved_decode (rs := sample_rs) Oem437 (ne_bytes (encode_narrow_with (rs := sample_rs) [0xC7; 0x2592] Oem437)) =
  Ok ([0xC7; 0x2592], false).
Proof.
  apply (oem_round_trip (rs := sample_rs) Oem437 [] [0xC7; 0x2592]); [done|by repeat constructor|reflexivity].
Defined.
