(* ===== verification/ValueSerializer.v ===== *)
(** * Writing values (src/mssql-tds/src/datatypes/tds_value_serializer.rs)

    [TdsValueSerializer]: a value as RPC parameters and bulk rows carry it, behind the length or the
    null marker its type asks for, or wrapped as a sql_variant.  Where the packet has room the value is
    written without checks, otherwise piecewise. *)

From stdpp Require Import strings.
From S2P Require Import Prelude Core Unicode PacketReader Tokens DataTypes ColMetadata Values Decoder Decimal NarrowText.
From S2P Require Import ReadBuffer Transport PacketWriter.

(** The narrowing of the half crate, [half::f16::from_f32]. *)
Class HalfCrateNarrow := { f32_to_f16 : Z -> Z }.

Definition NULL_LENGTH : Z := 0x00.
Definition VARNULL : Z := 0xFFFF.
Definition PLP_NULL : Z := 0xFFFFFFFFFFFFFFFF.
Definition PLP_UNKNOWN_LEN : Z := 0xFFFFFFFFFFFFFFFE.
Definition PLP_TERMINATOR : Z := 0.

Definition NVARCHAR : Z := TdsDataType_u8 DT_NVarChar.
Definition NCHAR : Z := TdsDataType_u8 DT_NChar.
Definition NTEXT : Z := TdsDataType_u8 DT_NText.
Definition VARCHAR : Z := TdsDataType_u8 DT_BigVarChar.
Definition CHAR : Z := TdsDataType_u8 DT_BigChar.
Definition TEXT : Z := TdsDataType_u8 DT_Text.
Definition SQL_VARIANT : Z := TdsDataType_u8 DT_SsVariant.
Definition IMAGE : Z := TdsDataType_u8 DT_Image.

Definition DEFAULT_VARIANT_COLLATION : SqlCollation :=
  {| info := 0x0409; lcid_language_id := 0x0409; col_flags := 0; sort_id := 52 |}.

Record TdsTypeContext := {
  ctx_tds_type : Z;
  ctx_max_size : Z;
  ctx_is_plp : bool;
  ctx_is_fixed_length : bool;
  ctx_precision : option Z;
  ctx_scale : option Z;
  ctx_collation : option SqlCollation;
  ctx_is_nullable : bool;
}.

Definition is_fixed_type (ctx : TdsTypeContext) : bool :=
  let t := ctx_tds_type ctx in ((0x30 <=? t) && (t <=? 0x3F)) || (t =? 0x7A) || (t =? 0x7F).

(** [tds_type] is one of [types]. *)
Definition one_of (tds_type : Z) (types : list TdsDataType) : bool :=
  existsb (fun t => TdsDataType_u8 t =? tds_type) types.

(** ** Writing *)

(** [match writer.has_space(n) { true => fast, false => slow }] *)
Definition if_space (n : nat) (fast slow : M PacketWriter unit) : M PacketWriter unit :=
  w <- gets id ;; if has_space n w then fast else slow.

(** A [for] loop that writes. *)
Fixpoint write_all_of {A} (write : A -> M PacketWriter unit) (l : list A) : M PacketWriter unit :=
  match l with
  | [] => ret tt
  | x :: l => write x ;; write_all_of write l
  end.

(** [((v >> (i * 8)) & 0xFF) as u8] for [i] in [0..n]. *)
Definition low_bytes (n : Z) (v : Z) : list Z :=
  (fun i => Z.land (Z.shiftr v (Z.of_nat i * 8)) 0xFF) <$> seq 0 (Z.to_nat n).

(** [to_le_bytes] of a 32-bit number, the first [n] of them. *)
Definition first_le_bytes (n : nat) (v : Z) : list Z := byte_val <$> take n (le_bytes 4 v).

(** ** Nulls *)

Definition serialize_null (ctx : TdsTypeContext) : M PacketWriter unit :=
  let t := ctx_tds_type ctx in
  if existsb (Z.eqb t) [0x23; 0x63; 0x22] then write_byte_async 0x00
  else if existsb (Z.eqb t) [0x26; 0x6D; 0x68; 0x6E; 0x6F; 0x6A; 0x6C; 0x24; 0x28; 0x29; 0x2A; 0x2B]
  then write_byte_async NULL_LENGTH
  else if t =? 0x32 then throw (UsageError "Cannot serialize NULL for fixed BIT type 0x32.")
  else if ctx_is_plp ctx then write_u64_async PLP_NULL
  else if is_fixed_type ctx then throw (UsageError "Cannot serialize NULL for fixed-length type")
  else write_u16_async VARNULL.

(** ** Integers, floats and money *)

Definition serialize_bit (value : bool) (ctx : TdsTypeContext) : M PacketWriter unit :=
  let byte_value := if value then 1 else 0 in
  if negb (is_fixed_type ctx)
  then if_space 2 (write_byte_unchecked 1 ;; write_byte_unchecked byte_value)
         (write_byte_async 1 ;; write_byte_async byte_value)
  else if_space 1 (write_byte_unchecked byte_value) (write_byte_async byte_value).

Definition serialize_tinyint (value : Z) (ctx : TdsTypeContext) : M PacketWriter unit :=
  if negb (is_fixed_type ctx)
  then if_space 2 (write_byte_unchecked 1 ;; write_byte_unchecked value) (write_byte_async 1 ;; write_byte_async value)
  else if_space 1 (write_byte_unchecked value) (write_byte_async value).

Definition serialize_smallint (value : Z) (ctx : TdsTypeContext) : M PacketWriter unit :=
  if negb (is_fixed_type ctx)
  then if_space 3 (write_byte_unchecked 2 ;; write_i16_unchecked value) (write_byte_async 2 ;; write_i16_async value)
  else if_space 2 (write_i16_unchecked value) (write_i16_async value).

Definition serialize_int (value : Z) (ctx : TdsTypeContext) : M PacketWriter unit :=
  if negb (is_fixed_type ctx)
  then if_space 5 (write_byte_unchecked 4 ;; write_i32_unchecked value) (write_byte_async 4 ;; write_i32_async value)
  else if_space 4 (write_i32_unchecked value) (write_i32_async value).

Definition serialize_bigint (value : Z) (ctx : TdsTypeContext) : M PacketWriter unit :=
  if negb (is_fixed_type ctx)
  then if_space 9 (write_byte_unchecked 8 ;; write_i64_unchecked value) (write_byte_async 8 ;; write_i64_async value)
  else if_space 8 (write_i64_unchecked value) (write_i64_async value).

(** A float is its bits. *)
Definition serialize_real (bits : Z) (ctx : TdsTypeContext) : M PacketWriter unit :=
  let value := as_i32 bits in
  if negb (is_fixed_type ctx)
  then if_space 5 (write_byte_unchecked 4 ;; write_i32_unchecked value) (write_byte_async 4 ;; write_i32_async value)
  else if_space 4 (write_i32_unchecked value) (write_i32_async value).

(** Without room for nine bytes the length is written with a check and the value without. *)
Definition serialize_float (bits : Z) (ctx : TdsTypeContext) : M PacketWriter unit :=
  if negb (is_fixed_type ctx)
  then if_space 9 (write_byte_unchecked 8 ;; write_f64_unchecked bits) (write_byte_async 8 ;; write_f64_unchecked bits)
  else if_space 8 (write_f64_unchecked bits) (write_i64_async (to_signed 64 bits)).

(** The bytes of a magnitude of a precision. *)
Definition decimal_value_bytes (precision : Z) : option nat :=
  if (1 <=? precision) && (precision <=? 9) then Some 4%nat
  else if (10 <=? precision) && (precision <=? 19) then Some 8%nat
  else if (20 <=? precision) && (precision <=? 28) then Some 12%nat
  else if (29 <=? precision) && (precision <=? 38) then Some 16%nat
  else None.

Definition serialize_decimal (value : DecimalParts) (ctx : TdsTypeContext) : M PacketWriter unit :=
  let precision := default 38 (ctx_precision ctx) in
  match decimal_value_bytes precision with
  | None => throw (ProtocolError "Invalid precision for DECIMAL/NUMERIC type")
  | Some value_bytes =>
      let total_length := (1 + value_bytes)%nat in
      (if negb (ctx_is_fixed_length ctx) then write_byte_async (as_u8 (Z.of_nat total_length)) else ret tt) ;;
      write_byte_async (if is_positive value then 1 else 0) ;;
      write_all_of (fun i => write_i32_async (word value i)) (seq 0 (value_bytes / 4))
  end.

Definition serialize_smallmoney (value : SqlSmallMoney) (ctx : TdsTypeContext) : M PacketWriter unit :=
  let v := int_val value in
  if negb (is_fixed_type ctx) && negb (ctx_is_fixed_length ctx)
  then if_space 5 (write_byte_unchecked 4 ;; write_i32_unchecked v) (write_byte_async 4 ;; write_i32_async v)
  else if_space 4 (write_i32_unchecked v) (write_i32_async v).

Definition serialize_money (value : SqlMoney) (ctx : TdsTypeContext) : M PacketWriter unit :=
  if negb (is_fixed_type ctx)
  then if_space 9
         (write_byte_unchecked 8 ;; write_i32_unchecked (msb_part value) ;; write_i32_unchecked (lsb_part value))
         (write_byte_async 8 ;; write_i32_async (msb_part value) ;; write_i32_async (lsb_part value))
  else if_space 8
         (write_i32_unchecked (msb_part value) ;; write_i32_unchecked (lsb_part value))
         (write_i32_async (msb_part value) ;; write_i32_async (lsb_part value)).

(** ** Dates and times *)

Definition serialize_date (value : SqlDate) (ctx : TdsTypeContext) : M PacketWriter unit :=
  let days := low_bytes 3 (days_since_01_01_0001 value) in
  if negb (is_fixed_type ctx) && negb (ctx_is_fixed_length ctx)
  then if_space 4 (write_byte_unchecked 3 ;; write_all_of write_byte_unchecked days)
         (write_byte_async 3 ;; write_all_of write_byte_async days)
  else if_space 3 (write_all_of write_byte_unchecked days) (write_all_of write_byte_async days).

(** The hundred-nanosecond count in the units of the scale. *)
Definition scaled_time (value : SqlTime) : Z :=
  let t := time_nanoseconds value in
  match time_scale value with
  | 0 => t / 10000000
  | 1 => t / 1000000
  | 2 => t / 100000
  | 3 => t / 10000
  | 4 => t / 1000
  | 5 => t / 100
  | 6 => t / 10
  | 7 => t
  | _ => t
  end.

Definition serialize_time (value : SqlTime) (ctx : TdsTypeContext) : M PacketWriter unit :=
  time_length <- lift (get_time_length_from_scale (time_scale value)) ;;
  let time := low_bytes time_length (scaled_time value) in
  if negb (is_fixed_type ctx) && negb (ctx_is_fixed_length ctx)
  then if_space (Z.to_nat (1 + time_length))
         (write_byte_unchecked time_length ;; write_all_of write_byte_unchecked time)
         (write_byte_async time_length ;; write_all_of write_byte_async time)
  else if_space (Z.to_nat time_length) (write_all_of write_byte_unchecked time) (write_all_of write_byte_async time).

Definition serialize_datetime (value : SqlDateTime) (ctx : TdsTypeContext) : M PacketWriter unit :=
  let time_bytes := first_le_bytes 4 (dt_time value) in
  if negb (is_fixed_type ctx)
  then if_space 9
         (write_byte_unchecked 8 ;; write_i32_unchecked (dt_days value) ;; write_all_of write_byte_unchecked time_bytes)
         (write_byte_async 8 ;; write_i32_async (dt_days value) ;; write_u32_async (dt_time value))
  else if_space 8
         (write_i32_unchecked (dt_days value) ;; write_all_of write_byte_unchecked time_bytes)
         (write_i32_async (dt_days value) ;; write_u32_async (dt_time value)).

Definition serialize_smalldatetime (value : SqlSmallDateTime) (ctx : TdsTypeContext) : M PacketWriter unit :=
  if negb (is_fixed_type ctx)
  then if_space 5
         (write_byte_unchecked 4 ;; write_u16_unchecked (sdt_days value) ;; write_u16_unchecked (sdt_time value))
         (write_byte_async 4 ;; write_u16_async (sdt_days value) ;; write_u16_async (sdt_time value))
  else if_space 4
         (write_u16_unchecked (sdt_days value) ;; write_u16_unchecked (sdt_time value))
         (write_u16_async (sdt_days value) ;; write_u16_async (sdt_time value)).

(** A [Uuid] is the bytes of [to_bytes_le]. *)
Definition serialize_uuid (guid_bytes : bytes) (ctx : TdsTypeContext) : M PacketWriter unit :=
  if ctx_is_fixed_length ctx
  then if_space 16 (write_all_of write_byte_unchecked (byte_val <$> guid_bytes)) (write_async guid_bytes)
  else if_space 17
         (write_byte_unchecked 16 ;; write_all_of write_byte_unchecked (byte_val <$> guid_bytes))
         (write_byte_async 16 ;; write_async guid_bytes).

Definition serialize_datetime2 (value : SqlDateTime2) (ctx : TdsTypeContext) : M PacketWriter unit :=
  time_length <- lift (get_time_length_from_scale (time_scale (dt2_time value))) ;;
  let total_value_length := time_length + 3 in
  let time := low_bytes time_length (scaled_time (dt2_time value)) in
  let date := first_le_bytes 3 (dt2_days value) in
  if negb (is_fixed_type ctx) && negb (ctx_is_fixed_length ctx)
  then if_space (Z.to_nat (1 + total_value_length))
         (write_byte_unchecked total_value_length ;; write_all_of write_byte_unchecked time ;;
          write_all_of write_byte_unchecked date)
         (write_byte_async total_value_length ;; write_all_of write_byte_async time ;; write_all_of write_byte_async date)
  else if_space (Z.to_nat total_value_length)
         (write_all_of write_byte_unchecked time ;; write_all_of write_byte_unchecked date)
         (write_all_of write_byte_async time ;; write_all_of write_byte_async date).

Definition serialize_datetimeoffset (value : SqlDateTimeOffset) (ctx : TdsTypeContext) : M PacketWriter unit :=
  let dt2 := dto_datetime2 value in
  time_length <- lift (get_time_length_from_scale (time_scale (dt2_time dt2))) ;;
  let total_value_length := time_length + 3 + 2 in
  let time := low_bytes time_length (scaled_time (dt2_time dt2)) in
  let date := first_le_bytes 3 (dt2_days dt2) in
  let offset := byte_val <$> le_bytes 2 (dto_offset value) in
  if negb (is_fixed_type ctx) && negb (ctx_is_fixed_length ctx)
  then if_space (Z.to_nat (1 + total_value_length))
         (write_byte_unchecked total_value_length ;; write_all_of write_byte_unchecked time ;;
          write_all_of write_byte_unchecked date ;; write_all_of write_byte_unchecked offset)
         (write_byte_async total_value_length ;; write_all_of write_byte_async time ;;
          write_all_of write_byte_async date ;; write_all_of write_byte_async offset)
  else if_space (Z.to_nat total_value_length)
         (write_all_of write_byte_unchecked time ;; write_all_of write_byte_unchecked date ;;
          write_all_of write_byte_unchecked offset)
         (write_all_of write_byte_async time ;; write_all_of write_byte_async date ;; write_all_of write_byte_async offset).

(** ** Bytes, JSON and XML *)

(** The text pointer and time stamp before a legacy large object. *)
Definition write_long_data_header : M PacketWriter unit :=
  write_byte_async 0x10 ;; write_all_of (fun _ => write_byte_async 0xFF) (seq 0 16) ;;
  write_all_of (fun _ => write_byte_async 0xFF) (seq 0 8).

(** One chunk of a value of unknown length; an empty chunk would be the terminator. *)
Definition write_plp (data_len : nat) (write_data : M PacketWriter unit) : M PacketWriter unit :=
  write_u64_async PLP_UNKNOWN_LEN ;;
  (if decide (0 < data_len)%nat then write_u32_async (as_u32 (Z.of_nat data_len)) ;; write_data else ret tt) ;;
  write_u32_async PLP_TERMINATOR.

Definition serialize_bytes (value : bytes) (ctx : TdsTypeContext) : M PacketWriter unit :=
  let data_len := length value in
  let schema_size := ctx_max_size ctx in
  let is_image := ctx_tds_type ctx =? IMAGE in
  if negb (ctx_is_plp ctx) && negb is_image && (schema_size <? Z.of_nat data_len)
  then throw (UsageError "Binary data length exceeds schema size")
  else if is_image
  then write_long_data_header ;; write_u32_async (as_u32 (Z.of_nat data_len)) ;; write_async value
  else if ctx_is_plp ctx then write_plp data_len (write_async value)
  else if ctx_is_fixed_length ctx
  then write_all_of (fun b => write_byte_async (byte_val b)) value ;;
       write_all_of (fun _ => write_byte_async 0) (seq 0 (Z.to_nat schema_size - data_len))
  else write_u16_async (as_u16 (Z.of_nat data_len)) ;; write_all_of (fun b => write_byte_async (byte_val b)) value.

Definition serialize_json (value : SqlJson) : M PacketWriter unit :=
  match from_utf8 (json_bytes value) with
  | None => throw (TypeConversionError "Invalid UTF-8 in JSON data")
  | Some json_str =>
      let utf16_data := utf16 json_str in
      write_plp (length utf16_data * 2) (write_all_of write_u16_async utf16_data)
  end.

Definition serialize_xml (value : SqlXml) : M PacketWriter unit :=
  let data := xml_bytes value in
  let data_len := if has_bom value then length data else (length data + 2)%nat in
  write_plp data_len
    ((if negb (has_bom value) then write_byte_async 0xFF ;; write_byte_async 0xFE else ret tt) ;; write_async data).

(** ** Text *)

Definition effective_narrow_string_byte_limit (value : SqlString) (column_limit : option Z) : option Z :=
  match narrow_string_byte_limit value, column_limit with
  | Some value_limit, Some column_limit => Some (Z.min value_limit column_limit)
  | Some value_limit, None => Some value_limit
  | None, column_limit => column_limit
  end.

Definition narrow_string_maximum (ctx : TdsTypeContext) (limit : option Z) : option Z :=
  match limit, ctx_is_plp ctx with
  | Some maximum, false => Some (Z.min maximum (ctx_max_size ctx))
  | Some maximum, true => Some maximum
  | None, false => Some (ctx_max_size ctx)
  | None, true => None
  end.

Definition string_too_long : Error := UsageError "String length exceeds schema size".

(** [serialize_string_utf16]; the length before a short value counts characters. *)
Definition serialize_string_utf16 (utf8_str : str) (ctx : TdsTypeContext) : M PacketWriter unit :=
  let utf16_data := utf16 utf8_str in
  let char_count := length utf16_data in
  let byte_len := (char_count * 2)%nat in
  let schema_char_count := ctx_max_size ctx in
  if negb (ctx_is_plp ctx) && (schema_char_count <? Z.of_nat char_count) then throw string_too_long
  else if ctx_is_plp ctx then write_plp byte_len (write_all_of write_u16_async utf16_data)
  else if ctx_is_fixed_length ctx
  then write_all_of write_u16_async utf16_data ;;
       write_all_of (fun _ => write_u16_async 0x0020) (seq 0 (Z.to_nat schema_char_count - char_count))
  else write_u16_async (as_u16 (Z.of_nat char_count)) ;; write_all_of write_u16_async utf16_data.

Definition serialize_char_varchar_direct (single_byte_data : bytes) (ctx : TdsTypeContext)
    (limit : option Z) (fit_narrow_overflow : bool) : M PacketWriter unit :=
  data <- lift (match narrow_string_maximum ctx limit with
                | Some maximum =>
                    if fit_narrow_overflow then fit_narrow_byte_limit single_byte_data maximum
                    else if maximum <? Z.of_nat (length single_byte_data)
                    then Err (EncodedValueTooLong (length single_byte_data) maximum)
                    else Ok single_byte_data
                | None => Ok single_byte_data
                end) ;;
  let char_count := length data in
  if ctx_tds_type ctx =? TEXT
  then write_long_data_header ;; write_u32_async (as_u32 (Z.of_nat char_count)) ;; write_async data
  else if ctx_is_plp ctx then write_plp char_count (write_async data)
  else if ctx_is_fixed_length ctx
  then write_async data ;; write_all_of (fun _ => write_byte_async 0x20) (seq 0 (Z.to_nat (ctx_max_size ctx) - char_count))
  else write_u16_async (as_u16 (Z.of_nat char_count)) ;; write_async data.

(** The wide arms of [serialize_string], once the bytes are at hand; NTEXT text that is not UTF-16 is
    converted. *)
Definition serialize_wide_string (text : TdsResult str) (utf16_bytes : bytes) (is_unicode : bool) (ctx : TdsTypeContext)
    : M PacketWriter unit :=
  let data_len := length utf16_bytes in
  if is_unicode && negb (Z.of_nat data_len mod 2 =? 0) then throw (UsageError "Invalid UTF-16 data: byte length is odd")
  else
    let char_count := if is_unicode then (data_len / 2)%nat else data_len in
    let schema_char_count := ctx_max_size ctx in
    if negb (ctx_is_plp ctx) && (schema_char_count <? Z.of_nat char_count) then throw string_too_long
    else if ctx_tds_type ctx =? NTEXT
    then
      write_long_data_header ;;
      if is_unicode then write_u32_async (as_u32 (Z.of_nat data_len)) ;; write_async utf16_bytes
      else
        utf8_str <- lift text ;;
        let utf16_vec := utf16 utf8_str in
        write_u32_async (as_u32 (Z.of_nat (length utf16_vec * 2))) ;; write_all_of write_u16_async utf16_vec
    else if ctx_is_plp ctx then write_plp data_len (write_async utf16_bytes)
    else if ctx_is_fixed_length ctx
    then
      write_async utf16_bytes ;;
      (if is_unicode then write_all_of (fun _ => write_u16_async 0x0020) (seq 0 (Z.to_nat schema_char_count - char_count))
       else write_all_of (fun _ => write_byte_async 0x20) (seq 0 (Z.to_nat schema_char_count - char_count)))
    else write_u16_async (as_u16 (Z.of_nat data_len)) ;; write_async utf16_bytes.

Section text.
Context `{rs : EncodingRs}.

Definition narrow_string_wire_bytes (value : SqlString) (collation : option SqlCollation) : TdsResult (bytes * bool) :=
  match as_raw_wire_bytes value with
  | Some raw_bytes => Ok (raw_bytes, false)
  | None =>
      let borrowed := match encoding_type value with Utf8 => from_utf8 (sql_bytes value) | _ => None end in
      match borrowed with
      | Some text =>
          if match collation with Some c => utf8 c | None => false end then Ok (sql_bytes value, false)
          else let encoded := encode_narrow_for_wire text collation in Ok (ne_bytes encoded, had_loss encoded)
      | None =>
          let? text := to_utf8_string value in
          let encoded := encode_narrow_for_wire text collation in Ok (ne_bytes encoded, had_loss encoded)
      end
  end.

Definition serialize_string (value : SqlString) (ctx : TdsTypeContext) (limit : option Z) (fit_narrow_overflow : bool)
    : M PacketWriter unit :=
  let limit := effective_narrow_string_byte_limit value limit in
  let t := ctx_tds_type ctx in
  if (t =? NVARCHAR) || (t =? NCHAR) then
    match as_utf16_bytes value, as_raw_wire_bytes value with
    | Some utf16_data, _ => serialize_wide_string (to_utf8_string value) utf16_data true ctx
    | None, Some raw_bytes => serialize_wide_string (to_utf8_string value) raw_bytes true ctx
    | None, None => utf8_str <- lift (to_utf8_string value) ;; serialize_string_utf16 utf8_str ctx
    end
  else if t =? NTEXT then
    match as_utf16_bytes value with
    | Some utf16_data => serialize_wide_string (to_utf8_string value) utf16_data true ctx
    | None => serialize_wide_string (to_utf8_string value) (sql_bytes value) false ctx
    end
  else if (t =? VARCHAR) || (t =? CHAR) || (t =? TEXT) then
    '(bs, had_loss) <- lift (narrow_string_wire_bytes value (ctx_collation ctx)) ;;
    serialize_char_varchar_direct bs ctx limit fit_narrow_overflow ;;
    if (had_loss : bool) then modify note_code_page_conversion_loss else ret tt
  else throw (UsageError "Unsupported TDS type for string serialization").

Definition resolve_narrow_wire_bytes (value : SqlString) (collation : option SqlCollation) : TdsResult (bytes * bool) :=
  match as_raw_wire_bytes value with
  | Some raw => Ok (raw, false)
  | None =>
      let? text := to_utf8_string value in
      let encoded := encode_narrow text (default DEFAULT_VARIANT_COLLATION collation) in
      Ok (ne_bytes encoded, had_loss encoded)
  end.
End text.

(** ** Vectors *)

Definition VectorBaseType_u8 (t : VectorBaseType) : Z := match t with Float32 => 0x00 | Float16 => 0x01 end.

(** [SqlType::encode_vector_header] of sqltypes.rs. *)
Definition encode_vector_header (dimension_count : Z) (base_type : VectorBaseType) : M PacketWriter unit :=
  write_byte_async 0xA9 ;; write_byte_async 0x01 ;; write_u16_async dimension_count ;;
  write_byte_async (VectorBaseType_u8 base_type) ;; write_byte_async 0 ;; write_byte_async 0 ;; write_byte_async 0.

Definition serialize_vector `{narrow : HalfCrateNarrow} (value : SqlVector) : M PacketWriter unit :=
  let consistent := match base_type value, vec_data value with
                    | Float32, VecFloat32 _ | Float16, VecFloat16 _ => true
                    | _, _ => false
                    end in
  if negb consistent then throw (UsageError "Vector base type does not match its element data")
  else if VECTOR_MAX_SIZE <? total_size value then throw (UsageError "Vector is not a valid vector value")
  else
    write_u16_async (as_u16 (total_size value)) ;;
    encode_vector_header (dimension_count value) (base_type value) ;;
    match vec_data value with
    | VecFloat32 vs => write_all_of (fun f => write_i32_async (as_i32 f)) vs
    | VecFloat16 vs => write_all_of (fun f => write_u16_async (f32_to_f16 f)) vs
    end.

(** ** Dispatch *)

Section values.
Context `{rs : EncodingRs} `{narrow : HalfCrateNarrow}.

Definition serialize_value_inner (value : ColumnValues) (ctx : TdsTypeContext) (limit : option Z)
    (fit_narrow_overflow : bool) : M PacketWriter unit :=
  match value with
  | Null => serialize_null ctx
  | Bit v => serialize_bit v ctx
  | TinyInt v => serialize_tinyint v ctx
  | SmallInt v => serialize_smallint v ctx
  | Int v => serialize_int v ctx
  | BigInt v => serialize_bigint v ctx
  | Real v => serialize_real v ctx
  | Float v => serialize_float v ctx
  | Decimal v | Numeric v => serialize_decimal v ctx
  | SmallMoney v => serialize_smallmoney v ctx
  | Money v => serialize_money v ctx
  | Date v => serialize_date v ctx
  | Time v => serialize_time v ctx
  | DateTime v => serialize_datetime v ctx
  | DateTime2 v => serialize_datetime2 v ctx
  | DateTimeOffset v => serialize_datetimeoffset v ctx
  | SmallDateTime v => serialize_smalldatetime v ctx
  | CBytes v => serialize_bytes v ctx
  | Json v => serialize_json v
  | CString v => serialize_string v ctx limit fit_narrow_overflow
  | Vector v => serialize_vector v
  | Xml v => serialize_xml v
  | Uuid v => serialize_uuid v ctx
  end.

(** ** sql_variant *)

Definition unsupported_in_variant : Error := UsageError "Unsupported data type in sql_variant".

Definition calculate_value_size (value : ColumnValues) : TdsResult Z :=
  match value with
  | TinyInt _ => Ok 1
  | SmallInt _ => Ok 2
  | Int _ => Ok 4
  | BigInt _ => Ok 8
  | Real _ => Ok 4
  | Float _ => Ok 8
  | Bit _ => Ok 1
  | Decimal v | Numeric v => Ok (1 + Z.of_nat (default 16%nat (decimal_value_bytes (dec_precision v))))
  | Money _ => Ok 8
  | SmallMoney _ => Ok 4
  | Date _ => Ok 3
  | Time v => get_time_length_from_scale (time_scale v)
  | DateTime _ => Ok 8
  | DateTime2 v => let? time_len := get_time_length_from_scale (time_scale (dt2_time v)) in Ok (time_len + 3)
  | DateTimeOffset v =>
      let? time_len := get_time_length_from_scale (time_scale (dt2_time (dto_datetime2 v))) in Ok (time_len + 3 + 2)
  | SmallDateTime _ => Ok 4
  | CBytes v => Ok (as_u32 (Z.of_nat (length v)))
  | CString s => Ok (as_u32 (Z.of_nat (length (sql_bytes s))))
  | Uuid _ => Ok 16
  | Vector _ | Xml _ | Json _ => Err unsupported_in_variant
  | Null => Ok 0
  end.

(** The types of [sql_variant] without properties. *)
Definition plain_variant_types : list TdsDataType :=
  [DT_Int1; DT_Int2; DT_Int4; DT_Int8; DT_Flt4; DT_Flt8; DT_Bit; DT_Money; DT_Money4; DT_DateTime; DT_DateTim4;
   DT_DateN; DT_Guid].

Definition calculate_type_info_length (tds_type : Z) : TdsResult Z :=
  if one_of tds_type plain_variant_types then Ok 0
  else if one_of tds_type [DT_TimeN; DT_DateTime2N; DT_DateTimeOffsetN] then Ok 1
  else if one_of tds_type [DT_DecimalN; DT_NumericN] then Ok 2
  else if one_of tds_type [DT_BigVarBinary; DT_BigBinary] then Ok 2
  else if one_of tds_type [DT_NVarChar; DT_NChar; DT_BigChar; DT_BigVarChar] then Ok 7
  else Err (ProtocolError "no sql_variant TYPE_INFO length for TDS type").

Definition write_type_info_bytes (tds_type : Z) (value : ColumnValues) (ctx : TdsTypeContext)
    (resolved_narrow : option bytes) : M PacketWriter unit :=
  if one_of tds_type plain_variant_types then ret tt
  else if tds_type =? TdsDataType_u8 DT_TimeN
  then match value with Time v => write_byte_async (time_scale v) | _ => ret tt end
  else if tds_type =? TdsDataType_u8 DT_DateTime2N
  then match value with DateTime2 v => write_byte_async (time_scale (dt2_time v)) | _ => ret tt end
  else if tds_type =? TdsDataType_u8 DT_DateTimeOffsetN
  then match value with DateTimeOffset v => write_byte_async (time_scale (dt2_time (dto_datetime2 v))) | _ => ret tt end
  else if one_of tds_type [DT_DecimalN; DT_NumericN]
  then match value with
       | Decimal v | Numeric v => write_byte_async (dec_precision v) ;; write_byte_async (dec_scale v)
       | _ => ret tt
       end
  else if tds_type =? TdsDataType_u8 DT_BigVarBinary
  then match value with CBytes v => write_u16_async (as_u16 (Z.of_nat (length v))) | _ => ret tt end
  else if one_of tds_type [DT_NVarChar; DT_BigVarChar]
  then
    let collation := default DEFAULT_VARIANT_COLLATION (ctx_collation ctx) in
    write_u32_async (info collation) ;;
    write_byte_async (sort_id collation) ;;
    write_u16_async (match resolved_narrow with
                     | Some bs => as_u16 (Z.of_nat (length bs))
                     | None => match value with CString s => as_u16 (Z.of_nat (length (sql_bytes s))) | _ => 0 end
                     end)
  else throw (ProtocolError "no sql_variant TYPE_INFO writer for TDS type").

(** Whether text is narrow for a [sql_variant]. *)
Definition is_narrow (s : SqlString) : bool :=
  match encoding_type s with Utf8 | LcidBased _ => true | Utf16 | DelayedSet => false end.

Definition get_variant_base_type (value : ColumnValues) : TdsResult Z :=
  match value with
  | TinyInt _ => Ok (TdsDataType_u8 DT_Int1)
  | SmallInt _ => Ok (TdsDataType_u8 DT_Int2)
  | Int _ => Ok (TdsDataType_u8 DT_Int4)
  | BigInt _ => Ok (TdsDataType_u8 DT_Int8)
  | Real _ => Ok (TdsDataType_u8 DT_Flt4)
  | Float _ => Ok (TdsDataType_u8 DT_Flt8)
  | Bit _ => Ok (TdsDataType_u8 DT_Bit)
  | Decimal _ => Ok (TdsDataType_u8 DT_DecimalN)
  | Numeric _ => Ok (TdsDataType_u8 DT_NumericN)
  | Money _ => Ok (TdsDataType_u8 DT_Money)
  | SmallMoney _ => Ok (TdsDataType_u8 DT_Money4)
  | Date _ => Ok (TdsDataType_u8 DT_DateN)
  | Time _ => Ok (TdsDataType_u8 DT_TimeN)
  | DateTime _ => Ok (TdsDataType_u8 DT_DateTime)
  | DateTime2 _ => Ok (TdsDataType_u8 DT_DateTime2N)
  | DateTimeOffset _ => Ok (TdsDataType_u8 DT_DateTimeOffsetN)
  | SmallDateTime _ => Ok (TdsDataType_u8 DT_DateTim4)
  | CBytes _ => Ok (TdsDataType_u8 DT_BigVarBinary)
  | CString s => Ok (if is_narrow s then TdsDataType_u8 DT_BigVarChar else TdsDataType_u8 DT_NVarChar)
  | Uuid _ => Ok (TdsDataType_u8 DT_Guid)
  | Null => Err (ProtocolError "NULL should be handled before get_variant_base_type")
  | Xml _ | Json _ | Vector _ => Err (UsageError "Unsupported data type in sql_variant columns")
  end.

(** The context of a value inside a [sql_variant]: no length is written. *)
Definition inner_ctx (tds_type : Z) (max_size : Z) (nullable : bool) (precision scale : option Z)
    (collation : option SqlCollation) : TdsTypeContext :=
  {| ctx_tds_type := tds_type; ctx_max_size := max_size; ctx_is_plp := false; ctx_is_fixed_length := true;
     ctx_precision := precision; ctx_scale := scale; ctx_collation := collation; ctx_is_nullable := nullable |}.

Definition create_variant_inner_context (value : ColumnValues) (base_type : Z) (original_ctx : TdsTypeContext)
    (resolved_narrow : option bytes) : TdsResult TdsTypeContext :=
  let plain t size nullable scale := Ok (inner_ctx (TdsDataType_u8 t) size nullable None scale None) in
  match value with
  | TinyInt _ => plain DT_Int1 1 false None
  | SmallInt _ => plain DT_Int2 2 false None
  | Int _ => plain DT_Int4 4 false None
  | BigInt _ => plain DT_Int8 8 false None
  | Real _ => plain DT_Flt4 4 false None
  | Float _ => plain DT_Flt8 8 false None
  | Bit _ => plain DT_Bit 1 false None
  | Decimal v | Numeric v =>
      Ok (inner_ctx base_type 17 true (Some (dec_precision v)) (Some (dec_scale v)) None)
  | Money _ => plain DT_Money 8 false None
  | SmallMoney _ => plain DT_Money4 4 false None
  | Date _ => plain DT_DateN 3 true None
  | Time v => plain DT_TimeN 5 true (Some (time_scale v))
  | DateTime _ => plain DT_DateTime 8 false None
  | DateTime2 v => plain DT_DateTime2N 8 true (Some (time_scale (dt2_time v)))
  | DateTimeOffset v => plain DT_DateTimeOffsetN 10 true (Some (time_scale (dt2_time (dto_datetime2 v))))
  | SmallDateTime _ => plain DT_DateTim4 4 false None
  | CBytes v => plain DT_BigVarBinary (Z.of_nat (length v)) true None
  | CString s =>
      Ok (inner_ctx base_type (match resolved_narrow with Some bs => Z.of_nat (length bs) | None => Z.of_nat (length (sql_bytes s) / 2) end)
            true None None (ctx_collation original_ctx))
  | Uuid _ => plain DT_Guid 16 true None
  | Vector _ | Xml _ | Json _ => Err unsupported_in_variant
  | Null => Err (ProtocolError "NULL should be handled before create_variant_inner_context")
  end.

Definition MAX_VARIANT_DATA_SIZE : Z := 8000.
Definition MAX_VARIANT_SIZE : Z := 8016.

(** The narrow text of a variant, transcoded once, and whether that lost something. *)
Definition resolve_variant_narrow (value : ColumnValues) (ctx : TdsTypeContext) (limit : option Z)
    (fit_narrow_overflow : bool) : TdsResult (option bytes * bool) :=
  match value with
  | CString s =>
      if is_narrow s then
        let? '(bs, had_loss) := resolve_narrow_wire_bytes s (ctx_collation ctx) in
        let maximum := default (ctx_max_size ctx)
                         (narrow_string_maximum ctx (effective_narrow_string_byte_limit s limit)) in
        if fit_narrow_overflow then let? fitted := fit_narrow_byte_limit bs maximum in Ok (Some fitted, had_loss)
        else if maximum <? Z.of_nat (length bs) then Err (EncodedValueTooLong (length bs) maximum)
        else Ok (Some bs, had_loss)
      else Ok (None, false)
  | _ => Ok (None, false)
  end.

Definition serialize_as_variant (value : ColumnValues) (ctx : TdsTypeContext) (limit : option Z)
    (fit_narrow_overflow : bool) : M PacketWriter unit :=
  match value with
  | Null => write_u32_async 0
  | _ =>
      '(resolved_narrow, narrow_had_loss) <- lift (resolve_variant_narrow value ctx limit fit_narrow_overflow) ;;
      base_type <- lift (get_variant_base_type value) ;;
      prop_len <- lift (calculate_type_info_length base_type) ;;
      data_size <- lift (match resolved_narrow with
                         | Some bs => Ok (as_u32 (Z.of_nat (length bs)))
                         | None => calculate_value_size value
                         end) ;;
      if MAX_VARIANT_DATA_SIZE <? data_size then throw (UsageError "SQL_VARIANT data size exceeds maximum")
      else
        let total_length := 2 + prop_len + data_size in
        if MAX_VARIANT_SIZE <? total_length then throw (UsageError "SQL_VARIANT total size exceeds maximum size")
        else
          write_u32_async total_length ;;
          write_byte_async base_type ;;
          write_byte_async prop_len ;;
          (if 0 <? prop_len then write_type_info_bytes base_type value ctx resolved_narrow else ret tt) ;;
          temp_ctx <- lift (create_variant_inner_context value base_type ctx resolved_narrow) ;;
          match resolved_narrow with
          | Some bs => serialize_char_varchar_direct bs temp_ctx None false
          | None => serialize_value_inner value temp_ctx None false
          end ;;
          if (narrow_had_loss : bool) then modify note_code_page_conversion_loss else ret tt
  end.

Definition serialize_value (value : ColumnValues) (ctx : TdsTypeContext) : M PacketWriter unit :=
  if ctx_tds_type ctx =? SQL_VARIANT then serialize_as_variant value ctx None false
  else serialize_value_inner value ctx None false.

Definition serialize_value_with_narrow_string_byte_limit (value : ColumnValues) (ctx : TdsTypeContext)
    (limit : option Z) : M PacketWriter unit :=
  if ctx_tds_type ctx =? SQL_VARIANT then serialize_as_variant value ctx limit true
  else serialize_value_inner value ctx limit true.

(** [narrow_string_bytes]: the bytes of a narrow string parameter, fitted, before it is written. *)
Definition narrow_string_bytes (value : ColumnValues) (ctx : TdsTypeContext) (limit : option Z)
    : TdsResult (option (bytes * bool)) :=
  match value with
  | CString value =>
      if one_of (ctx_tds_type ctx) [DT_BigVarChar; DT_BigChar; DT_Text] then
        let maximum := narrow_string_maximum ctx (effective_narrow_string_byte_limit value limit) in
        let fit bs := match maximum with Some maximum => fit_narrow_byte_limit bs maximum | None => Ok bs end in
        match as_raw_wire_bytes value with
        | Some bs => let? bs := fit bs in Ok (Some (bs, false))
        | None =>
            let? text := to_utf8_string value in
            let encoded := encode_narrow_for_wire text (ctx_collation ctx) in
            let? bs := fit (ne_bytes encoded) in
            Ok (Some (bs, had_loss encoded))
        end
      else Ok None
  | _ => Ok None
  end.

Definition validate_narrow_string_length (value : ColumnValues) (ctx : TdsTypeContext) (limit : option Z)
    : TdsResult unit :=
  if negb (one_of (ctx_tds_type ctx) [DT_BigVarChar; DT_BigChar; DT_Text]) then Ok tt
  else
    let limit := match value with CString value => effective_narrow_string_byte_limit value limit | _ => limit end in
    match narrow_string_maximum ctx limit with
    | None => Ok tt
    | Some maximum => let? _ := narrow_string_bytes value ctx (Some maximum) in Ok tt
    end.
End values.
