(* ===== verification/ValueWriting.v ===== *)
(** * What the value serializer puts on the wire

    Each serializer appends the bytes of the value's wire form and nothing else, whichever of its two
    paths it takes and wherever in the packet it starts.  The one exception is a nullable FLOAT, whose
    slow path leaves the packet overfull. *)

From stdpp Require Import strings.
From S2P Require Import Prelude Core Unicode PacketReader Tokens DataTypes ColMetadata Values Decoder Decimal NarrowText.
From S2P Require Import ReadBuffer Transport PacketWriter Writer WriterText PlpLaws ValueSerializer.

(** ** Writes without a check *)

(** [op] appends [bs] to the buffered packet when they fit in it. *)
Definition appends (op : M PacketWriter unit) (bs : bytes) : Prop :=
  forall m chunks buf w, writer_at m chunks buf w -> (length buf + length bs <= m_size m)%nat ->
    exists w', op w = (Ok tt, w') /\ writer_at m chunks (buf ++ bs) w' /\ (calm w -> calm w').

Lemma appends_put bs : appends (put bs) bs.
Proof. intros m chunks buf w Hw Hl. by apply put_at. Qed.

Lemma appends_ret : appends (ret tt) [].
Proof. intros m chunks buf w Hw _. exists w. by rewrite app_nil_r. Qed.

Lemma appends_bind op k bs1 bs2 : appends op bs1 -> appends k bs2 -> appends (op ;; k) (bs1 ++ bs2).
Proof.
  intros H1 H2 m chunks buf w Hw Hl. rewrite length_app in Hl.
  destruct (H1 m chunks buf w Hw ltac:(lia)) as (w1 & E1 & Hw1 & Hc1). rewrite (bind_ok _ _ _ _ _ E1).
  destruct (H2 m chunks _ w1 Hw1) as (w2 & E2 & Hw2 & Hc2); [rewrite length_app; lia|].
  exists w2. rewrite app_assoc. auto.
Qed.

Lemma appends_eq op bs bs' : appends op bs -> bs = bs' -> appends op bs'.
Proof. by intros ? <-. Qed.

Lemma if_space_emits n fast slow bs :
  appends fast bs -> (length bs <= n)%nat -> emits slow bs tt -> emits (if_space n fast slow) bs tt.
Proof.
  intros Hf Hn Hslow m content w Hs Hw. unfold if_space. cbn [bind gets id].
  destruct (has_space n w) eqn:Hsp; [|by apply Hslow].
  pose proof Hw as (chunks & buf & Hat & Hl & ->).
  rewrite (has_space_at _ _ _ _ _ Hs Hat), bool_decide_eq_true in Hsp. unfold m_room in Hsp.
  destruct (Hf m chunks buf w Hat ltac:(lia)) as (w1 & -> & Hw1 & Hc1). split_and!; [done| |done].
  exists chunks, (buf ++ bs). rewrite app_assoc. split_and!; [done| |done]. rewrite length_app. unfold m_room. lia.
Qed.

Lemma emits_lift_ok {A B} (x : TdsResult A) (a : A) (k : A -> M PacketWriter B) bs b :
  x = Ok a -> emits (k a) bs b -> emits (bind (lift x) k) bs b.
Proof. intros -> H. exact H. Qed.

(** ** Loops *)

Lemma appends_all_of {A} (f : A -> M PacketWriter unit) (g : A -> bytes) l :
  (forall x, appends (f x) (g x)) -> appends (write_all_of f l) (concat (g <$> l)).
Proof.
  intros Hf. induction l as [|x l IH]; [apply appends_ret|]. rewrite concat_fmap_cons. by apply appends_bind.
Qed.

Lemma emits_all_of {A} (f : A -> M PacketWriter unit) (g : A -> bytes) l :
  (forall x, emits (f x) (g x) tt) -> emits (write_all_of f l) (concat (g <$> l)) tt.
Proof.
  intros Hf. induction l as [|x l IH]; [apply emits_ret|]. rewrite concat_fmap_cons. by eapply emits_bind.
Qed.

Lemma concat_singletons {A B} (f : A -> B) l : concat ((fun x => [f x]) <$> l) = f <$> l.
Proof. induction l as [|x l IH]; [done|]. rewrite concat_fmap_cons. cbn. by rewrite IH. Qed.

Lemma appends_each l : appends (write_all_of write_byte_unchecked l) (byte_of <$> l).
Proof. rewrite <- concat_singletons. apply appends_all_of. intros. apply appends_put. Qed.

Lemma emits_each l : emits (write_all_of write_byte_async l) (byte_of <$> l) tt.
Proof. rewrite <- concat_singletons. apply emits_all_of. intros. apply write_byte_emits. Qed.

Lemma emits_bytes_each bs : emits (write_all_of (fun b => write_byte_async (byte_val b)) bs) bs tt.
Proof.
  eapply emits_eq; [apply (emits_all_of _ (fun b => [b]))|].
  - intros b. eapply emits_eq; [apply write_byte_emits|]. by rewrite byte_of_val.
  - rewrite concat_singletons. apply list_fmap_id.
Qed.

Lemma emits_units us : emits (write_all_of write_u16_async us) (units_le us) tt.
Proof. apply emits_all_of. intros. apply write_u16_emits. Qed.

(** ** Bytes of numbers *)

Lemma le_bytes_congr n a b : a mod 2 ^ (8 * Z.of_nat n) = b mod 2 ^ (8 * Z.of_nat n) -> le_bytes n a = le_bytes n b.
Proof.
  intros H. rewrite <- (le_bytes_of_le n (le_bytes n a)), <- (le_bytes_of_le n (le_bytes n b)) by apply length_le_bytes.
  by rewrite !of_le_le_bytes, H.
Qed.

Lemma le_bytes_S n v : le_bytes (S n) v = byte_of v :: le_bytes n (Z.shiftr v 8).
Proof. done. Qed.

Lemma le_bytes_add n : forall k v, le_bytes (n + k) v = le_bytes n v ++ le_bytes k (Z.shiftr v (8 * Z.of_nat n)).
Proof.
  induction n as [|n IH]; intros k v; [cbn; by rewrite Z.shiftr_0_r|].
  cbn [Nat.add]. rewrite !le_bytes_S, IH, Z.shiftr_shiftr by lia. cbn [app]. do 4 f_equal. lia.
Qed.

Lemma byte_of_land v : byte_of (Z.land v 0xFF) = byte_of v.
Proof.
  change 0xFF with (Z.ones 8). rewrite Z.land_ones by lia. rewrite <- (byte_of_val (byte_of v)).
  unfold byte_val, byte_of. by rewrite byte.unsigned_of_Z.
Qed.

Lemma low_bytes_le n v : 0 <= n -> byte_of <$> low_bytes n v = le_bytes (Z.to_nat n) v.
Proof.
  intros Hn. unfold low_bytes. set (k := Z.to_nat n). clearbody k. clear Hn n.
  enough (forall i, byte_of <$> ((fun i => Z.land (Z.shiftr v (Z.of_nat i * 8)) 0xFF) <$> seq i k)
                    = le_bytes k (Z.shiftr v (Z.of_nat i * 8))) as H.
  { rewrite (H 0%nat). by rewrite Z.shiftr_0_r. }
  induction k as [|k IH]; intros i; [done|]. cbn [seq fmap list_fmap]. rewrite le_bytes_S, byte_of_land. f_equal.
  etrans; [apply (IH (S i))|]. rewrite Z.shiftr_shiftr by lia. do 2 f_equal. lia.
Qed.

Lemma byte_of_vals (bs : bytes) : byte_of <$> (byte_val <$> bs) = bs.
Proof. rewrite <- list_fmap_compose. etrans; [|apply list_fmap_id]. apply list_fmap_ext. intros. apply byte_of_val. Qed.

Lemma appends_vals (bs : bytes) : appends (write_all_of write_byte_unchecked (byte_val <$> bs)) bs.
Proof. eapply appends_eq; [apply appends_each|]. apply byte_of_vals. Qed.

Lemma emits_vals (bs : bytes) : emits (write_all_of write_byte_async (byte_val <$> bs)) bs tt.
Proof. eapply emits_eq; [apply emits_each|]. apply byte_of_vals. Qed.

Lemma first_le_bytes_le n v : (n <= 4)%nat -> byte_of <$> first_le_bytes n v = le_bytes n v.
Proof.
  intros Hn. unfold first_le_bytes. rewrite byte_of_vals. replace 4%nat with (n + (4 - n))%nat by lia.
  rewrite le_bytes_add. apply take_app_length'. symmetry. apply length_le_bytes.
Qed.

Lemma le_bytes_as_i32 v : le_bytes 4 (as_i32 v) = le_bytes 4 v.
Proof. apply le_bytes_congr. apply mod_to_signed. Qed.

Lemma le_bytes_as_i64 v : le_bytes 8 (to_signed 64 v) = le_bytes 8 v.
Proof. apply le_bytes_congr. apply mod_to_signed. Qed.

(** ** The wire form of the values of fixed size *)

Definition time_length (t : SqlTime) : nat :=
  match get_time_length_from_scale (time_scale t) with Ok n => Z.to_nat n | _ => 0%nat end.
Definition time_bytes (t : SqlTime) : bytes := le_bytes (time_length t) (scaled_time t).
Definition datetime2_bytes (d : SqlDateTime2) : bytes := time_bytes (dt2_time d) ++ le_bytes 3 (dt2_days d).
Definition decimal_bytes (n : nat) (d : DecimalParts) : bytes :=
  byte_of (if is_positive d then 1 else 0) :: le_bytes n (magnitude d).
Definition decimal_width (ctx : TdsTypeContext) : nat := default 0%nat (decimal_value_bytes (default 38 (ctx_precision ctx))).

(** [None] for the values of variable size. *)
Definition scalar_bytes (ctx : TdsTypeContext) (v : ColumnValues) : option bytes :=
  match v with
  | Bit b => Some [byte_of (if b then 1 else 0)]
  | TinyInt z => Some (le_bytes 1 z)
  | SmallInt z => Some (le_bytes 2 z)
  | Int z => Some (le_bytes 4 z)
  | BigInt z => Some (le_bytes 8 z)
  | Real bits => Some (le_bytes 4 bits)
  | Float bits => Some (le_bytes 8 bits)
  | Decimal d | Numeric d => Some (decimal_bytes (decimal_width ctx) d)
  | SmallMoney v => Some (le_bytes 4 (int_val v))
  | Money v => Some (le_bytes 4 (msb_part v) ++ le_bytes 4 (lsb_part v))
  | Date d => Some (le_bytes 3 (days_since_01_01_0001 d))
  | Time t => Some (time_bytes t)
  | DateTime d => Some (le_bytes 4 (dt_days d) ++ le_bytes 4 (dt_time d))
  | SmallDateTime d => Some (le_bytes 2 (sdt_days d) ++ le_bytes 2 (sdt_time d))
  | DateTime2 d => Some (datetime2_bytes d)
  | DateTimeOffset d => Some (datetime2_bytes (dto_datetime2 d) ++ le_bytes 2 (dto_offset d))
  | Uuid bs => Some bs
  | _ => None
  end.

(** Whether a byte with the length goes first. *)
Definition has_length_byte (ctx : TdsTypeContext) (v : ColumnValues) : bool :=
  match v with
  | Decimal _ | Numeric _ | Uuid _ => negb (ctx_is_fixed_length ctx)
  | SmallMoney _ | Date _ | Time _ | DateTime2 _ | DateTimeOffset _ =>
      negb (is_fixed_type ctx) && negb (ctx_is_fixed_length ctx)
  | _ => negb (is_fixed_type ctx)
  end.

Definition prefixed (b : bool) (bs : bytes) : bytes := if b then byte_of (Z.of_nat (length bs)) :: bs else bs.

Definition scale_ok (t : SqlTime) : Prop := 0 <= time_scale t <= 7.

(** What the serializers of the scalars ask for. *)
Definition scalar_ok (ctx : TdsTypeContext) (v : ColumnValues) : Prop :=
  match v with
  | Float _ => is_fixed_type ctx = true
  | Decimal d | Numeric d => is_Some (decimal_value_bytes (default 38 (ctx_precision ctx))) /\ decimal_ok d
  | Time t => scale_ok t
  | DateTime2 d => scale_ok (dt2_time d)
  | DateTimeOffset d => scale_ok (dt2_time (dto_datetime2 d))
  | Uuid bs => length bs = 16%nat
  | _ => True
  end.

(** ** Scalars *)

Create HintDb appends discriminated.
#[export] Hint Resolve appends_put appends_ret appends_each appends_vals : appends.
#[export] Hint Resolve emits_each emits_vals emits_bytes_each emits_units : emits.

(** A serializer of one piece, with and without its length byte. *)
Lemma if_space_prefixed n len (fast slow : M PacketWriter unit) bs :
  appends fast bs -> emits slow bs tt -> length bs = n -> byte_of len = byte_of (Z.of_nat n) ->
  emits (if_space (S n) (write_byte_unchecked len ;; fast) (write_byte_async len ;; slow)) (prefixed true bs) tt /\
  emits (if_space n fast slow) (prefixed false bs) tt.
Proof.
  intros Hf Hs Hl Hb. unfold prefixed. rewrite Hl, <- Hb. split; apply if_space_emits; try done; cbn; try lia.
  - apply (appends_bind _ _ [byte_of len]); [apply appends_put|done].
  - apply (emits_bind _ _ [byte_of len] _ tt); [apply write_byte_emits|done].
Qed.

Lemma choose_prefixed (b : bool) (p q : M PacketWriter unit) bs :
  emits p (prefixed true bs) tt /\ emits q (prefixed false bs) tt ->
  emits (if b then p else q) (prefixed b bs) tt.
Proof. intros [? ?]. by destruct b. Qed.

(** Scalars written in one piece. *)
Lemma put_prefixed (b : bool) n bs (check : M PacketWriter unit) :
  length bs = n -> (n < 256)%nat -> emits check bs tt ->
  emits (if b then if_space (S n) (write_byte_unchecked (Z.of_nat n) ;; put bs) (write_byte_async (Z.of_nat n) ;; check)
         else if_space n (put bs) check) (prefixed b bs) tt.
Proof.
  intros Hl Hn Hc. apply choose_prefixed. apply if_space_prefixed; try done. apply appends_put.
Qed.

(** A run of writes, one after the other. *)
Ltac appends_run :=
  repeat (eapply appends_bind; [solve [eauto with appends]|]); solve [eauto with appends].
Ltac emits_run := repeat emits_step; solve [eauto with emits].

Lemma time_length_cases s :
  (0 <= s <= 2 /\ get_time_length_from_scale s = Ok 3) \/ (3 <= s <= 4 /\ get_time_length_from_scale s = Ok 4) \/
  (5 <= s <= 7 /\ get_time_length_from_scale s = Ok 5) \/
  (~ 0 <= s <= 7 /\ exists e, get_time_length_from_scale s = Err e).
Proof.
  unfold get_time_length_from_scale.
  destruct ((0 <=? s) && (s <=? 2)) eqn:E1; [left; split; [lia|done]|].
  destruct ((s =? 3) || (s =? 4)) eqn:E2; [right; left; split; [lia|done]|].
  destruct ((5 <=? s) && (s <=? 7)) eqn:E3; [right; right; left; split; [lia|done]|].
  right; right; right. split; [lia|eauto].
Qed.

Lemma get_time_length_ok t : scale_ok t -> get_time_length_from_scale (time_scale t) = Ok (Z.of_nat (time_length t)).
Proof.
  unfold scale_ok, time_length. intros.
  destruct (time_length_cases (time_scale t)) as [[_ ->]|[[_ ->]|[[_ ->]|[? _]]]]; done || lia.
Qed.

Lemma time_length_small t : (time_length t <= 5)%nat.
Proof.
  unfold time_length. destruct (time_length_cases (time_scale t)) as [[_ ->]|[[_ ->]|[[_ ->]|[_ [? ->]]]]]; cbn; lia.
Qed.

Lemma length_time_bytes t : length (time_bytes t) = time_length t.
Proof. apply length_le_bytes. Qed.

Lemma length_datetime2_bytes d : length (datetime2_bytes d) = (time_length (dt2_time d) + 3)%nat.
Proof. unfold datetime2_bytes. by rewrite length_app, length_time_bytes, length_le_bytes. Qed.

Lemma low_bytes_time t n v : n = Z.of_nat (time_length t) -> byte_of <$> low_bytes n v = le_bytes (time_length t) v.
Proof. intros ->. rewrite low_bytes_le by lia. by rewrite Nat2Z.id. Qed.

Lemma le_bytes_split n k v : (k <= n)%nat -> le_bytes n v = le_bytes k v ++ le_bytes (n - k) (Z.shiftr v (8 * Z.of_nat k)).
Proof. intros. rewrite <- le_bytes_add. f_equal. lia. Qed.

(** The words of a decimal in order are its magnitude. *)
Lemma words_le d k : (k <= 4)%nat ->
  concat ((fun i => le_bytes 4 (word d i)) <$> seq 0 k) = le_bytes (4 * k) (magnitude d).
Proof.
  intros Hk. induction k as [|k IH]; [done|].
  rewrite seq_S, fmap_app, concat_app, IH by lia. cbn [fmap list_fmap concat Nat.add].
  rewrite app_nil_r, (le_bytes_split (4 * S k) (4 * k)) by lia. f_equal.
  replace (4 * S k - 4 * k)%nat with 4%nat by lia.
  unfold word. rewrite decide_False by (unfold MAX_DECIMAL_INT_PARTS; cbn; lia).
  rewrite le_bytes_as_i32. etrans; [apply (le_bytes_congr 4 _ (Z.shiftr (magnitude d) (Z.of_nat k * 32)))|].
  - apply Zmod_mod.
  - do 2 f_equal. lia.
Qed.

Lemma decimal_width_cases p n : decimal_value_bytes p = Some n -> (n = 4 * (n / 4) /\ n / 4 <= 4 /\ n <= 16)%nat.
Proof.
  unfold decimal_value_bytes. intros H.
  destruct ((1 <=? p) && (p <=? 9)); [injection H as <-; cbn; lia|].
  destruct ((10 <=? p) && (p <=? 19)); [injection H as <-; cbn; lia|].
  destruct ((20 <=? p) && (p <=? 28)); [injection H as <-; cbn; lia|].
  destruct ((29 <=? p) && (p <=? 38)); [injection H as <-; cbn; lia|done].
Qed.

Lemma decimal_emits d ctx :
  is_Some (decimal_value_bytes (default 38 (ctx_precision ctx))) ->
  emits (serialize_decimal d ctx) (prefixed (negb (ctx_is_fixed_length ctx)) (decimal_bytes (decimal_width ctx) d)) tt.
Proof.
  unfold serialize_decimal, decimal_width. intros [n E]. rewrite E.
  destruct (decimal_width_cases _ _ E) as (Hn & H4 & H16). cbn [default from_option id].
  assert (Hd : emits (write_byte_async (if is_positive d then 1 else 0) ;;
                 write_all_of (fun i => write_i32_async (word d i)) (seq 0 (n / 4))) (decimal_bytes n d) tt).
  { unfold decimal_bytes. eapply (emits_bind _ _ [_] _ tt); [apply write_byte_emits|].
    eapply emits_eq; [apply emits_all_of; intros i; apply write_i32_emits|]. rewrite words_le by done. by rewrite <- Hn. }
  unfold prefixed. destruct (ctx_is_fixed_length ctx); cbn [negb].
  - eapply (emits_bind _ _ [] _ tt); [apply emits_ret|done].
  - eapply (emits_bind _ _ [_] _ tt); [|done]. eapply emits_eq; [apply write_byte_emits|].
    do 2 f_equal. unfold decimal_bytes. cbn [length]. rewrite length_le_bytes. unfold as_u8.
    rewrite Z.mod_small by lia. lia.
Qed.

(** ** The scalars *)

Section scalars.
Context `{rs : EncodingRs} `{narrow : HalfCrateNarrow}.

Lemma time_emits t ctx :
  scale_ok t ->
  emits (serialize_time t ctx) (prefixed (negb (is_fixed_type ctx) && negb (ctx_is_fixed_length ctx)) (time_bytes t)) tt.
Proof.
  intros Hs. unfold serialize_time. eapply emits_lift_ok; [by apply get_time_length_ok|].
  apply choose_prefixed. rewrite Z2Nat.inj_add, !Nat2Z.id by lia.
  apply if_space_prefixed; rewrite ?length_time_bytes; try done; unfold time_bytes;
    rewrite <- (low_bytes_time t _ _ eq_refl); [apply appends_each|apply emits_each].
Qed.

(** The time and the date of a DATETIME2. *)
Lemma datetime2_parts d (n := Z.of_nat (time_length (dt2_time d))) :
  appends (write_all_of write_byte_unchecked (low_bytes n (scaled_time (dt2_time d))) ;;
           write_all_of write_byte_unchecked (first_le_bytes 3 (dt2_days d))) (datetime2_bytes d) /\
  emits (write_all_of write_byte_async (low_bytes n (scaled_time (dt2_time d))) ;;
         write_all_of write_byte_async (first_le_bytes 3 (dt2_days d))) (datetime2_bytes d) tt.
Proof.
  unfold datetime2_bytes, time_bytes. rewrite <- (first_le_bytes_le 3) by lia.
  rewrite <- (low_bytes_time (dt2_time d) n _ eq_refl). split.
  - apply appends_bind; apply appends_each.
  - eapply emits_bind; apply emits_each.
Qed.

Lemma datetime2_emits d ctx :
  scale_ok (dt2_time d) ->
  emits (serialize_datetime2 d ctx)
    (prefixed (negb (is_fixed_type ctx) && negb (ctx_is_fixed_length ctx)) (datetime2_bytes d)) tt.
Proof.
  intros Hs. unfold serialize_datetime2. eapply emits_lift_ok; [by apply get_time_length_ok|].
  destruct (datetime2_parts d) as [Ha He]. apply choose_prefixed.
  replace (Z.to_nat (1 + _)) with (S (Z.to_nat (Z.of_nat (time_length (dt2_time d)) + 3))) by lia.
  apply if_space_prefixed; try done; [rewrite length_datetime2_bytes; lia|f_equal; lia].
Qed.

Lemma datetimeoffset_emits d ctx :
  scale_ok (dt2_time (dto_datetime2 d)) ->
  emits (serialize_datetimeoffset d ctx)
    (prefixed (negb (is_fixed_type ctx) && negb (ctx_is_fixed_length ctx))
       (datetime2_bytes (dto_datetime2 d) ++ le_bytes 2 (dto_offset d))) tt.
Proof.
  intros Hs. unfold serialize_datetimeoffset. eapply emits_lift_ok; [by apply get_time_length_ok|]. apply choose_prefixed.
  replace (Z.to_nat (1 + _)) with (S (Z.to_nat (Z.of_nat (time_length (dt2_time (dto_datetime2 d))) + 3 + 2))) by lia.
  apply if_space_prefixed;
    [| |rewrite length_app, length_datetime2_bytes, length_le_bytes; lia|f_equal; lia];
    unfold datetime2_bytes, time_bytes; rewrite <- app_assoc, <- (first_le_bytes_le 3) by lia;
    rewrite <- (low_bytes_time _ _ _ eq_refl).
  - appends_run.
  - emits_run.
Qed.

Lemma datetime_emits d ctx :
  emits (serialize_datetime d ctx) (prefixed (negb (is_fixed_type ctx)) (le_bytes 4 (dt_days d) ++ le_bytes 4 (dt_time d))) tt.
Proof.
  apply choose_prefixed, if_space_prefixed; try done.
  - apply appends_bind; [apply appends_put|]. rewrite <- (first_le_bytes_le 4 (dt_time d)) by lia. apply appends_each.
  - emits_run.
Qed.

Lemma uuid_emits bs ctx :
  length bs = 16%nat -> emits (serialize_uuid bs ctx) (prefixed (negb (ctx_is_fixed_length ctx)) bs) tt.
Proof.
  intros Hl. unfold serialize_uuid.
  destruct (if_space_prefixed 16 16 (write_all_of write_byte_unchecked (byte_val <$> bs)) (write_async bs) bs); try done.
  - apply appends_vals.
  - apply write_async_emits.
  - by destruct (ctx_is_fixed_length ctx).
Qed.

(** Every scalar serializer appends the wire form of its value. *)
Lemma scalar_emits v ctx limit fit bs :
  scalar_ok ctx v -> scalar_bytes ctx v = Some bs ->
  emits (serialize_value_inner v ctx limit fit) (prefixed (has_length_byte ctx v) bs) tt.
Proof.
  intros Hok Hb. destruct v; cbn [scalar_bytes] in Hb; simplify_eq; cbn [serialize_value_inner has_length_byte scalar_ok] in *.
  - apply (put_prefixed _ 1); [done|lia|apply write_byte_emits].
  - apply (put_prefixed _ 2); [done|lia|apply write_i16_emits].
  - apply (put_prefixed _ 4); [done|lia|apply write_i32_emits].
  - apply (put_prefixed _ 8); [done|lia|apply write_i64_emits].
  - rewrite <- le_bytes_as_i32. apply (put_prefixed _ 4); [done|lia|apply write_i32_emits].
  - unfold serialize_float. rewrite Hok. apply if_space_emits; [apply appends_put|done|].
    cbn [negb prefixed]. rewrite <- le_bytes_as_i64. apply write_i64_emits.
  - destruct Hok. by apply decimal_emits.
  - destruct Hok. by apply decimal_emits.
  - apply (put_prefixed _ 1); [done|lia|apply write_byte_emits].
  - apply datetime_emits.
  - apply choose_prefixed, if_space_prefixed; try done; rewrite <- (low_bytes_le 3) by lia;
      [apply appends_each|apply emits_each].
  - by apply time_emits.
  - by apply datetime2_emits.
  - by apply datetimeoffset_emits.
  - apply choose_prefixed, if_space_prefixed; try done; [appends_run|emits_run].
  - apply (put_prefixed _ 4); [done|lia|apply write_i32_emits].
  - apply choose_prefixed, if_space_prefixed; try done; [appends_run|emits_run].
  - by apply uuid_emits.
Qed.
End scalars.

(** ** Values of variable size *)

Definition long_data_header : bytes := byte_of 0x10 :: replicate 24 (byte_of 0xFF).

(** The chunks of a value sent whole; none when it is empty. *)
Definition one_chunk (bs : bytes) : list bytes := match bs with [] => [] | _ => [bs] end.

Lemma concat_one_chunk bs : concat (one_chunk bs) = bs.
Proof. destruct bs; [done|]. cbn. by rewrite app_nil_r. Qed.

(** Bytes behind a text pointer, as a chunk, bare, or behind their length. *)
Definition body_bytes (ctx : TdsTypeContext) (long : bool) (bs : bytes) : bytes :=
  if long then long_data_header ++ le_bytes 4 (Z.of_nat (length bs)) ++ bs
  else if ctx_is_plp ctx then encode_plp false (one_chunk bs)
  else if ctx_is_fixed_length ctx then bs
  else le_bytes 2 (Z.of_nat (length bs)) ++ bs.

Lemma le_bytes_as_u16 v : le_bytes 2 (as_u16 v) = le_bytes 2 v.
Proof. apply le_bytes_congr. apply Zmod_mod. Qed.

Lemma le_bytes_as_u32 v : le_bytes 4 (as_u32 v) = le_bytes 4 v.
Proof. apply le_bytes_congr. apply Zmod_mod. Qed.

Lemma write_u16_len_emits v : emits (write_u16_async (as_u16 v)) (le_bytes 2 v) tt.
Proof. rewrite <- le_bytes_as_u16. apply write_u16_emits. Qed.

Lemma write_u32_len_emits v : emits (write_u32_async (as_u32 v)) (le_bytes 4 v) tt.
Proof. rewrite <- le_bytes_as_u32. apply write_u32_emits. Qed.

Lemma long_data_header_emits : emits write_long_data_header long_data_header tt.
Proof.
  eapply emits_eq; [unfold write_long_data_header; emits_step|].
  - eapply emits_bind; apply emits_all_of; intros; apply write_byte_emits.
  - done.
Qed.

#[local] Hint Resolve write_u16_len_emits write_u32_len_emits long_data_header_emits : emits.

Lemma write_plp_emits n op bs :
  n = length bs -> emits op bs tt -> emits (write_plp n op) (encode_plp false (one_chunk bs)) tt.
Proof.
  intros -> Hop. unfold write_plp, encode_plp, plp_chunks. emits_step.
  destruct bs as [|b bs]; cbn [one_chunk fmap list_fmap concat app].
  - rewrite decide_False by (cbn; lia). eapply (emits_bind _ _ [] _ tt); [apply emits_ret|apply write_u32_emits].
  - rewrite decide_True by (cbn; lia). rewrite app_nil_r. unfold plp_chunk.
    eapply emits_bind; [|apply write_u32_emits]. emits_step. done.
Qed.

#[local] Hint Resolve write_plp_emits : emits.

(** A body that is written with [op] and padded with [pad]. *)
Lemma body_emits ctx long bs op pad (n := Z.of_nat (length bs)) :
  emits op bs tt -> (long = false -> ctx_is_plp ctx = false -> ctx_is_fixed_length ctx = true -> emits pad [] tt) ->
  emits (if long then write_long_data_header ;; write_u32_async (as_u32 n) ;; op
         else if ctx_is_plp ctx then write_plp (length bs) op
         else if ctx_is_fixed_length ctx then op ;; pad
         else write_u16_async (as_u16 n) ;; op) (body_bytes ctx long bs) tt.
Proof.
  intros Hop Hpad. unfold body_bytes. destruct long; [do 2 emits_step; done|].
  destruct (ctx_is_plp ctx); [by apply write_plp_emits|].
  destruct (ctx_is_fixed_length ctx); [rewrite <- (app_nil_r bs) at 1; eapply emits_bind; eauto|emits_step; done].
Qed.

(** The value fits the column, and fills it when its size is fixed; [n] and the size in the same units. *)
Definition fits (ctx : TdsTypeContext) (long : bool) (n : nat) : Prop :=
  long = false -> ctx_is_plp ctx = false ->
  Z.of_nat n <= ctx_max_size ctx /\ (ctx_is_fixed_length ctx = true -> Z.of_nat n = ctx_max_size ctx).

Lemma no_padding (g : nat -> M PacketWriter unit) n size :
  Z.of_nat n = size -> emits (write_all_of g (seq 0 (Z.to_nat size - n))) [] tt.
Proof. intros <-. rewrite Nat2Z.id, Nat.sub_diag. apply emits_ret. Qed.

Lemma bytes_emits bs ctx (long := ctx_tds_type ctx =? IMAGE) :
  fits ctx long (length bs) -> emits (serialize_bytes bs ctx) (body_bytes ctx long bs) tt.
Proof.
  intros Hf. unfold serialize_bytes. fold long.
  replace (negb (ctx_is_plp ctx) && negb long && _) with false; cycle 1.
  { destruct (ctx_is_plp ctx) eqn:Ep, long eqn:El; try done. cbn. symmetry. apply Z.ltb_ge.
    destruct (Hf eq_refl Ep). lia. }
  unfold body_bytes. destruct long eqn:El; [emits_run|]. destruct (ctx_is_plp ctx) eqn:Ep; [by eauto with emits|].
  destruct (Hf eq_refl Ep) as [_ Hfix]. destruct (ctx_is_fixed_length ctx); [|emits_run].
  eapply emits_last; [apply emits_bytes_each|]. apply no_padding; auto.
Qed.

Lemma xml_emits x : has_bom x = true -> emits (serialize_xml x) (encode_plp false (one_chunk (xml_bytes x))) tt.
Proof.
  intros Hb. unfold serialize_xml. rewrite Hb. apply write_plp_emits; [done|].
  eapply (emits_bind _ _ [] _ tt); [apply emits_ret|apply write_async_emits].
Qed.

Lemma xml_without_bom_emits x :
  has_bom x = false ->
  emits (serialize_xml x) (encode_plp false [byte_of 0xFF :: byte_of 0xFE :: xml_bytes x]) tt.
Proof.
  intros Hb. unfold serialize_xml. rewrite Hb. apply (write_plp_emits _ _ (byte_of 0xFF :: byte_of 0xFE :: xml_bytes x)).
  - cbn. lia.
  - change (byte_of 0xFF :: byte_of 0xFE :: xml_bytes x) with (([byte_of 0xFF] ++ [byte_of 0xFE]) ++ xml_bytes x).
    eapply emits_bind; [|apply write_async_emits]. emits_run.
Qed.

(** ** Text *)

(** A wide value is sent as it is. *)
Lemma wide_string_emits text bs ctx (long := ctx_tds_type ctx =? NTEXT) :
  Nat.even (length bs) = true -> (ctx_is_plp ctx = false -> Z.of_nat (length bs / 2) <= ctx_max_size ctx) ->
  fits ctx long (length bs / 2) ->
  emits (serialize_wide_string text bs true ctx) (body_bytes ctx long bs) tt.
Proof.
  intros He Hsz Hf. unfold serialize_wide_string. fold long. apply Nat.even_spec in He as [k Hk].
  replace (Z.of_nat (length bs) mod 2 =? 0) with true by (rewrite Hk, Nat2Z.inj_mul, Z.mul_comm, Z_mod_mult; done).
  cbn [negb andb]. replace (negb (ctx_is_plp ctx) && _) with false; cycle 1.
  { destruct (ctx_is_plp ctx) eqn:Ep; [done|]. cbn [negb andb]. symmetry. apply Z.ltb_ge. specialize (Hsz eq_refl). lia. }
  apply body_emits; [apply write_async_emits|]. intros El Ep Ef. destruct (Hf El Ep). apply no_padding; auto.
Qed.

(** A narrow value within its limit, too. *)
Lemma char_varchar_emits bs ctx limit fit (long := ctx_tds_type ctx =? TEXT) :
  match narrow_string_maximum ctx limit with Some maximum => Z.of_nat (length bs) <= maximum | None => True end ->
  fits ctx long (length bs) ->
  emits (serialize_char_varchar_direct bs ctx limit fit) (body_bytes ctx long bs) tt.
Proof.
  intros Hm Hf. unfold serialize_char_varchar_direct. eapply (emits_lift_ok _ bs).
  - destruct (narrow_string_maximum ctx limit); [|done]. unfold fit_narrow_byte_limit. destruct fit.
    + by rewrite (proj2 (Z.leb_le _ _) Hm).
    + by rewrite (proj2 (Z.ltb_ge _ _) Hm).
  - apply body_emits; [apply write_async_emits|]. intros El Ep Ef. destruct (Hf El Ep). apply no_padding; auto.
Qed.

Section strings.
Context `{rs : EncodingRs}.

(** Text in the encoding of its column is sent as it is. *)
Definition text_in_place (ctx : TdsTypeContext) (s : SqlString) : Prop :=
  let t := ctx_tds_type ctx in
  narrow_string_byte_limit s = None /\
  if one_of t [DT_NVarChar; DT_NChar; DT_NText] then
    encoding_type s = Utf16 /\ Nat.even (length (sql_bytes s)) = true /\
    (ctx_is_plp ctx = false -> Z.of_nat (length (sql_bytes s) / 2) <= ctx_max_size ctx) /\
    fits ctx (t =? NTEXT) (length (sql_bytes s) / 2)
  else
    one_of t [DT_BigVarChar; DT_BigChar; DT_Text] = true /\
    (ctx_is_plp ctx = false -> Z.of_nat (length (sql_bytes s)) <= ctx_max_size ctx) /\
    fits ctx (t =? TEXT) (length (sql_bytes s)) /\
    match encoding_type s with
    | LcidBased _ => True
    | Utf8 => is_Some (from_utf8 (sql_bytes s)) /\ (utf8 <$> ctx_collation ctx) = Some true
    | _ => False
    end.

Definition text_is_long (ctx : TdsTypeContext) : bool := one_of (ctx_tds_type ctx) [DT_NText; DT_Text].

Lemma narrow_bytes_in_place s c :
  match encoding_type s with
  | LcidBased _ => True
  | Utf8 => is_Some (from_utf8 (sql_bytes s)) /\ (utf8 <$> c) = Some true
  | _ => False
  end -> narrow_string_wire_bytes s c = Ok (sql_bytes s, false).
Proof.
  unfold narrow_string_wire_bytes, as_raw_wire_bytes. destruct (encoding_type s); try done.
  intros [[t ->] Hc]. destruct c as [c|]; [|done]. cbn in Hc. by injection Hc as ->.
Qed.

Lemma string_emits s ctx fit :
  text_in_place ctx s -> emits (serialize_string s ctx None fit) (body_bytes ctx (text_is_long ctx) (sql_bytes s)) tt.
Proof.
  intros [Hlim Hin]. unfold serialize_string, effective_narrow_string_byte_limit, text_is_long, one_of in *.
  cbn [existsb] in *. rewrite Hlim. change (TdsDataType_u8 DT_NVarChar) with NVARCHAR in *.
  change (TdsDataType_u8 DT_NChar) with NCHAR in *. change (TdsDataType_u8 DT_NText) with NTEXT in *.
  change (TdsDataType_u8 DT_BigVarChar) with VARCHAR in *. change (TdsDataType_u8 DT_BigChar) with CHAR in *.
  change (TdsDataType_u8 DT_Text) with TEXT in *. rewrite !(Z.eqb_sym _ (ctx_tds_type ctx)) in *.
  rewrite !orb_false_r in *. remember (ctx_tds_type ctx) as t eqn:Et.
  assert (Hne : NTEXT <> TEXT /\ NVARCHAR <> NTEXT /\ NVARCHAR <> TEXT /\ NCHAR <> NTEXT /\ NCHAR <> TEXT) by done.
  destruct (t =? NTEXT) eqn:E1; [|destruct ((t =? NVARCHAR) || (t =? NCHAR)) eqn:E2].
  - apply Z.eqb_eq in E1. subst t. rewrite E1 in *. cbn [Z.eqb orb NTEXT NVARCHAR NCHAR] in *.
    destruct Hin as (He & Hev & Hsz & Hf). unfold as_utf16_bytes. rewrite He.
    pose proof (wide_string_emits (to_utf8_string s) (sql_bytes s) ctx Hev Hsz) as H. rewrite E1 in H. by apply H.
  - rewrite orb_assoc, E2 in Hin. cbn [orb] in *. destruct Hin as (He & Hev & Hsz & Hf). unfold as_utf16_bytes. rewrite He.
    pose proof (wide_string_emits (to_utf8_string s) (sql_bytes s) ctx Hev Hsz) as H.
    rewrite <- Et, E1 in H. replace (t =? TEXT) with false by lia. by apply H.
  - rewrite orb_assoc, E2 in Hin. cbn [orb] in *. destruct Hin as (Ht & Hsz & Hf & Hn).
    rewrite orb_assoc in Ht. rewrite Ht. eapply emits_lift_ok; [by apply narrow_bytes_in_place|].
    eapply emits_last; [|apply emits_ret]. rewrite Et. apply char_varchar_emits; [|by rewrite <- Et].
    unfold narrow_string_maximum. destruct (ctx_is_plp ctx) eqn:Ep; auto.
Qed.
End strings.

(** ** Vectors *)

Section vectors.
Context `{narrow : HalfCrateNarrow}.

Definition vector_elements (d : VectorData) : bytes :=
  match d with
  | VecFloat32 vs => concat (le_bytes 4 <$> vs)
  | VecFloat16 vs => concat ((fun f => le_bytes 2 (f32_to_f16 f)) <$> vs)
  end.

Definition vector_header (v : SqlVector) : bytes :=
  byte_of 0xA9 :: byte_of 0x01 :: le_bytes 2 (dimension_count v) ++
  [byte_of (VectorBaseType_u8 (base_type v)); byte_of 0; byte_of 0; byte_of 0].

Definition vector_consistent (v : SqlVector) : Prop :=
  match base_type v, vec_data v with Float32, VecFloat32 _ | Float16, VecFloat16 _ => True | _, _ => False end.

Lemma vector_header_emits v : emits (encode_vector_header (dimension_count v) (base_type v)) (vector_header v) tt.
Proof.
  unfold vector_header. change (?a :: ?b :: ?c ++ [?d; ?e; ?f; ?g]) with ([a] ++ [b] ++ c ++ [d] ++ [e] ++ [f] ++ [g]).
  unfold encode_vector_header. emits_run.
Qed.

Lemma vector_emits v :
  vector_consistent v -> total_size v <= VECTOR_MAX_SIZE ->
  emits (serialize_vector v) (le_bytes 2 (total_size v) ++ vector_header v ++ vector_elements (vec_data v)) tt.
Proof.
  intros Hc Ht. unfold serialize_vector. replace (match base_type v with Float32 => _ | Float16 => _ end) with true.
  2: { unfold vector_consistent in Hc. by destruct (base_type v), (vec_data v). }
  rewrite (proj2 (Z.ltb_ge _ _)) by done. cbn [negb].
  eapply emits_bind; [apply write_u16_len_emits|]. eapply emits_bind; [apply vector_header_emits|].
  destruct (vec_data v); cbn [vector_elements]; apply emits_all_of; intros f.
  - rewrite <- le_bytes_as_i32. apply write_i32_emits.
  - apply write_u16_emits.
Qed.
End vectors.

(** ** NULL *)

(** The null marker of each type. *)
Definition null_bytes (t : TdsDataType) (plp : bool) : option bytes :=
  match t with
  | DT_Text | DT_NText | DT_Image | DT_IntN | DT_FltN | DT_BitN | DT_MoneyN | DT_DateTimeN | DT_DecimalN | DT_NumericN
  | DT_Guid | DT_DateN | DT_TimeN | DT_DateTime2N | DT_DateTimeOffsetN => Some [byte_of 0]
  | DT_NVarChar | DT_NChar | DT_BigVarChar | DT_BigChar | DT_BigVarBinary | DT_BigBinary | DT_Vector | DT_Xml | DT_Json
  | DT_Udt => Some (if plp then encode_plp_null else le_bytes 2 0xFFFF)
  | _ => None
  end.

Lemma null_emits ctx t bs :
  ctx_tds_type ctx = TdsDataType_u8 t -> null_bytes t (ctx_is_plp ctx) = Some bs -> emits (serialize_null ctx) bs tt.
Proof.
  intros Ht Hb. unfold serialize_null, is_fixed_type. rewrite Ht.
  destruct t; cbn [null_bytes] in Hb; simplify_eq;
    cbn [existsb TdsDataType_u8 Z.eqb Pos.eqb Z.leb Z.compare Pos.compare Pos.compare_cont orb andb];
    match goal with
    | |- emits (write_byte_async _) _ _ => exact (write_byte_emits 0)
    | |- _ => destruct (ctx_is_plp ctx); [exact (write_u64_emits PLP_NULL)|exact (write_u16_emits VARNULL)]
    end.
Qed.
