(* ===== verification/ValueRoundTrip.v ===== *)
(** * Values written are the values read

    A value that a column can hold, serialized with the context of that column, is what [decode] makes
    of the bytes; for plain columns and for sql_variant ones. *)

From stdpp Require Import strings.
From S2P Require Import Prelude Core Unicode PacketReader ReaderLaws Tokens DataTypes ColMetadata Values Plp PlpLaws.
From S2P Require Import Decoder Decimal NarrowText.
From S2P Require Import ReadBuffer Transport PacketWriter Writer WriterText ValueSerializer ValueWriting.

(** ** Values in range *)

(** A time of day in whole units of its scale. *)
Definition time_ok (t : SqlTime) : Prop :=
  scale_ok t /\ 0 <= time_nanoseconds t < 864000000000 /\ time_nanoseconds t mod 10 ^ (7 - time_scale t) = 0.

Definition datetime2_ok (d : SqlDateTime2) : Prop := time_ok (dt2_time d) /\ in_unsigned 24 (dt2_days d).

(** A decimal of its precision. *)
Definition decimal_in_range (d : DecimalParts) : Prop :=
  decimal_ok d /\ 1 <= dec_precision d <= 38 /\ dec_scale d <= dec_precision d /\ magnitude d < 10 ^ dec_precision d.

Lemma scale_cases s : 0 <= s <= 7 -> s = 0 \/ s = 1 \/ s = 2 \/ s = 3 \/ s = 4 \/ s = 5 \/ s = 6 \/ s = 7.
Proof. lia. Qed.

Lemma mul_u64_ok a b : a * b < 2 ^ 64 -> mul_u64 a b = Ok (a * b).
Proof. intros. unfold mul_u64. by rewrite (proj2 (Z.ltb_lt _ _)). Qed.

Lemma unscaled x u : 0 < u -> 0 <= x < 864000000000 -> x mod u = 0 -> mul_u64 (x / u) u = Ok x /\ 0 <= x / u <= x.
Proof.
  intros Hu Hx Hm. assert (x / u * u = x) as E by (rewrite (Z.div_mod x u) at 2; lia).
  rewrite mul_u64_ok by (rewrite E; lia). rewrite E. split; [done|].
  split; [apply Z.div_pos; lia|]. apply Z.div_le_upper_bound; nia.
Qed.

(** Evaluates the powers of two of the goal. *)
Ltac closed_pow := repeat match goal with |- context [2 ^ ?e] => let v := eval vm_compute in (2 ^ e) in change (2 ^ e) with v end.

(** The scaled time fits its bytes, and scaling it back gives the time. *)
Lemma scaled_time_spec t : time_ok t ->
  in_unsigned (8 * Z.of_nat (time_length t)) (scaled_time t) /\
  scale_time_value (scaled_time t) (time_scale t) = Ok (time_nanoseconds t).
Proof.
  intros (Hs & Hr & Hm). destruct t as [x s]. unfold scale_ok, time_length, scaled_time in *. cbn [time_nanoseconds time_scale] in *.
  unfold in_unsigned.
  destruct (scale_cases s Hs) as [->|[->|[->|[->|[->|[->|[->| ->]]]]]]];
    [destruct (unscaled x 10000000) as [E ?]|destruct (unscaled x 1000000) as [E ?]|destruct (unscaled x 100000) as [E ?]
    |destruct (unscaled x 10000) as [E ?]|destruct (unscaled x 1000) as [E ?]|destruct (unscaled x 100) as [E ?]
    |destruct (unscaled x 10) as [E ?]|]; try lia; try exact Hm; cbn -[Z.div]; rewrite ?E; (split; [|done]);
    clear E Hm || clear Hm; closed_pow; Z.to_euclidean_division_equations; lia.
Qed.

Lemma decimal_magnitude_le n m : (n <= 16)%nat -> in_unsigned (8 * Z.of_nat n) m -> decimal_magnitude (le_bytes n m) = m.
Proof.
  intros Hn Hm. unfold decimal_magnitude. rewrite length_le_bytes. change (Z.to_nat DECIMAL_MAGNITUDE_BYTES) with 16%nat.
  replace (le_bytes n m ++ replicate (16 - n) (byte_of 0)) with (le_bytes (n + (16 - n)) m).
  - rewrite of_le_unsigned; [done|]. split; [apply Hm|]. eapply Z.lt_le_trans; [apply Hm|]. apply Z.pow_le_mono_r; lia.
  - rewrite le_bytes_add. f_equal. rewrite Z.shiftr_div_pow2, Z.div_small by (lia || apply Hm).
    generalize (16 - n)%nat. intros k. induction k as [|k IH]; [done|]. rewrite le_bytes_S. cbn [replicate]. f_equal. done.
Qed.

(** The bytes of a precision hold its decimals. *)
Lemma decimal_width_fits p m : 1 <= p <= 38 -> 0 <= m < 10 ^ p ->
  exists n, decimal_value_bytes p = Some n /\ in_unsigned (8 * Z.of_nat n) m /\ (4 <= n <= 16)%nat.
Proof.
  intros Hp Hm. unfold decimal_value_bytes.
  assert (forall b k, p <= b -> 10 ^ b <= 2 ^ k -> in_unsigned k m) as H.
  { intros b k Hb Hk. split; [lia|]. eapply Z.lt_le_trans; [apply Hm|]. etrans; [|exact Hk]. apply Z.pow_le_mono_r; lia. }
  destruct ((1 <=? p) && (p <=? 9)) eqn:E1; [exists 4%nat; split_and!; [done|apply (H 9); [lia|by vm_compute]|lia..]|].
  destruct ((10 <=? p) && (p <=? 19)) eqn:E2; [exists 8%nat; split_and!; [done|apply (H 19); [lia|by vm_compute]|lia..]|].
  destruct ((20 <=? p) && (p <=? 28)) eqn:E3; [exists 12%nat; split_and!; [done|apply (H 28); [lia|by vm_compute]|lia..]|].
  destruct ((29 <=? p) && (p <=? 38)) eqn:E4; [exists 16%nat; split_and!; [done|apply (H 38); [lia|by vm_compute]|lia..]|lia].
Qed.

(** ** Reading the parts *)

Section parts.
Context {R : Type} {delivers : R -> bytes -> Prop} `{laws : PacketReaderLaws R delivers} `{half : HalfCrate}.

(** A value behind its length. *)
Lemma reads_prefixed {A} (k : Z -> M R A) bs a :
  (length bs < 256)%nat -> reads delivers (k (Z.of_nat (length bs))) bs a ->
  reads delivers (bind sync_byte k) (prefixed true bs) a.
Proof. intros Hl Hk. apply (reads_bind _ _ [_] bs (Z.of_nat (length bs))); [apply reads_sync_byte; lia|done]. Qed.

Lemma reads_prefixed_at {A} n (k : Z -> M R A) bs a :
  length bs = n -> (n < 256)%nat -> reads delivers (k (Z.of_nat n)) bs a ->
  reads delivers (bind sync_byte k) (prefixed true bs) a.
Proof. intros <-. apply reads_prefixed. Qed.

Lemma reads_time t : time_ok t -> reads delivers (read_time (Z.of_nat (time_length t)) (time_scale t)) (time_bytes t) t.
Proof.
  intros Ht. destruct (scaled_time_spec t Ht) as [Hr Hs]. destruct Ht as [Hsc _].
  assert (forall (m : M R Z), reads delivers m (time_bytes t) (scaled_time t) ->
    reads delivers (bind m (fun v => ticks <- lift (scale_time_value v (time_scale t)) ;;
      ret {| time_nanoseconds := ticks; time_scale := time_scale t |})) (time_bytes t) t) as H.
  { intros m Hm. rewrite <- (app_nil_r (time_bytes t)). eapply reads_bind; [done|].
    eapply reads_lift_ok; [done|]. destruct t. apply reads_ret. }
  unfold read_time. apply H. unfold time_bytes in *. unfold time_length in *.
  destruct (time_length_cases (time_scale t)) as [[_ E]|[[_ E]|[[_ E]|[? _]]]]; [| | |done]; rewrite E in *; cbn in Hr |- *.
  - by apply reads_sync_uint24.
  - by apply reads_sync_uint32.
  - by apply reads_sync_uint40.
Qed.

Lemma reads_date d : in_unsigned 24 (days_since_01_01_0001 d) -> reads delivers read_date (le_bytes 3 (days_since_01_01_0001 d)) d.
Proof. intros H. destruct d. apply (reads_bind_ret _ SqlDate_unchecked_create). by apply reads_sync_uint24. Qed.

Lemma reads_datetime2 d :
  datetime2_ok d ->
  reads delivers (read_datetime2 (Z.of_nat (length (datetime2_bytes d))) (time_scale (dt2_time d))) (datetime2_bytes d) (DateTime2 d).
Proof.
  intros [Ht Hd]. unfold read_datetime2. rewrite length_datetime2_bytes. z_if. unfold datetime2_bytes.
  replace (Z.of_nat _ - 3) with (Z.of_nat (time_length (dt2_time d))) by lia.
  eapply reads_bind; [by apply reads_time|]. rewrite <- (app_nil_r (le_bytes _ _)). destruct d as [days time].
  eapply reads_bind; [by apply (reads_date {| days_since_01_01_0001 := days |})|]. apply reads_ret.
Qed.

Lemma reads_datetimeoffset d (bs := datetime2_bytes (dto_datetime2 d) ++ le_bytes 2 (dto_offset d)) :
  datetime2_ok (dto_datetime2 d) -> in_signed 16 (dto_offset d) ->
  reads delivers (read_datetime_offset (Z.of_nat (length bs)) (time_scale (dt2_time (dto_datetime2 d)))) bs (DateTimeOffset d).
Proof.
  intros Hd Ho. unfold read_datetime_offset. unfold bs at 1 2. rewrite length_app, length_le_bytes. z_if.
  replace (Z.of_nat _ - 2) with (Z.of_nat (length (datetime2_bytes (dto_datetime2 d)))) by lia.
  eapply reads_bind; [by apply reads_datetime2|]. cbn beta iota. rewrite <- (app_nil_r (le_bytes _ _)).
  eapply reads_bind; [by apply reads_sync_int16|]. destruct d. apply reads_ret.
Qed.

Lemma reads_decimal_data d n p s :
  decimal_ok d -> dec_precision d = p -> dec_scale d = s -> decimal_metadata_is_valid p s = true ->
  (4 <= n <= 16)%nat -> in_unsigned (8 * Z.of_nat n) (magnitude d) ->
  reads delivers (read_decimal_data (Z.of_nat (length (decimal_bytes n d))) p s) (decimal_bytes n d) (Some d).
Proof.
  intros Hok <- <- Hv Hn Hm. unfold read_decimal_data, decimal_bytes. rewrite Hv. cbn [length negb]. rewrite length_le_bytes.
  z_if. apply (reads_bind _ _ [_] (le_bytes n (magnitude d)) (if is_positive d then 1 else 0)).
  { apply reads_sync_byte. destruct (is_positive d); lia. }
  replace (Z.of_nat (S n) - 1) with (Z.of_nat n) by lia. unfold MAX_DECIMAL_INT_PARTS.
  rewrite (proj2 (Z.ltb_ge _ _)) by (Z.to_euclidean_division_equations; lia).
  rewrite <- (app_nil_r (le_bytes _ _)). eapply reads_bind; [apply reads_bytes; rewrite length_le_bytes; lia|].
  rewrite decimal_magnitude_le by (lia || done).
  replace ((if is_positive d then 1 else 0) =? 1) with (is_positive d) by (by destruct (is_positive d)).
  rewrite new_magnitude by done. apply reads_ret.
Qed.
End parts.

(** ** What a column holds *)

(** The context was made for the column. *)
Record describes (ctx : TdsTypeContext) (m : ColumnMetadata) : Prop := {
  de_type : ctx_tds_type ctx = TdsDataType_u8 (data_type m);
  de_plp : ctx_is_plp ctx = is_plp m;
  de_length : ctx_is_fixed_length ctx = false;
}.

(** The width of a precision that is at least the value's holds it. *)
Lemma decimal_width_of d p :
  decimal_in_range d -> dec_precision d <= p <= 38 ->
  exists n, decimal_value_bytes p = Some n /\ in_unsigned (8 * Z.of_nat n) (magnitude d) /\ (4 <= n <= 16)%nat.
Proof.
  intros (Hok & Hp & _ & Hm) Hle. pose proof (magnitude_range d Hok) as [H0 _].
  apply decimal_width_fits; [lia|]. split; [done|]. eapply Z.lt_le_trans; [apply Hm|]. apply Z.pow_le_mono_r; lia.
Qed.

(** What the type asks of the metadata. *)
Definition column_ok (m : ColumnMetadata) : Prop :=
  match data_type m with
  | DT_DecimalN | DT_NumericN =>
      match type_info_variant (type_info m) with
      | VarLenPrecisionScale _ _ precision scale => decimal_metadata_is_valid precision scale = true
      | _ => False
      end
  | DT_NVarChar | DT_NChar | DT_BigVarChar | DT_BigChar => exists e, get_encoding_type m = Ok e
  | DT_NText | DT_Text => is_plp m = false /\ exists e, get_encoding_type m = Ok e
  | DT_BigBinary | DT_Image | DT_Vector => is_plp m = false
  | DT_Xml | DT_Json | DT_Udt => is_plp m = true
  | _ => True
  end.

(** The value is sent in the width of a precision that is its own or larger. *)
Definition column_decimal (ctx : TdsTypeContext) (m : ColumnMetadata) (d : DecimalParts) : Prop :=
  decimal_in_range d /\ (exists p, ctx_precision ctx = Some p /\ dec_precision d <= p <= 38) /\
  get_precision m = Some (dec_precision d) /\ get_scale m = Some (dec_scale d).

(** Sizes within the bounds of the reader. *)
Definition body_readable (plp long : bool) (n : nat) : Prop :=
  if long then Z.of_nat n <= MAX_ALLOC_SIZE
  else if plp then Z.of_nat n <= MAX_PLP_CHUNK_SIZE
  else Z.of_nat n < 0xFFFF.

Section holds.
Context `{rs : EncodingRs} `{narrow : HalfCrateNarrow} `{half : HalfCrate}.

(** Half-precision elements are exact in half precision. *)
Definition elements_ok (d : VectorData) : Prop :=
  match d with
  | VecFloat32 vs => Forall (in_unsigned 32) vs
  | VecFloat16 vs => Forall (fun f => in_unsigned 16 (f32_to_f16 f) /\ f16_to_f32 (f32_to_f16 f) = f) vs
  end.

(** What a column gets of a value: the serializer puts a byte order mark before a document without one. *)
Definition marked (v : ColumnValues) : ColumnValues :=
  match v with
  | Xml x => if has_bom x then v else Xml {| xml_bytes := byte_of 0xFF :: byte_of 0xFE :: xml_bytes x |}
  | _ => v
  end.

(** The values the round trip is stated for, in the form their column stores.  Left out are a FLOAT in
    a nullable column (it may be cut at the end of a packet), JSON (sent as it is sent to an NVARCHAR(max)
    column, in UTF-16), and text in another encoding than its column's (announced with the wrong length). *)
Definition column_holds (ctx : TdsTypeContext) (m : ColumnMetadata) (v : ColumnValues) : Prop :=
  let t := data_type m in
  match v with
  | Null => is_Some (null_bytes t (is_plp m))
  | Bit _ => t = DT_Bit \/ t = DT_BitN
  | TinyInt z => (t = DT_Int1 \/ t = DT_IntN) /\ in_unsigned 8 z
  | SmallInt z => (t = DT_Int2 \/ t = DT_IntN) /\ in_signed 16 z
  | Int z => (t = DT_Int4 \/ t = DT_IntN) /\ in_signed 32 z
  | BigInt z => (t = DT_Int8 \/ t = DT_IntN) /\ in_signed 64 z
  | Real bits => (t = DT_Flt4 \/ t = DT_FltN) /\ in_unsigned 32 bits
  | Float bits => t = DT_Flt8 /\ in_unsigned 64 bits
  | Decimal d => t = DT_DecimalN /\ column_decimal ctx m d
  | Numeric d => t = DT_NumericN /\ column_decimal ctx m d
  | SmallMoney v => (t = DT_Money4 \/ t = DT_MoneyN) /\ in_signed 32 (int_val v)
  | Money v => (t = DT_Money \/ t = DT_MoneyN) /\ in_signed 32 (lsb_part v) /\ in_signed 32 (msb_part v)
  | Date d => t = DT_DateN /\ in_unsigned 24 (days_since_01_01_0001 d)
  | Time d => t = DT_TimeN /\ time_ok d /\ get_scale m = Some (time_scale d)
  | DateTime d => (t = DT_DateTime \/ t = DT_DateTimeN) /\ in_signed 32 (dt_days d) /\ in_unsigned 32 (dt_time d)
  | SmallDateTime d => (t = DT_DateTim4 \/ t = DT_DateTimeN) /\ in_unsigned 16 (sdt_days d) /\ in_unsigned 16 (sdt_time d)
  | DateTime2 d => t = DT_DateTime2N /\ datetime2_ok d /\ get_scale m = Some (time_scale (dt2_time d))
  | DateTimeOffset d =>
      t = DT_DateTimeOffsetN /\ datetime2_ok (dto_datetime2 d) /\ in_signed 16 (dto_offset d) /\
      get_scale m = Some (time_scale (dt2_time (dto_datetime2 d)))
  | Uuid bs => t = DT_Guid /\ length bs = 16%nat
  | CBytes bs =>
      (t = DT_BigBinary \/ t = DT_BigVarBinary \/ t = DT_Image) /\
      fits ctx (bool_decide (t = DT_Image)) (length bs) /\ body_readable (is_plp m) (bool_decide (t = DT_Image)) (length bs)
  | CString s =>
      text_in_place ctx s /\ get_encoding_type m = Ok (encoding_type s) /\
      body_readable (is_plp m) (is_long_len_type t) (length (sql_bytes s))
  | Xml x => t = DT_Xml /\ has_bom x = true /\ body_readable true false (length (xml_bytes x))
  | Vector v =>
      t = DT_Vector /\ vector_consistent v /\ elements_ok (vec_data v) /\ validate_dimensions v = Ok tt /\
      ti_length (type_info m) = total_size v /\ get_scale m = Some (VectorBaseType_u8 (base_type v)) /\
      get_precision m = None
  | Json _ => False
  end.
End holds.

(** The types written without a length. *)
Definition fixed_form (t : TdsDataType) : bool :=
  match t with
  | DT_Int1 | DT_Bit | DT_Int2 | DT_Decimal | DT_Int4 | DT_DateTim4 | DT_Flt4 | DT_Money | DT_DateTime | DT_Flt8 | DT_Numeric
  | DT_Money4 | DT_Int8 => true
  | _ => false
  end.

Lemma is_fixed_type_of ctx t : ctx_tds_type ctx = TdsDataType_u8 t -> is_fixed_type ctx = fixed_form t.
Proof. unfold is_fixed_type. intros ->. by destruct t. Qed.

(** ** Reading a column *)

Section columns.
Context {R : Type} {delivers : R -> bytes -> Prop} `{laws : PacketReaderLaws R delivers} `{half : HalfCrate}.
Context `{rs : EncodingRs} `{narrow : HalfCrateNarrow}.
Context (fuel : nat) (ctx : TdsTypeContext) (m : ColumnMetadata).

Lemma reads_unprefixed {A B} (op : M R A) (f : A -> B) bs a :
  reads delivers op bs a -> reads delivers (x <- op ;; ret (f x)) (prefixed false bs) (f a).
Proof. apply reads_bind_ret. Qed.

Lemma decimal_column d :
  column_ok m -> (data_type m = DT_DecimalN \/ data_type m = DT_NumericN) -> column_decimal ctx m d ->
  exists n, decimal_width ctx = n /\
    reads delivers (read_decimal m) (prefixed true (decimal_bytes n d)) (Some d).
Proof.
  intros Hc Ht ((Hok & Hp & Hs & Hm) & (cp & Ecp & Hcp) & Epr & Esc).
  destruct (decimal_width_of d cp) as (n & En & Hfit & Hn); [done|done|].
  exists n. unfold decimal_width. rewrite Ecp. cbn [default from_option id]. rewrite En. split; [done|].
  unfold column_ok, get_precision, get_scale in *.
  assert (decimal_metadata_is_valid (dec_precision d) (dec_scale d) = true) as Hv.
  { unfold decimal_metadata_is_valid, MAX_DECIMAL_PRECISION. lia. }
  unfold read_decimal. destruct (type_info_variant (type_info m)) as [ft|? ? ?|vt vl p s|? ?|vt vl|? ? ? ? ?] eqn:Ev; try done.
  injection Epr as ->. injection Esc as ->. apply reads_prefixed.
  - unfold decimal_bytes. cbn [length]. rewrite length_le_bytes. lia.
  - by apply reads_decimal_data.
Qed.

Lemma reads_money8 v :
  in_signed 32 (lsb_part v) -> in_signed 32 (msb_part v) ->
  reads delivers read_money8 (le_bytes 4 (msb_part v) ++ le_bytes 4 (lsb_part v)) v.
Proof.
  intros. destruct v as [lsb msb]. eapply reads_bind; [by apply reads_sync_int32|].
  by apply (reads_bind_ret _ (fun l => {| lsb_part := l; msb_part := msb |})), reads_sync_int32.
Qed.

Lemma reads_money4 v : in_signed 32 (int_val v) -> reads delivers read_money4 (le_bytes 4 (int_val v)) v.
Proof. intros. destruct v. by apply (reads_bind_ret _ Build_SqlSmallMoney), reads_sync_int32. Qed.

Lemma reads_datetime d :
  in_signed 32 (dt_days d) -> in_unsigned 32 (dt_time d) ->
  reads delivers read_datetime (le_bytes 4 (dt_days d) ++ le_bytes 4 (dt_time d)) d.
Proof.
  intros. destruct d as [days ticks]. eapply reads_bind; [by apply reads_sync_int32|].
  by apply (reads_bind_ret _ (Build_SqlDateTime days)), reads_sync_uint32.
Qed.

Lemma reads_small_datetime d :
  in_unsigned 16 (sdt_days d) -> in_unsigned 16 (sdt_time d) ->
  reads delivers read_small_datetime (le_bytes 2 (sdt_days d) ++ le_bytes 2 (sdt_time d)) d.
Proof.
  intros. destruct d as [days minutes]. eapply reads_bind; [by apply reads_sync_uint16|].
  by apply (reads_bind_ret _ (Build_SqlSmallDateTime days)), reads_sync_uint16.
Qed.

Lemma reads_bit b : reads delivers (value <- sync_byte ;; ret (Bit (value =? 1))) [byte_of (if b : bool then 1 else 0)] (Bit b).
Proof.
  eapply reads_eq; [apply (reads_bind_ret _ (fun v => Bit (v =? 1))), (reads_sync_byte (if b then 1 else 0))|done|].
  - destruct b; lia.
  - by destruct b.
Qed.

Lemma reads_guid bs : length bs = 16%nat -> reads delivers (read_guid (Z.of_nat (length bs))) bs (Uuid bs).
Proof. intros Hl. rewrite Hl. by apply (reads_bind_ret _ Uuid), reads_bytes. Qed.

Lemma reads_scaled {A} what (k : Z -> M R A) s bs v :
  get_scale m = Some s -> reads delivers (k s) bs v -> reads delivers (bind (scale_of m what) k) bs v.
Proof. unfold scale_of. intros -> H. exact H. Qed.

Lemma reads_scaled_column what (k : Z -> Z -> M R ColumnValues) s bs v :
  get_scale m = Some s -> (0 < length bs < 256)%nat -> reads delivers (k (Z.of_nat (length bs)) s) bs v ->
  reads delivers (length <- sync_byte ;;
                  match length with 0 => ret Null | _ => scale <- scale_of m what ;; k length scale end) (prefixed true bs) v.
Proof.
  intros Hs Hl Hk. apply reads_prefixed; [lia|]. destruct (Z.of_nat (length bs)) eqn:E; [lia| |lia].
  by apply (reads_scaled _ _ _ _ _ Hs).
Qed.

Lemma time_length_pos t : scale_ok t -> (0 < time_length t)%nat.
Proof.
  unfold scale_ok, time_length. intros.
  destruct (time_length_cases (time_scale t)) as [[_ ->]|[[_ ->]|[[_ ->]|[? _]]]]; cbn; lia.
Qed.

(** One of the scalars, from its column. *)
Lemma reads_scalar v bs :
  describes ctx m -> column_ok m -> column_holds ctx m v -> scalar_bytes ctx v = Some bs ->
  reads delivers (decode fuel m) (prefixed (has_length_byte ctx v) bs) v.
Proof.
  intros [Hty Hplp Hlen] Hok Hh Hb. unfold decode, decode_with.
  destruct v; cbn [scalar_bytes] in Hb; simplify_eq; cbn [column_holds has_length_byte] in *;
    rewrite ?(is_fixed_type_of ctx _ Hty), ?Hlen.
  - destruct Hh as [[->| ->] Hz]; [by apply reads_unprefixed, reads_sync_byte|].
    apply (reads_prefixed_at 1); [done|lia|]. by apply (reads_bind_ret _ TinyInt), reads_sync_byte.
  - destruct Hh as [[->| ->] Hz]; [by apply reads_unprefixed, reads_sync_int16|].
    apply (reads_prefixed_at 2); [done|lia|]. by apply (reads_bind_ret _ SmallInt), reads_sync_int16.
  - destruct Hh as [[->| ->] Hz]; [by apply reads_unprefixed, reads_sync_int32|].
    apply (reads_prefixed_at 4); [done|lia|]. by apply (reads_bind_ret _ Int), reads_sync_int32.
  - destruct Hh as [[->| ->] Hz]; [by apply reads_unprefixed, reads_sync_int64|].
    apply (reads_prefixed_at 8); [done|lia|]. by apply (reads_bind_ret _ BigInt), reads_sync_int64.
  - destruct Hh as [[->| ->] Hz]; [by apply reads_unprefixed, reads_sync_float32|].
    apply (reads_prefixed_at 4); [done|lia|]. by apply (reads_bind_ret _ Real), reads_sync_float32.
  - destruct Hh as [-> Hz]. by apply reads_unprefixed, reads_sync_float64.
  - destruct Hh as [Ht Hd]. destruct (decimal_column _ Hok (or_introl Ht) Hd) as (n & -> & Hr).
    rewrite Ht. by apply (reads_bind_ret _ (of_option Decimal)) in Hr.
  - destruct Hh as [Ht Hd]. destruct (decimal_column _ Hok (or_intror Ht) Hd) as (n & -> & Hr).
    rewrite Ht. by apply (reads_bind_ret _ (of_option Numeric)) in Hr.
  - destruct Hh as [-> | ->]; [apply reads_bit|]. apply (reads_prefixed_at 1); [done|lia|]. apply reads_bit.
  - destruct Hh as [[->| ->] [Hd Ht]]; [by apply reads_unprefixed, reads_datetime|].
    apply (reads_prefixed_at 8); [done|lia|]. by apply (reads_bind_ret _ DateTime), reads_datetime.
  - destruct Hh as [-> Hd]. apply (reads_prefixed_at 3); [done|lia|]. by apply (reads_bind_ret _ Date), reads_date.
  - destruct Hh as (-> & Ht & Hs). pose proof (time_length_small v). pose proof (time_length_pos v (proj1 Ht)).
    apply (reads_scaled_column _ (fun n s => t <- read_time n s ;; ret (Time t)) _ _ _ Hs);
      [rewrite length_time_bytes; lia|]. rewrite length_time_bytes. by apply (reads_bind_ret _ Time), reads_time.
  - destruct Hh as (-> & Ht & Hs). pose proof (time_length_small (dt2_time v)).
    apply (reads_scaled_column _ read_datetime2 _ _ _ Hs); [rewrite length_datetime2_bytes; lia|by apply reads_datetime2].
  - destruct Hh as (-> & Ht & Ho & Hs). pose proof (time_length_small (dt2_time (dto_datetime2 v))).
    apply (reads_scaled_column _ read_datetime_offset _ _ _ Hs);
      [rewrite length_app, length_datetime2_bytes, length_le_bytes; lia|by apply reads_datetimeoffset].
  - destruct Hh as [[->| ->] [Hd Ht]].
    { destruct v as [days minutes]. eapply reads_bind; [by apply reads_sync_uint16|].
      by apply (reads_bind_ret _ (fun t => SmallDateTime (Build_SqlSmallDateTime days t))), reads_sync_uint16. }
    apply (reads_prefixed_at 4); [done|lia|]. by apply (reads_bind_ret _ SmallDateTime), reads_small_datetime.
  - destruct Hh as [[->| ->] Hv]; [by apply reads_unprefixed, reads_money4|].
    apply (reads_prefixed_at 4); [done|lia|]. by apply (reads_bind_ret _ SmallMoney), reads_money4.
  - destruct Hh as [[->| ->] [Hl Hm]]; [by apply reads_unprefixed, reads_money8|].
    apply (reads_prefixed_at 8); [done|lia|]. by apply (reads_bind_ret _ Money), reads_money8.
  - destruct Hh as [-> Hl]. apply reads_prefixed; [lia|by apply reads_guid].
Qed.

(** *** Values of variable size *)

Lemma reads_one_chunk bs :
  Z.of_nat (length bs) <= MAX_PLP_CHUNK_SIZE -> (2 <= fuel)%nat ->
  reads delivers (read_plp_bytes fuel) (encode_plp false (one_chunk bs)) (Some bs).
Proof.
  intros Hl Hf. eapply reads_eq; [apply reads_plp| |]; [| |done|by rewrite concat_one_chunk].
  - split.
    + destruct bs; [constructor|]. constructor; [|constructor]. split; [cbn; lia|done].
    + unfold plp_size. rewrite concat_one_chunk. unfold MAX_PLP_CHUNK_SIZE, MAX_PLP_SIZE in *. lia.
  - destruct bs; cbn; lia.
Qed.

(** What is behind a text pointer. *)
Lemma reads_long {A} (k : Z -> M R A) n bs a :
  Z.of_nat n <= MAX_ALLOC_SIZE -> reads delivers (k (Z.of_nat n)) bs a ->
  reads delivers (skip_bytes 16 ;; skip_bytes TIMESTAMP_BYTE_COUNT ;; bind sync_uint32 k)
    (replicate 24 (byte_of 0xFF) ++ le_bytes 4 (Z.of_nat n) ++ bs) a.
Proof.
  intros Hn Hk. change (replicate 24 (byte_of 0xFF)) with (replicate 16 (byte_of 0xFF) ++ replicate 8 (byte_of 0xFF)).
  rewrite <- app_assoc. eapply reads_bind; [by apply reads_skip|]. eapply reads_bind; [by apply reads_skip|].
  eapply reads_bind; [|done]. apply reads_sync_uint32. unfold MAX_ALLOC_SIZE in Hn. split; lia.
Qed.

Lemma reads_all {B} (f : bytes -> B) bs n : n = length bs -> reads delivers (buffer <- read_bytes n ;; ret (f buffer)) bs (f bs).
Proof. intros ->. by apply reads_bind_ret, reads_bytes. Qed.

Lemma reads_image bs :
  Z.of_nat (length bs) <= MAX_ALLOC_SIZE ->
  reads delivers decode_image (long_data_header ++ le_bytes 4 (Z.of_nat (length bs)) ++ bs) (CBytes bs).
Proof.
  intros Hl. unfold decode_image, long_data_header. apply (reads_bind _ _ [_] _ 16); [apply reads_sync_byte; lia|].
  cbn [Z.eqb]. change (Z.to_nat 16) with 16%nat. apply reads_long; [done|]. z_if. apply reads_all. lia.
Qed.

Lemma reads_short_binary what bs :
  Z.of_nat (length bs) < 0xFFFF ->
  reads delivers (decode_short_binary what) (le_bytes 2 (Z.of_nat (length bs)) ++ bs) (CBytes bs).
Proof.
  intros Hl. unfold decode_short_binary. eapply reads_bind; [apply reads_sync_uint16; split; lia|].
  unfold MAX_ALLOC_SIZE. z_if. apply reads_all. lia.
Qed.

Lemma reads_plp_as wrap bs :
  Z.of_nat (length bs) <= MAX_PLP_CHUNK_SIZE -> (2 <= fuel)%nat ->
  reads delivers (decode_plp fuel wrap) (encode_plp false (one_chunk bs)) (wrap bs).
Proof.
  intros Hl Hf. rewrite <- (app_nil_r (encode_plp _ _)). eapply reads_bind; [by apply reads_one_chunk|]. apply reads_ret.
Qed.

Lemma reads_string s :
  (2 <= fuel)%nat -> describes ctx m -> get_encoding_type m = Ok (encoding_type s) ->
  narrow_string_byte_limit s = None -> (is_long_len_type (data_type m) = true -> is_plp m = false) ->
  body_readable (is_plp m) (is_long_len_type (data_type m)) (length (sql_bytes s)) ->
  reads delivers (decode_string fuel m) (body_bytes ctx (is_long_len_type (data_type m)) (sql_bytes s)) (CString s).
Proof.
  intros Hf [_ Hplp Hlen] He Hlim Hlp Hb. unfold decode_string, body_bytes, body_readable in *.
  eapply reads_lift_ok; [done|]. rewrite Hplp, Hlen.
  assert (Hs : forall bs, bs = sql_bytes s -> CString (SqlString_new bs (encoding_type s)) = CString s).
  { intros ? ->. f_equal. destruct s. cbn in *. by subst. }
  destruct (is_long_len_type (data_type m)) eqn:El.
  - rewrite Hlp by done. unfold long_data_header. apply (reads_bind _ _ [_] _ 16); [apply reads_sync_byte; lia|].
    cbn [Z.ltb Z.compare]. change (Z.to_nat 16) with 16%nat. apply reads_long; [done|]. z_if.
    destruct (Z.of_nat (length (sql_bytes s)) =? 0) eqn:E0.
    + assert (sql_bytes s = []) as E by (apply length_zero_iff_nil; lia). rewrite E.
      eapply reads_eq; [apply reads_ret|done|by apply Hs].
    + eapply reads_eq; [apply (reads_all (fun b => CString (SqlString_new b (encoding_type s))))|done|by apply Hs]. lia.
  - destruct (is_plp m); [|eapply reads_bind; [apply reads_sync_uint16; split; lia|]; z_if].
    + rewrite <- (app_nil_r (encode_plp _ _)). eapply reads_bind; [by apply reads_one_chunk|].
      eapply reads_eq; [apply reads_ret|done|by apply Hs].
    + eapply reads_eq; [apply (reads_all (fun b => CString (SqlString_new b (encoding_type s))))|done|by apply Hs]. lia.
Qed.

(** *** NULL and vectors *)

Lemma null_byte {A} (k : Z -> M R A) a : k 0 = ret a -> reads delivers (bind sync_byte k) [byte_of 0] a.
Proof. intros Hk. apply (reads_bind _ _ [_] [] 0); [apply reads_sync_byte; lia|]. rewrite Hk. apply reads_ret. Qed.

Lemma null_short {A} (k : Z -> M R A) a : k 0xFFFF = ret a -> reads delivers (bind sync_uint16 k) (le_bytes 2 0xFFFF) a.
Proof.
  intros Hk. rewrite <- (app_nil_r (le_bytes _ _)). eapply reads_bind; [apply reads_sync_uint16; done|].
  rewrite Hk. apply reads_ret.
Qed.

Lemma null_plp {A} (k : option bytes -> M R A) a :
  k None = ret a -> reads delivers (bind (read_plp_bytes fuel) k) encode_plp_null a.
Proof.
  intros Hk. rewrite <- (app_nil_r encode_plp_null). eapply reads_bind; [apply reads_plp_null|]. rewrite Hk. apply reads_ret.
Qed.

(** The null marker of text. *)
Lemma null_string e :
  get_encoding_type m = Ok e -> (is_long_len_type (data_type m) = true -> is_plp m = false) ->
  reads delivers (decode_string fuel m)
    (if is_long_len_type (data_type m) then [byte_of 0] else if is_plp m then encode_plp_null else le_bytes 2 0xFFFF) Null.
Proof.
  intros He Hl. unfold decode_string. eapply reads_lift_ok; [done|]. destruct (is_long_len_type (data_type m)).
  - rewrite Hl by done. by apply null_byte.
  - destruct (is_plp m); [by apply null_plp|by apply null_short].
Qed.

Lemma null_decimal : 
  column_ok m -> (data_type m = DT_DecimalN \/ data_type m = DT_NumericN) ->
  reads delivers (read_decimal m) [byte_of 0] None.
Proof.
  intros Hok Ht. apply null_byte. unfold column_ok, read_decimal_data in *.
  destruct Ht as [Ht|Ht]; rewrite Ht in Hok; destruct (type_info_variant _); try done; by rewrite Hok.
Qed.

Lemma reads_null bs :
  column_ok m -> null_bytes (data_type m) (is_plp m) = Some bs -> reads delivers (decode fuel m) bs Null.
Proof.
  intros Hok Hb. pose proof null_string as Hs. pose proof null_decimal as Hd. specialize (Hd Hok).
  unfold column_ok, null_bytes, decode, decode_with in *.
  destruct (data_type m); try discriminate Hb; injection Hb as <-; cbn [is_long_len_type] in Hs;
    first [ by apply null_byte
          | by apply (reads_bind_ret _ (of_option Decimal)) in Hd; [|auto]
          | by apply (reads_bind_ret _ (of_option Numeric)) in Hd; [|auto]
          | rewrite Hok; first [by apply null_plp | by apply null_short]
          | destruct (is_plp m); [by apply null_plp|by apply null_short]
          | destruct Hok as [e ?]; by eapply Hs
          | destruct Hok as [? [e ?]]; by eapply Hs ].
Qed.

Lemma chunks_exact_concat n (f : Z -> bytes) vs : forall fuel,
  (0 < n)%nat -> (forall x, length (f x) = n) -> (length vs <= fuel)%nat -> chunks_exact fuel n (concat (f <$> vs)) = f <$> vs.
Proof.
  induction vs as [|x vs IH]; intros fuel' Hn Hl Hf.
  - destruct fuel'; [done|]. cbn. by rewrite decide_False by lia.
  - destruct fuel'; [cbn in Hf; lia|]. cbn [chunks_exact]. rewrite concat_fmap_cons.
    rewrite decide_True by (rewrite length_app, Hl; lia). rewrite take_app_length', drop_app_length' by done.
    cbn [fmap list_fmap]. f_equal. apply IH; [done..|cbn in Hf; lia].
Qed.

Lemma length_concat_fmap n (f : Z -> bytes) vs : (forall x, length (f x) = n) -> length (concat (f <$> vs)) = (n * length vs)%nat.
Proof. intros Hl. induction vs as [|x vs IH]; [cbn; lia|]. rewrite concat_fmap_cons, length_app, IH, Hl. cbn. lia. Qed.

Lemma vector_from_raw v :
  vector_consistent v -> elements_ok (vec_data v) -> validate_dimensions v = Ok tt ->
  SqlVector_try_from_raw 0xA9 0x01 (VectorBaseType_u8 (base_type v)) (vector_elements (vec_data v)) = Ok v.
Proof.
  intros Hc He Hv. destruct v as [bt d]. unfold vector_consistent, SqlVector_try_from_raw in *. cbn [base_type vec_data] in *.
  destruct bt, d as [vs|vs]; try done; cbn [VectorLayoutFormat_try_from VectorLayoutVersion_try_from rbind VectorBaseType_u8
    VectorBaseType_try_from element_size_bytes vector_elements elements_ok] in *.
  - rewrite (length_concat_fmap 4), Nat2Z.inj_mul, Z.mul_comm, Z_mod_mult by (intros; apply length_le_bytes). cbn [negb Z.eqb].
    rewrite (chunks_exact_concat 4) by (intros; apply length_le_bytes || lia).
    replace (of_le <$> (le_bytes 4 <$> vs)) with vs; [by rewrite Hv|].
    symmetry. rewrite <- list_fmap_compose. etrans; [|apply list_fmap_id]. apply list_fmap_ext. intros i x Hx.
    apply of_le_unsigned. by apply (Forall_lookup_1 _ _ _ _ He Hx).
  - rewrite (length_concat_fmap 2), Nat2Z.inj_mul, Z.mul_comm, Z_mod_mult by (intros; apply length_le_bytes). cbn [negb Z.eqb].
    rewrite (chunks_exact_concat 2) by (intros; apply length_le_bytes || lia).
    match goal with |- context [VecFloat16 ?l] => replace l with vs; [by rewrite Hv|] end.
    symmetry. rewrite <- list_fmap_compose. etrans; [|apply list_fmap_id]. apply list_fmap_ext. intros i x Hx.
    destruct (Forall_lookup_1 _ _ _ _ He Hx) as [Hr Hf]. cbn. by rewrite of_le_unsigned.
Qed.

Lemma validated v : validate_dimensions v = Ok tt -> 0 < element_count v <= 3996 /\ total_size v <= VECTOR_MAX_SIZE.
Proof.
  unfold validate_dimensions. assert (0 <= element_count v) by (unfold element_count; destruct (vec_data v); lia).
  destruct (element_count v =? 0) eqn:E0; [done|]. destruct (max_dimensions _ <? _) eqn:E1; [done|].
  destruct (VECTOR_MAX_SIZE <? _) eqn:E2; [done|]. unfold max_dimensions in E1. destruct (base_type v); lia.
Qed.

Lemma length_elements v : vector_consistent v ->
  Z.of_nat (length (vector_elements (vec_data v))) = element_count v * element_size_bytes (base_type v).
Proof.
  unfold vector_consistent, element_count. destruct (base_type v), (vec_data v); try done; intros _; cbn [vector_elements].
  - rewrite (length_concat_fmap 4) by (intros; apply length_le_bytes). cbn. lia.
  - rewrite (length_concat_fmap 2) by (intros; apply length_le_bytes). cbn. lia.
Qed.

Lemma vector_base_of_u8 t : VectorBaseType_try_from (VectorBaseType_u8 t) = Ok t.
Proof. by destruct t. Qed.

Lemma reads_vector v :
  vector_consistent v -> elements_ok (vec_data v) -> validate_dimensions v = Ok tt ->
  ti_length (type_info m) = total_size v -> get_scale m = Some (VectorBaseType_u8 (base_type v)) -> get_precision m = None ->
  reads delivers (decode_vector m) (le_bytes 2 (total_size v) ++ vector_header v ++ vector_elements (vec_data v)) (Vector v).
Proof.
  intros Hc He Hv Hti Hsc Hpr. destruct (validated v Hv) as [Hcnt Hmax].
  pose proof (length_elements v Hc) as Hel. pose proof (vector_from_raw v Hc He Hv) as Hraw.
  remember (vector_elements (vec_data v)) as elements.
  assert (Htot : total_size v = 8 + element_count v * element_size_bytes (base_type v)) by done.
  assert (Hsz : 0 < element_size_bytes (base_type v)) by (by destruct (base_type v)).
  assert (Hdim : dimension_count v = element_count v) by (unfold dimension_count, as_u16; apply Z.mod_small; lia).
  assert (Hb : 0 <= VectorBaseType_u8 (base_type v) < 256) by (destruct (base_type v); cbn; lia).
  unfold decode_vector, VECTOR_MAX_SIZE, VECTOR_HEADER_SIZE in *.
  eapply reads_bind; [apply reads_sync_uint16; split; nia|]. rewrite !(proj2 (Z.eqb_neq _ _)), !(proj2 (Z.ltb_ge _ _)) by nia.
  unfold vector_header. rewrite <- !app_comm_cons, <- app_assoc. cbn [app].
  apply (reads_bind _ _ [_] _ 0xA9); [apply reads_sync_byte; lia|].
  apply (reads_bind _ _ [_] _ 0x01); [apply reads_sync_byte; lia|].
  eapply reads_bind; [apply reads_sync_uint16; rewrite Hdim; split; lia|].
  apply (reads_bind _ _ [_] _ (VectorBaseType_u8 (base_type v))); [by apply reads_sync_byte|].
  do 3 (apply (reads_bind _ _ [_] _ 0); [apply reads_sync_byte; lia|]).
  do 2 (eapply reads_lift_ok; [done|]). apply (reads_bind _ _ [] _ (VectorBaseType_u8 (base_type v))).
  { unfold get_scale, get_precision in *. destruct (type_info_variant (type_info m)); try done. injection Hsc as ->. apply reads_ret. }
  rewrite Z.eqb_refl. cbn [negb]. eapply reads_lift_ok; [apply vector_base_of_u8|].
  rewrite Hdim, Hti, <- Htot, Z.eqb_refl. cbn [negb orb].
  rewrite <- (app_nil_r elements). eapply reads_bind; [apply reads_bytes; rewrite Htot; lia|].
  eapply reads_lift_ok; [done|]. apply reads_ret.
Qed.
End columns.

(** ** The round trip *)

Section roundtrip.
Context `{rs : EncodingRs} `{narrow : HalfCrateNarrow} `{half : HalfCrate}.

(** The wire form of a value in its column. *)
Definition value_bytes (ctx : TdsTypeContext) (m : ColumnMetadata) (v : ColumnValues) : bytes :=
  match scalar_bytes ctx v, v with
  | Some bs, _ => prefixed (has_length_byte ctx v) bs
  | None, Null => default [] (null_bytes (data_type m) (is_plp m))
  | None, CBytes bs => body_bytes ctx (bool_decide (data_type m = DT_Image)) bs
  | None, CString s => body_bytes ctx (is_long_len_type (data_type m)) (sql_bytes s)
  | None, Xml x => encode_plp false (one_chunk (xml_bytes x))
  | None, Vector v => le_bytes 2 (total_size v) ++ vector_header v ++ vector_elements (vec_data v)
  | None, _ => []
  end.

Lemma holds_scalar_ok ctx m v bs :
  describes ctx m -> column_holds ctx m v -> scalar_bytes ctx v = Some bs -> scalar_ok ctx v.
Proof.
  intros [Hty _ _] Hh Hb. destruct v; cbn [column_holds scalar_ok scalar_bytes] in *; try done.
  - destruct Hh as [Ht _]. rewrite (is_fixed_type_of ctx _ Hty), Ht. done.
  - destruct Hh as (_ & Hr & (p & Ep & Hp) & _). split; [|by apply Hr]. rewrite Ep. cbn.
    destruct (decimal_width_of v p Hr Hp) as (n & -> & _). done.
  - destruct Hh as (_ & Hr & (p & Ep & Hp) & _). split; [|by apply Hr]. rewrite Ep. cbn.
    destruct (decimal_width_of v p Hr Hp) as (n & -> & _). done.
  - apply Hh.
  - apply Hh.
  - apply Hh.
  - apply Hh.
Qed.

Lemma type_is_u8 t t' : (TdsDataType_u8 t =? TdsDataType_u8 t') = bool_decide (t = t').
Proof. by destruct t, t'. Qed.

Lemma sent_unmarked ctx m v fit :
  describes ctx m -> column_ok m -> column_holds ctx m v ->
  emits (serialize_value_inner v ctx None fit) (value_bytes ctx m v) tt.
Proof.
  intros Hd Hok Hh. pose proof Hd as [Hty Hplp Hlen]. unfold value_bytes.
  destruct (scalar_bytes ctx v) as [bs|] eqn:Eb.
  { by apply scalar_emits; [eapply holds_scalar_ok|]. }
  destruct v; try discriminate Eb; cbn [column_holds serialize_value_inner] in *; try done.
  - destruct Hh as (Ht & He & _). pose proof (string_emits v ctx fit Ht) as H.
    unfold text_is_long, one_of in H. cbn [existsb] in H. rewrite Hty in H. by destruct (data_type m).
  - destruct Hh as (_ & Hf & _). rewrite <- type_is_u8, <- Hty in *. by apply bytes_emits.
  - destruct Hh as (_ & Hb & _). by apply xml_emits.
  - destruct Hh as [bs Hbs]. rewrite Hbs. rewrite <- Hplp in Hbs. by eapply null_emits.
  - destruct Hh as (_ & Hc & _ & Hv & _). apply vector_emits; [done|]. by apply validated.
Qed.

Lemma marked_cases v :
  marked v = v \/ exists x, v = Xml x /\ has_bom x = false /\
    marked v = Xml {| xml_bytes := byte_of 0xFF :: byte_of 0xFE :: xml_bytes x |}.
Proof. destruct v; auto. cbn. destruct (has_bom v) eqn:E; eauto. Qed.

Lemma sent_value ctx m v fit :
  describes ctx m -> column_ok m -> column_holds ctx m (marked v) ->
  emits (serialize_value_inner v ctx None fit) (value_bytes ctx m (marked v)) tt.
Proof.
  intros Hd Hok. destruct (marked_cases v) as [->|(x & -> & Hb & ->)]; [by apply sent_unmarked|].
  intros _. by apply xml_without_bom_emits.
Qed.

Context {R : Type} {delivers : R -> bytes -> Prop} `{laws : PacketReaderLaws R delivers}.

Lemma read_value fuel ctx m v :
  (2 <= fuel)%nat -> describes ctx m -> column_ok m -> column_holds ctx m v ->
  reads delivers (decode fuel m) (value_bytes ctx m v) v.
Proof.
  intros Hf Hd Hok Hh. unfold value_bytes. destruct (scalar_bytes ctx v) as [bs|] eqn:Eb; [by apply reads_scalar|].
  pose proof Hd as [Hty Hplp Hlen]. destruct v; try discriminate Eb; cbn [column_holds] in *; try done.
  - destruct Hh as ([Hlim Ht] & He & Hb). assert (is_long_len_type (data_type m) = true -> is_plp m = false) as Hl.
    { unfold column_ok in Hok. destruct (data_type m); try done; by destruct Hok. }
    pose proof (reads_string (delivers := delivers) fuel ctx m v Hf Hd He Hlim Hl Hb) as H.
    unfold one_of in Ht. cbn [existsb] in Ht. rewrite Hty in Ht. unfold decode, decode_with.
    destruct (data_type m); done || by destruct Ht.
  - destruct Hh as (Ht & _ & Hb). unfold body_bytes, body_readable, decode, decode_with, column_ok in *. rewrite Hplp, Hlen.
    destruct Ht as [Ht|[Ht|Ht]]; rewrite Ht in *; cbn in Hb |- *.
    + rewrite Hok in Hb |- *. by apply reads_short_binary.
    + destruct (is_plp m); [by apply (reads_plp_as _ CBytes)|by apply reads_short_binary].
    + by apply reads_image.
  - destruct Hh as (Ht & _ & Hb). unfold decode, decode_with, column_ok in *. rewrite Ht in *. rewrite Hok.
    destruct v. by apply (reads_plp_as _ (fun bs => Xml {| xml_bytes := bs |})).
  - destruct Hh as [bs Hbs]. rewrite Hbs. by apply reads_null.
  - destruct Hh as (Ht & Hc & He & Hv & Hti & Hsc & Hpr). unfold decode, decode_with. rewrite Ht. by apply reads_vector.
Qed.
End roundtrip.
