(* ===== verification/VariantRoundTrip.v ===== *)
(** * Values in sql_variant columns

    A [sql_variant] carries its value's type, the properties of the type and the value without a
    length; what [serialize_as_variant] writes is what [read_sql_variant] reads. *)

From stdpp Require Import strings.
From S2P Require Import Prelude Core Unicode PacketReader ReaderLaws Tokens DataTypes ColMetadata ColMetadataLaws Values Plp PlpLaws.
From S2P Require Import Decoder DecoderLaws Decimal NarrowText.
From S2P Require Import ReadBuffer Transport PacketWriter Writer WriterText ValueSerializer ValueWriting ValueRoundTrip.

(** ** The wire form *)

(** The base type, its properties and the value. *)
Record VariantForm := { vf_type : TdsDataType; vf_props : bytes; vf_data : bytes }.

Definition variant_collation (ctx : TdsTypeContext) : SqlCollation := default DEFAULT_VARIANT_COLLATION (ctx_collation ctx).

Definition decimal_form (t : TdsDataType) (d : DecimalParts) : VariantForm :=
  {| vf_type := t; vf_props := [byte_of (dec_precision d); byte_of (dec_scale d)];
     vf_data := decimal_bytes (default 0%nat (decimal_value_bytes (dec_precision d))) d |}.

Definition text_form (ctx : TdsTypeContext) (t : TdsDataType) (bs : bytes) : VariantForm :=
  {| vf_type := t; vf_props := encode_collation (variant_collation ctx) ++ le_bytes 2 (Z.of_nat (length bs)); vf_data := bs |}.

Definition variant_form (ctx : TdsTypeContext) (v : ColumnValues) : option VariantForm :=
  let plain t := (fun bs => {| vf_type := t; vf_props := []; vf_data := bs |}) <$> scalar_bytes ctx v in
  let scaled t time := (fun bs => {| vf_type := t; vf_props := [byte_of (time_scale time)]; vf_data := bs |}) <$> scalar_bytes ctx v in
  match v with
  | TinyInt _ => plain DT_Int1
  | SmallInt _ => plain DT_Int2
  | Int _ => plain DT_Int4
  | BigInt _ => plain DT_Int8
  | Real _ => plain DT_Flt4
  | Float _ => plain DT_Flt8
  | Bit _ => plain DT_Bit
  | Money _ => plain DT_Money
  | SmallMoney _ => plain DT_Money4
  | DateTime _ => plain DT_DateTime
  | SmallDateTime _ => plain DT_DateTim4
  | Date _ => plain DT_DateN
  | Uuid _ => plain DT_Guid
  | Time t => scaled DT_TimeN t
  | DateTime2 d => scaled DT_DateTime2N (dt2_time d)
  | DateTimeOffset d => scaled DT_DateTimeOffsetN (dt2_time (dto_datetime2 d))
  | Decimal d => Some (decimal_form DT_DecimalN d)
  | Numeric d => Some (decimal_form DT_NumericN d)
  | CBytes bs => Some {| vf_type := DT_BigVarBinary; vf_props := le_bytes 2 (Z.of_nat (length bs)); vf_data := bs |}
  | CString s => Some (text_form ctx (if is_narrow s then DT_BigVarChar else DT_NVarChar) (sql_bytes s))
  | Null | Xml _ | Json _ | Vector _ => None
  end.

Definition form_bytes (f : VariantForm) : bytes :=
  le_bytes 4 (2 + Z.of_nat (length (vf_props f)) + Z.of_nat (length (vf_data f))) ++
  [byte_of (TdsDataType_u8 (vf_type f))] ++ [byte_of (Z.of_nat (length (vf_props f)))] ++ vf_props f ++ vf_data f.

(** What a [sql_variant] holds: text in UTF-16, or in the code page of the column's collation. *)
Definition variant_holds (ctx : TdsTypeContext) (v : ColumnValues) : Prop :=
  match v with
  | Null | Bit _ => True
  | TinyInt z => in_unsigned 8 z
  | SmallInt z => in_signed 16 z
  | Int z => in_signed 32 z
  | BigInt z => in_signed 64 z
  | Real bits => in_unsigned 32 bits
  | Float bits => in_unsigned 64 bits
  | Decimal d | Numeric d => decimal_in_range d /\ 0 <= dec_scale d
  | SmallMoney v => in_signed 32 (int_val v)
  | Money v => in_signed 32 (lsb_part v) /\ in_signed 32 (msb_part v)
  | Date d => in_unsigned 24 (days_since_01_01_0001 d)
  | Time d => time_ok d
  | DateTime d => in_signed 32 (dt_days d) /\ in_unsigned 32 (dt_time d)
  | SmallDateTime d => in_unsigned 16 (sdt_days d) /\ in_unsigned 16 (sdt_time d)
  | DateTime2 d => datetime2_ok d
  | DateTimeOffset d => datetime2_ok (dto_datetime2 d) /\ in_signed 16 (dto_offset d)
  | Uuid bs => length bs = 16%nat
  | CBytes bs => Z.of_nat (length bs) <= MAX_VARIANT_DATA_SIZE
  | CString s =>
      narrow_string_byte_limit s = None /\ Z.of_nat (length (sql_bytes s)) <= MAX_VARIANT_DATA_SIZE /\
      match encoding_type s with
      | Utf16 => Nat.even (length (sql_bytes s)) = true
      | LcidBased c =>
          ctx_collation ctx = Some c /\ collation_wf c /\ utf8 c = false /\
          ctx_is_plp ctx = false /\ Z.of_nat (length (sql_bytes s)) <= ctx_max_size ctx
      | _ => False
      end
  | Xml _ | Json _ | Vector _ => False
  end.

(** ** Writing *)

Section writing.
Context `{rs : EncodingRs} `{narrow : HalfCrateNarrow} (fit : bool).

(** The serializer once its preparations succeeded. *)
Lemma variant_emits_prepared v ctx resolved base props size ictx data :
  v <> Null -> resolve_variant_narrow v ctx None fit = Ok (resolved, false) -> get_variant_base_type v = Ok (TdsDataType_u8 base) ->
  calculate_type_info_length (TdsDataType_u8 base) = Ok (Z.of_nat (length props)) ->
  match resolved with Some bs => Ok (as_u32 (Z.of_nat (length bs))) | None => calculate_value_size v end = Ok size ->
  size = Z.of_nat (length data) -> size <= MAX_VARIANT_DATA_SIZE -> (length props <= 7)%nat ->
  create_variant_inner_context v (TdsDataType_u8 base) ctx resolved = Ok ictx ->
  emits (if 0 <? Z.of_nat (length props) then write_type_info_bytes (TdsDataType_u8 base) v ctx resolved else ret tt) props tt ->
  emits (match resolved with
         | Some bs => serialize_char_varchar_direct bs ictx None false
         | None => serialize_value_inner v ictx None false
         end) data tt ->
  emits (serialize_as_variant v ctx None fit) (form_bytes {| vf_type := base; vf_props := props; vf_data := data |}) tt.
Proof.
  intros Hn Hr Hb Hp Hs Hd Hmax Hl Hc Hprops Hdata. unfold serialize_as_variant, form_bytes. cbn [vf_type vf_props vf_data].
  unfold MAX_VARIANT_DATA_SIZE, MAX_VARIANT_SIZE in *.
  destruct v; try done; (eapply emits_lift_ok; [done|]); (eapply emits_lift_ok; [done|]); (eapply emits_lift_ok; [done|]);
    (eapply emits_lift_ok; [done|]); rewrite (proj2 (Z.ltb_ge 8000 _)) by lia; rewrite (proj2 (Z.ltb_ge 8016 _)) by lia;
    rewrite Hd; (eapply emits_bind; [apply write_u32_emits|]); (eapply emits_bind; [apply write_byte_emits|]);
    (eapply emits_bind; [apply write_byte_emits|]); (eapply emits_bind; [done|]); (eapply emits_lift_ok; [done|]);
    (eapply emits_last; [done|apply emits_ret]).
Qed.

(** A scalar: the inner context asks for no length. *)
Lemma scalar_variant_emits v ctx base props ictx data :
  resolve_variant_narrow v ctx None fit = Ok (None, false) -> get_variant_base_type v = Ok (TdsDataType_u8 base) ->
  calculate_type_info_length (TdsDataType_u8 base) = Ok (Z.of_nat (length props)) ->
  create_variant_inner_context v (TdsDataType_u8 base) ctx None = Ok ictx ->
  calculate_value_size v = Ok (Z.of_nat (length data)) -> (length data <= 17)%nat -> (length props <= 7)%nat ->
  scalar_ok ictx v -> scalar_bytes ictx v = Some data -> has_length_byte ictx v = false ->
  emits (if 0 <? Z.of_nat (length props) then write_type_info_bytes (TdsDataType_u8 base) v ctx None else ret tt) props tt ->
  emits (serialize_as_variant v ctx None fit) (form_bytes {| vf_type := base; vf_props := props; vf_data := data |}) tt.
Proof.
  intros Hr Hb Hp Hc Hs Hl Hlp Hok Hd Hlen Hprops.
  eapply variant_emits_prepared; [by intros ->|done|done|done|done|done|unfold MAX_VARIANT_DATA_SIZE; lia|done|done|done|].
  pose proof (scalar_emits v ictx None false data Hok Hd) as H. by rewrite Hlen in H.
Qed.

Lemma length_decimal_bytes n d : length (decimal_bytes n d) = S n.
Proof. unfold decimal_bytes. cbn [length]. by rewrite length_le_bytes. Qed.

Lemma decimal_variant_emits v d base ctx :
  v = Decimal d /\ base = DT_DecimalN \/ v = Numeric d /\ base = DT_NumericN ->
  decimal_in_range d -> emits (serialize_as_variant v ctx None fit) (form_bytes (decimal_form base d)) tt.
Proof.
  intros Hv (Hok & Hp & Hs & Hm). pose proof (magnitude_range d Hok) as [H0 _].
  destruct (decimal_width_fits _ (magnitude d) Hp ltac:(lia)) as (n & En & _ & Hn). unfold decimal_form. rewrite En. cbn [default from_option id].
  destruct Hv as [[-> ->]|[-> ->]];
    (eapply scalar_variant_emits; [done|done|done|done| | | | | |done|]);
    rewrite ?length_decimal_bytes; cbn [calculate_value_size scalar_ok scalar_bytes]; unfold decimal_width;
    cbn [ctx_precision inner_ctx default from_option id]; rewrite ?En; try (cbn [default from_option id length]; f_equal; lia);
    try (cbn [length]; lia); try (split; [by eexists|done]);
    change [byte_of ?a; byte_of ?b] with ([byte_of a] ++ [byte_of b]); apply (emits_bind _ _ [_] [_] tt); apply write_byte_emits.
Qed.

Lemma bytes_variant_emits bs ctx :
  Z.of_nat (length bs) <= MAX_VARIANT_DATA_SIZE ->
  emits (serialize_as_variant (CBytes bs) ctx None fit)
    (form_bytes {| vf_type := DT_BigVarBinary; vf_props := le_bytes 2 (Z.of_nat (length bs)); vf_data := bs |}) tt.
Proof.
  intros Hl. unfold MAX_VARIANT_DATA_SIZE in Hl.
  eapply (variant_emits_prepared _ _ None); [done|done|done|done|done| |unfold MAX_VARIANT_DATA_SIZE
    |rewrite length_le_bytes; lia|done| |].
  - unfold as_u32. apply Z.mod_small. lia.
  - unfold as_u32. rewrite Z.mod_small by lia. lia.
  - apply write_u16_len_emits.
  - apply (bytes_emits bs (inner_ctx (TdsDataType_u8 DT_BigVarBinary) (Z.of_nat (length bs)) true None None None)). by split.
Qed.

(** The collation and the length before text. *)
Lemma text_props_emits v ctx base resolved bs :
  base = DT_NVarChar \/ base = DT_BigVarChar ->
  match resolved with Some bs' => bs' = bs | None => exists s, v = CString s /\ sql_bytes s = bs end ->
  emits (write_type_info_bytes (TdsDataType_u8 base) v ctx resolved) (vf_props (text_form ctx base bs)) tt.
Proof.
  intros Hb Hv. cbn [text_form vf_props]. unfold encode_collation. rewrite <- app_assoc.
  assert (Hlen : match resolved with
     | Some bs => as_u16 (Z.of_nat (length bs))
     | None => match v with CString s => as_u16 (Z.of_nat (length (sql_bytes s))) | _ => 0 end
     end = as_u16 (Z.of_nat (length bs))) by (destruct resolved; [by subst|by destruct Hv as (s & -> & ->)]).
  destruct Hb as [-> | ->];
    (eapply (emits_bind _ _ _ _ tt); [apply write_u32_emits|]); (eapply (emits_bind _ _ [_] _ tt); [apply write_byte_emits|]);
    (rewrite Hlen; apply write_u16_len_emits).
Qed.

Lemma wide_variant_emits s ctx :
  encoding_type s = Utf16 -> variant_holds ctx (CString s) ->
  emits (serialize_as_variant (CString s) ctx None fit) (form_bytes (text_form ctx DT_NVarChar (sql_bytes s))) tt.
Proof.
  intros He (Hlim & Hl & Hev). rewrite He in Hev. unfold MAX_VARIANT_DATA_SIZE in Hl.
  assert (Hn : is_narrow s = false) by (unfold is_narrow; by rewrite He).
  eapply (variant_emits_prepared _ _ None).
  - done.
  - unfold resolve_variant_narrow. by rewrite Hn.
  - cbn. by rewrite Hn.
  - done.
  - done.
  - unfold as_u32. apply Z.mod_small. lia.
  - unfold as_u32. rewrite Z.mod_small by lia. unfold MAX_VARIANT_DATA_SIZE. lia.
  - apply Nat.le_refl.
  - done.
  - apply text_props_emits; [by left|eauto].
  - apply (string_emits s (inner_ctx (TdsDataType_u8 DT_NVarChar) (Z.of_nat (length (sql_bytes s) / 2)) true None None (ctx_collation ctx)) false).
    split; [done|]. cbn -[Nat.div Nat.even]. split_and!; [done|done|done|]. by split.
Qed.

Lemma narrow_variant_emits s c ctx :
  encoding_type s = LcidBased c -> variant_holds ctx (CString s) ->
  emits (serialize_as_variant (CString s) ctx None fit) (form_bytes (text_form ctx DT_BigVarChar (sql_bytes s))) tt.
Proof.
  intros He (Hlim & Hl & Hc). rewrite He in Hc. destruct Hc as (Ec & Hwf & Hu & Hp & Hm). unfold MAX_VARIANT_DATA_SIZE in Hl.
  assert (Hn : is_narrow s = true) by (unfold is_narrow; by rewrite He).
  eapply (variant_emits_prepared _ _ (Some (sql_bytes s))).
  - done.
  - unfold resolve_variant_narrow, resolve_narrow_wire_bytes, as_raw_wire_bytes, effective_narrow_string_byte_limit,
      narrow_string_maximum. rewrite Hn, He, Hlim, Hp. unfold fit_narrow_byte_limit. cbn.
    destruct fit; [by rewrite (proj2 (Z.leb_le _ _) Hm)|by rewrite (proj2 (Z.ltb_ge _ _) Hm)].
  - cbn. by rewrite Hn.
  - done.
  - done.
  - unfold as_u32. apply Z.mod_small. lia.
  - unfold as_u32. rewrite Z.mod_small by lia. unfold MAX_VARIANT_DATA_SIZE. lia.
  - apply Nat.le_refl.
  - done.
  - apply text_props_emits; [by right|done].
  - apply (char_varchar_emits (sql_bytes s)
      (inner_ctx (TdsDataType_u8 DT_BigVarChar) (Z.of_nat (length (sql_bytes s))) true None None (ctx_collation ctx))); [cbn; lia|]. by split.
Qed.

Lemma variant_emits ctx v f :
  variant_holds ctx v -> variant_form ctx v = Some f -> emits (serialize_as_variant v ctx None fit) (form_bytes f) tt.
Proof.
  intros Hh Hf. destruct v; cbn [variant_form] in Hf; try discriminate Hf; cbn [scalar_bytes fmap option_fmap option_map] in Hf;
    injection Hf as <-;
    try (by eapply scalar_variant_emits; [done|done|done|done|done|by apply Nat.leb_le|by apply Nat.leb_le|done|done|done|apply emits_ret]).
  - apply (decimal_variant_emits _ v); [by left|apply Hh].
  - apply (decimal_variant_emits _ v); [by right|apply Hh].
  - destruct (encoding_type v) eqn:He; unfold is_narrow; rewrite He.
    + destruct Hh as (_ & _ & Hh). by rewrite He in Hh.
    + by apply wide_variant_emits.
    + by eapply narrow_variant_emits.
    + destruct Hh as (_ & _ & Hh). by rewrite He in Hh.
  - pose proof (time_length_small v). eapply scalar_variant_emits; [done|done|done|done| | |cbn; lia|apply Hh|done|done|apply write_byte_emits];
      rewrite length_time_bytes; [|lia]. apply get_time_length_ok, Hh.
  - destruct Hh as [Hh _]. pose proof (time_length_small (dt2_time v)).
    eapply scalar_variant_emits; [done|done|done|done| | |cbn; lia|apply Hh|done|done|apply write_byte_emits];
      rewrite length_datetime2_bytes; [|lia]. cbn [calculate_value_size]. rewrite (get_time_length_ok _ (proj1 Hh)). cbn. f_equal. lia.
  - destruct Hh as [[Hh _] _]. pose proof (time_length_small (dt2_time (dto_datetime2 v))).
    eapply scalar_variant_emits; [done|done|done|done| | |cbn; lia|apply Hh|done|done|apply write_byte_emits];
      rewrite length_app, length_datetime2_bytes; cbn [length]; [|lia].
    cbn [calculate_value_size]. rewrite (get_time_length_ok _ (proj1 Hh)). cbn. f_equal. lia.
  - by apply bytes_variant_emits.
  - cbn [variant_holds] in Hh.
    eapply scalar_variant_emits; [done|done|done|done|by rewrite Hh|lia|cbn; lia|done|done|done|apply emits_ret].
Qed.
End writing.

(** ** Reading *)

Section reading.
Context {R : Type} {delivers : R -> bytes -> Prop} `{laws : PacketReaderLaws R delivers} `{half : HalfCrate}.
Context (fuel : nat).

Lemma data_type_of_u8 t : t <> DT_None -> TdsDataType_try_from (TdsDataType_u8 t) = Ok t.
Proof. by destruct t. Qed.

(** The value behind the header of its form. *)
Definition read_form (decode_boxed : ColumnMetadata -> M R ColumnValues) (f : VariantForm) : M R ColumnValues :=
  let data_length := Z.of_nat (length (vf_data f)) in
  match Z.of_nat (length (vf_props f)) with
  | 0 => decode_zero_propbyte_variant decode_boxed (vf_type f) data_length
  | 1 => decode_one_byte_variant (vf_type f) data_length
  | 2 => decode_two_propbyte_variant (vf_type f) data_length
  | 7 => decode_seven_propbyte_variant (vf_type f) data_length
  | _ => throw (ProtocolError "Unexpected SQL variant properties length")
  end.

Lemma reads_form boxed f v :
  vf_type f <> DT_None -> (length (vf_props f) <= 7)%nat -> Z.of_nat (length (vf_data f)) <= MAX_VARIANT_DATA_SIZE ->
  reads delivers (read_form boxed f) (vf_props f ++ vf_data f) v ->
  reads delivers (read_sql_variant boxed) (form_bytes f) v.
Proof.
  intros Ht Hp Hd Hr. unfold MAX_VARIANT_DATA_SIZE in Hd. unfold read_sql_variant, form_bytes. rewrite <- (app_nil_r (_ ++ _)).
  eapply (reads_bind _ _ _ _ (Some (vf_type f), v)); [|apply reads_ret]. unfold read_sql_variant_with_base.
  eapply reads_bind; [apply reads_sync_uint32; split; lia|]. rewrite (proj2 (Z.eqb_neq _ _)) by lia.
  apply (reads_bind _ _ [_] _ (TdsDataType_u8 (vf_type f))); [apply reads_sync_byte; destruct (vf_type f); cbn; lia|].
  eapply reads_lift_ok; [by apply data_type_of_u8|].
  apply (reads_bind _ _ [_] _ (Z.of_nat (length (vf_props f)))); [apply reads_sync_byte; lia|].
  rewrite !(proj2 (Z.ltb_ge _ _)) by lia. cbn [orb].
  replace (2 + _ + _ - 2 - _) with (Z.of_nat (length (vf_data f))) by lia.
  by apply (reads_bind_ret _ (fun x => (Some (vf_type f), x))).
Qed.

Lemma as_u8_small n : (n < 256)%nat -> as_u8 (Z.of_nat n) = Z.of_nat n.
Proof. intros. unfold as_u8. apply Z.mod_small. lia. Qed.

Lemma reads_scale {A} t (k : Z -> M R A) bs v :
  scale_ok t -> reads delivers (k (time_scale t)) bs v -> reads delivers (bind sync_byte k) ([byte_of (time_scale t)] ++ bs) v.
Proof. intros Hs Hk. eapply reads_bind; [|done]. apply reads_sync_byte. unfold scale_ok in Hs. lia. Qed.

Lemma reads_decimal_form wrap d t :
  decimal_in_range d -> 0 <= dec_scale d -> t = DT_DecimalN /\ wrap = Decimal \/ t = DT_NumericN /\ wrap = Numeric ->
  reads delivers (decode_two_propbyte_variant t (Z.of_nat (length (vf_data (decimal_form t d)))))
    (vf_props (decimal_form t d) ++ vf_data (decimal_form t d)) (wrap d).
Proof.
  intros (Hok & Hp & Hs & Hm) H0 Ht. pose proof (magnitude_range d Hok) as [Hm0 _]. cbn [decimal_form vf_props vf_data].
  destruct (decimal_width_fits _ (magnitude d) Hp ltac:(lia)) as (n & -> & Hfit & Hn). cbn [default from_option id].
  rewrite <- app_comm_cons. cbn [app].
  destruct Ht as [[-> ->]|[-> ->]]; apply (reads_bind _ _ [_] _ (dec_precision d)); try (apply reads_sync_byte; lia);
    apply (reads_bind _ _ [_] _ (dec_scale d)); try (apply reads_sync_byte; lia);
    rewrite as_u8_small by (rewrite length_decimal_bytes; lia).
  - apply (reads_bind_ret _ (of_option Decimal) _ (Some d)). apply reads_decimal_data; try done.
    unfold decimal_metadata_is_valid, MAX_DECIMAL_PRECISION. lia.
  - apply (reads_bind_ret _ (of_option Numeric) _ (Some d)). apply reads_decimal_data; try done.
    unfold decimal_metadata_is_valid, MAX_DECIMAL_PRECISION. lia.
Qed.

Lemma length_text_props ctx t bs : length (vf_props (text_form ctx t bs)) = 7%nat.
Proof. done. Qed.

(** Text of either width, with the encoding its type and collation say. *)
Lemma reads_text_form ctx t bs c :
  t = DT_NVarChar \/ t = DT_BigVarChar -> SqlCollation_try_from (encode_collation (variant_collation ctx)) = Ok c ->
  Z.of_nat (length bs) <= MAX_VARIANT_DATA_SIZE ->
  reads delivers (decode_seven_propbyte_variant t (Z.of_nat (length bs))) (vf_props (text_form ctx t bs) ++ bs)
    (CString (SqlString_new bs (match t with DT_NVarChar => Utf16 | _ => if utf8 c then Utf8 else LcidBased c end))).
Proof.
  intros Ht Hc Hl. unfold MAX_VARIANT_DATA_SIZE in Hl. cbn [text_form vf_props]. rewrite <- app_assoc.
  assert (H : forall e, reads delivers
    (collation_bytes <- read_bytes 5 ;; _ <- sync_uint16 ;; collation <- lift (SqlCollation_try_from collation_bytes) ;;
     if MAX_ALLOC_SIZE <? Z.of_nat (length bs) then throw (value_too_long "SQL Variant string data")
     else buffer <- read_bytes (Z.to_nat (Z.of_nat (length bs))) ;; ret (CString (SqlString_new buffer (e collation))))
    (encode_collation (variant_collation ctx) ++ le_bytes 2 (Z.of_nat (length bs)) ++ bs) (CString (SqlString_new bs (e c)))).
  { intros e. eapply reads_bind; [by apply reads_bytes|]. eapply reads_bind; [apply reads_sync_uint16; split; lia|].
    eapply reads_lift_ok; [done|]. unfold MAX_ALLOC_SIZE. z_if.
    apply (reads_bind_ret _ (fun b => CString (SqlString_new b (e c)))), reads_bytes. lia. }
  destruct Ht as [-> | ->]; [apply (H (fun _ => Utf16))|apply (H (fun c => if utf8 c then Utf8 else LcidBased c))].
Qed.

Abbreviation boxed := (decode_with fuel (fun _ => out_of_fuel)).

(** The values without properties. *)
Lemma reads_plain_form ctx v f :
  variant_holds ctx v -> variant_form ctx v = Some f -> vf_props f = [] -> reads delivers (read_form boxed f) (vf_data f) v.
Proof.
  intros Hh Hf Hp. destruct v; cbn [variant_form] in Hf; try discriminate Hf; cbn [scalar_bytes fmap option_fmap option_map] in Hf;
    injection Hf as <-; try discriminate Hp; cbn [variant_holds] in Hh.
  - by apply (reads_bind_ret _ TinyInt), reads_sync_byte.
  - by apply (reads_bind_ret _ SmallInt), reads_sync_int16.
  - by apply (reads_bind_ret _ Int), reads_sync_int32.
  - by apply (reads_bind_ret _ BigInt), reads_sync_int64.
  - by apply (reads_bind_ret _ Real), reads_sync_float32.
  - by apply (reads_bind_ret _ Float), reads_sync_float64.
  - apply reads_bit.
  - destruct Hh. by apply (reads_bind_ret _ DateTime), reads_datetime.
  - by apply (reads_bind_ret _ Date), reads_date.
  - destruct Hh, v as [days minutes].
    apply (reads_bind _ _ (le_bytes 2 days) (le_bytes 2 minutes) days); [by apply reads_sync_uint16|].
    by apply (reads_bind_ret _ (fun t => SmallDateTime (Build_SqlSmallDateTime days t))), reads_sync_uint16.
  - by apply (reads_bind_ret _ SmallMoney), reads_money4.
  - destruct Hh. by apply (reads_bind_ret _ Money), reads_money8.
  - unfold read_form. cbn [vf_data vf_props vf_type]. rewrite Hh. by apply (reads_bind_ret _ Uuid), reads_bytes.
Qed.

Lemma reads_form_value ctx v f :
  variant_holds ctx v -> variant_form ctx v = Some f -> reads delivers (read_form boxed f) (vf_props f ++ vf_data f) v.
Proof.
  intros Hh Hf. destruct (decide (length (vf_props f) = 0)%nat) as [Hp|Hp].
  { apply length_zero_iff_nil in Hp. rewrite Hp. by eapply reads_plain_form. }
  destruct v; cbn [variant_form] in Hf; try discriminate Hf; cbn [scalar_bytes fmap option_fmap option_map] in Hf;
    injection Hf as <-; try done; cbn [variant_holds] in Hh.
  - apply (reads_decimal_form Decimal); try apply Hh. by left.
  - apply (reads_decimal_form Numeric); try apply Hh. by right.
  - destruct Hh as (Hlim & Hl & He). unfold is_narrow. destruct v as [bs e lim]. cbn [encoding_type sql_bytes narrow_string_byte_limit] in *.
    subst lim. destruct e as [| |c|]; try done.
    + destruct (collation_of_five (encode_collation (variant_collation ctx)) eq_refl) as [c Hc].
      by apply (reads_text_form ctx DT_NVarChar bs c); [left| |].
    + destruct He as (Ec & Hwf & Hu & _). pose proof (reads_text_form ctx DT_BigVarChar bs c) as H. cbn beta iota in H.
      rewrite Hu in H. apply H; [by right| |done]. unfold variant_collation. by rewrite Ec.
  - pose proof (time_length_small v). apply reads_scale; [apply Hh|]. cbn [vf_data]. rewrite length_time_bytes, as_u8_small by lia.
    by apply (reads_bind_ret _ Time), reads_time.
  - pose proof (time_length_small (dt2_time v)). apply reads_scale; [apply Hh|]. cbn [vf_data].
    rewrite as_u8_small by (rewrite length_datetime2_bytes; lia). by apply reads_datetime2.
  - destruct Hh as [Hd Ho]. pose proof (time_length_small (dt2_time (dto_datetime2 v))). apply reads_scale; [apply Hd|]. cbn [vf_data].
    rewrite as_u8_small by (rewrite length_app, length_datetime2_bytes; cbn [length]; lia). by apply reads_datetimeoffset.
  - unfold MAX_VARIANT_DATA_SIZE in Hh. cbn [vf_props vf_data]. eapply reads_bind; [apply reads_sync_uint16; split; lia|].
    unfold MAX_ALLOC_SIZE. cbn [vf_data]. z_if. apply reads_all. lia.
Qed.
End reading.

Lemma decimal_form_small t d : decimal_in_range d /\ 0 <= dec_scale d -> Z.of_nat (length (vf_data (decimal_form t d))) <= 8000.
Proof.
  intros [(Hok & Hp & Hs & Hm) _]. pose proof (magnitude_range d Hok) as [H0 _]. cbn [decimal_form vf_data].
  destruct (decimal_width_fits _ (magnitude d) Hp ltac:(lia)) as (n & -> & _ & Hn). rewrite length_decimal_bytes. cbn. lia.
Qed.

Lemma form_small ctx v f :
  variant_holds ctx v -> variant_form ctx v = Some f ->
  vf_type f <> DT_None /\ (length (vf_props f) <= 7)%nat /\ Z.of_nat (length (vf_data f)) <= MAX_VARIANT_DATA_SIZE.
Proof.
  intros Hh Hf. unfold MAX_VARIANT_DATA_SIZE.
  destruct v; cbn [variant_form] in Hf; try discriminate Hf; cbn [scalar_bytes fmap option_fmap option_map] in Hf;
    injection Hf as <-; try (split_and!; [done|by apply Nat.leb_le|by apply Z.leb_le]); cbn [variant_holds] in Hh.
  - split_and!; [done|cbn; lia|]. by apply decimal_form_small.
  - split_and!; [done|cbn; lia|]. by apply decimal_form_small.
  - split_and!; [cbn; by destruct (is_narrow v)|rewrite length_text_props; lia|apply Hh].
  - split_and!; [done|cbn; lia|]. cbn [vf_data]. rewrite length_time_bytes. pose proof (time_length_small v). lia.
  - split_and!; [done|cbn; lia|]. cbn [vf_data]. rewrite length_datetime2_bytes. pose proof (time_length_small (dt2_time v)). lia.
  - split_and!; [done|cbn; lia|]. cbn [vf_data]. rewrite length_app, length_datetime2_bytes.
    pose proof (time_length_small (dt2_time (dto_datetime2 v))). cbn [length]. lia.
  - split_and!; [done|by apply Nat.leb_le|done].
  - split_and!; [done|cbn; lia|cbn [vf_data]; lia].
Qed.
