(* ===== verification/ValueLaws.v ===== *)
(** * Properties of the value serializer

    Values survive the way to the wire and back; and two places where they do not. *)

From stdpp Require Import strings.
From S2P Require Import Prelude Core Unicode PacketReader ReaderLaws Tokens DataTypes ColMetadata ColMetadataLaws Values Plp PlpLaws.
From S2P Require Import Decoder Decimal NarrowText.
From S2P Require Import ReadBuffer Transport PacketWriter Writer WriterText WriterMessage ValueSerializer ValueWriting ValueRoundTrip VariantRoundTrip.

(** ** The round trip *)

(** What a column of any type holds. *)
Definition holds `{rs : EncodingRs} `{narrow : HalfCrateNarrow} `{half : HalfCrate}
    (ctx : TdsTypeContext) (m : ColumnMetadata) (v : ColumnValues) : Prop :=
  if decide (data_type m = DT_SsVariant) then variant_holds ctx v else column_holds ctx m v.

Section values.
Context `{rs : EncodingRs} `{narrow : HalfCrateNarrow} `{half : HalfCrate}.
Context {R : Type} {delivers : R -> bytes -> Prop} `{laws : PacketReaderLaws R delivers}.

Lemma variant_is_read_back fuel fit ctx m v :
  data_type m = DT_SsVariant -> variant_holds ctx v ->
  exists bs, emits (serialize_as_variant v ctx None fit) bs tt /\ reads delivers (decode fuel m) bs v.
Proof.
  intros Ht Hh. unfold decode, decode_with. rewrite Ht.
  destruct (variant_form ctx v) as [f|] eqn:Ef.
  - exists (form_bytes f). split; [by apply variant_emits|].
    assert (vf_type f <> DT_None /\ (length (vf_props f) <= 7)%nat /\ Z.of_nat (length (vf_data f)) <= MAX_VARIANT_DATA_SIZE)
      as (Hn & Hp & Hd) by (by eapply form_small).
    apply reads_form; try done. by eapply reads_form_value.
  - destruct v; try done; try discriminate Ef. exists (le_bytes 4 0). split; [apply write_u32_emits|].
    rewrite <- (app_nil_r (le_bytes 4 0)). eapply (reads_bind _ _ _ _ (None, Null)); [|apply reads_ret].
    rewrite <- (app_nil_r (le_bytes 4 0)). eapply reads_bind; [apply reads_sync_uint32; done|]. apply reads_ret.
Qed.

(** Both entries of the serializer: [fit] tells whether narrow text may lose trailing spaces. *)
Lemma sent_is_read fuel fit ctx m v :
  (2 <= fuel)%nat -> describes ctx m -> column_ok m -> holds ctx m (marked v) ->
  exists bs, emits (if ctx_tds_type ctx =? SQL_VARIANT then serialize_as_variant v ctx None fit
                    else serialize_value_inner v ctx None fit) bs tt /\ reads delivers (decode fuel m) bs (marked v).
Proof.
  intros Hf Hd Hok Hh. unfold holds in Hh. pose proof Hd as [Hty _ _]. rewrite Hty. unfold SQL_VARIANT. rewrite type_is_u8.
  case_decide as Ht.
  - rewrite bool_decide_true by done. destruct (marked_cases v) as [E|(x & -> & _ & E)]; rewrite E in *; [|done].
    by apply variant_is_read_back.
  - rewrite bool_decide_false by done. exists (value_bytes ctx m (marked v)). split; [by apply sent_value|by apply read_value].
Qed.

(** A FLOAT under a nullable column, with its length byte. *)
Lemma reads_nullable_float fuel m bits :
  data_type m = DT_FltN -> in_unsigned 64 bits ->
  reads delivers (decode fuel m) (byte_of 8 :: le_bytes 8 bits) (Float bits).
Proof.
  intros Ht Hz. unfold decode, decode_with. rewrite Ht.
  change (byte_of 8 :: le_bytes 8 bits) with (prefixed true (le_bytes 8 bits)).
  apply (reads_prefixed_at 8); [done|lia|]. by apply (reads_bind_ret _ Float), reads_sync_float64.
Qed.

(** Where the packet has room for it, it is written whole. *)
Lemma nullable_float_fits ctx msg chunks buf w bits :
  size_ok msg -> writer_at msg chunks buf w -> is_fixed_type ctx = false -> (length buf + 9 <= m_room msg)%nat ->
  exists w', serialize_float bits ctx w = (Ok tt, w') /\
    writer_at msg chunks (buf ++ byte_of 8 :: le_bytes 8 bits) w' /\ (calm w -> calm w').
Proof.
  intros Hs Hw Hfix Hr. pose proof Hs as [Hs1 _]. unfold serialize_float. rewrite Hfix. cbn [negb]. unfold if_space.
  unfold bind at 1, gets, id. rewrite (has_space_at _ _ _ _ _ Hs Hw), bool_decide_true by done. unfold m_room in Hr.
  destruct (put_at msg chunks buf [byte_of 8] w Hw) as (w1 & E1 & Hw1 & Hc1); [cbn; lia|].
  rewrite (bind_ok _ _ _ _ _ E1). destruct (put_at msg chunks _ (le_bytes 8 bits) w1 Hw1) as (w2 & E2 & Hw2 & Hc2).
  { rewrite length_app, length_le_bytes. cbn. lia. }
  exists w2. rewrite <- app_assoc in Hw2. auto.
Qed.

(** C7: a value that is sent in the form its column stores is read back.  Serialized with the context of
    the column (one that asks for no padding), whatever the packet boundaries, it becomes bytes that
    [decode], on any packet reader, turns into the same value: integers, REAL, FLOAT in a FLOAT NOT NULL
    column, money, decimals and times of the column's precision and scale, dates, UUIDs, text already in
    the encoding of its column, binaries, XML (a document without a byte order mark comes back with
    one), vectors and NULL, and all of these but XML and vectors in sql_variant columns.  A FLOAT in a
    nullable column is read back when the packet it starts in has room for its nine bytes; otherwise it
    may be cut, see [nullable_float_is_cut].  JSON, which is sent in UTF-16, and text that has to be
    converted, see [converted_text_is_halved], are outside of [holds]. *)
Theorem value_is_read_back fuel ctx m v :
  (2 <= fuel)%nat -> describes ctx m -> column_ok m ->
  (holds ctx m (marked v) ->
   exists bs, emits (serialize_value v ctx) bs tt /\ reads delivers (decode fuel m) bs (marked v)) /\
  (forall bits msg chunks buf w, v = Float bits -> data_type m = DT_FltN -> in_unsigned 64 bits ->
   size_ok msg -> writer_at msg chunks buf w -> (length buf + 9 <= m_room msg)%nat ->
   exists bs w', serialize_value v ctx w = (Ok tt, w') /\ writer_at msg chunks (buf ++ bs) w' /\
     reads delivers (decode fuel m) bs v).
Proof.
  intros Hf Hd Hok. split; [by apply (sent_is_read fuel false)|].
  intros bits msg chunks buf w -> Ht Hz Hs Hw Hr. pose proof Hd as [Hty _ _].
  destruct (nullable_float_fits ctx msg chunks buf w bits Hs Hw) as (w' & E & Hw' & _); [|done|].
  { rewrite (is_fixed_type_of ctx _ Hty), Ht. done. }
  exists (byte_of 8 :: le_bytes 8 bits), w'. split_and!; [|done|by apply reads_nullable_float].
  unfold serialize_value. by rewrite Hty, Ht.
Qed.
End values.

(** ** A nullable FLOAT at the end of a packet *)

(** The end of a message whose packet holds more than its payload. *)
Lemma finalize_overfull m chunks buf w :
  size_ok m -> writer_at m chunks buf w -> calm w -> (0 < length buf)%nat ->
  exists w', finalize w = (Ok tt, w') /\
    out w' = Some (m_base m ++ flushed m chunks ++ packet m (length chunks) true (take (m_room m) buf)).
Proof.
  intros Hs Hw Hc Hb. unfold finalize. unfold bind at 1, gets, id.
  pose proof (length_payload _ (at_cursor _ _ _ _ Hw)) as Hlp. rewrite (at_payload _ _ _ _ Hw) in Hlp.
  rewrite bool_decide_true by (unfold PACKET_HEADER_SIZE; lia). cbn [orb].
  pose proof (populate_spec m chunks buf true w Hs Hw ltac:(done)) as Hp. unfold bind at 1.
  destruct (populate_header_and_send true false w) as [[[]| | |] w1]; try done; [|by destruct Hp].
  destruct Hp as [Hse _]. eexists. split; [reflexivity|]. apply (se_out _ _ _ _ _ _ Hse).
Qed.

(** C39: a nullable FLOAT that ends a message is cut at the end of the packet.  When the packet has room
    for the length byte but not for all of the value, the slow path writes the value without a check;
    [finalize] then sends the packet up to its payload size and drops the remaining bytes. *)
Theorem nullable_float_is_cut m chunks buf w bits ctx :
  size_ok m -> writer_at m chunks buf w -> calm w -> is_fixed_type ctx = false ->
  (length buf + 1 < m_room m < length buf + 9)%nat ->
  exists w', (serialize_float bits ctx ;; finalize) w = (Ok tt, w') /\
    out w' = Some (m_base m ++ flushed m chunks ++
      packet m (length chunks) true (take (m_room m) (buf ++ byte_of 8 :: le_bytes 8 bits))) /\
    (length (take (m_room m) (buf ++ byte_of 8 :: le_bytes 8 bits)) < length (buf ++ byte_of 8 :: le_bytes 8 bits))%nat.
Proof.
  intros Hs Hw Hc Hfix Hr. pose proof Hs as [Hs1 _].
  assert (Hrun : exists w', serialize_float bits ctx w = (Ok tt, w') /\
                   writer_at m chunks (buf ++ byte_of 8 :: le_bytes 8 bits) w' /\ calm w').
  { unfold serialize_float. rewrite Hfix. cbn [negb]. unfold if_space. unfold bind at 1, gets, id.
    rewrite (has_space_at _ _ _ _ _ Hs Hw), bool_decide_false by lia. unfold m_room in Hr.
    destruct (put_at m chunks buf [byte_of 8] w Hw) as (w1 & E1 & Hw1 & Hc1); [cbn; lia|].
    assert (E : write_byte_async 8 w = (Ok tt, w1)).
    { unfold write_byte_async, write_checked. rewrite (bind_ok _ _ _ _ _ E1).
      unfold handle_overflow_if_needed. unfold bind at 1, gets, id.
      rewrite (position_at _ _ _ _ Hs Hw1), (at_room _ _ _ _ Hw1), (proj2 (Z.leb_gt _ _)); [done|].
      rewrite length_app. cbn. unfold m_room. lia. }
    rewrite (bind_ok _ _ _ _ _ E). destruct (put_at m chunks _ (le_bytes 8 bits) w1 Hw1) as (w2 & E2 & Hw2 & Hc2).
    { rewrite length_app, length_le_bytes. cbn. lia. }
    exists w2. rewrite <- app_assoc in Hw2. auto. }
  destruct Hrun as (w1 & E & Hw1 & Hc1). rewrite (bind_ok _ _ _ _ _ E).
  destruct (finalize_overfull m chunks _ w1 Hs Hw1 Hc1) as (w2 & E2 & Ho); [rewrite length_app; cbn; lia|].
  exists w2. split_and!; [done|done|]. rewrite length_take, length_app. cbn [length]. rewrite length_le_bytes. lia.
Qed.

(** ** Text converted for an NVARCHAR(n) *)

Section converted.
Context `{rs : EncodingRs} `{narrow : HalfCrateNarrow} `{half : HalfCrate}.
Context {R : Type} {delivers : R -> bytes -> Prop} `{laws : PacketReaderLaws R delivers}.

Lemma utf16_nonempty s : s <> [] -> (0 < length (utf16 s))%nat.
Proof.
  destruct s as [|c s]; [done|]. intros _. unfold utf16. cbn [fmap list_fmap concat]. rewrite length_app.
  destruct (encode_utf16_shape c) as [->|(hi & lo & ->)]; cbn; lia.
Qed.

(** C40: UTF-8 text sent to an NVARCHAR(n) column is announced with its number of characters where
    readers expect bytes: decoding takes the first half of it for the value and leaves the other half
    in the stream. *)
Theorem converted_text_is_halved fuel ctx m bs text (units := units_le (utf16 text)) (n := length (utf16 text)) :
  describes ctx m -> data_type m = DT_NVarChar -> is_plp m = false ->
  from_utf8 bs = Some text -> text <> [] -> Z.of_nat n <= ctx_max_size ctx -> Z.of_nat n < 0xFFFF ->
  emits (serialize_value (CString (SqlString_new bs Utf8)) ctx) (le_bytes 2 (Z.of_nat n) ++ take n units ++ drop n units) tt /\
  reads delivers (decode fuel m) (le_bytes 2 (Z.of_nat n) ++ take n units) (CString (SqlString_new (take n units) Utf16)) /\
  length (drop n units) = n /\ (0 < n)%nat.
Proof.
  intros [Hty Hplp Hlen] Ht Hp Htext Hne Hn Hmax. pose proof (utf16_nonempty text Hne) as Hpos. fold n in Hpos.
  assert (Hl : length units = (2 * n)%nat) by apply length_units_le.
  unfold serialize_value, decode, decode_with. rewrite Hty, Ht. cbn [TdsDataType_u8 SQL_VARIANT Z.eqb Pos.eqb serialize_value_inner].
  split_and!; [| |rewrite length_drop; lia|done].
  - rewrite take_drop. unfold serialize_string. rewrite Hty, Ht.
    cbn [TdsDataType_u8 NVARCHAR Z.eqb Pos.eqb orb as_utf16_bytes as_raw_wire_bytes encoding_type SqlString_new].
    eapply emits_lift_ok; [unfold to_utf8_string, SqlString_decode; cbn [SqlString_new encoding_type sql_bytes]; by rewrite Htext|].
    unfold serialize_string_utf16. rewrite Hplp, Hp, Hlen. cbn [negb andb].
    rewrite (proj2 (Z.ltb_ge _ _)) by (fold n; lia). eapply emits_bind; [apply write_u16_len_emits|apply emits_units].
  - unfold decode_string, get_encoding_type. rewrite Ht, Hp. cbn [is_unicode_type is_long_len_type].
    eapply reads_lift_ok; [done|]. eapply reads_bind; [apply reads_sync_uint16; split; lia|]. z_if.
    apply (reads_bind_ret _ (fun b => CString (SqlString_new b Utf16))), reads_bytes. rewrite length_take. lia.
Qed.
End converted.

(** ** Witnesses *)

#[local] Instance sample_half : HalfCrate := {| f16_to_f32 := id |}.
#[local] Instance sample_narrow : HalfCrateNarrow := {| f32_to_f16 := id |}.
#[local] Existing Instance sample_rs.

Definition sample_column (t : TdsDataType) (length : Z) (v : TypeInfoVariant) : ColumnMetadata :=
  {| user_type := 0; cm_flags := 0; type_info := {| tds_type := t; ti_length := length; type_info_variant := v |};
     data_type := t; column_name := []; multi_part_name := None; crypto_metadata := None |}.

Definition sample_ctx (t : TdsDataType) (size : Z) (precision scale : option Z) : TdsTypeContext :=
  {| ctx_tds_type := TdsDataType_u8 t; ctx_max_size := size; ctx_is_plp := false; ctx_is_fixed_length := false;
     ctx_precision := precision; ctx_scale := scale; ctx_collation := None; ctx_is_nullable := true |}.

(** -123.45 as a DECIMAL(5, 2). *)
Definition sample_decimal : DecimalParts := DecimalParts_new false 5 2 12345.

(** A message of packets with eight bytes of payload each. *)
Definition sample_message : Message :=
  new_message SqlBatch sample_net {| st_in := []; st_out := [byte_of 255]; st_writes := [] |}.

(** Packets with room for a FLOAT and its length. *)
Definition roomy_net : NetworkTransport :=
  NetworkTransport_new {| st_in := []; st_out := [byte_of 255]; st_writes := [] |} 32.

Definition roomy_message : Message :=
  new_message SqlBatch roomy_net {| st_in := []; st_out := [byte_of 255]; st_writes := [] |}.

Definition roomy_writer : PacketWriter := PacketWriter_new SqlBatch (Some 30) (Some CancelHandle_new) 1000 roomy_net.

(** A DECIMAL(5, 2), and a nullable FLOAT at the start of a packet. *)
Lemma value_is_read_back_witness :
  (exists bs, emits (serialize_value (Decimal sample_decimal) (sample_ctx DT_DecimalN 5 (Some 5) (Some 2))) bs tt /\
    reads list_delivers (decode 2 (sample_column DT_DecimalN 5 (VarLenPrecisionScale VL_DecimalN 5 5 2))) bs (Decimal sample_decimal)) /\
  exists bs w', serialize_value (Float 0x4000000000000000) (sample_ctx DT_FltN 8 None None) roomy_writer = (Ok tt, w') /\
    writer_at roomy_message [] bs w' /\
    reads list_delivers (decode 2 (sample_column DT_FltN 8 (VarLen VL_FltN 8))) bs (Float 0x4000000000000000).
Proof.
  split.
  - apply (value_is_read_back 2 _ _ (Decimal sample_decimal)); [lia|done|done|]. split; [done|].
    split_and!; [..|exists 5; by vm_compute|done|done]; vm_compute; split_and!; try done; intuition discriminate.
  - assert (Hs : size_ok roomy_message) by (split; cbn; lia).
    destruct (new_writing SqlBatch (Some 30) (Some CancelHandle_new) 1000 roomy_net _ eq_refl Hs) as (chunks & buf & Hw & _ & E).
    symmetry in E. apply app_eq_nil in E as [E ->]. destruct chunks as [|c chunks].
    + destruct (value_is_read_back (delivers := list_delivers) 2 (sample_ctx DT_FltN 8 None None) (sample_column DT_FltN 8 (VarLen VL_FltN 8))
        (Float 0x4000000000000000) ltac:(lia) ltac:(done) I) as [_ Hf].
      apply (Hf 0x4000000000000000 roomy_message [] [] roomy_writer); [done|done|by vm_compute|exact Hs|exact Hw|cbn; lia].
    + exfalso. pose proof (at_full _ _ _ _ Hw) as Hfull. inversion Hfull as [|? ? Hc1 _]; subst. by destruct c.
Defined.

Lemma nullable_float_is_cut_witness :
  exists w', (serialize_float 0x4000000000000000 (sample_ctx DT_FltN 8 None None) ;; finalize) sample_new = (Ok tt, w') /\
    out w' = Some ([byte_of 255] ++ [] ++ packet sample_message 0 true (byte_of <$> [8; 0; 0; 0; 0; 0; 0; 0])).
Proof.
  assert (Hs : size_ok sample_message) by (split; cbn; lia). destruct sample_writing as (chunks & buf & Hw & _ & E).
  symmetry in E. apply app_eq_nil in E as [E ->]. destruct chunks as [|c chunks].
  - destruct (nullable_float_is_cut sample_message [] [] sample_new 0x4000000000000000 (sample_ctx DT_FltN 8 None None)
      Hs Hw sample_calm eq_refl) as (w' & Hrun & Ho & _); [cbn; lia|]. by exists w'.
  - exfalso. pose proof (at_full _ _ _ _ Hw) as Hfull. inversion Hfull as [|? ? Hc1 _]; subst. by destruct c.
Defined.

Lemma converted_text_is_halved_witness :
  let bs := byte_of <$> [104; 105; 33; 33] in
  emits (serialize_value (CString (SqlString_new bs Utf8)) (sample_ctx DT_NVarChar 10 None None))
    (le_bytes 2 4 ++ (byte_of <$> [104; 0; 105; 0]) ++ (byte_of <$> [33; 0; 33; 0])) tt /\
  reads list_delivers (decode 2 (sample_column DT_NVarChar 20 (VarLenString VL_NVarChar 20 None)))
    (le_bytes 2 4 ++ (byte_of <$> [104; 0; 105; 0])) (CString (SqlString_new (byte_of <$> [104; 0; 105; 0]) Utf16)).
Proof.
  destruct (converted_text_is_halved (delivers := list_delivers) 2 (sample_ctx DT_NVarChar 10 None None)
    (sample_column DT_NVarChar 20 (VarLenString VL_NVarChar 20 None)) (byte_of <$> [104; 105; 33; 33]) [104; 105; 33; 33])
    as (H1 & H2 & _); [done|done|done|reflexivity|done|cbn; lia|cbn; lia|].
  exact (conj H1 H2).
Defined.
