(* ===== verification/Text.v ===== *)
(** * Rust's string methods

    The methods of [str] and of the integers' [Display] and [FromStr] that the connection code
    uses, on strings as lists of scalar values.  Positions are byte offsets of the UTF-8 encoding,
    as in Rust, and slicing inside a character panics. *)

From stdpp Require Import strings.
From S2P Require Import Prelude Unicode.

(** A literal of the source. *)
Definition lit (s : string) : str := (fun c => Z.of_N (Ascii.N_of_ascii c)) <$> String.list_ascii_of_string s.

(** [str::len]. *)
Definition str_len (s : str) : nat := sum_list (len_utf8 <$> s).

(** [&s[..n]]. *)
Fixpoint str_to (n : nat) (s : str) : TdsResult str :=
  match n, s with
  | O, _ => Ok []
  | _, [] => Panic "byte index out of range"
  | _, c :: s' =>
      if decide (len_utf8 c <= n)%nat then let? r := str_to (n - len_utf8 c) s' in Ok (c :: r)
      else Panic "byte index is not a char boundary"
  end.

(** [&s[from..to]]. *)
Definition str_slice (from to : nat) (s : str) : TdsResult str :=
  if (from <=? to)%nat then let? r := str_from from s in str_to (to - from) r
  else Panic "slice index starts after its end".

(** [s.find(c)], the byte offset of the first occurrence. *)
Fixpoint find_char (c : char) (s : str) : option nat :=
  match s with
  | [] => None
  | d :: s => if d =? c then Some O else (fun i => len_utf8 d + i)%nat <$> find_char c s
  end.

(** [s.rfind(c)]. *)
Fixpoint rfind_char (c : char) (s : str) : option nat :=
  match s with
  | [] => None
  | d :: s =>
      match rfind_char c s with
      | Some i => Some (len_utf8 d + i)%nat
      | None => if d =? c then Some O else None
      end
  end.

(** [s.split_once(c)]. *)
Fixpoint split_once (c : char) (s : str) : option (str * str) :=
  match s with
  | [] => None
  | d :: s => if d =? c then Some ([], s) else (fun '(a, b) => (d :: a, b)) <$> split_once c s
  end.

(** [s.split(c)]. *)
Fixpoint split_char (c : char) (s : str) : list str :=
  match s with
  | [] => [[]]
  | d :: s =>
      if d =? c then [] :: split_char c s
      else match split_char c s with p :: ps => (d :: p) :: ps | [] => [[d]] end
  end.

Fixpoint strip_prefix (p s : str) : option str :=
  match p, s with
  | [], _ => Some s
  | _, [] => None
  | c :: p, d :: s => if d =? c then strip_prefix p s else None
  end.

Definition starts_with (p s : str) : bool :=
  match strip_prefix p s with Some _ => true | None => false end.

Definition ends_with (p s : str) : bool := starts_with (rev p) (rev s).

(** [char::is_whitespace]: the property White_Space. *)
Definition is_whitespace (c : char) : bool :=
  ((9 <=? c) && (c <=? 13)) || (c =? 0x20) || (c =? 0x85) || (c =? 0xA0) || (c =? 0x1680) ||
  ((0x2000 <=? c) && (c <=? 0x200A)) || (c =? 0x2028) || (c =? 0x2029) || (c =? 0x202F) ||
  (c =? 0x205F) || (c =? 0x3000).

Fixpoint trim_start (s : str) : str :=
  match s with c :: s' => if is_whitespace c then trim_start s' else s | [] => [] end.

Definition trim_end (s : str) : str := rev (trim_start (rev s)).
Definition trim (s : str) : str := trim_end (trim_start s).

Definition ascii_lower (c : char) : char := if (65 <=? c) && (c <=? 90) then c + 32 else c.
Definition ascii_upper (c : char) : char := if (97 <=? c) && (c <=? 122) then c - 32 else c.
Definition to_ascii_lowercase (s : str) : str := ascii_lower <$> s.
Definition to_ascii_uppercase (s : str) : str := ascii_upper <$> s.
Definition eq_ignore_ascii_case (s t : str) : bool :=
  bool_decide (to_ascii_lowercase s = to_ascii_lowercase t).

Definition is_ascii_digit (c : char) : bool := (48 <=? c) && (c <=? 57).
Definition is_ascii_alphanumeric (c : char) : bool :=
  is_ascii_digit c || ((65 <=? c) && (c <=? 90)) || ((97 <=? c) && (c <=? 122)).

(** [Display] of an unsigned integer. *)
Fixpoint decimal_loop (fuel : nat) (n : Z) (acc : str) : str :=
  match fuel with
  | O => acc
  | S fuel =>
      let acc := (48 + n mod 10) :: acc in
      if n <? 10 then acc else decimal_loop fuel (n / 10) acc
  end.

Definition display (n : Z) : str := decimal_loop (S (Z.to_nat (Z.log2 n))) n [].

(** [FromStr] of an unsigned integer: a sign, then digits, each step checked against [max]. *)
Fixpoint parse_digits (max acc : Z) (s : str) : option Z :=
  match s with
  | [] => Some acc
  | c :: s =>
      if is_ascii_digit c then
        let acc := acc * 10 + (c - 48) in
        if acc <=? max then parse_digits max acc s else None
      else None
  end.

Definition parse_unsigned (max : Z) (s : str) : option Z :=
  match s with
  | [] | [43] | [45] => None
  | 43 :: s => parse_digits max 0 s
  | _ => parse_digits max 0 s
  end.

Definition parse_u16 : str -> option Z := parse_unsigned 0xFFFF.
Definition parse_u8 : str -> option Z := parse_unsigned 0xFF.

(** [str::to_lowercase] maps by the Unicode tables; on ASCII text it is [to_ascii_lowercase]. *)
Class UnicodeCase := {
  to_lowercase : str -> str;
  to_lowercase_ascii s : Forall (fun c => 0 <= c < 128) s -> to_lowercase s = to_ascii_lowercase s;
}.

(** ** Laws of the string methods

    What the methods of Text do on ASCII text, where byte offsets count characters, and on a string
    around the character that was searched for, and the round trip of decimal numbers. *)

(** ** Slices *)

Lemma len_utf8_pos c : (1 <= len_utf8 c)%nat.
Proof. unfold len_utf8. repeat case_match; lia. Qed.

Lemma str_len_cons c s : str_len (c :: s) = (len_utf8 c + str_len s)%nat.
Proof. done. Qed.

Lemma str_len_app s t : str_len (s ++ t) = (str_len s + str_len t)%nat.
Proof. unfold str_len. induction s as [|c s IH]; cbn; [done|]. rewrite IH. lia. Qed.

Lemma str_to_app s t : str_to (str_len s) (s ++ t) = Ok s.
Proof.
  induction s as [|c s IH]; [by destruct t|]. rewrite str_len_cons. pose proof (len_utf8_pos c).
  destruct (len_utf8 c + str_len s)%nat as [|n] eqn:E; [lia|]. cbn [str_to app].
  rewrite decide_True by lia. by replace (S n - len_utf8 c)%nat with (str_len s) by lia; rewrite IH.
Qed.

Lemma str_from_app s t : str_from (str_len s) (s ++ t) = Ok t.
Proof.
  induction s as [|c s IH]; [by destruct t|]. rewrite str_len_cons. pose proof (len_utf8_pos c).
  destruct (len_utf8 c + str_len s)%nat as [|n] eqn:E; [lia|]. cbn [str_from app].
  rewrite decide_True by lia. by replace (S n - len_utf8 c)%nat with (str_len s) by lia.
Qed.

(** ** Searches *)

(** A search splits the string around the first occurrence. *)
Lemma find_char_split c s :
  match split_once c s with
  | Some (a, b) => s = a ++ c :: b /\ find_char c s = Some (str_len a) /\ Forall (fun d => d <> c) a
  | None => find_char c s = None /\ Forall (fun d => d <> c) s
  end.
Proof.
  induction s as [|d s IH]; [done|]. cbn [split_once find_char]. destruct (Z.eqb_spec d c) as [->|Hne]; [done|].
  destruct (split_once c s) as [[a b]|]; cbn.
  - destruct IH as (-> & -> & ?). repeat constructor; done.
  - destruct IH as (-> & ?). by repeat constructor.
Qed.

Lemma split_once_app c a b : Forall (fun d => d <> c) a -> split_once c (a ++ c :: b) = Some (a, b).
Proof.
  induction 1 as [|d a Hd _ IH]; cbn; [by rewrite Z.eqb_refl|].
  by rewrite (proj2 (Z.eqb_neq _ _) Hd), IH.
Qed.

Lemma split_char_none c s : Forall (fun d => d <> c) s -> split_char c s = [s].
Proof.
  induction 1 as [|d s Hd _ IH]; [done|]. cbn. by rewrite (proj2 (Z.eqb_neq _ _) Hd), IH.
Qed.

Lemma split_char_app c s rest : Forall (fun d => d <> c) s ->
  split_char c (s ++ c :: rest) = s :: split_char c rest.
Proof.
  induction 1 as [|d s Hd _ IH]; cbn; [by rewrite Z.eqb_refl|]. by rewrite (proj2 (Z.eqb_neq _ _) Hd), IH.
Qed.

Lemma split_once_none c s : Forall (fun d => d <> c) s -> split_once c s = None.
Proof.
  induction 1 as [|d a Hd _ IH]; cbn; [done|]. by rewrite (proj2 (Z.eqb_neq _ _) Hd), IH.
Qed.

(** ** ASCII text *)

Definition ascii (s : str) : Prop := Forall (fun c => 0 <= c < 128) s.

Lemma ascii_app s t : ascii (s ++ t) <-> ascii s /\ ascii t.
Proof. apply Forall_app. Qed.

Lemma ascii_len s : ascii s -> str_len s = length s.
Proof.
  induction 1 as [|c s Hc _ IH]; [done|]. rewrite str_len_cons, IH. unfold len_utf8.
  by rewrite (proj2 (Z.ltb_lt _ _)) by lia.
Qed.

Lemma ascii_lowered s : ascii s -> ascii (to_ascii_lowercase s).
Proof.
  intros H. apply Forall_fmap. eapply list.Forall_impl; [exact H|]. intros c Hc.
  change (0 <= c < 128) in Hc. change (0 <= ascii_lower c < 128). unfold ascii_lower.
  destruct (Z.leb_spec 65 c), (Z.leb_spec c 90); cbn [andb]; lia.
Qed.

(** Characters that are not letters stand where they stood. *)
Definition caseless (c : char) : Prop := ~ (65 <= c <= 90) /\ ~ (97 <= c <= 122).

Lemma ascii_lower_eq c d : caseless c -> (ascii_lower d =? c) = (d =? c).
Proof.
  intros [H1 H2]. unfold ascii_lower. destruct (Z.leb_spec 65 d), (Z.leb_spec d 90); cbn [andb]; try done.
  rewrite (proj2 (Z.eqb_neq d c)) by lia. apply Z.eqb_neq. lia.
Qed.

Lemma split_once_lower c s : caseless c ->
  split_once c (to_ascii_lowercase s) =
  (fun '(a, b) => (to_ascii_lowercase a, to_ascii_lowercase b)) <$> split_once c s.
Proof.
  intros Hc. induction s as [|d s IH]; [done|]. cbn [split_once to_ascii_lowercase fmap list_fmap].
  rewrite ascii_lower_eq by done. destruct (d =? c); [done|].
  unfold to_ascii_lowercase in IH. rewrite IH. by destruct (split_once c s) as [[a b]|].
Qed.

Lemma is_whitespace_lower c : is_whitespace (ascii_lower c) = is_whitespace c.
Proof.
  unfold ascii_lower. destruct (Z.leb_spec 65 c), (Z.leb_spec c 90); cbn [andb]; try done.
  assert (forall d, 65 <= d <= 122 -> is_whitespace d = false) as Hw.
  { clear. intros d Hd. unfold is_whitespace.
    repeat match goal with
    | |- context [?a <=? ?b] => destruct (Z.leb_spec a b); try lia
    | |- context [?a =? ?b] => destruct (Z.eqb_spec a b); try lia
    end; done. }
  by rewrite !Hw by lia.
Qed.

Lemma trim_start_lower s : trim_start (to_ascii_lowercase s) = to_ascii_lowercase (trim_start s).
Proof.
  induction s as [|c s IH]; [done|]. cbn [trim_start to_ascii_lowercase fmap list_fmap].
  rewrite is_whitespace_lower. by destruct (is_whitespace c).
Qed.

Lemma rev_lower s : rev (to_ascii_lowercase s) = to_ascii_lowercase (rev s).
Proof. symmetry. apply map_rev. Qed.

Lemma trim_end_lower s : trim_end (to_ascii_lowercase s) = to_ascii_lowercase (trim_end s).
Proof. unfold trim_end. by rewrite rev_lower, trim_start_lower, rev_lower. Qed.

Lemma trim_lower s : trim (to_ascii_lowercase s) = to_ascii_lowercase (trim s).
Proof. unfold trim. by rewrite trim_start_lower, trim_end_lower. Qed.

Lemma strip_prefix_app p s : strip_prefix p (p ++ s) = Some s.
Proof. induction p as [|c p IH]; cbn; [done|]. by rewrite Z.eqb_refl. Qed.

Lemma strip_prefix_inv p s r : strip_prefix p s = Some r -> s = p ++ r.
Proof.
  revert s. induction p as [|c p IH]; intros [|d s]; cbn; try by intros [= <-].
  destruct (Z.eqb_spec d c) as [->|]; [|done]. intros H%IH. by subst.
Qed.

Lemma starts_with_lower p s : Forall caseless p -> starts_with p (to_ascii_lowercase s) = starts_with p s.
Proof.
  intros Hp. unfold starts_with. revert s. induction Hp as [|c p Hc _ IH]; intros s; [done|].
  destruct s as [|d s]; [done|]. cbn [strip_prefix to_ascii_lowercase fmap list_fmap].
  rewrite ascii_lower_eq by done. destruct (d =? c); [apply IH|done].
Qed.

Lemma trim_start_suffix s : exists w, s = w ++ trim_start s /\ Forall is_whitespace w.
Proof.
  induction s as [|c s (w & Hs & Hw)]; [by exists []|]. cbn. destruct (is_whitespace c) eqn:E.
  - exists (c :: w). split; [cbn; congruence|constructor; [by rewrite E|done]].
  - by exists [].
Qed.

Lemma ascii_trim_start s : ascii s -> ascii (trim_start s).
Proof. intros H. destruct (trim_start_suffix s) as (w & E & _). rewrite E in H. by apply ascii_app in H as [_ ?]. Qed.

Lemma ascii_rev s : ascii s -> ascii (rev s).
Proof. intros H. by apply List.Forall_rev. Qed.

Lemma ascii_trim_end s : ascii s -> ascii (trim_end s).
Proof. intros. by apply ascii_rev, ascii_trim_start, ascii_rev. Qed.

Lemma ascii_trim s : ascii s -> ascii (trim s).
Proof. intros. by apply ascii_trim_end, ascii_trim_start. Qed.

Create HintDb text.
#[export] Hint Resolve ascii_lowered ascii_trim ascii_trim_start ascii_trim_end : text.

(** ** Decimal numbers *)

Lemma parse_digits_app max a ds rest :
  parse_digits max a (ds ++ rest) = (b ← parse_digits max a ds; parse_digits max b rest).
Proof.
  revert a. induction ds as [|d ds IH]; intros a; [done|]. cbn [app parse_digits].
  destruct (is_ascii_digit d); [|done]. destruct (_ <=? max); [apply IH|done].
Qed.

Lemma is_digit n : 0 <= n < 10 -> is_ascii_digit (48 + n) = true.
Proof. intros. unfold is_ascii_digit. apply andb_true_iff. split; apply Z.leb_le; lia. Qed.

Lemma decimal_loop_spec fuel n acc : 0 <= n < 2 ^ Z.of_nat fuel -> (0 < fuel)%nat ->
  exists ds, decimal_loop fuel n acc = ds ++ acc /\ ds <> [] /\ Forall is_ascii_digit ds /\
    forall max, n <= max -> parse_digits max 0 ds = Some n.
Proof.
  revert n acc. induction fuel as [|fuel IH]; intros n acc Hn Hf; [lia|]. cbn [decimal_loop].
  pose proof (Z.mod_pos_bound n 10 ltac:(lia)) as Hm. pose proof (Z.div_mod n 10 ltac:(lia)) as Hd.
  destruct (Z.ltb_spec n 10) as [Hlt|Hge].
  - exists [48 + n mod 10]. split_and!; [done..| |].
    + repeat constructor. by rewrite is_digit.
    + intros max Hx. rewrite (Z.mod_small n 10) by lia. cbn [parse_digits]. rewrite is_digit by lia.
      rewrite (proj2 (Z.leb_le _ _)) by lia. f_equal. lia.
  - assert (0 <= n / 10 < 2 ^ Z.of_nat fuel) as Hq.
    { rewrite Nat2Z.inj_succ, Z.pow_succ_r in Hn by lia. lia. }
    destruct (IH (n / 10) (48 + n mod 10 :: acc) Hq) as (ds & -> & Hne & Hds & Hp).
    { destruct fuel; [cbn in Hq; lia|lia]. }
    exists (ds ++ [48 + n mod 10]). split_and!.
    + by rewrite <- app_assoc.
    + by destruct ds.
    + apply Forall_app. repeat constructor; [done|]. by rewrite is_digit.
    + intros max Hx. rewrite parse_digits_app, Hp by lia. cbn [mbind option_bind parse_digits].
      rewrite is_digit by lia. rewrite (proj2 (Z.leb_le _ _)) by lia. f_equal. lia.
Qed.

Lemma display_spec n : 0 <= n ->
  display n <> [] /\ Forall is_ascii_digit (display n) /\
  forall max, n <= max -> parse_digits max 0 (display n) = Some n.
Proof.
  intros Hn. unfold display.
  destruct (decimal_loop_spec (S (Z.to_nat (Z.log2 n))) n []) as (ds & -> & ? & ? & ?); [|lia|].
  - rewrite Nat2Z.inj_succ, Z2Nat.id by apply Z.log2_nonneg.
    destruct (Z.eq_dec n 0) as [->|]; [done|]. pose proof (Z.log2_spec n). lia.
  - by rewrite app_nil_r.
Qed.

Lemma parse_display max n : 0 <= n <= max -> parse_unsigned max (display n) = Some n.
Proof.
  intros Hn. destruct (display_spec n) as (Hne & Hds & Hp); [lia|]. rewrite <- (Hp max) by lia.
  destruct (display n) as [|d ds]; [done|]. apply list.Forall_cons in Hds as [Hd Hds].
  unfold is_ascii_digit in Hd. apply andb_prop_elim in Hd as [H1%Is_true_true%Z.leb_le H2%Is_true_true%Z.leb_le].
  unfold parse_unsigned.
  assert (d <> 43 /\ d <> 45) as [? ?] by lia.
  destruct d as [|p|p]; try lia.
  repeat first [done | lia | destruct p as [p|p|]; try done].
  all: destruct ds; try done; lia.
Qed.

(** ** Prefixes and suffixes of lowered text *)

Lemma ascii_unlowered c : 0 <= ascii_lower c < 128 -> 0 <= c < 128.
Proof. unfold ascii_lower. destruct (Z.leb_spec 65 c), (Z.leb_spec c 90); cbn [andb]; lia. Qed.

Lemma starts_with_lowered p s : ascii p -> starts_with p (to_ascii_lowercase s) ->
  exists a b, s = a ++ b /\ ascii a /\ length a = length p.
Proof.
  unfold starts_with. intros Hp. revert s.
  induction Hp as [|c p Hc _ IH]; intros s Hs; [exists [], s; repeat split; constructor|].
  destruct s as [|d s]; [done|]. cbn [strip_prefix to_ascii_lowercase fmap list_fmap] in Hs.
  destruct (Z.eqb_spec (ascii_lower d) c) as [E|]; [|done].
  destruct (IH s Hs) as (a & b & -> & Ha & Hl). exists (d :: a), b. split_and!; [done| |cbn; lia].
  constructor; [|exact Ha]. apply ascii_unlowered. rewrite E. exact Hc.
Qed.

Lemma ends_with_lowered p s : ascii p -> ends_with p (to_ascii_lowercase s) ->
  exists a b, s = a ++ b /\ ascii b /\ length b = length p.
Proof.
  unfold ends_with. intros Hp Hs. rewrite rev_lower in Hs.
  destruct (starts_with_lowered (rev p) (rev s)) as (a & b & E & Ha & Hl); [by apply ascii_rev|done|].
  exists (rev b), (rev a). split_and!; [|by apply ascii_rev|].
  - by rewrite <- rev_app_distr, <- E, rev_involutive.
  - by rewrite length_rev, Hl, length_rev.
Qed.

(** Cutting inside, when both ends are ASCII. *)
Lemma str_slice_between a m b : str_slice (str_len a) (str_len a + str_len m) (a ++ m ++ b) = Ok m.
Proof.
  unfold str_slice. rewrite (proj2 (Nat.leb_le _ _)) by lia. rewrite str_from_app. cbn [rbind].
  rewrite Nat.add_comm, Nat.add_sub. apply str_to_app.
Qed.

(** Two cuts of one string, the first before the second. *)
Lemma app_split {A} (a b c d : list A) : a ++ b = c ++ d -> (length a <= length c)%nat ->
  exists m, c = a ++ m /\ b = m ++ d.
Proof.
  revert c. induction a as [|x a IH]; intros c E Hl; [by exists c|]. destruct c as [|y c]; cbn in *; [lia|].
  injection E as -> E. destruct (IH c E) as (m & -> & ->); [lia|]. by exists m.
Qed.

Lemma str_len_lower s : str_len (to_ascii_lowercase s) = str_len s.
Proof.
  induction s as [|c s IH]; [done|]. cbn [to_ascii_lowercase fmap list_fmap]. rewrite !str_len_cons. f_equal; [|exact IH].
  unfold ascii_lower. destruct (Z.leb_spec 65 c), (Z.leb_spec c 90); cbn [andb]; try done.
  unfold len_utf8. by rewrite !(proj2 (Z.ltb_lt _ 128)) by lia.
Qed.

(** A slice between an ASCII prefix and an ASCII suffix that do not overlap. *)
Lemma str_slice_inner p q s : ascii p -> ascii q ->
  starts_with p (to_ascii_lowercase s) -> ends_with q (to_ascii_lowercase s) ->
  (str_len p + str_len q < str_len s)%nat ->
  exists m, str_slice (str_len p) (str_len s - str_len q) s = Ok m.
Proof.
  intros Hp Hq Hs He Hl. destruct (starts_with_lowered p s) as (a & b & E & Ha & La); try done.
  destruct (ends_with_lowered q s) as (a' & b' & E' & Hb & Lb); try done.
  rewrite (ascii_len p), (ascii_len q) in * by done. rewrite <- La, <- Lb in *.
  destruct (Nat.le_gt_cases (length a) (length a')) as [Hle|Hgt].
  - rewrite E in E'. destruct (app_split a b a' b' E' Hle) as (m & -> & ->). exists m. rewrite E.
    rewrite !str_len_app, <- (ascii_len a), <- (ascii_len b') by done.
    replace (str_len a + (str_len m + str_len b') - str_len b')%nat with (str_len a + str_len m)%nat by lia.
    apply str_slice_between.
  - exfalso. rewrite E' in E. destruct (app_split a' b' a b E) as (m & -> & ->); [lia|].
    apply ascii_app in Ha as [Ha Hm], Hb as [_ Hb]. rewrite E', !str_len_app, !ascii_len, !length_app in * by done. lia.
Qed.

Lemma str_from_prefix p s : ascii p -> starts_with p (to_ascii_lowercase s) ->
  exists r, str_from (str_len p) s = Ok r.
Proof.
  intros Hp Hs. destruct (starts_with_lowered p s) as (a & b & -> & Ha & La); try done. exists b.
  rewrite (ascii_len p), <- La, <- (ascii_len a) by done. apply str_from_app.
Qed.
