(* ===== verification/DataSource.v ===== *)
(** * Data source strings (src/mssql-tds/src/connection/datasource_parser.rs)

    The parser of [tcp:server\instance,port] and its variants.  Each step works on the string as
    given and on its lowercase copy, and slices the one at offsets found in the other. *)

From stdpp Require Import strings.
From S2P Require Import Prelude Unicode Text.

Record ParsedDataSource := {
  protocol_name : str;
  ds_server_name : str;
  original_server_name : str;
  ds_instance_name : str;
  protocol_parameter : str;
  alias : str;
  can_use_cache : bool;
  standard_instance_name : bool;
  parallel_connect : bool;
}.

#[export] Instance ParsedDataSource_eta : Eta ParsedDataSource := fun d =>
  Build_ParsedDataSource (protocol_name d) (ds_server_name d) (original_server_name d)
    (ds_instance_name d) (protocol_parameter d) (alias d) (can_use_cache d)
    (standard_instance_name d) (parallel_connect d).

Inductive ProtocolType := PT_Tcp | PT_NamedPipe | PT_SharedMemory | PT_Admin | PT_Auto.

Definition ParsedDataSource_new : ParsedDataSource := {|
  protocol_name := []; ds_server_name := []; original_server_name := []; ds_instance_name := [];
  protocol_parameter := []; alias := []; can_use_cache := true; standard_instance_name := true;
  parallel_connect := false |}.

Definition is_empty (s : str) : bool := match s with [] => true | _ => false end.

Definition one_of (names : list string) (s : str) : bool := bool_decide (s ∈ (lit <$> names)).

Definition NAMED_PIPE_PREFIX : str := lit "\\".

Definition parse_protocol (original normalized : str) (d : ParsedDataSource)
    : TdsResult (str * str * ParsedDataSource) :=
  match find_char 58 normalized with
  | Some colon_pos =>
      let? before := str_to colon_pos normalized in
      let protocol := trim before in
      if one_of ["tcp"; "np"; "lpc"; "admin"] protocol then
        let? norm := str_from (colon_pos + 1) normalized in
        let? orig := str_from (colon_pos + 1) original in
        Ok (trim_start norm, trim_start orig, d {{ protocol_name := protocol }})
      else Ok (normalized, original, d)
  | None => Ok (normalized, original, d)
  end.

Definition parse_parameter (original normalized : str) (d : ParsedDataSource)
    : TdsResult (str * str * ParsedDataSource) :=
  match find_char 44 normalized with
  | Some comma_pos =>
      let? rest := str_from (comma_pos + 1) original in
      let parameter := trim rest in
      let d := if is_empty (protocol_name d) then d {{ protocol_name := lit "tcp" }} else d in
      if negb (one_of ["tcp"] (protocol_name d)) then
        Err (ProtocolError "Port parameter only valid for TCP protocol")
      else
        let? port :=
          match find_char 92 parameter with
          | Some backslash_pos => str_to backslash_pos parameter
          | None => Ok parameter
          end in
        let d := d {{ protocol_parameter := port }} {{ can_use_cache := false }} in
        let? norm := str_to comma_pos normalized in
        let? orig := str_to comma_pos original in
        Ok (trim_end norm, trim_end orig, d)
  | None => Ok (normalized, original, d)
  end.

Definition parse_instance (original normalized : str) (d : ParsedDataSource)
    : TdsResult (str * str * ParsedDataSource) :=
  match find_char 92 normalized with
  | Some backslash_pos =>
      let? rest := str_from (backslash_pos + 1) original in
      let instance := trim rest in
      let? d :=
        if is_empty (protocol_parameter d) then
          if eq_ignore_ascii_case instance (lit "mssqlserver") then
            Err (ProtocolError "Instance name 'MSSQLSERVER' is reserved")
          else Ok (d {{ ds_instance_name := instance }})
        else Ok d in
      let? norm := str_to backslash_pos normalized in
      let? orig := str_to backslash_pos original in
      Ok (trim_end norm, trim_end orig, d)
  | None => Ok (normalized, original, d)
  end.

Definition get_protocol_type (d : ParsedDataSource) (windows : bool) : ProtocolType :=
  if one_of ["tcp"] (protocol_name d) then PT_Tcp
  else if one_of ["np"] (protocol_name d) then PT_NamedPipe
  else if one_of ["lpc"] (protocol_name d) then PT_SharedMemory
  else if one_of ["admin"] (protocol_name d) then PT_Admin
  else if windows && one_of ["localdb"] (protocol_name d) then PT_NamedPipe
  else PT_Auto.

Definition needs_ssrp (d : ParsedDataSource) : bool :=
  negb (is_empty (ds_instance_name d)) && is_empty (protocol_parameter d) &&
  negb (one_of ["lpc"] (protocol_name d)).

Definition build_alias (d : ParsedDataSource) : ParsedDataSource :=
  let d := d {{ alias := if is_empty (ds_instance_name d) then ds_server_name d
                         else ds_server_name d ++ lit "\" ++ ds_instance_name d }} in
  let off (b : bool) (d : ParsedDataSource) := if b then d {{ can_use_cache := false }} else d in
  off (negb (standard_instance_name d))
    (off (parallel_connect d)
      (off (one_of ["lpc"] (protocol_name d) && negb (is_empty (ds_instance_name d)))
        (off (one_of ["admin"] (protocol_name d))
          (off (negb (is_empty (protocol_parameter d))) d)))).

Section parser.
Context `{UnicodeCase}.
(** Whether the target is Windows, and the machine's name as the operating system gives it. *)
Context (windows : bool) (computer_name : option str).

Definition is_computer_name (name : str) : bool :=
  match computer_name with Some n => eq_ignore_ascii_case name n | None => false end.

Definition parse_server (original normalized : str) (d : ParsedDataSource) : ParsedDataSource :=
  let server := trim original in
  let d := d {{ original_server_name := server }} in
  let normalized_server := trim normalized in
  let is_local := one_of ["."; "(local)"; "localhost"] normalized_server ||
                  is_computer_name normalized_server in
  d {{ ds_server_name :=
         if is_local then
           if one_of ["admin"; "tcp"] (protocol_name d) || parallel_connect d ||
              negb (is_empty (ds_instance_name d))
           then lit "localhost"
           else default server computer_name
         else server }}.

Definition validate_protocol (d : ParsedDataSource) : TdsResult ParsedDataSource :=
  if negb windows && one_of ["np"] (protocol_name d) then
    Err (ProtocolError "Named Pipes (np:) protocol is not supported on this platform.")
  else if negb windows && one_of ["lpc"] (protocol_name d) then
    Err (ProtocolError "Shared Memory (lpc:) protocol is not supported on this platform.")
  else if windows && one_of ["lpc"] (protocol_name d) &&
     negb (one_of ["."] (original_server_name d) ||
           eq_ignore_ascii_case (original_server_name d) (lit "(local)") ||
           eq_ignore_ascii_case (original_server_name d) (lit "localhost") ||
           is_computer_name (original_server_name d)) then
    Err (ProtocolError "Shared Memory (lpc) protocol requires local server")
  else if parallel_connect d then
    if one_of ["np"; "lpc"; "admin"] (protocol_name d) then
      Err (ProtocolError "Protocol is incompatible with parallel connect (MultiSubnetFailover)")
    else Ok (if is_empty (protocol_name d) then d {{ protocol_name := lit "tcp" }} else d)
  else Ok d.

(** The instance a pipe path names: none for the default path, and one of the driver's own for a
    path that is not SQL Server's. *)
Definition parse_pipe_instance (pipe_path : str) (d : ParsedDataSource) : TdsResult ParsedDataSource :=
  let lower := to_ascii_lowercase pipe_path in
  if one_of ["\pipe\sql\query"] lower then
    Ok (d {{ ds_instance_name := [] }} {{ standard_instance_name := true }})
  else if starts_with (lit "\pipe\mssql$") lower && ends_with (lit "\sql\query") lower &&
          bool_decide (str_len (lit "\pipe\mssql$\sql\query") < str_len lower)%nat then
    let start := str_len (lit "\pipe\mssql$") in
    let end_ := (str_len pipe_path - str_len (lit "\sql\query"))%nat in
    let? instance := str_slice start end_ pipe_path in
    Ok (d {{ ds_instance_name := instance }} {{ standard_instance_name := true }})
  else if starts_with (lit "\pipe\") lower then
    let? rest := str_from (str_len (lit "\pipe\")) pipe_path in
    Ok (d {{ ds_instance_name := lit "pipe" ++ rest }} {{ standard_instance_name := false }})
  else Err (ProtocolError "Invalid named pipe path").

Definition parse_named_pipe (input : str) (d : ParsedDataSource) : TdsResult ParsedDataSource :=
  if negb (starts_with NAMED_PIPE_PREFIX input) then Err (ProtocolError "Invalid named pipe path")
  else
    let? after_slashes := str_from 2 input in
    match find_char 92 after_slashes with
    | None => Err (ProtocolError "Invalid named pipe path - no server specified")
    | Some server_end =>
        let? server := str_to server_end after_slashes in
        if is_empty server then Err (ProtocolError "Invalid named pipe path - blank server")
        else
          let d := d {{ protocol_parameter := input }} {{ protocol_name := lit "np" }}
                     {{ original_server_name := server }}
                     {{ ds_server_name := if one_of ["."] server then lit "localhost" else server }} in
          let? pipe_path := str_from server_end after_slashes in
          let? d := parse_pipe_instance pipe_path d in
          validate_protocol (d {{ can_use_cache := false }})
    end.

Definition parse_localdb (original normalized : str) (parallel : bool) : TdsResult ParsedDataSource :=
  let? instance_start :=
    if starts_with (lit "(localdb)\") normalized then Ok (str_len (lit "(localdb)\"))
    else if starts_with (lit "(localdb)/") normalized then Ok (str_len (lit "(localdb)/"))
    else Err (ProtocolError "Invalid LocalDB format") in
  let? rest := str_from instance_start original in
  let instance_name := trim rest in
  if is_empty instance_name then Err (ProtocolError "LocalDB instance name cannot be empty")
  else Ok {| protocol_name := lit "localdb"; ds_server_name := original;
             original_server_name := original; ds_instance_name := instance_name;
             protocol_parameter := []; alias := original; can_use_cache := false;
             standard_instance_name := true; parallel_connect := parallel |}.

Definition is_localdb_source (normalized : str) : bool :=
  starts_with (lit "(localdb)\") normalized || starts_with (lit "(localdb)/") normalized.

(** [ParsedDataSource::parse], after the empty and the LocalDB strings. *)
Definition parse_endpoint (original normalized : str) (d : ParsedDataSource) : TdsResult ParsedDataSource :=
  let? p := parse_protocol original normalized d in
  let '(norm, orig, d) := p in
  if starts_with NAMED_PIPE_PREFIX norm then parse_named_pipe orig d
  else
    let? p := parse_parameter orig norm d in
    let '(norm, orig, d) := p in
    let? p := parse_instance orig norm d in
    let '(norm, orig, d) := p in
    let? d := validate_protocol (parse_server orig norm d) in
    Ok (build_alias d).

Definition parse (datasource : str) (parallel : bool) : TdsResult ParsedDataSource :=
  let d := ParsedDataSource_new {{ parallel_connect := parallel }} in
  let original := trim datasource in
  let normalized := to_lowercase original in
  if is_empty normalized then Err (ProtocolError "Data source string cannot be empty")
  else if is_localdb_source normalized then
    if windows then parse_localdb original normalized parallel
    else Err (ProtocolError "LocalDB is not supported on this platform.")
  else parse_endpoint original normalized d.

(** ** Where the data source points *)

Definition ds_is_local (d : ParsedDataSource) : bool :=
  one_of ["."] (original_server_name d) ||
  eq_ignore_ascii_case (original_server_name d) (lit "(local)") ||
  eq_ignore_ascii_case (original_server_name d) (lit "localhost") ||
  one_of ["127.0.0.1"; "::1"] (original_server_name d) || is_computer_name (original_server_name d).

Definition pipe_server (d : ParsedDataSource) : str :=
  if ds_is_local d then lit "." else ds_server_name d.

Definition default_pipe_path (d : ParsedDataSource) : str :=
  let server := pipe_server d in
  if is_empty (ds_instance_name d) || eq_ignore_ascii_case (ds_instance_name d) (lit "default") then
    lit "\\" ++ server ++ lit "\pipe\sql\query"
  else lit "\\" ++ server ++ lit "\pipe\MSSQL$" ++ ds_instance_name d ++ lit "\sql\query".
End parser.
