(* ===== verification/HostPolicy.v ===== *)
(** * Which address is dialled (src/mssql-tds/src/connection/multi_subnet_failover.rs and dns_cache.rs)

    The process-wide MultiSubnetFailover default, frozen on first use, with the policy a connection
    resolves to, and the fallback cache of host addresses. *)

From stdpp Require Import strings gmap.
From S2P Require Import Prelude Unicode Text DataSource.

Inductive MultiSubnetFailoverSource := MS_Connection | MS_Application | MS_Environment | MS_BuiltIn.

Inductive MultiSubnetFailoverInapplicable :=
  | MI_Transport | MI_FailoverPartner | MI_InstanceDiscovery | MI_LocalServer.

Record MultiSubnetFailoverPolicy := {
  enabled : bool;
  source : MultiSubnetFailoverSource;
  inapplicable : option MultiSubnetFailoverInapplicable;
}.

#[export] Instance MultiSubnetFailoverPolicy_eta : Eta MultiSubnetFailoverPolicy := fun p =>
  Build_MultiSubnetFailoverPolicy (enabled p) (source p) (inapplicable p).

(** A policy, or the message of a configuration error. *)
Abbreviation PolicyResult := (MultiSubnetFailoverPolicy + string)%type (only parsing).

Record Defaults := { application : option bool; frozen : option PolicyResult }.

#[export] Instance Defaults_eta : Eta Defaults := fun d => Build_Defaults (application d) (frozen d).

Definition Defaults_initial : Defaults := {| application := None; frozen := None |}.

Definition configure (on : bool) (d : Defaults) : option string * Defaults :=
  match frozen d with
  | Some _ => (Some "MultiSubnetFailover defaults are already frozen; configure them before first use"%string, d)
  | None => (None, d {{ application := Some on }})
  end.

Definition must_be_boolean : string := "MSSQL_RS_MULTISUBNET_FAILOVER_DEFAULT must be true or false".

(** The default the configuration gives; [environment] is the variable's value, [None] inside when
    it is not Unicode. *)
Definition resolved_default (application : option bool) (environment : option (option str)) : PolicyResult :=
  match application with
  | Some value => inl {| enabled := value; source := MS_Application; inapplicable := None |}
  | None =>
      match environment with
      | Some None => inr must_be_boolean
      | Some (Some value) =>
          if eq_ignore_ascii_case value (lit "true") then
            inl {| enabled := true; source := MS_Environment; inapplicable := None |}
          else if eq_ignore_ascii_case value (lit "false") then
            inl {| enabled := false; source := MS_Environment; inapplicable := None |}
          else inr must_be_boolean
      | None => inl {| enabled := true; source := MS_BuiltIn; inapplicable := None |}
      end
  end.

(** [Defaults::resolve]. *)
Definition Defaults_resolve (environment : option (option str)) (d : Defaults) : PolicyResult * Defaults :=
  match frozen d with
  | Some p => (p, d)
  | None =>
      let resolved := resolved_default (application d) environment in
      (resolved, d {{ frozen := Some resolved }})
  end.

Definition restriction (d : ParsedDataSource) (failover_partner : str)
    : option (MultiSubnetFailoverInapplicable * string) :=
  if negb (one_of [""; "tcp"] (protocol_name d)) then
    Some (MI_Transport, "MultiSubnetFailover is only supported with TCP connections"%string)
  else if negb (is_empty failover_partner) then
    Some (MI_FailoverPartner, "MultiSubnetFailover cannot be used with FailoverPartner"%string)
  else if needs_ssrp d then
    Some (MI_InstanceDiscovery, "MultiSubnetFailover requires an explicit TCP port for a named instance"%string)
  else None.

Definition resolve_policy (windows : bool) (computer_name : option str) (explicit : option bool)
    (default_ : PolicyResult) (d : ParsedDataSource) (failover_partner : str)
    : TdsResult MultiSubnetFailoverPolicy :=
  let? policy :=
    match explicit with
    | Some on => Ok {| enabled := on; source := MS_Connection; inapplicable := None |}
    | None => match default_ with inl p => Ok p | inr message => Err (UsageError message) end
    end in
  if negb (enabled policy) then Ok policy
  else
    let? policy :=
      match restriction d failover_partner with
      | Some (reason, message) =>
          if bool_decide (explicit = Some true) then Err (UsageError message)
          else Ok (policy {{ enabled := false }} {{ inapplicable := Some reason }})
      | None => Ok policy
      end in
    if windows && enabled policy && bool_decide (explicit = None) && is_empty (protocol_name d) &&
       ds_is_local computer_name d
    then Ok (policy {{ enabled := false }} {{ inapplicable := Some MI_LocalServer }})
    else Ok policy.

(** [resolve_connection_policy], on the process-wide defaults. *)
Definition resolve_connection_policy (windows : bool) (computer_name : option str)
    (environment : option (option str)) (explicit : option bool) (d : ParsedDataSource)
    (failover_partner : str) : M Defaults MultiSubnetFailoverPolicy := fun s =>
  let '(default_, s) := Defaults_resolve environment s in
  (resolve_policy windows computer_name explicit default_ d failover_partner, s).

(** ** The DNS fallback cache (src/mssql-tds/src/connection/dns_cache.rs)

    The hosts a server allowed the client to cache, the resolution that falls back to them, and the
    verdict of a login that publishes or removes one. *)

Inductive IpAddr := IpV4 (octets : Z) | IpV6 (segments scope_id : Z).

Record SocketAddr := { ip : IpAddr; sa_port : Z }.

Record Resolution := { res_host : str; addresses : list SocketAddr }.

Definition Resolution_new (host : str) (addresses : list SocketAddr) : Resolution :=
  {| res_host := to_ascii_lowercase host; addresses := addresses |}.

Abbreviation DnsCache := (gmap (list Z) (list SocketAddr)) (only parsing).

Definition cached (cache : DnsCache) (host : str) (port : Z) : option (list SocketAddr) :=
  (fun addrs : list SocketAddr => (fun a => {| ip := ip a; sa_port := port |}) <$> addrs) <$>
    cache !! to_ascii_lowercase host.

(** [resolve_reporting]: what it returns, and the resolver's error when it was hidden by a
    fallback; [lookup] is the resolver's answer. *)
Definition resolve_reporting (cache : DnsCache) (host : str) (port : Z)
    (lookup : TdsResult (list SocketAddr)) : TdsResult Resolution * option Error :=
  match lookup with
  | Ok addresses => (Ok (Resolution_new host addresses), None)
  | Err error =>
      match cached cache host port with
      | Some addresses => (Ok (Resolution_new host addresses), Some error)
      | None => (Err error, None)
      end
  | Panic w => (Panic w, None)
  | OutOfFuel => (OutOfFuel, None)
  end.

(** [apply_verdict]; [is_ip] tells whether a host parses as an IP address. *)
Definition apply_verdict (is_ip : str -> bool) (resolution : Resolution) (allowed : bool) (cache : DnsCache)
    : DnsCache :=
  if negb allowed then delete (res_host resolution) cache
  else match addresses resolution with
       | [] => cache
       | _ => if is_ip (res_host resolution) then cache
              else <[res_host resolution := addresses resolution]> cache
       end.
