(* ===== verification/ClientContext.v ===== *)
(** * Connection settings (src/mssql-tds/src/connection/client_context.rs, message/login_options.rs)

    The settings a connection is opened with, the endpoint it dials, and the option bytes LOGIN7
    carries for them. *)

From stdpp Require Import strings gmap.
From S2P Require Import Prelude Core Unicode Text Tokens Prelogin DataClassification.
From S2P Require Import DataSource HostPolicy.

(** ** [DriverVersion] *)

Definition first_or_zero (parse : str -> option Z) (part : option str) : Z :=
  match part with Some s => default 0 (parse s) | None => 0 end.

(** [DriverVersion::from_cargo_version], given the crate's version. *)
Definition from_cargo_version (cargo_pkg_version : str) : DriverVersion :=
  let parts := split_char 46 cargo_pkg_version in
  {| dv_major := first_or_zero parse_u8 (parts !! 0%nat);
     dv_minor := first_or_zero parse_u8 (parts !! 1%nat);
     dv_build := first_or_zero parse_u16 (parts !! 2%nat) |}.

Definition DriverVersion_encode (v : DriverVersion) : Z :=
  Z.lor (Z.lor (as_i32 (Z.shiftl (dv_major v) 24)) (as_i32 (Z.shiftl (dv_minor v) 16))) (dv_build v).

Definition DriverVersion_display (v : DriverVersion) : str :=
  display (dv_major v) ++ lit "." ++ display (dv_minor v) ++ lit "." ++ display (dv_build v).

(** ** Settings *)

Inductive VectorVersion := Vector_Off | Vector_V1 | Vector_V2.
Inductive ColumnEncryptionSetting := CE_Disabled | CE_Enabled.
Inductive ApplicationIntent := ReadWrite | ReadOnly.

#[global] Instance ColumnEncryptionSetting_eq : EqDecision ColumnEncryptionSetting.
Proof. solve_decision. Defined.

#[global] Instance ApplicationIntent_eq : EqDecision ApplicationIntent.
Proof. solve_decision. Defined.

Inductive TdsAuthenticationMethod :=
  | Password | SSPI | ActiveDirectoryPassword | ActiveDirectoryInteractive
  | ActiveDirectoryDeviceCodeFlow | ActiveDirectoryServicePrincipal | ActiveDirectoryManagedIdentity
  | ActiveDirectoryDefault | ActiveDirectoryMSI | ActiveDirectoryWorkloadIdentity
  | ActiveDirectoryIntegrated | ActiveDirectoryTokenCredential | AccessToken.

#[global] Instance TdsAuthenticationMethod_eq : EqDecision TdsAuthenticationMethod.
Proof. solve_decision. Defined.

Record UserAgentFields := { ua_library_name : str; ua_driver_version : str; ua_runtime : str }.

Definition DEFAULT_LIBRARY_NAME : str := lit "MS-TDS".
Definition UNKNOWN_RUNTIME : str := lit "Unknown".

Definition UserAgentFields_default (cargo_pkg_version : str) : UserAgentFields :=
  {| ua_library_name := DEFAULT_LIBRARY_NAME; ua_driver_version := cargo_pkg_version;
     ua_runtime := UNKNOWN_RUNTIME |}.

(** ** [TransportContext] *)

(** [LocalDB] exists on Windows only. *)
Inductive TransportContext :=
  | Tcp (host : str) (port : Z) (instance_name : option str)
  | NamedPipe (pipe_name : str)
  | SharedMemory (instance_name : str)
  | LocalDB (instance_name : str).

#[global] Instance TransportContext_eq : EqDecision TransportContext.
Proof. solve_decision. Defined.

Inductive Protocol := P_Tcp | P_NamedPipe | P_SharedMemory.

Definition backslash : char := 92.

Definition from_routing_token (host : str) (port : Z) : TransportContext :=
  match split_once backslash host with
  | Some (host_part, instance) =>
      Tcp host_part port (match instance with [] => None | _ => Some instance end)
  | None => Tcp host port None
  end.

(** The server's part of a pipe path: [&rest[..idx]] at the first backslash after the two. *)
Definition pipe_server_name (pipe_name : str) : TdsResult str :=
  if starts_with (lit "\\.\") pipe_name then Ok (lit "localhost")
  else match strip_prefix (lit "\\") pipe_name with
       | Some rest =>
           match find_char backslash rest with
           | Some idx => str_to idx rest
           | None => Ok []
           end
       | None => Ok []
       end.

Definition get_server_name (t : TransportContext) : TdsResult str :=
  match t with
  | Tcp host _ _ => Ok host
  | NamedPipe pipe_name => pipe_server_name pipe_name
  | SharedMemory _ => Ok (lit "localhost")
  | LocalDB instance_name => Ok (lit "(localdb)\" ++ instance_name)
  end.

Definition get_login_server_name (t : TransportContext) : TdsResult str :=
  match t with
  | Tcp host port (Some instance) => Ok (host ++ [backslash] ++ instance ++ lit "," ++ display port)
  | Tcp host port None => Ok (host ++ lit "," ++ display port)
  | _ => get_server_name t
  end.

Definition get_protocol (t : TransportContext) : Protocol :=
  match t with
  | Tcp _ _ _ => P_Tcp
  | NamedPipe _ => P_NamedPipe
  | SharedMemory _ => P_SharedMemory
  | LocalDB _ => P_NamedPipe
  end.

Definition get_port (t : TransportContext) : Z :=
  match t with Tcp _ port _ => port | _ => 1433 end.

Section text.
Context `{UnicodeCase}.

Definition TransportContext_is_local (t : TransportContext) : bool :=
  match t with
  | Tcp host _ _ =>
      bool_decide (to_lowercase host ∈
        [lit "."; lit "(local)"; lit "localhost"; lit "127.0.0.1"; lit "::1"])
  | NamedPipe pipe_name => starts_with (lit "\\.\") pipe_name
  | SharedMemory _ => true
  | LocalDB _ => true
  end.

(** [parse_server_name], on a platform that has LocalDB ([windows]) or not. *)
Definition parse_server_name (windows : bool) (server_name : str) (default_port : Z) : TdsResult TransportContext :=
  let server_lower := to_lowercase server_name in
  let tcp := Ok (Tcp server_name default_port None) in
  if windows && (starts_with (lit "(localdb)\") server_lower || starts_with (lit "(localdb)/") server_lower) then
    let? instance_name := str_from 10 server_name in Ok (LocalDB instance_name)
  else if starts_with (lit "\\") server_name then Ok (NamedPipe server_name)
  else if starts_with (lit "lpc:") server_lower then
    let? instance_name := str_from 4 server_name in Ok (SharedMemory instance_name)
  else match rfind_char 44 server_name with
       | Some comma_idx =>
           let? host := str_to comma_idx server_name in
           let? port_str := str_from (comma_idx + 1) server_name in
           match parse_u16 port_str with
           | Some port => Ok (Tcp host port None)
           | None => tcp
           end
       | None => tcp
       end.
End text.

(** ** [ClientContext] *)

(** The tracing handle, the socket options, the callbacks of the authentication providers and the key
    stores are left out: nothing modelled reads them. *)
Record ClientContext := {
  cc_application_intent : ApplicationIntent;
  cc_application_name : str;
  cc_attach_db_file : str;
  cc_change_password : str;
  cc_connect_retry_count : Z;
  cc_connect_retry_interval : Z;
  cc_connect_timeout : Z;
  cc_login_timeout : option Z;
  cc_database : str;
  cc_data_source : str;
  cc_database_instance : str;
  cc_encryption_mode : EncryptionSetting;
  cc_failover_partner : str;
  cc_language : str;
  cc_library_name : str;
  cc_driver_version : DriverVersion;
  cc_mars_enabled : bool;
  cc_multi_subnet_failover : option bool;
  cc_resolved_multi_subnet_failover : option MultiSubnetFailoverPolicy;
  cc_ssrp_timeout_ms : Z;
  cc_packet_size : Z;
  cc_password : str;
  cc_replication : bool;
  cc_tds_authentication_method : TdsAuthenticationMethod;
  cc_user_instance : bool;
  cc_user_name : str;
  cc_workstation_id : str;
  cc_access_token : option str;
  cc_login_server_name : option str;
  cc_transport_context : TransportContext;
  cc_vector_version : VectorVersion;
  cc_column_encryption_setting : ColumnEncryptionSetting;
  cc_trusted_master_key_paths : option (gmap str (list str));
  cc_requested_data_classification_version : option DataClassificationVersion;
  cc_user_agent : UserAgentFields;
}.

#[export] Instance ClientContext_eta : Eta ClientContext := fun c =>
  Build_ClientContext (cc_application_intent c) (cc_application_name c) (cc_attach_db_file c)
    (cc_change_password c) (cc_connect_retry_count c) (cc_connect_retry_interval c)
    (cc_connect_timeout c) (cc_login_timeout c) (cc_database c) (cc_data_source c)
    (cc_database_instance c) (cc_encryption_mode c) (cc_failover_partner c) (cc_language c)
    (cc_library_name c) (cc_driver_version c) (cc_mars_enabled c) (cc_multi_subnet_failover c)
    (cc_resolved_multi_subnet_failover c) (cc_ssrp_timeout_ms c) (cc_packet_size c) (cc_password c) (cc_replication c)
    (cc_tds_authentication_method c) (cc_user_instance c) (cc_user_name c) (cc_workstation_id c)
    (cc_access_token c) (cc_login_server_name c) (cc_transport_context c) (cc_vector_version c)
    (cc_column_encryption_setting c) (cc_trusted_master_key_paths c)
    (cc_requested_data_classification_version c) (cc_user_agent c).

Definition DEFAULT_CONNECT_TIMEOUT_SECS : Z := 15.
Definition DEFAULT_SSRP_TIMEOUT_MS : Z := 1000.

(** [default_workstation_id]; [hostname] is what the operating system gave, decoded lossily. *)
Definition default_workstation_id (hostname : option str) : TdsResult str :=
  let hostname := default [] hostname in
  if bool_decide (128 < str_len hostname)%nat then str_to 128 hostname else Ok hostname.

(** [ClientContext::with_data_source]; the encryption mode is that of [EncryptionOptions::new]. *)
Definition with_data_source (cargo_pkg_version : str) (hostname : option str) (data_source : str)
    : TdsResult ClientContext :=
  let? workstation_id := default_workstation_id hostname in
  Ok {| cc_application_intent := ReadWrite;
        cc_application_name := lit "TDSX Rust Client";
        cc_attach_db_file := [];
        cc_change_password := [];
        cc_connect_retry_count := 1;
        cc_connect_retry_interval := 10;
        cc_connect_timeout := DEFAULT_CONNECT_TIMEOUT_SECS;
        cc_login_timeout := None;
        cc_database := [];
        cc_data_source := data_source;
        cc_database_instance := lit "MSSQLServer";
        cc_encryption_mode := Strict;
        cc_failover_partner := [];
        cc_language := lit "us_english";
        cc_library_name := lit "MS-TDS";
        cc_driver_version := from_cargo_version cargo_pkg_version;
        cc_mars_enabled := false;
        cc_multi_subnet_failover := None;
        cc_resolved_multi_subnet_failover := None;
        cc_ssrp_timeout_ms := DEFAULT_SSRP_TIMEOUT_MS;
        cc_packet_size := 8000;
        cc_password := [];
        cc_replication := false;
        cc_tds_authentication_method := Password;
        cc_user_instance := false;
        cc_user_name := [];
        cc_workstation_id := workstation_id;
        cc_access_token := None;
        cc_login_server_name := None;
        cc_transport_context := Tcp (lit "localhost") 1433 None;
        cc_vector_version := Vector_V2;
        cc_column_encryption_setting := CE_Disabled;
        cc_trusted_master_key_paths := None;
        cc_requested_data_classification_version := None;
        cc_user_agent := UserAgentFields_default cargo_pkg_version |}.

Definition MAX_LOGIN7_NAME_UNITS : nat := 128.

Definition integrated_security (c : ClientContext) : bool :=
  bool_decide (cc_tds_authentication_method c = SSPI).

Definition ctx_tds_version (c : ClientContext) : TdsVersion :=
  match cc_encryption_mode c with Strict => V8_0 | _ => V7_4 end.

(** [DefaultClientContextValidator::validate]. *)
Definition validate (c : ClientContext) : TdsResult unit :=
  if (cc_packet_size c <? 512) || (32768 <? cc_packet_size c) then Err (UsageError "Invalid packet size")
  else match cc_login_server_name c with
       | Some name =>
           if bool_decide (MAX_LOGIN7_NAME_UNITS < length (utf16 name))%nat
           then Err (UsageError "login_server_name is too long") else Ok tt
       | None => Ok tt
       end.

(** [login_server_name]: the override, or the dialled address. *)
Definition login_server_name (c : ClientContext) (t : TransportContext) : TdsResult str :=
  match cc_login_server_name c with
  | Some (_ :: _ as name) => Ok name
  | _ => get_login_server_name t
  end.

Definition register_trusted_master_key_paths (server : str) (key_paths : list str) (c : ClientContext)
    : ClientContext :=
  c {{ cc_trusted_master_key_paths ::= fun m =>
         Some (<[to_ascii_uppercase server := key_paths]> (default ∅ m)) }}.

Definition trusted_key_paths_for_current_server (c : ClientContext) : TdsResult (list str) :=
  match cc_trusted_master_key_paths c with
  | Some paths =>
      if decide (paths = ∅) then Ok []
      else
        let? server := get_server_name (cc_transport_context c) in
        Ok (default [] (paths !! to_ascii_uppercase server))
  | None => Ok []
  end.

(** ** From a data source to an endpoint *)

Definition from_parsed_datasource `{UnicodeCase} (windows : bool) (d : ParsedDataSource)
    : TdsResult TransportContext :=
  match get_protocol_type d windows with
  | PT_Tcp =>
      let? port :=
        if is_empty (protocol_parameter d) then Ok 1433
        else match parse_u16 (protocol_parameter d) with
             | Some port => Ok port
             | None => Err (ProtocolError "Invalid port number")
             end in
      Ok (Tcp (ds_server_name d) port None)
  | PT_NamedPipe =>
      let default_path := lit "\\" ++ ds_server_name d ++ lit "\pipe\sql\query" in
      Ok (NamedPipe
        (if negb (is_empty (protocol_parameter d)) then protocol_parameter d
         else if negb (is_empty (ds_instance_name d)) then
           if bool_decide (to_lowercase (ds_instance_name d) = lit "default") then default_path
           else lit "\\" ++ ds_server_name d ++ lit "\pipe\MSSQL$" ++ ds_instance_name d ++ lit "\sql\query"
         else default_path))
  | PT_SharedMemory =>
      Ok (SharedMemory (if is_empty (ds_instance_name d) then lit "MSSQLSERVER" else ds_instance_name d))
  | PT_Admin => Ok (Tcp (ds_server_name d) 1434 None)
  | PT_Auto => Ok (Tcp (ds_server_name d) 1433 None)
  end.

(** A step on one half of a pair of states. *)
Definition on_fst {S T A} (m : M S A) : M (S * T) A := fun '(s, t) => let '(r, s) := m s in (r, (s, t)).
Definition on_snd {S T A} (m : M T A) : M (S * T) A := fun '(s, t) => let '(r, t) := m t in (r, (s, t)).

Section prepare.
Context `{UnicodeCase}.
Context (windows : bool) (computer_name : option str).

(** What [parse_datasource] and its variants store of a parsed source; the data source is stored
    before the endpoint is derived, which may fail. *)
Definition store_datasource (datasource : str) (d : ParsedDataSource) : M ClientContext unit :=
  modify (fun c => c {{ cc_data_source := datasource }}) ;;
  t <- lift (from_parsed_datasource windows d) ;;
  modify (fun c => c {{ cc_transport_context := t }}) ;;
  if is_empty (ds_instance_name d) then ret tt
  else modify (fun c => c {{ cc_database_instance := ds_instance_name d }}).

Definition parse_datasource (datasource : str) : M ClientContext ParsedDataSource :=
  d <- lift (parse windows computer_name datasource false) ;;
  store_datasource datasource d ;;
  ret d.

Definition parse_datasource_with_options (datasource : str) (multi_subnet_failover : bool)
    : M ClientContext ParsedDataSource :=
  d <- lift (parse windows computer_name datasource multi_subnet_failover) ;;
  store_datasource datasource d ;;
  modify (fun c => c {{ cc_multi_subnet_failover := Some multi_subnet_failover }}
                     {{ cc_resolved_multi_subnet_failover := None }}) ;;
  ret d.

(** The policy [prepare_datasource] uses: one kept from before, or the defaults'. *)
Definition prepare_policy (environment : option (option str)) (c : ClientContext) (d : ParsedDataSource)
    : M Defaults MultiSubnetFailoverPolicy :=
  let from_defaults := resolve_connection_policy windows computer_name environment
                         (cc_multi_subnet_failover c) d (cc_failover_partner c) in
  match cc_resolved_multi_subnet_failover c with
  | Some policy =>
      match cc_multi_subnet_failover c, source policy with
      | None, MS_Connection => from_defaults
      | _, _ => lift (resolve_policy windows computer_name (cc_multi_subnet_failover c) (inl policy) d
                        (cc_failover_partner c))
      end
  | None => from_defaults
  end.

(** [prepare_datasource], on the context and the process-wide defaults. *)
Definition prepare_datasource (environment : option (option str)) (datasource : str)
    : M (ClientContext * Defaults) ParsedDataSource :=
  d <- lift (parse windows computer_name datasource false) ;;
  c <- gets fst ;;
  policy <- on_snd (prepare_policy environment c d) ;;
  d <- (if enabled policy then lift (parse windows computer_name datasource true) else ret d) ;;
  on_fst (store_datasource datasource d) ;;
  on_fst (modify (fun c => c {{ cc_resolved_multi_subnet_failover := Some policy }})) ;;
  ret d.
End prepare.

(** ** The option bytes of LOGIN7 *)

(** [set_options_bit]. *)
Definition set_options_bit (value : Z) (condition : bool) (bit : Z) : Z :=
  if condition then Z.lor value bit else Z.land value (255 - bit).

Inductive OptionSqlType := Sql_Default | Sql_TSQL.
Inductive OptionOleDb := OleDb_Off | OleDb_On.
Inductive OptionFloat := IEEE | VAX | ND5000.
Inductive OptionUser := User_Normal | User_Reserved | User_RemUser | User_ReplicationLogin.

Record TypeFlags := { sql_type : OptionSqlType; ole_db : OptionOleDb; access_intent : ApplicationIntent }.

Definition TypeFlags_value (f : TypeFlags) : Z :=
  let v := set_options_bit 0 (match sql_type f with Sql_TSQL => true | _ => false end) 0x08 in
  let v := set_options_bit v (match ole_db f with OleDb_On => true | _ => false end) 0x10 in
  set_options_bit v (bool_decide (access_intent f = ReadOnly)) 0x20.

Definition TypeFlags_from (c : ClientContext) : TypeFlags :=
  {| sql_type := Sql_Default; ole_db := OleDb_Off; access_intent := cc_application_intent c |}.

(** The two-valued enums of [OptionFlags1] are booleans, true for their second constructor. *)
Record OptionFlags1 := {
  endian_big : bool; charset_ebcdic : bool; float : OptionFloat; bcp_dumpload_off : bool;
  use_db_on : bool; init_db_fatal : bool; lang_warn_on : bool }.

Definition OptionFlags1_default : OptionFlags1 :=
  {| endian_big := false; charset_ebcdic := false; float := IEEE; bcp_dumpload_off := false;
     use_db_on := true; init_db_fatal := true; lang_warn_on := true |}.

Definition set_float_bits (value : Z) (f : OptionFloat) : Z :=
  match f with
  | IEEE => Z.land (Z.land value (255 - 0x04)) (255 - 0x08)
  | VAX => Z.land (Z.lor value 0x04) (255 - 0x08)
  | ND5000 => Z.lor (Z.land value (255 - 0x04)) 0x08
  end.

Definition OptionFlags1_value (f : OptionFlags1) : Z :=
  let v := set_options_bit 0 (endian_big f) 0x01 in
  let v := set_options_bit v (charset_ebcdic f) 0x02 in
  let v := set_float_bits v (float f) in
  let v := set_options_bit v (bcp_dumpload_off f) 0x10 in
  let v := set_options_bit v (use_db_on f) 0x20 in
  let v := set_options_bit v (init_db_fatal f) 0x40 in
  set_options_bit v (lang_warn_on f) 0x80.

Record OptionFlags2 := {
  init_lang_fatal : bool; odbc_on : bool; user : OptionUser; integrated_security_on : bool }.

Definition OptionFlags2_from (c : ClientContext) : OptionFlags2 :=
  {| init_lang_fatal := true; odbc_on := true;
     user := if cc_replication c then User_ReplicationLogin else User_Normal;
     integrated_security_on := integrated_security c |}.

Definition set_user_bit (value : Z) (u : OptionUser) : Z :=
  let clear v bit := Z.land v (255 - bit) in
  match u with
  | User_Normal => clear (clear (clear value 0x10) 0x20) 0x40
  | User_Reserved => clear (clear (Z.lor value 0x10) 0x20) 0x40
  | User_RemUser => clear (Z.lor (clear value 0x10) 0x20) 0x40
  | User_ReplicationLogin => Z.lor (clear (clear value 0x10) 0x20) 0x40
  end.

Definition OptionFlags2_value (f : OptionFlags2) : Z :=
  let v := set_options_bit 0 (init_lang_fatal f) 0x01 in
  let v := set_options_bit v (integrated_security_on f) 0x80 in
  let v := set_options_bit v (odbc_on f) 0x02 in
  set_user_bit v (user f).

Record OptionFlags3 := {
  change_password_yes : bool; binary_xml : bool; spawn_user_instance : bool; extension_used : bool;
  unknown_collation_handling : bool }.

Definition OptionFlags3_from (c : ClientContext) : OptionFlags3 :=
  {| change_password_yes := negb (is_empty (cc_change_password c)); binary_xml := false;
     spawn_user_instance := cc_user_instance c; unknown_collation_handling := false;
     extension_used := true |}.

Definition OptionFlags3_value (f : OptionFlags3) : Z :=
  let v := set_options_bit 0 (change_password_yes f) 0x01 in
  let v := set_options_bit v (binary_xml f) 0x02 in
  let v := set_options_bit v (spawn_user_instance f) 0x04 in
  let v := set_options_bit v (extension_used f) 0x10 in
  set_options_bit v (unknown_collation_handling f) 0x08.
