(* ===== verification/Features.v ===== *)
(** * LOGIN7 feature extensions (src/mssql-tds/src/message/features/, [Feature] and
    [FeaturesRequest] of message/login.rs)

    Each extension the client can offer: what it writes, what it makes of the server's
    acknowledgement, and the set of them that one login carries. *)

From stdpp Require Import strings gmap.
From S2P Require Import Prelude Core Unicode Text PacketReader PacketWriter Tokens SessionRecovery.
From S2P Require Import Prelogin DataClassification DataSource ClientContext HostPolicy.

(** ** The trait *)

Class FeatureTrait (F : Type) := {
  f_identifier : F -> FeatureExtension;
  f_is_requested : F -> bool;
  f_data_length : F -> TdsResult Z;
  f_serialize : F -> M PacketWriter unit;
  f_deserialize : bytes -> M F unit;
  f_negotiated_version : F -> Z;
  f_is_acknowledged : F -> bool;
  f_set_acknowledged : bool -> F -> F;
}.

(** Identifier, length and data, as every extension is written. *)
Definition write_feature_header (id : FeatureExtension) (length : Z) : M PacketWriter unit :=
  write_byte_async (FeatureExtension_u8 id) ;; write_i32_async length.

Definition one_byte (what : string) (data : bytes) : TdsResult Z :=
  match data with
  | [b] => Ok (byte_val b)
  | _ => Err (ProtocolError ("Invalid data length for " +:+ what +:+ " feature, expected 1 byte"))
  end.

(** ** UTF-8, JSON *)

Record Utf8Feature := { utf8_acknowledged : bool }.

#[export] Instance Utf8Feature_trait : FeatureTrait Utf8Feature := {
  f_identifier _ := Utf8Support;
  f_is_requested _ := true;
  f_data_length _ := Ok 5;
  f_serialize _ := write_feature_header Utf8Support 0;
  f_deserialize data := _ <- lift (one_byte "UTF-8" data) ;; ret tt;
  f_negotiated_version _ := 0;
  f_is_acknowledged f := utf8_acknowledged f;
  f_set_acknowledged a _ := {| utf8_acknowledged := a |};
}.

Record JsonFeature := { json_acknowledged : bool }.

Definition JsonFeature_VERSION : Z := 1.

Definition JsonFeature_deserialize (data : bytes) : TdsResult unit :=
  let? v := one_byte "JSON" data in
  if negb (v =? JsonFeature_VERSION) && negb (v =? 0) then
    Err (ProtocolError "Unsupported JSON feature version")
  else Ok tt.

#[export] Instance JsonFeature_trait : FeatureTrait JsonFeature := {
  f_identifier _ := Json;
  f_is_requested _ := true;
  f_data_length _ := Ok 6;
  f_serialize _ := write_feature_header Json 1 ;; write_byte_async JsonFeature_VERSION;
  f_deserialize data := lift (JsonFeature_deserialize data);
  f_negotiated_version _ := 0;
  f_is_acknowledged f := json_acknowledged f;
  f_set_acknowledged a _ := {| json_acknowledged := a |};
}.

(** ** DNS caching, enhanced routing *)

Record DnsCachingFeature := {
  dns_acknowledged : bool; dns_allowed : bool; dns_resolution : option Resolution }.

#[export] Instance DnsCachingFeature_eta : Eta DnsCachingFeature := fun f =>
  Build_DnsCachingFeature (dns_acknowledged f) (dns_allowed f) (dns_resolution f).

Definition DnsCachingFeature_default : DnsCachingFeature :=
  {| dns_acknowledged := false; dns_allowed := false; dns_resolution := None |}.

Definition for_resolution (r : Resolution) : DnsCachingFeature :=
  DnsCachingFeature_default {{ dns_resolution := Some r }}.

Definition first_bit (data : bytes) : bool :=
  match data with flags :: _ => Z.land (byte_val flags) 1 =? 1 | [] => false end.

Definition DnsCaching_verdict (f : DnsCachingFeature) : option (Resolution * bool) :=
  (fun r => (r, dns_acknowledged f && dns_allowed f)) <$> dns_resolution f.

#[export] Instance DnsCachingFeature_trait : FeatureTrait DnsCachingFeature := {
  f_identifier _ := SqlDnsCaching;
  f_is_requested _ := true;
  f_data_length _ := Ok 5;
  f_serialize _ := write_feature_header SqlDnsCaching 0;
  f_deserialize data := modify (fun f => f {{ dns_allowed := first_bit data }});
  f_negotiated_version _ := 0;
  f_is_acknowledged f := dns_acknowledged f;
  f_set_acknowledged a f :=
    let f := f {{ dns_acknowledged := a }} in if a then f else f {{ dns_allowed := false }};
}.

Record EnhancedRoutingFeature := { er_acknowledged : bool; er_enabled : bool }.

#[export] Instance EnhancedRoutingFeature_eta : Eta EnhancedRoutingFeature := fun f =>
  Build_EnhancedRoutingFeature (er_acknowledged f) (er_enabled f).

Definition EnhancedRouting_deserialize (data : bytes) : M EnhancedRoutingFeature unit :=
  match data with
  | [b] =>
      if (byte_val b =? 0) || (byte_val b =? 1) then
        modify (fun f => f {{ er_enabled := byte_val b =? 1 }})
      else throw (ProtocolError "Invalid Enhanced Routing feature acknowledgement")
  | _ => throw (ProtocolError "Invalid Enhanced Routing feature acknowledgement")
  end.

#[export] Instance EnhancedRoutingFeature_trait : FeatureTrait EnhancedRoutingFeature := {
  f_identifier _ := EnhancedRouting;
  f_is_requested _ := true;
  f_data_length _ := Ok 5;
  f_serialize _ := write_feature_header EnhancedRouting 0;
  f_deserialize := EnhancedRouting_deserialize;
  f_negotiated_version _ := 0;
  f_is_acknowledged f := er_acknowledged f;
  f_set_acknowledged a f :=
    let f := f {{ er_acknowledged := a }} in if a then f else f {{ er_enabled := false }};
}.

(** ** Vector, Always Encrypted *)

Record VectorFeature := {
  vec_acknowledged : bool; vec_negotiated_version : Z; vec_client_version : Z }.

#[export] Instance VectorFeature_eta : Eta VectorFeature := fun f =>
  Build_VectorFeature (vec_acknowledged f) (vec_negotiated_version f) (vec_client_version f).

Definition VectorFeature_new (client_version : Z) : VectorFeature :=
  {| vec_acknowledged := false; vec_negotiated_version := 0; vec_client_version := client_version |}.

Definition VectorFeature_from (v : VectorVersion) : option VectorFeature :=
  match v with
  | Vector_Off => None
  | Vector_V1 => Some (VectorFeature_new 1)
  | Vector_V2 => Some (VectorFeature_new 2)
  end.

Definition Vector_deserialize (data : bytes) : M VectorFeature unit :=
  v <- lift (one_byte "VectorSupport" data) ;;
  client <- gets vec_client_version ;;
  if v =? 0 then modify (fun f => f {{ vec_negotiated_version := 0 }})
  else if client <? v then throw (ProtocolError "Server VectorSupport version exceeds client requested version")
  else modify (fun f => f {{ vec_negotiated_version := v }}).

#[export] Instance VectorFeature_trait : FeatureTrait VectorFeature := {
  f_identifier _ := Vector;
  f_is_requested _ := true;
  f_data_length _ := Ok 6;
  f_serialize f := write_feature_header Vector 1 ;; write_byte_async (vec_client_version f);
  f_deserialize := Vector_deserialize;
  f_negotiated_version f := if vec_acknowledged f then vec_negotiated_version f else 0;
  f_is_acknowledged f := vec_acknowledged f;
  f_set_acknowledged a f :=
    let f := f {{ vec_acknowledged := a }} in if a then f else f {{ vec_negotiated_version := 0 }};
}.

Record AlwaysEncryptedFeature := {
  ae_acknowledged : bool; ae_negotiated_version : Z; ae_client_version : Z }.

#[export] Instance AlwaysEncryptedFeature_eta : Eta AlwaysEncryptedFeature := fun f =>
  Build_AlwaysEncryptedFeature (ae_acknowledged f) (ae_negotiated_version f) (ae_client_version f).

Definition AlwaysEncryptedFeature_VERSION : Z := 1.

Definition AlwaysEncryptedFeature_default : AlwaysEncryptedFeature :=
  {| ae_acknowledged := false; ae_negotiated_version := 0;
     ae_client_version := AlwaysEncryptedFeature_VERSION |}.

Definition AlwaysEncrypted_deserialize (data : bytes) : M AlwaysEncryptedFeature unit :=
  v <- lift (one_byte "Always Encrypted" data) ;;
  client <- gets ae_client_version ;;
  if v =? 0 then modify (fun f => f {{ ae_negotiated_version := 0 }})
  else if client <? v then throw (ProtocolError "Server Always Encrypted version exceeds client requested version")
  else modify (fun f => f {{ ae_negotiated_version := v }}).

#[export] Instance AlwaysEncryptedFeature_trait : FeatureTrait AlwaysEncryptedFeature := {
  f_identifier _ := AlwaysEncrypted;
  f_is_requested _ := true;
  f_data_length _ := Ok 6;
  f_serialize f := write_feature_header AlwaysEncrypted 1 ;; write_byte_async (ae_client_version f);
  f_deserialize := AlwaysEncrypted_deserialize;
  f_negotiated_version f := ae_negotiated_version f;
  f_is_acknowledged f := ae_acknowledged f;
  f_set_acknowledged a f := f {{ ae_acknowledged := a }};
}.

(** ** Data classification *)

Record DataClassificationFeature := {
  dc_acknowledged : bool;
  dc_requested_version : DataClassificationVersion;
  dc_negotiated_version : option DataClassificationVersion }.

#[export] Instance DataClassificationFeature_eta : Eta DataClassificationFeature := fun f =>
  Build_DataClassificationFeature (dc_acknowledged f) (dc_requested_version f) (dc_negotiated_version f).

Definition DataClassificationFeature_new (v : DataClassificationVersion) : DataClassificationFeature :=
  {| dc_acknowledged := false; dc_requested_version := v; dc_negotiated_version := None |}.

Definition DataClassificationVersion_u8 (v : DataClassificationVersion) : Z :=
  match v with Version1 => 1 | Version2 => 2 end.

Definition DataClassification_deserialize (data : bytes) : M DataClassificationFeature unit :=
  match data with
  | version :: is_enabled :: _ =>
      match DataClassificationVersion_try_from (byte_val version) with
      | Ok version =>
          modify (fun f =>
            let requested := dc_requested_version f in
            let layout := if DataClassificationVersion_u8 version <? DataClassificationVersion_u8 requested
                          then version else requested in
            f {{ dc_negotiated_version := if byte_val is_enabled =? 0 then None else Some layout }})
      | _ => throw (ProtocolError "Invalid Data Classification feature acknowledgement version")
      end
  | _ => throw (ProtocolError "Invalid data length for Data Classification feature acknowledgement")
  end.

Definition negotiated_data_classification_version (f : DataClassificationFeature)
    : option DataClassificationVersion :=
  if dc_acknowledged f then dc_negotiated_version f else None.

#[export] Instance DataClassificationFeature_trait : FeatureTrait DataClassificationFeature := {
  f_identifier _ := DataClassification;
  f_is_requested _ := true;
  f_data_length _ := Ok 6;
  f_serialize f :=
    write_feature_header DataClassification 1 ;;
    write_byte_async (DataClassificationVersion_u8 (dc_requested_version f));
  f_deserialize := DataClassification_deserialize;
  f_negotiated_version _ := 0;
  f_is_acknowledged f := dc_acknowledged f;
  f_set_acknowledged a f :=
    let f := f {{ dc_acknowledged := a }} in if a then f else f {{ dc_negotiated_version := None }};
}.

(** ** Federated authentication *)

Record FedAuthFeature := {
  fa_acknowledged : bool;
  fa_tds_authentication_method : TdsAuthenticationMethod;
  access_token_bytes : option bytes;
  prelogin_has_fedauth_response : bool }.

Definition FedAuthFeature_new (m : TdsAuthenticationMethod) (access_token : option str) (prelogin : bool)
    : FedAuthFeature :=
  {| fa_acknowledged := false; fa_tds_authentication_method := m;
     access_token_bytes := (fun token => units_le (utf16 token)) <$> access_token;
     prelogin_has_fedauth_response := prelogin |}.

Definition get_options (f : FedAuthFeature) : Z :=
  let options :=
    if bool_decide (fa_tds_authentication_method f = AccessToken)
    then Z.lor 0 (Z.shiftl 0x01 1) else Z.lor 0 (Z.shiftl 0x02 1) in
  Z.lor options (if prelogin_has_fedauth_response f then 0x01 else 0x00).

Definition get_work_flow_identifier (f : FedAuthFeature) : TdsResult Z :=
  match fa_tds_authentication_method f with
  | ActiveDirectoryInteractive => Ok 0x03
  | ActiveDirectoryIntegrated => Ok 0x02
  | ActiveDirectoryPassword => Ok 0x01
  | ActiveDirectoryServicePrincipal => Ok 0x01
  | ActiveDirectoryDeviceCodeFlow => Ok 0x03
  | ActiveDirectoryManagedIdentity | ActiveDirectoryMSI => Ok 0x03
  | ActiveDirectoryWorkloadIdentity => Ok 0x03
  | ActiveDirectoryDefault | ActiveDirectoryTokenCredential => Ok 0x03
  | Password | SSPI | AccessToken =>
      Err (ProtocolError "Unsupported authentication method used with FedAuth feature")
  end.

Definition get_payload_length (f : FedAuthFeature) : TdsResult Z :=
  let len := match access_token_bytes f with
             | Some bs => 1 + 4 + Z.of_nat (length bs)
             | None => 2
             end in
  if len <? 2 ^ 31 then Ok len else Err (ProtocolError "FedAuth payload length exceeds i32 range").

Definition FedAuth_data_length (f : FedAuthFeature) : TdsResult Z :=
  match get_payload_length f with
  | Ok data_length => Ok (as_i32 (data_length + 5))
  | _ => Panic "called `Result::unwrap()` on an `Err` value"
  end.

Definition FedAuth_serialize (f : FedAuthFeature) : M PacketWriter unit :=
  write_byte_async (FeatureExtension_u8 FedAuth) ;;
  len <- lift (get_payload_length f) ;;
  write_i32_async len ;;
  write_byte_async (get_options f) ;;
  match access_token_bytes f with
  | Some bs => write_i32_async (as_i32 (Z.of_nat (length bs))) ;; write_async bs
  | None => w <- lift (get_work_flow_identifier f) ;; write_byte_async w
  end.

#[export] Instance FedAuthFeature_trait : FeatureTrait FedAuthFeature := {
  f_identifier _ := FedAuth;
  f_is_requested f := negb (bool_decide (fa_tds_authentication_method f = Password)) &&
                      negb (bool_decide (fa_tds_authentication_method f = SSPI));
  f_data_length := FedAuth_data_length;
  f_serialize := FedAuth_serialize;
  f_deserialize _ := ret tt;
  f_negotiated_version _ := 0;
  f_is_acknowledged f := fa_acknowledged f;
  f_set_acknowledged a f :=
    {| fa_acknowledged := a; fa_tds_authentication_method := fa_tds_authentication_method f;
       access_token_bytes := access_token_bytes f;
       prelogin_has_fedauth_response := prelogin_has_fedauth_response f |};
}.

(** ** User agent *)

Definition UNKNOWN_VAL : str := lit "Unknown".
Definition MAX_ARCH_LEN : nat := 10.
Definition MAX_OS_TYPE_LEN : nat := 10.
Definition MAX_OS_DETAILS_LEN : nat := 44.
Definition MAX_DRIVER_NAME_LEN : nat := 12.
Definition MAX_DRIVER_VER_LEN : nat := 24.
Definition MAX_RUNTIME_LEN : nat := 44.

Definition is_field_char (ch : char) : bool :=
  is_ascii_alphanumeric ch || (ch =? 32) || (ch =? 46) || (ch =? 43) || (ch =? 95) || (ch =? 45).

(** The loop of [sanitize_field]. *)
Fixpoint sanitize_loop (max_len : nat) (val sanitized : str) : str :=
  match val with
  | [] => sanitized
  | ch :: val =>
      if (max_len <=? str_len sanitized)%nat then sanitized
      else sanitize_loop max_len val (if is_field_char ch then sanitized ++ [ch] else sanitized)
  end.

Definition sanitize_field (val : str) (max_len : nat) : TdsResult str :=
  let trimmed := trim (sanitize_loop max_len val []) in
  if is_empty trimmed then Ok UNKNOWN_VAL
  else if (max_len <? str_len trimmed)%nat then str_to max_len trimmed
  else Ok trimmed.

Definition get_os_type_from_name (os_name : str) : str :=
  if bool_decide (os_name = lit "windows") then lit "Windows"
  else if bool_decide (os_name = lit "linux") then lit "Linux"
  else if bool_decide (os_name = lit "macos") then lit "macOS"
  else if bool_decide (os_name = lit "freebsd") then lit "FreeBSD"
  else if bool_decide (os_name = lit "android") then lit "Android"
  else UNKNOWN_VAL.

Record SystemEnvironmentInfo := {
  architecture : str; os_type : str; os_details : str; fallback_runtime : str }.

(** [SystemEnvironmentInfo::detect], given what the target and the operating system report. *)
Definition detect (arch os details : str) : TdsResult SystemEnvironmentInfo :=
  let? architecture := sanitize_field arch MAX_ARCH_LEN in
  let? os_type := sanitize_field (get_os_type_from_name os) MAX_OS_TYPE_LEN in
  let? os_details := sanitize_field details MAX_OS_DETAILS_LEN in
  let? fallback := sanitize_field UNKNOWN_VAL MAX_RUNTIME_LEN in
  Ok {| architecture := architecture; os_type := os_type; os_details := os_details;
        fallback_runtime := fallback |}.

Record UserAgentFeature := { payload : str }.

Definition UserAgentFeature_new (env_info : SystemEnvironmentInfo) (c : ClientContext)
    : TdsResult UserAgentFeature :=
  let name := ua_library_name (cc_user_agent c) in
  let? driver_name :=
    sanitize_field (if is_empty name then DEFAULT_LIBRARY_NAME else name) MAX_DRIVER_NAME_LEN in
  let ver := ua_driver_version (cc_user_agent c) in
  let base_ver := DriverVersion_display (cc_driver_version c) in
  let? driver_version := sanitize_field (if is_empty ver then base_ver else ver) MAX_DRIVER_VER_LEN in
  let v := ua_runtime (cc_user_agent c) in
  let? runtime_details :=
    if is_empty v || bool_decide (v = UNKNOWN_VAL) then Ok (fallback_runtime env_info)
    else sanitize_field v MAX_RUNTIME_LEN in
  Ok {| payload := lit "1|" ++ driver_name ++ lit "|" ++ driver_version ++ lit "|" ++
                   architecture env_info ++ lit "|" ++ os_type env_info ++ lit "|" ++
                   os_details env_info ++ lit "|" ++ runtime_details |}.

Definition utf16_len (s : str) : Z := Z.of_nat (length (utf16 s)) * 2.

#[export] Instance UserAgentFeature_trait : FeatureTrait UserAgentFeature := {
  f_identifier _ := UserAgent;
  f_is_requested _ := true;
  f_data_length f := Ok (as_i32 (1 + 4 + utf16_len (payload f)));
  f_serialize f :=
    write_feature_header UserAgent (as_i32 (utf16_len (payload f))) ;;
    write_string_unicode_async (payload f);
  f_deserialize _ := ret tt;
  f_negotiated_version _ := 0;
  f_is_acknowledged _ := false;
  f_set_acknowledged _ f := f;
}.

(** ** Session recovery, whose parts SessionRecovery models *)

#[export] Instance SessionRecoveryFeature_trait : FeatureTrait SessionRecoveryFeature := {
  f_identifier _ := SRecovery;
  f_is_requested := is_requested;
  f_data_length f := Ok (data_length f);
  f_serialize := SessionRecoveryFeature_serialize;
  f_deserialize data := modify (SessionRecoveryFeature_deserialize data);
  f_negotiated_version _ := 0;
  f_is_acknowledged := acknowledged;
  f_set_acknowledged a f := f {{ acknowledged := a }};
}.

(** ** [Box<dyn Feature>] *)

Inductive AnyFeature :=
  | F_Utf8 (f : Utf8Feature) | F_Json (f : JsonFeature) | F_DnsCaching (f : DnsCachingFeature)
  | F_EnhancedRouting (f : EnhancedRoutingFeature) | F_Vector (f : VectorFeature)
  | F_AlwaysEncrypted (f : AlwaysEncryptedFeature) | F_DataClassification (f : DataClassificationFeature)
  | F_FedAuth (f : FedAuthFeature) | F_UserAgent (f : UserAgentFeature)
  | F_SessionRecovery (f : SessionRecoveryFeature).

(** Dispatch of a method that returns a value, and of one that changes the feature. *)
Definition dispatch {A} (m : forall F, FeatureTrait F -> F -> A) (f : AnyFeature) : A :=
  match f with
  | F_Utf8 f => m _ _ f | F_Json f => m _ _ f | F_DnsCaching f => m _ _ f
  | F_EnhancedRouting f => m _ _ f | F_Vector f => m _ _ f | F_AlwaysEncrypted f => m _ _ f
  | F_DataClassification f => m _ _ f | F_FedAuth f => m _ _ f | F_UserAgent f => m _ _ f
  | F_SessionRecovery f => m _ _ f
  end.

Definition rewrap {A F} (wrap : F -> AnyFeature) (r : A * F) : A * AnyFeature := (fst r, wrap (snd r)).

Definition dispatch_mut {A} (m : forall F, FeatureTrait F -> F -> A * F) (f : AnyFeature) : A * AnyFeature :=
  match f with
  | F_Utf8 f => rewrap F_Utf8 (m _ _ f) | F_Json f => rewrap F_Json (m _ _ f)
  | F_DnsCaching f => rewrap F_DnsCaching (m _ _ f)
  | F_EnhancedRouting f => rewrap F_EnhancedRouting (m _ _ f)
  | F_Vector f => rewrap F_Vector (m _ _ f) | F_AlwaysEncrypted f => rewrap F_AlwaysEncrypted (m _ _ f)
  | F_DataClassification f => rewrap F_DataClassification (m _ _ f)
  | F_FedAuth f => rewrap F_FedAuth (m _ _ f) | F_UserAgent f => rewrap F_UserAgent (m _ _ f)
  | F_SessionRecovery f => rewrap F_SessionRecovery (m _ _ f)
  end.

#[export] Instance AnyFeature_trait : FeatureTrait AnyFeature := {
  f_identifier := dispatch (fun _ _ => f_identifier);
  f_is_requested := dispatch (fun _ _ => f_is_requested);
  f_data_length := dispatch (fun _ _ => f_data_length);
  f_serialize := dispatch (fun _ _ => f_serialize);
  f_deserialize data := dispatch_mut (fun _ _ => f_deserialize data);
  f_negotiated_version := dispatch (fun _ _ => f_negotiated_version);
  f_is_acknowledged := dispatch (fun _ _ => f_is_acknowledged);
  f_set_acknowledged a f := snd (dispatch_mut (fun _ _ f => (tt, f_set_acknowledged a f)) f);
}.

(** The methods of the trait that one extension overrides. *)
Definition dns_caching_verdict (f : AnyFeature) : option (Resolution * bool) :=
  match f with F_DnsCaching f => DnsCaching_verdict f | _ => None end.

Definition enhanced_routing_enabled (f : AnyFeature) : bool :=
  match f with F_EnhancedRouting f => er_acknowledged f && er_enabled f | _ => false end.

Definition feature_initial_state (f : AnyFeature) : option bytes :=
  match f with F_SessionRecovery f => srf_initial_state_data f | _ => None end.

Definition feature_classification_version (f : AnyFeature) : option DataClassificationVersion :=
  match f with F_DataClassification f => negotiated_data_classification_version f | _ => None end.

(** ** [FeaturesRequest] *)

#[global] Instance FeatureExtension_countable : Countable FeatureExtension.
Proof.
  refine (inj_countable'
    (fun f => match f with Feature_Unknown v => inr v | _ => inl (FeatureExtension_u8 f) end)
    (fun x => match x with inr v => Feature_Unknown v | inl u => FeatureExtension_from u end) _).
  by intros [].
Defined.

Abbreviation FeaturesRequest := (gmap FeatureExtension AnyFeature) (only parsing).

(** The order in which a [HashMap]'s iterators visit its values: arbitrary, each value once. *)
Class HashOrder := {
  hash_values : FeaturesRequest -> list AnyFeature;
  hash_values_perm m : hash_values m ≡ₚ (map_to_list m).*2;
}.

(** [FeaturesRequest::build]. *)
Definition FeaturesRequest_build (authentication_options : TdsAuthenticationMethod) (access_token : option str)
    (prelogin_fedauth_response : bool) (vector_version : VectorVersion)
    (column_encryption_setting : ColumnEncryptionSetting) (user_agent_feature : UserAgentFeature)
    (requested_data_classification_version : option DataClassificationVersion) : FeaturesRequest :=
  let features : FeaturesRequest := ∅ in
  let features := <[Utf8Support := F_Utf8 {| utf8_acknowledged := false |}]> features in
  let features := <[SqlDnsCaching := F_DnsCaching DnsCachingFeature_default]> features in
  let features := <[Json := F_Json {| json_acknowledged := false |}]> features in
  let features := <[UserAgent := F_UserAgent user_agent_feature]> features in
  let features := <[EnhancedRouting :=
    F_EnhancedRouting {| er_acknowledged := false; er_enabled := false |}]> features in
  let features :=
    match VectorFeature_from vector_version with
    | Some f => <[Vector := F_Vector f]> features
    | None => features
    end in
  let features :=
    if bool_decide (column_encryption_setting = CE_Enabled)
    then <[AlwaysEncrypted := F_AlwaysEncrypted AlwaysEncryptedFeature_default]> features else features in
  let features :=
    match requested_data_classification_version with
    | Some v => <[DataClassification := F_DataClassification (DataClassificationFeature_new v)]> features
    | None => features
    end in
  if negb (bool_decide (authentication_options = SSPI)) &&
     negb (bool_decide (authentication_options = Password))
  then <[FedAuth := F_FedAuth (FedAuthFeature_new authentication_options access_token
                                 prelogin_fedauth_response)]> features
  else features.

(** [from_context_with_recovery]. *)
Definition from_context_with_recovery (env_info : SystemEnvironmentInfo) (c : ClientContext)
    (prelogin_fedauth_response : bool) (recovery_data : option SessionRecoveryData)
    : TdsResult FeaturesRequest :=
  let? user_agent := UserAgentFeature_new env_info c in
  let request := FeaturesRequest_build (cc_tds_authentication_method c) (cc_access_token c) prelogin_fedauth_response
                   (cc_vector_version c) (cc_column_encryption_setting c) user_agent
                   (cc_requested_data_classification_version c) in
  Ok (if 0 <? cc_connect_retry_count c then
        <[SRecovery := F_SessionRecovery
          match recovery_data with
          | Some d => new_for_reconnection d
          | None => SessionRecoveryFeature_new (cc_connect_retry_count c)
          end]> request
      else request).

(** [set_acknowledged]: the feature is marked before its data is read, and stays marked when the
    data is refused. *)
Definition set_acknowledged (ext : FeatureExtension) (data : bytes) : M FeaturesRequest unit := fun fs =>
  match fs !! ext with
  | Some f => let '(r, f) := f_deserialize data (f_set_acknowledged true f) in (r, <[ext := f]> fs)
  | None => (Ok tt, fs)
  end.

Definition bind_dns_caching (r : Resolution) (fs : FeaturesRequest) : FeaturesRequest :=
  <[SqlDnsCaching := F_DnsCaching (for_resolution r)]> fs.

Definition reset_dns_caching_acknowledgement (fs : FeaturesRequest) : FeaturesRequest :=
  match fs !! SqlDnsCaching with
  | Some f => <[SqlDnsCaching := f_set_acknowledged false f]> fs
  | None => fs
  end.

Definition apply_dns_caching_verdict (is_ip : str -> bool) (fs : FeaturesRequest) (cache : DnsCache)
    : DnsCache :=
  match fs !! SqlDnsCaching ≫= dns_caching_verdict with
  | Some (resolution, allowed) => apply_verdict is_ip resolution allowed cache
  | None => cache
  end.

Definition get_requested_features `{HashOrder} (fs : FeaturesRequest) : list AnyFeature :=
  filter (fun f => f_is_requested f = true) (hash_values fs).

Definition request_enhanced_routing_enabled (fs : FeaturesRequest) : bool :=
  match fs !! EnhancedRouting with Some f => enhanced_routing_enabled f | None => false end.
