(* ===== verification/Login.v ===== *)
(** * LOGIN7 (src/mssql-tds/src/message/login.rs)

    The record a login sends: a fixed part, a table of offsets and lengths, the fields the table
    points at in the order they were announced, and the feature extensions.  The two messages
    that continue an authentication are here too. *)

From stdpp Require Import strings gmap.
From S2P Require Import Prelude Core Unicode Text PacketReader PacketWriter Tokens SessionRecovery.
From S2P Require Import Prelogin DataSource ClientContext Features.

Definition FIXED_LOGIN_RECORD_LENGTH : Z := 94.
Definition MAX_LOGIN_RECORD_LENGTH : Z := 128 * 1024 - 1.

(** The four option bytes, the versions, the numbers, and the SSPI token of a login. *)
Record LoginRequestModel := {
  option_flags1 : OptionFlags1;
  option_flags2 : OptionFlags2;
  option_flags3 : OptionFlags3;
  type_flags : TypeFlags;
  lr_tds_version : TdsVersion;
  user_input : ClientContext;
  transport_context : TransportContext;
  features_request : gmap FeatureExtension AnyFeature;
  client_prog_ver : Z;
  client_process_id : Z;
  connection_id_deprecated : Z;
  client_time_zone_deprecated : Z;
  client_lcid_deprecated : Z;
  client_id : bytes;
  sspi_token : option bytes;
}.

#[export] Instance LoginRequestModel_eta : Eta LoginRequestModel := fun m =>
  Build_LoginRequestModel (option_flags1 m) (option_flags2 m) (option_flags3 m) (type_flags m)
    (lr_tds_version m) (user_input m) (transport_context m) (features_request m) (client_prog_ver m)
    (client_process_id m) (connection_id_deprecated m) (client_time_zone_deprecated m)
    (client_lcid_deprecated m) (client_id m) (sspi_token m).

Definition from_context (env_info : SystemEnvironmentInfo) (c : ClientContext)
    (pre_login_fedauth_response : bool) (t : TransportContext)
    (recovery_data : option SessionRecoveryData) : TdsResult LoginRequestModel :=
  let? features := from_context_with_recovery env_info c pre_login_fedauth_response recovery_data in
  Ok {| option_flags1 := OptionFlags1_default;
        option_flags2 := OptionFlags2_from c;
        option_flags3 := OptionFlags3_from c;
        type_flags := TypeFlags_from c;
        lr_tds_version := ctx_tds_version c;
        user_input := c;
        transport_context := t;
        features_request := features;
        client_prog_ver := DriverVersion_encode (cc_driver_version c);
        client_process_id := 0;
        connection_id_deprecated := 0;
        client_time_zone_deprecated := 0;
        client_lcid_deprecated := 0;
        client_id := repeat (byte_of 0) 6;
        sspi_token := None |}.

Definition from_context_with_sspi (env_info : SystemEnvironmentInfo) (c : ClientContext)
    (pre_login_fedauth_response : bool) (t : TransportContext) (token : bytes)
    (recovery_data : option SessionRecoveryData) : TdsResult LoginRequestModel :=
  let? m := from_context env_info c pre_login_fedauth_response t recovery_data in
  Ok (m {{ sspi_token := Some token }}).

(** ** Sizes *)

Definition len_bytes (s : str) : Z := Z.of_nat (length (utf16 s)) * 2.

(** [utf16_code_units]. *)
Definition utf16_code_units (value : str) : TdsResult Z :=
  let n := Z.of_nat (length (utf16 value)) in
  if n <? 2 ^ 16 then Ok n else Err (UsageError "LOGIN7 string exceeds the maximum of UTF-16 code units").

Definition calculate_byte_length_for_authentication (c : ClientContext) : Z :=
  if bool_decide (cc_tds_authentication_method c = Password)
  then len_bytes (cc_password c) + len_bytes (cc_user_name c) else 0.

(** [len_bytes] of [ClientContext]. *)
Definition context_len_bytes (c : ClientContext) : Z :=
  len_bytes (cc_workstation_id c) + len_bytes (cc_application_name c) + len_bytes (cc_library_name c) +
  len_bytes (cc_language c) + len_bytes (cc_database c) + len_bytes (cc_attach_db_file c) +
  len_bytes (cc_change_password c) + calculate_byte_length_for_authentication c.

Definition sspi_length (m : LoginRequestModel) : Z :=
  match sspi_token m with Some t => Z.of_nat (length t) | None => 0 end.

(** ** [scramble_password] *)

Definition scramble_byte (b : byte) : byte :=
  let b := byte_val b in
  byte_of (Z.lxor (Z.lor (Z.shiftr b 4) (as_u8 (Z.shiftl b 4))) 0xA5).

Definition scramble_password (password_utf16_bytes : bytes) : bytes := scramble_byte <$> password_utf16_bytes.

(** ** The serializer *)

Inductive LoginDeferredPayload :=
  | D_HostName | D_UserName | D_Password | D_AppName | D_ServerName | D_FeatureExtOffset | D_Library
  | D_Language | D_Database | D_AttachDbFile | D_ChangePassword | D_Sspi.

(** What the serializer keeps between fields. *)
Record Serializer := {
  content_next_offset : Z;
  deferred_actions_indicator : list LoginDeferredPayload;
}.

#[export] Instance Serializer_eta : Eta Serializer := fun s =>
  Build_Serializer (content_next_offset s) (deferred_actions_indicator s).

Definition push (p : LoginDeferredPayload) (s : Serializer) : Serializer :=
  s {{ deferred_actions_indicator ::= fun l => l ++ [p] }}.

Definition current_offset (s : Serializer) : TdsResult Z :=
  if (0 <=? content_next_offset s) && (content_next_offset s <? 2 ^ 16) then Ok (content_next_offset s)
  else Err (UsageError "LOGIN7 field offset exceeds the maximum").

Definition write_empty_entry : M PacketWriter unit := write_u16_async 0 ;; write_u16_async 0.

Definition write_metadata (char_length : Z) (s : Serializer) : M PacketWriter (bool * Serializer) :=
  if char_length =? 0 then write_empty_entry ;; ret (false, s)
  else
    offset <- lift (current_offset s) ;;
    write_u16_async offset ;;
    write_u16_async char_length ;;
    ret (true, s {{ content_next_offset ::= fun o => as_i32 (o + char_length * 2) }}).

(** One entry of the table: its offset and length, and the announcement of its payload. *)
Definition write_field (value : str) (p : LoginDeferredPayload) (s : Serializer) : M PacketWriter Serializer :=
  n <- lift (utf16_code_units value) ;;
  r <- write_metadata n s ;;
  let '(announced, s) := r in
  ret (if announced then push p s else s).

Section serializer.
Context `{HashOrder}.
Context (m : LoginRequestModel) (server_name : str).

Definition check_server_name_length : TdsResult unit :=
  if bool_decide (MAX_LOGIN7_NAME_UNITS < length (utf16 server_name))%nat
  then Err (UsageError "the LOGIN7 server name is too long") else Ok tt.

(** [len_bytes] of [FeaturesRequest]: the sizes are [i32]s added as [usize]s. *)
Fixpoint sum_data_lengths (fs : list AnyFeature) (length : Z) : TdsResult Z :=
  match fs with
  | [] => Ok length
  | f :: fs => let? n := f_data_length f in sum_data_lengths fs (as_u64 (length + as_u64 n))
  end.

Definition features_len_bytes : TdsResult Z :=
  let? length := sum_data_lengths (get_requested_features (features_request m)) 0 in
  Ok (as_u64 (length + 1)).

Definition feature_extension_offset : Z :=
  FIXED_LOGIN_RECORD_LENGTH + context_len_bytes (user_input m) + len_bytes server_name + 4 + sspi_length m.

Definition calculate_login_record_length : TdsResult (Z * Z) :=
  let? features := features_len_bytes in
  let login_record_length := as_u64 (feature_extension_offset + features) in
  if MAX_LOGIN_RECORD_LENGTH <? login_record_length then
    Err (UsageError "LOGIN7 record length exceeds the maximum")
  else Ok (as_i32 login_record_length, as_i32 feature_extension_offset).

Definition write_hostname := write_field (cc_workstation_id (user_input m)) D_HostName.

Definition write_username (s : Serializer) : M PacketWriter Serializer :=
  if bool_decide (cc_tds_authentication_method (user_input m) = Password)
  then write_field (cc_user_name (user_input m)) D_UserName s else write_empty_entry ;; ret s.

Definition write_password (s : Serializer) : M PacketWriter Serializer :=
  if bool_decide (cc_tds_authentication_method (user_input m) = Password)
  then write_field (cc_password (user_input m)) D_Password s else write_empty_entry ;; ret s.

Definition write_app_name := write_field (cc_application_name (user_input m)) D_AppName.
Definition write_server_name := write_field server_name D_ServerName.

Definition write_feature_ext (s : Serializer) : M PacketWriter Serializer :=
  offset <- lift (current_offset s) ;;
  write_u16_async offset ;;
  write_u16_async 4 ;;
  ret (push D_FeatureExtOffset (s {{ content_next_offset ::= fun o => as_i32 (o + 4) }})).

Definition write_library_name := write_field (cc_library_name (user_input m)) D_Library.
Definition write_language := write_field (cc_language (user_input m)) D_Language.
Definition write_database := write_field (cc_database (user_input m)) D_Database.
Definition write_client_id : M PacketWriter unit := write_async (client_id m).

Definition write_sspi_short (s : Serializer) : M PacketWriter Serializer :=
  if sspi_length m =? 0 then write_empty_entry ;; ret s
  else
    offset <- lift (current_offset s) ;;
    write_u16_async offset ;;
    (if sspi_length m <=? 0xFFFF then write_u16_async (as_u16 (sspi_length m)) else write_u16_async 0xFFFF) ;;
    ret (push D_Sspi (s {{ content_next_offset ::= fun o => as_i32 (o + as_i32 (sspi_length m)) }})).

Definition write_attach_db_file := write_field (cc_attach_db_file (user_input m)) D_AttachDbFile.
Definition write_change_password := write_field (cc_change_password (user_input m)) D_ChangePassword.

Definition write_cb_sspi_long : M PacketWriter unit :=
  if 0xFFFF <? sspi_length m then write_u32_async (as_u32 (sspi_length m)) else write_i32_async 0.

(** The table of the variable-length section. *)
Definition write_table (s : Serializer) : M PacketWriter Serializer :=
  s <- write_hostname s ;;
  s <- write_username s ;;
  s <- write_password s ;;
  s <- write_app_name s ;;
  s <- write_server_name s ;;
  s <- write_feature_ext s ;;
  s <- write_library_name s ;;
  s <- write_language s ;;
  s <- write_database s ;;
  write_client_id ;;
  s <- write_sspi_short s ;;
  s <- write_attach_db_file s ;;
  s <- write_change_password s ;;
  write_cb_sspi_long ;;
  ret s.

Definition write_scrambled (password : str) : M PacketWriter unit :=
  write_async (scramble_password (units_le (utf16 password))).

(** One turn of the loop over the announced payloads. *)
Definition write_deferred (extension_offset : Z) (p : LoginDeferredPayload) : M PacketWriter unit :=
  match p with
  | D_HostName => write_string_unicode_async (cc_workstation_id (user_input m))
  | D_UserName => write_string_unicode_async (cc_user_name (user_input m))
  | D_Password => write_scrambled (cc_password (user_input m))
  | D_AppName => write_string_unicode_async (cc_application_name (user_input m))
  | D_ServerName => write_string_unicode_async server_name
  | D_FeatureExtOffset => write_i32_async extension_offset
  | D_Library => write_string_unicode_async (cc_library_name (user_input m))
  | D_Language => write_string_unicode_async (cc_language (user_input m))
  | D_Database => write_string_unicode_async (cc_database (user_input m))
  | D_AttachDbFile => write_string_unicode_async (cc_attach_db_file (user_input m))
  | D_ChangePassword => write_scrambled (cc_change_password (user_input m))
  | D_Sspi => match sspi_token m with Some t => write_async t | None => ret tt end
  end.

Fixpoint write_all_deferred (extension_offset : Z) (ps : list LoginDeferredPayload) : M PacketWriter unit :=
  match ps with
  | [] => ret tt
  | p :: ps => write_deferred extension_offset p ;; write_all_deferred extension_offset ps
  end.

(** The loop over the requested features, which leaves out the one written before it. *)
Fixpoint write_each_feature (fs : list AnyFeature) : M PacketWriter unit :=
  match fs with
  | [] => ret tt
  | f :: fs =>
      (if bool_decide (f_identifier f = UserAgent) then ret tt else f_serialize f) ;;
      write_each_feature fs
  end.

Definition write_feature_extension_data : M PacketWriter unit :=
  match features_request m !! UserAgent with
  | Some f => if f_is_requested f then f_serialize f else ret tt
  | None => ret tt
  end ;;
  write_each_feature (get_requested_features (features_request m)) ;;
  write_byte_async 0xff.

(** [write_variable_length_section], up to its last [finalize]. *)
Definition write_variable_length_section (extension_offset : Z) : M PacketWriter unit :=
  s <- write_table {| content_next_offset := FIXED_LOGIN_RECORD_LENGTH; deferred_actions_indicator := [] |} ;;
  write_all_deferred extension_offset (deferred_actions_indicator s) ;;
  write_feature_extension_data.

(** [Serializer::serialize], up to its last [finalize]. *)
Definition serialize_record : M PacketWriter unit :=
  lift check_server_name_length ;;
  lengths <- lift calculate_login_record_length ;;
  let '(login_record_length, extension_offset) := lengths in
  write_i32_async login_record_length ;;
  write_u32_async (TdsVersion_u32 (lr_tds_version m)) ;;
  write_i32_async (cc_packet_size (user_input m)) ;;
  write_i32_async (client_prog_ver m) ;;
  write_i32_async (client_process_id m) ;;
  write_i32_async (connection_id_deprecated m) ;;
  write_byte_async (OptionFlags1_value (option_flags1 m)) ;;
  write_byte_async (OptionFlags2_value (option_flags2 m)) ;;
  write_byte_async (TypeFlags_value (type_flags m)) ;;
  write_byte_async (OptionFlags3_value (option_flags3 m)) ;;
  write_i32_async (client_time_zone_deprecated m) ;;
  write_i32_async (client_lcid_deprecated m) ;;
  write_variable_length_section extension_offset.
End serializer.

(** [LoginRequest::serialize]. *)
Definition LoginRequest_body `{HashOrder} (m : LoginRequestModel) : M PacketWriter unit :=
  server_name <- lift (login_server_name (user_input m) (transport_context m)) ;;
  serialize_record m server_name.

Definition LoginRequest_serialize `{HashOrder} (m : LoginRequestModel) : M PacketWriter unit :=
  LoginRequest_body m ;; finalize.

(** ** The messages that continue an authentication *)

Definition FedAuthTokenRequest_body (access_token_bytes : bytes) : M PacketWriter unit :=
  let len := Z.of_nat (length access_token_bytes) + 4 in
  write_u32_async (as_u32 len) ;;
  write_u32_async (as_u32 (Z.of_nat (length access_token_bytes))) ;;
  write_async access_token_bytes.

Definition FedAuthTokenRequest_serialize (access_token_bytes : bytes) : M PacketWriter unit :=
  FedAuthTokenRequest_body access_token_bytes ;; finalize.

Definition SspiRequest_serialize (token_data : bytes) : M PacketWriter unit :=
  write_async token_data ;; finalize.
