(* ===== verification/FeatureLaws.v ===== *)
(** * Feature extensions: what is sent, and what an acknowledgement can do

    Every extension writes its identifier, the length of its data, and as many bytes as it
    declares; and no acknowledgement negotiates more than was asked for. *)

From stdpp Require Import strings gmap.
From S2P Require Import Prelude Core Unicode Text PacketReader PacketWriter Writer WriterText Tokens TokenLaws.
From S2P Require Import SessionRecovery SessionRecoveryLaws ValueWriting Prelogin DataClassification DataSource.
From S2P Require Import ClientContext HostPolicy Features.

(** ** What is sent *)

(** The two blocks of a reconnect. *)
Definition recovery_payload (d : SessionRecoveryData) : bytes :=
  le_bytes 4 (Z.of_nat (length (initial_block d))) ++ initial_block d ++
  le_bytes 4 (Z.of_nat (length (delta_block d))) ++ delta_block d.

(** The data of an extension, after its identifier and length. *)
Definition feature_data (f : AnyFeature) : bytes :=
  match f with
  | F_Utf8 _ | F_DnsCaching _ | F_EnhancedRouting _ => []
  | F_Json _ => [byte_of 1]
  | F_Vector f => [byte_of (vec_client_version f)]
  | F_AlwaysEncrypted f => [byte_of (ae_client_version f)]
  | F_DataClassification f => [byte_of (DataClassificationVersion_u8 (dc_requested_version f))]
  | F_FedAuth f =>
      [byte_of (get_options f)] ++
      match access_token_bytes f with
      | Some bs => le_bytes 4 (Z.of_nat (length bs)) ++ bs
      | None => match get_work_flow_identifier f with Ok w => [byte_of w] | _ => [] end
      end
  | F_UserAgent f => units_le (utf16 (payload f))
  | F_SessionRecovery f =>
      match recovery_data f with
      | Some d => recovery_payload d
      | None => []
      end
  end.

(** As FEATUREEXTACK lays an acknowledgement out, LOGIN7 lays a request out. *)
Definition feature_bytes (f : AnyFeature) : bytes := encode_feature (f_identifier f, feature_data f).

(** The features that can be written: a token or a known workflow, text, a consistent block. *)
Definition feature_ok (f : AnyFeature) : Prop :=
  match f with
  | F_FedAuth f =>
      match access_token_bytes f with
      | Some bs => Z.of_nat (length bs) < 2 ^ 30
      | None => exists w, get_work_flow_identifier f = Ok w
      end
  | F_UserAgent f => str_wf (payload f) /\ (length (utf16 (payload f)) < 1000)%nat
  | F_SessionRecovery f =>
      match recovery_data f with
      | Some d => recovery_wf d /\ collation_kept d /\ f = new_for_reconnection d
      | None => True
      end
  | _ => True
  end.

Lemma write_feature_header_emits id n :
  emits (write_feature_header id n) ([byte_of (FeatureExtension_u8 id)] ++ le_bytes 4 n) tt.
Proof. unfold write_feature_header. emits_run. Qed.
#[export] Hint Resolve write_feature_header_emits : emits.

(** The header, then the data. *)
Lemma header_then_emits id data (k : M PacketWriter unit) n :
  n = Z.of_nat (length data) -> emits k data tt ->
  emits (write_feature_header id n ;; k) (encode_feature (id, data)) tt.
Proof.
  intros -> Hk. unfold encode_feature. cbn [fst snd].
  rewrite app_assoc. eapply emits_bind; [apply write_feature_header_emits|done].
Qed.

Lemma header_only_emits id : emits (write_feature_header id 0) (encode_feature (id, [])) tt.
Proof. unfold encode_feature. cbn [fst snd]. rewrite app_nil_r. apply write_feature_header_emits. Qed.

Lemma utf16_len_units s : utf16_len s = Z.of_nat (length (units_le (utf16 s))).
Proof. unfold utf16_len. rewrite length_units_le. lia. Qed.

Lemma fed_auth_emits f : feature_ok (F_FedAuth f) ->
  emits (FedAuth_serialize f) (feature_bytes (F_FedAuth f)) tt /\
  FedAuth_data_length f = Ok (Z.of_nat (length (feature_bytes (F_FedAuth f)))).
Proof.
  intros Hok. unfold FedAuth_data_length, FedAuth_serialize, get_payload_length, feature_bytes, encode_feature.
  cbn [feature_ok fst snd feature_data f_identifier dispatch AnyFeature_trait FedAuthFeature_trait] in *.
  destruct (access_token_bytes f) as [bs|].
  - rewrite (proj2 (Z.ltb_lt _ _)) by lia. rewrite !length_app, !length_le_bytes. cbn [length]. split.
    + emits_step. eapply emits_lift_ok; [done|].
      replace (1 + 4 + Z.of_nat (length bs)) with (Z.of_nat (1 + (4 + length bs))) by lia.
      emits_step. emits_step. rewrite <- le_bytes_as_i32. emits_run.
    + unfold as_i32. rewrite to_signed_id by first [lia | split; lia]. f_equal. lia.
  - destruct Hok as [w Hw]. rewrite Hw. split; [|done].
    emits_step. eapply emits_lift_ok; [done|].
    eapply emits_bind; [apply write_i32_emits|]. emits_step. apply write_byte_emits.
Qed.

Lemma recovery_bytes_encode d : recovery_bytes d = encode_feature (SRecovery, recovery_payload d).
Proof.
  unfold recovery_bytes, encode_feature. cbn [fst snd].
  replace (8 + Z.of_nat (length (initial_block d) + length (delta_block d)))
    with (Z.of_nat (length (recovery_payload d))); [done|].
  unfold recovery_payload. rewrite !length_app, !length_le_bytes. lia.
Qed.

Lemma session_recovery_emits f : feature_ok (F_SessionRecovery f) ->
  emits (SessionRecoveryFeature_serialize f) (feature_bytes (F_SessionRecovery f)) tt /\
  data_length f = Z.of_nat (length (feature_bytes (F_SessionRecovery f))).
Proof.
  cbn [feature_ok]. unfold feature_bytes.
  cbn [feature_data f_identifier dispatch AnyFeature_trait SessionRecoveryFeature_trait].
  destruct (recovery_data f) as [d|] eqn:E.
  - intros (Hwf & Hk & ->). rewrite <- recovery_bytes_encode. by apply recovery_block_spec.
  - intros _. unfold data_length, SessionRecoveryFeature_serialize. rewrite E. split; [|done].
    apply header_only_emits.
Qed.

(** Every feature writes its identifier, its length and its data, and declares that many bytes. *)
Lemma feature_emits f : feature_ok f ->
  emits (f_serialize f) (feature_bytes f) tt /\
  f_data_length f = Ok (Z.of_nat (length (feature_bytes f))).
Proof.
  intros Hok. destruct f as [f|f|f|f|f|f|f|f|f|f].
  8: by apply fed_auth_emits.
  9: { destruct (session_recovery_emits f Hok) as [? Hl]. split; [done|]. by rewrite <- Hl. }
  8: { destruct Hok as [Hw Hl]. unfold feature_bytes.
       cbn [feature_data f_serialize f_data_length f_identifier dispatch AnyFeature_trait UserAgentFeature_trait].
       unfold as_i32. rewrite !utf16_len_units.
       rewrite !to_signed_id by (rewrite ?length_units_le; first [lia | split; lia]). split.
       - apply header_then_emits; [done|by apply write_string_emits].
       - f_equal. unfold encode_feature. cbn [fst snd]. rewrite !length_app, length_le_bytes. cbn [length]. lia. }
  all: split; [|done]; first [apply header_only_emits | apply header_then_emits; [done|apply write_byte_emits]].
Qed.

(** ** The user agent *)

Definition is_field (max_len : nat) (s : str) : Prop :=
  Forall (fun c => is_field_char c = true) s /\ (1 <= length s <= max_len)%nat.

Lemma field_char_ascii c : is_field_char c = true -> 0 <= c < 128 /\ c <> 124.
Proof. unfold is_field_char, is_ascii_alphanumeric, is_ascii_digit. intros. split; lia. Qed.

Lemma ascii_str_len s : Forall (fun c => 0 <= c < 128) s -> str_len s = length s.
Proof.
  unfold str_len. induction 1 as [|c s Hc _ IH]; [done|]. cbn [fmap list_fmap sum_list length]. rewrite IH.
  unfold len_utf8. by rewrite (proj2 (Z.ltb_lt _ _)) by lia.
Qed.

Lemma field_str_len s : Forall (fun c => is_field_char c = true) s -> str_len s = length s.
Proof. intros Hs. apply ascii_str_len. eapply list.Forall_impl; [exact Hs|]. intros c Hc. by apply field_char_ascii. Qed.

Lemma sanitize_loop_ok max_len val : forall acc,
  Forall (fun c => is_field_char c = true) acc -> (length acc <= max_len)%nat ->
  Forall (fun c => is_field_char c = true) (sanitize_loop max_len val acc) /\
  (length (sanitize_loop max_len val acc) <= max_len)%nat.
Proof.
  induction val as [|ch val IH]; intros acc Ha Hl; cbn [sanitize_loop]; [done|].
  rewrite field_str_len by done. destruct (Nat.leb_spec max_len (length acc)); [done|].
  apply IH; destruct (is_field_char ch) eqn:E; try done.
  - apply Forall_app. split; [done|]. by apply Forall_singleton.
  - rewrite length_app. cbn [length]. lia.
Qed.

Lemma trim_start_ok (P : char -> Prop) s : Forall P s -> Forall P (trim_start s) /\ (length (trim_start s) <= length s)%nat.
Proof.
  induction 1 as [|c s Hc Hs [IH1 IH2]]; cbn [trim_start length]; [by split|].
  destruct (is_whitespace c); [split; [done|lia]|]. split; [by constructor|cbn; lia].
Qed.

Lemma trim_ok (P : char -> Prop) s : Forall P s -> Forall P (trim s) /\ (length (trim s) <= length s)%nat.
Proof.
  intros Hs. unfold trim, trim_end. destruct (trim_start_ok P s Hs) as [H1 L1].
  apply Forall_rev in H1. destruct (trim_start_ok P _ H1) as [H2 L2]. rewrite length_rev in *.
  split; [by apply Forall_rev|lia].
Qed.

Lemma unknown_is_field max_len : (7 <= max_len)%nat -> is_field max_len UNKNOWN_VAL.
Proof. intros. split; [by repeat constructor|]. change (length UNKNOWN_VAL) with 7%nat. lia. Qed.

(** A sanitized field is never empty, has only the characters a field may have, and fits. *)
Lemma sanitize_field_ok val max_len : (7 <= max_len)%nat ->
  exists s, sanitize_field val max_len = Ok s /\ is_field max_len s.
Proof.
  intros Hm. unfold sanitize_field.
  destruct (sanitize_loop_ok max_len val [] ltac:(constructor) ltac:(cbn; lia)) as [Hf Hl].
  destruct (trim_ok _ _ Hf) as [Ht Hlt]. set (t := trim _) in *. rewrite field_str_len by done.
  destruct t as [|c t'] eqn:E; cbn [is_empty]; [eauto using unknown_is_field|].
  rewrite (proj2 (Nat.ltb_ge _ _)) by lia. exists (c :: t'). split; [done|]. split; [done|]. cbn [length] in *. lia.
Qed.

Definition env_ok (e : SystemEnvironmentInfo) : Prop :=
  is_field 10 (architecture e) /\ is_field 10 (os_type e) /\ is_field 44 (os_details e) /\
  is_field 44 (fallback_runtime e).

Lemma detect_ok arch os details : exists e, detect arch os details = Ok e /\ env_ok e.
Proof.
  unfold detect.
  destruct (sanitize_field_ok arch MAX_ARCH_LEN) as (a & -> & Ha); [unfold MAX_ARCH_LEN; lia|].
  destruct (sanitize_field_ok (get_os_type_from_name os) MAX_OS_TYPE_LEN) as (o & -> & Ho); [unfold MAX_OS_TYPE_LEN; lia|].
  destruct (sanitize_field_ok details MAX_OS_DETAILS_LEN) as (d & -> & Hd); [unfold MAX_OS_DETAILS_LEN; lia|].
  destruct (sanitize_field_ok UNKNOWN_VAL MAX_RUNTIME_LEN) as (f & -> & Hf); [unfold MAX_RUNTIME_LEN; lia|].
  eexists. split; [reflexivity|]. done.
Qed.

(** The pieces of the payload, each within its limit. *)
Record agent_parts (s : str) (parts : list str) : Prop := {
  ap_split : split_char 124 s = parts;
  ap_fields : exists name version arch os details runtime,
    parts = [lit "1"; name; version; arch; os; details; runtime] /\ is_field 12 name /\ is_field 24 version /\
    is_field 10 arch /\ is_field 10 os /\ is_field 44 details /\ is_field 44 runtime;
}.

Lemma field_no_pipe n s : is_field n s -> Forall (fun d => d <> 124) s.
Proof. intros [Hs _]. eapply list.Forall_impl; [exact Hs|]. intros c Hc. by apply field_char_ascii. Qed.

Lemma user_agent_parts env c : env_ok env ->
  exists f parts, UserAgentFeature_new env c = Ok f /\ agent_parts (payload f) parts.
Proof.
  intros (Ha & Ho & Hd & Hr). unfold UserAgentFeature_new.
  destruct (sanitize_field_ok (if is_empty (ua_library_name (cc_user_agent c)) then DEFAULT_LIBRARY_NAME
    else ua_library_name (cc_user_agent c)) MAX_DRIVER_NAME_LEN) as (n & -> & Hn); [unfold MAX_DRIVER_NAME_LEN; lia|].
  destruct (sanitize_field_ok (if is_empty (ua_driver_version (cc_user_agent c))
    then DriverVersion_display (cc_driver_version c) else ua_driver_version (cc_user_agent c))
    MAX_DRIVER_VER_LEN) as (v & -> & Hv); [unfold MAX_DRIVER_VER_LEN; lia|].
  cbn [rbind]. set (rt := if _ || _ then _ else _).
  assert (exists r, rt = Ok r /\ is_field 44 r) as (r & -> & Hrt).
  { subst rt. case_match; [by eauto|]. apply sanitize_field_ok. unfold MAX_RUNTIME_LEN. lia. }
  cbn [rbind]. do 2 eexists. split; [reflexivity|]. split; [reflexivity|]. cbn [payload].
  change (lit "1|") with (lit "1" ++ [124]). change (lit "|") with [124]. rewrite <- app_assoc.
  exists n, v, (architecture env), (os_type env), (os_details env), r. split; [|done].
  cbn [app]. rewrite split_char_app by by repeat constructor.
  do 5 (rewrite split_char_app by by eapply field_no_pipe).
  rewrite split_char_none by (eapply field_no_pipe; eassumption). reflexivity.
Qed.

Lemma field_str_wf n s : is_field n s -> str_wf s /\ length (utf16 s) = length s.
Proof.
  intros [Hs _]. induction Hs as [|c s Hc _ [IH1 IH2]]; [split; [constructor|done]|].
  destruct (field_char_ascii c Hc). split.
  - constructor; [|done]. unfold is_scalar. lia.
  - change (c :: s) with ([c] ++ s). rewrite utf16_app, !length_app, IH2. unfold utf16, encode_utf16.
    cbn [fmap list_fmap concat]. by rewrite (proj2 (Z.ltb_lt _ _)) by lia.
Qed.

(** The payload is the pieces joined by bars. *)
Lemma join_split c s : foldr (fun p acc => match acc with None => Some p | Some t => Some (p ++ [c] ++ t) end) None
  (split_char c s) = Some s.
Proof.
  induction s as [|d s IH]; [done|]. cbn [split_char]. destruct (Z.eqb_spec d c) as [->|].
  - cbn [foldr]. by rewrite IH.
  - destruct (split_char c s) as [|p ps]; [done|]. cbn [foldr] in *.
    destruct (foldr _ None ps) as [t|]; injection IH as <-; done.
Qed.

Lemma agent_payload_ok s parts : agent_parts s parts -> str_wf s /\ (length (utf16 s) <= 152)%nat.
Proof.
  intros [Hs (n & v & a & o & d & r & -> & Hn & Hv & Ha & Ho & Hd & Hr)].
  pose proof (join_split 124 s) as Hj. rewrite Hs in Hj. cbn [foldr] in Hj.
  assert (s = lit "1" ++ [124] ++ n ++ [124] ++ v ++ [124] ++ a ++ [124] ++ o ++ [124] ++ d ++ [124] ++ r) as ->
    by congruence. clear Hs Hj.
  assert (str_wf [124] /\ length (utf16 [124]) = 1%nat) as [Hb1 Hb2] by (split; [by repeat constructor|done]).
  assert (str_wf (lit "1") /\ length (utf16 (lit "1")) = 1%nat) as [Hc1 Hc2] by (split; [by repeat constructor|done]).
  destruct (field_str_wf _ _ Hn), (field_str_wf _ _ Hv), (field_str_wf _ _ Ha), (field_str_wf _ _ Ho),
    (field_str_wf _ _ Hd), (field_str_wf _ _ Hr).
  unfold is_field in *. split.
  - unfold str_wf in *. rewrite !Forall_app. tauto.
  - rewrite !utf16_app, !length_app. lia.
Qed.

(** ** The features a connection asks for *)

Definition keyed (fs : gmap FeatureExtension AnyFeature) : Prop :=
  map_Forall (fun k f => f_identifier f = k /\ (k = UserAgent -> f_is_requested f = true)) fs.

Definition features_ok (fs : gmap FeatureExtension AnyFeature) : Prop :=
  keyed fs /\ map_Forall (fun _ => feature_ok) fs.

Lemma features_ok_insert k f fs :
  features_ok fs -> f_identifier f = k -> f_is_requested f = true \/ k <> UserAgent -> feature_ok f ->
  features_ok (<[k := f]> fs).
Proof.
  intros [Hk Hok] Hid Hr Hf. split; apply map_Forall_insert_2; try done. split; [done|]. intros. by destruct Hr.
Qed.

(** The settings a feature set can be built from: a token where one is needed, and a recoverable
    session. *)
Definition settings_ok (c : ClientContext) (recovery : option SessionRecoveryData) : Prop :=
  (cc_access_token c = None -> cc_tds_authentication_method c <> AccessToken) /\
  (forall t, cc_access_token c = Some t -> Z.of_nat (length (utf16 t)) < 2 ^ 28) /\
  (forall d, recovery = Some d -> recovery_wf d /\ collation_kept d).

Lemma fed_auth_ok m token prelogin :
  m <> SSPI -> m <> Password -> (token = None -> m <> AccessToken) ->
  (forall t, token = Some t -> Z.of_nat (length (utf16 t)) < 2 ^ 28) ->
  feature_ok (F_FedAuth (FedAuthFeature_new m token prelogin)).
Proof.
  intros Hs Hp Ha Ht. unfold FedAuthFeature_new, feature_ok. cbn [access_token_bytes].
  destruct token as [t|]; cbn [fmap option_fmap option_map].
  - specialize (Ht t eq_refl). rewrite length_units_le. lia.
  - specialize (Ha eq_refl). destruct m; by eauto.
Qed.

Lemma build_ok m token prelogin vector encryption f classification :
  feature_ok (F_UserAgent f) -> (token = None -> m <> AccessToken) ->
  (forall t, token = Some t -> Z.of_nat (length (utf16 t)) < 2 ^ 28) ->
  features_ok (FeaturesRequest_build m token prelogin vector encryption f classification).
Proof.
  intros Hf Hm Ht. unfold FeaturesRequest_build.
  assert (features_ok ∅) as H0 by (split; apply map_Forall_empty).
  destruct (negb _ && negb _) eqn:E.
  - apply andb_true_iff in E as [E1%negb_true_iff%bool_decide_eq_false E2%negb_true_iff%bool_decide_eq_false].
    apply features_ok_insert; [|done|by right|by apply fed_auth_ok].
    destruct (VectorFeature_from vector), (bool_decide (encryption = CE_Enabled)), classification;
      repeat (apply features_ok_insert; [|done|by (left + right)|first [exact Hf | exact I]]); done.
  - destruct (VectorFeature_from vector), (bool_decide (encryption = CE_Enabled)), classification;
      repeat (apply features_ok_insert; [|done|by (left + right)|first [exact Hf | exact I]]); done.
Qed.

(** Every set of features built from settings can be written. *)
Lemma from_context_features_ok env c prelogin recovery :
  env_ok env -> settings_ok c recovery ->
  exists fs, from_context_with_recovery env c prelogin recovery = Ok fs /\ features_ok fs.
Proof.
  intros He (Hm & Ht & Hd). unfold from_context_with_recovery.
  destruct (user_agent_parts env c He) as (f & parts & -> & Hp). cbn [rbind]. eexists. split; [done|].
  apply agent_payload_ok in Hp as [Hw Hl].
  assert (feature_ok (F_UserAgent f)) as Hf by (split; [done|lia]).
  case_match; [|by apply build_ok]. apply features_ok_insert; [by apply build_ok|done|by right|].
  destruct recovery as [d|]; [|done]. destruct (Hd d eq_refl). done.
Qed.
