(* ===== verification/LoginLaws.v ===== *)
(** * LOGIN7 is laid out as its table says

    The record a login writes, and a reader of it that follows the offsets and lengths of the
    table as a server does: it finds every field, the SSPI token and the feature extensions. *)

From stdpp Require Import strings gmap.
From S2P Require Import Prelude Core Unicode Text PacketReader PacketWriter Writer WriterText Tokens TokenLaws.
From S2P Require Import SessionRecovery SessionRecoveryLaws ValueWriting Prelogin DataClassification DataSource.
From S2P Require Import ClientContext HostPolicy Features FeatureLaws Login.

(** ** The feature extensions *)

Definition others (fs : list AnyFeature) : list AnyFeature :=
  filter (fun f => f_identifier f <> UserAgent) fs.

(** The order of the extensions: the user agent, then the others as the map gives them. *)
Definition sent_features `{HashOrder} (fs : gmap FeatureExtension AnyFeature) : list AnyFeature :=
  option_list (fs !! UserAgent) ++ others (get_requested_features fs).

Definition features_bytes (fs : list AnyFeature) : bytes := concat (feature_bytes <$> fs).

Definition feature_block `{HashOrder} (fs : gmap FeatureExtension AnyFeature) : bytes :=
  features_bytes (sent_features fs) ++ [byte_of 0xff].

Section features.
Context `{HashOrder}.

Lemma write_each_feature_emits fs :
  Forall feature_ok fs -> emits (write_each_feature fs) (features_bytes (others fs)) tt.
Proof.
  unfold others. induction 1 as [|f fs Hf _ IH]; cbn [write_each_feature]; [apply emits_ret|].
  destruct (decide (f_identifier f = UserAgent)) as [E|E].
  - rewrite filter_cons_False, bool_decide_eq_true_2 by tauto. exact IH.
  - rewrite filter_cons_True, bool_decide_eq_false_2 by done.
    eapply emits_bind; [by apply feature_emits|done].
Qed.

(** The features that are asked for are those of the map. *)
Lemma requested_elem fs f : f ∈ get_requested_features fs -> exists k, fs !! k = Some f.
Proof.
  unfold get_requested_features. rewrite list_elem_of_filter, hash_values_perm.
  intros [_ Hin]. apply list_elem_of_fmap in Hin as ([k f'] & -> & Hin).
  exists k. by apply elem_of_map_to_list in Hin.
Qed.

Lemma requested_ok fs : features_ok fs -> Forall feature_ok (get_requested_features fs).
Proof. intros [_ Hok]. apply list.Forall_forall. intros f [k Hk]%requested_elem. exact (Hok k f Hk). Qed.

Lemma feature_block_emits m :
  features_ok (features_request m) ->
  emits (write_feature_extension_data m) (feature_block (features_request m)) tt.
Proof.
  intros Hok. pose proof (requested_ok _ Hok) as Hr. destruct Hok as [Hk Hok].
  unfold write_feature_extension_data, feature_block, sent_features, features_bytes.
  rewrite fmap_app, concat_app, <- app_assoc.
  apply emits_bind with (a := tt).
  - destruct (features_request m !! UserAgent) as [f|] eqn:E; cbn [option_list]; [|apply emits_ret].
    rewrite (proj2 (Hk _ _ E)) by done. change (option_list (Some f)) with [f]. rewrite concat_fmap_cons. cbn [fmap list_fmap concat]. rewrite app_nil_r.
    apply feature_emits. exact (Hok _ _ E).
  - eapply emits_bind; [by apply write_each_feature_emits|apply write_byte_emits].
Qed.

(** *** Its length *)

(** Only the user agent is registered as such. *)
Lemma agents_requested fs : keyed fs ->
  filter (fun f => f_identifier f = UserAgent) (get_requested_features fs) ≡ₚ option_list (fs !! UserAgent).
Proof.
  intros Hk. unfold get_requested_features. rewrite list_filter_filter, hash_values_perm.
  assert (forall fs' : gmap FeatureExtension AnyFeature, fs' ⊆ fs -> fs' !! UserAgent = None ->
    filter (fun f => f_identifier f = UserAgent /\ f_is_requested f = true) (map_to_list fs').*2 = []) as Hnone.
  { intros fs' Hs Hn. apply elem_of_nil_inv. intros f [[Hid _] Hf]%list_elem_of_filter.
    apply list_elem_of_fmap in Hf as ([k f'] & -> & Hf). apply elem_of_map_to_list in Hf.
    cbn [snd] in Hid. pose proof (lookup_weaken _ _ _ _ Hf Hs) as Hf'. destruct (Hk _ _ Hf'). congruence. }
  destruct (fs !! UserAgent) as [f|] eqn:E; cbn [option_list]; [|by rewrite Hnone].
  rewrite <- (map_to_list_delete fs UserAgent f E). cbn [fmap list_fmap snd].
  destruct (Hk _ _ E) as [Hid Hr]. rewrite filter_cons_True by auto.
  by rewrite Hnone by (apply delete_subseteq || apply lookup_delete_eq).
Qed.

Lemma sent_features_perm fs : keyed fs -> sent_features fs ≡ₚ get_requested_features fs.
Proof.
  intros Hk. unfold sent_features, others. rewrite <- agents_requested by done. apply filter_app_complement.
Qed.

Lemma sum_data_lengths_ok fs : Forall feature_ok fs -> forall a,
  0 <= a -> a + Z.of_nat (length (features_bytes fs)) < 2 ^ 63 ->
  sum_data_lengths fs a = Ok (a + Z.of_nat (length (features_bytes fs))).
Proof.
  unfold features_bytes. induction 1 as [|f fs Hf _ IH]; intros a Ha Hm; [cbn; f_equal; lia|].
  cbn [sum_data_lengths]. rewrite concat_fmap_cons, length_app in *. rewrite (proj2 (feature_emits f Hf)).
  cbn [rbind]. unfold as_u64. rewrite !Z.mod_small by (rewrite ?Z.mod_small; lia).
  rewrite IH by lia. f_equal. lia.
Qed.

Lemma features_bytes_perm fs1 fs2 : fs1 ≡ₚ fs2 -> length (features_bytes fs1) = length (features_bytes fs2).
Proof.
  unfold features_bytes. induction 1 as [|f ? ? _ IH|f g l|]; rewrite ?concat_fmap_cons, ?length_app; lia.
Qed.

Lemma length_feature_block m :
  features_ok (features_request m) -> Z.of_nat (length (feature_block (features_request m))) < 2 ^ 31 ->
  features_len_bytes m = Ok (Z.of_nat (length (feature_block (features_request m)))).
Proof.
  intros Hok. pose proof (requested_ok _ Hok) as Hr. destruct Hok as [Hk _].
  unfold features_len_bytes, feature_block. rewrite length_app. cbn [length].
  rewrite (features_bytes_perm _ _ (sent_features_perm _ Hk)). intros Hm.
  rewrite sum_data_lengths_ok by (done || lia). cbn [rbind]. unfold as_u64. rewrite Z.mod_small by lia. f_equal. lia.
Qed.
End features.

(** ** The table *)

(** A field of the table: what announces it, its bytes, and the length its entry declares. *)
Record item := { it_tag : LoginDeferredPayload; it_content : bytes; it_length : Z }.

Definition text_item (p : LoginDeferredPayload) (value : str) : item :=
  {| it_tag := p; it_content := units_le (utf16 value); it_length := Z.of_nat (length (utf16 value)) |}.

Definition secret_item (p : LoginDeferredPayload) (value : str) : item :=
  {| it_tag := p; it_content := scramble_password (units_le (utf16 value));
     it_length := Z.of_nat (length (utf16 value)) |}.

(** The entry of a field that starts at [off]; an empty field has none. *)
Definition entry_bytes (off : Z) (it : item) : bytes :=
  match it_content it with
  | [] => le_bytes 2 0 ++ le_bytes 2 0
  | _ => le_bytes 2 off ++ le_bytes 2 (it_length it)
  end.

Definition item_end (off : Z) (it : item) : Z := off + Z.of_nat (length (it_content it)).

Definition announce (s : Serializer) (it : item) : Serializer :=
  match it_content it with
  | [] => s
  | _ => push (it_tag it) (s {{ content_next_offset ::= fun o => item_end o it }})
  end.

(** The offset of a field that is not empty fits its two bytes. *)
Definition offset_ok (off : Z) (it : item) : Prop := it_content it <> [] -> 0 <= off < 2 ^ 16.

Lemma announce_offset s it : content_next_offset (announce s it) = item_end (content_next_offset s) it.
Proof. unfold announce, item_end. destruct (it_content it); cbn; lia. Qed.

Lemma announce_deferred s it :
  deferred_actions_indicator (announce s it) =
  deferred_actions_indicator s ++ match it_content it with [] => [] | _ => [it_tag it] end.
Proof. unfold announce. destruct (it_content it); cbn; [by rewrite app_nil_r|done]. Qed.

Lemma write_empty_entry_emits : emits write_empty_entry (le_bytes 2 0 ++ le_bytes 2 0) tt.
Proof. unfold write_empty_entry. emits_run. Qed.
#[export] Hint Resolve write_empty_entry_emits : emits.

Lemma current_offset_ok s : 0 <= content_next_offset s < 2 ^ 16 -> current_offset s = Ok (content_next_offset s).
Proof. intros. unfold current_offset. by rewrite (proj2 (andb_true_iff _ _)) by lia. Qed.

Lemma write_metadata_emits n s :
  0 < n < 2 ^ 16 -> 0 <= content_next_offset s < 2 ^ 16 ->
  emits (write_metadata n s) (le_bytes 2 (content_next_offset s) ++ le_bytes 2 n)
    (true, s {{ content_next_offset ::= fun o => o + n * 2 }}).
Proof.
  intros Hn Hoff. unfold write_metadata. rewrite (proj2 (Z.eqb_neq _ _)) by lia.
  eapply emits_lift_ok; [by apply current_offset_ok|]. emits_step.
  eapply emits_last; [apply write_u16_emits|].
  assert (as_i32 (content_next_offset s + n * 2) = content_next_offset s + n * 2) as Hi
    by (apply to_signed_id; first [lia | split; lia]).
  destruct s. cbn in Hoff, Hi. unfold upd; cbn. rewrite Hi. apply emits_ret.
Qed.

(** A text field, scrambled or not, writes its entry and announces itself. *)
Lemma write_field_emits value s it :
  it_length it = Z.of_nat (length (utf16 value)) -> length (it_content it) = (2 * length (utf16 value))%nat ->
  Z.of_nat (length (utf16 value)) < 2 ^ 16 -> offset_ok (content_next_offset s) it ->
  emits (write_field value (it_tag it) s) (entry_bytes (content_next_offset s) it) (announce s it).
Proof.
  unfold write_field, utf16_code_units, entry_bytes, announce, offset_ok, item_end.
  intros Hlen Hcl Hm Hoff. rewrite (proj2 (Z.ltb_lt _ _)) by lia. eapply emits_lift_ok; [done|].
  destruct (it_content it) as [|b bs] eqn:E; rewrite <- E in *.
  - rewrite E in Hcl. cbn [length] in Hcl. apply emits_last with (a := (false, s)); [|apply emits_ret].
    unfold write_metadata. rewrite (proj2 (Z.eqb_eq _ _)) by lia.
    eapply emits_last; [apply write_empty_entry_emits|apply emits_ret].
  - assert (0 < length (it_content it))%nat by (rewrite E; cbn; lia). rewrite Hlen.
    eapply emits_last; [apply write_metadata_emits; [lia|apply Hoff; congruence]|]. cbn beta iota.
    replace (Z.of_nat (length (it_content it))) with (Z.of_nat (length (utf16 value)) * 2) by lia.
    apply emits_ret.
Qed.

(** ** The fields of a login *)

Section record.
Context `{HashOrder}.
Context (m : LoginRequestModel) (server : str).

(** The user name and the password of a login by password; other logins leave them empty. *)
Definition if_password (value : str) : str :=
  if bool_decide (cc_tds_authentication_method (user_input m) = Password) then value else [].

Definition extension_item (offset : Z) : item :=
  {| it_tag := D_FeatureExtOffset; it_content := le_bytes 4 offset; it_length := 4 |}.

Definition sspi_bytes : bytes := default [] (sspi_token m).

Definition sspi_item : item :=
  {| it_tag := D_Sspi; it_content := sspi_bytes; it_length := Z.min (sspi_length m) 0xFFFF |}.

Definition items_before_id : list item := [
  text_item D_HostName (cc_workstation_id (user_input m));
  text_item D_UserName (if_password (cc_user_name (user_input m)));
  secret_item D_Password (if_password (cc_password (user_input m)));
  text_item D_AppName (cc_application_name (user_input m));
  text_item D_ServerName server;
  extension_item (feature_extension_offset m server);
  text_item D_Library (cc_library_name (user_input m));
  text_item D_Language (cc_language (user_input m));
  text_item D_Database (cc_database (user_input m))].

Definition items_after_id : list item := [
  sspi_item;
  text_item D_AttachDbFile (cc_attach_db_file (user_input m));
  secret_item D_ChangePassword (cc_change_password (user_input m))].

Definition items : list item := items_before_id ++ items_after_id.

Fixpoint entries_bytes (off : Z) (its : list item) : bytes :=
  match its with [] => [] | it :: its => entry_bytes off it ++ entries_bytes (item_end off it) its end.

Fixpoint offsets_ok (off : Z) (its : list item) : Prop :=
  match its with [] => True | it :: its => offset_ok off it /\ offsets_ok (item_end off it) its end.

Definition contents (its : list item) : bytes := concat (it_content <$> its).

Definition long_length : Z := if 0xFFFF <? sspi_length m then sspi_length m else 0.

Definition table_bytes : bytes :=
  entries_bytes 94 items_before_id ++ client_id m ++
  entries_bytes (94 + Z.of_nat (length (contents items_before_id))) items_after_id ++ le_bytes 4 long_length.

(** The writer of an item writes its entry and announces it. *)
Definition item_writes (w : Serializer -> M PacketWriter Serializer) (it : item) : Prop :=
  forall s, offset_ok (content_next_offset s) it ->
    emits (w s) (entry_bytes (content_next_offset s) it) (announce s it).

Lemma text_item_writes value p :
  Z.of_nat (length (utf16 value)) < 2 ^ 16 -> item_writes (write_field value p) (text_item p value).
Proof. intros Hl s Hs. apply (write_field_emits _ _ (text_item p value)); try done. apply length_units_le. Qed.

Lemma length_scramble bs : length (scramble_password bs) = length bs.
Proof. apply length_fmap. Qed.

Lemma secret_item_writes value p :
  Z.of_nat (length (utf16 value)) < 2 ^ 16 -> item_writes (write_field value p) (secret_item p value).
Proof.
  intros Hl s Hs. apply (write_field_emits _ _ (secret_item p value)); try done.
  cbn [it_content secret_item]. by rewrite length_scramble, length_units_le.
Qed.

Lemma empty_item_writes it :
  it_content it = [] -> item_writes (fun s => write_empty_entry ;; ret s) it.
Proof.
  intros He s _. unfold entry_bytes, announce. rewrite He.
  eapply emits_last; [apply write_empty_entry_emits|apply emits_ret].
Qed.

(** A field written by other means than [write_field]. *)
Lemma announced_writes w it :
  it_content it <> [] ->
  (forall s, 0 <= content_next_offset s < 2 ^ 16 ->
     emits (w s) (le_bytes 2 (content_next_offset s) ++ le_bytes 2 (it_length it))
       (push (it_tag it) (s {{ content_next_offset := as_i32 (item_end (content_next_offset s) it) }}))) ->
  Z.of_nat (length (it_content it)) < 2 ^ 30 -> item_writes w it.
Proof.
  intros Hne Hw Hl s Hs. specialize (Hw s (Hs Hne)). specialize (Hs Hne).
  unfold entry_bytes, announce. unfold as_i32 in Hw.
  rewrite to_signed_id in Hw by (unfold item_end; first [lia | split; lia]).
  by destruct (it_content it).
Qed.

Lemma extension_item_writes : item_writes write_feature_ext (extension_item (feature_extension_offset m server)).
Proof.
  assert (length (it_content (extension_item (feature_extension_offset m server))) = 4%nat) as Hl
    by apply length_le_bytes.
  apply announced_writes; [intros E; by rewrite E in Hl| |lia].
  intros s Hs. unfold write_feature_ext, item_end. rewrite Hl.
  eapply emits_lift_ok; [by apply current_offset_ok|]. emits_step.
  eapply emits_last; [apply write_u16_emits|apply emits_ret].
Qed.

Lemma length_sspi_bytes : Z.of_nat (length sspi_bytes) = sspi_length m.
Proof. unfold sspi_bytes, sspi_length. by destruct (sspi_token m). Qed.

Lemma sspi_item_writes : sspi_length m < 2 ^ 30 -> item_writes (write_sspi_short m) sspi_item.
Proof.
  intros Hl. unfold write_sspi_short. pose proof length_sspi_bytes as Hb.
  destruct (sspi_length m =? 0) eqn:E.
  - apply Z.eqb_eq in E. apply empty_item_writes. apply length_zero_iff_nil. cbn [it_content sspi_item]. lia.
  - apply Z.eqb_neq in E. apply announced_writes; [|intros s Hs|cbn [it_content sspi_item]; lia].
    { cbn [it_content sspi_item]. intros E'. rewrite E' in Hb. cbn in Hb. lia. }
    eapply emits_lift_ok; [by apply current_offset_ok|]. emits_step. unfold item_end. cbn [it_content it_length sspi_item].
    rewrite Hb. assert (as_i32 (sspi_length m) = sspi_length m) as -> by (apply to_signed_id; first [lia | split; lia]).
    eapply emits_last; [|apply emits_ret]. destruct (sspi_length m <=? 0xFFFF) eqn:E2.
    + rewrite Z.min_l by lia. rewrite <- (le_bytes_as_u16 (sspi_length m)). apply write_u16_emits.
    + rewrite Z.min_r by lia. apply write_u16_emits.
Qed.

(** ** The whole record *)

(** Every string of the login fits its length field. *)
Definition login_strings : list str := [
  cc_workstation_id (user_input m); cc_user_name (user_input m); cc_password (user_input m);
  cc_application_name (user_input m); server; cc_library_name (user_input m);
  cc_language (user_input m); cc_database (user_input m); cc_attach_db_file (user_input m);
  cc_change_password (user_input m)].

(** The record written: the fixed part, the table, the fields, the extensions. *)
Definition fixed_bytes (record_length : Z) : bytes :=
  le_bytes 4 record_length ++ le_bytes 4 (TdsVersion_u32 (lr_tds_version m)) ++
  le_bytes 4 (cc_packet_size (user_input m)) ++ le_bytes 4 (client_prog_ver m) ++
  le_bytes 4 (client_process_id m) ++ le_bytes 4 (connection_id_deprecated m) ++
  [byte_of (OptionFlags1_value (option_flags1 m))] ++ [byte_of (OptionFlags2_value (option_flags2 m))] ++
  [byte_of (TypeFlags_value (type_flags m))] ++ [byte_of (OptionFlags3_value (option_flags3 m))] ++
  le_bytes 4 (client_time_zone_deprecated m) ++ le_bytes 4 (client_lcid_deprecated m).

Definition variable_bytes : bytes :=
  contents items ++ feature_block (features_request m).

Definition record_length : Z := 94 + Z.of_nat (length variable_bytes).

Definition login_record : bytes := fixed_bytes record_length ++ table_bytes ++ variable_bytes.

(** A login that can be written: text, sizes within their fields, a consistent set of features. *)
Record login_ok : Prop := {
  lo_text : Forall str_wf login_strings;
  lo_units : Forall (fun s => Z.of_nat (length (utf16 s)) < 2 ^ 16) login_strings;
  lo_server : (length (utf16 server) <= 128)%nat;
  lo_offsets : offsets_ok 94 items;
  lo_length : record_length <= MAX_LOGIN_RECORD_LENGTH;
  lo_id : length (client_id m) = 6%nat;
  lo_features : features_ok (features_request m);
}.

(** One entry of a run of them. *)
Lemma emits_entry {B} w it its (k : Serializer -> M PacketWriter B) s rest b :
  item_writes w it -> offsets_ok (content_next_offset s) (it :: its) ->
  (offsets_ok (content_next_offset (announce s it)) its ->
   emits (k (announce s it)) (entries_bytes (content_next_offset (announce s it)) its ++ rest) b) ->
  emits (s <- w s ;; k s) (entries_bytes (content_next_offset s) (it :: its) ++ rest) b.
Proof.
  intros Hw [Ho Hos] Hk. rewrite announce_offset in Hk. cbn [entries_bytes]. rewrite <- app_assoc.
  eapply emits_bind; [by apply Hw|by apply Hk].
Qed.

Lemma if_password_units value :
  Z.of_nat (length (utf16 value)) < 2 ^ 16 -> Z.of_nat (length (utf16 (if_password value))) < 2 ^ 16.
Proof. unfold if_password. by case_bool_decide. Qed.

Lemma write_username_writes :
  Z.of_nat (length (utf16 (cc_user_name (user_input m)))) < 2 ^ 16 ->
  item_writes (write_username m) (text_item D_UserName (if_password (cc_user_name (user_input m)))).
Proof.
  intros Hl. unfold write_username, if_password. case_bool_decide; [by apply text_item_writes|].
  by apply empty_item_writes.
Qed.

Lemma write_password_writes :
  Z.of_nat (length (utf16 (cc_password (user_input m)))) < 2 ^ 16 ->
  item_writes (write_password m) (secret_item D_Password (if_password (cc_password (user_input m)))).
Proof.
  intros Hl. unfold write_password, if_password. case_bool_decide; [by apply secret_item_writes|].
  by apply empty_item_writes.
Qed.

Lemma write_cb_sspi_long_emits : emits (write_cb_sspi_long m) (le_bytes 4 long_length) tt.
Proof.
  unfold write_cb_sspi_long, long_length. destruct (0xFFFF <? sspi_length m); [|apply write_i32_emits].
  rewrite <- (le_bytes_as_u32 (sspi_length m)). apply write_u32_emits.
Qed.

Lemma entries_end off its : fold_left item_end its off = off + Z.of_nat (length (contents its)).
Proof.
  unfold contents. revert off. induction its as [|it its IH]; intros off; cbn [fold_left]; [cbn; lia|].
  rewrite concat_fmap_cons, length_app, IH. unfold item_end. lia.
Qed.

Lemma offsets_ok_app off its1 its2 :
  offsets_ok off (its1 ++ its2) <-> offsets_ok off its1 /\ offsets_ok (fold_left item_end its1 off) its2.
Proof. revert off. induction its1 as [|it its IH]; intros off; cbn; [tauto|]. rewrite IH. tauto. Qed.

Lemma announce_end its s :
  content_next_offset (fold_left announce its s) = fold_left item_end its (content_next_offset s).
Proof. revert s. induction its as [|it its IH]; intros s; cbn [fold_left]; [done|]. by rewrite IH, announce_offset. Qed.

Lemma content_le it its : it ∈ its -> (length (it_content it) <= length (contents its))%nat.
Proof.
  unfold contents. induction 1 as [it its|it it' its _ IH]; rewrite concat_fmap_cons, length_app; lia.
Qed.

Lemma sspi_small : record_length <= MAX_LOGIN_RECORD_LENGTH -> sspi_length m < 2 ^ 30.
Proof.
  unfold record_length, variable_bytes, MAX_LOGIN_RECORD_LENGTH. rewrite length_app, <- length_sspi_bytes. intros Hm.
  assert (sspi_item ∈ items) as Hin by (unfold items, items_before_id, items_after_id; set_solver).
  apply content_le in Hin. cbn [it_content sspi_item] in Hin. lia.
Qed.

Definition start : Serializer := {| content_next_offset := 94; deferred_actions_indicator := [] |}.

Lemma write_table_emits :
  login_ok -> emits (write_table m server start) table_bytes (fold_left announce items start).
Proof.
  intros [_ Hu _ Ho Hm _ _]. unfold login_strings in Hu. rewrite !list.Forall_cons in Hu.
  destruct Hu as (?&?&?&?&?&?&?&?&?&?&_). apply sspi_small in Hm.
  unfold items in *. rewrite offsets_ok_app in Ho. destruct Ho as [Ho1 Ho2].
  unfold table_bytes, write_table. rewrite fold_left_app, <- entries_end.
  change 94 with (content_next_offset start) in *. rewrite <- announce_end in *.
  unfold items_before_id in Ho1 |- * at 1. revert Ho1.
  do 9 (intros Ho1; eapply emits_entry; [|exact Ho1|clear Ho1];
    [eauto using text_item_writes, write_username_writes, write_password_writes, extension_item_writes|]).
  intros _. cbn [entries_bytes app]. eapply emits_bind; [apply write_async_emits|].
  match goal with |- context [announce ?s ?it] =>
    change (announce s it) with (fold_left announce items_before_id start) end.
  revert Ho2. unfold items_after_id at 1 2.
  do 3 (intros Ho2; eapply emits_entry; [|exact Ho2|clear Ho2];
    [eauto using text_item_writes, secret_item_writes, sspi_item_writes|]).
  intros _. cbn [entries_bytes app]. eapply emits_last; [apply write_cb_sspi_long_emits|apply emits_ret].
Qed.

(** *** The fields *)

Definition announced (it : item) : list LoginDeferredPayload :=
  match it_content it with [] => [] | _ => [it_tag it] end.

Lemma announce_all its s :
  deferred_actions_indicator (fold_left announce its s) =
  deferred_actions_indicator s ++ concat (announced <$> its).
Proof.
  revert s. induction its as [|it its IH]; intros s; cbn [fold_left]; [by rewrite app_nil_r|].
  by rewrite IH, announce_deferred, concat_fmap_cons, <- app_assoc.
Qed.

Lemma write_all_deferred_emits off its :
  Forall (fun it => it_content it <> [] -> emits (write_deferred m server off (it_tag it)) (it_content it) tt) its ->
  emits (write_all_deferred m server off (concat (announced <$> its))) (contents its) tt.
Proof.
  unfold contents. induction 1 as [|it its Hit _ IH]; [apply emits_ret|]. rewrite !concat_fmap_cons. unfold announced at 1.
  destruct (it_content it) as [|b bs] eqn:E; [done|]. rewrite <- E in *. cbn [app write_all_deferred].
  eapply emits_bind; [apply Hit; congruence|done].
Qed.

Lemma write_scrambled_emits value :
  emits (write_scrambled value) (scramble_password (units_le (utf16 value))) tt.
Proof. apply write_async_emits. Qed.

Lemma fields_emit :
  login_ok ->
  emits (write_all_deferred m server (as_i32 (feature_extension_offset m server))
           (deferred_actions_indicator (fold_left announce items start))) (contents items) tt.
Proof.
  intros [Ht _ _ _ _ _ _]. unfold login_strings in Ht. rewrite !list.Forall_cons in Ht.
  destruct Ht as (?&?&?&?&?&?&?&?&?&?&_).
  rewrite announce_all. cbn [deferred_actions_indicator start app]. apply write_all_deferred_emits.
  unfold items, items_before_id, items_after_id, if_password. cbn [app].
  repeat apply list.Forall_cons_2; try apply list.Forall_nil_2;
    cbn [it_tag it_content text_item secret_item extension_item sspi_item write_deferred]; intros Hne;
    try by apply write_string_emits.
  - case_bool_decide; [by apply write_string_emits|done].
  - case_bool_decide; [apply write_scrambled_emits|done].
  - rewrite <- le_bytes_as_i32. apply write_i32_emits.
  - unfold sspi_bytes. destruct (sspi_token m); [apply write_async_emits|apply emits_ret].
  - apply write_scrambled_emits.
Qed.

(** *** The lengths *)

Lemma extension_offset_eq : feature_extension_offset m server = 94 + Z.of_nat (length (contents items)).
Proof.
  unfold feature_extension_offset, context_len_bytes, calculate_byte_length_for_authentication, len_bytes,
    FIXED_LOGIN_RECORD_LENGTH.
  unfold contents, items, items_before_id, items_after_id, if_password.
  cbn [app fmap list_fmap concat it_content text_item secret_item extension_item sspi_item].
  rewrite !length_app, !length_scramble, !length_units_le, length_le_bytes.
  pose proof length_sspi_bytes. cbn [length].
  case_bool_decide; cbn [utf16 fmap list_fmap concat length]; lia.
Qed.

Lemma record_length_ok :
  login_ok -> calculate_login_record_length m server = Ok (record_length, as_i32 (feature_extension_offset m server)).
Proof.
  intros [_ _ _ _ Hm _ Hf]. unfold calculate_login_record_length, record_length, variable_bytes in *.
  rewrite length_app in *. unfold MAX_LOGIN_RECORD_LENGTH in *.
  rewrite length_feature_block by (done || lia). cbn [rbind].
  rewrite extension_offset_eq. unfold as_u64. rewrite Z.mod_small by lia.
  rewrite (proj2 (Z.ltb_ge _ _)) by lia. do 2 f_equal. unfold as_i32. rewrite to_signed_id by first [lia | split; lia]. lia.
Qed.

Lemma serialize_record_emits : login_ok -> emits (serialize_record m server) login_record tt.
Proof.
  intros Hok. unfold serialize_record, login_record, fixed_bytes, variable_bytes. rewrite <- !app_assoc.
  eapply emits_lift_ok.
  { unfold check_server_name_length, MAX_LOGIN7_NAME_UNITS. rewrite bool_decide_eq_false_2; [done|].
    pose proof (lo_server Hok). lia. }
  eapply emits_lift_ok; [by apply record_length_ok|]. cbn beta iota.
  do 12 emits_step. unfold write_variable_length_section. change (Build_Serializer _ _) with start.
  eapply emits_bind; [by apply write_table_emits|]. eapply emits_bind; [by apply fields_emit|].
  apply feature_block_emits. apply Hok.
Qed.
End record.
