(* ===== verification/LoginLayout.v ===== *)
(** * A server's reading of LOGIN7

    A reader that takes the fixed part at its positions and every field from where the table
    points, and the properties of what a login writes: the reader gets back every setting, and a
    login that does not fit is refused before anything is written. *)

From stdpp Require Import strings gmap.
From S2P Require Import Prelude Core Unicode Text PacketReader PacketWriter Writer WriterText WriterMessage Tokens TokenLaws.
From S2P Require Import SessionRecovery SessionRecoveryLaws ValueWriting Prelogin DataClassification DataSource.
From S2P Require Import ClientContext HostPolicy Features FeatureLaws Login LoginLaws.

(** ** The reader *)

Definition number_at (pos n : nat) (r : bytes) : Z := of_le (slice pos (pos + n) r).

(** The offset and the length of a table entry. *)
Definition entry_at (pos : nat) (r : bytes) : nat * nat :=
  (Z.to_nat (number_at pos 2 r), Z.to_nat (number_at (pos + 2) 2 r)).

(** A field whose length counts UTF-16 units. *)
Definition units_at (pos : nat) (r : bytes) : bytes :=
  let '(o, n) := entry_at pos r in slice o (o + 2 * n) r.

Definition text_of (bs : bytes) : option str := us ← le_units bs; from_utf16 us.

Definition unscramble_byte (b : byte) : byte :=
  let b := Z.lxor (byte_val b) 0xA5 in byte_of (Z.lor (Z.shiftr b 4) (as_u8 (Z.shiftl b 4))).

Definition text_at (pos : nat) (r : bytes) : option str := text_of (units_at pos r).
Definition secret_at (pos : nat) (r : bytes) : option str := text_of (unscramble_byte <$> units_at pos r).

(** The SSPI token: its length counts bytes, and a second field takes over past 65534. *)
Definition sspi_at (r : bytes) : bytes :=
  let '(o, n) := entry_at 78 r in
  let long := number_at 90 4 r in
  slice o (o + (if bool_decide (Z.of_nat n = 0xFFFF) && negb (long =? 0) then Z.to_nat long else n)) r.

(** The extensions: identifier, length and data up to the terminator. *)
Fixpoint decode_features (fuel : nat) (bs : bytes) : option (list (FeatureExtension * bytes)) :=
  match fuel, bs with
  | S fuel, id :: bs =>
      if byte_val id =? 0xFF then Some []
      else
        let len := Z.to_nat (of_le (take 4 bs)) in
        cons (FeatureExtension_from (byte_val id), take len (drop 4 bs)) <$>
          decode_features fuel (drop len (drop 4 bs))
  | _, _ => None
  end.

(** The extension field holds the position of the block. *)
Definition extensions_at (r : bytes) : option (list (FeatureExtension * bytes)) :=
  let '(o, _) := entry_at 56 r in
  let block := drop (Z.to_nat (number_at o 4 r)) r in decode_features (length block) block.

Record LoginView := {
  v_length : Z; v_tds_version : Z; v_packet_size : Z; v_prog_version : Z;
  v_flags1 : Z; v_flags2 : Z; v_type_flags : Z; v_flags3 : Z;
  v_host : str; v_user : str; v_password : str; v_application : str; v_server : str; v_library : str;
  v_language : str; v_database : str; v_client_id : bytes; v_sspi : bytes; v_attach_file : str;
  v_new_password : str; v_extensions : list (FeatureExtension * bytes);
}.

Definition read_login (r : bytes) : option LoginView :=
  host ← text_at 36 r; user ← text_at 40 r; password ← secret_at 44 r; application ← text_at 48 r;
  server ← text_at 52 r; library ← text_at 60 r; language ← text_at 64 r; database ← text_at 68 r;
  attach ← text_at 82 r; new_password ← secret_at 86 r; extensions ← extensions_at r;
  Some {| v_length := number_at 0 4 r; v_tds_version := number_at 4 4 r; v_packet_size := number_at 8 4 r;
          v_prog_version := number_at 12 4 r; v_flags1 := number_at 24 1 r; v_flags2 := number_at 25 1 r;
          v_type_flags := number_at 26 1 r; v_flags3 := number_at 27 1 r; v_host := host; v_user := user;
          v_password := password; v_application := application; v_server := server; v_library := library;
          v_language := language; v_database := database; v_client_id := slice 72 78 r; v_sspi := sspi_at r;
          v_attach_file := attach; v_new_password := new_password; v_extensions := extensions |}.

(** What the settings of a login amount to. *)
Definition login_view `{HashOrder} (m : LoginRequestModel) (server : str) : LoginView :=
  let c := user_input m in
  {| v_length := Z.of_nat (length (login_record m server));
     v_tds_version := TdsVersion_u32 (lr_tds_version m); v_packet_size := cc_packet_size c;
     v_prog_version := as_u32 (client_prog_ver m); v_flags1 := OptionFlags1_value (option_flags1 m);
     v_flags2 := OptionFlags2_value (option_flags2 m); v_type_flags := TypeFlags_value (type_flags m);
     v_flags3 := OptionFlags3_value (option_flags3 m); v_host := cc_workstation_id c;
     v_user := if_password m (cc_user_name c); v_password := if_password m (cc_password c);
     v_application := cc_application_name c; v_server := server; v_library := cc_library_name c;
     v_language := cc_language c; v_database := cc_database c; v_client_id := client_id m;
     v_sspi := sspi_bytes m; v_attach_file := cc_attach_db_file c; v_new_password := cc_change_password c;
     v_extensions := (fun f => (f_identifier f, feature_data f)) <$> sent_features (features_request m) |}.

(** ** Slices of a concatenation *)

Lemma slice_head {A} (b c : list A) k : k = length b -> slice 0 k (b ++ c) = b.
Proof. intros. by apply (slice_mid []). Qed.

Lemma unscramble_scramble bs : unscramble_byte <$> scramble_password bs = bs.
Proof.
  unfold scramble_password. rewrite <- list_fmap_compose. rewrite <- (list_fmap_id bs) at 2.
  apply list_fmap_ext. intros _ b _. cbn. by destruct b.
Qed.

Lemma text_of_units s : str_wf s -> text_of (units_le (utf16 s)) = Some s.
Proof.
  intros Hs. unfold text_of. rewrite le_units_le by by apply utf16_range. cbn. by apply from_utf16_utf16.
Qed.

(** ** The entries of the table *)

Lemma length_table_entry off it : length (entry_bytes off it) = 4%nat.
Proof. unfold entry_bytes. case_match; by rewrite length_app, !length_le_bytes. Qed.

Lemma length_entries_bytes off its : length (entries_bytes off its) = (4 * length its)%nat.
Proof.
  revert off. induction its as [|it its IH]; intros off; cbn [entries_bytes length]; [done|].
  rewrite length_app, length_table_entry, IH. lia.
Qed.

Lemma entries_split off its i it : its !! i = Some it ->
  exists a c, entries_bytes off its = a ++ entry_bytes (off + Z.of_nat (length (contents (take i its)))) it ++ c /\
    length a = (4 * i)%nat.
Proof.
  revert off i. induction its as [|it' its IH]; intros off [|i] Hi; cbn [lookup list_lookup] in Hi; try done.
  - injection Hi as ->. exists [], (entries_bytes (item_end off it) its). cbn [take]. split; [|done].
    unfold contents. cbn [fmap list_fmap concat length entries_bytes app]. by rewrite Z.add_0_r.
  - destruct (IH (item_end off it') i Hi) as (a & c & E & Ha).
    exists (entry_bytes off it' ++ a), c. cbn [entries_bytes take]. rewrite E. unfold contents. rewrite concat_fmap_cons, length_app.
    unfold item_end. rewrite Nat2Z.inj_add, Z.add_assoc, !app_assoc. split; [done|].
    rewrite length_app, length_table_entry. lia.
Qed.

Lemma contents_split its i it : its !! i = Some it ->
  contents its = contents (take i its) ++ it_content it ++ contents (drop (S i) its).
Proof.
  intros Hi. unfold contents. rewrite <- (take_drop_middle its i it Hi) at 1.
  by rewrite fmap_app, concat_app, concat_fmap_cons.
Qed.

Lemma offsets_ok_lookup off its i it :
  offsets_ok off its -> its !! i = Some it -> offset_ok (off + Z.of_nat (length (contents (take i its)))) it.
Proof.
  intros Ho Hi. rewrite <- (take_drop_middle its i it Hi), offsets_ok_app, entries_end in Ho. apply Ho.
Qed.

(** ** The extensions *)

Lemma identifier_round_trip f :
  let u := FeatureExtension_u8 (f_identifier f) in
  byte_val (byte_of u) = u /\ FeatureExtension_from u = f_identifier f /\ u <> 0xFF.
Proof. by destruct f. Qed.

Lemma length_feature_bytes f : length (feature_bytes f) = (5 + length (feature_data f))%nat.
Proof. unfold feature_bytes, encode_feature. by rewrite !length_app, length_le_bytes. Qed.

Lemma decode_features_bytes fs : Z.of_nat (length (features_bytes fs)) < 2 ^ 31 -> forall fuel,
  (length fs < fuel)%nat ->
  decode_features fuel (features_bytes fs ++ [byte_of 0xff]) =
    Some ((fun f => (f_identifier f, feature_data f)) <$> fs).
Proof.
  unfold features_bytes. induction fs as [|f fs IH]; intros Hl [|fuel] Hf; cbn [length] in Hf; try lia; [done|].
  rewrite concat_fmap_cons, length_app in *. rewrite length_feature_bytes in Hl.
  destruct (identifier_round_trip f) as (Hb & Hid & Hne).
  change (feature_bytes f) with ([byte_of (FeatureExtension_u8 (f_identifier f))] ++
    le_bytes 4 (Z.of_nat (length (feature_data f))) ++ feature_data f).
  rewrite <- !app_assoc. cbn [app decode_features]. rewrite Hb, (proj2 (Z.eqb_neq _ _)) by done.
  rewrite (take_app_length' (le_bytes 4 _)), (drop_app_length' (le_bytes 4 _)) by by rewrite length_le_bytes.
  rewrite of_le_unsigned by (unfold in_unsigned; change (8 * Z.of_nat 4) with 32; lia). rewrite Nat2Z.id.
  rewrite take_app_length, drop_app_length. rewrite IH by lia. by rewrite Hid.
Qed.

Lemma length_features_bytes fs : (length fs <= length (features_bytes fs))%nat.
Proof.
  unfold features_bytes. induction fs as [|f fs IH]; [done|].
  rewrite concat_fmap_cons, length_app, length_feature_bytes. cbn [length]. lia.
Qed.

(** ** Ranges of the option bytes *)

Lemma flags1_range f : byte_val (byte_of (OptionFlags1_value f)) = OptionFlags1_value f.
Proof. destruct f as [[] [] [] [] [] [] []]; done. Qed.

Lemma flags2_range f : byte_val (byte_of (OptionFlags2_value f)) = OptionFlags2_value f.
Proof. destruct f as [[] [] [] []]; done. Qed.

Lemma type_flags_range f : byte_val (byte_of (TypeFlags_value f)) = TypeFlags_value f.
Proof. destruct f as [[] [] []]; done. Qed.

Lemma flags3_range f : byte_val (byte_of (OptionFlags3_value f)) = OptionFlags3_value f.
Proof. destruct f as [[] [] [] [] []]; done. Qed.

Section layout.
Context `{HashOrder}.
Context (m : LoginRequestModel) (server : str).
Hypothesis Hok : login_ok m server.

Abbreviation r := (login_record m server).
Abbreviation its := (items m server).

(** Where the entry of the [i]th field is: the client's identifier comes after the ninth. *)
Definition entry_pos (i : nat) : nat := if (i <? 9)%nat then 36 + 4 * i else 42 + 4 * i.

Lemma length_fixed n : length (fixed_bytes m n) = 36%nat.
Proof. unfold fixed_bytes. by rewrite !length_app, !length_le_bytes. Qed.

Lemma length_table : length (table_bytes m server) = 58%nat.
Proof.
  unfold table_bytes. rewrite !length_app, !length_entries_bytes, length_le_bytes, (lo_id _ _ Hok). done.
Qed.

Lemma table_split i it : its !! i = Some it ->
  exists a c, r = a ++ entry_bytes (94 + Z.of_nat (length (contents (take i its)))) it ++ c /\
    length a = entry_pos i.
Proof.
  unfold its, entry_pos. intros Hi. unfold login_record, table_bytes.
  destruct (Nat.ltb_spec i 9) as [Hlt|Hge].
  - rewrite lookup_app_l in Hi by (cbn; lia). rewrite take_app_le by (cbn; lia).
    destruct (entries_split 94 _ i it Hi) as (a & c & -> & Ha).
    exists (fixed_bytes m (record_length m server) ++ a). eexists. rewrite <- !app_assoc.
    split; [reflexivity|]. rewrite length_app, length_fixed. lia.
  - rewrite lookup_app_r in Hi by (cbn; lia). rewrite take_app_ge by (cbn; lia).
    destruct (entries_split (94 + Z.of_nat (length (contents (items_before_id m server)))) _ _ it Hi) as (a & c & -> & Ha).
    exists (fixed_bytes m (record_length m server) ++ entries_bytes 94 (items_before_id m server) ++ client_id m ++ a).
    eexists. rewrite <- !app_assoc. split.
    + unfold contents. rewrite fmap_app, concat_app, length_app, Nat2Z.inj_add, Z.add_assoc. reflexivity.
    + rewrite !length_app, length_fixed, length_entries_bytes, (lo_id _ _ Hok), Ha. cbn [length] in *. cbn. lia.
Qed.

(** What an entry reads as, and what is found there. *)
Lemma entry_found i it :
  its !! i = Some it -> 0 <= it_length it < 2 ^ 16 ->
  entry_at (entry_pos i) r =
  match it_content it with
  | [] => (0, 0)%nat
  | _ => ((94 + length (contents (take i its)))%nat, Z.to_nat (it_length it))
  end.
Proof.
  intros Hi Hl. pose proof (offsets_ok_lookup _ _ _ _ (lo_offsets _ _ Hok) Hi) as Ho.
  destruct (table_split i it Hi) as (a & c & E & Ha). unfold entry_at, number_at. rewrite E.
  revert Ho. unfold entry_bytes, offset_ok.
  destruct (it_content it) as [|b bs]; intros Ho; rewrite <- app_assoc.
  - rewrite slice_mid by (rewrite ?length_le_bytes; lia).
    rewrite app_assoc, slice_mid by (rewrite ?length_app, ?length_le_bytes; lia). done.
  - specialize (Ho ltac:(done)).
    rewrite slice_mid by (rewrite ?length_le_bytes; lia).
    rewrite app_assoc, slice_mid by (rewrite ?length_app, ?length_le_bytes; lia).
    rewrite !of_le_unsigned by (unfold in_unsigned; change (8 * Z.of_nat 2) with 16; lia). f_equal. lia.
Qed.

Lemma content_found i it n :
  its !! i = Some it -> n = (94 + length (contents (take i its)))%nat ->
  slice n (n + length (it_content it)) r = it_content it.
Proof.
  intros Hi ->. rewrite <- (slice_mid (fixed_bytes m (record_length m server) ++ table_bytes m server ++
    contents (take i its)) (it_content it) (contents (drop (S i) its) ++ feature_block (features_request m))
    (94 + length (contents (take i its))) _ ltac:(rewrite !length_app, length_fixed, length_table; lia) eq_refl) at 2.
  unfold login_record, variable_bytes. by rewrite (contents_split _ _ _ Hi), <- !app_assoc.
Qed.
Lemma units_found i it :
  its !! i = Some it -> Z.of_nat (length (it_content it)) = 2 * it_length it -> 0 <= it_length it < 2 ^ 16 ->
  units_at (entry_pos i) r = it_content it.
Proof.
  intros Hi Hl Hm. unfold units_at. rewrite (entry_found i it) by done.
  destruct (it_content it) as [|b bs] eqn:E; [done|]. rewrite <- E in *.
  replace (2 * Z.to_nat (it_length it))%nat with (length (it_content it)) by lia. by apply (content_found i).
Qed.

Lemma text_found pos i p value :
  pos = entry_pos i -> its !! i = Some (text_item p value) -> str_wf value -> Z.of_nat (length (utf16 value)) < 2 ^ 16 ->
  text_at pos r = Some value.
Proof.
  intros -> Hi Hw Hl. unfold text_at. rewrite (units_found i _ Hi);
    cbn [it_content it_length text_item]; [by apply text_of_units|rewrite length_units_le; lia|lia].
Qed.

Lemma secret_found pos i p value :
  pos = entry_pos i -> its !! i = Some (secret_item p value) -> str_wf value -> Z.of_nat (length (utf16 value)) < 2 ^ 16 ->
  secret_at pos r = Some value.
Proof.
  intros -> Hi Hw Hl. unfold secret_at. rewrite (units_found i _ Hi);
    cbn [it_content it_length secret_item]; rewrite ?length_scramble, ?length_units_le; [|lia..].
  rewrite unscramble_scramble. by apply text_of_units.
Qed.

Lemma if_password_wf value : str_wf value -> str_wf (if_password m value).
Proof. unfold if_password. case_bool_decide; [done|intros; constructor]. Qed.

(** Numbers at their place. *)
Lemma number_skip b l pos n : (length b <= pos)%nat -> number_at pos n (b ++ l) = number_at (pos - length b) n l.
Proof.
  intros Hp. unfold number_at, slice. rewrite drop_app_ge by done. do 2 f_equal. lia.
Qed.

Lemma number_head n v l : number_at 0 n (le_bytes n v ++ l) = v mod 2 ^ (8 * Z.of_nat n).
Proof. unfold number_at. rewrite slice_head by by rewrite length_le_bytes. apply of_le_le_bytes. Qed.

Lemma number_byte b l : number_at 0 1 ([b] ++ l) = byte_val b.
Proof. unfold number_at. rewrite slice_head by done. apply of_le_one. Qed.

Lemma long_found : number_at 90 4 r = long_length m.
Proof.
  assert (0 <= long_length m < 2 ^ 32) as Hr.
  { pose proof (sspi_small m server (lo_length _ _ Hok)). pose proof (length_sspi_bytes m).
    unfold long_length. case_match; lia. }
  unfold login_record, table_bytes. rewrite number_skip by (rewrite length_fixed; lia). rewrite length_fixed.
  rewrite <- !app_assoc.
  rewrite number_skip by (rewrite length_entries_bytes; cbn; lia). rewrite length_entries_bytes.
  rewrite number_skip by (rewrite (lo_id _ _ Hok); cbn; lia). rewrite (lo_id _ _ Hok).
  rewrite number_skip by (rewrite length_entries_bytes; cbn; lia). rewrite length_entries_bytes.
  change (90 - 36 - 4 * length (items_before_id m server) - 6 - 4 * length (items_after_id m))%nat with 0%nat.
  rewrite number_head. by apply Z.mod_small.
Qed.

Lemma sspi_found : sspi_at r = sspi_bytes m.
Proof.
  pose proof (length_sspi_bytes m) as Hl.
  assert (its !! 9%nat = Some (sspi_item m)) as Hi by done. unfold sspi_at. rewrite long_found.
  pose proof (sspi_small m server (lo_length _ _ Hok)) as Hs.
  change 78%nat with (entry_pos 9). rewrite (entry_found 9 _ Hi) by (cbn [it_length sspi_item]; lia).
  pose proof (content_found 9 _ _ Hi eq_refl) as Hc. cbn [it_content it_length sspi_item] in *.
  destruct (sspi_bytes m) as [|b bs] eqn:E; [done|]. rewrite <- E in *.
  assert (0 < length (sspi_bytes m))%nat by (rewrite E; cbn; lia). unfold long_length.
  match goal with |- slice ?o (?o + ?n) r = _ => replace n with (length (sspi_bytes m)); [exact Hc|] end.
  rewrite Z2Nat.id by lia. destruct (0xFFFF <? sspi_length m) eqn:E1.
  - rewrite bool_decide_eq_true_2 by lia. cbn [andb]. rewrite (proj2 (Z.eqb_neq _ _)) by lia. cbn [negb]. lia.
  - rewrite andb_false_r. lia.
Qed.

Lemma client_id_found : slice 72 78 r = client_id m.
Proof.
  unfold login_record, table_bytes. rewrite <- !app_assoc. rewrite app_assoc.
  apply slice_mid; [|by rewrite (lo_id _ _ Hok)].
  by rewrite length_app, length_fixed, length_entries_bytes.
Qed.

Lemma drop_extensions : drop (Z.to_nat (feature_extension_offset m server)) r = feature_block (features_request m).
Proof.
  rewrite extension_offset_eq. unfold login_record, variable_bytes. rewrite !app_assoc.
  replace (Z.to_nat (94 + Z.of_nat (length (contents its)))) with
    (length ((fixed_bytes m (record_length m server) ++ table_bytes m server) ++ contents its)).
  - apply drop_app_length.
  - rewrite !length_app, length_fixed, length_table. lia.
Qed.

Lemma extensions_found :
  extensions_at r = Some ((fun f => (f_identifier f, feature_data f)) <$> sent_features (features_request m)).
Proof.
  assert (its !! 5%nat = Some (extension_item (feature_extension_offset m server))) as Hi by done.
  pose proof (lo_length _ _ Hok) as Hm. unfold record_length, variable_bytes, MAX_LOGIN_RECORD_LENGTH in Hm.
  rewrite length_app in Hm.
  unfold extensions_at. change 56%nat with (entry_pos 5). rewrite (entry_found 5 _ Hi) by done.
  pose proof (content_found 5 _ _ Hi eq_refl) as Hc. cbn [it_content it_length extension_item] in *.
  rewrite length_le_bytes in Hc. remember (le_bytes 4 (feature_extension_offset m server)) as bs eqn:E.
  destruct bs as [|b bs]; [by apply (f_equal length) in E; rewrite length_le_bytes in E|].
  unfold number_at. rewrite Hc, E, of_le_unsigned.
  2: { rewrite extension_offset_eq. unfold in_unsigned. change (8 * Z.of_nat 4) with 32. lia. }
  rewrite drop_extensions. unfold feature_block in *. rewrite length_app in *. cbn [length] in *.
  apply decode_features_bytes; [lia|]. pose proof (length_features_bytes (sent_features (features_request m))). lia.
Qed.

(** The fixed part. *)
Lemma fixed_found :
  number_at 0 4 r = record_length m server mod 2 ^ 32 /\
  number_at 4 4 r = TdsVersion_u32 (lr_tds_version m) mod 2 ^ 32 /\
  number_at 8 4 r = cc_packet_size (user_input m) mod 2 ^ 32 /\
  number_at 12 4 r = client_prog_ver m mod 2 ^ 32 /\
  number_at 24 1 r = OptionFlags1_value (option_flags1 m) /\
  number_at 25 1 r = OptionFlags2_value (option_flags2 m) /\
  number_at 26 1 r = TypeFlags_value (type_flags m) /\
  number_at 27 1 r = OptionFlags3_value (option_flags3 m).
Proof.
  unfold login_record, fixed_bytes. rewrite <- !app_assoc.
  split_and!;
    repeat (rewrite number_skip by (rewrite ?length_le_bytes; cbn [length]; lia);
            rewrite ?length_le_bytes; cbn [length Nat.sub]);
    rewrite ?number_head, ?number_byte; auto using flags1_range, flags2_range, type_flags_range, flags3_range.
Qed.

Lemma length_login_record : Z.of_nat (length r) = record_length m server.
Proof. unfold login_record, record_length. rewrite !length_app, length_fixed, length_table. lia. Qed.

Lemma read_login_record :
  in_unsigned 32 (TdsVersion_u32 (lr_tds_version m)) -> in_unsigned 16 (cc_packet_size (user_input m)) ->
  read_login r = Some (login_view m server).
Proof.
  intros Hv Hp. destruct Hok as [Ht Hu _ _ Hm _ _]. unfold login_strings in Ht, Hu.
  rewrite !list.Forall_cons in Ht, Hu.
  destruct Ht as (?&?&?&?&?&?&?&?&?&?&_), Hu as (?&?&?&?&?&?&?&?&?&?&_).
  unfold read_login.
  rewrite (text_found 36 0 D_HostName (cc_workstation_id (user_input m)) eq_refl eq_refl) by done.
  rewrite (text_found 40 1 D_UserName (if_password m (cc_user_name (user_input m))) eq_refl eq_refl)
    by auto using if_password_wf, if_password_units.
  rewrite (secret_found 44 2 D_Password (if_password m (cc_password (user_input m))) eq_refl eq_refl)
    by auto using if_password_wf, if_password_units.
  rewrite (text_found 48 3 D_AppName (cc_application_name (user_input m)) eq_refl eq_refl) by done.
  rewrite (text_found 52 4 D_ServerName server eq_refl eq_refl) by done.
  rewrite (text_found 60 6 D_Library (cc_library_name (user_input m)) eq_refl eq_refl) by done.
  rewrite (text_found 64 7 D_Language (cc_language (user_input m)) eq_refl eq_refl) by done.
  rewrite (text_found 68 8 D_Database (cc_database (user_input m)) eq_refl eq_refl) by done.
  rewrite (text_found 82 10 D_AttachDbFile (cc_attach_db_file (user_input m)) eq_refl eq_refl) by done.
  rewrite (secret_found 86 11 D_ChangePassword (cc_change_password (user_input m)) eq_refl eq_refl) by done.
  rewrite extensions_found, sspi_found, client_id_found. destruct fixed_found as (-> & -> & -> & -> & -> & -> & -> & ->).
  unfold in_unsigned, MAX_LOGIN_RECORD_LENGTH in *. pose proof length_login_record as Hr.
  unfold login_view. rewrite Hr, !(Z.mod_small _ (2 ^ 32)) by lia. done.
Qed.
End layout.

(** ** Logins built from settings *)

(** The texts are text, every length and offset fits its field, and the record fits its limit. *)
Definition login_fits `{HashOrder} (m : LoginRequestModel) (server : str) : Prop :=
  Forall str_wf (login_strings m server) /\
  Forall (fun s => Z.of_nat (length (utf16 s)) < 2 ^ 16) (login_strings m server) /\
  (length (utf16 server) <= 128)%nat /\ offsets_ok 94 (items m server) /\
  record_length m server <= MAX_LOGIN_RECORD_LENGTH.

Lemma login_ok_of_settings `{HashOrder} env c prelogin t token recovery m server :
  env_ok env -> settings_ok c recovery ->
  from_context_with_sspi env c prelogin t token recovery = Ok m -> login_fits m server -> login_ok m server.
Proof.
  intros He Hs Hm (? & ? & ? & ? & ?). unfold from_context_with_sspi, from_context in Hm.
  destruct (from_context_features_ok env c prelogin recovery He Hs) as (fs & Hfs & Hok).
  rewrite Hfs in Hm. cbn [rbind] in Hm. injection Hm as <-. split; done.
Qed.

(** C12: LOGIN7 carries every setting to where the server looks for it: the record a login writes is
    as long as its first field says, and a reader that follows the table's offsets and lengths finds
    the name of each machine, the user, the passwords once unscrambled, the SSPI token, the option
    bytes, and every requested extension with the user agent first, whatever order the client's map
    lists them in.  The model is that of [from_context_with_sspi], with or without a token;
    [settings_ok] leaves out a recovered session whose collation went back to the default one, the
    length of whose block is miscounted. *)
Theorem login_is_read_back `{HashOrder} arch os details env c prelogin t token recovery m server :
  detect arch os details = Ok env -> settings_ok c recovery -> in_unsigned 16 (cc_packet_size c) ->
  from_context_with_sspi env c prelogin t token recovery = Ok m ->
  login_server_name c t = Ok server -> login_fits m server ->
  emits (LoginRequest_body m) (login_record m server) tt /\
  read_login (login_record m server) = Some (login_view m server).
Proof.
  intros He Hs Hp Hm Hn Hf.
  assert (env_ok env) as Henv by (destruct (detect_ok arch os details) as (e & E & ?); congruence).
  pose proof (login_ok_of_settings _ _ _ _ _ _ _ _ Henv Hs Hm Hf) as Hok.
  assert (user_input m = c /\ transport_context m = t /\ lr_tds_version m = ctx_tds_version c) as (<- & <- & Hv).
  { unfold from_context_with_sspi, from_context in Hm. destruct (from_context_with_recovery _ _ _ _); try done.
    cbn [rbind] in Hm. by injection Hm as <-. }
  split.
  - unfold LoginRequest_body. eapply emits_lift_ok; [done|]. by apply serialize_record_emits.
  - apply read_login_record; [done| |done]. rewrite Hv. unfold ctx_tds_version. by destruct (cc_encryption_mode _).
Qed.

#[local] Instance list_order : HashOrder.
Proof. refine {| hash_values m := (map_to_list m).*2 |}. done. Defined.

(** The value of a result that is known to be one. *)
Definition ok_value {A} (r : TdsResult A) : match r with Ok _ => A | _ => unit end :=
  match r with Ok a => a | _ => tt end.

Definition sample_env : SystemEnvironmentInfo :=
  ok_value (detect (lit "x86_64") (lit "linux") (lit "Linux 6.18")).

Definition sample_settings : ClientContext :=
  (ok_value (with_data_source (lit "0.3.1") (Some (lit "client")) (lit "tcp:db,1433")) : ClientContext)
    {{ cc_user_name := lit "sa" }} {{ cc_password := [112; 0xE4; 0x1F511] }} {{ cc_database := lit "master" }}.

Definition sample_transport : TransportContext := Tcp (lit "db") 1433 None.

Definition sample_login : LoginRequestModel :=
  ok_value (from_context_with_sspi sample_env sample_settings true sample_transport [byte_of 7; byte_of 9] None).

Lemma login_is_read_back_witness :
  emits (LoginRequest_body sample_login) (login_record sample_login (lit "db,1433")) tt /\
  read_login (login_record sample_login (lit "db,1433")) = Some (login_view sample_login (lit "db,1433")) /\
  v_password <$> read_login (login_record sample_login (lit "db,1433")) = Some [112; 0xE4; 0x1F511].
Proof.
  assert (emits (LoginRequest_body sample_login) (login_record sample_login (lit "db,1433")) tt /\
    read_login (login_record sample_login (lit "db,1433")) = Some (login_view sample_login (lit "db,1433"))) as [He Hr].
  - apply (login_is_read_back (lit "x86_64") (lit "linux") (lit "Linux 6.18") sample_env sample_settings true
      sample_transport [byte_of 7; byte_of 9] None); [done| |done|done|done|].
    + split_and!; done.
    + split_and!; [by repeat constructor|repeat constructor|apply Nat.leb_le; by vm_compute| |by vm_compute].
      vm_compute. repeat match goal with |- _ /\ _ => split | |- _ => intros ? | |- _ => done end.
  - split_and!; [done|done|]. rewrite Hr. done.
Defined.

(** A login that is too long is refused whole: a server name over 128 UTF-16 units, or a record
    over 128 KiB, is a usage error raised before the first byte is written. *)
Theorem long_login_is_refused `{HashOrder} (m : LoginRequestModel) (server : str) (n : Z) (w : PacketWriter) :
  features_len_bytes m = Ok n -> feature_extension_offset m server + n < 2 ^ 64 ->
  (128 < length (utf16 server))%nat \/ MAX_LOGIN_RECORD_LENGTH < feature_extension_offset m server + n ->
  exists msg, serialize_record m server w = (Err (UsageError msg), w).
Proof.
  intros Hn Hm Hlong. unfold serialize_record, check_server_name_length, MAX_LOGIN7_NAME_UNITS. unfold bind at 1.
  unfold lift at 1. case_bool_decide as Hs; [by eauto|]. destruct Hlong as [?|Hlong]; [lia|].
  unfold bind at 1, lift, calculate_login_record_length. rewrite Hn. cbn [rbind].
  unfold as_u64, MAX_LOGIN_RECORD_LENGTH in *. rewrite Z.mod_small by lia. rewrite (proj2 (Z.ltb_lt _ _)) by lia. by eauto.
Qed.

Lemma long_login_is_refused_witness :
  exists msg, serialize_record sample_login (repeat 97 129) sample_new = (Err (UsageError msg), sample_new).
Proof. eapply long_login_is_refused; [by vm_compute|by vm_compute|]. left. by apply Nat.ltb_lt. Defined.

(** The user agent is always well formed: whatever the operating system and the embedding
    program report, the payload has exactly seven fields between bars, the first of them the format
    version, each of the others non-empty, of letters, digits, blanks and [.+_-] only, and within
    its limit; the whole is at most 152 UTF-16 units. *)
Theorem user_agent_is_well_formed arch os details (c : ClientContext) :
  exists env f parts, detect arch os details = Ok env /\ UserAgentFeature_new env c = Ok f /\
    agent_parts (payload f) parts /\ (length (utf16 (payload f)) <= 152)%nat.
Proof.
  destruct (detect_ok arch os details) as (env & He & Hok).
  destruct (user_agent_parts env c Hok) as (f & parts & Hf & Hp). exists env, f, parts.
  split_and!; [done..|]. by eapply agent_payload_ok.
Qed.
