(* ===== verification/LoginResponse.v ===== *)
(** * The answer to a login ([LoginResponse] and [LoginResponseModel] of src/mssql-tds/src/message/login.rs)

    The loop over the tokens of a login response: what it keeps of each, when it stops, and what a
    finished response does to the DNS cache and to the connection. *)

From stdpp Require Import strings gmap.
From S2P Require Import Prelude Core Unicode Text Tokens TokenParsers HostPolicy Features.

Record EnvChangeProperties := {
  ecp_database_collation : option SqlCollation;
  ecp_packet_size : Z;
  ecp_language : option str;
  ecp_database : option str;
  ecp_char_set : option str;
  routing_information : option RoutingInfo;
}.

#[export] Instance EnvChangeProperties_eta : Eta EnvChangeProperties := fun p =>
  Build_EnvChangeProperties (ecp_database_collation p) (ecp_packet_size p) (ecp_language p)
    (ecp_database p) (ecp_char_set p) (routing_information p).

Definition EnvChangeProperties_default : EnvChangeProperties := {|
  ecp_database_collation := None; ecp_packet_size := 0; ecp_language := None; ecp_database := None;
  ecp_char_set := None; routing_information := None |}.

Record LoginResponseModel := {
  change_properties : EnvChangeProperties;
  features : gmap FeatureExtension AnyFeature;
  errors : list ServerMessage;
  success_token : option LoginAckToken;
  fed_auth_info : option FedAuthInfoToken;
  lrm_sspi_token : option bytes;
  session_state_tokens : list SessionStateToken;
  info_messages : list ServerMessage;
}.

#[export] Instance LoginResponseModel_eta : Eta LoginResponseModel := fun m =>
  Build_LoginResponseModel (change_properties m) (features m) (errors m) (success_token m)
    (fed_auth_info m) (lrm_sspi_token m) (session_state_tokens m) (info_messages m).

Definition LoginResponseModel_new (fs : gmap FeatureExtension AnyFeature) : LoginResponseModel := {|
  change_properties := EnvChangeProperties_default; features := fs; errors := []; success_token := None;
  fed_auth_info := None; lrm_sspi_token := None; session_state_tokens := []; info_messages := [] |}.

Inductive LoginResponseStatus :=
  | LS_NoResponse | LS_Success | LS_Error | LS_WaitingForFedAuth | LS_Rerouting | LS_WaitingForSspi.

Definition is_some {A} (o : option A) : bool := match o with Some _ => true | None => false end.

(** [capture_change_property]: the settings the server reports, and a route. *)
Definition capture_login_change (token : EnvChangeToken) (m : LoginResponseModel) : TdsResult LoginResponseModel :=
  let set f := Ok (m {{ change_properties ::= f }}) in
  match change_type token with
  | EC_String _ new_value =>
      match sub_type token with
      | Env_Database => set (fun p => p {{ ecp_database := Some new_value }})
      | Env_Language => set (fun p => p {{ ecp_language := Some new_value }})
      | Env_CharacterSet => set (fun p => p {{ ecp_char_set := Some new_value }})
      | Env_DatabaseMirroringPartner => Ok m
      | _ => Err (ProtocolError "Env change token of type string, but implementation doesn't account for this property type")
      end
  | EC_SqlCollation _ new_value => set (fun p => p {{ ecp_database_collation := new_value }})
  | EC_UInt32 _ new_value =>
      match sub_type token with
      | Env_PacketSize => set (fun p => p {{ ecp_packet_size := as_i32 new_value }})
      | _ => Err (ProtocolError "Unaccounted numeric change property type")
      end
  | EC_RoutingType _ None => Err (ProtocolError "Routing env change did not include a redirection target")
  | EC_RoutingType _ (Some routing_info) =>
      if negb (is_some (success_token m)) then
        Err (ProtocolError "Received a routing ENVCHANGE before LOGINACK")
      else if is_some (routing_information (change_properties m)) then
        Err (ProtocolError "Received more than one routing ENVCHANGE in a login response")
      else set (fun p => p {{ routing_information := Some routing_info }})
  | _ => Err (ProtocolError "Unknown change property type")
  end.

Definition get_status (m : LoginResponseModel) : LoginResponseStatus :=
  if is_some (routing_information (change_properties m)) then LS_Rerouting
  else if is_some (success_token m) then LS_Success
  else if negb (match errors m with [] => true | _ => false end) then LS_Error
  else if is_some (fed_auth_info m) then LS_WaitingForFedAuth
  else if is_some (lrm_sspi_token m) then LS_WaitingForSspi
  else LS_Error.

Definition redirect_if_routed (m : LoginResponseModel) : TdsResult unit :=
  match routing_information (change_properties m) with
  | None => Ok tt
  | Some routing =>
      if is_some (database routing) && negb (request_enhanced_routing_enabled (features m)) then
        Err (ProtocolError "Received an Enhanced Routing ENVCHANGE without an Enhanced Routing feature acknowledgement")
      else Err (Redirection (server routing) (port routing) (database routing))
  end.

(** ** The loop *)

(** What the loop carries: the model, whether a FEATUREEXTACK came, and the first error of one. *)
Record LoginLoop := {
  response_model : LoginResponseModel;
  feature_ext_ack_received : bool;
  feature_ext_ack_error : option Error;
}.

#[export] Instance LoginLoop_eta : Eta LoginLoop := fun l =>
  Build_LoginLoop (response_model l) (feature_ext_ack_received l) (feature_ext_ack_error l).

(** [try_for_each]: stops at the first feature that refuses its data. *)
Fixpoint acknowledge_all (acks : list (FeatureExtension * bytes))
    : M (gmap FeatureExtension AnyFeature) unit :=
  match acks with
  | [] => ret tt
  | (ext, data) :: acks => set_acknowledged ext data ;; acknowledge_all acks
  end.

Definition acknowledge (acks : list (FeatureExtension * bytes)) (l : LoginLoop) : TdsResult LoginLoop :=
  let '(r, fs) := acknowledge_all acks (reset_dns_caching_acknowledgement (features (response_model l))) in
  let l := l {{ feature_ext_ack_received := true }} {{ response_model ::= fun m => m {{ features := fs }} }} in
  match r with
  | Ok _ => Ok l
  | Err error => Ok (l {{ feature_ext_ack_error ::= fun e => Some (default error e) }})
  | Panic w => Panic w
  | OutOfFuel => OutOfFuel
  end.

Definition done_completes (done : DoneToken) : bool :=
  negb (has_bit (status done)
    (Z.lor (Z.lor (Z.lor DONE_ERROR DONE_SERVER_ERROR) DONE_MORE) DONE_ATTN)).

(** One turn: what the loop carries on with, and whether it stops, completed or not. *)
Definition login_token {D} (t : Tokens D) (l : LoginLoop) : TdsResult (option bool * LoginLoop) :=
  let go l := Ok (None, l) in
  let set f := l {{ response_model ::= f }} in
  match t with
  | T_EnvChange token =>
      let? m := capture_login_change token (response_model l) in
      go (set (fun _ => m))
  | T_LoginAck token => go (set (fun m => m {{ success_token := Some token }}))
  | T_Done done => Ok (Some (done_completes done), l)
  | T_Error token => go (set (fun m => m {{ errors ::= fun es => es ++ [token] }}))
  | T_FeatureExtAck acks => let? l := acknowledge acks l in go l
  | T_FedAuthInfo token => Ok (Some false, set (fun m => m {{ fed_auth_info := Some token }}))
  | T_Info token => go (set (fun m => m {{ info_messages ::= fun es => es ++ [token] }}))
  | T_SessionState token => go (set (fun m => m {{ session_state_tokens ::= fun ts => ts ++ [token] }}))
  | T_Sspi data => Ok (Some false, set (fun m => m {{ lrm_sspi_token := Some data }}))
  | _ => go l
  end.

Section deserialize.
Context {R D : Type} (receive_token : M R (Tokens D)) (is_ip : str -> bool).

Fixpoint login_loop (fuel : nat) (l : LoginLoop) : M R (bool * LoginLoop) := fun r =>
  match fuel with
  | O => (OutOfFuel, r)
  | S fuel =>
      match receive_token r with
      | (Ok token, r) =>
          match login_token token l with
          | Ok (None, l) => login_loop fuel l r
          | Ok (Some completed, l) => (Ok (completed, l), r)
          | Err e => (Err e, r)
          | Panic w => (Panic w, r)
          | OutOfFuel => (OutOfFuel, r)
          end
      | (Err _, r) =>
          (Err (default (ProtocolError "Failed to receive token during login response parsing.")
                  (feature_ext_ack_error l)), r)
      | (Panic w, r) => (Panic w, r)
      | (OutOfFuel, r) => (OutOfFuel, r)
      end
  end.

(** The verdict a finished response has on the cache. *)
Definition settle (completed : bool) (l : LoginLoop) (cache : gmap str (list SocketAddr))
    : LoginLoop * gmap str (list SocketAddr) :=
  if completed && is_some (success_token (response_model l)) &&
     match errors (response_model l) with [] => true | _ => false end && feature_ext_ack_received l
  then
    let l := if is_some (feature_ext_ack_error l)
             then l {{ response_model ::= fun m => m {{ features ::= reset_dns_caching_acknowledgement }} }}
             else l in
    (l, apply_dns_caching_verdict is_ip (features (response_model l)) cache)
  else (l, cache).

Definition conclude (l : LoginLoop) : TdsResult LoginResponseModel :=
  match feature_ext_ack_error l with
  | Some error => Err error
  | None => let? _ := redirect_if_routed (response_model l) in Ok (response_model l)
  end.

Definition login_start (requested : gmap FeatureExtension AnyFeature) : LoginLoop :=
  {| response_model := LoginResponseModel_new requested; feature_ext_ack_received := false;
     feature_ext_ack_error := None |}.

(** [LoginResponse::deserialize], on the token stream and the process-wide DNS cache. *)
Definition LoginResponse_deserialize (fuel : nat) (requested : gmap FeatureExtension AnyFeature)
    : M (R * gmap str (list SocketAddr)) LoginResponseModel := fun '(r, cache) =>
  match login_loop fuel (login_start requested) r with
  | (Ok (completed, l), r) =>
      let '(l, cache) := settle completed l cache in (conclude l, (r, cache))
  | (Err e, r) => (Err e, (r, cache))
  | (Panic w, r) => (Panic w, (r, cache))
  | (OutOfFuel, r) => (OutOfFuel, (r, cache))
  end.
End deserialize.
