(* ===== verification/LoginResponseLaws.v ===== *)
(** * What a login response can do

    The loop over a login response as a state machine, its invariants by induction on the tokens
    received, and the properties that follow: a response always ends, only an accepted login
    changes the DNS cache, and only a logged-in server can redirect a connection. *)

From stdpp Require Import strings gmap.
From S2P Require Import Prelude Core Unicode Text PacketReader Reader ReaderLaws Tokens TokenParsers TokenSafety.
From S2P Require Import SessionRecovery DataClassification ClientContext HostPolicy Features LoginResponse.
From S2P Require Import ReadBuffer Transport Framing TokenLaws Values Rows RowSafety.

(** ** The loop as a state machine *)

(** The tokens a stream gives, one after the other. *)
Inductive receives {R D} (receive : M R (Tokens D)) : R -> list (Tokens D) -> R -> Prop :=
  | receives_nil r : receives receive r [] r
  | receives_cons r t r1 ts r' :
      receive r = (Ok t, r1) -> receives receive r1 ts r' -> receives receive r (t :: ts) r'.

(** What the loop makes of a run of tokens, the last of which stops it. *)
Inductive feeds {D} : LoginLoop -> list (Tokens D) -> bool -> LoginLoop -> Prop :=
  | feeds_stop l t completed l' :
      login_token t l = Ok (Some completed, l') -> feeds l [t] completed l'
  | feeds_go l t l1 ts completed l' :
      login_token t l = Ok (None, l1) -> feeds l1 ts completed l' -> feeds l (t :: ts) completed l'.

Lemma login_loop_feeds {R D} (receive : M R (Tokens D)) fuel : forall l r completed l' r',
  login_loop receive fuel l r = (Ok (completed, l'), r') ->
  exists ts, receives receive r ts r' /\ feeds l ts completed l'.
Proof.
  induction fuel as [|fuel IH]; intros l r completed l' r' H; cbn [login_loop] in H; [done|].
  destruct (receive r) as [[t|e|w|] r1] eqn:E; try done.
  destruct (login_token t l) as [[[c|] l1]|e|w|] eqn:E1; try done.
  - injection H as -> -> <-. exists [t]. split; [econstructor; [done|constructor]|by constructor].
  - destruct (IH _ _ _ _ _ H) as (ts & Hr & Hf). exists (t :: ts).
    split; [by econstructor|by econstructor].
Qed.

(** ** What an acknowledgement may change *)

(** [f] is [f0] after some acknowledgements: what was asked for is kept, and no more is negotiated. *)
Definition negotiates (f0 f : AnyFeature) : Prop :=
  match f0, f with
  | F_Utf8 _, F_Utf8 _ | F_Json _, F_Json _ | F_EnhancedRouting _, F_EnhancedRouting _ => True
  | F_DnsCaching a, F_DnsCaching b => dns_resolution b = dns_resolution a
  | F_Vector a, F_Vector b =>
      vec_client_version b = vec_client_version a /\ 0 <= vec_negotiated_version b <= vec_client_version a
  | F_AlwaysEncrypted a, F_AlwaysEncrypted b =>
      ae_client_version b = ae_client_version a /\ 0 <= ae_negotiated_version b <= ae_client_version a
  | F_DataClassification a, F_DataClassification b =>
      dc_requested_version b = dc_requested_version a /\
      forall v, dc_negotiated_version b = Some v ->
        DataClassificationVersion_u8 v <= DataClassificationVersion_u8 (dc_requested_version a)
  | F_FedAuth a, F_FedAuth b =>
      fa_tds_authentication_method b = fa_tds_authentication_method a /\ access_token_bytes b = access_token_bytes a
  | F_UserAgent a, F_UserAgent b => b = a
  | F_SessionRecovery a, F_SessionRecovery b =>
      connect_retry_count b = connect_retry_count a /\ recovery_data b = recovery_data a
  | _, _ => False
  end.

Lemma one_byte_spec what data v : one_byte what data = Ok v -> exists b, data = [b] /\ v = byte_val b.
Proof. destruct data as [|b [|]]; intros H; try done. injection H as <-. eauto. Qed.

Lemma negotiates_reset f0 f : negotiates f0 f -> negotiates f0 (f_set_acknowledged false f).
Proof. destruct f0, f; cbn; try done; intros [Hc Hn]; (split; [done|]); try lia; done. Qed.

Lemma vector_ack (a f : VectorFeature) data :
  negotiates (F_Vector a) (F_Vector f) -> negotiates (F_Vector a) (F_Vector (snd (Vector_deserialize data f))).
Proof.
  intros [Hc Hn]. unfold Vector_deserialize, bind, lift, gets, modify, throw.
  destruct (one_byte _ data) as [v| | |] eqn:E; try done. apply one_byte_spec in E as (b & -> & ->).
  assert (0 <= byte_val b < 256) by apply byte.unsigned_range. destruct (Z.eqb_spec (byte_val b) 0); [cbn; lia|].
  destruct (Z.ltb_spec (vec_client_version f) (byte_val b)); cbn; [done|]. split; [done|lia].
Qed.

Lemma encryption_ack (a f : AlwaysEncryptedFeature) data :
  negotiates (F_AlwaysEncrypted a) (F_AlwaysEncrypted f) ->
  negotiates (F_AlwaysEncrypted a) (F_AlwaysEncrypted (snd (AlwaysEncrypted_deserialize data f))).
Proof.
  intros [Hc Hn]. unfold AlwaysEncrypted_deserialize, bind, lift, gets, modify, throw.
  destruct (one_byte _ data) as [v| | |] eqn:E; try done. apply one_byte_spec in E as (b & -> & ->).
  assert (0 <= byte_val b < 256) by apply byte.unsigned_range. destruct (Z.eqb_spec (byte_val b) 0); [cbn; lia|].
  destruct (Z.ltb_spec (ae_client_version f) (byte_val b)); cbn; [done|]. split; [done|lia].
Qed.

Lemma classification_ack (a f : DataClassificationFeature) data :
  negotiates (F_DataClassification a) (F_DataClassification f) ->
  negotiates (F_DataClassification a) (F_DataClassification (snd (DataClassification_deserialize data f))).
Proof.
  intros [Hc Hn]. unfold DataClassification_deserialize.
  destruct data as [|v [|e data]]; try done.
  destruct (DataClassificationVersion_try_from (byte_val v)) as [ver| | |]; try done.
  cbn. rewrite Hc. split; [done|]. intros w Hw.
  destruct (byte_val e =? 0); [done|]. injection Hw as <-. case_match; lia.
Qed.

Lemma negotiates_ack f0 f data :
  negotiates f0 f -> negotiates f0 (snd (f_deserialize data (f_set_acknowledged true f))).
Proof.
  destruct f0, f; try done.
  - intros H. by apply vector_ack.
  - intros H. by apply encryption_ack.
  - intros H. by apply classification_ack.
  - intros [? ?]. cbn. by destruct data.
Qed.

(** ** Invariants of the loop *)

Section invariant.
Context {D : Type} (requested : gmap FeatureExtension AnyFeature).

Definition saw_login_ack (ts : list (Tokens D)) : Prop := exists ack, T_LoginAck ack ∈ ts.
Definition saw_feature_ack (ts : list (Tokens D)) : Prop := exists acks, T_FeatureExtAck acks ∈ ts.
Definition saw_no_error (ts : list (Tokens D)) : Prop := forall e, T_Error e ∉ ts.

(** An acknowledgement that turns enhanced routing on. *)
Definition saw_routing_ack (ts : list (Tokens D)) : Prop :=
  exists acks b, T_FeatureExtAck acks ∈ ts /\ (EnhancedRouting, [b]) ∈ acks /\ byte_val b = 1.

(** A route the server sent once it had accepted the login. *)
Definition saw_route (ts : list (Tokens D)) (routing : RoutingInfo) : Prop :=
  exists before old sub after,
    ts = before ++ T_EnvChange {| sub_type := sub; change_type := EC_RoutingType old (Some routing) |} :: after /\
    saw_login_ack before.

Definition features_follow (fs : gmap FeatureExtension AnyFeature) : Prop :=
  forall k, match requested !! k, fs !! k with
            | Some f0, Some f => negotiates f0 f
            | None, None => True
            | _, _ => False
            end.

Definition routing_follows (ts : list (Tokens D)) (fs : gmap FeatureExtension AnyFeature) : Prop :=
  forall f, fs !! EnhancedRouting = Some (F_EnhancedRouting f) -> er_enabled f = true -> saw_routing_ack ts.

Record loop_inv (ts : list (Tokens D)) (l : LoginLoop) : Prop := {
  li_ack : success_token (response_model l) <> None -> saw_login_ack ts;
  li_errors : errors (response_model l) = [] -> saw_no_error ts;
  li_features : feature_ext_ack_received l = true -> saw_feature_ack ts;
  li_route routing : routing_information (change_properties (response_model l)) = Some routing -> saw_route ts routing;
  li_negotiated : features_follow (features (response_model l));
  li_routing : routing_follows ts (features (response_model l));
}.

(** What was seen stays seen. *)
Lemma saw_login_ack_app ts t : saw_login_ack ts -> saw_login_ack (ts ++ [t]).
Proof. intros [a ?]. exists a. apply elem_of_app; by left. Qed.
Lemma saw_feature_ack_app ts t : saw_feature_ack ts -> saw_feature_ack (ts ++ [t]).
Proof. intros [a ?]. exists a. apply elem_of_app; by left. Qed.
Lemma saw_routing_ack_app ts t : saw_routing_ack ts -> saw_routing_ack (ts ++ [t]).
Proof. intros (a & b & Hin & Ha). exists a, b. split; [apply elem_of_app; by left|done]. Qed.
Lemma saw_route_app ts t routing : saw_route ts routing -> saw_route (ts ++ [t]) routing.
Proof.
  intros (before & old & sub & after & -> & ?). exists before, old, sub, (after ++ [t]).
  by rewrite <- app_assoc.
Qed.
Hint Resolve saw_login_ack_app saw_feature_ack_app saw_routing_ack_app saw_route_app : core.

(** A token that changes nothing the invariant speaks of, and is not an error. *)
Lemma loop_inv_quiet ts t l l' :
  loop_inv ts l -> (forall e, t <> T_Error e) ->
  success_token (response_model l') = success_token (response_model l) ->
  errors (response_model l') = errors (response_model l) ->
  feature_ext_ack_received l' = feature_ext_ack_received l ->
  change_properties (response_model l') = change_properties (response_model l) \/
    routing_information (change_properties (response_model l')) =
    routing_information (change_properties (response_model l)) ->
  features (response_model l') = features (response_model l) -> loop_inv (ts ++ [t]) l'.
Proof.
  intros [Ha He Hf Hr Hn Her] Ht E1 E2 E3 E4 E5.
  assert (routing_information (change_properties (response_model l')) =
    routing_information (change_properties (response_model l))) as E6 by (destruct E4 as [->|]; done).
  split; rewrite ?E1, ?E2, ?E3, ?E5, ?E6; eauto.
  - intros H e. rewrite elem_of_app, list_elem_of_singleton. intros [H1|H1]; [by apply (He H e)|]. by apply (Ht e).
  - intros f Hl Hb. apply saw_routing_ack_app. by apply (Her f).
Qed.

(** *** Acknowledgements *)

Lemma follow_update fs k f g :
  features_follow fs -> fs !! k = Some f -> (forall f0, negotiates f0 f -> negotiates f0 g) ->
  features_follow (<[k := g]> fs).
Proof.
  intros Hfs Hk Hg k'. specialize (Hfs k'). destruct (decide (k' = k)) as [->|Hne].
  - rewrite lookup_insert_eq. rewrite Hk in Hfs. destruct (requested !! k); [by apply Hg|done].
  - by rewrite lookup_insert_ne by done.
Qed.

Lemma reset_follow fs : features_follow fs -> features_follow (reset_dns_caching_acknowledgement fs).
Proof.
  intros Hfs. unfold reset_dns_caching_acknowledgement. destruct (fs !! SqlDnsCaching) as [f|] eqn:E; [|done].
  eapply follow_update; [done..|]. intros f0. apply negotiates_reset.
Qed.

Lemma set_acknowledged_spec ext data fs :
  snd (set_acknowledged ext data fs) =
  match fs !! ext with
  | Some f => <[ext := snd (f_deserialize data (f_set_acknowledged true f))]> fs
  | None => fs
  end.
Proof. unfold set_acknowledged. destruct (fs !! ext); [|done]. by destruct (f_deserialize _ _). Qed.

Lemma set_acknowledged_follow ext data fs : features_follow fs -> features_follow (snd (set_acknowledged ext data fs)).
Proof.
  intros Hfs. rewrite set_acknowledged_spec. destruct (fs !! ext) as [f|] eqn:E; [|done].
  eapply follow_update; [done..|]. intros f0. apply negotiates_ack.
Qed.

Lemma acknowledge_all_follow acks : forall fs,
  features_follow fs -> features_follow (snd (acknowledge_all acks fs)).
Proof.
  induction acks as [|[ext data] acks IH]; intros fs Hfs; cbn [acknowledge_all]; [done|].
  pose proof (set_acknowledged_follow ext data fs Hfs) as Hs. unfold bind.
  destruct (set_acknowledged ext data fs) as [[| | |] fs']; auto.
Qed.

Definition routing_on (fs : gmap FeatureExtension AnyFeature) : Prop :=
  exists f, fs !! EnhancedRouting = Some (F_EnhancedRouting f) /\ er_enabled f = true.

Lemma reset_routing fs : routing_on (reset_dns_caching_acknowledgement fs) -> routing_on fs.
Proof.
  intros (f & Hf & Hon). exists f. split; [|done]. revert Hf. unfold reset_dns_caching_acknowledgement.
  destruct (fs !! SqlDnsCaching); [|done]. by rewrite lookup_insert_ne.
Qed.

Lemma set_acknowledged_routing ext data fs :
  routing_on (snd (set_acknowledged ext data fs)) ->
  routing_on fs \/ ext = EnhancedRouting /\ exists b, data = [b] /\ byte_val b = 1.
Proof.
  rewrite set_acknowledged_spec. destruct (fs !! ext) as [f|] eqn:E; [|by left].
  intros (g & Hg & Hon). destruct (decide (ext = EnhancedRouting)) as [->|Hne].
  2: { left. exists g. rewrite lookup_insert_ne in Hg by done. done. }
  rewrite lookup_insert_eq in Hg. injection Hg as Hg.
  destruct f as [f|f|f|f|f|f|f|f|f|f]; try done. injection Hg as <-.
  cbn in Hon. unfold EnhancedRouting_deserialize in Hon.
  assert (er_enabled f = true -> routing_on fs) as Hold by (intros; by exists f).
  destruct data as [|b [|]]; [by left; apply Hold| |by left; apply Hold].
  destruct (_ || _); [|by left; apply Hold]. right. split; [done|]. exists b. split; [done|].
  cbn in Hon. by apply Z.eqb_eq.
Qed.

Lemma acknowledge_all_routing acks : forall fs,
  routing_on (snd (acknowledge_all acks fs)) ->
  routing_on fs \/ exists b, (EnhancedRouting, [b]) ∈ acks /\ byte_val b = 1.
Proof.
  induction acks as [|[ext data] acks IH]; intros fs H; cbn [acknowledge_all] in H; [by left|].
  pose proof (set_acknowledged_routing ext data fs) as Hs. unfold bind in H.
  assert (routing_on (snd (set_acknowledged ext data fs)) ->
    routing_on fs \/ exists b, (EnhancedRouting, [b]) ∈ (ext, data) :: acks /\ byte_val b = 1) as Hhead.
  { intros [?|(-> & b & -> & ?)]%Hs; [by left|]. right. exists b. set_solver. }
  destruct (set_acknowledged ext data fs) as [[| | |] fs']; try by apply Hhead.
  destruct (IH _ H) as [?|(b & ? & ?)]; [by apply Hhead|]. right. exists b. set_solver.
Qed.

(** *** The step *)

Lemma capture_change_step ts token l m :
  loop_inv ts l -> capture_login_change token (response_model l) = Ok m ->
  loop_inv (ts ++ [T_EnvChange token]) (l {{ response_model := m }}).
Proof.
  intros Hl H. pose proof Hl as [Ha _ _ Hr _ _]. unfold capture_login_change in H.
  destruct token as [sub change]; cbn [change_type sub_type] in H.
  destruct change as [old new|old new|old new|old new| |]; try done.
  - destruct sub; try done; injection H as <-; apply (loop_inv_quiet ts _ l); auto.
  - injection H as <-. apply (loop_inv_quiet ts _ l); auto.
  - destruct sub; try done. injection H as <-. apply (loop_inv_quiet ts _ l); auto.
  - destruct new as [routing|]; [|done].
    destruct (success_token (response_model l)) as [ack|] eqn:Es; [|done].
    destruct (routing_information _) eqn:Ei; [done|]. cbn [is_some negb] in H. injection H as <-.
    assert (loop_inv (ts ++ [T_EnvChange {| sub_type := sub; change_type := EC_RoutingType old (Some routing) |}]) l)
      as [? ? ? Hr' ? ?] by (apply (loop_inv_quiet ts _ l); auto).
    split; try done. cbn. intros routing' [= <-]. exists ts, old, sub, []. split; [done|]. by apply Ha.
Qed.

Lemma acknowledge_step ts acks l l' :
  loop_inv ts l -> acknowledge acks l = Ok l' -> loop_inv (ts ++ [T_FeatureExtAck acks]) l'.
Proof.
  intros [Ha He Hf Hr Hn Her] H. unfold acknowledge in H.
  pose proof (acknowledge_all_follow acks _ (reset_follow _ Hn)) as Hn'.
  assert (routing_follows (ts ++ [T_FeatureExtAck acks])
    (snd (acknowledge_all acks (reset_dns_caching_acknowledgement (features (response_model l)))))) as Her'.
  { intros f Hk Hon. destruct (acknowledge_all_routing acks (reset_dns_caching_acknowledgement (features (response_model l))))
      as [Hold|(b & Hin & Hb)]; [by exists f| |].
    - apply reset_routing in Hold as (g & Hg & Hgon). apply saw_routing_ack_app. by apply (Her g).
    - exists acks, b. split; [apply elem_of_app; right; by apply list_elem_of_singleton|done]. }
  destruct (acknowledge_all acks _) as [res fs]; cbn [snd] in *.
  assert (forall err, loop_inv (ts ++ [T_FeatureExtAck acks])
    (l {{ feature_ext_ack_received := true }} {{ response_model ::= fun m => m {{ features := fs }} }}
       {{ feature_ext_ack_error ::= err }})) as Hinv.
  { intros err. split; cbn; eauto.
    - intros Hnil e. rewrite elem_of_app, list_elem_of_singleton. intros [H1|H1]; [by apply (He Hnil e)|done].
    - intros _. exists acks. apply elem_of_app; right; by apply list_elem_of_singleton. }
  destruct res; try done; injection H as <-; [|apply Hinv]. specialize (Hinv id). by destruct l.
Qed.

Lemma login_token_step ts t l s l' :
  loop_inv ts l -> login_token t l = Ok (s, l') -> loop_inv (ts ++ [t]) l'.
Proof.
  intros Hl H. destruct t; cbn [login_token] in H;
    try (injection H as _ <-; apply (loop_inv_quiet ts _ l); by auto).
  - destruct (capture_login_change t (response_model l)) as [m| | |] eqn:E; try done. injection H as _ <-.
    by apply capture_change_step.
  - injection H as _ <-. pose proof Hl as [Ha He Hf Hr Hn Her]. split; cbn; eauto.
    + intros Hnil e. cbn in Hnil. by destruct (errors (response_model l)).
    + intros f Hk Hon. apply saw_routing_ack_app. by apply (Her f).
  - injection H as _ <-. pose proof Hl as [Ha He Hf Hr Hn Her]. split; cbn; eauto.
    + intros _. exists t. apply elem_of_app; right; by apply list_elem_of_singleton.
    + intros Hnil e. rewrite elem_of_app, list_elem_of_singleton. intros [H1|H1]; [by apply (He Hnil e)|done].
    + intros f Hk Hon. apply saw_routing_ack_app. by apply (Her f).
  - destruct (acknowledge _ l) as [l1| | |] eqn:E; try done. injection H as _ <-. by eapply acknowledge_step.
Qed.

Lemma feeds_inv l ts c l' : feeds l ts c l' -> forall pre, loop_inv pre l -> loop_inv (pre ++ ts) l'.
Proof.
  induction 1 as [l t c l' Ht|l t l1 ts c l' Ht _ IH]; intros pre Hpre.
  - by eapply login_token_step.
  - change (t :: ts) with ([t] ++ ts). rewrite app_assoc. apply IH. by eapply login_token_step.
Qed.

(** Nothing is acknowledged before the response. *)
Definition fresh_request : Prop := features_follow requested /\ ~ routing_on requested.

Lemma start_inv : fresh_request -> loop_inv [] (login_start requested).
Proof.
  intros [Hf Hr]. split; try done.
  - intros _ e. apply not_elem_of_nil.
  - intros f Hk Hon. exfalso. apply Hr. by exists f.
Qed.
End invariant.

(** ** The properties *)

(** The host a login resolved, and the addresses it may publish. *)
Definition bound_resolution (fs : gmap FeatureExtension AnyFeature) : option Resolution :=
  match fs !! SqlDnsCaching with Some (F_DnsCaching f) => dns_resolution f | _ => None end.

Lemma verdict_follows requested fs r allowed :
  features_follow requested fs -> fs !! SqlDnsCaching ≫= dns_caching_verdict = Some (r, allowed) ->
  bound_resolution requested = Some r.
Proof.
  intros Hf H. specialize (Hf SqlDnsCaching). unfold bound_resolution.
  destruct (fs !! SqlDnsCaching) as [f|]; [|done]. destruct (requested !! SqlDnsCaching) as [f0|]; [|done].
  cbn in H. destruct f; try done. destruct f0; try done. cbn in *. unfold DnsCaching_verdict in H.
  rewrite <- Hf. destruct (dns_resolution f); [|done]. by injection H as <- _.
Qed.

(** What a settled login can have done to the cache: the entry of its own host was removed, or set to
    the addresses it resolved. *)
Definition cache_step (r : Resolution) (cache cache' : gmap str (list SocketAddr)) : Prop :=
  cache' = delete (res_host r) cache \/ cache' = <[res_host r := addresses r]> cache.

Lemma verdict_step is_ip requested fs cache cache' :
  features_follow requested fs -> apply_dns_caching_verdict is_ip fs cache = cache' -> cache' <> cache ->
  exists r, bound_resolution requested = Some r /\ cache_step r cache cache'.
Proof.
  intros Hf H Hne. unfold apply_dns_caching_verdict in H.
  destruct (fs !! SqlDnsCaching ≫= dns_caching_verdict) as [[r allowed]|] eqn:E; [|congruence].
  exists r. split; [by eapply verdict_follows|]. unfold apply_verdict in H. unfold cache_step.
  repeat case_match; subst; try congruence; [left|right]; congruence.
Qed.

Lemma done_stops {D} (l : LoginLoop) (ts : list (Tokens D)) l' :
  feeds l ts true l' -> exists front done, ts = front ++ [T_Done done] /\ done_completes done = true.
Proof.
  intros H. remember true as c eqn:Hc. induction H as [l t c l' Ht|l t l1 ts c l' Ht Hf IH]; subst.
  - destruct t; cbn [login_token] in Ht; try done.
    + injection Ht as Hd <-. by eexists [], _.
    + by destruct (capture_login_change _ _).
    + by destruct (acknowledge _ _).
  - destruct (IH eq_refl) as (front & d & -> & ?). by exists (t :: front), d.
Qed.

(** *** Errors of the loop are protocol errors *)

Definition protocol_result (r : TdsResult unit) : Prop := r = Ok tt \/ exists msg, r = Err (ProtocolError msg).

Lemma one_byte_result what data : (exists v, one_byte what data = Ok v) \/ exists msg, one_byte what data = Err (ProtocolError msg).
Proof. destruct data as [|b [|]]; cbn; eauto. Qed.

Lemma deserialize_result (f : AnyFeature) data : protocol_result (fst (f_deserialize data f)).
Proof.
  unfold protocol_result. destruct f as [f|f|f|f|f|f|f|f|f|f]; cbn; try by left.
  - unfold bind, lift. destruct (one_byte_result "UTF-8" data) as [[v ->]|[msg ->]]; cbn; eauto.
  - unfold JsonFeature_deserialize. destruct (one_byte_result "JSON" data) as [[v ->]|[msg ->]]; cbn; [|eauto].
    case_match; eauto.
  - unfold EnhancedRouting_deserialize. destruct data as [|b [|]]; cbn; try by eauto. case_match; cbn; eauto.
  - unfold Vector_deserialize, bind, lift.
    destruct (one_byte_result "VectorSupport" data) as [[v ->]|[msg ->]]; cbn; [|eauto]. repeat case_match; cbn; eauto.
  - unfold AlwaysEncrypted_deserialize, bind, lift.
    destruct (one_byte_result "Always Encrypted" data) as [[v ->]|[msg ->]]; cbn; [|eauto]. repeat case_match; cbn; eauto.
  - unfold DataClassification_deserialize. destruct data as [|v [|e]]; cbn; try by eauto.
    destruct (DataClassificationVersion_try_from (byte_val v)); cbn; eauto.
Qed.

Lemma acknowledge_all_result acks : forall fs, protocol_result (fst (acknowledge_all acks fs)).
Proof.
  induction acks as [|[ext data] acks IH]; intros fs; cbn [acknowledge_all]; [by left|]. unfold bind, set_acknowledged.
  destruct (fs !! ext) as [f|]; [|apply IH].
  pose proof (deserialize_result (f_set_acknowledged true f) data) as Hd.
  destruct (f_deserialize data _) as [r f']; cbn [fst] in Hd. destruct Hd as [->|[msg ->]]; [apply IH|]. right. by exists msg.
Qed.

Definition ack_error_ok (l : LoginLoop) : Prop :=
  forall e, feature_ext_ack_error l = Some e -> exists msg, e = ProtocolError msg.

Lemma capture_result token m :
  (exists m', capture_login_change token m = Ok m') \/ exists msg, capture_login_change token m = Err (ProtocolError msg).
Proof. unfold capture_login_change. repeat case_match; eauto. Qed.

Lemma acknowledge_result acks l : ack_error_ok l -> exists l', acknowledge acks l = Ok l' /\ ack_error_ok l'.
Proof.
  intros Hl. unfold acknowledge. pose proof (acknowledge_all_result acks
    (reset_dns_caching_acknowledgement (features (response_model l)))) as Hr.
  destruct (acknowledge_all _ _) as [r fs]; cbn [fst] in Hr. destruct Hr as [->|[msg ->]]; eexists; (split; [done|]); [done|].
  intros e. cbn. destruct (feature_ext_ack_error l) eqn:E; cbn; intros [= <-]; [by apply Hl|by eexists].
Qed.

Lemma login_token_result {D} (t : Tokens D) l : ack_error_ok l ->
  (exists s l', login_token t l = Ok (s, l') /\ ack_error_ok l') \/ exists msg, login_token t l = Err (ProtocolError msg).
Proof.
  intros Hl. destruct t; cbn [login_token]; try by (left; eexists _, _; split).
  - destruct (capture_result t (response_model l)) as [[m ->]|[msg ->]]; [left|right]; cbn; [by eexists _, _|by eexists].
  - destruct (acknowledge_result features l Hl) as (l' & -> & ?). left. by eexists _, _.
Qed.

Lemma feeds_error {D} l (ts : list (Tokens D)) c l' : feeds l ts c l' -> ack_error_ok l -> ack_error_ok l'.
Proof.
  induction 1 as [l t c l' Ht|l t l1 ts c l' Ht _ IH]; intros Hl;
    destruct (login_token_result t l Hl) as [(s & l2 & E & ?)|[msg E]]; rewrite E in Ht; try done;
    injection Ht as _ <-; auto.
Qed.

Lemma elem_front {D} (t : Tokens D) front done :
  t ∈ front ++ [T_Done done] -> (forall d, t <> T_Done d) -> t ∈ front.
Proof. rewrite elem_of_app, list_elem_of_singleton. intros [?| ->] Ht; [done|]. by destruct (Ht done). Qed.

(** A response that was not read to its end gives a protocol error and leaves the cache alone. *)
Lemma login_loop_error {R D} (receive : M R (Tokens D)) fuel : forall l r e r',
  ack_error_ok l -> login_loop receive fuel l r = (Err e, r') -> exists msg, e = ProtocolError msg.
Proof.
  induction fuel as [|fuel IH]; intros l r e r' Hl H; cbn [login_loop] in H; [done|].
  destruct (receive r) as [[t|e1|w|] r1]; try done.
  - destruct (login_token_result t l Hl) as [(s & l1 & E & Hl1)|[msg E]]; rewrite E in H.
    + destruct s; [done|]. by eapply IH.
    + injection H as <- _. by eexists.
  - injection H as <- _. destruct (feature_ext_ack_error l) eqn:E; cbn; [by apply Hl|by eexists].
Qed.

Lemma start_error_ok requested : ack_error_ok (login_start requested).
Proof. by intros e. Qed.

Section response.
Context {R D : Type} (receive : M R (Tokens D)) (is_ip : str -> bool) (requested : gmap FeatureExtension AnyFeature).

(** A response read to its end, after the tokens [ts]. *)
Record read_to_end (r : R) (cache : gmap str (list SocketAddr)) (res : TdsResult LoginResponseModel) (r' : R)
    (cache' : gmap str (list SocketAddr)) (ts : list (Tokens D)) (completed : bool) (l : LoginLoop) : Prop := {
  re_receives : receives receive r ts r';
  re_feeds : feeds (login_start requested) ts completed l;
  re_inv : loop_inv requested ts l;
  re_error : ack_error_ok l;
  re_result : res = conclude (fst (settle is_ip completed l cache));
  re_cache : cache' = snd (settle is_ip completed l cache);
}.

Lemma deserialize_cases fuel r cache res r' cache' :
  fresh_request requested ->
  LoginResponse_deserialize receive is_ip fuel requested (r, cache) = (res, (r', cache')) ->
  (exists ts completed l, read_to_end r cache res r' cache' ts completed l) \/
  cache' = cache /\ ((exists msg, res = Err (ProtocolError msg)) \/ ~ completes res).
Proof.
  intros Hfresh H. unfold LoginResponse_deserialize in H.
  destruct (login_loop receive fuel (login_start requested) r) as [[[completed l]|e|w|] r1] eqn:E.
  - left. destruct (login_loop_feeds receive fuel _ _ _ _ _ E) as (ts & Hr & Hf). exists ts, completed, l.
    destruct (settle is_ip completed l cache) as [l2 c2] eqn:Es. injection H as <- <- <-.
    split; try done; [by apply (feeds_inv requested _ _ _ _ Hf []), start_inv| |by rewrite Es..].
    by eapply feeds_error, start_error_ok.
  - right. injection H as <- _ <-. split; [done|left].
    destruct (login_loop_error receive fuel _ _ _ _ (start_error_ok requested) E) as [msg ->]. by exists msg.
  - right. injection H as <- _ <-. split; [done|right; intros []].
  - right. injection H as <- _ <-. split; [done|right; intros []].
Qed.

(** Settling changes nothing but the cache, and the DNS extension after a bad acknowledgement. *)
Lemma settle_keeps completed l cache l' :
  fst (settle is_ip completed l cache) = l' ->
  feature_ext_ack_error l' = feature_ext_ack_error l /\
  change_properties (response_model l') = change_properties (response_model l) /\
  (routing_on (features (response_model l')) -> routing_on (features (response_model l))) /\
  (features_follow requested (features (response_model l)) -> features_follow requested (features (response_model l'))).
Proof.
  intros <-. unfold settle. case_match; [|done]. cbn [fst]. destruct (is_some (feature_ext_ack_error l)); [|done].
  split_and!; [done..|apply reset_routing|apply reset_follow].
Qed.

(** The cache moved: the login was accepted. *)
Lemma settle_moves completed l cache :
  snd (settle is_ip completed l cache) <> cache ->
  completed = true /\ success_token (response_model l) <> None /\ errors (response_model l) = [] /\
  feature_ext_ack_received l = true /\
  (features_follow requested (features (response_model l)) ->
   exists host, bound_resolution requested = Some host /\ cache_step host cache (snd (settle is_ip completed l cache))).
Proof.
  unfold settle. destruct (completed && _ && _ && _) eqn:Eb; [|done]. cbn [snd]. intros Hne.
  apply andb_true_iff in Eb as [[[Hcmp Hs]%andb_true_iff Herr]%andb_true_iff Hack].
  split_and!; [done|by destruct (success_token _)|by destruct (errors _)|done|]. intros Hn.
  eapply verdict_step; [|done|done]. destruct (is_some (feature_ext_ack_error l)); [by apply reset_follow|exact Hn].
Qed.
End response.

(** C27: The DNS cache follows accepted logins only: when reading a login response changes it, the
    server had acknowledged the login, sent no error, sent a FEATUREEXTACK and ended with a DONE
    that reports neither an error nor more to come; and all that changed is the entry of the
    login's own host, which was removed or set to the addresses this connection resolved. *)
Theorem cache_follows_accepted_login {R D} (receive : M R (Tokens D)) is_ip fuel requested r cache res r' cache' :
  fresh_request requested ->
  LoginResponse_deserialize receive is_ip fuel requested (r, cache) = (res, (r', cache')) -> cache' <> cache ->
  exists front done host, receives receive r (front ++ [T_Done done]) r' /\ done_completes done = true /\
    saw_login_ack front /\ saw_no_error front /\ saw_feature_ack front /\
    bound_resolution requested = Some host /\ cache_step host cache cache'.
Proof.
  intros Hfresh H Hne. apply deserialize_cases in H as [(ts & completed & l & [Hr Hf [Ha He Hk _ Hn _] _ _ Hc])|[? _]];
    [|done|done]. subst cache'.
  apply (settle_moves is_ip requested) in Hne as (-> & Hs & Herr & Hack & Hstep).
  destruct (done_stops _ _ _ Hf) as (front & done & -> & Hd). destruct (Hstep Hn) as (host & Hh & Hcs).
  exists front, done, host. split_and!; try done.
  - destruct (Ha Hs) as [ack Hin]. exists ack. by eapply elem_front.
  - intros e Hin. apply (He Herr e), elem_of_app. by left.
  - destruct (Hk Hack) as [acks Hin]. exists acks. by eapply elem_front.
Qed.

(** C28: Only a server that accepted the login can send the client elsewhere: when reading a response
    ends in a redirection, the server acknowledged the login and then, later in the same response,
    sent a route to exactly that host, port and database; and a route that names a database counts
    only if the server also acknowledged enhanced routing as enabled. *)
Theorem redirect_follows_login {R D} (receive : M R (Tokens D)) is_ip fuel requested r cache host p db r' cache' :
  fresh_request requested ->
  LoginResponse_deserialize receive is_ip fuel requested (r, cache) = (Err (Redirection host p db), (r', cache')) ->
  exists ts routing, receives receive r ts r' /\ saw_route ts routing /\
    server routing = host /\ port routing = p /\ database routing = db /\ (db <> None -> saw_routing_ack ts).
Proof.
  intros Hfresh H. apply deserialize_cases in H as [(ts & completed & l & [Hr _ [_ _ _ Hro _ Her] Herr Hc _])|[_ [[? ?]|Hc]]];
    [|done|by exfalso; apply Hc|done].
  destruct (settle_keeps is_ip requested completed l cache _ eq_refl) as (E1 & E2 & E3 & _).
  unfold conclude in Hc. rewrite E1 in Hc. destruct (feature_ext_ack_error l) as [e|] eqn:Ee.
  { destruct (Herr e Ee) as [msg ->]. done. }
  unfold redirect_if_routed in Hc. rewrite E2 in Hc.
  destruct (routing_information _) as [routing|] eqn:Eri; [|done]. cbn [rbind] in Hc.
  destruct (is_some (database routing) && _) eqn:Ea; [done|]. injection Hc as -> -> ->.
  exists ts, routing. split_and!; [done|by apply Hro|done..|]. intros Hdb.
  destruct (database routing); [|done]. cbn [is_some andb] in Ea. apply negb_false_iff in Ea.
  destruct E3 as (f & Hk & Hon); [|by apply (Her f)].
  unfold request_enhanced_routing_enabled in Ea. unfold routing_on.
  destruct (features _ !! EnhancedRouting) as [f|]; [|done].
  destruct f; try done. cbn in Ea. apply andb_true_iff in Ea as [_ Ea]. by eexists.
Qed.

(** C29: No acknowledgement negotiates more than was asked for: after a login response every extension
    of the request is still there, with what it asked for unchanged, and the vector, encryption and
    classification versions in use are at most those requested. *)
Theorem negotiation_stays_within_request {R D} (receive : M R (Tokens D)) is_ip fuel requested r cache m r' cache' :
  fresh_request requested ->
  LoginResponse_deserialize receive is_ip fuel requested (r, cache) = (Ok m, (r', cache')) ->
  features_follow requested (features m).
Proof.
  intros Hfresh H. apply deserialize_cases in H as [(ts & completed & l & [_ _ [_ _ _ _ Hn _] _ Hc _])|[_ [[? ?]|Hc]]];
    [|done|by exfalso; apply Hc|done].
  destruct (settle_keeps is_ip requested completed l cache _ eq_refl) as (_ & _ & _ & Hs).
  unfold conclude in Hc. destruct (feature_ext_ack_error _); [done|].
  destruct (redirect_if_routed _); try done. injection Hc as ->. by apply Hs.
Qed.

(** ** The response ends *)

Section ends.
Context {R D : Type} (inv : R -> Prop) (left : R -> nat) (receive : M R (Tokens D)) (is_ip : str -> bool).

(** With a stream that uses up something for every token, as many turns as it holds are enough. *)
Lemma login_loop_ends (bound : nat) :
  (forall r, inv r -> (left r < bound)%nat -> gives_at inv left 1 (fun _ => True) receive r) ->
  forall fuel l r, inv r -> (left r < bound)%nat -> (left r < fuel)%nat -> ack_error_ok l ->
  completes (fst (login_loop receive fuel l r)) /\ inv (snd (login_loop receive fuel l r)).
Proof.
  intros Hrec. induction fuel as [|fuel IH]; intros l r Hr Hb Hf Hl; [lia|]. cbn [login_loop].
  destruct (Hrec r Hr Hb) as (Hc & Hi & Ha). destruct (receive r) as [res r1]; cbn [fst snd] in *.
  destruct res as [t|e|w|]; try done. destruct (Ha t eq_refl) as [Hlt _].
  destruct (login_token_result t l Hl) as [(s & l1 & -> & Hl1)|[msg ->]]; [|done].
  destruct s; [done|]. apply IH; [done|lia|lia|done].
Qed.

Lemma conclude_completes l : completes (conclude l).
Proof. unfold conclude, redirect_if_routed. repeat case_match; done. Qed.

Lemma deserialize_ends bound fuel requested r cache :
  (forall r, inv r -> (left r < bound)%nat -> gives_at inv left 1 (fun _ => True) receive r) ->
  inv r -> (left r < bound)%nat -> (left r < fuel)%nat ->
  completes (fst (LoginResponse_deserialize receive is_ip fuel requested (r, cache))) /\
  inv (fst (snd (LoginResponse_deserialize receive is_ip fuel requested (r, cache)))).
Proof.
  intros Hrec Hr Hb Hf. unfold LoginResponse_deserialize.
  destruct (login_loop_ends bound Hrec fuel (login_start requested) r Hr Hb Hf (start_error_ok requested)) as [Hc Hi].
  destruct (login_loop _ _ _ _) as [res r1]; cbn [fst snd] in *.
  destruct res as [[completed l]|e|w|]; try done. destruct (settle _ _ _ _). split; [apply conclude_completes|done].
Qed.
End ends.

(** Every login response comes to an end: whatever bytes the server sends, over any reader that is
    safe on any input, reading the response neither panics nor loops, it returns a model, a
    redirection or an error, and the reader's invariant holds again.  The fuel only has to exceed
    the bytes the reader holds. *)
Theorem login_response_ends {R} {inv : R -> Prop} {left : R -> nat} `{rd : SafeReader R inv left} `{half : HalfCrate}
    is_ip fuel requested r cache :
  inv r -> (left r < fuel)%nat ->
  let response := LoginResponse_deserialize (receive_token_internal fuel (parse_data fuel None CtxNone)) is_ip fuel
                    requested (r, cache) in
  completes (fst response) /\ inv (fst (snd response)).
Proof.
  intros Hr Hf. apply (deserialize_ends inv left _ is_ip fuel); [|done..]. intros r1 Hr1 Hf1.
  destruct (receive_token_gives data_token_ok fuel (parse_data fuel None CtxNone) r1) as (Hc & Hi & Ha); try done.
  - intros. by apply parse_data_gives.
  - split; [done|]. split; [done|]. intros t Ht. by destruct (Ha t Ht).
Qed.

#[local] Instance no_half : HalfCrate := {| f16_to_f32 := id |}.

Lemma login_response_ends_witness :
  let response := LoginResponse_deserialize (receive_token_internal 100 (parse_data 100 None CtxNone)) (fun _ => false)
                    100 ∅ (hostile_transport, ∅) in
  completes (fst response) /\ transport_wf (fst (snd response)).
Proof.
  apply login_response_ends; [apply fresh_transport_wf; lia|]. apply Nat.ltb_lt. vm_compute. reflexivity.
Defined.

(** ** A response, token by token *)

(** A token stream given as the list of what it yields. *)
Definition from_list {D} : M (list (Tokens D)) (Tokens D) := fun ts =>
  match ts with t :: ts => (Ok t, ts) | [] => (Err (ConnectionClosed "no more tokens"), []) end.

Definition sample_resolution : Resolution :=
  Resolution_new (lit "Db.example") [{| ip := IpV4 0x0A000001; sa_port := 1433 |}].

Definition sample_request : gmap FeatureExtension AnyFeature :=
  <[EnhancedRouting := F_EnhancedRouting {| er_acknowledged := false; er_enabled := false |}]>
    (<[Tokens.Vector := F_Vector (VectorFeature_new 2)]> (bind_dns_caching sample_resolution ∅)).

Definition sample_ack : LoginAckToken :=
  {| interface_type := SqlInterfaceType_try_from 1; tds_version := V7_4; prog_name := [];
     prog_version := Build_Version 0 0 0 0 |}.

Definition sample_done : DoneToken := {| status := 0; cur_cmd := CurrentCommand_try_from 0; row_count := 0 |}.

Definition sample_route : EnvChangeToken :=
  {| sub_type := Env_EnhancedRouting;
     change_type := EC_RoutingType None (Some {| protocol := 0; port := 1444; server := lit "other"; database := Some (lit "db") |}) |}.

Definition accepted : list (Tokens unit) :=
  [T_LoginAck sample_ack; T_FeatureExtAck [(SqlDnsCaching, [byte_of 1]); (Tokens.Vector, [byte_of 1])]; T_Done sample_done].

Definition redirected : list (Tokens unit) :=
  [T_LoginAck sample_ack; T_EnvChange sample_route; T_FeatureExtAck [(EnhancedRouting, [byte_of 1])]; T_Done sample_done].

Lemma sample_request_fresh : fresh_request sample_request.
Proof.
  split.
  - intros k. unfold sample_request, bind_dns_caching.
    destruct (decide (k = EnhancedRouting)) as [->|]; [done|]. rewrite lookup_insert_ne by done.
    destruct (decide (k = Tokens.Vector)) as [->|]; [by vm_compute; repeat split|]. rewrite lookup_insert_ne by done.
    destruct (decide (k = SqlDnsCaching)) as [->|]; [done|]. by rewrite lookup_insert_ne, lookup_empty by done.
  - intros (f & Hf & Hon). unfold sample_request in Hf. rewrite lookup_insert_eq in Hf. by injection Hf as <-.
Qed.

Lemma cache_follows_accepted_login_witness :
  exists front done host, receives from_list accepted (front ++ [T_Done done]) [] /\ done_completes done = true /\
    saw_login_ack front /\ saw_no_error front /\ saw_feature_ack front /\
    bound_resolution sample_request = Some host /\
    cache_step host ∅ {[ lit "db.example" := [{| ip := IpV4 0x0A000001; sa_port := 1433 |}] ]}.
Proof.
  eapply (cache_follows_accepted_login from_list (fun _ => false) 5 sample_request accepted ∅);
    [apply sample_request_fresh|vm_compute; reflexivity|done].
Defined.

Lemma redirect_follows_login_witness :
  exists ts routing, receives from_list redirected ts [] /\ saw_route ts routing /\
    server routing = lit "other" /\ port routing = 1444 /\ database routing = Some (lit "db") /\
    (Some (lit "db") <> None -> saw_routing_ack ts).
Proof.
  eapply (redirect_follows_login from_list (fun _ => false) 5 sample_request redirected ∅);
    [apply sample_request_fresh|vm_compute; reflexivity].
Defined.

Lemma negotiation_stays_within_request_witness :
  exists m, fst (LoginResponse_deserialize from_list (fun _ => false) 5 sample_request (accepted, ∅)) = Ok m /\
    features_follow sample_request (features m) /\
    option_map f_negotiated_version (features m !! Tokens.Vector) = Some 1.
Proof.
  eexists. split; [vm_compute; reflexivity|]. split; [|done].
  eapply (negotiation_stays_within_request from_list (fun _ => false) 5 sample_request accepted ∅);
    [apply sample_request_fresh|vm_compute; reflexivity].
Defined.
