(* ===== verification/DataSourceLaws.v ===== *)
(** * What data sources mean

    The parser of DataSource works on a string and on its lowercase copy, and cuts the one where it
    found a separator in the other.  Here it is compared with a grammar that splits one string, its
    results are shown to be well formed, and so are the endpoints derived from them. *)

From stdpp Require Import strings.
From S2P Require Import Prelude Unicode Text DataSource.

#[local] Arguments lit : simpl never.
#[local] Arguments one_of : simpl never.

(** ** The grammar *)

(** [protocol:rest], where the protocol is one of four. *)
Definition split_protocol (s : str) : str * str :=
  match split_once 58 s with
  | Some (p, rest) =>
      let protocol := to_ascii_lowercase (trim p) in
      if one_of ["tcp"; "np"; "lpc"; "admin"] protocol then (protocol, trim_start rest) else ([], s)
  | None => ([], s)
  end.

(** [rest,port]: a port makes the protocol TCP, and ends at a backslash. *)
Definition split_port (protocol s : str) : TdsResult (str * option str * str) :=
  match split_once 44 s with
  | Some (rest, parameter) =>
      let protocol := if is_empty protocol then lit "tcp" else protocol in
      if negb (one_of ["tcp"] protocol) then Err (ProtocolError "Port parameter only valid for TCP protocol")
      else
        let parameter := trim parameter in
        let port := match split_once 92 parameter with Some (port, _) => port | None => parameter end in
        Ok (protocol, Some port, trim_end rest)
  | None => Ok (protocol, None, s)
  end.

(** [server\instance]; the instance is dropped when a port was given. *)
Definition split_instance (port : option str) (s : str) : TdsResult (str * str) :=
  match split_once 92 s with
  | Some (server, instance) =>
      if is_empty (default [] port) then
        if eq_ignore_ascii_case (trim instance) (lit "mssqlserver")
        then Err (ProtocolError "Instance name 'MSSQLSERVER' is reserved")
        else Ok (trim instance, trim_end server)
      else Ok ([], trim_end server)
  | None => Ok ([], s)
  end.

Section laws.
Context `{UnicodeCase}.
Context (windows : bool) (computer_name : option str).

Definition source_spec (datasource : str) (parallel : bool) : TdsResult ParsedDataSource :=
  let s := trim datasource in
  if is_empty s then Err (ProtocolError "Data source string cannot be empty")
  else if is_localdb_source (to_ascii_lowercase s) then
    if windows then parse_localdb s (to_ascii_lowercase s) parallel
    else Err (ProtocolError "LocalDB is not supported on this platform.")
  else
    let '(protocol, s) := split_protocol s in
    let d := ParsedDataSource_new {{ parallel_connect := parallel }} {{ protocol_name := protocol }} in
    if starts_with NAMED_PIPE_PREFIX s then parse_named_pipe windows computer_name s d
    else
      let? p := split_port protocol s in
      let '(protocol, port, s) := p in
      let? q := split_instance port s in
      let '(instance, server) := q in
      let d := d {{ protocol_name := protocol }} {{ protocol_parameter := default [] port }}
                 {{ can_use_cache := match port with Some _ => false | None => true end }}
                 {{ ds_instance_name := instance }} in
      let? d := validate_protocol windows computer_name
                  (parse_server computer_name server (to_ascii_lowercase server) d) in
      Ok (build_alias d).

(** ** The parser follows the grammar *)

Lemma find_char_lower c s a b : caseless c -> ascii s -> split_once c s = Some (a, b) ->
  find_char c (to_ascii_lowercase s) = Some (length a) /\ s = a ++ c :: b /\ ascii a /\ ascii b.
Proof.
  intros Hc Hs E. pose proof (find_char_split c (to_ascii_lowercase s)) as Hf.
  rewrite split_once_lower, E in Hf by done. cbn in Hf. destruct Hf as (_ & -> & _).
  pose proof (find_char_split c s) as Hg. rewrite E in Hg. destruct Hg as (-> & _).
  apply ascii_app in Hs as [Ha Hb]. apply list.Forall_cons in Hb as [_ Hb].
  split_and!; try done. rewrite ascii_len by auto with text. unfold to_ascii_lowercase. by rewrite length_fmap.
Qed.

Lemma find_char_lower_none c s : caseless c -> split_once c s = None ->
  find_char c (to_ascii_lowercase s) = None.
Proof.
  intros Hc E. pose proof (find_char_split c (to_ascii_lowercase s)) as Hf.
  rewrite split_once_lower, E in Hf by done. by destruct Hf.
Qed.

(** Cutting at an offset found in the lowercase copy. *)
Lemma cut_at a c b : ascii a -> 0 <= c < 128 ->
  str_to (length a) (a ++ c :: b) = Ok a /\ str_from (length a + 1) (a ++ c :: b) = Ok b.
Proof.
  intros Ha Hc. split.
  - rewrite <- (ascii_len a) by done. apply str_to_app.
  - replace (length a + 1)%nat with (str_len (a ++ [c])).
    + replace (a ++ c :: b) with ((a ++ [c]) ++ b) by by rewrite <- app_assoc. apply str_from_app.
    + rewrite ascii_len, length_app; [done|]. apply ascii_app. split; [done|]. by constructor.
Qed.

Lemma lower_cut a c b : caseless c ->
  to_ascii_lowercase (a ++ c :: b) = to_ascii_lowercase a ++ c :: to_ascii_lowercase b.
Proof.
  intros Hc. unfold to_ascii_lowercase. rewrite fmap_app. cbn. f_equal. f_equal.
  pose proof (ascii_lower_eq c c Hc) as E. rewrite Z.eqb_refl in E. by apply Z.eqb_eq.
Qed.

Lemma cut_lower a c b : ascii a -> 0 <= c < 128 -> caseless c ->
  str_to (length a) (to_ascii_lowercase (a ++ c :: b)) = Ok (to_ascii_lowercase a) /\
  str_from (length a + 1) (to_ascii_lowercase (a ++ c :: b)) = Ok (to_ascii_lowercase b).
Proof.
  intros Ha Hc Hk. rewrite lower_cut by done.
  replace (length a) with (length (to_ascii_lowercase a)) by apply length_fmap.
  apply cut_at; auto with text.
Qed.

(** The separators: colon, comma and backslash. *)
Definition separator (c : char) : Prop := c = 58 \/ c = 44 \/ c = 92.

Lemma separator_ok c : separator c -> caseless c /\ 0 <= c < 128.
Proof. unfold separator, caseless. lia. Qed.

(** What the three steps do at a separator. *)
Lemma at_separator c s a b : separator c -> ascii s -> split_once c s = Some (a, b) ->
  find_char c (to_ascii_lowercase s) = Some (length a) /\ ascii a /\ ascii b /\
  str_to (length a) s = Ok a /\ str_from (length a + 1) s = Ok b /\
  str_to (length a) (to_ascii_lowercase s) = Ok (to_ascii_lowercase a) /\
  str_from (length a + 1) (to_ascii_lowercase s) = Ok (to_ascii_lowercase b).
Proof.
  intros [Hk Hc]%separator_ok Hs E. destruct (find_char_lower c s a b) as (? & -> & Ha & Hb); try done.
  destruct (cut_at a c b), (cut_lower a c b); done.
Qed.

Lemma parse_protocol_spec s d : ascii s ->
  parse_protocol s (to_ascii_lowercase s) d =
  let '(protocol, rest) := split_protocol s in
  Ok (to_ascii_lowercase rest, rest, if is_empty protocol then d else d {{ protocol_name := protocol }}).
Proof.
  intros Hs. unfold parse_protocol, split_protocol. destruct (split_once 58 s) as [[a b]|] eqn:E.
  - destruct (at_separator 58 s a b) as (-> & _ & _ & _ & -> & -> & ->); try done; [by left|].
    cbn [rbind]. rewrite trim_lower. case_match eqn:Ep; [|done]. rewrite trim_start_lower.
    destruct (to_ascii_lowercase (trim a)); [by vm_compute in Ep|done].
  - by rewrite (find_char_lower_none 58 s) by (try apply separator_ok; by try left).
Qed.

Lemma parse_parameter_spec s d : ascii s ->
  parse_parameter s (to_ascii_lowercase s) d =
  let? p := split_port (protocol_name d) s in
  let '(protocol, port, rest) := p in
  Ok (to_ascii_lowercase rest, rest,
      match port with
      | Some port => d {{ protocol_name := protocol }} {{ protocol_parameter := port }} {{ can_use_cache := false }}
      | None => d
      end).
Proof.
  intros Hs. unfold parse_parameter, split_port. destruct (split_once 44 s) as [[a b]|] eqn:E.
  - destruct (at_separator 44 s a b) as (-> & _ & Hb & -> & -> & -> & _); try done; [by right; left|].
    cbn [rbind]. destruct d; unfold upd; cbn. destruct (is_empty protocol_name) eqn:Ee; cbn.
    + rewrite trim_end_lower. pose proof (find_char_split 92 (trim b)) as Hf.
      destruct (split_once 92 (trim b)) as [[port r]|]; cbn.
      * destruct Hf as (-> & -> & _). by rewrite str_to_app.
      * by destruct Hf as [-> _].
    + destruct (one_of ["tcp"] protocol_name); [|done]. cbn.
      rewrite trim_end_lower. pose proof (find_char_split 92 (trim b)) as Hf.
      destruct (split_once 92 (trim b)) as [[port r]|]; cbn.
      * destruct Hf as (-> & -> & _). by rewrite str_to_app.
      * by destruct Hf as [-> _].
  - by rewrite (find_char_lower_none 44 s) by (try apply separator_ok; by try (right; left)).
Qed.

Lemma parse_instance_spec s d : ascii s -> ds_instance_name d = [] ->
  parse_instance s (to_ascii_lowercase s) d =
  let? p := split_instance (Some (protocol_parameter d)) s in
  let '(instance, rest) := p in
  Ok (to_ascii_lowercase rest, rest, d {{ ds_instance_name := instance }}).
Proof.
  intros Hs Hd. unfold parse_instance, split_instance. destruct d; unfold upd; cbn in *. subst.
  destruct (split_once 92 s) as [[a b]|] eqn:E.
  - destruct (at_separator 92 s a b) as (-> & _ & Hb & -> & -> & -> & _); try done; [by right; right|].
    cbn. destruct (is_empty protocol_parameter); cbn; [|by rewrite trim_end_lower].
    destruct (eq_ignore_ascii_case _ _); cbn; [done|by rewrite trim_end_lower].
  - by rewrite (find_char_lower_none 92 s) by (try apply separator_ok; by try (right; right)).
Qed.

Lemma split_protocol_ascii s : ascii s -> ascii (snd (split_protocol s)).
Proof.
  intros Hs. unfold split_protocol. destruct (split_once 58 s) as [[a b]|] eqn:E; [|done].
  destruct (at_separator 58 s a b) as (_ & _ & Hb & _); try done; [by left|]. case_match; cbn; auto with text.
Qed.

Lemma split_port_ascii protocol s protocol' port s' :
  ascii s -> split_port protocol s = Ok (protocol', port, s') -> ascii s'.
Proof.
  intros Hs. unfold split_port. destruct (split_once 44 s) as [[a b]|] eqn:E; [|by intros [= _ _ <-]].
  destruct (at_separator 44 s a b) as (_ & Ha & _); try done; [by right; left|].
  case_match; [done|]. intros [= _ _ <-]. auto with text.
Qed.

Lemma split_port_none protocol s protocol' s' :
  split_port protocol s = Ok (protocol', None, s') -> protocol' = protocol.
Proof. unfold split_port. destruct (split_once 44 s) as [[a b]|]; [by case_match|congruence]. Qed.

Lemma trim_ascii_lower s : ascii s -> to_lowercase s = to_ascii_lowercase s.
Proof. apply to_lowercase_ascii. Qed.

Lemma pipe_prefix_caseless : Forall caseless NAMED_PIPE_PREFIX.
Proof. unfold NAMED_PIPE_PREFIX, lit. cbn. by repeat (apply list.Forall_cons; split; [unfold caseless; lia|]). Qed.

Lemma is_empty_lower s : is_empty (to_ascii_lowercase s) = is_empty s.
Proof. by destruct s. Qed.
End laws.

Lemma parse_is_spec `{UnicodeCase} windows computer_name datasource parallel :
  ascii datasource ->
  parse windows computer_name datasource parallel = source_spec windows computer_name datasource parallel.
Proof.
  intros Ha. unfold parse, source_spec. pose proof (ascii_trim _ Ha) as Ht.
  rewrite trim_ascii_lower, is_empty_lower by done. destruct (is_empty _); [done|].
  destruct (is_localdb_source _); [done|]. unfold parse_endpoint. rewrite parse_protocol_spec by done.
  pose proof (split_protocol_ascii _ Ht) as Hp. destruct (split_protocol (trim datasource)) as [protocol s].
  cbn [rbind snd] in *. rewrite starts_with_lower by apply pipe_prefix_caseless.
  assert ((if is_empty protocol then ParsedDataSource_new {{ parallel_connect := parallel }}
           else ParsedDataSource_new {{ parallel_connect := parallel }} {{ protocol_name := protocol }}) =
          ParsedDataSource_new {{ parallel_connect := parallel }} {{ protocol_name := protocol }}) as ->
    by by destruct protocol.
  destruct (starts_with _ _); [done|]. rewrite parse_parameter_spec by done. cbn [protocol_name].
  destruct (split_port _ s) as [[[protocol' port] s']|e|w|] eqn:Ep; cbn [rbind]; try done.
  rewrite parse_instance_spec; [|by eapply split_port_ascii|by destruct port].
  assert (split_instance (Some (protocol_parameter (match port with
    | Some port => ParsedDataSource_new {{ parallel_connect := parallel }} {{ protocol_name := protocol }}
        {{ protocol_name := protocol' }} {{ protocol_parameter := port }} {{ can_use_cache := false }}
    | None => ParsedDataSource_new {{ parallel_connect := parallel }} {{ protocol_name := protocol }}
    end))) s' = split_instance port s') as -> by by destruct port.
  destruct (split_instance port s') as [[instance server]|e|w|]; cbn [rbind]; try done.
  destruct port; [done|]. by rewrite (split_port_none _ _ _ _ Ep).
Qed.

(** C22: On ASCII text the data source parser is the grammar [protocol:server\instance,port]: cutting
    the original at the offsets found in its lowercase copy gives the parts of the grammar, with
    their case kept. *)
Theorem data_source_grammar `{UnicodeCase} windows computer_name datasource parallel :
  ascii datasource ->
  parse windows computer_name datasource parallel = source_spec windows computer_name datasource parallel.
Proof. apply parse_is_spec. Qed.

(** ** Well-formed results *)

(** What a parsed data source promises to those who dial it. *)
Record source_ok (windows : bool) (d : ParsedDataSource) : Prop := {
  so_protocol : one_of [""; "tcp"; "np"; "lpc"; "admin"; "localdb"] (protocol_name d);
  so_platform : windows = false -> one_of [""; "tcp"; "admin"] (protocol_name d);
  so_parallel : parallel_connect d -> one_of ["tcp"; "localdb"] (protocol_name d);
  so_parameter : protocol_parameter d <> [] -> one_of ["tcp"; "np"] (protocol_name d);
  so_port : protocol_parameter d <> [] -> protocol_name d = lit "tcp" -> ds_instance_name d = [];
  so_cache : can_use_cache d -> protocol_parameter d = [] /\ parallel_connect d = false /\
    standard_instance_name d /\ protocol_name d <> lit "admin";
  so_ssrp : needs_ssrp d -> ds_instance_name d <> [] /\ protocol_parameter d = [];
}.

(** What the steps before [parse_server] keep. *)
Definition steps_ok (d : ParsedDataSource) : Prop :=
  one_of [""; "tcp"; "np"; "lpc"; "admin"] (protocol_name d) /\
  (protocol_parameter d <> [] -> protocol_name d = lit "tcp") /\
  (protocol_parameter d <> [] -> ds_instance_name d = []).

Lemma one_of_In ns s : one_of ns s <-> In s (map lit ns).
Proof. unfold one_of. rewrite bool_decide_spec. apply list_elem_of_In. Qed.

(** Which of the names a protocol is, case by case. *)
Ltac by_protocol H :=
  apply one_of_In in H; cbn [map In] in H; repeat destruct H as [H|H]; try done; try rewrite <- H in *.

(** Decides the tests of a protocol that is known. *)
Ltac decide_names H :=
  repeat match type of H with
  | context [one_of ?l (lit ?x)] =>
      let b := eval vm_compute in (one_of l (lit x)) in change (one_of l (lit x)) with b in H
  end; cbn [negb andb orb] in H.

Lemma parse_protocol_ok original normalized d norm orig d' :
  parse_protocol original normalized d = Ok (norm, orig, d') -> d = ParsedDataSource_new {{ parallel_connect := parallel_connect d }} ->
  steps_ok d' /\ ds_instance_name d' = [] /\ protocol_parameter d' = [] /\ can_use_cache d' = true /\
  standard_instance_name d' = true /\ parallel_connect d' = parallel_connect d.
Proof.
  intros Hp Hd. unfold parse_protocol in Hp. rewrite Hd in Hp |- *. clear Hd. unfold upd, ParsedDataSource_new in *. cbn in *.
  destruct (find_char 58 normalized); [|by injection Hp as <- <- <-].
  destruct (str_to _ _); try done. cbn in Hp. case_match eqn:E; [|by injection Hp as <- <- <-].
  destruct (str_from _ normalized); try done. destruct (str_from _ original); try done. cbn in Hp.
  injection Hp as <- <- <-. split_and!; try done. split_and!; try done. cbn.
  apply Is_true_true in E. by by_protocol E.
Qed.

Lemma parse_parameter_ok original normalized d norm orig d' :
  parse_parameter original normalized d = Ok (norm, orig, d') ->
  steps_ok d -> ds_instance_name d = [] -> standard_instance_name d ->
  steps_ok d' /\ ds_instance_name d' = [] /\ standard_instance_name d'.
Proof.
  intros Hp Hd Hi Hs. unfold parse_parameter in Hp. destruct (find_char 44 normalized); [|by injection Hp as <- <- <-].
  destruct (str_from _ original) as [rest|?|?|]; try done. cbn [rbind] in Hp.
  set (d1 := if is_empty (protocol_name d) then d {{ protocol_name := lit "tcp" }} else d) in Hp.
  assert (ds_instance_name d1 = [] /\ standard_instance_name d1) as [Hi1 Hs1].
  { unfold d1. destruct d; unfold upd; cbn in *. by destruct (is_empty protocol_name). }
  clearbody d1. clear Hd Hi Hs. destruct (one_of ["tcp"] (protocol_name d1)) eqn:Et; [|done].
  destruct (match find_char 92 (trim rest) with Some _ => _ | None => _ end); try done.
  destruct (str_to _ normalized); try done. destruct (str_to _ original); try done.
  cbn [negb rbind] in Hp. injection Hp as <- <- <-.
  destruct d1; unfold upd; cbn in *. apply Is_true_true in Et. by_protocol Et. done.
Qed.

Lemma parse_instance_ok original normalized d norm orig d' :
  parse_instance original normalized d = Ok (norm, orig, d') ->
  steps_ok d -> standard_instance_name d -> steps_ok d' /\ standard_instance_name d'.
Proof.
  intros Hp (H1 & H2 & H3) Hs. unfold parse_instance in Hp. destruct (find_char 92 normalized); [|by injection Hp as <- <- <-].
  destruct (str_from _ original) as [rest|?|?|]; try done. cbn [rbind] in Hp.
  destruct (str_to _ normalized), (str_to _ original); try by repeat case_match.
  destruct d; unfold upd in Hp; cbn in *. destruct protocol_parameter as [|p ps]; cbn in Hp.
  - destruct (eq_ignore_ascii_case _ _); [done|]. cbn in Hp. by injection Hp as <- <- <-.
  - by injection Hp as <- <- <-.
Qed.

Section results.
Context `{UnicodeCase}.
Context (windows : bool) (computer_name : option str).

Lemma parse_server_ok original normalized d :
  steps_ok d -> standard_instance_name d ->
  steps_ok (parse_server computer_name original normalized d) /\
  standard_instance_name (parse_server computer_name original normalized d).
Proof. by destruct d. Qed.

Lemma validate_protocol_inv d d' :
  validate_protocol windows computer_name d = Ok d' ->
  d' = d \/ protocol_name d = [] /\ d' = d {{ protocol_name := lit "tcp" }}.
Proof.
  unfold validate_protocol. intros Hv.
  repeat match type of Hv with (if ?b then _ else _) = _ => destruct b; [discriminate|] end.
  destruct (parallel_connect d); [|injection Hv as <-; by left].
  destruct (one_of _ _); [discriminate|]. injection Hv as <-.
  destruct (protocol_name d); [by right|by left].
Qed.

Lemma validate_protocol_names d d' :
  validate_protocol windows computer_name d = Ok d' ->
  one_of [""; "tcp"; "np"; "lpc"; "admin"] (protocol_name d) ->
  (windows = false -> one_of [""; "tcp"; "admin"] (protocol_name d')) /\
  (parallel_connect d' -> protocol_name d' = lit "tcp").
Proof.
  intros Hv Hp. pose proof (validate_protocol_inv d d' Hv) as Hd. unfold validate_protocol in Hv.
  destruct Hd as [->|[E ->]].
  - split; [intros ->|intros Hpar; apply Is_true_true in Hpar; rewrite Hpar in Hv];
      by_protocol Hp; decide_names Hv; try discriminate; try done; repeat case_match; try discriminate.
    all: injection Hv as Hv; apply (f_equal protocol_name) in Hv; by rewrite <- Hp in Hv.
  - by split.
Qed.

Lemma cache_off (b : bool) (d : ParsedDataSource) :
  (if b then d {{ can_use_cache := false }} else d) = d {{ can_use_cache := can_use_cache d && negb b }}.
Proof. destruct d as [p sv o i pp a c st par]. by destruct b, c. Qed.

Lemma build_alias_eq d : exists alias', build_alias d = d {{ alias := alias' }} {{ can_use_cache :=
  can_use_cache d && negb (negb (is_empty (protocol_parameter d))) && negb (one_of ["admin"] (protocol_name d)) &&
  negb (one_of ["lpc"] (protocol_name d) && negb (is_empty (ds_instance_name d))) && negb (parallel_connect d) &&
  negb (negb (standard_instance_name d)) }}.
Proof.
  unfold build_alias. rewrite !cache_off. eexists. destruct d as [p sv o i pp a c st par]. reflexivity.
Qed.

Lemma endpoint_ok d d' :
  validate_protocol windows computer_name d = Ok d' -> steps_ok d -> standard_instance_name d ->
  source_ok windows (build_alias d').
Proof.
  intros Hv (H1 & H2 & H3) Hs. destruct (validate_protocol_names d d' Hv H1) as [Hw Hp].
  assert (steps_ok d' /\ standard_instance_name d') as [(G1 & G2 & G3) Gs].
  { destruct (validate_protocol_inv d d' Hv) as [->|[E ->]]; [done|]. destruct d; cbn in *. subst.
    split; [|done]. split; [done|]. split; [done|]. exact H3. }
  destruct (build_alias_eq d') as [al ->]. clear Hv H1 H2 H3 Hs.
  destruct d' as [p sv o i pp a c st par]. unfold upd. cbn in *. constructor; cbn.
  - by by_protocol G1.
  - done.
  - intros E. by rewrite (Hp E).
  - intros E. by rewrite (G2 E).
  - auto.
  - intros Hc. repeat apply andb_prop_elim in Hc as [Hc ?].
    destruct pp; [|done]. destruct par; [done|]. split_and!; try done.
    intros ->. done.
  - unfold needs_ssrp. cbn. intros Hc. repeat apply andb_prop_elim in Hc as [Hc ?]. by destruct i, pp.
Qed.

Lemma parse_pipe_instance_fields path d d' : parse_pipe_instance path d = Ok d' ->
  protocol_name d' = protocol_name d /\ protocol_parameter d' = protocol_parameter d.
Proof.
  unfold parse_pipe_instance. intros E.
  repeat match type of E with (if ?b then _ else _) = _ => destruct b end; try discriminate;
    repeat match type of E with rbind ?x _ = _ => destruct x; cbn [rbind] in E; try discriminate end;
    injection E as <-; by destruct d.
Qed.

Lemma pipe_ok input d d' : steps_ok d ->
  parse_named_pipe windows computer_name input d = Ok d' -> source_ok windows d'.
Proof.
  intros Hd Hp. unfold parse_named_pipe in Hp. destruct (starts_with _ input); [|done]. cbn [negb] in Hp.
  destruct (str_from 2 input) as [rest|?|?|]; try done. cbn [rbind] in Hp. destruct (find_char 92 rest) as [n|]; [|done].
  destruct (str_to n rest) as [sv|?|?|]; try done. cbn [rbind] in Hp. destruct (is_empty sv); [done|].
  destruct (str_from n rest) as [path|?|?|]; try done. cbn [rbind] in Hp.
  destruct (parse_pipe_instance path _) as [d2|?|?|] eqn:E2; try done. cbn [rbind] in Hp.
  apply parse_pipe_instance_fields in E2 as [Hn Hi].
  change (protocol_name d2 = lit "np") in Hn. change (protocol_parameter d2 = input) in Hi.
  destruct d2 as [p2 sv2 o2 i2 pp2 a2 c2 st2 par2]. unfold upd in Hp. cbn in *. subst.
  destruct (validate_protocol_inv _ _ Hp) as [->|[? _]]; [|done].
  destruct (validate_protocol_names _ _ Hp) as [Hw Hpar]; [done|]. cbn in *.
  constructor; cbn; try done.
  - intros E. by specialize (Hpar E).
  - intros Hc. unfold needs_ssrp in Hc. cbn in Hc. repeat apply andb_prop_elim in Hc as [Hc ?]. by destruct i2, input.
Qed.

Lemma localdb_ok original normalized parallel d :
  windows = true -> parse_localdb original normalized parallel = Ok d -> source_ok windows d.
Proof.
  intros Hw Hp. unfold parse_localdb in Hp.
  destruct (if starts_with _ normalized then _ else _); try done. cbn [rbind] in Hp.
  destruct (str_from _ original) as [rest|?|?|]; try done. cbn [rbind] in Hp.
  destruct (is_empty (trim rest)) eqn:Er; [done|]. injection Hp as <-. constructor; try done. 1: by rewrite Hw.
  unfold needs_ssrp. cbn. intros Hc. split; [|done]. by destruct (trim rest).
Qed.
End results.

(** A data source that is accepted is one the client can dial: its protocol is one the platform
    has, MultiSubnetFailover is on only with TCP, a parameter comes with TCP or a pipe, a TCP port
    leaves no instance to look up, and the instance cache is only used for what it can key. *)
Lemma parsed_source_is_ok `{UnicodeCase} windows computer_name datasource parallel d :
  parse windows computer_name datasource parallel = Ok d -> source_ok windows d.
Proof.
  unfold parse. intros Hp. destruct (is_empty _); [done|].
  destruct (is_localdb_source _).
  { destruct windows eqn:Ew; [|done]. by eapply localdb_ok. }
  unfold parse_endpoint in Hp. destruct (parse_protocol _ _ _) as [[[norm orig] d1]|?|?|] eqn:E1; try done.
  cbn [rbind] in Hp. destruct (parse_protocol_ok _ _ _ _ _ _ E1) as (H1 & H2 & _ & _ & H3 & _); [done|].
  destruct (starts_with _ norm); [by eapply pipe_ok|].
  destruct (parse_parameter _ _ _) as [[[norm2 orig2] d2]|?|?|] eqn:E2; try done. cbn [rbind] in Hp.
  destruct (parse_parameter_ok _ _ _ _ _ _ E2) as (G1 & G2 & G3); try done. { by rewrite H3. }
  destruct (parse_instance _ _ _) as [[[norm3 orig3] d3]|?|?|] eqn:E3; try done. cbn [rbind] in Hp.
  destruct (parse_instance_ok _ _ _ _ _ _ E3) as (K1 & K2); try done.
  destruct (validate_protocol _ _ _) as [d4|?|?|] eqn:E4; try done. cbn [rbind] in Hp. injection Hp as <-.
  eapply endpoint_ok; [exact E4|by apply parse_server_ok..].
Qed.

(** ** Totality *)

Section totality.
Context `{UnicodeCase}.
Context (windows : bool) (computer_name : option str).

Lemma validate_completes d : completes (validate_protocol windows computer_name d).
Proof. unfold validate_protocol. repeat case_match; done. Qed.

Lemma lit_ascii s : forallb (fun c => (0 <=? c) && (c <? 128)) (lit s) = true -> ascii (lit s).
Proof.
  intros Hs. apply Forall_forall. intros c Hc. rewrite forallb_forall in Hs.
  specialize (Hs c Hc). apply andb_true_iff in Hs as [?%Z.leb_le ?%Z.ltb_lt]. done.
Qed.

Lemma parse_pipe_instance_completes path d : completes (parse_pipe_instance path d).
Proof.
  unfold parse_pipe_instance. destruct (one_of _ _); [done|].
  match goal with |- completes (if ?a && ?b && ?c then _ else _) => destruct (a && b && c) eqn:E end.
  - apply andb_true_iff in E as [[E1 E2]%andb_true_iff E3%bool_decide_eq_true]. rewrite str_len_lower in E3.
    destruct (str_slice_inner (lit "\pipe\mssql$") (lit "\sql\query") path) as [m ->]; [..|done].
    1, 2: by apply lit_ascii.
    1: by rewrite E1. 1: by rewrite E2.
    by replace (str_len (lit "\pipe\mssql$\sql\query")) with
      (str_len (lit "\pipe\mssql$") + str_len (lit "\sql\query"))%nat in E3 by done.
  - destruct (starts_with (lit "\pipe\") _) eqn:E1; [|done].
    destruct (str_from_prefix (lit "\pipe\") path) as [r ->]; [by apply lit_ascii|by rewrite E1|done].
Qed.

Lemma parse_named_pipe_completes input d : completes (parse_named_pipe windows computer_name input d).
Proof.
  unfold parse_named_pipe. destruct (starts_with NAMED_PIPE_PREFIX input) eqn:E; [|done]. cbn [negb].
  unfold starts_with in E. destruct (strip_prefix _ input) as [rest|] eqn:Ep; [|done].
  apply strip_prefix_inv in Ep as ->. change 2%nat with (str_len NAMED_PIPE_PREFIX).
  rewrite str_from_app. cbn [rbind]. pose proof (find_char_split 92 rest) as Hf.
  destruct (split_once 92 rest) as [[sv path]|]; [|by destruct Hf as [-> _]].
  destruct Hf as (-> & -> & _). rewrite str_to_app, str_from_app. cbn [rbind].
  destruct (is_empty sv); [done|]. pose proof (parse_pipe_instance_completes (92 :: path)) as Hc.
  match goal with |- completes (rbind (parse_pipe_instance _ ?d') _) => specialize (Hc d'); destruct (parse_pipe_instance _ d') end;
    try done. apply validate_completes.
Qed.

Lemma parse_localdb_completes s parallel : ascii s -> completes (parse_localdb s (to_ascii_lowercase s) parallel).
Proof.
  intros Hs. unfold parse_localdb.
  destruct (starts_with (lit "(localdb)\") _) eqn:E1; [|destruct (starts_with (lit "(localdb)/") _) eqn:E2; [|done]];
    cbn [rbind].
  - destruct (str_from_prefix (lit "(localdb)\") s) as [r ->]; [by apply lit_ascii|by rewrite E1|]. cbn. by case_match.
  - destruct (str_from_prefix (lit "(localdb)/") s) as [r ->]; [by apply lit_ascii|by rewrite E2|]. cbn. by case_match.
Qed.
End totality.

(** No ASCII data source makes the parser panic: it is accepted or refused with an error. *)
Theorem ascii_source_is_decided `{UnicodeCase} windows computer_name datasource parallel :
  ascii datasource -> completes (parse windows computer_name datasource parallel).
Proof.
  intros Ha. rewrite parse_is_spec by done. unfold source_spec. destruct (is_empty _); [done|].
  destruct (is_localdb_source _).
  { destruct windows; [|done]. apply parse_localdb_completes; auto with text. }
  destruct (split_protocol _) as [protocol s]. destruct (starts_with _ s); [apply parse_named_pipe_completes|].
  unfold split_port. repeat match goal with
  | |- completes (rbind (match ?x with _ => _ end) _) => destruct x
  | |- completes (rbind (Err _) _) => done
  | |- completes (rbind (Ok _) _) => cbn [rbind]
  | |- completes (let '(_, _) := ?x in _) => destruct x
  | |- completes (rbind (split_instance _ _) _) => unfold split_instance
  | |- completes (rbind (validate_protocol ?a ?b ?d) _) =>
      pose proof (validate_completes a b d); destruct (validate_protocol a b d); try done
  | |- completes (rbind (if ?b then _ else _) _) => destruct b
  end.
Qed.

(** ** Beyond ASCII *)

(** U+023A, two bytes in UTF-8, and its lowercase U+2C65, which has three. *)
Definition A_STROKE : char := 0x23A.
Definition a_stroke : char := 0x2C65.

(** Beyond ASCII the offsets of the lowercase copy do not fit the original.  With a server name
    that ends in U+023A, whose lowercase is a byte longer, the port loses its first digit and the
    comma becomes part of the name; with a parameter of other than ASCII the parser panics. *)
Theorem lowercase_offsets_misplace `{UnicodeCase} windows :
  to_lowercase (A_STROKE :: lit ",1433") = a_stroke :: lit ",1433" ->
  to_lowercase [A_STROKE; 44; 233] = [a_stroke; 44; 233] ->
  (exists d, parse windows None (A_STROKE :: lit ",1433") false = Ok d /\
     ds_server_name d = [A_STROKE; 44] /\ protocol_parameter d = lit "433") /\
  parse windows None [A_STROKE; 44; 233] false = Panic "byte index is not a char boundary".
Proof.
  intros H1 H2. unfold parse.
  change (trim (A_STROKE :: lit ",1433")) with (A_STROKE :: lit ",1433").
  change (trim [A_STROKE; 44; 233]) with [A_STROKE; 44; 233]. rewrite H1, H2. split.
  - destruct windows; eexists; split_and!; by vm_compute.
  - destruct windows; by vm_compute.
Qed.

(** A lowercase mapping that agrees with Unicode on ASCII and on U+023A. *)
Definition stroke_lower (c : char) : char := if c =? A_STROKE then a_stroke else ascii_lower c.

#[local, program] Instance stroke_case : UnicodeCase := {| to_lowercase s := stroke_lower <$> s |}.
Next Obligation.
  intros s Hs. induction Hs as [|c s Hc _ IH]; [done|]. cbn in *. unfold to_ascii_lowercase in *. cbn. f_equal; [|done].
  unfold stroke_lower. by rewrite (proj2 (Z.eqb_neq _ _)) by (unfold A_STROKE; lia).
Qed.

Lemma lowercase_offsets_misplace_witness :
  (exists d, parse true None (A_STROKE :: lit ",1433") false = Ok d /\
     ds_server_name d = [A_STROKE; 44] /\ protocol_parameter d = lit "433") /\
  parse true None [A_STROKE; 44; 233] false = Panic "byte index is not a char boundary".
Proof. by apply lowercase_offsets_misplace. Defined.

Definition sample_source : str := lit "tcp:DB.example.org,1444".

Lemma sample_source_ascii : ascii sample_source.
Proof. by apply lit_ascii. Qed.

Lemma data_source_grammar_witness :
  parse false None sample_source false = source_spec false None sample_source false /\
  exists d, source_spec false None sample_source false = Ok d /\ ds_server_name d = lit "DB.example.org" /\
    protocol_parameter d = lit "1444".
Proof. split; [apply data_source_grammar, sample_source_ascii|]. eexists. split_and!; by vm_compute. Defined.

Lemma ascii_source_is_decided_witness : completes (parse false None sample_source false).
Proof. apply ascii_source_is_decided, sample_source_ascii. Defined.
