(* ===== verification/ConnectionActions.v ===== *)
(** * Connection strategies (src/mssql-tds/src/connection/connection_actions.rs, and
    [to_connection_actions] of datasource_parser.rs)

    A data source becomes a chain of actions: cache and browser lookups, then transports to try.
    The operating system is an argument: actions of Windows only are built where it is [windows]. *)

From stdpp Require Import strings gmap.
From S2P Require Import Prelude Unicode Text DataSource ClientContext.

Inductive ResultSlot := ResolvedPort | ResolvedPipePath | SlotCachedConnectionInfo.

#[global] Instance ResultSlot_eq : EqDecision ResultSlot.
Proof. solve_decision. Defined.

#[global] Instance ResultSlot_countable : Countable ResultSlot.
Proof.
  refine (inj_countable'
    (fun s => match s with ResolvedPort => 0%nat | ResolvedPipePath => 1%nat | SlotCachedConnectionInfo => 2%nat end)
    (fun n => match n with 0%nat => ResolvedPort | 1%nat => ResolvedPipePath | _ => SlotCachedConnectionInfo end) _).
  by intros [].
Defined.

Inductive ConnectionAction :=
  | CheckCache (cache_key : str)
  | QuerySsrp (server instance : str) (result_slot : ResultSlot)
  | UpdateCache (cache_key : str) (port : Z)
  | ConnectTcp (host : str) (port timeout_ms : Z)
  | ConnectTcpFromSlot (host : str) (port_slot : ResultSlot) (timeout_ms : Z)
  | ConnectNamedPipe (pipe_path : str) (timeout_ms : Z)
  | ConnectNamedPipeFromSlot (path_slot : ResultSlot) (timeout_ms : Z)
  | ConnectSharedMemory (instance_name : str) (timeout_ms : Z)
  | ConnectDac (host : str) (timeout_ms : Z)
  | ResolveLocalDb (instance_name : str) (result_slot : ResultSlot)
  | TrySequence (actions : list ConnectionAction) (fail_fast : bool)
  | TryParallel (actions : list ConnectionAction) (min_successes : nat).

Inductive ActionOutcome :=
  | CacheHit (protocol : ProtocolType) (port : option Z) (pipe_path : option str)
  | CacheMiss
  | SsrpResolved (port : Z)
  | SsrpResolvedPipe (pipe_path : str)
  | LocalDbResolved (pipe_path : str)
  | Connected
  | CacheUpdated
  | NoOp.

Inductive ActionResult :=
  | Success (outcome : ActionOutcome)
  | Continue (reason : string)
  | Failed (error : Error).

(** ** [describe] *)

Definition slot_debug (s : ResultSlot) : str :=
  match s with
  | ResolvedPort => lit "ResolvedPort"
  | ResolvedPipePath => lit "ResolvedPipePath"
  | SlotCachedConnectionInfo => lit "CachedConnectionInfo"
  end.

Definition bool_display (b : bool) : str := if b then lit "true" else lit "false".

Definition describe (a : ConnectionAction) : str :=
  match a with
  | CheckCache key => lit "Check connection cache for '" ++ key ++ lit "'"
  | QuerySsrp server instance _ => lit "Query SQL Browser for '" ++ server ++ lit "\" ++ instance ++ lit "'"
  | UpdateCache key port => lit "Update cache '" ++ key ++ lit "' with port " ++ display port
  | ConnectTcp host port _ => lit "Connect via TCP to " ++ host ++ lit ":" ++ display port
  | ConnectTcpFromSlot host slot _ =>
      lit "Connect via TCP to " ++ host ++ lit " (port from " ++ slot_debug slot ++ lit ")"
  | ConnectNamedPipe path _ => lit "Connect via Named Pipe to " ++ path
  | ConnectNamedPipeFromSlot slot _ => lit "Connect via Named Pipe (path from " ++ slot_debug slot ++ lit ")"
  | ConnectSharedMemory instance _ => lit "Connect via Shared Memory to instance '" ++ instance ++ lit "'"
  | ConnectDac host _ => lit "Connect via DAC to " ++ host
  | ResolveLocalDb instance _ => lit "Resolve LocalDB instance '" ++ instance ++ lit "'"
  | TrySequence actions fail_fast =>
      lit "Try " ++ display (Z.of_nat (length actions)) ++ lit " actions in sequence (fail_fast=" ++
      bool_display fail_fast ++ lit ")"
  | TryParallel actions min_successes =>
      lit "Try " ++ display (Z.of_nat (length actions)) ++ lit " actions in parallel (need " ++
      display (Z.of_nat min_successes) ++ lit " successes)"
  end.

(** ** [ExecutionContext], the results actions leave for later ones *)

Record ActionContext := {
  slots : gmap ResultSlot ActionOutcome;
  attempts : list (str * string);
}.

#[export] Instance ActionContext_eta : Eta ActionContext := fun c => Build_ActionContext (slots c) (attempts c).

Definition ActionContext_new : ActionContext := {| slots := ∅; attempts := [] |}.

Definition store_outcome (outcome : ActionOutcome) (c : ActionContext) : ActionContext :=
  let put slot (c : ActionContext) := c {{ slots ::= <[ slot := outcome ]> }} in
  match outcome with
  | SsrpResolved _ => put ResolvedPort c
  | SsrpResolvedPipe _ | LocalDbResolved _ => put ResolvedPipePath c
  | CacheHit _ port pipe_path =>
      let c := put SlotCachedConnectionInfo c in
      let c := match port with Some _ => put ResolvedPort c | None => c end in
      match pipe_path with Some _ => put ResolvedPipePath c | None => c end
  | _ => c
  end.

Definition get_outcome (slot : ResultSlot) (c : ActionContext) : option ActionOutcome := slots c !! slot.

Definition slot_port (slot : ResultSlot) (c : ActionContext) : option Z :=
  match get_outcome slot c with
  | Some (SsrpResolved port) => Some port
  | Some (CacheHit _ port _) => port
  | _ => None
  end.

Definition slot_pipe_path (slot : ResultSlot) (c : ActionContext) : option str :=
  match get_outcome slot c with
  | Some (SsrpResolvedPipe path) | Some (LocalDbResolved path) => Some path
  | Some (CacheHit _ _ path) => path
  | _ => None
  end.

(** A failed attempt of a sequence, with its description and the reason. *)
Definition record_attempt (action_desc : str) (reason : string) (c : ActionContext) : ActionContext :=
  c {{ attempts ::= fun l => l ++ [(action_desc, reason)] }}.

(** ** Chains *)

Record ConnectionMetadata := {
  source_string : str;
  md_server_name : str;
  md_instance_name : str;
  explicit_protocol : bool;
  md_timeout_ms : Z;
}.

Record ConnectionActionChain := {
  chain_actions : list ConnectionAction;
  chain_metadata : ConnectionMetadata;
}.

#[export] Instance ConnectionActionChain_eta : Eta ConnectionActionChain := fun c =>
  Build_ConnectionActionChain (chain_actions c) (chain_metadata c).

(** The numbered lines of [ConnectionActionChain::describe]. *)
Fixpoint describe_lines (i : Z) (actions : list ConnectionAction) : str :=
  match actions with
  | [] => []
  | a :: actions => display i ++ lit ". " ++ describe a ++ [10] ++ describe_lines (i + 1) actions
  end.

Definition chain_describe (c : ConnectionActionChain) : str :=
  let m := chain_metadata c in
  lit "Connection strategy for '" ++ source_string m ++ lit "'" ++ [10] ++
  lit "Server: " ++ md_server_name m ++ [10] ++
  (if is_empty (md_instance_name m) then [] else lit "Instance: " ++ md_instance_name m ++ [10]) ++
  lit "Explicit protocol: " ++ bool_display (explicit_protocol m) ++ [10; 10] ++
  lit "Action sequence:" ++ [10] ++ describe_lines 1 (chain_actions c).

Definition requires_ssrp (c : ConnectionActionChain) : bool :=
  existsb (fun a => match a with QuerySsrp _ _ _ => true | _ => false end) (chain_actions c).

Definition uses_cache (c : ConnectionActionChain) : bool :=
  existsb (fun a => match a with CheckCache _ => true | _ => false end) (chain_actions c).

(** The first action that [f] accepts, as [find_map] finds it. *)
Fixpoint find_map {A} (f : ConnectionAction -> option A) (actions : list ConnectionAction) : option A :=
  match actions with
  | [] => None
  | a :: actions => match f a with Some x => Some x | None => find_map f actions end
  end.

Definition requires_localdb_resolution (c : ConnectionActionChain) : option str :=
  find_map (fun a => match a with ResolveLocalDb instance _ => Some instance | _ => None end) (chain_actions c).

Definition first_shared_memory_transport (c : ConnectionActionChain) : option TransportContext :=
  find_map (fun a => match a with
                     | ConnectSharedMemory instance _ => Some (SharedMemory instance)
                     | _ => None
                     end) (chain_actions c).

Section platform.
Context (windows : bool).

Definition to_transport_context (a : ConnectionAction) (c : ActionContext) : option TransportContext :=
  match a with
  | ConnectTcp host port _ => Some (Tcp host port None)
  | ConnectTcpFromSlot host slot _ => (fun port => Tcp host port None) <$> slot_port slot c
  | ConnectNamedPipe path _ => Some (NamedPipe path)
  | ConnectNamedPipeFromSlot slot _ => if windows then NamedPipe <$> slot_pipe_path slot c else None
  | ConnectSharedMemory instance _ => Some (SharedMemory instance)
  | ConnectDac host _ => Some (Tcp host 1434 None)
  | _ => None
  end.

(** The transports of one action: those of the actions inside it, or its own. *)
Fixpoint action_transports (c : ActionContext) (a : ConnectionAction) : list (TransportContext * Z) :=
  let own timeout := match to_transport_context a c with Some t => [(t, timeout)] | None => [] end in
  match a with
  | TrySequence actions _ | TryParallel actions _ =>
      (fix go (actions : list ConnectionAction) :=
         match actions with [] => [] | a :: actions => action_transports c a ++ go actions end) actions
  | ConnectTcp _ _ timeout | ConnectTcpFromSlot _ _ timeout | ConnectNamedPipe _ timeout
  | ConnectNamedPipeFromSlot _ timeout | ConnectSharedMemory _ timeout | ConnectDac _ timeout => own timeout
  | CheckCache _ | QuerySsrp _ _ _ | UpdateCache _ _ | ResolveLocalDb _ _ => []
  end.

(** [collect_transport_contexts] appends what each action gives. *)
Definition collect_transport_contexts (actions : list ConnectionAction) (c : ActionContext)
    : list (TransportContext * Z) := actions ≫= action_transports c.

Definition resolve_transport_contexts_with_context (chain : ConnectionActionChain) (c : ActionContext)
    : list (TransportContext * Z) := collect_transport_contexts (chain_actions chain) c.

(** ** The builder; a chain under construction is its actions so far *)

Definition add_protocol_waterfall (server : str) (is_local : bool) (timeout_ms : Z) : ConnectionAction :=
  TrySequence
    ((if windows && is_local then [ConnectSharedMemory [] timeout_ms] else []) ++
     [ConnectTcp server 1433 timeout_ms] ++
     (if windows then
        [ConnectNamedPipe (if is_local then lit "\\.\pipe\sql\query"
                           else lit "\\" ++ server ++ lit "\pipe\sql\query") timeout_ms]
      else [])) false.

(** [trim_end_matches('\\')]. *)
Definition trim_end_backslashes (s : str) : str :=
  rev ((fix go (s : str) := match s with c :: s' => if c =? 92 then go s' else s | [] => [] end) (rev s)).

Definition connection_metadata (d : ParsedDataSource) (timeout_ms : Z) : ConnectionMetadata := {|
  source_string := trim_end_backslashes (original_server_name d ++ [92] ++ ds_instance_name d);
  md_server_name := ds_server_name d;
  md_instance_name := ds_instance_name d;
  explicit_protocol := negb (is_empty (protocol_name d));
  md_timeout_ms := timeout_ms |}.

Section actions.
Context (computer_name : option str) (d : ParsedDataSource) (timeout_ms : Z).

Definition default_port : Z := default 1433 (parse_u16 (protocol_parameter d)).

(** Step 3: the instance is looked up, and the protocol filters what the lookup gives. *)
Definition ssrp_actions : list ConnectionAction :=
  let local_first := windows && is_empty (protocol_name d) && ds_is_local computer_name d in
  let tcp := ConnectTcpFromSlot (ds_server_name d) ResolvedPort timeout_ms in
  let pipe := ConnectNamedPipeFromSlot ResolvedPipePath timeout_ms in
  (if local_first then [ConnectSharedMemory (ds_instance_name d) timeout_ms] else []) ++
  [QuerySsrp (ds_server_name d) (ds_instance_name d) ResolvedPort] ++
  (if can_use_cache d then [UpdateCache (alias d) 0] else []) ++
  (if one_of ["np"] (protocol_name d) then
     if windows then [pipe; ConnectNamedPipe (default_pipe_path computer_name d) timeout_ms] else []
   else if one_of ["tcp"; ""] (protocol_name d) then
     tcp :: (if windows && is_empty (protocol_name d) then [pipe] else [])
   else [tcp]).

(** Step 4: the one transport of an explicit protocol. *)
Definition explicit_actions : list ConnectionAction :=
  match get_protocol_type d windows with
  | PT_Tcp => [ConnectTcp (ds_server_name d) default_port timeout_ms]
  | PT_NamedPipe =>
      [ConnectNamedPipe (if is_empty (protocol_parameter d) then default_pipe_path computer_name d
                         else protocol_parameter d) timeout_ms]
  | PT_SharedMemory =>
      if windows then
        [ConnectSharedMemory (if is_empty (ds_instance_name d) then lit "MSSQLSERVER" else ds_instance_name d) timeout_ms]
      else []
  | PT_Admin => [ConnectDac (ds_server_name d) timeout_ms]
  | PT_Auto => []
  end.

Definition to_connection_actions : ConnectionActionChain :=
  let check := if can_use_cache d then [CheckCache (alias d)] else [] in
  {| chain_metadata := connection_metadata d timeout_ms;
     chain_actions :=
       check ++
       if windows && one_of ["localdb"] (protocol_name d) then
         [ResolveLocalDb (ds_instance_name d) ResolvedPipePath; ConnectNamedPipeFromSlot ResolvedPipePath timeout_ms]
       else if needs_ssrp d then ssrp_actions
       else if negb (is_empty (protocol_name d)) then explicit_actions
       else if parallel_connect d then [ConnectTcp (ds_server_name d) default_port timeout_ms]
       else [add_protocol_waterfall (ds_server_name d) (ds_is_local computer_name d) timeout_ms] |}.
End actions.
End platform.

(** ** Executing actions *)

Record CachedConnectionInfo := {
  cci_protocol : ProtocolType;
  cci_port : option Z;
  cci_pipe_path : option str;
}.

(** What an implementation of the trait [ConnectionExecutor] provides. *)
Class ConnectionExecutor (E : Type) := {
  check_cache : str -> M E (option CachedConnectionInfo);
  query_ssrp : str -> str -> M E Z;
  update_cache : str -> CachedConnectionInfo -> M E unit;
  connect_tcp : str -> Z -> Z -> M E unit;
  connect_named_pipe : str -> Z -> M E unit;
  connect_shared_memory : str -> Z -> M E unit;
  connect_dac : str -> Z -> M E unit;
  resolve_localdb : str -> M E str;
}.

(** [match m { Ok(a) => ok(a), Err(e) => err(e) }]. *)
Definition handle {S A B} (m : M S A) (ok : A -> M S B) (err : Error -> M S B) : M S B := fun s =>
  match m s with
  | (Ok a, s) => ok a s
  | (Err e, s) => err e s
  | (Panic w, s) => (Panic w, s)
  | (OutOfFuel, s) => (OutOfFuel, s)
  end.

Section executor.
Context {E : Type} `{ConnectionExecutor E} (windows : bool).

(** A connection attempt: what it leaves is its success or the reason to go on. *)
Definition attempt_connect (m : M E unit) (reason : string) : M (E * ActionContext) ActionResult :=
  handle (on_fst m) (fun _ => ret (Success Connected)) (fun _ => ret (Continue reason)).

Definition update_context (f : ActionContext -> ActionContext) : M (E * ActionContext) unit := on_snd (modify f).

(** The loop of [TrySequence]; [execute] is [execute_action]. *)
Definition try_sequence (execute : ConnectionAction -> M (E * ActionContext) ActionResult) (fail_fast : bool)
    : list ConnectionAction -> M (E * ActionContext) ActionResult :=
  fix go (actions : list ConnectionAction) :=
    match actions with
    | [] => ret (Continue "All sequence actions failed")
    | action :: actions =>
        r <- execute action ;;
        match r with
        | Success Connected => ret (Success Connected)
        | Continue reason =>
            if fail_fast then ret (Continue reason)
            else update_context (record_attempt (describe action) reason) ;; go actions
        | Failed e => ret (Failed e)
        | Success outcome => update_context (store_outcome outcome) ;; go actions
        end
    end.

Definition try_parallel (execute : ConnectionAction -> M (E * ActionContext) ActionResult) (min_successes : nat)
    : nat -> list ConnectionAction -> M (E * ActionContext) ActionResult :=
  fix go (successes : nat) (actions : list ConnectionAction) :=
    match actions with
    | [] => ret (Continue "Parallel actions failed")
    | action :: actions =>
        r <- execute action ;;
        match r with
        | Success Connected =>
            if (min_successes <=? S successes)%nat then ret (Success Connected) else go (S successes) actions
        | _ => go successes actions
        end
    end.

(** [execute_action_default], where [execute_action] is the default too. *)
Fixpoint execute_action (action : ConnectionAction) : M (E * ActionContext) ActionResult :=
  match action with
  | CheckCache cache_key =>
      cached <- on_fst (check_cache cache_key) ;;
      ret (Success match cached with
                   | Some c => CacheHit (cci_protocol c) (cci_port c) (cci_pipe_path c)
                   | None => CacheMiss
                   end)
  | QuerySsrp server instance _ =>
      handle (on_fst (query_ssrp server instance))
        (fun port => update_context (store_outcome (SsrpResolved port)) ;; ret (Success (SsrpResolved port)))
        (fun _ => ret (Continue "SSRP query failed"))
  | UpdateCache cache_key port =>
      resolved <- gets (fun s => slot_port ResolvedPort (snd s)) ;;
      let actual_port := if port =? 0 then default port resolved else port in
      handle (on_fst (update_cache cache_key
               {| cci_protocol := PT_Tcp; cci_port := Some actual_port; cci_pipe_path := None |}))
        (fun _ => ret (Success CacheUpdated)) (fun _ => ret (Continue "Cache update failed"))
  | ConnectTcp host port timeout => attempt_connect (connect_tcp host port timeout) "TCP connection failed"
  | ConnectTcpFromSlot host slot timeout =>
      port <- gets (fun s => slot_port slot (snd s)) ;;
      match port with
      | None => throw (ProtocolError "No port found in slot")
      | Some port => attempt_connect (connect_tcp host port timeout) "TCP connection failed"
      end
  | ConnectNamedPipe path timeout =>
      attempt_connect (connect_named_pipe path timeout) "Named Pipe connection failed"
  | ConnectNamedPipeFromSlot slot timeout =>
      if windows then
        path <- gets (fun s => slot_pipe_path slot (snd s)) ;;
        match path with
        | None => throw (ProtocolError "No pipe path found in slot")
        | Some path => attempt_connect (connect_named_pipe path timeout) "Named Pipe connection failed"
        end
      else ret (Continue "Named Pipes not supported on this platform")
  | ConnectSharedMemory instance timeout =>
      attempt_connect (connect_shared_memory instance timeout) "Shared Memory connection failed"
  | ConnectDac host timeout => attempt_connect (connect_dac host timeout) "DAC connection failed"
  | ResolveLocalDb instance _ =>
      handle (on_fst (resolve_localdb instance))
        (fun path => update_context (store_outcome (LocalDbResolved path)) ;; ret (Success (LocalDbResolved path)))
        (fun e => ret (Failed e))
  | TrySequence actions fail_fast => try_sequence execute_action fail_fast actions
  | TryParallel actions min_successes => try_parallel execute_action min_successes 0 actions
  end.
End executor.
