(* ===== verification/Ssrp.v ===== *)
(** * The browser protocol (src/mssql-tds/src/ssrp.rs)

    SQL Server Browser tells on which port or pipe a named instance listens.  The network is an
    argument: what the resolver gives, which sockets open, which sends fail, and the datagrams that
    arrive in time, in order. *)

From stdpp Require Import strings.
From S2P Require Import Prelude Unicode NarrowText Text ClientContext HostPolicy.

Definition SSRP_PORT : Z := 1434.
Definition CLNT_UCAST_INST : byte := byte_of 0x04.
Definition SVR_RESP : Z := 0x05.
Definition MAX_SSRP_ADDRESSES : nat := 64.
Definition MIN_RESPONSE_SIZE : nat := 15.
Definition RECV_BUF_SIZE : nat := 1024.

Record SsrpInstanceInfo := {
  si_instance_name : str;
  si_protocol : str;
  si_tcp_port : option Z;
  si_pipe_path : option str;
}.

Record SsrpResponse := {
  sr_server_name : str;
  sr_instance_name : str;
  is_clustered : bool;
  version : str;
  protocols : list SsrpInstanceInfo;
}.

#[export] Instance SsrpResponse_eta : Eta SsrpResponse := fun r =>
  Build_SsrpResponse (sr_server_name r) (sr_instance_name r) (is_clustered r) (version r) (protocols r).

Inductive SsrpLookupError :=
  | SL_Resolve (error : Error)
  | SL_NoAddresses
  | SL_Socket (error : option Error)
  | SL_Send (error : option Error)
  | SL_Receive (error : Error)
  | SL_NoAnswer
  | SL_TimedOut
  | SL_InvalidResponse (error : Error).

(** [SsrpLookupError::code]. *)
Definition lookup_code (e : SsrpLookupError) : string :=
  match e with
  | SL_Resolve _ => "nameResolutionFailed"
  | SL_NoAddresses => "noAddresses"
  | SL_Socket _ => "socketFailed"
  | SL_Send _ => "sendFailed"
  | SL_Receive _ => "receiveFailed"
  | SL_NoAnswer => "noAnswer"
  | SL_TimedOut => "timedOut"
  | SL_InvalidResponse _ => "invalidResponse"
  end.

(** [From<SsrpLookupError> for Error]; the text is that of [Display] without what it interpolates. *)
Definition lookup_error (e : SsrpLookupError) : Error :=
  match e with
  | SL_Resolve _ => ConnectionError "Failed to resolve server for SQL Browser query"
  | SL_NoAddresses => ConnectionError "No addresses resolved for server"
  | SL_Socket _ => ConnectionError "Failed to create any UDP sockets for SQL Browser query"
  | SL_Send _ => ConnectionError "All UDP sends to SQL Server Browser failed. Verify network connectivity to the server."
  | SL_Receive _ => ConnectionError "UDP receive error from SQL Server Browser"
  | SL_NoAnswer => ConnectionError "SQL Server Browser did not respond"
  | SL_TimedOut => ConnectionError "Resolving for the SQL Server Browser lookup did not complete"
  | SL_InvalidResponse error => error
  end.

(** ** Endpoints *)

Definition transport_of (server : str) (info : SsrpInstanceInfo) : option TransportContext :=
  if bool_decide (si_protocol info = lit "tcp") then (fun port => Tcp server port None) <$> si_tcp_port info
  else if bool_decide (si_protocol info = lit "np") then NamedPipe <$> si_pipe_path info
  else None.

Definition build_transport_list (infos : list SsrpInstanceInfo) (server : str) : list TransportContext :=
  omap (transport_of server) infos.

Definition build_instance_request (instance : str) : bytes :=
  CLNT_UCAST_INST :: as_bytes instance ++ [byte_of 0].

(** ** Responses *)

Definition push_protocol (key value instance_name : str) (protocols : list SsrpInstanceInfo)
    : list SsrpInstanceInfo :=
  if bool_decide (key = lit "tcp") then
    match parse_u16 value with
    | Some port =>
        if 0 <? port then
          protocols ++ [{| si_instance_name := instance_name; si_protocol := lit "tcp";
                           si_tcp_port := Some port; si_pipe_path := None |}]
        else protocols
    | None => protocols
    end
  else if bool_decide (key = lit "np") then
    match value with
    | [] => protocols
    | _ => protocols ++ [{| si_instance_name := instance_name; si_protocol := lit "np";
                            si_tcp_port := None; si_pipe_path := Some value |}]
    end
  else protocols.

(** The loop over the tokens, two by two; [past_version] is set once the metadata is behind. *)
Fixpoint payload_loop (tokens : list str) (past_version : bool) (r : SsrpResponse) : SsrpResponse :=
  match tokens with
  | key :: value :: tokens =>
      let protocol := r {{ protocols ::= push_protocol key value (sr_instance_name r) }} in
      match key with
      | [] => r
      | _ =>
          if past_version then payload_loop tokens true protocol
          else if bool_decide (key = lit "ServerName") then
            payload_loop tokens false (r {{ sr_server_name := value }})
          else if bool_decide (key = lit "InstanceName") then
            payload_loop tokens false (r {{ sr_instance_name := value }})
          else if bool_decide (key = lit "IsClustered") then
            payload_loop tokens false (r {{ is_clustered := eq_ignore_ascii_case value (lit "Yes") }})
          else if bool_decide (key = lit "Version") then
            payload_loop tokens true (r {{ version := value }})
          else payload_loop tokens true protocol
      end
  | _ => r
  end.

Definition SsrpResponse_empty : SsrpResponse :=
  {| sr_server_name := []; sr_instance_name := []; is_clustered := false; version := []; protocols := [] |}.

Definition parse_ssrp_payload (payload : str) : TdsResult SsrpResponse :=
  let r := payload_loop (split_char 59 payload) false SsrpResponse_empty in
  match sr_instance_name r, sr_server_name r with
  | [], [] => Err (ProtocolError "SSRP response payload did not contain expected metadata fields")
  | _, _ => Ok r
  end.

(** [trim_end_matches('\0')]. *)
Fixpoint trim_start_nul (s : str) : str :=
  match s with c :: s' => if c =? 0 then trim_start_nul s' else s | [] => [] end.
Definition trim_end_nul (s : str) : str := rev (trim_start_nul (rev s)).

Definition parse_ssrp_response (buf : bytes) : TdsResult SsrpResponse :=
  if (length buf <? MIN_RESPONSE_SIZE)%nat then Err (ProtocolError "SSRP response too short")
  else match buf with
  | marker :: b1 :: b2 :: payload =>
      if negb (byte_val marker =? SVR_RESP) then Err (ProtocolError "Invalid SSRP response marker")
      else if negb (Z.to_nat (of_le [b1; b2]) =? length buf - 3)%nat then
        Err (ProtocolError "SSRP response size mismatch")
      else match from_utf8 payload with
           | None => Err (ProtocolError "SSRP response contains invalid UTF-8")
           | Some s => parse_ssrp_payload (trim_end_nul s)
           end
  | _ => Panic "index out of bounds"
  end.

(** ** The query *)

Definition is_ipv4 (a : SocketAddr) : bool := match ip a with IpV4 _ => true | IpV6 _ _ => false end.

(** Addresses are compared by IP and port, without an IPv6 scope. *)
Definition same_endpoint (a b : SocketAddr) : bool :=
  (sa_port a =? sa_port b) &&
  match ip a, ip b with
  | IpV4 x, IpV4 y => x =? y
  | IpV6 x _, IpV6 y _ => x =? y
  | _, _ => false
  end.

(** What a socket's receive gives: a datagram and its sender, or an error. *)
Inductive Received := Datagram (sender : SocketAddr) (payload : bytes) | ReceiveFailed (error : Error).

(** What happens to a query.  [resolved] is [None] when resolving outlasts its deadline; a family
    is [true] for IPv4; [stalled] says that opening the sockets and sending outlasts the deadline;
    [arrivals] are what the two sockets receive before it. *)
Record BrowserNet := {
  resolved : option (list SocketAddr + Error);
  stalled : bool;
  bind_error : bool -> option Error;
  send_error : SocketAddr -> option Error;
  arrivals : list (bool * Received);
}.

Section query.
Context (net : BrowserNet).

(** One family: whether its socket opened, whether a send got out, and the last errors. *)
Record Asked := { opened : bool; any_sent : bool; last_bind : option Error; last_send : option Error }.

Definition ask_family (v4 : bool) (addrs : list SocketAddr) (a : Asked) : Asked :=
  let mine := filter (fun x => is_ipv4 x = v4) addrs in
  match mine with
  | [] => a
  | _ =>
      match bind_error net v4 with
      | Some e => {| opened := opened a; any_sent := any_sent a; last_bind := Some e; last_send := last_send a |}
      | None =>
          {| opened := true;
             any_sent := any_sent a || existsb (fun x => match send_error net x with None => true | _ => false end) mine;
             last_bind := last_bind a;
             last_send := foldl (fun l x => match send_error net x with Some e => Some e | None => l end) (last_send a) mine |}
      end
  end.

(** The race of the sockets' receive loops: datagrams from elsewhere are dropped. *)
Fixpoint receive_first (listens : bool -> bool) (expected : list SocketAddr) (events : list (bool * Received))
    : bytes + SsrpLookupError :=
  match events with
  | [] => inr SL_NoAnswer
  | (v4, event) :: events =>
      if listens v4 then
        match event with
        | ReceiveFailed e => inr (SL_Receive e)
        | Datagram sender payload =>
            if existsb (same_endpoint sender) expected then inl (take RECV_BUF_SIZE payload)
            else receive_first listens expected events
        end
      else receive_first listens expected events
  end.

Definition send_and_receive_first (addrs : list SocketAddr) : bytes + SsrpLookupError :=
  let none := {| opened := false; any_sent := false; last_bind := None; last_send := None |} in
  let asked := ask_family false addrs (ask_family true addrs none) in
  let listens v4 := existsb (fun x => Bool.eqb (is_ipv4 x) v4) addrs &&
                    match bind_error net v4 with None => true | Some _ => false end in
  if negb (opened asked) then inr (SL_Socket (last_bind asked))
  else if negb (any_sent asked) then inr (SL_Send (last_send asked))
  else receive_first listens addrs (arrivals net).

Definition query_browser : TdsResult (SsrpResponse + SsrpLookupError) :=
  match resolved net with
  | None => Ok (inr SL_TimedOut)
  | Some (inr e) => Ok (inr (SL_Resolve e))
  | Some (inl addrs) =>
      match take MAX_SSRP_ADDRESSES addrs with
      | [] => Ok (inr SL_NoAddresses)
      | addrs =>
          match if stalled net then inr SL_NoAnswer else send_and_receive_first addrs with
          | inr e => Ok (inr e)
          | inl raw =>
              match parse_ssrp_response raw with
              | Ok r => Ok (inl r)
              | Err e => Ok (inr (SL_InvalidResponse e))
              | Panic w => Panic w
              | OutOfFuel => OutOfFuel
              end
          end
      end
  end.

Definition query_instance : TdsResult (list SsrpInstanceInfo + SsrpLookupError) :=
  let? r := query_browser in
  Ok match r with inl r => inl (protocols r) | inr e => inr e end.
End query.
