(* ===== verification/SsrpLaws.v ===== *)
(** * What a browser lookup gives

    Responses laid out as the browser sends them are read back, any datagram is read to a result or
    an error, and only the addresses that were asked can answer. *)

From stdpp Require Import strings.
From S2P Require Import Prelude Unicode NarrowText Text ClientContext HostPolicy Ssrp.

#[local] Arguments lit : simpl never.

(** ** UTF-8 *)

Lemma utf8_candidate_encoded c rest : is_scalar c = true ->
  utf8_candidate (encode_utf8 c ++ rest) = Some (c, length (encode_utf8 c)).
Proof.
  intros Hc. assert (0 <= c < 0x110000) as Hr by (unfold is_scalar in Hc; lia). clear Hc.
  unfold utf8_candidate, encode_utf8.
  assert (c / 0x1000 = c / 0x40 / 0x40) as -> by by rewrite Z.div_div.
  assert (c / 0x40000 = c / 0x40 / 0x40 / 0x40) as -> by by rewrite !Z.div_div.
  pose proof (Z.div_mod c 0x40 ltac:(lia)). pose proof (Z.mod_pos_bound c 0x40 ltac:(lia)).
  pose proof (Z.div_mod (c / 0x40) 0x40 ltac:(lia)). pose proof (Z.mod_pos_bound (c / 0x40) 0x40 ltac:(lia)).
  pose proof (Z.div_mod (c / 0x40 / 0x40) 0x40 ltac:(lia)).
  pose proof (Z.mod_pos_bound (c / 0x40 / 0x40) 0x40 ltac:(lia)).
  destruct (Z.ltb_spec c 0x80); [|destruct (Z.ltb_spec c 0x800); [|destruct (Z.ltb_spec c 0x10000)]];
    cbn [fmap list_fmap app length]; rewrite !byte_val_of by lia.
  - by rewrite (proj2 (Z.ltb_lt _ _)) by lia.
  - rewrite (proj2 (Z.ltb_ge _ 0x80)), (proj2 (Z.ltb_lt _ 0xE0)) by lia. do 2 f_equal. lia.
  - rewrite (proj2 (Z.ltb_ge _ 0x80)), (proj2 (Z.ltb_ge _ 0xE0)), (proj2 (Z.ltb_lt _ 0xF0)) by lia. do 2 f_equal. lia.
  - rewrite (proj2 (Z.ltb_ge _ 0x80)), (proj2 (Z.ltb_ge _ 0xE0)), (proj2 (Z.ltb_ge _ 0xF0)) by lia. do 2 f_equal. lia.
Qed.

Lemma length_encode_utf8 c : (1 <= length (encode_utf8 c))%nat.
Proof. unfold encode_utf8. repeat case_match; cbn; lia. Qed.

Lemma from_utf8_loop_as_bytes s fuel : str_wf s -> (length (as_bytes s) <= fuel)%nat ->
  from_utf8_loop fuel (as_bytes s) = Some s.
Proof.
  intros Hs. revert fuel. induction Hs as [|c s Hc _ IH]; intros fuel Hf; [by destruct fuel|].
  unfold as_bytes in *. cbn [fmap list_fmap concat] in *. fold (concat (encode_utf8 <$> s)) in *.
  rewrite length_app in Hf. pose proof (length_encode_utf8 c). destruct fuel as [|fuel]; [lia|].
  destruct (encode_utf8 c ++ concat (encode_utf8 <$> s)) as [|b bs] eqn:E.
  { apply (f_equal length) in E. rewrite length_app in E. cbn in E. lia. }
  cbn [from_utf8_loop]. rewrite <- E, utf8_candidate_encoded by done.
  rewrite take_app_length, drop_app_length, Hc, bool_decide_eq_true_2 by done. cbn [andb].
  by rewrite IH by lia.
Qed.

Lemma from_utf8_as_bytes s : str_wf s -> from_utf8 (as_bytes s) = Some s.
Proof. intros. by apply from_utf8_loop_as_bytes. Qed.

(** ** The layout of a response *)

Definition join (ts : list str) : str :=
  match ts with [] => [] | t :: ts => t ++ (ts ≫= fun t => 59 :: t) end.

Definition protocol_tokens (info : SsrpInstanceInfo) : list str :=
  match si_tcp_port info, si_pipe_path info with
  | Some port, _ => [lit "tcp"; display port]
  | None, Some path => [lit "np"; path]
  | None, None => []
  end.

Definition response_tokens (r : SsrpResponse) : list str :=
  [lit "ServerName"; sr_server_name r; lit "InstanceName"; sr_instance_name r;
   lit "IsClustered"; if is_clustered r then lit "Yes" else lit "No"; lit "Version"; version r] ++
  (protocols r ≫= protocol_tokens) ++ [[]; []].

(** [ServerName;..;InstanceName;..;IsClustered;..;Version;..;tcp;..;np;..;;], and any padding. *)
Definition response_bytes (r : SsrpResponse) (padding : nat) : bytes :=
  let text := as_bytes (join (response_tokens r)) ++ replicate padding (byte_of 0) in
  byte_of SVR_RESP :: le_bytes 2 (Z.of_nat (length text)) ++ text.

(** Text that can stand between two semicolons. *)
Definition token_ok (s : str) : Prop := str_wf s /\ Forall (fun c => c <> 59) s.

Definition info_ok (instance : str) (info : SsrpInstanceInfo) : Prop :=
  (exists port, 0 < port < 65536 /\ info = {| si_instance_name := instance; si_protocol := lit "tcp";
     si_tcp_port := Some port; si_pipe_path := None |}) \/
  (exists path, path <> [] /\ token_ok path /\ info = {| si_instance_name := instance; si_protocol := lit "np";
     si_tcp_port := None; si_pipe_path := Some path |}).

Definition response_ok (r : SsrpResponse) : Prop :=
  token_ok (sr_server_name r) /\ token_ok (sr_instance_name r) /\ token_ok (version r) /\
  (sr_server_name r <> [] \/ sr_instance_name r <> []) /\ Forall (info_ok (sr_instance_name r)) (protocols r).

Lemma split_join ts : ts <> [] -> Forall (fun t => Forall (fun c => c <> 59) t) ts -> split_char 59 (join ts) = ts.
Proof.
  intros Hne Hts. destruct ts as [|t ts]; [done|]. clear Hne. apply list.Forall_cons in Hts as [Ht Hts]. cbn [join].
  revert t Ht. induction Hts as [|u ts Hu _ IH]; intros t Ht; cbn.
  - rewrite app_nil_r. by apply split_char_none.
  - rewrite split_char_app by done. f_equal. by apply IH.
Qed.

Lemma payload_step key value ts r : key <> [] ->
  payload_loop (key :: value :: ts) true r =
  payload_loop ts true (r {{ protocols ::= push_protocol key value (sr_instance_name r) }}).
Proof. by destruct key. Qed.

Lemma payload_loop_protocols infos r :
  Forall (info_ok (sr_instance_name r)) infos ->
  payload_loop ((infos ≫= protocol_tokens) ++ [[]; []]) true r = r {{ protocols ::= fun ps => ps ++ infos }}.
Proof.
  intros Hi. revert r Hi. induction infos as [|i infos IH]; intros r Hi.
  - destruct r; unfold upd; cbn. by rewrite app_nil_r.
  - apply list.Forall_cons in Hi as [Hi Hr]. rewrite bind_cons, <- app_assoc.
    destruct Hi as [(port & Hp & ->)|(path & Hne & _ & ->)].
    + cbn [protocol_tokens app si_tcp_port]. rewrite payload_step by done.
      rewrite IH by (by destruct r). destruct r as [sn inst cl v ps]. unfold upd, push_protocol; cbn [protocols sr_instance_name].
      rewrite bool_decide_eq_true_2 by done. unfold parse_u16. rewrite parse_display by lia.
      rewrite (proj2 (Z.ltb_lt _ _)) by lia. by rewrite <- app_assoc.
    + cbn [protocol_tokens app si_tcp_port si_pipe_path]. rewrite payload_step by done.
      rewrite IH by (by destruct r). destruct r as [sn inst cl v ps]. unfold upd, push_protocol; cbn [protocols sr_instance_name].
      rewrite bool_decide_eq_false_2, bool_decide_eq_true_2 by done.
      destruct path; [done|]. by rewrite <- app_assoc.
Qed.

Lemma payload_loop_tokens r : Forall (info_ok (sr_instance_name r)) (protocols r) ->
  payload_loop (response_tokens r) false SsrpResponse_empty = r.
Proof.
  intros Hi. unfold response_tokens.
  set (head := {| sr_server_name := sr_server_name r; sr_instance_name := sr_instance_name r;
                  is_clustered := is_clustered r; version := version r; protocols := [] |}).
  assert (forall ts, payload_loop ([lit "ServerName"; sr_server_name r; lit "InstanceName"; sr_instance_name r;
     lit "IsClustered"; if is_clustered r then lit "Yes" else lit "No"; lit "Version"; version r] ++ ts) false
     SsrpResponse_empty = payload_loop ts true head) as ->.
  { intros ts. unfold head. by destruct (is_clustered r). }
  rewrite payload_loop_protocols by done. unfold head. by destruct r.
Qed.

(** ** Reading a response back *)

Lemma as_bytes_app s t : as_bytes (s ++ t) = as_bytes s ++ as_bytes t.
Proof. unfold as_bytes. by rewrite fmap_app, concat_app. Qed.

Lemma as_bytes_long s : (length s <= length (as_bytes s))%nat.
Proof.
  induction s as [|c s IH]; [done|]. change (c :: s) with ([c] ++ s). rewrite as_bytes_app, !length_app.
  unfold as_bytes at 1. cbn [fmap list_fmap concat length]. rewrite app_nil_r.
  pose proof (length_encode_utf8 c). lia.
Qed.

Lemma as_bytes_nuls n : as_bytes (replicate n 0) = replicate n (byte_of 0).
Proof. induction n as [|n IH]; [done|]. change (replicate (S n) 0) with ([0] ++ replicate n 0). by rewrite as_bytes_app, IH. Qed.

Lemma trim_start_nul_app n s : trim_start_nul (replicate n 0 ++ s) = trim_start_nul s.
Proof. by induction n. Qed.

Lemma trim_end_nul_app s n : trim_end_nul (s ++ [59] ++ replicate n 0) = s ++ [59].
Proof.
  unfold trim_end_nul. rewrite !rev_app_distr, <- app_assoc.
  assert (rev (replicate n 0) = replicate n 0) as ->.
  { induction n as [|n IH]; [done|]. cbn [replicate rev]. by rewrite IH, <- replicate_S_end. }
  rewrite trim_start_nul_app. cbn. by rewrite rev_involutive.
Qed.

Lemma join_snoc ts : ts <> [] -> join (ts ++ [[]]) = join ts ++ [59].
Proof. destruct ts as [|t ts]; [done|]. intros _. cbn. by rewrite bind_app, app_assoc. Qed.

Definition digit_ok (c : char) : Prop := is_scalar c = true /\ c <> 59.

Lemma token_ok_forall s : token_ok s <-> Forall digit_ok s.
Proof. unfold token_ok, digit_ok, str_wf. symmetry. apply list.Forall_and. Qed.

Lemma display_token_ok n : 0 <= n -> token_ok (display n).
Proof.
  intros Hn. destruct (display_spec n Hn) as (_ & Hd & _). apply token_ok_forall.
  eapply list.Forall_impl; [exact Hd|]. intros c Hc. unfold digit_ok, is_scalar, is_ascii_digit in *.
  apply andb_prop_elim in Hc as [H1%Is_true_true%Z.leb_le H2%Is_true_true%Z.leb_le]. split; [|lia].
  apply orb_true_iff. left. apply andb_true_iff. split; [apply Z.leb_le|apply Z.ltb_lt]; lia.
Qed.

Lemma lit_token_ok s : forallb (fun c => is_scalar c && negb (c =? 59)) (lit s) = true -> token_ok (lit s).
Proof.
  intros Hs. apply token_ok_forall, Forall_forall. intros c Hc. rewrite forallb_forall in Hs.
  specialize (Hs c Hc). apply andb_true_iff in Hs as [H1 H2%negb_true_iff%Z.eqb_neq]. done.
Qed.

Lemma response_tokens_ok r : response_ok r -> Forall token_ok (response_tokens r).
Proof.
  intros (H1 & H2 & H3 & _ & Hi). unfold response_tokens. apply Forall_app. split.
  - repeat (apply list.Forall_cons; split); try done; try by apply lit_token_ok.
    destruct (is_clustered r); by apply lit_token_ok.
  - apply Forall_app. split; [|repeat constructor].
    induction Hi as [|i infos Hi _ IH]; [constructor|]. rewrite bind_cons. apply Forall_app. split; [|exact IH].
    destruct Hi as [(port & Hp & ->)|(path & _ & Ht & ->)]; cbn; repeat (apply list.Forall_cons; split); try done;
      try by apply lit_token_ok. apply display_token_ok. lia.
Qed.

Lemma join_wf ts : Forall token_ok ts -> str_wf (join ts).
Proof.
  destruct ts as [|t ts]; [constructor|]. intros [[Ht _] Hts]%list.Forall_cons. cbn. apply Forall_app. split; [done|].
  induction Hts as [|u ts [Hu _] _ IH]; [constructor|]. rewrite bind_cons. apply Forall_app. split; [|exact IH].
  by constructor.
Qed.

Lemma response_text_shape r : exists front, join (response_tokens r) = front ++ [59] /\ (12 <= length front)%nat.
Proof.
  unfold response_tokens. set (meta := [_; _; _; _; _; _; _; _]). set (ps := protocols r ≫= protocol_tokens).
  exists (join (meta ++ ps ++ [[]])). split.
  - replace (meta ++ ps ++ [[]; []]) with ((meta ++ ps ++ [[]]) ++ [[]]) by (by rewrite <- !app_assoc).
    by rewrite join_snoc by done.
  - unfold meta. cbn [app join]. rewrite !bind_cons, !length_app. change (length (lit "ServerName")) with 10%nat.
    cbn [length]. change (length (lit "InstanceName")) with 12%nat. lia.
Qed.

(** C25: A browser's answer is read back: server, instance, cluster flag, version and every TCP port
    and pipe, in the order listed, whatever padding follows the text. *)
Theorem ssrp_response_reads_back (r : SsrpResponse) (padding : nat) :
  response_ok r -> Z.of_nat (length (as_bytes (join (response_tokens r))) + padding) < 2 ^ 16 ->
  parse_ssrp_response (response_bytes r padding) = Ok r.
Proof.
  intros Hr Hlen. destruct (response_text_shape r) as (front & Ef & Hf).
  pose proof (response_tokens_ok r Hr) as Hts. pose proof (join_wf _ Hts) as Hwf.
  assert (split_char 59 (join (response_tokens r)) = response_tokens r) as Hsplit.
  { apply split_join; [done|]. eapply list.Forall_impl; [exact Hts|]. by intros t [_ ?]. }
  unfold response_bytes. rewrite <- as_bytes_nuls, <- as_bytes_app.
  set (text := join (response_tokens r) ++ replicate padding 0) in *.
  assert (length (as_bytes text) = length (as_bytes (join (response_tokens r))) + padding)%nat as El.
  { unfold text. by rewrite as_bytes_app, length_app, as_bytes_nuls, length_replicate. }
  assert (13 <= length (as_bytes text))%nat as Hlong.
  { assert (13 <= length (join (response_tokens r)))%nat by (rewrite Ef, length_app; cbn; lia).
    rewrite El. pose proof (as_bytes_long (join (response_tokens r))). lia. }
  destruct (le_bytes 2 (Z.of_nat (length (as_bytes text)))) as [|b1 [|b2 [|]]] eqn:Eb;
    try (apply (f_equal length) in Eb; rewrite length_le_bytes in Eb; done).
  unfold parse_ssrp_response. cbn [app length].
  rewrite (proj2 (Nat.ltb_ge _ _)) by (unfold MIN_RESPONSE_SIZE; lia).
  rewrite <- Eb, of_le_le_bytes, Z.mod_small by (change (8 * Z.of_nat 2) with 16; lia).
  replace (S (S (S (length (as_bytes text)))) - 3)%nat with (length (as_bytes text)) by lia.
  rewrite Nat2Z.id, Nat.eqb_refl. cbn [negb].
  rewrite from_utf8_as_bytes by (unfold text; apply Forall_app; split; [done|by apply Forall_replicate]).
  unfold text. rewrite Ef, <- app_assoc, trim_end_nul_app, <- Ef.
  unfold parse_ssrp_payload. rewrite Hsplit, payload_loop_tokens by apply Hr.
  destruct Hr as (_ & _ & _ & [?|?] & _); destruct (sr_instance_name r), (sr_server_name r); done.
Qed.

Definition sample_response : SsrpResponse := {|
  sr_server_name := lit "DB1"; sr_instance_name := lit "SALES"; is_clustered := false; version := lit "16.0";
  protocols := [
    {| si_instance_name := lit "SALES"; si_protocol := lit "tcp"; si_tcp_port := Some 50123; si_pipe_path := None |};
    {| si_instance_name := lit "SALES"; si_protocol := lit "np"; si_tcp_port := None;
       si_pipe_path := Some (lit "\\DB1\pipe\MSSQL$SALES\sql\query") |}] |}.

Lemma sample_response_ok : response_ok sample_response.
Proof.
  split_and!; [by apply lit_token_ok..|by left|]. repeat (apply list.Forall_cons; split); [| |constructor].
  - left. by exists 50123.
  - right. exists (lit "\\DB1\pipe\MSSQL$SALES\sql\query"). split_and!; [done|by apply lit_token_ok|done].
Qed.

Lemma ssrp_response_reads_back_witness :
  parse_ssrp_response (response_bytes sample_response 1) = Ok sample_response.
Proof. apply ssrp_response_reads_back; [apply sample_response_ok|by vm_compute]. Defined.

(** ** Any datagram *)

Lemma parse_ssrp_response_completes buf : completes (parse_ssrp_response buf).
Proof.
  unfold parse_ssrp_response. destruct (Nat.ltb_spec (length buf) MIN_RESPONSE_SIZE) as [|Hl]; [done|].
  destruct buf as [|m [|b1 [|b2 payload]]]; try (exfalso; revert Hl; unfold MIN_RESPONSE_SIZE; cbn; lia).
  repeat case_match; try done. unfold parse_ssrp_payload. by repeat case_match.
Qed.

(** A port an instance is reached on. *)
Definition port_ok (info : SsrpInstanceInfo) : Prop :=
  match si_tcp_port info with Some p => 0 < p < 65536 | None => True end.

Lemma parse_digits_range max a s n : 0 <= a <= max -> parse_digits max a s = Some n -> 0 <= n <= max.
Proof.
  revert a. induction s as [|c s IH]; intros a Ha; cbn; [by intros [= <-]|].
  destruct (is_ascii_digit c) eqn:Ec; [|done]. destruct (Z.leb_spec (a * 10 + (c - 48)) max); [|done].
  apply IH. unfold is_ascii_digit in Ec. apply andb_true_iff in Ec as [?%Z.leb_le ?%Z.leb_le]. lia.
Qed.

Lemma parse_u16_range s n : parse_u16 s = Some n -> 0 <= n < 65536.
Proof.
  unfold parse_u16, parse_unsigned. intros H.
  assert (exists t, parse_digits 0xFFFF 0 t = Some n) as [t Ht].
  { repeat match type of H with context [match ?x with _ => _ end] => destruct x end; try done; by eexists. }
  apply parse_digits_range in Ht; lia.
Qed.

Lemma push_protocol_ports key value name ps :
  Forall port_ok ps -> Forall port_ok (push_protocol key value name ps).
Proof.
  intros Hp. unfold push_protocol. case_bool_decide.
  - destruct (parse_u16 value) as [port|] eqn:E; [|done]. destruct (Z.ltb_spec 0 port); [|done].
    apply parse_u16_range in E. apply Forall_app. split; [done|]. constructor; [unfold port_ok; cbn; lia|constructor].
  - case_bool_decide; [|done]. destruct value; [done|]. apply Forall_app. split; [done|]. by repeat constructor.
Qed.

Lemma payload_loop_ports tokens past r :
  Forall port_ok (protocols r) -> Forall port_ok (protocols (payload_loop tokens past r)).
Proof.
  revert past r. induction tokens as [tokens IH] using (induction_ltof1 _ (@length _)). unfold ltof in IH.
  intros past r Hr. destruct tokens as [|key [|value tokens]]; [done..|]. cbn [payload_loop].
  destruct key as [|c key]; [done|].
  repeat match goal with |- context [if ?b then _ else _] => destruct b end; apply IH; try (cbn; lia);
    destruct r; unfold upd; cbn; try done; by apply push_protocol_ports.
Qed.

Lemma parse_ssrp_payload_ports s r : parse_ssrp_payload s = Ok r -> Forall port_ok (protocols r).
Proof.
  unfold parse_ssrp_payload. intros H. pose proof (payload_loop_ports (split_char 59 s) false SsrpResponse_empty) as Hp.
  set (x := payload_loop _ _ _) in *. clearbody x.
  destruct (sr_instance_name x), (sr_server_name x); try done; injection H as <-; by apply Hp.
Qed.

Lemma parse_ssrp_response_ports buf r : parse_ssrp_response buf = Ok r -> Forall port_ok (protocols r).
Proof.
  unfold parse_ssrp_response. destruct (_ <? _)%nat; [done|]. destruct buf as [|m [|b1 [|b2 payload]]]; try done.
  destruct (negb _); [done|]. destruct (negb _); [done|]. destruct (from_utf8 payload); [|done].
  apply parse_ssrp_payload_ports.
Qed.

(** ** Who may answer *)

(** A datagram from an address that was not asked. *)
Definition spoofed (asked : list SocketAddr) (event : bool * Received) : bool :=
  match snd event with Datagram sender _ => negb (existsb (same_endpoint sender) asked) | ReceiveFailed _ => false end.

Definition without_spoofed (asked : list SocketAddr) (net : BrowserNet) : BrowserNet :=
  {| resolved := resolved net; stalled := stalled net; bind_error := bind_error net; send_error := send_error net;
     arrivals := List.filter (fun e => negb (spoofed asked e)) (arrivals net) |}.

Lemma receive_first_filter listens asked events :
  receive_first listens asked (List.filter (fun e => negb (spoofed asked e)) events) =
  receive_first listens asked events.
Proof.
  induction events as [|[v4 event] events IH]; [done|]. cbn [List.filter receive_first].
  destruct (spoofed asked (v4, event)) eqn:Es; cbn [negb].
  - rewrite IH. destruct (listens v4); [|done]. destruct event as [sender payload|e]; [|done].
    unfold spoofed in Es. cbn in Es. by destruct (existsb _ asked).
  - cbn [receive_first]. by rewrite IH.
Qed.

Lemma receive_first_sender listens asked events raw :
  receive_first listens asked events = inl raw ->
  exists v4 sender payload, In (v4, Datagram sender payload) events /\
    existsb (same_endpoint sender) asked = true /\ raw = take RECV_BUF_SIZE payload.
Proof.
  induction events as [|[v4 event] events IH]; [done|]. cbn [receive_first]. intros H.
  assert (receive_first listens asked events = inl raw -> exists v4' sender payload,
    In (v4', Datagram sender payload) ((v4, event) :: events) /\ existsb (same_endpoint sender) asked = true /\
    raw = take RECV_BUF_SIZE payload) as Hrec.
  { intros (v & sender & payload & ? & ?)%IH. exists v, sender, payload. split; [by right|done]. }
  destruct (listens v4); [|auto]. destruct event as [sender payload|e]; [|done].
  destruct (existsb (same_endpoint sender) asked) eqn:Ee; [|auto]. injection H as <-.
  exists v4, sender, payload. split; [by left|done].
Qed.

(** C26: Only a browser that was asked can say where an instance listens: an answer came from one of
    the first sixty-four addresses of the server, on the browser's own port; datagrams from anywhere
    else change nothing; and whatever the answer is, the lookup ends, with ports in range. *)
Theorem only_the_asked_answer (net : BrowserNet) (addrs : list SocketAddr) :
  resolved net = Some (inl addrs) ->
  let asked := take MAX_SSRP_ADDRESSES addrs in
  query_instance (without_spoofed asked net) = query_instance net /\
  completes (query_instance net) /\
  forall infos, query_instance net = Ok (inl infos) ->
    Forall port_ok infos /\
    exists v4 sender payload, In (v4, Datagram sender payload) (arrivals net) /\
      existsb (same_endpoint sender) asked = true.
Proof.
  intros Hres asked. unfold query_instance, query_browser. cbn [resolved stalled without_spoofed]. rewrite Hres.
  fold asked. destruct asked as [|a0 asked'] eqn:Ea; [done|]. set (as_ := a0 :: asked') in *.
  assert (send_and_receive_first (without_spoofed as_ net) as_ = send_and_receive_first net as_) as Hsame.
  { unfold send_and_receive_first. cbn [without_spoofed arrivals]. rewrite receive_first_filter. done. }
  rewrite Hsame. split; [done|]. destruct (if stalled net then _ else _) as [raw|e] eqn:Er; [|done].
  pose proof (parse_ssrp_response_completes raw) as Hc.
  destruct (parse_ssrp_response raw) as [r|e|w|] eqn:Ep; try done. split; [done|]. intros infos [= <-]. split.
  - by eapply parse_ssrp_response_ports.
  - destruct (stalled net); [done|]. unfold send_and_receive_first in Er.
    destruct (negb (opened _)); [done|]. destruct (negb (any_sent _)); [done|].
    apply receive_first_sender in Er as (v4 & sender & payload & ? & ? & _). by exists v4, sender, payload.
Qed.

Definition sample_address : SocketAddr := {| ip := IpV4 0x0A000001; sa_port := 1434 |}.
Definition sample_spoofer : SocketAddr := {| ip := IpV4 0x0A000002; sa_port := 1434 |}.
Definition sample_browser : BrowserNet := {|
  resolved := Some (inl [sample_address]); stalled := false; bind_error := fun _ => None;
  send_error := fun _ => None;
  arrivals := [(true, Datagram sample_spoofer []);
               (true, Datagram sample_address (response_bytes sample_response 0))] |}.

Lemma only_the_asked_answer_witness :
  query_instance (without_spoofed (take MAX_SSRP_ADDRESSES [sample_address]) sample_browser) =
    query_instance sample_browser /\
  query_instance sample_browser = Ok (inl (protocols sample_response)).
Proof. split; [exact (proj1 (only_the_asked_answer sample_browser [sample_address] eq_refl))|by vm_compute]. Defined.
