(* ===== verification/Provider.v ===== *)
(** * Opening a connection (src/mssql-tds/src/connection_provider/tds_connection_provider.rs,
    connection/instance_cache.rs, [localize_pipe_path] of transport/named_pipes.rs)

    The provider turns a data source into transports, asks the browser or the instance cache where
    an instance listens, and tries the transports within a deadline, following routes and retrying
    what may pass.  What a connection attempt does is behind the class [Dialer]. *)

From stdpp Require Import strings gmap.
From S2P Require Import Prelude Core Unicode Text DataSource HostPolicy ClientContext ConnectionActions Ssrp.

Definition MAX_REDIRECTS : Z := 10.

(** [is_transient_connect_error] of error/mod.rs. *)
Definition TRANSIENT_SQL_ERROR_NUMBERS : list Z :=
  [233; 4060; 4221; 10928; 10929; 40143; 40197; 40501; 40540; 40613; 42108; 42109; 49918; 49919; 49920].

Definition is_transient_connect_error (e : Error) : bool :=
  match e with
  | Io _ _ | ConnectionError _ | TimeoutError _ | ConnectionClosed _ => true
  | SqlServerError numbers => existsb (fun n => bool_decide (n ∈ TRANSIENT_SQL_ERROR_NUMBERS)) numbers
  | _ => false
  end.

(** ** The instance cache *)

Record CachedResolution := { cr_port : option Z; cr_pipe_path : option str }.

Abbreviation InstanceCache := (gmap (list Z) CachedResolution) (only parsing).

Definition cache_key `{UnicodeCase} (server instance : str) : str := to_lowercase server ++ [92] ++ to_lowercase instance.

Definition cache_get `{UnicodeCase} (server instance : str) (cache : InstanceCache) : option CachedResolution :=
  cache !! cache_key server instance.

Definition cache_insert `{UnicodeCase} (server instance : str) (port : option Z) (pipe_path : option str)
    (cache : InstanceCache) : InstanceCache :=
  <[cache_key server instance := {| cr_port := port; cr_pipe_path := pipe_path |}]> cache.

(** ** Pipes of this machine *)

Definition localize_pipe_path (hostname : option str) (pipe : str) : TdsResult str :=
  if negb (starts_with (lit "\\") pipe) then Ok pipe
  else
    let? after_prefix := str_from 2 pipe in
    match find_char 92 after_prefix with
    | None => Ok pipe
    | Some sep =>
        let? server_part := str_to sep after_prefix in
        if bool_decide (server_part = lit ".") then Ok pipe
        else if eq_ignore_ascii_case server_part (lit "localhost") || one_of ["127.0.0.1"; "::1"] server_part ||
                match hostname with Some name => eq_ignore_ascii_case server_part name | None => false end
        then let? rest := str_from sep after_prefix in Ok (lit "\\." ++ rest)
        else Ok pipe
    end.

(** ** What surrounds the provider *)

(** [P] is what a logged-in connection consists of.  [timeout d m] runs [m] and gives [None] when it
    outlasts [d] milliseconds.  The caller's cancellation and the state of a diagnosis ([Diagnosis])
    are the world's: an attempt that a diagnosis stops notes it there. *)
Class Dialer (W P : Type) := {
  clock : W -> Instant;
  sleep : Z -> W -> W;
  timeout : Z -> M W P -> M W (option P);
  connect_with_transport_context : ClientContext -> TransportContext -> M W P;
  lookup_instance : str -> str -> Z -> bool -> M W (list SsrpInstanceInfo + SsrpLookupError);
  resolve_localdb_instance : str -> M W str;
  cancel_requested : W -> bool;
  diagnosis_stopped : W -> bool;
  finish_extra_connects : Z -> W -> W;
}.

Section provider.
Context {W P : Type} `{Dialer W P} `{UnicodeCase} (windows : bool) (hostname : option str).

(** The time left, and an attempt within it. *)
Definition remaining (deadline : option Instant) (w : W) : option Z :=
  (fun dl => Z.max 0 (dl - clock w)) <$> deadline.

Definition bounded (message : string) (deadline : option Instant) (m : M W P) : M W P := fun w =>
  match remaining deadline w with
  | None => m w
  | Some d =>
      match timeout d m w with
      | (Ok (Some p), w) => (Ok p, w)
      | (Ok None, w) => (Err (TimeoutError message), w)
      | (Err e, w) => (Err e, w)
      | (Panic x, w) => (Panic x, w)
      | (OutOfFuel, w) => (OutOfFuel, w)
      end
  end.

(** The context a route is followed with: Enhanced Routing names a database. *)
Definition routed_context (c : ClientContext) (database : option str) : ClientContext :=
  match database with Some db => c {{ cc_database := db }} | None => c end.

(** [follow_redirects], on the world and the count of routes followed so far. *)
Fixpoint follow_redirects (fuel : nat) (c : ClientContext) (result : TdsResult P) (deadline : option Instant)
    (redirect_count : Z) (w : W) : TdsResult P * (Z * W) :=
  match result with
  | Err (Redirection host port database) =>
      match fuel with
      | O => (OutOfFuel, (redirect_count, w))
      | S fuel =>
          let redirect_count := redirect_count + 1 in
          if MAX_REDIRECTS <? redirect_count then
            (Err (ProtocolError "Received more redirection tokens than expected."), (redirect_count, w))
          else
            let '(result, w) := bounded "Timeout while connecting" deadline
              (connect_with_transport_context (routed_context c database) (from_routing_token host port)) w in
            follow_redirects fuel c result deadline redirect_count w
      end
  | _ => (result, (redirect_count, w))
  end.

Definition redirect_fuel : nat := S (Z.to_nat MAX_REDIRECTS).

(** One transport, with the routes it leads to. *)
Definition attempt_transport (message : string) (c : ClientContext) (t : TransportContext) (deadline : option Instant)
    (redirect_count : Z) (w : W) : TdsResult P * (Z * W) :=
  let '(result, w) := bounded message deadline (connect_with_transport_context c t) w in
  follow_redirects redirect_fuel c result deadline redirect_count w.

(** What ends an attempt for good, or lets another follow. *)
Inductive Progress := Ended (r : TdsResult P) | GoesOn (last_error : option Error).

(** [redirect_count > 0 || !err.is_transient_connect_error()]. *)
Definition conclude_attempt (result : TdsResult P) (redirect_count : Z) : Progress :=
  match result with
  | Err e => if (0 <? redirect_count) || negb (is_transient_connect_error e) then Ended (Err e) else GoesOn (Some e)
  | r => Ended r
  end.

(** The inner loop: each transport in order. *)
Fixpoint try_transports (c : ClientContext) (transports : list TransportContext) (deadline : option Instant)
    (redirect_count : Z) (last_error : option Error) (w : W) : Progress * (Z * W) :=
  match transports with
  | [] => (GoesOn last_error, (redirect_count, w))
  | t :: transports =>
      if cancel_requested w then
        (Ended (Err (OperationCancelledError "Login has been cancelled.")), (redirect_count, w))
      else
        let '(result, (redirect_count, w)) :=
          attempt_transport "Timeout while connecting" c t deadline redirect_count w in
        match conclude_attempt result redirect_count with
        | Ended r => (Ended r, (redirect_count, w))
        | GoesOn last_error => try_transports c transports deadline redirect_count last_error w
        end
  end.

(** One round of the outer loop, which waits first unless it is the [first]; [next] is the rest of the loop. *)
Definition retry_round (c : ClientContext) (transports : list TransportContext) (deadline : option Instant)
    (first : bool) (next : Z -> option Error -> W -> Progress * (Z * W))
    (redirect_count : Z) (last_error : option Error) (w : W) : Progress * (Z * W) :=
  let interval := secs (cc_connect_retry_interval c) in
  let out_of_time := negb first && match deadline with Some dl => dl <? clock w + interval | None => false end in
  if out_of_time then (GoesOn last_error, (redirect_count, w))
  else
    let w := if first then w else sleep interval w in
    if bool_decide (remaining deadline w = Some 0) then (GoesOn last_error, (redirect_count, w))
    else
      match try_transports c transports deadline redirect_count last_error w with
      | (Ended r, s) => (Ended r, s)
      | (GoesOn last_error, (redirect_count, w)) => next redirect_count last_error w
      end.

(** The outer loop, with [retries] rounds after this one. *)
Fixpoint retry_loop (c : ClientContext) (transports : list TransportContext) (deadline : option Instant)
    (retries : nat) (first : bool) : Z -> option Error -> W -> Progress * (Z * W) :=
  retry_round c transports deadline first
    match retries with
    | O => fun redirect_count last_error w => (GoesOn last_error, (redirect_count, w))
    | S retries => retry_loop c transports deadline retries false
    end.

(** What the loops come to. *)
Definition settle_attempts (p : Progress) : TdsResult P :=
  match p with
  | Ended r => r
  | GoesOn (Some e) => Err e
  | GoesOn None => Err (ProtocolError "All connection attempts from action chain failed.")
  end.

(** ** Where an instance listens *)

Definition find_query (chain : ConnectionActionChain) : option (str * str) :=
  find_map (fun a => match a with QuerySsrp server instance _ => Some (server, instance) | _ => None end)
    (chain_actions chain).

(** What an answer leaves for the transports; a pipe only on Windows. *)
Definition store_endpoints (infos : list SsrpInstanceInfo) (server : str) : M ActionContext unit :=
  let transports := build_transport_list infos server in
  let tcp_port := head (omap (fun t => match t with Tcp _ port _ => Some port | _ => None end) transports) in
  let pipe_path :=
    if windows then head (omap (fun t => match t with NamedPipe p => Some p | _ => None end) transports) else None in
  match tcp_port, pipe_path with
  | None, None =>
      throw (ConnectionError (if windows
        then "SQL Browser returned instance information but no TCP or Named Pipe endpoint was available."
        else "SQL Browser returned instance information but no TCP endpoint was available."))
  | _, _ =>
      match tcp_port with
      | Some port => modify (store_outcome (SsrpResolved port))
      | None => ret tt
      end ;;
      match pipe_path with
      | Some pipe =>
          local_pipe <- lift (localize_pipe_path hostname pipe) ;;
          modify (store_outcome (SsrpResolvedPipe local_pipe))
      | None => ret tt
      end
  end.

(** [resolve_ssrp]; its error wraps the lookup's. *)
Definition resolve_ssrp (chain : ConnectionActionChain) (ssrp_timeout_ms : Z) (bound_resolution : bool)
    : M (W * ActionContext) unit :=
  '(server, instance) <- lift match find_query chain with
                              | Some q => Ok q
                              | None => Err (ProtocolError "Action chain requires SSRP but contains no QuerySsrp action")
                              end ;;
  let timeout_ms := if ssrp_timeout_ms =? 0 then DEFAULT_SSRP_TIMEOUT_MS else ssrp_timeout_ms in
  answer <- on_fst (lookup_instance server instance timeout_ms bound_resolution) ;;
  match answer with
  | inl infos => on_snd (store_endpoints infos server)
  | inr _ => throw (ConnectionError "Error Locating Server/Instance Specified")
  end.

(** The lookup through the cache: a hit is used, a miss is looked up and remembered. *)
Definition resolve_instance (c : ClientContext) (chain : ConnectionActionChain) (diagnosing : bool)
    (server instance : str) : M (W * InstanceCache * ActionContext) unit := fun '(w, cache, ctx) =>
  let look := resolve_ssrp chain (cc_ssrp_timeout_ms c) diagnosing in
  if uses_cache chain && negb diagnosing then
    match cache_get server instance cache with
    | Some hit =>
        (Ok tt, (w, cache, store_outcome (CacheHit PT_Tcp (cr_port hit) (cr_pipe_path hit)) ctx))
    | None =>
        match look (w, ctx) with
        | (Ok _, (w, ctx)) =>
            let port := slot_port ResolvedPort ctx in
            let pipe_path := if windows then slot_pipe_path ResolvedPipePath ctx else None in
            let cache := match port, pipe_path with
                         | None, None => cache
                         | _, _ => cache_insert server instance port pipe_path cache
                         end in
            (Ok tt, (w, cache, ctx))
        | (r, (w, ctx)) => (r, (w, cache, ctx))
        end
    end
  else let '(r, (w, ctx)) := look (w, ctx) in (r, (w, cache, ctx)).

(** The lookup of a chain that needs one. *)
Definition find_instance (c : ClientContext) (chain : ConnectionActionChain) (diagnosing : bool)
    : M (W * InstanceCache * ActionContext) unit :=
  if requires_ssrp chain then
    match find_query chain with
    | Some (server, instance) => resolve_instance c chain diagnosing server instance
    | None => throw (ImplementationError "requires_ssrp() returned true but no QuerySsrp action found")
    end
  else ret tt.

(** ** [execute_action_chain] *)

(** Shared memory before the browser: what ends the attempt, or nothing. *)
Definition shared_memory_first (c : ClientContext) (chain : ConnectionActionChain) (deadline : option Instant)
    (w : W) : option (TdsResult P) * (Z * W) :=
  if windows && requires_ssrp chain then
    match first_shared_memory_transport chain with
    | Some t =>
        let '(result, (redirect_count, w)) :=
          attempt_transport "Timeout while connecting via Shared Memory" c t deadline 0 w in
        match conclude_attempt result redirect_count with
        | Ended r => (Some r, (redirect_count, w))
        | GoesOn _ => (None, (redirect_count, w))
        end
    | None => (None, (0, w))
    end
  else (None, (0, w)).

(** The transports of a chain, and the context they are dialled with: LocalDB's is not encrypted. *)
Definition resolved_transports (c : ClientContext) (chain : ConnectionActionChain) (ctx : ActionContext)
    : M W (list TransportContext * ClientContext) :=
  let plain := ret ((resolve_transport_contexts_with_context windows chain ctx).*1, c) in
  if windows then
    match requires_localdb_resolution chain with
    | Some instance =>
        pipe_path <- resolve_localdb_instance instance ;;
        ret ([NamedPipe pipe_path], c {{ cc_encryption_mode := PreferOff }})
    | None => plain
    end
  else plain.

Definition login_deadline (c : ClientContext) (w : W) : option Instant :=
  let login_timeout := default (cc_connect_timeout c) (cc_login_timeout c) in
  if 0 <? login_timeout then Some (clock w + secs login_timeout) else None.

(** The body; a client is its connection and the context it keeps. *)
Definition execute_action_chain (c : ClientContext) (chain : ConnectionActionChain) (diagnosing : bool)
    : M (W * InstanceCache) (P * ClientContext) := fun '(w, cache) =>
  let deadline := login_deadline c w in
  match shared_memory_first c chain deadline w with
  | (Some r, (_, w)) => (let? p := r in Ok (p, c), (w, cache))
  | (None, (redirect_count, w)) =>
      match find_instance c chain diagnosing (w, cache, ActionContext_new) with
      | (Ok _, (w, cache, ctx)) =>
          match resolved_transports c chain ctx w with
          | (Ok ([], _), w) =>
              (Err (ProtocolError "No transport protocols available in action chain"), (w, cache))
          | (Ok (transports, c), w) =>
              let '(p, (_, w)) :=
                retry_loop c transports deadline (Z.to_nat (cc_connect_retry_count c)) true redirect_count None w in
              (let? p := settle_attempts p in Ok (p, c), (w, cache))
          | (Err e, w) => (Err e, (w, cache))
          | (Panic x, w) => (Panic x, (w, cache))
          | (OutOfFuel, w) => (OutOfFuel, (w, cache))
          end
      | (Err e, (w, cache, _)) => (Err e, (w, cache))
      | (Panic x, (w, cache, _)) => (Panic x, (w, cache))
      | (OutOfFuel, (w, cache, _)) => (OutOfFuel, (w, cache))
      end
  end.

(** ** The entry points *)

Context (computer_name : option str) (environment : option (option str)).

Definition action_chain (datasource : str) : M (ClientContext * Defaults) ConnectionActionChain :=
  parsed <- prepare_datasource windows computer_name environment datasource ;;
  c <- gets fst ;;
  lift (validate c) ;;
  let timeout_ms := if 0 <? cc_connect_timeout c then cc_connect_timeout c * 1000 else 15000 in
  ret (to_connection_actions windows computer_name parsed timeout_ms).

(** A step that needs the chain, with the context and the process's state threaded. *)
Definition with_chain {A} (c : ClientContext) (datasource : str)
    (k : ClientContext -> ConnectionActionChain -> M (W * InstanceCache) A)
    : M (Defaults * (W * InstanceCache)) A := fun '(defaults, s) =>
  match action_chain datasource (c, defaults) with
  | (Ok chain, (c, defaults)) => let '(r, s) := k c chain s in (r, (defaults, s))
  | (Err e, (_, defaults)) => (Err e, (defaults, s))
  | (Panic x, (_, defaults)) => (Panic x, (defaults, s))
  | (OutOfFuel, (_, defaults)) => (OutOfFuel, (defaults, s))
  end.

(** [create_client]; [dropped] is the state in which a cancelled attempt was dropped, if it was. *)
Definition create_client (c : ClientContext) (datasource : str) (cancel_handle : option CancelHandle)
    (dropped : option (W * InstanceCache)) : M (Defaults * (W * InstanceCache)) (P * ClientContext) :=
  with_chain c datasource (fun c chain s =>
    let '(r, s') := execute_action_chain c chain false s in
    match cancel_handle, dropped with
    | Some _, Some s => (run_until_cancelled cancel_handle true r, s)
    | _, _ => (run_until_cancelled cancel_handle false r, s')
    end).

Inductive DiagnosticStop := Resolution | Transport.

Definition diagnose_client (c : ClientContext) (datasource : str) (stop_after : option DiagnosticStop)
    : M (Defaults * (W * InstanceCache)) (option (P * ClientContext)) :=
  with_chain c datasource (fun c chain s =>
    match stop_after, cc_resolved_multi_subnet_failover c with
    | Some Resolution, Some {| enabled := true |} =>
        (Err (UsageError "A diagnostic attempt with MultiSubnetFailover cannot stop after resolution: resolving is part of the parallel connect."), s)
    | _, _ =>
        let '(r, (w, cache)) := execute_action_chain c chain true s in
        let w := finish_extra_connects (cc_connect_timeout c * 1000) w in
        (if diagnosis_stopped w then Ok None else let? client := r in Ok (Some client), (w, cache))
    end).
End provider.
