(* ===== verification/ProviderLaws.v ===== *)
(** * Laws of opening a connection

    One call dials a bounded number of times and always comes to an end, a failure that would recur
    is not retried, what the browser said is what the cache says, and the endpoint a data source
    names is the one that is dialled. *)

From stdpp Require Import strings gmap.
From S2P Require Import Prelude Core Unicode Text DataSource DataSourceLaws HostPolicy ClientContext ConnectionActions Ssrp LoginLayout Provider.

#[local] Arguments lit : simpl never.
#[local] Arguments one_of : simpl never.

(** ** Counting attempts *)

(** A result that is neither a route to follow nor the model's end of fuel. *)
Definition settled {A} (r : TdsResult A) : Prop :=
  match r with OutOfFuel | Err (Redirection _ _ _) => False | _ => True end.

(** [dials] counts the connection attempts begun in a world: connecting begins one, even when it is
    cut off, and nothing else does. *)
Class CountedDialer {W P : Type} `{Dialer W P} (dials : W -> nat) : Prop := {
  dial_counts c t w : dials (connect_with_transport_context c t w).2 = S (dials w);
  cut_counts d c t w : (dials (timeout d (connect_with_transport_context c t) w).2 <= S (dials w))%nat;
  sleep_counts d w : dials (sleep d w) = dials w;
  lookup_counts server instance t b w : dials (lookup_instance server instance t b w).2 = dials w;
  localdb_counts instance w : dials (resolve_localdb_instance instance w).2 = dials w;
  dial_ends c t w : (connect_with_transport_context c t w).1 <> OutOfFuel;
  cut_ends d c t w : (timeout d (connect_with_transport_context c t) w).1 <> OutOfFuel;
  lookup_ends server instance t b w : settled (lookup_instance server instance t b w).1;
  localdb_ends instance w : settled (resolve_localdb_instance instance w).1;
}.

Section counted.
Context {W P : Type} `{Dialer W P} (dials : W -> nat) `{!CountedDialer dials} `{UnicodeCase}.
Context (windows : bool) (hostname : option str).

Lemma bounded_dial message deadline c t w r w' :
  bounded message deadline (connect_with_transport_context c t) w = (r, w') ->
  r <> OutOfFuel /\ (dials w' <= S (dials w))%nat.
Proof.
  unfold bounded. destruct (remaining deadline w) as [d|].
  - pose proof (cut_counts d c t w) as Hc. pose proof (cut_ends d c t w) as He.
    destruct (timeout d _ w) as [[[p|]|e|x|] w1]; cbn in *; intros [= <- <-]; (split; [done|lia]).
  - intros E. pose proof (dial_counts c t w) as Hc. pose proof (dial_ends c t w) as He.
    rewrite E in Hc, He. cbn in *. split; [done|lia].
Qed.

(** Routes: each costs one attempt, and the eleventh is refused. *)
Lemma follow_redirects_bound fuel c r deadline count w r' count' w' :
  0 <= count <= 10 -> r <> OutOfFuel -> 10 < Z.of_nat fuel + count ->
  follow_redirects fuel c r deadline count w = (r', (count', w')) ->
  settled r' /\ count <= count' /\ Z.of_nat (dials w') <= Z.of_nat (dials w) + (Z.min 10 count' - count).
Proof.
  revert r count w. induction fuel as [|fuel IH]; intros r count w Hc Hr Hf; [lia|].
  cbn [follow_redirects].
  destruct r as [p|e|x|]; [intros [= <- <- <-]; cbn; lia| |intros [= <- <- <-]; cbn; lia|done].
  destruct e; try (intros [= <- <- <-]; cbn; lia).
  unfold MAX_REDIRECTS. case_match eqn:Em; [intros [= <- <- <-]; cbn; lia|]. apply Z.ltb_ge in Em.
  destruct (bounded _ _ _ w) as [r1 w1] eqn:Eb. apply bounded_dial in Eb as [Hr1 Hw1]. intros E.
  apply IH in E as (? & ? & ?); [split_and!; [done|lia..]|lia|done|lia].
Qed.

Lemma attempt_bound message c t deadline w r count w' :
  attempt_transport message c t deadline 0 w = (r, (count, w')) ->
  settled r /\ 0 <= count /\ Z.of_nat (dials w') <= Z.of_nat (dials w) + 1 + Z.min 10 count.
Proof.
  unfold attempt_transport. destruct (bounded _ _ _ w) as [r1 w1] eqn:Eb. apply bounded_dial in Eb as [Hr Hw].
  intros E. apply follow_redirects_bound in E as (? & ? & ?); [split_and!; [done|lia..]|lia|done|].
  unfold redirect_fuel, MAX_REDIRECTS. lia.
Qed.

Lemma conclude_settled r count :
  settled r -> 0 <= count ->
  match conclude_attempt (P := P) r count with
  | Ended r' => r' = r
  | GoesOn e => count = 0 /\ exists e', e = Some e' /\ r = Err e' /\ settled (@Err P e')
  end.
Proof.
  unfold conclude_attempt. destruct r as [p|e|x|]; try done. intros Hs Hc.
  destruct (0 <? count) eqn:E; [done|]. apply Z.ltb_ge in E. cbn [orb].
  destruct (negb _); [done|]. split; [lia|by exists e].
Qed.

(** What a loop of [n] attempts leaves: an end, or an error to report and no route followed. *)
Definition loop_outcome (n : nat) (w : W) (last : option Error) (out : Progress (P := P) * (Z * W)) : Prop :=
  let '(p, (count, w')) := out in
  match p with
  | Ended r => settled r /\ (dials w' <= dials w + n + 10)%nat
  | GoesOn last' => count = 0 /\ (dials w' <= dials w + n)%nat /\
      (last' = last \/ exists e, last' = Some e /\ settled (@Err P e))
  end.

Lemma loop_outcome_weaken n n' w w0 last last0 out :
  (dials w + n <= dials w0 + n')%nat -> loop_outcome n w last out ->
  (last = last0 \/ exists e, last = Some e /\ settled (@Err P e)) -> loop_outcome n' w0 last0 out.
Proof.
  destruct out as [[r|last'] [count w']]; cbn; intros ? [? Hd] Hl; [split; [done|lia]|].
  split_and!; [done|lia|]. destruct (proj2 Hd) as [->|?]; [done|by right].
Qed.

Lemma try_transports_bound c ts deadline last w :
  loop_outcome (length ts) w last (try_transports c ts deadline 0 last w).
Proof.
  revert last w. induction ts as [|t ts IH]; intros last w; [cbn; split_and!; [done|lia|by left]|].
  cbn [try_transports]. case_match; [cbn; split; [done|lia]|].
  destruct (attempt_transport _ _ _ _ _ _) as [r [count w1]] eqn:E.
  apply attempt_bound in E as (Hs & Hc & Hd). pose proof (conclude_settled r count Hs Hc) as Hcon.
  destruct (conclude_attempt r count) as [r'|last']; [subst; cbn; split; [done|lia]|].
  destruct Hcon as (-> & e & -> & _ & He).
  eapply loop_outcome_weaken; [|apply IH|]; [cbn [length]; lia|]. right. by exists e.
Qed.

Lemma retry_round_bound c ts deadline first n next last w :
  (forall last w, loop_outcome n w last (next 0 last w)) ->
  loop_outcome (length ts + n) w last (retry_round c ts deadline first next 0 last w).
Proof.
  intros Hnext. unfold retry_round. destruct (negb first && _); [cbn; split_and!; [done|lia|by left]|].
  set (w0 := if first then w else _).
  assert (dials w0 = dials w) as Hw0 by (unfold w0; destruct first; [done|apply sleep_counts]).
  cbv zeta. destruct (bool_decide _); [cbn; split_and!; [done|lia|by left]|].
  pose proof (try_transports_bound c ts deadline last w0) as Ht.
  destruct (try_transports _ _ _ _ _ w0) as [[r|last'] [count w1]]; [cbn in Ht |- *; split; [apply Ht|lia]|].
  destruct Ht as (-> & Hd & Hl). eapply loop_outcome_weaken; [|apply Hnext|exact Hl]. lia.
Qed.

Lemma retry_loop_bound c ts deadline retries first last w :
  loop_outcome (S retries * length ts) w last (retry_loop c ts deadline retries first 0 last w).
Proof.
  revert first last w. induction retries as [|retries IH]; intros first last w; cbn [retry_loop];
    (apply retry_round_bound; intros last' w'); [cbn; split_and!; [done|lia|by left]|apply IH].
Qed.

Lemma settle_settled p n w count w' :
  loop_outcome n w None (p, (count, w')) -> settled (settle_attempts p) /\ (dials w' <= dials w + n + 10)%nat.
Proof.
  destruct p as [r|last]; cbn; [done|]. intros (_ & Hd & [->|(e & -> & He)]); (split; [done|lia]).
Qed.

(** A chain made of a data source has at most three transports. *)
Lemma chain_transports_le computer_name d timeout_ms ctx :
  (length (resolve_transport_contexts_with_context windows
             (to_connection_actions windows computer_name d timeout_ms) ctx) <= 3)%nat.
Proof.
  unfold resolve_transport_contexts_with_context, collect_transport_contexts, to_connection_actions. cbn [chain_actions].
  rewrite bind_app, length_app.
  replace (length (_ ≫= _)) with 0%nat by by destruct (can_use_cache d).
  unfold ssrp_actions, explicit_actions, add_protocol_waterfall.
  repeat (case_match; cbn; try lia); rewrite ?length_app; cbn;
    repeat (destruct (slot_port _ _) || destruct (slot_pipe_path _ _) || destruct (one_of _ _) || destruct (can_use_cache d) || destruct windows || destruct (is_empty _) || destruct (ds_is_local _ _)); cbn; lia.
Qed.

(** ** Lookups dial nothing *)

Lemma rbind_settled {A B} (r : TdsResult A) (k : A -> TdsResult B) :
  settled r -> (forall a, settled (k a)) -> settled (rbind r k).
Proof. destruct r; cbn; auto. Qed.

Lemma str_op_settled n s : settled (str_from n s) /\ settled (str_to n s).
Proof.
  revert n. induction s as [|c s IH]; intros [|n]; cbn; try done.
  destruct (decide _); [|done]. split; [apply IH|apply rbind_settled; [apply IH|done]].
Qed.

Lemma localize_settled pipe : settled (localize_pipe_path hostname pipe).
Proof.
  unfold localize_pipe_path. case_match; [done|]. apply rbind_settled; [apply str_op_settled|intros after].
  case_match; [|done]. apply rbind_settled; [apply str_op_settled|intros server].
  case_match; [done|]. case_match; [|done]. by apply rbind_settled; [apply str_op_settled|].
Qed.

Definition quiet {S A} (world : S -> W) (m : M S A) : Prop :=
  forall s, let '(r, s') := m s in settled r /\ dials (world s') = dials (world s).

Lemma store_endpoints_settled infos server ctx : settled (store_endpoints windows hostname infos server ctx).1.
Proof.
  unfold store_endpoints. cbv zeta. set (port := head _). set (pipe := if windows then _ else _).
  destruct port as [port|], pipe as [pipe|]; try exact I; unfold bind, modify, ret, lift;
    (pose proof (localize_settled pipe) as L; destruct (localize_pipe_path hostname pipe) as [l|[]| |]; done).
Qed.

Lemma resolve_ssrp_quiet chain ms bound : quiet fst (resolve_ssrp windows hostname chain ms bound).
Proof.
  intros [w ctx]. unfold resolve_ssrp. unfold bind at 1. destruct (find_query chain) as [[server instance]|]; [|done].
  cbn [lift]. unfold bind at 1, on_fst at 1. set (t := if ms =? 0 then _ else _).
  pose proof (lookup_ends server instance t bound w) as Hs.
  pose proof (lookup_counts server instance t bound w) as Hd.
  destruct (lookup_instance server instance t bound w) as [[[infos|code]|e|x|] w1]; cbn [fst snd] in Hs, Hd;
    [|exact (conj I Hd)|exact (conj Hs Hd)|exact (conj I Hd)|done].
  unfold on_snd. pose proof (store_endpoints_settled infos server ctx) as He.
  by destruct (store_endpoints windows hostname infos server ctx).
Qed.

Lemma resolve_instance_quiet c chain diagnosing server instance :
  quiet (fun '(w, _, _) => w) (resolve_instance windows hostname c chain diagnosing server instance).
Proof.
  intros [[w cache] ctx]. unfold resolve_instance.
  pose proof (resolve_ssrp_quiet chain (cc_ssrp_timeout_ms c) diagnosing (w, ctx)) as Hq.
  destruct (resolve_ssrp _ _ _ _ _ _) as [r [w1 ctx1]]. destruct Hq as [Hs Hd]. cbn in Hs, Hd.
  destruct (_ && _); [|done]. destruct (cache_get _ _ _); [done|]. by destruct r.
Qed.

Lemma find_instance_quiet c chain diagnosing :
  quiet (fun '(w, _, _) => w) (find_instance windows hostname c chain diagnosing).
Proof.
  intros [[w cache] ctx]. unfold find_instance. destruct (requires_ssrp chain); [|done].
  destruct (find_query chain) as [[server instance]|]; [|done]. apply resolve_instance_quiet.
Qed.

Lemma resolved_transports_quiet c chain ctx : quiet id (resolved_transports windows c chain ctx).
Proof.
  intros w. unfold resolved_transports. destruct windows; [|done]. destruct (requires_localdb_resolution _) as [i|]; [|done].
  unfold bind. pose proof (localdb_counts i w). pose proof (localdb_ends i w).
  by destruct (resolve_localdb_instance i w) as [[|e| |] w'].
Qed.

(** ** The whole attempt *)

Lemma shared_memory_bound c chain deadline w :
  let '(o, (count, w')) := shared_memory_first windows c chain deadline w in
  match o with
  | Some r => settled r /\ (dials w' <= dials w + 11)%nat
  | None => count = 0 /\ (dials w' <= dials w + 1)%nat
  end.
Proof.
  unfold shared_memory_first. destruct (_ && _); [|cbn; lia].
  destruct (first_shared_memory_transport chain) as [t|]; [|cbn; lia].
  destruct (attempt_transport _ _ _ _ _ _) as [r [count w']] eqn:E. apply attempt_bound in E as (Hs & Hc & Hd).
  pose proof (conclude_settled r count Hs Hc) as Hcon.
  destruct (conclude_attempt r count); [subst; split; [done|lia]|destruct Hcon as [-> _]; split; [done|lia]].
Qed.

Lemma dial_all_bound n c transports deadline retries w :
  (length transports <= n)%nat ->
  let '(p, (_, w')) := retry_loop (P := P) c transports deadline retries true 0 None w in
  settled (settle_attempts p) /\ (dials w' <= dials w + S retries * n + 10)%nat.
Proof.
  intros Hn. pose proof (retry_loop_bound c transports deadline retries true None w) as Hl.
  destruct (retry_loop _ _ _ _ _ _ _ _) as [p [count w']]. apply settle_settled in Hl as [? ?]. split; [done|nia].
Qed.

Lemma resolved_transports_le n c chain ctx w :
  (1 <= n)%nat -> (forall ctx, length (resolve_transport_contexts_with_context windows chain ctx) <= n)%nat ->
  let '(r, w') := resolved_transports windows c chain ctx w in
  settled r /\ dials w' = dials w /\
  forall ts c', r = Ok (ts, c') -> (length ts <= n)%nat /\ cc_connect_retry_count c' = cc_connect_retry_count c.
Proof.
  intros Hn Hle. pose proof (resolved_transports_quiet c chain ctx w) as Hq.
  destruct (resolved_transports windows c chain ctx w) as [r w'] eqn:E. destruct Hq as [Hs Hd]. split_and!; [done..|].
  intros ts c' ->. revert E. unfold resolved_transports, bind, ret.
  assert (forall w0, (@Ok (list TransportContext * ClientContext)
            ((resolve_transport_contexts_with_context windows chain ctx).*1, c), w0) = (Ok (ts, c'), w') ->
          (length ts <= n)%nat /\ cc_connect_retry_count c' = cc_connect_retry_count c) as Hplain.
  { intros w0 [= <- <- _]. rewrite length_fmap. done. }
  destruct windows; [|by apply Hplain]. destruct (requires_localdb_resolution chain) as [i|]; [|by apply Hplain].
  destruct (resolve_localdb_instance i w) as [[| | |] w1]; intros [= <- <- _]. split; [done|by destruct c].
Qed.

Lemma execute_bound n c chain diagnosing w cache :
  (1 <= n)%nat -> (forall ctx, length (resolve_transport_contexts_with_context windows chain ctx) <= n)%nat ->
  let '(r, (w', _)) := execute_action_chain windows hostname c chain diagnosing (w, cache) in
  settled r /\ (dials w' <= dials w + S (Z.to_nat (cc_connect_retry_count c)) * n + 11)%nat.
Proof.
  intros Hn Hle. unfold execute_action_chain.
  pose proof (shared_memory_bound c chain (login_deadline c w) w) as Hsm.
  destruct (shared_memory_first _ _ _ _ _) as [[r|] [count w1]].
  { destruct Hsm as [Hs Hd]. split; [by apply rbind_settled|lia]. }
  destruct Hsm as [-> Hd1]. pose proof (find_instance_quiet c chain diagnosing (w1, cache, ActionContext_new)) as Hq.
  destruct (find_instance _ _ _ _ _ _) as [r [[w2 cache2] ctx]]. destruct Hq as [Hs2 Hd2].
  destruct r as [[]|e|x|]; [|split; [done|cbn in Hd2; lia]..].
  pose proof (resolved_transports_le n c chain ctx w2 Hn Hle) as Ht.
  destruct (resolved_transports _ _ _ _ _) as [r w3]. destruct Ht as (Hs3 & Hd3 & Hts). cbn in Hd2.
  destruct r as [[ts c']|e|x|]; [|split; [done|lia]..]. destruct (Hts ts c' eq_refl) as [Hlen Hretry].
  destruct ts as [|t ts]; [split; [done|lia]|].
  pose proof (dial_all_bound n c' (t :: ts) (login_deadline c w) (Z.to_nat (cc_connect_retry_count c')) w3 Hlen) as Hl.
  destruct (retry_loop _ _ _ _ _ _ _ _) as [p [count w4]]. destruct Hl as [Hs4 Hd4]. rewrite Hretry in Hd4.
  split; [by apply rbind_settled|lia].
Qed.
End counted.

(** C13: One connection attempt comes to an end: whatever the servers answer, it returns a client or an
    error that is not a route left to follow (or a panic, if a connect is one), and with [n] retries it connects at most
    [3 * (n + 1) + 11] times, three transports in each round, one over shared memory before them and
    ten routes. *)
Theorem connect_is_bounded {W P : Type} `{Dialer W P} (dials : W -> nat) `{!CountedDialer dials} `{UnicodeCase}
    windows hostname computer_name c d timeout_ms diagnosing w cache :
  let '(r, (w', _)) := execute_action_chain windows hostname c
    (to_connection_actions windows computer_name d timeout_ms) diagnosing (w, cache) in
  settled r /\ (dials w' <= dials w + 3 * S (Z.to_nat (cc_connect_retry_count c)) + 11)%nat.
Proof.
  pose proof (execute_bound dials windows hostname 3 c (to_connection_actions windows computer_name d timeout_ms)
    diagnosing w cache ltac:(lia) (chain_transports_le windows computer_name d timeout_ms)) as He.
  destruct (execute_action_chain _ _ _ _ _ _) as [r [w' cache']]. split; [apply He|lia].
Qed.

(** ** The order of the attempts *)

(** What an attempt came to, as the provider sees it. *)
Inductive Verdict := Connects | Fails (e : Error) | CutOff | Crashes.

Definition verdict {A} (r : TdsResult A) : Verdict :=
  match r with Ok _ => Connects | Err e => Fails e | Panic _ | OutOfFuel => Crashes end.

Definition cut_verdict {A} (r : TdsResult (option A)) : Verdict :=
  match r with Ok None => CutOff | r => verdict r end.

(** [log] tells the attempts of a world in order; a timeout lets an attempt begin before it cuts it off.
    Waiting and looking up where an instance listens are no attempts. *)
Class LoggedDialer {W P : Type} `{Dialer W P} (log : W -> list (TransportContext * Verdict)) : Prop := {
  dial_logs c t w :
    log (connect_with_transport_context c t w).2 = log w ++ [(t, verdict (connect_with_transport_context c t w).1)];
  cut_logs d c t w :
    log (timeout d (connect_with_transport_context c t) w).2 =
    log w ++ [(t, cut_verdict (timeout d (connect_with_transport_context c t) w).1)];
  sleep_logs d w : log (sleep d w) = log w;
  lookup_logs server instance ms b w : log (lookup_instance server instance ms b w).2 = log w;
  localdb_logs instance w : log (resolve_localdb_instance instance w).2 = log w;
}.

(** A failure that another attempt may follow. *)
Definition passing (v : Verdict) : bool :=
  match v with Fails e => is_transient_connect_error e | CutOff => true | _ => false end.

(** After an attempt that was routed come attempts at where the routes lead; after any other, none. *)
Fixpoint routed (v : Verdict) (es : list (TransportContext * Verdict)) : Prop :=
  match v, es with
  | Fails (Redirection host port _), (t, v) :: es => t = from_routing_token host port /\ routed v es
  | _, es => es = []
  end.

(** Attempts [es] go through [plan] as long as the failures may pass. *)
Fixpoint follows (plan : list TransportContext) (es : list (TransportContext * Verdict)) {struct es} : Prop :=
  match es, plan with
  | [], _ => True
  | (t, v) :: es, t' :: plan => t = t' /\ if passing v then follows plan es else routed v es
  | _ :: _, [] => False
  end.

Lemma follows_app plan plan' es : follows plan es -> follows (plan ++ plan') es.
Proof.
  revert plan. induction es as [|[t v] es IH]; intros [|t' plan]; cbn; [done..|].
  destruct (passing v); [intros [? ?]; split; [done|by apply IH]|done].
Qed.

Lemma follows_through es plan es' :
  Forall (fun e => passing e.2) es -> follows plan es' -> follows (es.*1 ++ plan) (es ++ es').
Proof.
  intros Hp Hf. induction Hp as [|[t v] es Hv _ IH]; [done|]. cbn in Hv |- *. by destruct (passing v).
Qed.

Lemma concat_nils {A} n : concat (replicate n (@nil A)) = [].
Proof. by induction n. Qed.

Section logged.
Context {W P : Type} `{Dialer W P} (log : W -> list (TransportContext * Verdict)) `{!LoggedDialer log}.

(** What the provider makes of a verdict; an attempt that was cut off is a timeout. *)
Definition agrees (v : Verdict) (r : TdsResult P) : Prop :=
  match r with
  | Ok _ => v = Connects
  | Err e => v = Fails e \/ v = CutOff /\ is_transient_connect_error e = true
  | Panic _ | OutOfFuel => v = Crashes
  end.

Lemma bounded_logs message deadline c t w r w' :
  bounded message deadline (connect_with_transport_context c t) w = (r, w') ->
  exists v, log w' = log w ++ [(t, v)] /\ agrees v r.
Proof.
  unfold bounded. destruct (remaining deadline w) as [d|].
  - pose proof (cut_logs d c t w) as Hl.
    destruct (timeout d _ w) as [[[p|]|e|x|] w1]; cbn in *; intros [= <- <-]; rewrite Hl; eexists; split; try done;
      [by right|by left].
  - intros E. pose proof (dial_logs c t w) as Hl. rewrite E in Hl. cbn in Hl. rewrite Hl. eexists. split; [done|].
    destruct r; cbn; [done|by left|done..].
Qed.

Lemma follow_redirects_logs fuel c r v deadline count w r' count' w' :
  count <= 10 < Z.of_nat fuel + count ->
  agrees v r -> follow_redirects fuel c r deadline count w = (r', (count', w')) ->
  exists es, log w' = log w ++ es /\
    (count < count' /\ passing v = false /\ routed v es \/ count' = count /\ r' = r /\ es = []).
Proof.
  revert r v count w. induction fuel as [|fuel IH]; intros r v count w Hf Ha; [lia|].
  assert (forall r0, (r, (count, w)) = (r0, (count', w')) -> r0 = r' -> exists es, log w' = log w ++ es /\
    (count < count' /\ passing v = false /\ routed v es \/ count' = count /\ r' = r /\ es = [])) as Hstay.
  { intros r0 [= <- <- <-] <-. exists []. rewrite app_nil_r. split; [done|by right]. }
  destruct r as [p|e|x|]; cbn [follow_redirects]; try (intros E; by eapply Hstay).
  destruct e as [| | | | | | | | | | | | | | | | |h p db]; try (intros E; by eapply Hstay).
  assert (v = Fails (Redirection h p db)) as -> by (destruct Ha as [->|[_ [=]]]; done).
  unfold MAX_REDIRECTS. case_match eqn:Em.
  { intros [= <- <- <-]. exists []. rewrite app_nil_r. split; [done|]. left. split_and!; [lia|done..]. }
  apply Z.ltb_ge in Em. destruct (bounded _ _ _ w) as [r1 w1] eqn:Eb. apply bounded_logs in Eb as (v1 & Hl1 & Ha1).
  intros E. eapply IH in E as (es & Hl & Hes); [|lia|exact Ha1].
  exists ((from_routing_token h p, v1) :: es). rewrite Hl, Hl1, <- app_assoc. split; [done|]. left.
  split_and!; [lia|done|]. split; [done|].
  destruct Hes as [(_ & _ & Hr)|(-> & -> & ->)]; [done|]. by destruct v1 as [|[]| |].
Qed.

Lemma attempt_logs message c t deadline w r count w' :
  attempt_transport message c t deadline 0 w = (r, (count, w')) ->
  exists v es, log w' = log w ++ (t, v) :: es /\ routed v es /\
    match conclude_attempt r count with
    | Ended _ => passing v = false
    | GoesOn _ => passing v = true /\ es = [] /\ count = 0
    end.
Proof.
  unfold attempt_transport. destruct (bounded _ _ _ w) as [r1 w1] eqn:Eb. apply bounded_logs in Eb as (v & Hl1 & Ha).
  intros E. eapply follow_redirects_logs in E as (es & Hl & Hes); [|unfold redirect_fuel, MAX_REDIRECTS; lia|exact Ha].
  exists v, es. rewrite Hl, Hl1, <- app_assoc. split; [done|]. unfold conclude_attempt.
  destruct Hes as [(Hc & Hv & Hr)|(-> & -> & ->)].
  - split; [done|]. destruct r as [p|e|x|]; try done. by rewrite (proj2 (Z.ltb_lt _ _) Hc).
  - split; [by destruct v as [|[]| |]|]. destruct r1 as [p|e|x|]; cbn in Ha |- *; try by rewrite Ha.
    destruct Ha as [->|[-> Ht]]; cbn; [by destruct (is_transient_connect_error e)|by rewrite Ht].
Qed.

(** What a loop over [plan] leaves in the log; [whole] is when it goes on only after all of it. *)
Definition loop_logs (whole : Prop) (plan : list TransportContext) (w : W) (out : Progress (P := P) * (Z * W)) : Prop :=
  let '(p, (count, w')) := out in
  exists es, log w' = log w ++ es /\ follows plan es /\
    match p with
    | Ended r => Forall (fun e => passing e.2) es -> r = Err (OperationCancelledError "Login has been cancelled.")
    | GoesOn _ => count = 0 /\ Forall (fun e => passing e.2) es /\ (whole -> es.*1 = plan)
    end.

Lemma loop_logs_stop (whole : Prop) plan w p :
  match p with
  | Ended r => r = Err (OperationCancelledError "Login has been cancelled.")
  | GoesOn _ => whole -> plan = []
  end -> loop_logs whole plan w (p, (0, w)).
Proof.
  intros Hp. exists []. rewrite app_nil_r. split; [done|split; [done|]]. destruct p as [r|last]; [done|].
  split_and!; [done..|]. intros Hw. by rewrite Hp.
Qed.

(** A loop after [es], which all may pass. *)
Lemma loop_logs_after (whole : Prop) es plan w w' out :
  log w' = log w ++ es -> Forall (fun e => passing e.2) es ->
  loop_logs whole plan w' out -> loop_logs whole (es.*1 ++ plan) w out.
Proof.
  intros Hl Hp. destruct out as [p [count w1]]. intros (es' & Hl' & Hf & Ho). exists (es ++ es').
  rewrite Hl', Hl, app_assoc. split_and!; [done|by apply follows_through|].
  destruct p; [by intros [_ ?]%Forall_app; apply Ho|]. destruct Ho as (-> & Hp' & Hw). split_and!; [done|by apply Forall_app|].
  intros. rewrite fmap_app. by rewrite Hw.
Qed.

Lemma try_transports_logs c ts deadline last w :
  loop_logs True ts w (try_transports (P := P) c ts deadline 0 last w).
Proof.
  revert last w. induction ts as [|t ts IH]; intros last w; cbn [try_transports]; [by apply loop_logs_stop|].
  case_match; [by apply loop_logs_stop|].
  destruct (attempt_transport _ _ _ _ _ _) as [r [count w1]] eqn:E. apply attempt_logs in E as (v & es & Hl & Hr & Hc).
  destruct (conclude_attempt r count) as [r'|last'].
  - exists ((t, v) :: es). split_and!; [done| |].
    + cbn. by rewrite Hc.
    + intros [Hv _]%list.Forall_cons. cbn in Hv. by rewrite Hc in Hv.
  - destruct Hc as (Hv & -> & ->). apply (loop_logs_after True [(t, v)] ts w w1); [done|by repeat constructor; cbn; rewrite Hv|apply IH].
Qed.

Lemma retry_round_logs c ts deadline first next plan last w :
  (forall last w, loop_logs (deadline = None) plan w (next 0 last w)) ->
  loop_logs (deadline = None) (ts ++ plan) w (retry_round c ts deadline first next 0 last w).
Proof.
  intros Hnext. unfold retry_round. destruct (negb first && _) eqn:Eo.
  { apply loop_logs_stop. intros ->. by rewrite andb_false_r in Eo. }
  cbv zeta. set (w0 := if first then w else _).
  assert (log w0 = log w) as Hw0 by (unfold w0; destruct first; [done|apply sleep_logs]).
  destruct (bool_decide _) eqn:Er.
  { apply bool_decide_eq_true in Er. exists []. rewrite app_nil_r, Hw0. split_and!; [done..|].
    by intros ->. }
  pose proof (try_transports_logs c ts deadline last w0) as Ht.
  destruct (try_transports _ _ _ _ _ w0) as [[r|last'] [count w1]]; destruct Ht as (es & Hl & Hf & He); rewrite Hw0 in Hl.
  - exists es. split_and!; [done|by apply follows_app|done].
  - destruct He as (-> & Hp & He). rewrite <- (He I). by apply (loop_logs_after _ es plan w w1).
Qed.

Lemma retry_loop_logs c ts deadline retries first last w :
  loop_logs (deadline = None) (concat (replicate (S retries) ts)) w
    (retry_loop (P := P) c ts deadline retries first 0 last w).
Proof.
  revert first last w. induction retries as [|retries IH]; intros first last w; cbn [retry_loop replicate concat];
    (apply retry_round_logs; intros last' w'); [by apply loop_logs_stop|apply IH].
Qed.

(** Finding out where to connect is no attempt. *)
Lemma resolve_ssrp_logs windows hostname chain ms b w ctx :
  log (resolve_ssrp windows hostname chain ms b (w, ctx)).2.1 = log w.
Proof.
  unfold resolve_ssrp, bind at 1, lift. destruct (find_query chain) as [[server instance]|]; [|done]. unfold bind, on_fst.
  pose proof (lookup_logs server instance (if ms =? 0 then DEFAULT_SSRP_TIMEOUT_MS else ms) b w) as Hl.
  destruct (lookup_instance _ _ _ _ w) as [[[infos|e]|e|x|] w']; try exact Hl. unfold on_snd.
  by destruct (store_endpoints _ _ _ _ _).
Qed.

Lemma find_instance_logs `{UnicodeCase} windows hostname c chain diagnosing w cache ctx :
  log (find_instance windows hostname c chain diagnosing (w, cache, ctx)).2.1.1 = log w.
Proof.
  unfold find_instance. destruct (requires_ssrp chain); [|done]. destruct (find_query chain) as [[server instance]|]; [|done].
  unfold resolve_instance. pose proof (resolve_ssrp_logs windows hostname chain (cc_ssrp_timeout_ms c) diagnosing w ctx) as Hl.
  destruct (resolve_ssrp _ _ _ _ _ _) as [r [w' ctx']].
  destruct (_ && _); [|exact Hl]. destruct (cache_get _ _ _); [done|]. by destruct r.
Qed.

(** The transports come with a context that only LocalDB changes, and not in its retries. *)
Lemma resolved_transports_logs windows c chain ctx w :
  let '(r, w') := resolved_transports windows c chain ctx w in
  log w' = log w /\ forall ts c', r = Ok (ts, c') -> cc_connect_retry_count c' = cc_connect_retry_count c.
Proof.
  unfold resolved_transports. destruct windows; [|by split; [|intros ts c' [= _ <-]]].
  destruct (requires_localdb_resolution chain) as [i|]; [|by split; [|intros ts c' [= _ <-]]].
  unfold bind. pose proof (localdb_logs i w) as Hl. destruct (resolve_localdb_instance i w) as [[pipe| | |] w']; try done.
  split; [done|]. by intros ts c' [= _ <-].
Qed.

(** What shared memory leaves in the log; it goes on only after a failure that may pass. *)
Lemma shared_memory_logs windows c chain deadline w :
  let plan := if windows && requires_ssrp chain then option_list (first_shared_memory_transport chain) else [] in
  let '(r, (count, w')) := shared_memory_first (P := P) windows c chain deadline w in
  exists es, log w' = log w ++ es /\ follows plan es /\
    match r with
    | Some _ => ~ Forall (fun e => passing e.2) es
    | None => count = 0 /\ Forall (fun e => passing e.2) es /\ es.*1 = plan
    end.
Proof.
  unfold shared_memory_first. destruct (windows && requires_ssrp chain); [|exists []; by rewrite app_nil_r].
  destruct (first_shared_memory_transport chain) as [t|]; [|exists []; by rewrite app_nil_r].
  destruct (attempt_transport _ _ _ _ _ _) as [r [count w1]] eqn:E. apply attempt_logs in E as (v & es & Hl & Hr & Hc).
  destruct (conclude_attempt r count) as [r'|last']; exists ((t, v) :: es); (split; [done|]); cbn [option_list follows].
  - rewrite Hc. split; [done|]. intros [Hv _]%list.Forall_cons. cbn in Hv. by rewrite Hc in Hv.
  - destruct Hc as (Hv & -> & ->). rewrite Hv. split_and!; try done. constructor; [|constructor]. cbn. by rewrite Hv.
Qed.

End logged.

(** The transports a chain comes to when they are looked up in [w]; none if they cannot be found. *)
Definition found_transports {W P : Type} `{Dialer W P} `{UnicodeCase} (windows : bool) (hostname : option str)
    (c : ClientContext) (chain : ConnectionActionChain) (diagnosing : bool) (w : W)
    (cache : gmap (list Z) CachedResolution) : list TransportContext :=
  match find_instance windows hostname c chain diagnosing (w, cache, ActionContext_new) with
  | (Ok _, (w, _, ctx)) =>
      match resolved_transports windows c chain ctx w with (Ok (transports, _), _) => transports | _ => [] end
  | _ => []
  end.

(** C14: A failure that would recur ends the call.  The plan is the shared memory of a local instance that
    has to be looked up (on Windows, before the lookup), then the transports the chain comes to (with
    the browser's answer, the cache's or LocalDB's pipe), round after round.  Attempts go through the
    plan in order, as long as each failure may pass; after a failure that is not transient none
    follows, not even a lookup's, and after a route only the attempts at where the routes lead.
    Without a deadline the call gives up only once the plan is through, unless it was cancelled. *)
Theorem attempts_follow_the_plan {W P : Type} `{Dialer W P} (log : W -> list (TransportContext * Verdict))
    `{!LoggedDialer log} `{UnicodeCase} windows hostname c chain diagnosing w cache :
  let local := if windows && requires_ssrp chain then option_list (first_shared_memory_transport chain) else [] in
  let w1 := (shared_memory_first (P := P) windows c chain (login_deadline c w) w).2.2 in
  let transports := found_transports windows hostname c chain diagnosing w1 cache in
  let plan := local ++ concat (replicate (S (Z.to_nat (cc_connect_retry_count c))) transports) in
  let '(r, (w', _)) := execute_action_chain windows hostname c chain diagnosing (w, cache) in
  exists es, log w' = log w ++ es /\ follows plan es /\
    (login_deadline c w = None -> r <> Err (OperationCancelledError "Login has been cancelled.") ->
     Forall (fun e => passing e.2) es -> es.*1 = plan).
Proof.
  intros local w1 transports plan. unfold execute_action_chain.
  pose proof (shared_memory_logs log windows c chain (login_deadline c w) w) as Hs. cbv zeta in Hs. fold local in Hs.
  subst plan transports w1. destruct (shared_memory_first windows c chain (login_deadline c w) w) as [sm [count w1]].
  destruct Hs as (es & Hl & Hf & Hsm). cbn [snd]. destruct sm as [r|].
  { exists es. split_and!; [done|by apply follows_app|]. intros _ _ Hp. by destruct (Hsm Hp). }
  destruct Hsm as (-> & Hp & He). unfold found_transports.
  pose proof (find_instance_logs log windows hostname c chain diagnosing w1 cache ActionContext_new) as Hi.
  assert (forall w2 r (c2 : gmap (list Z) CachedResolution), log w2 = log w1 ->
    let '(_, (w', _)) := ((r : TdsResult (P * ClientContext)), (w2, c2)) in
    exists es, log w' = log w ++ es /\ follows (local ++ concat (replicate (S (Z.to_nat (cc_connect_retry_count c))) [])) es /\
      (login_deadline c w = None -> r <> Err (OperationCancelledError "Login has been cancelled.") ->
       Forall (fun e => passing e.2) es -> es.*1 = local ++ concat (replicate (S (Z.to_nat (cc_connect_retry_count c))) []))) as Hnone.
  { intros w2 r c2 E. exists es. rewrite E, concat_nils, app_nil_r. by split_and!. }
  destruct (find_instance _ _ _ _ _ _) as [[[]| | |] [[w2 cache2] ctx]]; cbn in Hi; try by apply Hnone.
  pose proof (resolved_transports_logs log windows c chain ctx w2) as Hr.
  destruct (resolved_transports windows c chain ctx w2) as [[[[|t ts] c']| | |] w3]; destruct Hr as [Hr Hc'];
    try (apply Hnone; congruence).
  rewrite (Hc' _ _ eq_refl).
  pose proof (retry_loop_logs log c' (t :: ts) (login_deadline c w) (Z.to_nat (cc_connect_retry_count c)) true None w3) as Hloop.
  apply (loop_logs_after log (P := P) _ es _ w) in Hloop; [|congruence|done]. rewrite He in Hloop.
  destruct (retry_loop _ _ _ _ _ _ _ _) as [p [n w4]]. destruct Hloop as (es' & Hl' & Hf' & Ho). exists es'.
  split_and!; [done..|]. intros Hd Hno Hes. destruct p as [r|last]; [by rewrite (Ho Hes) in Hno|by apply Ho].
Qed.

(** ** The instance cache *)

(** Chains made of data sources read a port and a pipe from their own slots only. *)
Lemma chain_transports_proper windows computer_name d timeout_ms ctx ctx' :
  slot_port ResolvedPort ctx = slot_port ResolvedPort ctx' ->
  (windows = true -> slot_pipe_path ResolvedPipePath ctx = slot_pipe_path ResolvedPipePath ctx') ->
  resolve_transport_contexts_with_context windows (to_connection_actions windows computer_name d timeout_ms) ctx =
  resolve_transport_contexts_with_context windows (to_connection_actions windows computer_name d timeout_ms) ctx'.
Proof.
  intros Hport Hpipe. unfold resolve_transport_contexts_with_context, collect_transport_contexts, to_connection_actions.
  cbn [chain_actions]. rewrite !bind_app. f_equal; [by destruct (can_use_cache d)|].
  unfold ssrp_actions, explicit_actions, add_protocol_waterfall.
  destruct windows; [specialize (Hpipe eq_refl)|clear Hpipe];
    repeat (case_match; cbn; rewrite ?bind_app; cbn; rewrite ?Hport; try done;
            try match goal with E : slot_pipe_path _ _ = _ |- _ => by rewrite E end).
Qed.

Section cache.
Context {W P : Type} `{Dialer W P} `{UnicodeCase} (windows : bool) (hostname : option str).

(** What a lookup leaves: a port or, on Windows, a pipe. *)
Lemma store_endpoints_slots infos server ctx ctx' :
  slots ctx = ∅ -> store_endpoints windows hostname infos server ctx = (Ok tt, ctx') ->
  let port := slot_port ResolvedPort ctx' in
  let pipe_path := if windows then slot_pipe_path ResolvedPipePath ctx' else None in
  port <> None \/ pipe_path <> None.
Proof.
  intros He. unfold store_endpoints. cbv zeta. set (port := head _).
  set (pipe := if windows then head _ else None).
  assert (pipe <> None -> windows = true) as Hw by (unfold pipe; by destruct windows). clearbody pipe.
  destruct port as [port|], pipe as [pipe|]; try done; unfold bind, modify, ret, lift;
    try destruct (localize_pipe_path hostname pipe) as [l| | |]; try done; intros [= <-]; destruct ctx as [sl att];
    cbn in He; subst sl; unfold slot_port, slot_pipe_path, get_outcome; cbn; rewrite ?Hw by done;
    [left|left|right]; by simplify_map_eq.
Qed.

Lemma find_query_requires chain q : find_query chain = Some q -> requires_ssrp chain = true.
Proof.
  unfold find_query, requires_ssrp. induction (chain_actions chain) as [|a actions IH]; [done|]. cbn.
  destruct a; cbn; try done; apply IH.
Qed.

Lemma resolve_ssrp_slots chain ms bound w w' ctx' :
  resolve_ssrp windows hostname chain ms bound (w, ActionContext_new) = (Ok tt, (w', ctx')) ->
  slot_port ResolvedPort ctx' <> None \/ (if windows then slot_pipe_path ResolvedPipePath ctx' else None) <> None.
Proof.
  unfold resolve_ssrp. unfold bind at 1. destruct (find_query chain) as [[server instance]|]; [|done].
  cbn [lift]. unfold bind, on_fst. destruct (lookup_instance _ _ _ _ _) as [[[infos|code]|e|x|] w1]; try done.
  unfold on_snd. destruct (store_endpoints _ _ _ _ _) as [[[]| | |] ctx1] eqn:E; intros [= _ <-].
  exact (store_endpoints_slots infos server ActionContext_new ctx1 eq_refl E).
Qed.

(** What a lookup that missed the cache leaves in it. *)
Lemma miss_is_cached c chain server instance w cache w1 cache1 ctx :
  find_query chain = Some (server, instance) -> uses_cache chain = true -> cache_get server instance cache = None ->
  find_instance windows hostname c chain false (w, cache, ActionContext_new) = (Ok tt, (w1, cache1, ctx)) ->
  cache1 !! cache_key server instance =
    Some {| cr_port := slot_port ResolvedPort ctx;
            cr_pipe_path := if windows then slot_pipe_path ResolvedPipePath ctx else None |}.
Proof.
  intros Hq Hu Hm. unfold find_instance. rewrite (find_query_requires _ _ Hq), Hq. unfold resolve_instance.
  rewrite Hu, Hm. cbn [andb negb]. destruct (resolve_ssrp _ _ _ _ _ _) as [[[]| | |] [w2 ctx2]] eqn:E; [|done..].
  apply resolve_ssrp_slots in E. intros [= _ <- <-]. unfold cache_insert.
  destruct (slot_port ResolvedPort ctx2), (if windows then _ else None);
    [by rewrite lookup_insert_eq..|by destruct E].
Qed.

Lemma cache_hit_slots port pipe_path :
  slot_port ResolvedPort (store_outcome (CacheHit PT_Tcp port pipe_path) ActionContext_new) = port /\
  slot_pipe_path ResolvedPipePath (store_outcome (CacheHit PT_Tcp port pipe_path) ActionContext_new) = pipe_path.
Proof.
  unfold slot_port, slot_pipe_path, get_outcome. destruct port, pipe_path; cbn; split; by simplify_map_eq.
Qed.
End cache.

(** C20: What the browser said is remembered.  After a connection through the cache that had to look an
    instance up, a connection through the cache to the same instance, however its names are cased, asks nobody: its lookup leaves the
    world and the cache as they are, and gives the transports the browser's answer gives. *)
Theorem lookup_is_remembered {W P : Type} `{Dialer W P} `{UnicodeCase} windows hostname computer_name
    c chain server instance w cache w1 cache1 ctx c' d timeout_ms server' instance' w2 :
  let chain' := to_connection_actions windows computer_name d timeout_ms in
  find_query chain = Some (server, instance) -> uses_cache chain = true -> cache_get server instance cache = None ->
  find_instance windows hostname c chain false (w, cache, ActionContext_new) = (Ok tt, (w1, cache1, ctx)) ->
  find_query chain' = Some (server', instance') -> uses_cache chain' = true ->
  to_lowercase server' = to_lowercase server -> to_lowercase instance' = to_lowercase instance ->
  exists ctx',
    find_instance windows hostname c' chain' false (w2, cache1, ActionContext_new) = (Ok tt, (w2, cache1, ctx')) /\
    resolve_transport_contexts_with_context windows chain' ctx' = resolve_transport_contexts_with_context windows chain' ctx.
Proof.
  intros chain' Hq Hu Hm Hf Hq' Hu' Hs Hi. eapply miss_is_cached in Hf; [|done..].
  unfold find_instance. rewrite (find_query_requires _ _ Hq'), Hq'. unfold resolve_instance. rewrite Hu'. cbn [andb negb].
  unfold cache_get, cache_key in *. rewrite Hs, Hi, Hf. eexists. split; [done|].
  pose proof (cache_hit_slots (slot_port ResolvedPort ctx) (if windows then slot_pipe_path ResolvedPipePath ctx else None))
    as [Hport Hpipe].
  apply chain_transports_proper; cbn [cr_port cr_pipe_path]; [done|]. intros Hw. rewrite Hw in Hpipe |- *. exact Hpipe.
Qed.

Lemma find_instance_keeps {W P : Type} `{Dialer W P} `{UnicodeCase} windows hostname c chain diagnosing s key entry :
  s.1.2 !! key = Some entry -> (find_instance windows hostname c chain diagnosing s).2.1.2 !! key = Some entry.
Proof.
  destruct s as [[w cache] ctx]. cbn. intros Hk. unfold find_instance, resolve_instance.
  destruct (requires_ssrp chain); [|done]. destruct (find_query chain) as [[server instance]|]; [|done].
  destruct (resolve_ssrp _ _ _ _ _ _) as [r [w1 ctx1]]. destruct (_ && _); [|done].
  destruct (cache_get server instance cache) eqn:Eg; [done|]. destruct r; [|done..]. cbn.
  unfold cache_get in Eg. assert (cache_key server instance <> key) as Hne by congruence.
  destruct (slot_port _ _), (if windows then _ else _); try done; unfold cache_insert; by rewrite lookup_insert_ne.
Qed.

(** What was cached once stays cached.  No connection attempt changes or removes an entry of the
    instance cache, not even one that failed with the endpoint the cache gave: the process keeps
    dialling a port the instance no longer listens on. *)
Theorem cached_endpoint_is_kept {W P : Type} `{Dialer W P} `{UnicodeCase} windows hostname c chain diagnosing w cache
    key entry :
  cache !! key = Some entry ->
  (execute_action_chain (P := P) windows hostname c chain diagnosing (w, cache)).2.2 !! key = Some entry.
Proof.
  intros Hk. unfold execute_action_chain.
  destruct (shared_memory_first _ _ _ _ _) as [[r|] [count w1]]; [done|].
  pose proof (find_instance_keeps windows hostname c chain diagnosing (w1, cache, ActionContext_new) key entry Hk) as Hf.
  destruct (find_instance _ _ _ _ _ _) as [[[]| | |] [[w2 cache2] ctx]]; try done.
  destruct (resolved_transports _ _ _ _ _) as [[[[|t ts] c']| | |] w3]; try done.
  by destruct (retry_loop _ _ _ _ _ _ _ _) as [p [count' w4]].
Qed.

(** A step that neither reads nor writes the cache. *)
Definition ignores_cache {W A} (m : M (W * InstanceCache) A) : Prop :=
  forall w, exists r w', forall cache, m (w, cache) = (r, (w', cache)).

Lemma diagnosis_ignores_cache {W P : Type} `{Dialer W P} `{UnicodeCase} windows hostname c chain :
  ignores_cache (execute_action_chain (P := P) windows hostname c chain true).
Proof.
  intros w. unfold execute_action_chain.
  destruct (shared_memory_first _ _ _ _ _) as [[r|] [count w1]]; [by eauto|].
  assert (exists r w2 ctx, forall cache, find_instance windows hostname c chain true (w1, cache, ActionContext_new) =
    (r, (w2, cache, ctx))) as (r & w2 & ctx & Hf).
  { unfold find_instance, resolve_instance. destruct (requires_ssrp chain); [|by eauto].
    destruct (find_query chain) as [[server instance]|]; [|by eauto]. rewrite andb_false_r.
    destruct (resolve_ssrp _ _ _ _ _ _) as [r [w2 ctx]]. by eauto. }
  destruct r as [[]| | |]; [|do 2 eexists; intros cache; by rewrite Hf..].
  destruct (resolved_transports windows c chain ctx w2) as [[[[|t ts] c']| | |] w3] eqn:Et;
    [do 2 eexists; intros cache; by rewrite Hf, Et| |do 2 eexists; intros cache; by rewrite Hf, Et..].
  destruct (retry_loop c' (t :: ts) (login_deadline c w) (Z.to_nat (cc_connect_retry_count c')) true count None w3)
    as [p [count' w4]] eqn:Er.
  do 2 eexists. intros cache. by rewrite Hf, Et, Er.
Qed.

(** A diagnostic attempt leaves the instance cache alone: what it returns does not depend on the
    cache, and the cache is afterwards what it was. *)
Theorem diagnosis_leaves_cache {W P : Type} `{Dialer W P} `{UnicodeCase} windows hostname computer_name environment
    c datasource stop_after defaults w :
  exists r defaults' w', forall cache,
    diagnose_client (P := P) windows hostname computer_name environment c datasource stop_after (defaults, (w, cache)) =
    (r, (defaults', (w', cache))).
Proof.
  unfold diagnose_client, with_chain. destruct (action_chain _ _ _ _ _) as [[chain| | |] [c1 defaults1]]; [|by eauto..].
  destruct (diagnosis_ignores_cache (P := P) windows hostname c1 chain w) as (r & w' & He).
  destruct stop_after as [[]|], (cc_resolved_multi_subnet_failover c1) as [[[] source why]|];
    first [by eauto | do 3 eexists; intros cache; by rewrite He].
Qed.

(** ** The endpoint of a data source *)

Lemma store_datasource_inv `{UnicodeCase} windows datasource d c u c' :
  store_datasource windows datasource d c = (Ok u, c') -> from_parsed_datasource windows d = Ok (cc_transport_context c').
Proof.
  unfold store_datasource, bind, lift, modify, ret. destruct (from_parsed_datasource windows d) as [t| | |]; try done.
  destruct (is_empty (ds_instance_name d)); intros [= _ <-]; by destruct c.
Qed.

Lemma prepare_inv `{UnicodeCase} windows computer_name environment datasource s d c' defaults' :
  prepare_datasource windows computer_name environment datasource s = (Ok d, (c', defaults')) ->
  (exists parallel, parse windows computer_name datasource parallel = Ok d) /\
  from_parsed_datasource windows d = Ok (cc_transport_context c').
Proof.
  destruct s as [c defaults]. unfold prepare_datasource, bind, lift, gets, on_snd, on_fst, ret, modify.
  destruct (parse _ _ _ false) as [d0| | |] eqn:E0; try done.
  destruct (prepare_policy _ _ _ _ _ _) as [[policy| | |] defaults1]; try done.
  assert (forall d1 parallel, parse windows computer_name datasource parallel = Ok d1 ->
    forall x y, store_datasource windows datasource d1 c = (Ok x, y) ->
    (Ok d1, (y {{ cc_resolved_multi_subnet_failover := Some policy }}, defaults1)) = (Ok d, (c', defaults')) ->
    (exists parallel, parse windows computer_name datasource parallel = Ok d) /\
    from_parsed_datasource windows d = Ok (cc_transport_context c')) as Hend.
  { intros d1 parallel Hp x y Hs [= <- <- _]. split; [by eexists|].
    apply store_datasource_inv in Hs. rewrite Hs. by destruct y. }
  destruct (enabled policy); [destruct (parse _ _ _ true) as [d1| | |] eqn:E1; try done|];
    (destruct (store_datasource _ _ _ _) as [[x| | |] y] eqn:Es; [|done..]; by eapply Hend).
Qed.

(** Decides in the goal the tests of a protocol that is known. *)
Ltac decide_protocol :=
  repeat match goal with
  | |- context [one_of ?l (lit ?x)] =>
      let b := eval vm_compute in (one_of l (lit x)) in change (one_of l (lit x)) with b
  | |- context [is_empty (lit ?x)] =>
      let b := eval vm_compute in (is_empty (lit x)) in change (is_empty (lit x)) with b
  end; cbn [negb andb orb].

Section endpoint.
Context `{UnicodeCase} (windows : bool) (computer_name : option str).

(** The transports of a source, without the actions that have none. *)
Lemma source_transports d timeout_ms ctx :
  resolve_transport_contexts_with_context windows (to_connection_actions windows computer_name d timeout_ms) ctx =
  (if windows && one_of ["localdb"] (protocol_name d) then [ConnectNamedPipeFromSlot ResolvedPipePath timeout_ms]
   else if needs_ssrp d then ssrp_actions windows computer_name d timeout_ms
   else if negb (is_empty (protocol_name d)) then explicit_actions windows computer_name d timeout_ms
   else if parallel_connect d then [ConnectTcp (ds_server_name d) (default_port d) timeout_ms]
   else [add_protocol_waterfall windows (ds_server_name d) (ds_is_local computer_name d) timeout_ms])
  ≫= action_transports windows ctx.
Proof.
  unfold resolve_transport_contexts_with_context, collect_transport_contexts, to_connection_actions.
  cbn [chain_actions]. rewrite bind_app.
  assert ((if can_use_cache d then [CheckCache (alias d)] else []) ≫= action_transports windows ctx = []) as ->
    by by destruct (can_use_cache d).
  by destruct (_ && _).
Qed.

Lemma explicit_endpoint d timeout_ms ctx t :
  source_ok windows d -> from_parsed_datasource windows d = Ok t ->
  one_of ["tcp"; "lpc"; "admin"] (protocol_name d) \/ protocol_name d = lit "np" /\ protocol_parameter d <> [] ->
  (explicit_actions windows computer_name d timeout_ms ≫= action_transports windows ctx).*1 = [t].
Proof.
  intros Hok Ht Hp. revert Ht. unfold from_parsed_datasource, explicit_actions, get_protocol_type, default_port.
  destruct Hp as [Hp|[Hp Hparam]].
  - pose proof (so_platform _ _ Hok) as Hw. by_protocol Hp; decide_protocol.
    + destruct (is_empty (protocol_parameter d)) eqn:E.
      * destruct (protocol_parameter d); [|done]. cbn. by intros [= <-].
      * destruct (parse_u16 _); cbn; by intros [= <-].
    + destruct windows; [cbn; by intros [= <-]|]. by specialize (Hw eq_refl).
    + cbn. by intros [= <-].
  - rewrite Hp. decide_protocol. destruct (protocol_parameter d); [done|]. cbn. by intros [= <-].
Qed.
Lemma plain_endpoint d timeout_ms ctx t :
  source_ok windows d -> from_parsed_datasource windows d = Ok t -> protocol_name d = lit "" -> needs_ssrp d = false ->
  t ∈ (resolve_transport_contexts_with_context windows
         (to_connection_actions windows computer_name d timeout_ms) ctx).*1.
Proof.
  intros Hok Ht Hp Hn. rewrite source_transports, Hn. revert Ht. unfold from_parsed_datasource, get_protocol_type.
  pose proof (so_parallel _ _ Hok) as Hpar. rewrite Hp in Hpar |- *. decide_protocol.
  rewrite andb_false_r. intros [= <-]. destruct (parallel_connect d); [by specialize (Hpar I)|].
  unfold add_protocol_waterfall. destruct windows, (ds_is_local computer_name d); cbn; set_solver.
Qed.

Lemma source_has_transport d timeout_ms ctx :
  source_ok windows d -> protocol_name d <> lit "localdb" ->
  (needs_ssrp d = true -> slot_port ResolvedPort ctx <> None) ->
  (resolve_transport_contexts_with_context windows
     (to_connection_actions windows computer_name d timeout_ms) ctx).*1 <> [].
Proof.
  intros Hok Hl Hs. rewrite source_transports.
  pose proof (so_protocol _ _ Hok) as Hp. pose proof (so_platform _ _ Hok) as Hw.
  unfold ssrp_actions, explicit_actions, get_protocol_type, add_protocol_waterfall.
  destruct (needs_ssrp d); [specialize (Hs eq_refl); destruct (slot_port ResolvedPort ctx) as [port|] eqn:Eport; [clear Hs|done]|];
    by_protocol Hp; decide_protocol; destruct windows; cbn [negb andb orb]; try (by specialize (Hw eq_refl)).
  all: destruct (ds_is_local computer_name d), (can_use_cache d), (parallel_connect d),
         (slot_pipe_path ResolvedPipePath ctx) eqn:Epipe; cbn; by rewrite ?Eport, ?Epipe.
Qed.
End endpoint.

(** What a lookup changes: the port of the answer is dialled, not the stored one. *)
Lemma looked_up_endpoint `{UnicodeCase} windows computer_name d timeout_ms ctx
    (transports := (resolve_transport_contexts_with_context windows
                      (to_connection_actions windows computer_name d timeout_ms) ctx).*1)
    (tcp := (fun port => Tcp (ds_server_name d) port None) <$> slot_port ResolvedPort ctx) :
  needs_ssrp d = true ->
  (protocol_name d = lit "tcp" -> transports = option_list tcp) /\
  (protocol_name d = lit "" -> forall t, tcp = Some t -> t ∈ transports).
Proof.
  intros Hn. subst transports tcp. rewrite source_transports, Hn. unfold ssrp_actions.
  split; intros ->; decide_protocol; rewrite !andb_false_r || rewrite !andb_true_r; cbn [andb].
  - destruct (can_use_cache d), (slot_port ResolvedPort ctx) eqn:E; cbn; by rewrite E.
  - intros t. destruct (slot_port ResolvedPort ctx) as [port|] eqn:E; cbn [fmap option_fmap option_map]; [|done]. intros [= <-].
    destruct windows, (ds_is_local computer_name d), (can_use_cache d); cbn; rewrite ?E; cbn; set_solver.
Qed.

(** The pipes nothing is stored of. *)
Lemma implied_pipe `{UnicodeCase} windows computer_name d timeout_ms ctx
    (transports := (resolve_transport_contexts_with_context windows
                      (to_connection_actions windows computer_name d timeout_ms) ctx).*1) :
  (needs_ssrp d = false -> protocol_name d = lit "np" -> protocol_parameter d = [] ->
   transports = [NamedPipe (default_pipe_path computer_name d)]) /\
  (windows = true -> protocol_name d = lit "localdb" ->
   transports = option_list (NamedPipe <$> slot_pipe_path ResolvedPipePath ctx)).
Proof.
  subst transports. split.
  - intros Hn Hp Hparam. rewrite source_transports, Hn. unfold explicit_actions, get_protocol_type. rewrite Hp, Hparam. decide_protocol.
    by rewrite andb_false_r.
  - intros -> Hp. rewrite source_transports, Hp. decide_protocol. cbn. by destruct (slot_pipe_path ResolvedPipePath ctx).
Qed.

(** C21: Which endpoints a data source dials.  For a source that preparing accepts: without a lookup,
    tcp:, lpc:, admin: and np: with a pipe path have one transport, the endpoint stored in the context;
    np: without a path has one, the default pipe of the source; and without a protocol the stored
    endpoint is among those tried.  With a lookup, tcp: has one transport, the port the lookup stored on
    the server of the source, and none when it stored none, and without a protocol that port is among
    those tried.  A localdb source has the pipe that resolving it stored.  Any accepted source but a
    localdb one has a transport, given a port from the lookup if it needs one. *)
Theorem accepted_source_is_dialled `{UnicodeCase} windows computer_name environment datasource s d c' defaults'
    timeout_ms ctx :
  prepare_datasource windows computer_name environment datasource s = (Ok d, (c', defaults')) ->
  let transports := (resolve_transport_contexts_with_context windows
                       (to_connection_actions windows computer_name d timeout_ms) ctx).*1 in
  let looked_up := (fun port => Tcp (ds_server_name d) port None) <$> slot_port ResolvedPort ctx in
  (needs_ssrp d = false ->
   (one_of ["tcp"; "lpc"; "admin"] (protocol_name d) \/ protocol_name d = lit "np" /\ protocol_parameter d <> [] ->
    transports = [cc_transport_context c']) /\
   (protocol_name d = lit "np" -> protocol_parameter d = [] -> transports = [NamedPipe (default_pipe_path computer_name d)]) /\
   (protocol_name d = lit "" -> cc_transport_context c' ∈ transports)) /\
  (needs_ssrp d = true ->
   (protocol_name d = lit "tcp" -> transports = option_list looked_up) /\
   (protocol_name d = lit "" -> forall t, looked_up = Some t -> t ∈ transports)) /\
  (windows = true -> protocol_name d = lit "localdb" ->
   transports = option_list (NamedPipe <$> slot_pipe_path ResolvedPipePath ctx)) /\
  (protocol_name d <> lit "localdb" -> (needs_ssrp d = true -> slot_port ResolvedPort ctx <> None) -> transports <> []).
Proof.
  intros ((parallel & Hp) & Ht)%prepare_inv. apply parsed_source_is_ok in Hp. cbv zeta.
  destruct (implied_pipe windows computer_name d timeout_ms ctx) as [Hnp Hldb].
  split_and!; [intros Hn; split_and!| |done|by apply source_has_transport].
  - intros Hs. rewrite source_transports, Hn.
    assert (one_of ["localdb"] (protocol_name d) = false /\ is_empty (protocol_name d) = false) as [-> ->]
      by (destruct Hs as [Hs|[Hs _]]; [by by_protocol Hs|by rewrite Hs]).
    rewrite andb_false_r. by apply explicit_endpoint.
  - by apply Hnp.
  - intros Hs. by apply plain_endpoint.
  - apply looked_up_endpoint.
Qed.

(** ** A scripted dialer *)

(** Attempts are answered from a list, then refused; the browser knows one instance. *)
Record Script := {
  sc_answers : list (nat + Error);
  sc_log : list (TransportContext * Verdict);
  sc_browser : list SsrpInstanceInfo;
}.

Definition script_connect (t : TransportContext) : M Script nat := fun s =>
  let '(answer, rest) := match sc_answers s with
                         | a :: rest => (match a with inl p => Ok p | inr e => Err e end, rest)
                         | [] => (Err (ConnectionError "refused"), [])
                         end in
  (answer, {| sc_answers := rest; sc_log := sc_log s ++ [(t, verdict answer)]; sc_browser := sc_browser s |}).

#[local] Instance script_dialer : Dialer Script nat := {|
  clock _ := 0;
  sleep _ s := s;
  timeout _ m s := match m s with
                   | (Ok p, s) => (Ok (Some p), s)
                   | (Err e, s) => (Err e, s)
                   | (Panic x, s) => (Panic x, s)
                   | (OutOfFuel, s) => (OutOfFuel, s)
                   end;
  connect_with_transport_context _ t := script_connect t;
  lookup_instance _ _ _ _ := gets (fun s => inl (sc_browser s));
  resolve_localdb_instance _ := throw (ConnectionError "no LocalDB");
  cancel_requested _ := false;
  diagnosis_stopped _ := false;
  finish_extra_connects _ s := s;
|}.

#[local] Instance script_logged : LoggedDialer sc_log.
Proof.
  constructor; try done; intros; destruct w as [[|[p|e] rest] l browser]; done.
Qed.

#[local] Instance script_counted : CountedDialer (fun s => length (sc_log s)).
Proof.
  constructor; try done; intros; destruct w as [[|[p|e] rest] l b]; cbn;
    rewrite ?length_app; cbn; try done; lia.
Qed.

#[local, program] Instance ascii_case : UnicodeCase := {| to_lowercase s := to_ascii_lowercase s |}.
Next Obligation. done. Qed.

(** A server that sends the first attempt away and then routes it to a replica. *)
Definition routing_script : Script := {|
  sc_answers := [inr (ConnectionError "refused"); inr (Redirection (lit "replica") 1500 None); inl 7%nat];
  sc_log := [];
  sc_browser := [{| si_instance_name := lit "INST"; si_protocol := lit "tcp"; si_tcp_port := Some 49152; si_pipe_path := None |}];
|}.

Definition patient : ClientContext := sample_settings {{ cc_connect_timeout := 0 }}.

Definition tcp_source : ParsedDataSource := ok_value (parse false None (lit "tcp:db,1444") false).
Definition instance_source : ParsedDataSource := ok_value (parse false None (lit "db\INST") false).
Definition tcp_chain : ConnectionActionChain := to_connection_actions false None tcp_source 15000.
Definition instance_chain : ConnectionActionChain := to_connection_actions false None instance_source 15000.

Lemma connect_is_bounded_witness :
  let '(r, (w', _)) := execute_action_chain false None patient tcp_chain false (routing_script, ∅) in
  fst <$> (match r with Ok x => Some x | _ => None end) = Some 7%nat /\
  sc_log w' = [(Tcp (lit "db") 1444 None, Fails (ConnectionError "refused"));
               (Tcp (lit "db") 1444 None, Fails (Redirection (lit "replica") 1500 None));
               (from_routing_token (lit "replica") 1500, Connects)] /\
  (length (sc_log w') <= 17)%nat.
Proof.
  pose proof (connect_is_bounded (fun s => length (sc_log s)) false None None patient tcp_source 15000 false
    routing_script ∅) as Hb. fold tcp_chain in Hb.
  destruct (execute_action_chain false None patient tcp_chain false (routing_script, ∅)) as [r [w' cache]] eqn:E.
  destruct Hb as [_ Hb]. vm_compute in E. injection E as <- <- <-. split_and!; [done|done|exact Hb].
Defined.

(** An instance of this machine, on Windows: shared memory, then what the browser tells. *)
Definition local_source : ParsedDataSource := ok_value (parse true (Some (lit "me")) (lit ".\INST") false).
Definition local_chain : ConnectionActionChain := to_connection_actions true (Some (lit "me")) local_source 15000.

Lemma attempts_follow_the_plan_witness :
  let sm := SharedMemory (lit "INST") in
  let tcp := Tcp (lit "localhost") 49152 None in
  let log := sc_log (execute_action_chain true None patient local_chain false (routing_script, ∅)).2.1 in
  log.*1 = [sm; sm; from_routing_token (lit "replica") 1500] /\ follows [sm; sm; tcp; sm; tcp] log.
Proof.
  split; [by vm_compute|].
  pose proof (attempts_follow_the_plan sc_log true None patient local_chain false routing_script ∅) as Hp. cbv zeta in Hp.
  match type of Hp with context [follows ?p _] => assert (p = [SharedMemory (lit "INST"); SharedMemory (lit "INST");
    Tcp (lit "localhost") 49152 None; SharedMemory (lit "INST"); Tcp (lit "localhost") 49152 None]) as E by (by vm_compute);
    rewrite E in Hp; clear E end.
  destruct (execute_action_chain true None patient local_chain false (routing_script, ∅)) as [r [w' cache]].
  destruct Hp as (es & Hl & Hf & _). cbn [snd fst]. by rewrite Hl.
Defined.

Definition upper_source : ParsedDataSource := ok_value (parse false None (lit "DB\inst") false).

Definition upper_chain : ConnectionActionChain := to_connection_actions false None upper_source 15000.

(** The state after the browser was asked. *)
Definition found := snd (find_instance false None patient instance_chain false (routing_script, ∅, ActionContext_new)).

Lemma lookup_is_remembered_witness :
  exists ctx',
    find_instance false None patient upper_chain false (routing_script, found.1.2, ActionContext_new) =
      (Ok tt, (routing_script, found.1.2, ctx')) /\
    (resolve_transport_contexts_with_context false upper_chain ctx').*1 = [Tcp (lit "DB") 49152 None].
Proof.
  destruct (lookup_is_remembered false None None patient instance_chain (lit "db") (lit "INST") routing_script ∅
    found.1.1 found.1.2 found.2 patient upper_source 15000 (lit "DB") (lit "inst") routing_script) as (ctx' & Hf & Hr);
    [by vm_compute..|].
  exists ctx'. split; [exact Hf|]. fold upper_chain in Hr. rewrite Hr. by vm_compute.
Defined.

Lemma accepted_source_is_dialled_witness :
  exists d c' defaults,
    prepare_datasource false None None (lit "tcp:db,1444") (patient, Defaults_initial) = (Ok d, (c', defaults)) /\
    (resolve_transport_contexts_with_context false (to_connection_actions false None d 15000) ActionContext_new).*1 =
      [cc_transport_context c'].
Proof.
  do 3 eexists.
  assert (prepare_datasource false None None (lit "tcp:db,1444") (patient, Defaults_initial) = (Ok _, (_, _))) as E
    by (vm_compute; reflexivity).
  split; [exact E|]. exact (proj1 (proj1 (accepted_source_is_dialled _ _ _ _ _ _ _ _ 15000 ActionContext_new E) eq_refl) (or_introl I)).
Defined.

Lemma cached_endpoint_is_kept_witness :
  (execute_action_chain false None patient instance_chain false (routing_script, found.1.2)).2.2 !!
    cache_key (lit "db") (lit "INST") = Some {| cr_port := Some 49152; cr_pipe_path := None |}.
Proof. apply cached_endpoint_is_kept. by vm_compute. Defined.
