(* ===== verification/SessionHandler.v ===== *)
(** * Logging in (src/mssql-tds/src/handler/handler_factory.rs, handler/sspi_handler.rs)

    The handlers that open a session on a transport: PRELOGIN and the choice of encryption, LOGIN7
    with the rounds of integrated or federated authentication, and what the server's answers make
    of the session.  The transport, the security context and the token provider are interfaces. *)

From stdpp Require Import strings gmap.
From S2P Require Import Prelude Core Unicode Text Tokens Prelogin Session SessionRecovery ClientContext HostPolicy Features Login LoginResponse.

(** ** Integrated authentication *)

(** The trait [SecurityContext]: a token for the server's, and whether it is the last. *)
Class SecurityContext (C : Type) := { generate_token : option bytes -> M C (bytes * bool) }.

Inductive SspiAuthState := Sspi_Initial | Sspi_WaitingForChallenge | Sspi_SendingResponse | Sspi_Complete | Sspi_Failed.

#[global] Instance SspiAuthState_eq : EqDecision SspiAuthState.
Proof. solve_decision. Defined.

Record SspiAuthHandler (C : Type) := { security_context : C; sspi_state : SspiAuthState }.
Arguments security_context {C}.
Arguments sspi_state {C}.

#[export] Instance SspiAuthHandler_eta {C} : Eta (SspiAuthHandler C) := fun h =>
  Build_SspiAuthHandler C (security_context h) (sspi_state h).

Section sspi.
Context {C : Type} `{SecurityContext C}.

Definition on_context {A} (m : M C A) : M (SspiAuthHandler C) A := fun h =>
  let '(r, c) := m (security_context h) in (r, h {{ security_context := c }}).

Definition set_sspi_state (s : SspiAuthState) : M (SspiAuthHandler C) unit := modify (fun h => h {{ sspi_state := s }}).

(** [get_initial_token]. *)
Definition get_initial_token : M (SspiAuthHandler C) bytes :=
  state <- gets sspi_state ;;
  if decide (state = Sspi_Initial) then
    '(data, is_complete) <- on_context (generate_token None) ;;
    set_sspi_state (if is_complete : bool then Sspi_Complete else Sspi_WaitingForChallenge) ;;
    ret data
  else throw (Security "get_initial_token called in wrong state").

(** The rest of [process_challenge] in the states that wait for a challenge. *)
Definition answer_challenge (challenge : bytes) : M (SspiAuthHandler C) (option bytes) := fun h =>
  match on_context (generate_token (Some challenge)) (h {{ sspi_state := Sspi_SendingResponse }}) with
  | (Ok (data, is_complete), h) =>
      if is_complete : bool then
        (Ok (match data with [] => None | _ => Some data end), h {{ sspi_state := Sspi_Complete }})
      else (Ok (Some data), h)
  | (Err e, h) => (Err e, h {{ sspi_state := Sspi_Failed }})
  | (Panic x, h) => (Panic x, h)
  | (OutOfFuel, h) => (OutOfFuel, h)
  end.

Definition process_challenge (challenge : bytes) : M (SspiAuthHandler C) (option bytes) :=
  state <- gets sspi_state ;;
  match state with
  | Sspi_WaitingForChallenge | Sspi_SendingResponse => answer_challenge challenge
  | Sspi_Complete => ret None
  | Sspi_Initial => throw (Security "process_challenge called before get_initial_token")
  | Sspi_Failed => throw (Security "Authentication already failed")
  end.
End sspi.

(** ** What surrounds the handlers *)

(** The messages of a login. *)
Inductive Outgoing :=
  | O_PreLogin (m : PreloginRequestModel)
  | O_Login7 (m : LoginRequestModel)
  | O_Sspi (token_data : bytes)
  | O_FedAuth (access_token_bytes : bytes).

Definition outgoing_type (o : Outgoing) : PacketType :=
  match o with O_PreLogin _ => PreLogin | O_Login7 _ => Login7 | O_Sspi _ => Core.SSPI | O_FedAuth _ => FedAuthToken end.

(** The traits [NetworkReaderWriter] and [TdsTokenStreamReader] as the handlers use them.  [transmit]
    creates a packet writer and serializes a message to it; the reads are
    [PreloginResponse::deserialize] and [LoginResponse::deserialize]. *)
Class ReaderWriter (W C : Type) := {
  rw_encryption_setting : W -> NegotiatedEncryptionSetting;
  notify_encryption_setting_change : NegotiatedEncryptionSetting -> M W unit;
  rw_session_setting_change : SessionSettings -> W -> W;
  enable_ssl : M W unit;
  channel_binding_token : W -> option bytes;
  transmit : Outgoing -> M W unit;
  read_prelogin_response : M W PreloginResponseModel;
  read_login_response : gmap FeatureExtension AnyFeature -> M W LoginResponseModel;
  new_v4 : M W bytes;
  next_request_count : M W Z;
  create_security_context : ClientContext -> TransportContext -> option bytes -> M W C;
  create_token : ClientContext -> str -> str -> M W bytes;
}.

Record HandlerFactory := {
  hf_context : ClientContext;
  hf_recovery_data : option SessionRecoveryData;
  hf_dns_resolution : option Resolution;
}.

Record PreloginResult := {
  client_connection_id : bytes;
  pr_encryption_setting : NegotiatedEncryptionSetting;
  is_fed_auth_supported : bool;
}.

Record LoginResult := {
  lres_supported_features : list AnyFeature;
  lres_change_properties : EnvChangeProperties;
  status : LoginResponseStatus;
  login_ack : option LoginAckToken;
  lres_errors : list ServerMessage;
  lres_info_messages : list ServerMessage;
  lres_session_state_tokens : list SessionStateToken;
}.

Section handlers.
Context {W C : Type} `{ReaderWriter W C} `{SecurityContext C} `{HashOrder}.
Context (env_info : SystemEnvironmentInfo) (factory : HandlerFactory).

(** ** PRELOGIN *)

(** The encryption that the client's setting and the server's answer come to. *)
Definition negotiate_encryption (client : EncryptionSetting) (server : EncryptionType)
    : TdsResult NegotiatedEncryptionSetting :=
  match client with
  | Strict => Ok NStrict
  | _ =>
      match server with
      | ET_Off =>
          match client with
          | PreferOff => Ok LoginOnly
          | _ => Err (ProtocolError "Server disallowed encryption but client requires it")
          end
      | ET_NotSupported =>
          match client with
          | PreferOff => Ok NoEncryption
          | _ => Err (ProtocolError "Server does not support encryption but client requires it")
          end
      | _ => Ok Mandatory
      end
  end.

(** [PreloginHandler::execute]. *)
Definition PreloginHandler_execute : M W PreloginResult :=
  let c := hf_context factory in
  id <- new_v4 ;;
  activity_id <- new_v4 ;;
  request_count <- next_request_count ;;
  let request := fst (PreloginRequestModel_new id activity_id (Some (cc_mars_enabled c)) (Some (cc_encryption_mode c))
                        (Some (cc_database_instance c)) (cc_driver_version c) request_count) in
  transmit (O_PreLogin request) ;;
  response <- read_prelogin_response ;;
  if rq_mars_enabled request && negb (mars_enabled response) then
    throw (ProtocolError "Server does not support MARS (Multiple Active Result Sets)")
  else
    setting <- lift (negotiate_encryption (encryption_setting request) (encryption response)) ;;
    ret {| client_connection_id := id;
           pr_encryption_setting := setting;
           is_fed_auth_supported := federated_auth_supported response |}.

(** ** LOGIN7 *)

(** [send_login7_request]: the features asked for, and the handler of integrated authentication. *)
Definition send_login7_request (prelogin_fedauth_supported : bool) (t : TransportContext)
    : M W (gmap FeatureExtension AnyFeature * option (SspiAuthHandler C)) :=
  let c := hf_context factory in
  '(sspi_token, sspi_handler) <-
    (if integrated_security c then
       binding <- gets channel_binding_token ;;
       context <- create_security_context c t binding ;;
       let '(r, handler) := get_initial_token {| security_context := context; sspi_state := Sspi_Initial |} in
       token <- lift r ;;
       ret (Some token, Some handler)
     else ret (None, None)) ;;
  request <- lift match sspi_token with
                  | Some token => from_context_with_sspi env_info c prelogin_fedauth_supported t token (hf_recovery_data factory)
                  | None => from_context env_info c prelogin_fedauth_supported t (hf_recovery_data factory)
                  end ;;
  let request := match hf_dns_resolution factory with
                 | Some resolution => request {{ features_request ::= bind_dns_caching resolution }}
                 | None => request
                 end in
  transmit (O_Login7 request) ;;
  ret (features_request request, sspi_handler).

(** The next answer, after what was said so far; its messages join the earlier ones. *)
Definition next_response (requested : gmap FeatureExtension AnyFeature) (info : list ServerMessage)
    : M W (LoginResponseModel * list ServerMessage) :=
  response <- read_login_response requested ;;
  ret (response {{ info_messages := [] }}, info ++ info_messages response).

(** One round of integrated authentication; the handler is given up when its challenge fails. *)
Definition sspi_round (requested : gmap FeatureExtension AnyFeature) (handler : option (SspiAuthHandler C))
    (response : LoginResponseModel) (info : list ServerMessage)
    : M W (LoginResponseModel * list ServerMessage * SspiAuthHandler C) :=
  challenge <- lift match lrm_sspi_token response with
                    | Some challenge => Ok challenge
                    | None => Err (ProtocolError "Login response status is WaitingForSspi but no sspi_token present")
                    end ;;
  handler <- lift match handler with
                  | Some handler => Ok handler
                  | None => Err (ProtocolError "Received SSPI challenge but no SSPI handler available")
                  end ;;
  let '(r, handler) := process_challenge challenge handler in
  response_opt <- lift r ;;
  match response_opt with
  | Some response_token => transmit (O_Sspi response_token)
  | None => ret tt
  end ;;
  '(response, info) <- next_response requested info ;;
  ret (response, info, handler).

(** The rounds, as long as the server sends challenges. *)
Fixpoint sspi_rounds (fuel : nat) (requested : gmap FeatureExtension AnyFeature) (handler : option (SspiAuthHandler C))
    (response : LoginResponseModel) (info : list ServerMessage) : M W (LoginResponseModel * list ServerMessage) :=
  match get_status response with
  | LS_WaitingForSspi =>
      match fuel with
      | O => out_of_fuel
      | S fuel =>
          '(response, info, handler) <- sspi_round requested handler response info ;;
          sspi_rounds fuel requested (Some handler) response info
      end
  | _ => ret (response, info)
  end.

(** The answer to a request for a token. *)
Definition fed_auth_round (requested : gmap FeatureExtension AnyFeature) (response : LoginResponseModel)
    (info : list ServerMessage) : M W (LoginResponseModel * list ServerMessage) :=
  match get_status response with
  | LS_WaitingForFedAuth =>
      fed_auth_info <- lift match fed_auth_info response with
                            | Some i => Ok i
                            | None => Err (ProtocolError "Login response status is WaitingForFedAuth but no fed_auth_info present. Protocol error.")
                            end ;;
      token <- create_token (hf_context factory) (spn fed_auth_info) (sts_url fed_auth_info) ;;
      transmit (O_FedAuth token) ;;
      next_response requested info
  | _ => ret (response, info)
  end.

(** [get_acknowledged_features]. *)
Definition get_acknowledged_features (fs : gmap FeatureExtension AnyFeature) : list AnyFeature :=
  filter (fun f => f_is_acknowledged f) (hash_values fs).

(** The answers to a LOGIN7, up to the one that decides. *)
Definition login_rounds (fuel : nat) (requested : gmap FeatureExtension AnyFeature)
    (handler : option (SspiAuthHandler C)) : M W LoginResult :=
  '(response, info) <- next_response requested [] ;;
  '(response, info) <- sspi_rounds fuel requested handler response info ;;
  '(response, info) <- fed_auth_round requested response info ;;
  ret {| lres_supported_features := get_acknowledged_features (features response);
         lres_change_properties := change_properties response;
         status := get_status response;
         login_ack := success_token response;
         lres_errors := errors response;
         lres_info_messages := info;
         lres_session_state_tokens := session_state_tokens response |}.

(** The handshake, where the negotiated setting asks for one. *)
Definition start_encryption : M W unit :=
  setting <- gets rw_encryption_setting ;;
  match setting with NStrict | NoEncryption => ret tt | LoginOnly | Mandatory => enable_ssl end.

(** [LoginHandler::execute]. *)
Definition LoginHandler_execute (fuel : nat) (prelogin_fedauth_supported : bool) (t : TransportContext)
    : M W LoginResult :=
  start_encryption ;;
  '(requested, handler) <- send_login7_request prelogin_fedauth_supported t ;;
  login_rounds fuel requested handler.
End handlers.

(** ** The session *)

Definition validate_login_result (r : LoginResult) : TdsResult unit :=
  match status r with
  | LS_Error =>
      match lres_errors r with
      | [] => Err (ProtocolError "Login failed: Server did not send login acknowledgement")
      | errors => Err (SqlServerError (number <$> errors))
      end
  | _ => Ok tt
  end.

(** A feature as the session keeps it. *)
Definition session_feature (f : AnyFeature) : Session.Feature := {|
  Session.feature_identifier := f_identifier f;
  Session.is_acknowledged := f_is_acknowledged f;
  initial_state_data := feature_initial_state f |}.

(** [server_name_from_login_messages]; the messages of this code all come from INFO tokens, whose
    [From] conversion fills the optional name. *)
Definition server_name_from_login_messages (messages : list ServerMessage) : option str :=
  List.find (fun name => negb (bool_decide (name = []))) (server_name <$> messages).

Definition infer_negotiated_settings (c : ClientContext) (p : PreloginResult) (r : LoginResult)
    : TdsResult NegotiatedSettings :=
  let change_props := lres_change_properties r in
  let session_settings := {|
    Session.packet_size := as_u32 (ecp_packet_size change_props);
    user_name := cc_user_name c;
    supported_features := session_feature <$> lres_supported_features r;
    ss_mars_enabled := cc_mars_enabled c;
    pre_login_has_fedauth_supported := is_fed_auth_supported p;
    negotiated_encryption_settings := pr_encryption_setting p |} in
  match ecp_database_collation change_props with
  | None => Err (ProtocolError "Database collation missing after login. Server must send database collation in EnvChange token.")
  | Some collation =>
      match ecp_database change_props with
      | None => Err (ProtocolError "Database name missing after login. Server must send database name in EnvChange token.")
      | Some database =>
          Ok ((NegotiatedSettings_new session_settings collation (default [] (ecp_language change_props)) database
                (ecp_char_set change_props) (tds_version <$> login_ack r) (prog_version <$> login_ack r))
                {{ server_reported_name := server_name_from_login_messages (lres_info_messages r) }}
                {{ ns_client_connection_id := client_connection_id p }})
      end
  end.

Section session.
Context {W C : Type} `{ReaderWriter W C} `{SecurityContext C} `{HashOrder}.
Context (env_info : SystemEnvironmentInfo) (factory : HandlerFactory).

(** [SessionHandler::execute]. *)
Definition SessionHandler_execute (fuel : nat) (t : TransportContext)
    : M W (NegotiatedSettings * list ServerMessage * list SessionStateToken) :=
  pre_login_result <- PreloginHandler_execute factory ;;
  notify_encryption_setting_change (pr_encryption_setting pre_login_result) ;;
  login_result <- LoginHandler_execute env_info factory fuel (is_fed_auth_supported pre_login_result) t ;;
  lift (validate_login_result login_result) ;;
  settings <- lift (infer_negotiated_settings (hf_context factory) pre_login_result login_result) ;;
  modify (rw_session_setting_change (session_settings settings)) ;;
  ret (settings, lres_info_messages login_result, lres_session_state_tokens login_result).
End session.
