(* ===== verification/SessionHandlerLaws.v ===== *)
(** * Laws of logging in

    What leaves the client during a login, in which order and under which protection; that the
    rounds of authentication end; and what a session that was opened rests on. *)

From stdpp Require Import strings gmap.
From S2P Require Import Prelude Core Unicode Text Tokens Transport PacketWriter Prelogin Session SessionRecovery ClientContext HostPolicy Features Login LoginLayout LoginResponse SessionHandler.

(** ** What a login sends *)

(** A message and, for each packet of it that was sent, whether it went over TLS. *)
Abbreviation Sent := (Outgoing * list bool)%type (only parsing).

(** The packets of a message [o] under the setting [s]: the first goes out on the stream as it is, and so
    do the others, but that of a LOGIN7 whose login only is encrypted the first packet is the last on
    TLS ([first_packet_callback]). *)
Definition packets_under (s : NegotiatedEncryptionSetting) (b : bool) (o : Outgoing) (packets : list bool) : Prop :=
  match packets with
  | [] => True
  | first :: later =>
      first = b /\ Forall (fun p => p = match o, s with O_Login7 _, LoginOnly => false | _, _ => b end) later
  end.

(** [log] tells the messages of a world in order, packet by packet.  A packet goes out on the stream as
    it is; sending changes the stream for LOGIN7 only, and only where no more than the login is to be
    encrypted; the handshake makes it TLS; nothing else sends.  A response that was read names no
    route: one that does is an error ([redirect_if_routed]). *)
Class WireLaws {W C : Type} `{ReaderWriter W C} (log : W -> list Sent) (tls : W -> bool) : Prop := {
  transmit_log o w : exists packets,
    log (transmit o w).2 = log w ++ [(o, packets)] /\ packets_under (rw_encryption_setting w) (tls w) o packets;
  transmit_setting o w : rw_encryption_setting (transmit o w).2 = rw_encryption_setting w;
  transmit_tls o w : rw_encryption_setting w <> LoginOnly -> tls (transmit o w).2 = tls w;
  enable_ssl_log w : log (enable_ssl w).2 = log w;
  enable_ssl_setting w : rw_encryption_setting (enable_ssl w).2 = rw_encryption_setting w;
  enable_ssl_tls w w' : enable_ssl w = (Ok tt, w') -> tls w' = true;
  notify_log e w : log (notify_encryption_setting_change e w).2 = log w;
  notify_tls e w : tls (notify_encryption_setting_change e w).2 = tls w;
  notify_setting e w w' : notify_encryption_setting_change e w = (Ok tt, w') -> rw_encryption_setting w' = e;
  session_log s w : log (rw_session_setting_change s w) = log w;
  session_encryption s w : rw_encryption_setting (rw_session_setting_change s w) = rw_encryption_setting w;
  prelogin_quiet w : let w' := (read_prelogin_response w).2 in
    log w' = log w /\ tls w' = tls w /\ rw_encryption_setting w' = rw_encryption_setting w;
  login_quiet fs w : let w' := (read_login_response fs w).2 in
    log w' = log w /\ tls w' = tls w /\ rw_encryption_setting w' = rw_encryption_setting w;
  login_unrouted fs w m w' : read_login_response fs w = (Ok m, w') -> routing_information (change_properties m) = None;
  uuid_quiet w : let w' := (new_v4 w).2 in
    log w' = log w /\ tls w' = tls w /\ rw_encryption_setting w' = rw_encryption_setting w;
  count_quiet w : let w' := (next_request_count w).2 in
    log w' = log w /\ tls w' = tls w /\ rw_encryption_setting w' = rw_encryption_setting w;
  context_quiet c t b w : let w' := (create_security_context c t b w).2 in
    log w' = log w /\ tls w' = tls w /\ rw_encryption_setting w' = rw_encryption_setting w;
  token_quiet c s u w : let w' := (create_token c s u w).2 in
    log w' = log w /\ tls w' = tls w /\ rw_encryption_setting w' = rw_encryption_setting w;
}.

Section wire.
Context {W C : Type} `{ReaderWriter W C} (log : W -> list Sent) (tls : W -> bool) `{!WireLaws log tls}.
Context `{SecurityContext C} `{HashOrder} (env_info : SystemEnvironmentInfo) (factory : HandlerFactory).

(** The types of what was sent. *)
Definition types (es : list Sent) : list PacketType := outgoing_type <$> es.*1.

Lemma packets_alike s b o packets : s <> LoginOnly -> packets_under s b o packets -> Forall (fun p => p = b) packets.
Proof.
  intros Hs. destruct packets as [|p packets]; [constructor|]. intros [-> Hp]. constructor; [done|].
  by destruct o, s.
Qed.

(** A step that sends messages whose types [L] allows, under the protection it found. *)
Definition plays {A} (L : list PacketType -> Prop) (m : M W A) : Prop := forall w,
  let '(_, w') := m w in
  rw_encryption_setting w' = rw_encryption_setting w /\
  exists es, log w' = log w ++ es /\ L (types es) /\
    (rw_encryption_setting w <> LoginOnly -> tls w' = tls w /\ Forall (fun e => Forall (fun p => p = tls w) e.2) es).

Definition silent (l : list PacketType) : Prop := l = [].

(** A step that sends nothing and leaves the stream alone. *)
Definition quiet {A} (m : M W A) : Prop := forall w,
  let w' := (m w).2 in log w' = log w /\ tls w' = tls w /\ rw_encryption_setting w' = rw_encryption_setting w.

Lemma quiet_bind {A B} (m : M W A) (k : A -> M W B) : quiet m -> (forall a, quiet (k a)) -> quiet (bind m k).
Proof.
  intros Hm Hk w. specialize (Hm w). unfold bind. destruct (m w) as [[a|e|x|] w1]; try exact Hm.
  specialize (Hk a w1). cbn in *. destruct Hm as (? & ? & ?), Hk as (? & ? & ?). split_and!; congruence.
Qed.

Lemma quiet_pure {A} (r : TdsResult A) : quiet (lift r).
Proof. by intros w. Qed.

Lemma plays_quiet {A} (m : M W A) : quiet m -> plays silent m.
Proof.
  intros Hq w. specialize (Hq w). destruct (m w) as [r w']. cbn in Hq. destruct Hq as (Hl & Ht & Hs).
  split; [done|]. exists []. rewrite app_nil_r. split_and!; [done..|]. intros _. split; [done|constructor].
Qed.

Lemma plays_pure {A} (r : TdsResult A) : plays silent (lift r).
Proof. by apply plays_quiet. Qed.

Lemma plays_transmit o : plays (fun l => l = [outgoing_type o]) (transmit o).
Proof.
  intros w. destruct (transmit_log o w) as (packets & Hl & Hp). pose proof (transmit_setting o w) as Hs.
  pose proof (transmit_tls o w) as Ht. destruct (transmit o w) as [r w']. cbn in Hl, Hs, Ht. split; [done|].
  exists [(o, packets)]. split_and!; [done..|]. intros Hn. split; [by apply Ht|]. constructor; [|constructor].
  by eapply packets_alike.
Qed.

Lemma plays_bind {A B} (L1 L2 L : list PacketType -> Prop) (m : M W A) (k : A -> M W B) :
  plays L1 m -> (forall a, plays L2 (k a)) -> (forall a, L1 a -> L a) -> (forall a b, L1 a -> L2 b -> L (a ++ b)) ->
  plays L (bind m k).
Proof.
  intros Hm Hk Hone Hboth w. specialize (Hm w). unfold bind. destruct (m w) as [r w1].
  destruct Hm as (Hs1 & es1 & Hl1 & HL1 & Ht1).
  destruct r as [a|e|x|]; [|split; [done|]; exists es1; split_and!; [done|by apply Hone|done]..].
  specialize (Hk a w1). destruct (k a w1) as [r w2]. destruct Hk as (Hs2 & es2 & Hl2 & HL2 & Ht2).
  split; [congruence|]. exists (es1 ++ es2). split_and!.
  - by rewrite Hl2, Hl1, app_assoc.
  - unfold types in *. rewrite !fmap_app. by apply Hboth.
  - intros Hn. destruct (Ht1 Hn) as [Hw1 Hf1]. destruct Ht2 as [Hw2 Hf2]; [by rewrite Hs1|].
    split; [congruence|]. apply Forall_app. split; [done|]. by rewrite <- Hw1.
Qed.

(** A step after one that sends nothing. *)
Lemma plays_after {A B} L (m : M W A) (k : A -> M W B) :
  plays silent m -> (forall a, plays L (k a)) -> L [] -> plays L (bind m k).
Proof. intros Hm Hk Hnil. apply (plays_bind silent L); [done|done|by intros ? ->|by intros ? ? ->]. Qed.

Lemma plays_weaken {A} (L L' : list PacketType -> Prop) (m : M W A) : plays L m -> (forall l, L l -> L' l) -> plays L' m.
Proof.
  intros Hm HL w. specialize (Hm w). destruct (m w) as [r w']. destruct Hm as (Hs & es & Hl & HLes & Ht).
  split; [done|]. exists es. split_and!; [done|by apply HL|done].
Qed.

(** ** The rounds *)

Definition at_most (t : PacketType) (l : list PacketType) : Prop := l = [] \/ l = [t].
Definition only (t : PacketType) (l : list PacketType) : Prop := exists k, l = replicate k t.

(** What follows a LOGIN7: tokens of integrated authentication, then at most one of federated. *)
Definition rounds (l : list PacketType) : Prop := exists k fed, at_most FedAuthToken fed /\ l = replicate k Core.SSPI ++ fed.

Lemma next_response_plays requested info : plays silent (next_response requested info).
Proof. apply plays_after; [apply plays_quiet; exact (login_quiet _)|intros; apply plays_pure|done]. Qed.

Lemma sspi_round_plays requested handler response info :
  plays (at_most Core.SSPI) (sspi_round requested handler response info).
Proof.
  unfold sspi_round. apply plays_after; [apply plays_pure|intros challenge|by left].
  apply plays_after; [apply plays_pure|intros h|by left]. destruct (process_challenge challenge h) as [r h'].
  apply plays_after; [apply plays_pure|intros token|by left].
  apply (plays_bind (at_most Core.SSPI) silent).
  - destruct token as [token|]; [eapply plays_weaken; [apply plays_transmit|by right]|].
    eapply plays_weaken; [apply (plays_pure (Ok tt))|by left].
  - intros _. apply plays_after; [apply next_response_plays|intros []; apply (plays_pure (Ok _))|done].
  - done.
  - intros a b Ha ->. by rewrite app_nil_r.
Qed.

Lemma sspi_rounds_plays fuel requested handler response info :
  plays (only Core.SSPI) (sspi_rounds fuel requested handler response info).
Proof.
  revert handler response info. induction fuel as [|fuel IH]; intros handler response info; cbn [sspi_rounds];
    destruct (get_status response); try (eapply plays_weaken; [apply (plays_pure (Ok _))|by exists 0%nat]).
  - eapply plays_weaken; [apply (plays_pure OutOfFuel)|by exists 0%nat].
  - apply (plays_bind (at_most Core.SSPI) (only Core.SSPI)); [apply sspi_round_plays|by intros [[]]| |].
    + intros a [->| ->]; [by exists 0%nat|by exists 1%nat].
    + intros a b [->| ->] [k ->]; [by exists k|by exists (S k)].
Qed.

Lemma fed_auth_round_plays requested response info :
  plays (at_most FedAuthToken) (fed_auth_round factory requested response info).
Proof.
  unfold fed_auth_round. destruct (get_status response); try (eapply plays_weaken; [apply (plays_pure (Ok _))|by left]).
  apply plays_after; [apply plays_pure|intros i|by left].
  apply plays_after; [apply plays_quiet; exact (token_quiet _ _ _)|intros token|by left].
  apply (plays_bind (fun l => l = [FedAuthToken]) silent); [apply plays_transmit|intros; apply next_response_plays|by right|].
  intros a b -> ->. by right.
Qed.

(** ** The phases *)

(** A step that sends one message of type [t], unless it fails before. *)
Definition sends {A} (t : PacketType) (m : M W A) : Prop := forall w,
  let '(r, w') := m w in
  rw_encryption_setting w' = rw_encryption_setting w /\
  (rw_encryption_setting w <> LoginOnly -> tls w' = tls w) /\
  exists es, log w' = log w ++ es /\
    ((exists o packets, es = [(o, packets)] /\ outgoing_type o = t /\ packets_under (rw_encryption_setting w) (tls w) o packets) \/
     es = [] /\ forall a, r <> Ok a).

Lemma sends_after {A B} t (m : M W A) (k : A -> M W B) :
  quiet m -> (forall a, sends t (k a)) -> sends t (bind m k).
Proof.
  intros Hm Hk w. specialize (Hm w). unfold bind. destruct (m w) as [r w1]. cbn in Hm. destruct Hm as (Hl & Ht & Hs).
  destruct r as [a|e|x|]; [|split_and!; [done..|]; exists []; rewrite app_nil_r; split; [done|by right]..].
  specialize (Hk a w1). destruct (k a w1) as [r w2]. rewrite Hs, Ht, Hl in Hk. exact Hk.
Qed.

Lemma sends_throw {A} t e : sends t (lift (Err e) : M W A).
Proof. intros w. split_and!; [done..|]. exists []. rewrite app_nil_r. split; [done|by right]. Qed.

Lemma sends_transmit {A} o (k : unit -> M W A) : (forall a, quiet (k a)) -> sends (outgoing_type o) (bind (transmit o) k).
Proof.
  intros Hk w. destruct (transmit_log o w) as (packets & Hl & Hp). pose proof (transmit_setting o w) as Hs.
  pose proof (transmit_tls o w) as Ht. unfold bind. destruct (transmit o w) as [r w1]. cbn in Hl, Hs, Ht.
  destruct r as [a|e|x|]; [|split_and!; [done..|]; exists [(o, packets)]; split; [done|left; by exists o, packets]..].
  specialize (Hk a w1). destruct (k a w1) as [r w2]. cbn in Hk. destruct Hk as (Hl2 & Ht2 & Hs2).
  split_and!; [congruence|intros; rewrite Ht2; auto|]. exists [(o, packets)]. rewrite Hl2. split; [done|left; by exists o, packets].
Qed.

Lemma prelogin_sends : sends PreLogin (PreloginHandler_execute factory).
Proof.
  unfold PreloginHandler_execute. cbv zeta. apply sends_after; [exact uuid_quiet|intros id].
  apply sends_after; [exact uuid_quiet|intros activity]. apply sends_after; [exact count_quiet|intros count].
  apply (sends_transmit (O_PreLogin _)). intros _. apply quiet_bind; [exact prelogin_quiet|intros response].
  destruct (_ && _); [apply (quiet_pure (Err _))|]. apply quiet_bind; [apply quiet_pure|intros setting; apply (quiet_pure (Ok _))].
Qed.

(** The encryption a finished PRELOGIN agreed on. *)
Lemma prelogin_negotiates w p w' :
  PreloginHandler_execute factory w = (Ok p, w') ->
  exists server, negotiate_encryption (cc_encryption_mode (hf_context factory)) server = Ok (pr_encryption_setting p).
Proof.
  unfold PreloginHandler_execute, bind. cbv zeta. cbn [PreloginRequestModel_new fst encryption_setting default from_option id].
  destruct (new_v4 w) as [[]]; try done. destruct (new_v4 _) as [[]]; try done.
  destruct (next_request_count _) as [[]]; try done. destruct (transmit _ _) as [[]]; try done.
  destruct (read_prelogin_response _) as [[response| | |]]; try done. destruct (_ && _); [done|]. unfold lift, ret.
  destruct (negotiate_encryption _ (encryption response)) as [setting| | |] eqn:E; try done.
  intros [= <- _]. by exists (encryption response).
Qed.

Lemma login7_sends fedauth t : sends Login7 (send_login7_request env_info factory fedauth t).
Proof.
  unfold send_login7_request. cbv zeta. apply sends_after.
  { destruct (integrated_security _); [|apply (quiet_pure (Ok _))]. apply quiet_bind; [by intros w|intros binding].
    apply quiet_bind; [exact (context_quiet _ _ _)|intros context]. destruct (get_initial_token _) as [r h].
    apply quiet_bind; [apply quiet_pure|intros token; apply (quiet_pure (Ok _))]. }
  intros [token handler]. apply sends_after; [apply quiet_pure|intros request].
  apply (sends_transmit (O_Login7 _)). intros _. apply (quiet_pure (Ok _)).
Qed.

(** What follows the handshake. *)
Definition login_messages (b : bool) (s : NegotiatedEncryptionSetting) (es : list Sent) : Prop :=
  es = [] \/ exists o packets rest, es = (o, packets) :: rest /\ outgoing_type o = Login7 /\ packets_under s b o packets /\
    rounds (types rest) /\ (s <> LoginOnly -> Forall (fun e => Forall (fun p => p = b) e.2) rest).

Lemma login_rounds_play fuel requested handler : plays rounds (login_rounds factory fuel requested handler).
Proof.
  apply plays_after; [apply next_response_plays|intros [response info]|by exists 0%nat, []; split; [left|]].
  apply (plays_bind (only Core.SSPI) (at_most FedAuthToken)).
  - apply sspi_rounds_plays.
  - intros [response' info']. apply (plays_bind (at_most FedAuthToken) silent).
    + apply fed_auth_round_plays.
    + intros [response'' info'']. apply (plays_pure (Ok _)).
    + done.
    + intros a b Ha ->. by rewrite app_nil_r.
  - intros a [k ->]. exists k, []. split; [by left|]. by rewrite app_nil_r.
  - intros a b [k ->] Hb. by exists k, b.
Qed.

Lemma start_encryption_spec w :
  let '(r, w') := start_encryption w in
  let s := rw_encryption_setting w in
  log w' = log w /\ rw_encryption_setting w' = s /\
  (r = Ok tt -> tls w' = match s with LoginOnly | Mandatory => true | NStrict | NoEncryption => tls w end).
Proof.
  unfold start_encryption, bind, gets. pose proof (enable_ssl_log w). pose proof (enable_ssl_setting w).
  pose proof (enable_ssl_tls w) as Ht.
  destruct (rw_encryption_setting w) eqn:Es; try done; destruct (enable_ssl w) as [r w1];
    (split_and!; [done|cbn in *; congruence|]); intros ->; by apply Ht.
Qed.

(** LOGIN7 and what answers it, from a stream that is TLS or not. *)
Lemma login_after_handshake fuel fedauth t w :
  let '(_, w') := ('(requested, handler) <- send_login7_request env_info factory fedauth t ;;
                   login_rounds factory fuel requested handler) w in
  rw_encryption_setting w' = rw_encryption_setting w /\
  exists es, log w' = log w ++ es /\ login_messages (tls w) (rw_encryption_setting w) es.
Proof.
  pose proof (login7_sends fedauth t w) as Hs. unfold bind.
  destruct (send_login7_request env_info factory fedauth t w) as [r w1].
  destruct Hs as (Hset & Htls & es & Hl & Hes). destruct r as [[requested handler]|e|x|].
  2-4: split; [done|]; exists es; split; [done|]; destruct Hes as [(o & packets & -> & Ho & Hp)|[-> _]]; [right|by left];
       exists o, packets, []; split_and!; [done|done|done|by exists 0%nat, []; split; [left|]|constructor].
  destruct Hes as [(o & packets & -> & Ho & Hp)|[_ Hn]]; [|by destruct (Hn (requested, handler))].
  pose proof (login_rounds_play fuel requested handler w1) as Hplay.
  destruct (login_rounds factory fuel requested handler w1) as [r w2].
  destruct Hplay as (Hset2 & rest & Hl2 & Hr & Ht2). split; [congruence|].
  exists ((o, packets) :: rest). rewrite Hl2, Hl, <- app_assoc. split; [done|]. right. exists o, packets, rest.
  split_and!; [done..|]. intros Hn. destruct Ht2 as [_ Hf]; [congruence|]. by rewrite Htls in Hf.
Qed.

Lemma login_phase fuel fedauth t w :
  let '(_, w') := LoginHandler_execute env_info factory fuel fedauth t w in
  let s := rw_encryption_setting w in
  rw_encryption_setting w' = s /\
  exists es, log w' = log w ++ es /\
    login_messages (match s with LoginOnly | Mandatory => true | NStrict | NoEncryption => tls w end) s es.
Proof.
  unfold LoginHandler_execute. unfold bind at 1. pose proof (start_encryption_spec w) as He.
  destruct (start_encryption w) as [r w1]. destruct He as (Hl1 & Hs1 & Ht1).
  destruct r as [[]|e|x|]; [|split; [done|]; exists []; rewrite app_nil_r; split; [done|by left]..].
  pose proof (login_after_handshake fuel fedauth t w1) as Hp.
  match goal with |- let '(_, _) := ?e in _ => destruct e as [r w2] end.
  destruct Hp as (Hs2 & es & Hl2 & Hes). rewrite Hs1 in Hs2, Hes. split; [done|].
  exists es. rewrite Hl2, Hl1. split; [done|]. by rewrite <- (Ht1 eq_refl).
Qed.

(** ** The whole login *)

(** What was sent: a PRELOGIN and, once it agreed on [s], a login. *)
Definition session_messages (clear : bool) (s : NegotiatedEncryptionSetting) (es : list Sent) : Prop :=
  exists pre login, es = pre ++ login /\
    (types pre = [PreLogin] \/ at_most PreLogin (types pre) /\ login = []) /\
    login_messages (match s with LoginOnly | Mandatory => true | NStrict | NoEncryption => clear end) s login.

(** What a login that came from [w] to [w'] sent. *)
Definition session_sent (w w' : W) : Prop := exists es s,
  log w' = log w ++ es /\ session_messages (tls w) s es /\
  (types es = [] \/ types es = [PreLogin] \/ rw_encryption_setting w' = s /\
   exists server, negotiate_encryption (cc_encryption_mode (hf_context factory)) server = Ok s).

Lemma only_prelogin_sent w w' pre : log w' = log w ++ pre -> at_most PreLogin (types pre) -> session_sent w w'.
Proof.
  intros Hl Hp. exists pre, NoEncryption. split_and!; [done| |destruct Hp; eauto].
  exists pre, []. rewrite app_nil_r. split_and!; [done|by right|by left].
Qed.

Lemma login_sent w w' pre es s server :
  log w' = log w ++ pre ++ es -> types pre = [PreLogin] -> rw_encryption_setting w' = s ->
  login_messages (match s with LoginOnly | Mandatory => true | NStrict | NoEncryption => tls w end) s es ->
  negotiate_encryption (cc_encryption_mode (hf_context factory)) server = Ok s -> session_sent w w'.
Proof.
  intros Hl Hp Hs He Hn. exists (pre ++ es), s. split_and!; [done| |eauto]. exists pre, es. split_and!; [done|by left|done].
Qed.

Lemma execute_sends fuel t w :
  rw_encryption_setting w = NoEncryption ->
  let '(_, w') := SessionHandler_execute env_info factory fuel t w in session_sent w w'.
Proof.
  intros Hw. unfold SessionHandler_execute. pose proof (prelogin_sends w) as Hs. pose proof (prelogin_negotiates w) as Hn.
  unfold bind at 1. destruct (PreloginHandler_execute factory w) as [r w1]. destruct Hs as (Hs1 & Ht1 & pre & Hl1 & Hpre).
  assert (at_most PreLogin (types pre)) as Hone
    by (destruct Hpre as [(o & packets & -> & Ho & _)|[-> _]]; [right; cbn; by rewrite Ho|by left]).
  destruct r as [p|e|x|]; [|by eapply only_prelogin_sent..]. destruct (Hn p w1 eq_refl) as [server Hserver]. clear Hn.
  unfold bind at 1. pose proof (notify_log (pr_encryption_setting p) w1) as Hln.
  pose proof (notify_tls (pr_encryption_setting p) w1) as Htn. pose proof (notify_setting (pr_encryption_setting p) w1) as Hsn.
  destruct (notify_encryption_setting_change _ w1) as [[[]|e|x|] w2]; cbn in Hln, Htn; rewrite Hl1 in Hln;
    [|by eapply only_prelogin_sent..].
  specialize (Hsn w2 eq_refl). unfold bind at 1. pose proof (login_phase fuel (is_fed_auth_supported p) t w2) as Hlp.
  destruct (LoginHandler_execute env_info factory fuel (is_fed_auth_supported p) t w2) as [r w3].
  destruct Hlp as (Hs3 & es & Hl3 & Hes). rewrite Hsn in Hs3, Hes. rewrite Htn, Ht1 in Hes by (rewrite Hw; done).
  rewrite Hln, <- app_assoc in Hl3.
  assert (types pre = [PreLogin]) as Hp
    by (destruct Hpre as [(o & packets & -> & Ho & _)|[_ Hno]]; [cbn; by rewrite Ho|by destruct (Hno p)]).
  destruct r as [l|e|x|]; [|by eapply login_sent..]. unfold bind, lift, modify, ret.
  destruct (validate_login_result l); [|by eapply login_sent..].
  destruct (infer_negotiated_settings _ _ _) as [settings| | |]; [|by eapply login_sent..].
  eapply login_sent; [by rewrite session_log|done|by rewrite session_encryption|done|done].
Qed.

(** The order of the messages, and which of them were protected. *)
Lemma session_messages_order clear s es :
  session_messages clear s es -> exists k, types es `prefix_of` PreLogin :: Login7 :: replicate k Core.SSPI ++ [FedAuthToken].
Proof.
  intros (pre & login & -> & Hpre & Hlogin). unfold types in *. rewrite !fmap_app.
  destruct Hpre as [->|[[->| ->] ->]]; [|by exists 0%nat; eexists..].
  destruct Hlogin as [->|(o & packets & rest & -> & Ho & _ & (k & fed & Hf & Hr) & _)]; [by exists 0%nat; eexists|].
  exists k. cbn. unfold types in Hr. rewrite Ho, Hr. do 2 apply prefix_cons. apply prefix_app.
  destruct Hf as [->| ->]; [apply prefix_nil|done].
Qed.

Lemma types_forall (Q : PacketType -> Prop) es : Forall Q (types es) <-> Forall (fun e : Sent => Q (outgoing_type e.1)) es.
Proof. unfold types. by rewrite !Forall_fmap. Qed.

Lemma rounds_types l : rounds l -> Forall (fun t => t <> PreLogin /\ t <> Login7) l.
Proof.
  intros (k & fed & [->| ->] & ->); apply Forall_app; (split; [by apply Forall_replicate|by repeat constructor]).
Qed.

(** All packets of a message went over TLS; or the first did, and none after it. *)
Definition on_tls (e : Sent) : Prop := Forall (fun p => p = true) e.2.
Definition first_on_tls (e : Sent) : Prop :=
  match e.2 with [] => True | first :: later => first = true /\ Forall (fun p => p = false) later end.

Lemma session_messages_protected clear s es :
  session_messages clear s es ->
  match s with LoginOnly | Mandatory => true | NStrict | NoEncryption => clear end = true ->
  (s <> LoginOnly -> Forall (fun e => outgoing_type e.1 = PreLogin \/ on_tls e) es) /\
  (s = LoginOnly -> Forall (fun e => outgoing_type e.1 = Login7 -> first_on_tls e) es).
Proof.
  intros (pre & login & -> & Hpre & Hlogin) Hb. rewrite Hb in Hlogin. clear Hb. rewrite !Forall_app.
  assert (Forall (fun t => t = PreLogin) (types pre)) as Hp
    by (destruct Hpre as [->|[[->| ->] _]]; by repeat constructor).
  rewrite types_forall in Hp.
  destruct Hlogin as [->|(o & packets & rest & -> & Ho & Hk & Hr & Hf)].
  - split; intros _; (split; [eapply list.Forall_impl; [exact Hp|]|constructor]); [by left|]. intros e E. by rewrite E.
  - apply rounds_types in Hr. rewrite types_forall in Hr. split; intros Hs; split.
    + eapply list.Forall_impl; [exact Hp|by left].
    + constructor; [right; by eapply packets_alike|]. eapply list.Forall_impl; [exact (Hf Hs)|by right].
    + eapply list.Forall_impl; [exact Hp|]. intros e E. by rewrite E.
    + subst s. constructor; [intros _; destruct o; try discriminate Ho; by destruct packets|].
      eapply list.Forall_impl; [exact Hr|]. by intros e [_ ?].
Qed.
End wire.

(** C5: What the client wanted protected of a login goes over TLS.  Messages leave in the protocol's
    order: a PRELOGIN, a LOGIN7, tokens of integrated authentication, at most one of federated
    authentication.  Unless the client prefers no encryption, every packet of them but the PRELOGIN's
    is sent on a TLS stream (with strict encryption the transport is one from the start).  When it
    prefers none and the server has it encrypt the login only, the first packet of LOGIN7 is, and
    the later packets of a long LOGIN7 are not; any other encryption that was agreed on covers
    every packet after the PRELOGIN. *)
Theorem login_is_protected {W C : Type} `{ReaderWriter W C} (log : W -> list Sent) (tls : W -> bool)
    `{!WireLaws log tls} `{SecurityContext C} `{HashOrder} env_info factory fuel t w :
  let mode := cc_encryption_mode (hf_context factory) in
  rw_encryption_setting w = NoEncryption -> (mode = Strict -> tls w = true) ->
  let '(_, w') := SessionHandler_execute env_info factory fuel t w in
  exists es, log w' = log w ++ es /\
    (exists k, types es `prefix_of` PreLogin :: Login7 :: replicate k Core.SSPI ++ [FedAuthToken]) /\
    (mode <> PreferOff -> Forall (fun e => outgoing_type e.1 = PreLogin \/ on_tls e) es) /\
    match rw_encryption_setting w' with
    | NoEncryption => True
    | LoginOnly => Forall (fun e => outgoing_type e.1 = Login7 -> first_on_tls e) es
    | Mandatory | NStrict => Forall (fun e => outgoing_type e.1 = PreLogin \/ on_tls e) es
    end.
Proof.
  intros mode Hw Hstrict. pose proof (execute_sends log tls env_info factory fuel t w Hw) as He. fold mode in He.
  destruct (SessionHandler_execute env_info factory fuel t w) as [r w']. destruct He as (es & s & Hl & Hm & Hs).
  exists es. split; [done|]. split; [by eapply session_messages_order|].
  pose proof (session_messages_protected _ _ _ Hm) as Hall.
  assert (Forall (fun e => outgoing_type e.1 = PreLogin) es \/ rw_encryption_setting w' = s /\
          exists server, negotiate_encryption mode server = Ok s) as [Hp|(Hset & server & Hn)].
  { rewrite <- (types_forall (fun t => t = PreLogin)). destruct Hs as [->|[->|Hs]]; [left; by repeat constructor..|by right]. }
  - assert (Forall (fun e => outgoing_type e.1 = PreLogin \/ on_tls e) es) by (eapply list.Forall_impl; [exact Hp|by left]).
    split; [done|]. destruct (rw_encryption_setting w'); try done. eapply list.Forall_impl; [exact Hp|]. intros e E. by rewrite E.
  - unfold negotiate_encryption in Hn. rewrite Hset. destruct mode; [| | |rewrite (Hstrict eq_refl) in *];
      destruct server; try discriminate Hn; injection Hn as <-; try (split; [intros ?; done|done]);
      destruct (Hall eq_refl) as [Ha Hf]; split; intros; try done; auto.
Qed.

(** ** What an opened session rests on *)

Section opened.
Context {W C : Type} `{ReaderWriter W C} (log : W -> list Sent) (tls : W -> bool) `{!WireLaws log tls}.
Context `{SecurityContext C} `{HashOrder} (env_info : SystemEnvironmentInfo) (factory : HandlerFactory).

Definition unrouted (m : LoginResponseModel) : Prop := routing_information (change_properties m) = None.

Lemma next_response_unrouted requested info w m info' w' :
  next_response requested info w = (Ok (m, info'), w') -> unrouted m.
Proof.
  unfold next_response, bind. destruct (read_login_response requested w) as [[m0| | |] w0] eqn:E; try done.
  apply login_unrouted in E. intros [= <- _ _]. by destruct m0.
Qed.

Lemma sspi_round_unrouted requested handler response info w m info' h w' :
  sspi_round requested handler response info w = (Ok (m, info', h), w') -> unrouted m.
Proof.
  unfold sspi_round, bind at 1, lift at 1. destruct (lrm_sspi_token response) as [challenge|]; [|done].
  unfold bind at 1, lift at 1. destruct handler as [handler|]; [|done]. destruct (process_challenge challenge handler) as [r h'].
  unfold bind at 1, lift at 1. destruct r as [token| | |]; try done. unfold bind at 1.
  match goal with |- match ?x with _ => _ end = _ -> _ => destruct x as [[u| | |] w1]; try done end. unfold bind.
  destruct (next_response requested info _) as [[[m0 i0]| | |] w0] eqn:E; try done.
  intros [= <- _ _ _]. by eapply next_response_unrouted.
Qed.

Lemma sspi_rounds_end fuel requested handler response info w m info' w' :
  sspi_rounds fuel requested handler response info w = (Ok (m, info'), w') -> unrouted response ->
  unrouted m /\ get_status m <> LS_WaitingForSspi.
Proof.
  revert handler response info w. induction fuel as [|fuel IH]; intros handler response info w; cbn [sspi_rounds].
  - destruct (get_status response) eqn:Es; try done; intros [= <- _ _]; by rewrite Es.
  - destruct (get_status response) eqn:Es; try (intros [= <- _ _]; by rewrite Es).
    unfold bind. destruct (sspi_round requested handler response info w) as [[[[m0 i0] h0]| | |] w0] eqn:E; try done.
    intros Hr _. apply sspi_round_unrouted in E. by eapply IH.
Qed.

Lemma unrouted_status m : unrouted m -> get_status m <> LS_WaitingForSspi -> get_status m <> LS_WaitingForFedAuth ->
  get_status m = LS_Error \/ is_some (success_token m) = true.
Proof.
  unfold unrouted, get_status. intros ->. cbn. destruct (is_some (success_token m)); [by right|].
  destruct (negb _); [by left|]. destruct (is_some (fed_auth_info m)); [done|]. destruct (is_some _); [done|by left].
Qed.

(** The last answer acknowledges the login or reports an error, or a token was sent before it. *)
Lemma login_rounds_status fuel requested handler w r w' :
  login_rounds factory fuel requested handler w = (Ok r, w') ->
  status r = LS_Error \/ is_some (login_ack r) = true \/ exists token b, (O_FedAuth token, b) ∈ log w'.
Proof.
  unfold login_rounds, bind at 1. destruct (next_response requested [] w) as [[[m i]| | |] w1] eqn:E1; try done.
  apply next_response_unrouted in E1. unfold bind at 1.
  destruct (sspi_rounds fuel requested handler m i w1) as [[[m2 i2]| | |] w2] eqn:E2; try done.
  apply sspi_rounds_end in E2 as [Hu Hs]; [|done]. unfold bind, ret, fed_auth_round, bind at 1, lift.
  pose proof (unrouted_status m2 Hu Hs) as Hm. destruct (get_status m2) eqn:Es;
    try (intros [= <- <-]; cbn; rewrite Es; destruct (Hm ltac:(done)); by auto).
  destruct (fed_auth_info m2) as [i3|]; [|done]. unfold bind.
  destruct (create_token _ _ _ w2) as [[token| | |] w3]; try done.
  destruct (transmit_log (O_FedAuth token) w3) as (packets & Hl & _). destruct (transmit _ w3) as [[| | |] w4]; try done.
  pose proof (next_response_plays log tls requested i2 w4) as Hp.
  destruct (next_response requested i2 w4) as [[[m5 i5]| | |] w5]; try done. destruct Hp as (_ & es & Hl5 & _).
  intros [= _ <-]. right. right. exists token, packets. cbn in Hl. rewrite Hl5, Hl. set_solver.
Qed.
End opened.

(** C23: A session opens only on an acknowledgement.  If a login gives a session, the server sent a
    LOGINACK, or the client had answered a request for a federated token; and the encryption the
    session records is the one the transport uses. *)
Theorem opened_session_was_acknowledged {W C : Type} `{ReaderWriter W C} (log : W -> list Sent)
    (tls : W -> bool) `{!WireLaws log tls} `{SecurityContext C} `{HashOrder} env_info factory fuel t w settings info states w' :
  SessionHandler_execute env_info factory fuel t w = (Ok (settings, info, states), w') ->
  (is_some (login_ack_tds_version settings) = true \/ exists token b, (O_FedAuth token, b) ∈ log w') /\
  negotiated_encryption_settings (session_settings settings) = rw_encryption_setting w'.
Proof.
  unfold SessionHandler_execute, bind at 1. destruct (PreloginHandler_execute factory w) as [[p| | |] w1]; try done.
  unfold bind at 1. pose proof (notify_setting (pr_encryption_setting p) w1) as Hn.
  destruct (notify_encryption_setting_change _ w1) as [[[]| | |] w2]; try done. specialize (Hn w2 eq_refl).
  unfold bind at 1. pose proof (login_phase log tls env_info factory fuel (is_fed_auth_supported p) t w2) as Hlp.
  destruct (LoginHandler_execute env_info factory fuel (is_fed_auth_supported p) t w2) as [[r| | |] w3] eqn:El; try done.
  destruct Hlp as [Hs3 _]. unfold bind, lift, modify, ret. destruct (validate_login_result r) as [[]| | |] eqn:Ev; try done.
  destruct (infer_negotiated_settings _ p r) as [s| | |] eqn:Ei; try done. intros [= <- _ _ <-].
  rewrite (session_log (log := log) (tls := tls)), (session_encryption (log := log) (tls := tls)), Hs3, Hn.
  assert (is_some (login_ack r) = true \/ exists token b, (O_FedAuth token, b) ∈ log w3) as Hack.
  { revert El. unfold LoginHandler_execute, bind at 1. destruct (start_encryption w2) as [[| | |] w4]; try done. unfold bind.
    destruct (send_login7_request _ _ _ _ w4) as [[[requested handler]| | |] w5]; try done.
    intros [He|Hr]%(login_rounds_status log tls factory); [|exact Hr].
    unfold validate_login_result in Ev. rewrite He in Ev. by destruct (lres_errors r). }
  revert Ei. unfold infer_negotiated_settings. destruct (ecp_database_collation _); [|done].
  destruct (ecp_database _); [|done]. intros [= <-]. cbn. split; [|done].
  destruct Hack as [Ha|Ha]; [left|by right]. by destruct (login_ack r).
Qed.

(** ** The rounds end *)

(** [answers] bounds the responses a server can still give; steps other than reads leave it alone. *)
Class AnsweringWire {W C : Type} `{ReaderWriter W C} (answers : W -> nat) : Prop := {
  read_answers fs w : match read_login_response fs w with
                      | (Ok _, w') => (answers w' < answers w)%nat
                      | (OutOfFuel, _) => False
                      | _ => True
                      end;
  transmit_answers o w : answers (transmit o w).2 = answers w /\ (transmit o w).1 <> OutOfFuel;
  create_token_answers c s u w : answers (create_token c s u w).2 = answers w /\ (create_token c s u w).1 <> OutOfFuel;
}.

Section ending.
Context {W C : Type} `{ReaderWriter W C} (answers : W -> nat) `{!AnsweringWire answers} `{SecurityContext C} `{HashOrder}.
Context (generate_ends : forall token (c : C), (generate_token token c).1 <> OutOfFuel).

Lemma next_response_answers requested info w :
  match next_response requested info w with
  | (Ok _, w') => (answers w' < answers w)%nat
  | (OutOfFuel, _) => False
  | _ => True
  end.
Proof.
  unfold next_response, bind. pose proof (read_answers requested w) as Hr.
  by destruct (read_login_response requested w) as [[] w'].
Qed.

Lemma process_challenge_ends challenge (h : SspiAuthHandler C) : (process_challenge challenge h).1 <> OutOfFuel.
Proof.
  unfold process_challenge, bind, gets. destruct (sspi_state h); try done; unfold answer_challenge, on_context;
    (pose proof (generate_ends (Some challenge) (security_context (h {{ sspi_state := Sspi_SendingResponse }}))) as Hg;
     destruct (generate_token _ _) as [[[data []]| | |] c]; done).
Qed.

Lemma sspi_round_answers requested handler response info w :
  match sspi_round requested handler response info w with
  | (Ok _, w') => (answers w' < answers w)%nat
  | (OutOfFuel, _) => False
  | _ => True
  end.
Proof.
  unfold sspi_round, bind at 1, lift at 1. destruct (lrm_sspi_token response) as [challenge|]; [|done].
  unfold bind at 1, lift at 1. destruct handler as [handler|]; [|done].
  pose proof (process_challenge_ends challenge handler) as Hp. destruct (process_challenge challenge handler) as [r h'].
  unfold bind at 1, lift at 1. destruct r as [token| | |]; try done. unfold bind at 1.
  assert (forall m : M W unit, (answers (m w).2 = answers w /\ (m w).1 <> OutOfFuel) ->
    match (match m w with
           | (Ok _, s') => ('(m0, i0) <- next_response requested info ;; ret (m0, i0, h')) s'
           | (Err e, s') => (Err e, s') | (Panic x, s') => (Panic x, s') | (OutOfFuel, s') => (OutOfFuel, s')
           end) with
    | (Ok _, w') => (answers w' < answers w)%nat | (OutOfFuel, _) => False | _ => True end) as Hm.
  { intros m [Ha Hm]. destruct (m w) as [[[]| | |] w1]; try done. cbn in Ha. unfold bind.
    pose proof (next_response_answers requested info w1) as Hn.
    destruct (next_response requested info w1) as [[[]| | |] w2]; try done. cbn. lia. }
  apply Hm. destruct token; [apply transmit_answers|done].
Qed.

Lemma sspi_rounds_complete fuel requested handler response info w :
  (answers w < fuel)%nat ->
  let '(r, w') := sspi_rounds fuel requested handler response info w in r <> OutOfFuel.
Proof.
  revert handler response info w. induction fuel as [|fuel IH]; intros handler response info w Hf; [lia|]. cbn [sspi_rounds].
  destruct (get_status response); try done. unfold bind. pose proof (sspi_round_answers requested handler response info w) as Hr.
  destruct (sspi_round requested handler response info w) as [[[[m i] h]| | |] w']; try done. apply IH. lia.
Qed.
End ending.

(** C24: A login ends.  When the server can give [n] more responses, [n] rounds of authentication are
    enough: the client reads one in each, whatever the security context makes of the challenges. *)
Theorem login_rounds_end {W C : Type} `{ReaderWriter W C} (answers : W -> nat) `{!AnsweringWire answers}
    `{SecurityContext C} `{HashOrder} (factory : HandlerFactory) fuel requested handler w :
  (forall token (c : C), (generate_token token c).1 <> OutOfFuel) -> (answers w <= fuel)%nat ->
  (login_rounds factory fuel requested handler w).1 <> OutOfFuel.
Proof.
  intros Hg Hf. unfold login_rounds, bind at 1. pose proof (next_response_answers answers requested [] w) as Hn.
  destruct (next_response requested [] w) as [[[m i]| | |] w1]; try done. unfold bind at 1.
  pose proof (sspi_rounds_complete answers Hg fuel requested handler m i w1 ltac:(lia)) as Hs.
  destruct (sspi_rounds fuel requested handler m i w1) as [[[m2 i2]| | |] w2]; try done.
  unfold bind, fed_auth_round. destruct (get_status m2); try done. unfold bind at 1, lift.
  destruct (fed_auth_info m2) as [i3|]; [|done]. unfold bind.
  destruct (create_token_answers (hf_context factory) (spn i3) (sts_url i3) w2) as [_ Hc].
  destruct (create_token _ _ _ w2) as [[token| | |] w3]; try done.
  destruct (transmit_answers (O_FedAuth token) w3) as [_ Ht]. destruct (transmit _ w3) as [[| | |] w4]; try done.
  pose proof (next_response_answers answers requested i2 w4) as Hn4.
  by destruct (next_response requested i2 w4) as [[[]| | |] w5].
Qed.

(** ** A scripted server *)

Record Wire := {
  wi_setting : option NegotiatedEncryptionSetting;
  wi_tls : bool;
  wi_log : list Sent;
  wi_prelogin : PreloginResponseModel;
  wi_answers : list LoginResponseModel;
}.

#[local] Instance Wire_eta : Eta Wire := fun w =>
  Build_Wire (wi_setting w) (wi_tls w) (wi_log w) (wi_prelogin w) (wi_answers w).

Definition wire_setting (w : Wire) : NegotiatedEncryptionSetting := default NoEncryption (wi_setting w).

(** What the first packet of a message leaves of the stream. *)
Definition tls_after (o : Outgoing) (w : Wire) : bool :=
  match o, wire_setting w with O_Login7 _, LoginOnly => false | _, _ => wi_tls w end.

(** Messages of two packets. *)
Definition wire_transmit (o : Outgoing) : M Wire unit := fun w =>
  (Ok tt, w {{ wi_log ::= fun l => l ++ [(o, [wi_tls w; tls_after o w])] }} {{ wi_tls := tls_after o w }}).

Definition wire_read : M Wire LoginResponseModel := fun w =>
  match wi_answers w with
  | m :: rest => (let? _ := redirect_if_routed m in Ok m, w {{ wi_answers := rest }})
  | [] => (Err (ConnectionClosed "closed"), w)
  end.

(** A context with one token, after which it is complete. *)
#[local] Instance one_token : SecurityContext unit := {| generate_token _ := ret ([byte_of 1], true) |}.

#[local] Instance wire_server : ReaderWriter Wire unit := {|
  rw_encryption_setting := wire_setting;
  notify_encryption_setting_change e := modify (fun w => w {{ wi_setting := Some e }});
  rw_session_setting_change _ w := w;
  enable_ssl := modify (fun w => w {{ wi_tls := true }});
  channel_binding_token _ := None;
  transmit := wire_transmit;
  read_prelogin_response := gets wi_prelogin;
  read_login_response _ := wire_read;
  new_v4 := ret [];
  next_request_count := ret 0;
  create_security_context _ _ _ := ret tt;
  create_token _ _ _ := ret [byte_of 7];
|}.

#[local] Instance wire_laws : WireLaws wi_log wi_tls.
Proof.
  constructor; try done.
  - intros o w. eexists. split; [reflexivity|]. split; [done|]. by repeat constructor.
  - intros o [] Hn. cbn in *. unfold tls_after. by destruct o, wi_setting0 as [[]|].
  - by intros w w' [= <-].
  - by intros e w w' [= <-].
  - intros fs w. cbn. unfold wire_read. by destruct (wi_answers w).
  - intros fs w m w'. cbn. unfold wire_read, redirect_if_routed. destruct (wi_answers w) as [|m0 rest]; [done|].
    destruct (routing_information (change_properties m0)) as [r|] eqn:E; [by destruct (_ && _)|].
    by intros [= <- _].
Qed.

#[local] Instance wire_answers : AnsweringWire (fun w => length (wi_answers w)).
Proof.
  constructor; [|done|done]. intros fs w. cbn. unfold wire_read, redirect_if_routed.
  destruct w as [s b l p [|m rest]]; [done|]. cbn.
  destruct (routing_information (change_properties m)) as [r|]; [by destruct (_ && _)|]. cbn. lia.
Qed.

#[local] Instance map_order : HashOrder.
Proof. refine {| hash_values m := (map_to_list m).*2 |}. done. Defined.

Definition sample_collation : SqlCollation := {| info := 0; lcid_language_id := 1033; col_flags := 0; sort_id := 52 |}.

(** What a server reports of a new session, with the packet size [size]. *)
Definition reported (size : Z) : EnvChangeProperties := EnvChangeProperties_default
  {{ ecp_database_collation := Some sample_collation }} {{ ecp_database := Some (lit "master") }} {{ ecp_packet_size := size }}.

Definition acknowledged_response : LoginResponseModel := (LoginResponseModel_new ∅)
  {{ change_properties := reported 4096 }}
  {{ success_token := Some {| interface_type := Interface_TSql; tds_version := V7_4; prog_name := lit "SQL";
                              prog_version := {| major := 16; minor := 0; build := 0; revision := 0 |} |} }}.

(** A request for a federated token, with what only a finished login should report. *)
Definition asking_response : LoginResponseModel := (LoginResponseModel_new ∅)
  {{ change_properties := reported 4096 }} {{ fed_auth_info := Some {| spn := lit "spn"; sts_url := lit "sts" |} }}.

Definition server (encryption : EncryptionType) (answers : list LoginResponseModel) : Wire := {|
  wi_setting := None; wi_tls := false; wi_log := [];
  wi_prelogin := PreloginResponseModel_new {{ Prelogin.encryption := encryption }};
  wi_answers := answers |}.

Definition sample_factory : HandlerFactory := {|
  hf_context := LoginLayout.sample_settings {{ cc_encryption_mode := On }};
  hf_recovery_data := None; hf_dns_resolution := None |}.

(** A login against a scripted server. *)
Definition log_in (w : Wire) := SessionHandler_execute sample_env sample_factory 5 sample_transport w.

(** A client that prefers no encryption, and a server that does not either. *)
Definition lenient_factory : HandlerFactory := {|
  hf_context := LoginLayout.sample_settings {{ cc_encryption_mode := PreferOff }};
  hf_recovery_data := None; hf_dns_resolution := None |}.

Lemma login_is_protected_witness :
  (wi_log (snd (log_in (server ET_On [acknowledged_response])))).*2 = [[false; false]; [true; true]] /\
  Forall (fun e => outgoing_type e.1 = PreLogin \/ on_tls e) (wi_log (snd (log_in (server ET_On [acknowledged_response])))) /\
  let w' := snd (SessionHandler_execute sample_env lenient_factory 5 sample_transport (server ET_Off [acknowledged_response])) in
  rw_encryption_setting w' = LoginOnly /\ (wi_log w').*2 = [[false; false]; [true; false]] /\
  Forall (fun e => outgoing_type e.1 = Login7 -> first_on_tls e) (wi_log w').
Proof.
  split; [by vm_compute|split].
  - pose proof (login_is_protected wi_log wi_tls sample_env sample_factory 5 sample_transport
      (server ET_On [acknowledged_response]) eq_refl ltac:(done)) as Hp. fold (log_in (server ET_On [acknowledged_response])) in Hp.
    destruct (log_in _) as [r w']. destruct Hp as (es & Hl & _ & Hf & _). cbn [snd]. rewrite Hl. by apply Hf.
  - assert (rw_encryption_setting (snd (SessionHandler_execute sample_env lenient_factory 5 sample_transport
              (server ET_Off [acknowledged_response]))) = LoginOnly) as Hs by (by vm_compute).
    split; [exact Hs|split; [by vm_compute|]].
    pose proof (login_is_protected wi_log wi_tls sample_env lenient_factory 5 sample_transport
      (server ET_Off [acknowledged_response]) eq_refl ltac:(done)) as Hp.
    destruct (SessionHandler_execute _ _ _ _ _) as [r w']. cbn [snd] in *.
    destruct Hp as (es & Hl & _ & _ & Hf). rewrite Hs in Hf. by rewrite Hl.
Defined.

Lemma login_rounds_end_witness :
  (login_rounds sample_factory 3 ∅ None (server ET_On [asking_response; acknowledged_response])).1 <> OutOfFuel.
Proof. apply (login_rounds_end (fun w => length (wi_answers w))); [done|]. cbn. lia. Defined.

Lemma opened_session_was_acknowledged_witness :
  exists settings w', log_in (server ET_On [acknowledged_response]) = (Ok (settings, [], []), w') /\
    negotiated_encryption_settings (session_settings settings) = Mandatory.
Proof.
  eexists _, _. assert (log_in (server ET_On [acknowledged_response]) = (Ok (_, [], []), _)) as E by (vm_compute; reflexivity).
  split; [exact E|]. rewrite (proj2 (opened_session_was_acknowledged wi_log wi_tls _ _ _ _ _ _ _ _ _ E)). reflexivity.
Defined.
