(* ===== verification/SqlTypes.v ===== *)
(** * Parameter values (src/mssql-tds/src/datatypes/sqltypes.rs, sql_tvp.rs, sql_udt.rs and encoder.rs)

    [SqlType], the value of an RPC parameter: what is checked before it is sent, its TYPE_INFO, the
    column value and context the value serializer gets, the legacy large objects and JSON documents
    with a framing of their own, table-valued parameters, and the values that a batch writes without
    awaiting. *)

From stdpp Require Import strings.
From S2P Require Import Prelude Core Unicode PacketReader Tokens DataTypes ColMetadata Values Decoder Decimal NarrowText.
From S2P Require Import ReadBuffer Transport PacketWriter ValueSerializer Text.

(** ** Names of types *)

Record TvpTypeName := { tvp_db_name : option str; tvp_schema_name : option str; tvp_type_name : str }.

Definition TvpTypeName_new (schema_name : option str) (type_name : str) : TvpTypeName :=
  {| tvp_db_name := None; tvp_schema_name := schema_name; tvp_type_name := type_name |}.

Definition TvpTypeName_validate (n : TvpTypeName) : TdsResult unit :=
  if decide (tvp_type_name n = []) then Err (UsageError "TVP type name must not be empty") else Ok tt.

Record UdtTypeName := { clr_db_name : option str; clr_schema_name : option str; clr_type_name : str }.

Definition part_too_long : Error := UsageError "type name part is too long (max 255)".

(** The parts that are there, each within 255 UTF-16 units. *)
Definition UdtTypeName_validate (n : UdtTypeName) : TdsResult unit :=
  if decide (clr_type_name n = []) then Err (UsageError "UDT type name must not be empty")
  else if existsb (fun part => 255 <? Z.of_nat (length (utf16 part)))
            (omap id [clr_db_name n; clr_schema_name n; Some (clr_type_name n)])
  then Err part_too_long
  else Ok tt.

Definition write_b_varchar (value : option str) : M PacketWriter unit :=
  match value with
  | None | Some [] => write_byte_async 0
  | Some s =>
      let char_count := Z.of_nat (length (utf16 s)) in
      if 255 <? char_count then throw part_too_long
      else write_byte_async (as_u8 char_count) ;; write_string_unicode_async s
  end.

Definition write_udt_type_name (n : UdtTypeName) : M PacketWriter unit :=
  lift (UdtTypeName_validate n) ;;
  write_b_varchar (clr_db_name n) ;; write_b_varchar (clr_schema_name n) ;; write_b_varchar (Some (clr_type_name n)).

Definition write_tvp_type_name (n : TvpTypeName) : M PacketWriter unit :=
  write_b_varchar (tvp_db_name n) ;; write_b_varchar (tvp_schema_name n) ;; write_b_varchar (Some (tvp_type_name n)).

(** ** The values *)

(** Flags are their bits; [T] is the type of the templates and cells, [SqlType] below. *)
Record TvpColumnDef (T : Type) := {
  tvp_column_type : T;
  tvp_flags : Z;
  tvp_precision : option Z;
  tvp_scale : option Z;
}.
Arguments tvp_column_type {T} _.
Arguments tvp_flags {T} _.
Arguments tvp_precision {T} _.
Arguments tvp_scale {T} _.

Record TvpOrderHint := { column_ordinal : Z; hint_flags : Z }.

Record TvpTableData (T : Type) := {
  tvp_columns : list (TvpColumnDef T);
  tvp_rows : list (list T);
  tvp_order_hints : list TvpOrderHint;
}.
Arguments tvp_columns {T} _.
Arguments tvp_rows {T} _.
Arguments tvp_order_hints {T} _.

(** Floats are their bits, a UUID the bytes of its little-endian form. *)
Inductive SqlType :=
  | T_Bit (v : option bool)
  | T_TinyInt (v : option Z)
  | T_SmallInt (v : option Z)
  | T_Int (v : option Z)
  | T_BigInt (v : option Z)
  | T_Real (v : option Z)
  | T_Float (v : option Z)
  | T_Decimal (v : option DecimalParts)
  | T_Numeric (v : option DecimalParts)
  | T_Money (v : option SqlMoney)
  | T_SmallMoney (v : option SqlSmallMoney)
  | T_Time (v : option SqlTime)
  | T_DateTime2 (v : option SqlDateTime2)
  | T_DateTimeOffset (v : option SqlDateTimeOffset)
  | T_SmallDateTime (v : option SqlSmallDateTime)
  | T_DateTime (v : option SqlDateTime)
  | T_Date (v : option SqlDate)
  | T_NVarchar (v : option SqlString) (length : Z)
  | T_NVarcharMax (v : option SqlString)
  | T_Varchar (v : option SqlString) (length : Z)
  | T_VarcharMax (v : option SqlString)
  | T_VarBinary (v : option bytes) (length : Z)
  | T_VarBinaryMax (v : option bytes)
  | T_Binary (v : option bytes) (length : Z)
  | T_Char (v : option SqlString) (length : Z)
  | T_NChar (v : option SqlString) (length : Z)
  | T_Text (v : option SqlString)
  | T_NText (v : option SqlString)
  | T_Image (v : option bytes)
  | T_Json (v : option SqlJson)
  | T_Xml (v : option SqlXml)
  | T_Uuid (v : option bytes)
  | T_Vector (v : option SqlVector) (dimensions : Z) (base : VectorBaseType)
  | T_Variant (inner : SqlType)
  | T_Table (name : TvpTypeName) (table : option (TvpTableData SqlType))
  | T_Udt (name : UdtTypeName) (v : option bytes).

Record RpcTypeMetadata := { md_precision : option Z; md_scale : option Z }.

Definition VAR_TDS_MAX_LENGTH : Z := 8000.
Definition SQL_VARIANT_MAX_LENGTH : Z := 8009.
Definition MAX_U16_LENGTH : Z := 65535.
Definition NVARCHAR_MAX_INLINE_CHARS : Z := 4000.
Definition DECIMAL_FIXED_SIZE : Z := 17.
Definition NO_XML_SCHEMA : Z := 0.
Definition LEGACY_LOB_MAX_BYTES : Z := 0x7fffffff.
Definition DEFAULT_VARTIME_SCALE : Z := 7.
Definition usize_MAX : Z := 2 ^ 64 - 1.

Definition nvarchar_inline_max_bytes (chars : Z) : option Z :=
  if NVARCHAR_MAX_INLINE_CHARS <? chars then None else Some (chars * 2).

(** [if param_len > VAR_TDS_MAX_LENGTH { MAX_U16_LENGTH } else { param_len }] *)
Definition inline_max_bytes (param_len : Z) : Z := if VAR_TDS_MAX_LENGTH <? param_len then MAX_U16_LENGTH else param_len.

Definition nchar_max_bytes (param_len : Z) : Z := if 4000 <? param_len then MAX_U16_LENGTH else param_len * 2.

Definition get_nullable_type (v : SqlType) : TdsDataType :=
  match v with
  | T_Bit _ | T_TinyInt _ | T_SmallInt _ | T_Int _ | T_BigInt _ => DT_IntN
  | T_Real _ | T_Float _ => DT_FltN
  | T_Decimal _ | T_Numeric _ => DT_NumericN
  | T_NVarchar _ _ | T_NVarcharMax _ => DT_NVarChar
  | T_VarBinary _ _ | T_VarBinaryMax _ => DT_BigVarBinary
  | T_Binary _ _ => DT_BigBinary
  | T_Char _ _ => DT_BigChar
  | T_NChar _ _ => DT_NChar
  | T_Text _ => DT_Text
  | T_NText _ => DT_NText
  | T_Image _ => DT_Image
  | T_Json _ => DT_Json
  | T_Time _ => DT_TimeN
  | T_DateTime2 _ => DT_DateTime2N
  | T_DateTimeOffset _ => DT_DateTimeOffsetN
  | T_DateTime _ | T_SmallDateTime _ => DT_DateTimeN
  | T_Date _ => DT_DateN
  | T_Varchar _ _ | T_VarcharMax _ => DT_BigVarChar
  | T_Xml _ => DT_Xml
  | T_Uuid _ => DT_Guid
  | T_Money _ | T_SmallMoney _ => DT_MoneyN
  | T_Vector _ _ _ => DT_Vector
  | T_Variant _ => DT_SsVariant
  | T_Table _ _ => DT_SqlTable
  | T_Udt _ _ => DT_Udt
  end.

(** [FixedLengthTypes::try_from(&SqlType)]. *)
Definition FixedLengthTypes_of (v : SqlType) : TdsResult FixedLengthTypes :=
  match v with
  | T_Bit _ | T_TinyInt _ => Ok FL_Int1
  | T_SmallInt _ => Ok FL_Int2
  | T_Int _ => Ok FL_Int4
  | T_BigInt _ => Ok FL_Int8
  | T_Real _ => Ok FL_Flt4
  | T_Float _ => Ok FL_Flt8
  | _ => Err (UsageError "SqlType is not a fixed length type.")
  end.

Definition get_fixed_length_size (v : SqlType) : TdsResult Z :=
  match FixedLengthTypes_of v with
  | Ok t => Ok (FixedLengthTypes_get_len t)
  | _ => Panic "SqlType is not a fixed length type."
  end.

(** ** Column value and context *)

Definition nullable {A} (C : A -> ColumnValues) (opt : option A) : ColumnValues :=
  match opt with Some v => C v | None => Null end.

(** The [base_ctx] of a type, with the fields its arm replaces. *)
Definition rpc_ctx (t : TdsDataType) (max_size : Z) (is_plp : bool) (collation : option SqlCollation) : TdsTypeContext :=
  {| ctx_tds_type := TdsDataType_u8 t; ctx_max_size := max_size; ctx_is_plp := is_plp; ctx_is_fixed_length := false;
     ctx_precision := None; ctx_scale := None; ctx_collation := collation; ctx_is_nullable := true |}.

(** Fixed to precision 38, for which the serializer writes all 17 bytes. *)
Definition decimal_ctx : TdsTypeContext :=
  {| ctx_tds_type := TdsDataType_u8 DT_NumericN; ctx_max_size := DECIMAL_FIXED_SIZE; ctx_is_plp := false;
     ctx_is_fixed_length := false; ctx_precision := Some 38; ctx_scale := Some 0; ctx_collation := None;
     ctx_is_nullable := true |}.

(** [VECTOR_HEADER_SIZE as u16 + dimensions * element_size], in [u16]. *)
Definition vector_exact_size (dimensions : Z) (base : VectorBaseType) : TdsResult Z :=
  let elements := dimensions * element_size_bytes base in
  if 65535 <? elements then Panic "attempt to multiply with overflow"
  else if 65535 <? VECTOR_HEADER_SIZE + elements then Panic "attempt to add with overflow"
  else Ok (VECTOR_HEADER_SIZE + elements).

Fixpoint to_column_value_and_context (v : SqlType) (db_collation : SqlCollation) : TdsResult (ColumnValues * TdsTypeContext) :=
  let plain t size := rpc_ctx t size false None in
  let text t size is_plp := rpc_ctx t size is_plp (Some db_collation) in
  match v with
  | T_Bit opt => Ok (nullable Bit opt, plain DT_IntN 1)
  | T_TinyInt opt => Ok (nullable TinyInt opt, plain DT_IntN 1)
  | T_SmallInt opt => Ok (nullable SmallInt opt, plain DT_IntN 2)
  | T_Int opt => Ok (nullable Int opt, plain DT_IntN 4)
  | T_BigInt opt => Ok (nullable BigInt opt, plain DT_IntN 8)
  | T_Real opt => Ok (nullable Real opt, plain DT_FltN 4)
  | T_Float opt => Ok (nullable Float opt, plain DT_FltN 8)
  | T_Decimal opt => Ok (nullable Decimal opt, decimal_ctx)
  | T_Numeric opt => Ok (nullable Numeric opt, decimal_ctx)
  | T_Money opt => Ok (nullable Money opt, plain DT_MoneyN 8)
  | T_SmallMoney opt => Ok (nullable SmallMoney opt, plain DT_MoneyN 4)
  | T_Date opt => Ok (nullable Date opt, plain DT_DateN 0)
  | T_Time opt => Ok (nullable Time opt, plain DT_TimeN 0)
  | T_DateTime opt => Ok (nullable DateTime opt, plain DT_DateTimeN 8)
  | T_SmallDateTime opt => Ok (nullable SmallDateTime opt, plain DT_DateTimeN 4)
  | T_DateTime2 opt => Ok (nullable DateTime2 opt, plain DT_DateTime2N 0)
  | T_DateTimeOffset opt => Ok (nullable DateTimeOffset opt, plain DT_DateTimeOffsetN 0)
  | T_Uuid opt => Ok (nullable Uuid opt, plain DT_Guid 16)
  | T_NVarchar opt param_len =>
      let param_len := default MAX_U16_LENGTH (nvarchar_inline_max_bytes param_len) in
      let is_plp := param_len =? MAX_U16_LENGTH in
      Ok (nullable CString opt, text DT_NVarChar (if is_plp then usize_MAX else param_len / 2) is_plp)
  | T_NVarcharMax opt => Ok (nullable CString opt, text DT_NVarChar usize_MAX true)
  | T_Varchar opt param_len =>
      let param_len := inline_max_bytes param_len in
      let is_plp := param_len =? MAX_U16_LENGTH in
      Ok (nullable CString opt, text DT_BigVarChar (if is_plp then usize_MAX else param_len) is_plp)
  | T_VarcharMax opt => Ok (nullable CString opt, text DT_BigVarChar usize_MAX true)
  | T_Char opt param_len => Ok (nullable CString opt, text DT_BigChar (inline_max_bytes param_len) false)
  | T_NChar opt param_len => Ok (nullable CString opt, text DT_NChar (nchar_max_bytes param_len / 2) false)
  | T_Text opt => Ok (nullable CString opt, text DT_Text usize_MAX false)
  | T_NText opt => Ok (nullable CString opt, text DT_NText usize_MAX false)
  | T_Image opt => Ok (nullable CBytes opt, plain DT_Image usize_MAX)
  | T_Binary opt param_len => Ok (nullable CBytes opt, plain DT_BigBinary (inline_max_bytes param_len))
  | T_VarBinary opt param_len =>
      let param_len := inline_max_bytes param_len in
      Ok (nullable CBytes opt, rpc_ctx DT_BigVarBinary param_len (param_len =? MAX_U16_LENGTH) None)
  | T_VarBinaryMax opt => Ok (nullable CBytes opt, rpc_ctx DT_BigVarBinary usize_MAX true None)
  | T_Xml opt => Ok (nullable Xml opt, rpc_ctx DT_Xml usize_MAX true None)
  | T_Json opt => Ok (nullable Json opt, rpc_ctx DT_Json usize_MAX true None)
  | T_Vector opt dimensions base =>
      let? exact_size := vector_exact_size dimensions base in Ok (nullable Vector opt, plain DT_Vector exact_size)
  | T_Variant inner =>
      let? '(cv, ctx) := to_column_value_and_context inner db_collation in
      Ok (cv, {| ctx_tds_type := TdsDataType_u8 DT_SsVariant; ctx_max_size := ctx_max_size ctx;
                 ctx_is_plp := ctx_is_plp ctx; ctx_is_fixed_length := ctx_is_fixed_length ctx;
                 ctx_precision := ctx_precision ctx; ctx_scale := ctx_scale ctx;
                 ctx_collation := ctx_collation ctx; ctx_is_nullable := ctx_is_nullable ctx |})
  | T_Table _ _ => Ok (Null, plain DT_SqlTable 0)
  | T_Udt _ opt => Ok (nullable CBytes opt, rpc_ctx DT_Udt usize_MAX true None)
  end.

(** ** Checks *)

Definition validate_vector (vector : option SqlVector) (dimensions : Z) (base : VectorBaseType) : TdsResult unit :=
  if max_dimensions base <? dimensions then Err (UsageError "Vector dimensions exceeds maximum supported dimensions")
  else
    match vector with
    | None => Ok tt
    | Some vector =>
        if negb (VectorBaseType_u8 (base_type vector) =? VectorBaseType_u8 base)
        then Err (TypeConversionError "Vector base type mismatch")
        else if negb (element_count vector =? dimensions) then Err (TypeConversionError "Vector dimension mismatch")
        else Ok tt
    end.

(** The name under which a type is refused inside a [sql_variant]. *)
Definition unsupported_inner (inner : SqlType) : option string :=
  let refused (type_name : string) := Some type_name in
  match inner with
  | T_NVarcharMax _ => refused "nvarchar(max)"
  | T_VarcharMax _ => refused "varchar(max)"
  | T_VarBinaryMax _ => refused "varbinary(max)"
  | T_Text _ => refused "text"
  | T_NText _ => refused "ntext"
  | T_Image _ => refused "image"
  | T_Xml _ => refused "xml"
  | T_Json _ => refused "json"
  | T_Vector _ _ _ => refused "vector"
  | T_Udt _ _ => refused "udt"
  | T_Variant _ => refused "sql_variant (nested)"
  | T_Table _ _ => refused "table-valued parameter (TVP)"
  | T_NVarchar _ len => match nvarchar_inline_max_bytes len with None => refused "nvarchar(max)" | Some _ => None end
  | T_Varchar _ len => if VAR_TDS_MAX_LENGTH <? len then refused "varchar(max)" else None
  | T_VarBinary _ len => if VAR_TDS_MAX_LENGTH <? len then refused "varbinary(max)" else None
  | _ => None
  end.

Definition validate_variant_inner (inner : SqlType) : TdsResult unit :=
  match unsupported_inner inner with
  | Some type_name => Err (UsageError ("sql_variant cannot hold a value of type " +:+ type_name +:+ "."))
  | None => Ok tt
  end.

Definition validate_ntext (value : SqlString) : TdsResult unit :=
  match encoding_type value with
  | Utf16 | DelayedSet =>
      if Nat.even (length (sql_bytes value)) then Ok tt
      else Err (UsageError "NTEXT data must contain complete UTF-16 code units.")
  | _ => Ok tt
  end.

Definition legacy_lob_length (length : nat) : TdsResult Z :=
  if Z.of_nat length <=? LEGACY_LOB_MAX_BYTES then Ok (Z.of_nat length)
  else Err (UsageError "Legacy LOB exceeds 2 GiB - 1 bytes.").

(** [effective_narrow_string_byte_limit] of [SqlType]. *)
Definition value_narrow_limit (v : SqlType) (column_limit : option Z) : option Z :=
  let value_limit := match v with
                     | T_Char (Some value) _ | T_Varchar (Some value) _ | T_VarcharMax (Some value) | T_Text (Some value) =>
                         narrow_string_byte_limit value
                     | _ => None
                     end in
  match value_limit, column_limit with
  | Some value_limit, Some column_limit => Some (Z.min value_limit column_limit)
  | Some value_limit, None => Some value_limit
  | None, column_limit => column_limit
  end.

Section values.
Context `{rs : EncodingRs} `{narrow : HalfCrateNarrow}.

(** ** Legacy large objects *)

Definition legacy_lob_wire_bytes (v : SqlType) (collation : SqlCollation) : TdsResult (option bytes * bool) :=
  match v with
  | T_Text (Some value) =>
      let? '(bs, had_loss) := narrow_string_wire_bytes value (Some collation) in Ok (Some bs, had_loss)
  | T_NText (Some value) =>
      let? _ := validate_ntext value in
      match encoding_type value with
      | Utf16 | DelayedSet => Ok (Some (sql_bytes value), false)
      | _ => let? text := to_utf8_string value in Ok (Some (units_le (utf16 text)), false)
      end
  | T_Image (Some bs) => Ok (Some bs, false)
  | T_Text None | T_NText None | T_Image None => Ok (None, false)
  | _ => Err (ImplementationError "Legacy LOB serialization requires text, ntext, or image.")
  end.

Definition fit_legacy_lob (v : SqlType) (bs : bytes) (limit : option Z) : TdsResult (bytes * Z) :=
  let? bs := match limit, v with Some maximum, T_Text _ => fit_narrow_byte_limit bs maximum | _, _ => Ok bs end in
  let? length := legacy_lob_length (length bs) in
  Ok (bs, length).

Definition validate_legacy_lob_length (v : SqlType) (collation : SqlCollation) (limit : option Z) : TdsResult unit :=
  let check source_len :=
    let limited_text := match v, limit with T_Text _, Some maximum => maximum <=? LEGACY_LOB_MAX_BYTES | _, _ => false end in
    if limited_text || (Z.of_nat source_len <=? LEGACY_LOB_MAX_BYTES / 3) then Ok tt
    else
      let? '(encoded, _) := legacy_lob_wire_bytes v collation in
      match encoded with Some bs => let? _ := fit_legacy_lob v bs limit in Ok tt | None => Ok tt end in
  match v with
  | T_Text (Some value) | T_NText (Some value) => check (length (sql_bytes value))
  | T_Image (Some bs) => check (length bs)
  | _ => Ok tt
  end.

Definition write_legacy_lob_type_info (v : SqlType) (collation : SqlCollation) (length : Z) : M PacketWriter unit :=
  write_byte_async (TdsDataType_u8 (get_nullable_type v)) ;;
  write_u32_async length ;;
  match v with
  | T_Image _ => ret tt
  | _ => write_u32_async (info collation) ;; write_byte_async (sort_id collation)
  end.

(** ** Before sending *)

(** The checks that keep invalid input local; [T_Table] is not among them. *)
Fixpoint validate_for_send (v : SqlType) (db_collation : SqlCollation) (column_limit : option Z) : TdsResult unit :=
  let limit := value_narrow_limit v column_limit in
  let has_limit := match limit with Some _ => true | None => false end in
  let narrow_text :=
    let? '(value, ctx) := to_column_value_and_context v db_collation in
    let? _ := validate_narrow_string_length value ctx limit in
    validate_legacy_lob_length v db_collation limit in
  match v with
  | T_Udt type_name _ => UdtTypeName_validate type_name
  | T_NText (Some value) =>
      let? _ := validate_ntext value in validate_legacy_lob_length v db_collation limit
  | T_Image (Some _) => validate_legacy_lob_length v db_collation limit
  | T_Variant inner =>
      let? _ := validate_variant_inner inner in validate_for_send inner db_collation limit
  | T_Varchar _ length => if negb has_limit && (VAR_TDS_MAX_LENGTH <? length) then Ok tt else narrow_text
  | T_VarcharMax _ => if negb has_limit then Ok tt else narrow_text
  | T_Text _ => if negb has_limit then validate_legacy_lob_length v db_collation None else narrow_text
  | T_Vector vector dimensions base => validate_vector vector dimensions base
  | T_Char _ _ => narrow_text
  | _ => Ok tt
  end.

(** ** TYPE_INFO *)

Definition collated_type_info_bytes (tds_type length : Z) (collation : SqlCollation) : bytes :=
  [byte_of tds_type] ++ le_bytes 2 length ++ le_bytes 4 (info collation) ++ [byte_of (sort_id collation)].

Definition write_collated_type_info (tds_type length : Z) (collation : SqlCollation) : M PacketWriter unit :=
  write_fixed_bytes (collated_type_info_bytes tds_type length collation).

(** [a.or_else(|| b).unwrap_or(c)] *)
Definition override (a b : option Z) (c : Z) : Z := default c (match a with Some _ => a | None => b end).

Definition write_type_info (v : SqlType) (db_collation : SqlCollation) (precision_override scale_override : option Z)
    : M PacketWriter unit :=
  let nullable_type := TdsDataType_u8 (get_nullable_type v) in
  let sized size := write_byte_async nullable_type ;; write_byte_async size in
  let collated param_len := write_collated_type_info nullable_type param_len db_collation in
  let long_sized param_len := write_byte_async nullable_type ;; write_u16_async param_len in
  match v with
  | T_Bit _ | T_TinyInt _ | T_SmallInt _ | T_Int _ | T_BigInt _ | T_Real _ | T_Float _ =>
      type_size <- lift (get_fixed_length_size v) ;;
      write_fixed_bytes [byte_of nullable_type; byte_of type_size]
  | T_Decimal opt | T_Numeric opt =>
      write_byte_async nullable_type ;;
      write_byte_async DECIMAL_FIXED_SIZE ;;
      write_byte_async (override precision_override (dec_precision <$> opt) 1) ;;
      write_byte_async (override scale_override (dec_scale <$> opt) 0)
  | T_Money _ => sized 8
  | T_SmallMoney _ => sized 4
  | T_Uuid _ => sized 16
  | T_DateTime _ => sized 8
  | T_SmallDateTime _ => sized 4
  | T_Date _ => write_byte_async nullable_type
  | T_Time opt => sized (override scale_override (time_scale <$> opt) DEFAULT_VARTIME_SCALE)
  | T_DateTime2 opt =>
      sized (override scale_override ((fun d => time_scale (dt2_time d)) <$> opt) DEFAULT_VARTIME_SCALE)
  | T_DateTimeOffset opt =>
      sized (override scale_override ((fun d => time_scale (dt2_time (dto_datetime2 d))) <$> opt) DEFAULT_VARTIME_SCALE)
  | T_NVarchar _ param_len => collated (default MAX_U16_LENGTH (nvarchar_inline_max_bytes param_len))
  | T_NVarcharMax _ => collated MAX_U16_LENGTH
  | T_Varchar _ param_len => collated (inline_max_bytes param_len)
  | T_VarcharMax _ => collated MAX_U16_LENGTH
  | T_Char _ param_len => collated (inline_max_bytes param_len)
  | T_NChar _ param_len => collated (nchar_max_bytes param_len)
  | T_Text _ | T_NText _ | T_Image _ =>
      '(bs, _) <- lift (legacy_lob_wire_bytes v db_collation) ;;
      length <- lift (legacy_lob_length (match bs with Some bs => length bs | None => 0%nat end)) ;;
      write_legacy_lob_type_info v db_collation length
  | T_Binary _ param_len => long_sized (inline_max_bytes param_len)
  | T_VarBinary _ param_len => long_sized (inline_max_bytes param_len)
  | T_VarBinaryMax _ => long_sized 65535
  | T_Xml _ => sized NO_XML_SCHEMA
  | T_Json _ => write_byte_async nullable_type
  | T_Vector vector dimensions base =>
      write_byte_async nullable_type ;;
      lift (validate_vector vector dimensions base) ;;
      exact_size <- lift (vector_exact_size dimensions base) ;;
      write_u16_async exact_size ;;
      write_byte_async (VectorBaseType_u8 base)
  | T_Variant inner =>
      lift (validate_variant_inner inner) ;;
      write_byte_async nullable_type ;;
      write_u32_async SQL_VARIANT_MAX_LENGTH
  | T_Udt type_name _ => write_byte_async nullable_type ;; write_udt_type_name type_name
  | T_Table _ _ => throw (ImplementationError "TVP serialization is not handled by write_type_info")
  end.

Definition write_rpc_type_metadata (v : SqlType) (db_collation : SqlCollation) (type_metadata : option RpcTypeMetadata)
    : M PacketWriter unit :=
  write_type_info v db_collation (type_metadata ≫= md_precision) (type_metadata ≫= md_scale).

(** [serialize_json] of [SqlType]: the document as it is, in one chunk. *)
Definition serialize_json_parameter (json : option SqlJson) : M PacketWriter unit :=
  write_byte_async (TdsDataType_u8 DT_Json) ;;
  match json with
  | Some sqljson =>
      let data := json_bytes sqljson in
      write_u64_async PLP_UNKNOWN_LEN ;;
      write_u32_async (as_u32 (Z.of_nat (length data))) ;;
      write_async data ;;
      write_u32_async 0
  | None => write_u64_async PLP_NULL
  end.

(** ** Table-valued parameters *)

Definition TVP_ROW_TOKEN : Z := 0x01.
Definition TVP_END_TOKEN : Z := 0x00.
Definition TVP_ORDER_UNIQUE_TOKEN : Z := 0x10.
Definition TVP_NOMETADATA_TOKEN : Z := 0xFFFF.
Definition MAX_TVP_COLUMNS : nat := 1024.
Definition TVP_NULLABLE : Z := 0x0001.

Definition decimal_metadata (column : TvpColumnDef SqlType) : option (Z * Z) :=
  match tvp_column_type column with
  | T_Decimal value | T_Numeric value =>
      Some (override (tvp_precision column) (dec_precision <$> value) 1, override (tvp_scale column) (dec_scale <$> value) 0)
  | _ => None
  end.

Definition temporal_scale (column : TvpColumnDef SqlType) : option Z :=
  let scale value := override (tvp_scale column) (time_scale <$> value) DEFAULT_VARTIME_SCALE in
  match tvp_column_type column with
  | T_Time value => Some (scale value)
  | T_DateTime2 value => Some (scale (dt2_time <$> value))
  | T_DateTimeOffset value => Some (scale ((fun d => dt2_time (dto_datetime2 d)) <$> value))
  | _ => None
  end.

Definition validate_decimal_metadata (precision scale : Z) : TdsResult unit :=
  if negb ((1 <=? precision) && (precision <=? 38))
  then Err (UsageError "TVP decimal/numeric precision must be between 1 and 38")
  else if precision <? scale then Err (UsageError "TVP decimal/numeric scale exceeds precision")
  else Ok tt.

Definition TvpColumnDef_validate (column : TvpColumnDef SqlType) : TdsResult unit :=
  match tvp_column_type column with
  | T_Udt _ _ => Err (UsageError "UDT columns are not supported in table-valued parameters")
  | _ =>
      let? _ := match decimal_metadata column with
                | Some (precision, scale) => validate_decimal_metadata precision scale
                | None => Ok tt
                end in
      match temporal_scale column with
      | Some scale =>
          if DEFAULT_VARTIME_SCALE <? scale then Err (UsageError "TVP temporal scale must be between 0 and 7") else Ok tt
      | None => Ok tt
      end
  end.

(** [u128::ilog10]. *)
Fixpoint ilog10_loop (fuel : nat) (n : Z) : Z :=
  match fuel with
  | O => 0
  | S fuel => if n <? 10 then 0 else 1 + ilog10_loop fuel (n / 10)
  end.
Definition ilog10 (n : Z) : Z := ilog10_loop 40 n.

Definition checked_pow10 (e : Z) : option Z := checked_u128 (10 ^ e).

(** The magnitude at another scale, if no digit is lost. *)
Definition rescale (m from to : Z) : TdsResult Z :=
  if to <? from then
    match checked_pow10 (from - to) with
    | None => Err (UsageError "TVP decimal/numeric value scale cannot be converted")
    | Some scale_factor =>
        if m mod scale_factor =? 0 then Ok (m / scale_factor)
        else Err (UsageError "TVP decimal/numeric value cannot be represented at scale without truncation")
    end
  else if from <? to then
    match checked_u128 (m * 10 ^ (to - from)) with
    | None => Err (UsageError "TVP decimal/numeric value magnitude is too large to rescale")
    | Some m => Ok m
    end
  else Ok m.

Definition apply_decimal_metadata (value : DecimalParts) (precision scale : Z) : TdsResult DecimalParts :=
  let? _ := validate_decimal_metadata precision scale in
  let? m := rescale (magnitude value) (dec_scale value) scale in
  let digits := if m =? 0 then 1 else ilog10 m + 1 in
  if precision <? digits then Err (UsageError "TVP decimal/numeric value exceeds precision after scaling")
  else Ok (DecimalParts_new (is_positive value) precision scale m).

Definition temporal_value_fits_scale (value : SqlTime) (scale : Z) : bool :=
  if DEFAULT_VARTIME_SCALE <? scale then false
  else time_nanoseconds value mod 10 ^ (DEFAULT_VARTIME_SCALE - scale) =? 0.

Definition apply_temporal_scale (value : ColumnValues) (scale : Z) : TdsResult ColumnValues :=
  let rescaled (time : SqlTime) (rebuild : SqlTime -> ColumnValues) :=
    if temporal_value_fits_scale time scale
    then Ok (rebuild {| time_nanoseconds := time_nanoseconds time; time_scale := scale |})
    else Err (UsageError "TVP temporal value cannot be represented at scale") in
  match value with
  | Time t => rescaled t Time
  | DateTime2 d => rescaled (dt2_time d) (fun t => DateTime2 {| dt2_days := dt2_days d; dt2_time := t |})
  | DateTimeOffset o =>
      rescaled (dt2_time (dto_datetime2 o)) (fun t =>
        DateTimeOffset {| dto_datetime2 := {| dt2_days := dt2_days (dto_datetime2 o); dt2_time := t |};
                          dto_offset := dto_offset o |})
  | _ => Ok value
  end.

Definition apply_column_metadata (column : TvpColumnDef SqlType) (value : ColumnValues) : TdsResult ColumnValues :=
  let? value := match decimal_metadata column, value with
                | Some (precision, scale), Decimal d =>
                    let? d := apply_decimal_metadata d precision scale in Ok (Decimal d)
                | Some (precision, scale), Numeric d =>
                    let? d := apply_decimal_metadata d precision scale in Ok (Numeric d)
                | _, _ => Ok value
                end in
  match temporal_scale column with Some scale => apply_temporal_scale value scale | None => Ok value end.

(** [std::mem::discriminant]. *)
Definition discriminant (v : SqlType) : Z :=
  match v with
  | T_Bit _ => 0 | T_TinyInt _ => 1 | T_SmallInt _ => 2 | T_Int _ => 3 | T_BigInt _ => 4 | T_Real _ => 5
  | T_Float _ => 6 | T_Decimal _ => 7 | T_Numeric _ => 8 | T_Money _ => 9 | T_SmallMoney _ => 10 | T_Time _ => 11
  | T_DateTime2 _ => 12 | T_DateTimeOffset _ => 13 | T_SmallDateTime _ => 14 | T_DateTime _ => 15 | T_Date _ => 16
  | T_NVarchar _ _ => 17 | T_NVarcharMax _ => 18 | T_Varchar _ _ => 19 | T_VarcharMax _ => 20 | T_VarBinary _ _ => 21
  | T_VarBinaryMax _ => 22 | T_Binary _ _ => 23 | T_Char _ _ => 24 | T_NChar _ _ => 25 | T_Text _ => 26
  | T_NText _ => 27 | T_Image _ => 28 | T_Json _ => 29 | T_Xml _ => 30 | T_Uuid _ => 31 | T_Vector _ _ _ => 32
  | T_Variant _ => 33 | T_Table _ _ => 34 | T_Udt _ _ => 35
  end.

(** [Error::with_tvp_cell_context] and [with_tvp_parameter_context] of error/mod.rs. *)
Definition with_tvp_cell_context (row column : nat) (e : Error) : Error :=
  match e with
  | UsageError _ | TypeConversionError _ | EncodedValueTooLong _ _ => TvpCellSerialization UnknownParameter (row + 1) (column + 1) e
  | _ => e
  end.

Definition with_tvp_parameter_context (parameter : TvpParameterRef) (e : Error) : Error :=
  match e with TvpCellSerialization _ row column source => TvpCellSerialization parameter row column source | _ => e end.

(** [result.map_err(f)]. *)
Definition map_err {A} (f : Error -> Error) (r : TdsResult A) : TdsResult A :=
  match r with Err e => Err (f e) | r => r end.

Fixpoint each_indexed {A} (f : nat -> A -> TdsResult unit) (i : nat) (l : list A) : TdsResult unit :=
  match l with
  | [] => Ok tt
  | x :: l => let? _ := f i x in each_indexed f (S i) l
  end.

(** A cell against its column: the type, the temporal scale, the decimal rescaling. *)
Definition check_cell (column : TvpColumnDef SqlType) (cell : SqlType) : TdsResult unit :=
  if negb (discriminant cell =? discriminant (tvp_column_type column)) then Err (UsageError "TVP type mismatch")
  else
    let temporal_value := match cell with
                          | T_Time (Some value) => Some value
                          | T_DateTime2 (Some value) => Some (dt2_time value)
                          | T_DateTimeOffset (Some value) => Some (dt2_time (dto_datetime2 value))
                          | _ => None
                          end in
    let fits := match temporal_scale column, temporal_value with
                | Some scale, Some value => temporal_value_fits_scale value scale
                | _, _ => true
                end in
    if negb fits then Err (UsageError "TVP value cannot be represented at temporal scale")
    else
      match decimal_metadata column, cell with
      | Some (precision, scale), (T_Decimal (Some value) | T_Numeric (Some value)) =>
          let? _ := apply_decimal_metadata value precision scale in Ok tt
      | _, _ => Ok tt
      end.

Definition check_row (columns : list (TvpColumnDef SqlType)) (row_idx : nat) (row : list SqlType) : TdsResult unit :=
  if negb (length row =? length columns)%nat then Err (UsageError "TVP row does not have the columns of the table type")
  else each_indexed (fun col_idx '(column, cell) => map_err (with_tvp_cell_context row_idx col_idx) (check_cell column cell))
         0 (zip columns row).

Definition TvpTableData_validate (t : TvpTableData SqlType) : TdsResult unit :=
  if decide (tvp_columns t = []) then Err (UsageError "TVP must have at least one column")
  else if (MAX_TVP_COLUMNS <? length (tvp_columns t))%nat then Err (UsageError "TVP has too many columns for SQL Server")
  else
    let? _ := each_indexed (fun _ column => TvpColumnDef_validate column) 0 (tvp_columns t) in
    each_indexed (check_row (tvp_columns t)) 0 (tvp_rows t).

Definition write_tvp_column (column : TvpColumnDef SqlType) (db_collation : SqlCollation) : M PacketWriter unit :=
  match tvp_column_type column with
  | T_Text _ | T_NText _ | T_Image _ => throw (UsageError "Legacy LOB types (text/ntext/image) are not allowed as TVP columns")
  | _ =>
      write_u32_async 0 ;;
      write_u16_async (Z.lor (tvp_flags column) TVP_NULLABLE) ;;
      write_type_info (tvp_column_type column) db_collation (tvp_precision column) (tvp_scale column) ;;
      write_byte_async 0
  end.

Definition write_tvp_column_metadata (columns : list (TvpColumnDef SqlType)) (db_collation : SqlCollation)
    : M PacketWriter unit :=
  if 65535 <? Z.of_nat (length columns) then throw (UsageError "TVP has too many columns")
  else
    write_u16_async (as_u16 (Z.of_nat (length columns))) ;;
    write_all_of (fun column => write_tvp_column column db_collation) columns.

Definition write_tvp_order_unique (order_hints : list TvpOrderHint) : M PacketWriter unit :=
  (match order_hints with
   | [] => ret tt
   | _ =>
       write_byte_async TVP_ORDER_UNIQUE_TOKEN ;;
       write_u16_async (as_u16 (Z.of_nat (length order_hints))) ;;
       write_all_of (fun hint => write_u16_async (column_ordinal hint) ;; write_byte_async (hint_flags hint)) order_hints
   end) ;;
  write_byte_async TVP_END_TOKEN.

(** [result.map_err(f)] after an await. *)
Definition map_err_async {S A} (f : Error -> Error) (m : M S A) : M S A :=
  fun s => let '(r, s') := m s in (map_err f r, s').

Fixpoint write_indexed {A} (write : nat -> A -> M PacketWriter unit) (i : nat) (l : list A) : M PacketWriter unit :=
  match l with
  | [] => ret tt
  | x :: l => write i x ;; write_indexed write (S i) l
  end.

(** The context is the column's, but for a [sql_variant], whose cells have their own. *)
Definition write_tvp_cell (db_collation : SqlCollation) (column : TvpColumnDef SqlType) (cell : SqlType)
    (context_of : Error -> Error) : M PacketWriter unit :=
  '(value, cell_ctx) <- lift (to_column_value_and_context cell db_collation) ;;
  ctx <- lift (match tvp_column_type column with
               | T_Variant _ => Ok cell_ctx
               | t => let? '(_, ctx) := to_column_value_and_context t db_collation in Ok ctx
               end) ;;
  map_err_async context_of
    (value <- lift (apply_column_metadata column value) ;;
     serialize_value_with_narrow_string_byte_limit value ctx None).

Definition write_tvp_row (columns : list (TvpColumnDef SqlType)) (db_collation : SqlCollation) (row_index : nat)
    (row : list SqlType) : M PacketWriter unit :=
  if negb (length row =? length columns)%nat then throw (UsageError "TVP row does not have the columns of the table type")
  else
    write_byte_async TVP_ROW_TOKEN ;;
    write_indexed (fun column_index '(column, cell) =>
      write_tvp_cell db_collation column cell (with_tvp_cell_context row_index column_index)) 0 (zip columns row).

Definition write_tvp_rows (columns : list (TvpColumnDef SqlType)) (rows : list (list SqlType)) (db_collation : SqlCollation)
    : M PacketWriter unit :=
  write_indexed (write_tvp_row columns db_collation) 0 rows ;; write_byte_async TVP_END_TOKEN.

Definition serialize_table (db_collation : SqlCollation) (type_name : TvpTypeName) (table : option (TvpTableData SqlType))
    : M PacketWriter unit :=
  lift (TvpTypeName_validate type_name) ;;
  write_byte_async (TdsDataType_u8 DT_SqlTable) ;;
  write_tvp_type_name type_name ;;
  match table with
  | None => write_u16_async TVP_NOMETADATA_TOKEN ;; write_byte_async TVP_END_TOKEN ;; write_byte_async TVP_END_TOKEN
  | Some data =>
      lift (TvpTableData_validate data) ;;
      write_tvp_column_metadata (tvp_columns data) db_collation ;;
      write_tvp_order_unique (tvp_order_hints data) ;;
      write_tvp_rows (tvp_columns data) (tvp_rows data) db_collation
  end.

(** ** The value of a parameter *)

(** Length, then bytes: RPC large objects have neither text pointer nor time stamp. *)
Definition serialize_legacy_lob (v : SqlType) (db_collation : SqlCollation) (limit : option Z) : M PacketWriter unit :=
  let limit := value_narrow_limit v limit in
  '(encoded, had_loss) <- lift (legacy_lob_wire_bytes v db_collation) ;;
  fitted <- lift (match encoded with
                  | Some bs => let? fitted := fit_legacy_lob v bs limit in Ok (Some fitted)
                  | None => Ok None
                  end) ;;
  let length := match fitted with Some (_, length) => length | None => 0 end in
  write_legacy_lob_type_info v db_collation length ;;
  write_u32_async (match fitted with Some _ => length | None => 0xFFFFFFFF end) ;;
  (match fitted with Some (bs, _) => write_async bs | None => ret tt end) ;;
  if (had_loss : bool) then modify note_code_page_conversion_loss else ret tt.

Definition serialize_with_narrow_string_byte_limit (v : SqlType) (db_collation : SqlCollation)
    (type_metadata : option RpcTypeMetadata) (limit : option Z) : M PacketWriter unit :=
  match v with
  | T_Json json => serialize_json_parameter json
  | T_Table type_name table => serialize_table db_collation type_name table
  | T_Text _ | T_NText _ | T_Image _ => serialize_legacy_lob v db_collation limit
  | _ =>
      write_rpc_type_metadata v db_collation type_metadata ;;
      '(column_value, ctx) <- lift (to_column_value_and_context v db_collation) ;;
      serialize_value_with_narrow_string_byte_limit column_value ctx limit
  end.
End values.

(** ** Values a batch writes without awaiting *)

Inductive RpcInlineValue :=
  | RI_Int (value : option Z)
  | RI_BigInt (value : option Z)
  | RI_NVarchar (max_bytes : Z) (value : option bytes).

Definition encoded_len (v : RpcInlineValue) : nat :=
  match v with
  | RI_Int value => 2 + match value with Some _ => 5 | None => 1 end
  | RI_BigInt value => 2 + match value with Some _ => 9 | None => 1 end
  | RI_NVarchar _ value => 8 + 2 + match value with Some bs => length bs | None => 0 end
  end%nat.

Definition RpcInlineValue_write (v : RpcInlineValue) (db_collation : SqlCollation) : M PacketWriter unit :=
  let INTN := byte_of (TdsDataType_u8 DT_IntN) in
  match v with
  | RI_Int value =>
      write_bytes_within_packet [INTN; byte_of 4] ;;
      match value with
      | Some value => write_bytes_within_packet (byte_of 4 :: le_bytes 4 value)
      | None => write_bytes_within_packet [byte_of NULL_LENGTH]
      end
  | RI_BigInt value =>
      write_bytes_within_packet [INTN; byte_of 8] ;;
      match value with
      | Some value => write_bytes_within_packet (byte_of 8 :: le_bytes 8 value)
      | None => write_bytes_within_packet [byte_of NULL_LENGTH]
      end
  | RI_NVarchar max_bytes value =>
      write_bytes_within_packet (collated_type_info_bytes (TdsDataType_u8 DT_NVarChar) max_bytes db_collation) ;;
      match value with
      | Some bs =>
          write_bytes_within_packet (le_bytes 2 (as_u16 (Z.of_nat (length bs)))) ;; write_bytes_within_packet bs
      | None => write_bytes_within_packet (le_bytes 2 VARNULL)
      end
  end.

(** [rpc_inline]: the values whose serialization cannot fail. *)
Definition rpc_inline (v : SqlType) : option RpcInlineValue :=
  match v with
  | T_Int value => Some (RI_Int value)
  | T_BigInt value => Some (RI_BigInt value)
  | T_NVarchar value chars =>
      max_bytes ← nvarchar_inline_max_bytes chars;
      match value with
      | None => Some (RI_NVarchar max_bytes None)
      | Some value =>
          bs ← match as_utf16_bytes value with Some bs => Some bs | None => as_raw_wire_bytes value end;
          if negb (Nat.even (length bs)) || (max_bytes <? Z.of_nat (length bs)) then None
          else Some (RI_NVarchar max_bytes (Some bs))
      end
  | _ => None
  end.
