(* ===== verification/SqlTypeLaws.v ===== *)
(** * Parameter values are described and sent as declared

    The TYPE_INFO of a validated parameter is written and read back, its value too; JSON documents,
    names of types, declarations, and the cells of table-valued parameters. *)

From stdpp Require Import strings.
From S2P Require Import Prelude Core ReadBuffer Transport Framing Unicode PacketReader Reader ReaderLaws Decimal PacketWriter Writer WriterText WriterMessage.
From S2P Require Import Tokens TokenParsers TokenLaws DataTypes ColMetadata Values Plp PlpLaws Decoder DecoderLaws ColMetadataLaws.
From S2P Require Import NarrowText ValueSerializer ValueWriting ValueRoundTrip VariantRoundTrip ValueLaws.
From S2P Require Import SqlIdentifier Text SqlTypes.

(** ** TYPE_INFO *)

Definition var_info (t : TdsDataType) (vdt : VariableLengthTypes) (len : Z) : TypeInfo :=
  {| tds_type := t; ti_length := len; type_info_variant := VarLen vdt len |}.

Definition time_info (t : TdsDataType) (vdt : VariableLengthTypes) (extra scale : Z) : option TypeInfo :=
  match get_time_length_from_scale scale with
  | Ok n => Some {| tds_type := t; ti_length := n + extra; type_info_variant := VarLenScale vdt scale |}
  | _ => None
  end.

(** The length 0xFFFF stands for a MAX type. *)
Definition text_info (t : TdsDataType) (vdt : VariableLengthTypes) (pt : PartialLengthType) (c : SqlCollation) (len : Z) : TypeInfo :=
  {| tds_type := t; ti_length := len;
     type_info_variant := if len =? 0xFFFF then PartialLen pt (Some 0xFFFF) (Some c) None None else VarLenString vdt len (Some c) |}.

Definition fixed_text_info (t : TdsDataType) (vdt : VariableLengthTypes) (c : SqlCollation) (len : Z) : TypeInfo :=
  {| tds_type := t; ti_length := len; type_info_variant := VarLenString vdt len (Some c) |}.

Definition binary_info (len : Z) : TypeInfo :=
  {| tds_type := DT_BigVarBinary; ti_length := len;
     type_info_variant := if len =? 0xFFFF then PartialLen PL_BigVarBinary (Some 0xFFFF) None None None
                          else VarLen VL_BigVarBinary len |}.

(** The type a parameter is announced with; the legacy large objects, tables and UDTs have forms of
    their own. *)
Definition parameter_type (c : SqlCollation) (v : SqlType) (p s : option Z) : option TypeInfo :=
  match v with
  | T_Bit _ | T_TinyInt _ => Some (var_info DT_IntN VL_IntN 1)
  | T_SmallInt _ => Some (var_info DT_IntN VL_IntN 2)
  | T_Int _ => Some (var_info DT_IntN VL_IntN 4)
  | T_BigInt _ => Some (var_info DT_IntN VL_IntN 8)
  | T_Real _ => Some (var_info DT_FltN VL_FltN 4)
  | T_Float _ => Some (var_info DT_FltN VL_FltN 8)
  | T_Decimal o | T_Numeric o =>
      Some {| tds_type := DT_NumericN; ti_length := 17;
              type_info_variant := VarLenPrecisionScale VL_NumericN 17 (override p (dec_precision <$> o) 1)
                                     (override s (dec_scale <$> o) 0) |}
  | T_Money _ => Some (var_info DT_MoneyN VL_MoneyN 8)
  | T_SmallMoney _ => Some (var_info DT_MoneyN VL_MoneyN 4)
  | T_Uuid _ => Some (var_info DT_Guid VL_Guid 16)
  | T_DateTime _ => Some (var_info DT_DateTimeN VL_DateTimeN 8)
  | T_SmallDateTime _ => Some (var_info DT_DateTimeN VL_DateTimeN 4)
  | T_Date _ => Some (var_info DT_DateN VL_DateN 3)
  | T_Time o => time_info DT_TimeN VL_TimeN 0 (override s (time_scale <$> o) 7)
  | T_DateTime2 o => time_info DT_DateTime2N VL_DateTime2N 3 (override s ((fun d => time_scale (dt2_time d)) <$> o) 7)
  | T_DateTimeOffset o =>
      time_info DT_DateTimeOffsetN VL_DateTimeOffsetN 5
        (override s ((fun d => time_scale (dt2_time (dto_datetime2 d))) <$> o) 7)
  | T_NVarchar _ len => Some (text_info DT_NVarChar VL_NVarChar PL_NVarChar c (default 0xFFFF (nvarchar_inline_max_bytes len)))
  | T_NVarcharMax _ => Some (text_info DT_NVarChar VL_NVarChar PL_NVarChar c 0xFFFF)
  | T_Varchar _ len => Some (text_info DT_BigVarChar VL_BigVarChar PL_BigVarChar c (inline_max_bytes len))
  | T_VarcharMax _ => Some (text_info DT_BigVarChar VL_BigVarChar PL_BigVarChar c 0xFFFF)
  | T_Char _ len => Some (fixed_text_info DT_BigChar VL_BigChar c (inline_max_bytes len))
  | T_NChar _ len => Some (fixed_text_info DT_NChar VL_NChar c (nchar_max_bytes len))
  | T_Binary _ len => Some (var_info DT_BigBinary VL_BigBinary (inline_max_bytes len))
  | T_VarBinary _ len => Some (binary_info (inline_max_bytes len))
  | T_VarBinaryMax _ => Some (binary_info 0xFFFF)
  | T_Xml _ =>
      Some {| tds_type := DT_Xml; ti_length := 0xFFFF; type_info_variant := PartialLen PL_Xml None None
                (Some {| schema_present := 0; xml_db_name := None; owning_schema := None; xml_schema_collection := None |}) None |}
  | T_Json _ => Some {| tds_type := DT_Json; ti_length := 0xFFFF; type_info_variant := PartialLen PL_Json None None None None |}
  | T_Vector _ d b =>
      Some {| tds_type := DT_Vector; ti_length := 8 + d * element_size_bytes b;
              type_info_variant := VarLenScale VL_Vector (VectorBaseType_u8 b) |}
  | T_Variant _ => Some (var_info DT_SsVariant VL_SsVariant 8009)
  | T_Text _ | T_NText _ | T_Image _ | T_Table _ _ | T_Udt _ _ => None
  end.

(** The ranges of the source's types, and a collation that is one. *)
Definition type_wf (c : SqlCollation) (v : SqlType) (p s : option Z) : Prop :=
  match v with
  | T_Decimal o | T_Numeric o =>
      0 <= override p (dec_precision <$> o) 1 < 256 /\ 0 <= override s (dec_scale <$> o) 0 < 256
  | T_NVarchar _ len | T_Varchar _ len | T_Char _ len | T_NChar _ len => in_unsigned 16 len /\ collation_wf c
  | T_NVarcharMax _ | T_VarcharMax _ => collation_wf c
  | T_Binary _ len | T_VarBinary _ len => in_unsigned 16 len
  | T_Vector _ d _ => 0 <= d
  | _ => True
  end.

Lemma inline_max_range len : in_unsigned 16 len -> in_unsigned 16 (inline_max_bytes len).
Proof. unfold inline_max_bytes, VAR_TDS_MAX_LENGTH, MAX_U16_LENGTH, in_unsigned. case_match; lia. Qed.

Lemma nchar_max_range len : in_unsigned 16 len -> in_unsigned 16 (nchar_max_bytes len).
Proof. unfold nchar_max_bytes, MAX_U16_LENGTH, in_unsigned. destruct (4000 <? len) eqn:E; lia. Qed.

Lemma nvarchar_max_range len : in_unsigned 16 len -> in_unsigned 16 (default 0xFFFF (nvarchar_inline_max_bytes len)).
Proof.
  unfold nvarchar_inline_max_bytes, NVARCHAR_MAX_INLINE_CHARS, in_unsigned. destruct (4000 <? len) eqn:E; cbn; lia.
Qed.

Lemma text_layout t vdt pt c len :
  In (t, vdt, pt) [(DT_NVarChar, VL_NVarChar, PL_NVarChar); (DT_BigVarChar, VL_BigVarChar, PL_BigVarChar)] ->
  in_unsigned 16 len -> collation_wf c -> type_info_layout (text_info t vdt pt c len) (le_bytes 2 len ++ encode_collation c).
Proof.
  intros Hi Hl Hc. unfold text_info. destruct (len =? 0xFFFF) eqn:E.
  - apply Z.eqb_eq in E as ->. in_cases Hi; apply lay_text_max; (done || (cbn; tauto)).
  - apply Z.eqb_neq in E. in_cases Hi; [apply (lay_string _ VL_NVarChar)|apply (lay_string _ VL_BigVarChar)]; (done || (cbn; tauto)).
Qed.

Lemma binary_layout len : in_unsigned 16 len -> type_info_layout (binary_info len) (le_bytes 2 len).
Proof.
  intros Hl. unfold binary_info. destruct (len =? 0xFFFF) eqn:E.
  - apply Z.eqb_eq in E as ->. apply lay_binary_max.
  - apply Z.eqb_neq in E. apply (lay_binary _ VL_BigVarBinary); (done || (cbn; tauto)).
Qed.

Lemma time_layout t vdt extra scale ti :
  In (t, vdt, extra) [(DT_TimeN, VL_TimeN, 0); (DT_DateTime2N, VL_DateTime2N, 3); (DT_DateTimeOffsetN, VL_DateTimeOffsetN, 5)] ->
  time_info t vdt extra scale = Some ti -> type_info_layout ti [byte_of scale] /\ tds_type ti = t.
Proof.
  intros Hi. unfold time_info. destruct (get_time_length_from_scale scale) eqn:E; try done. intros [= <-].
  split; [by apply lay_time|done].
Qed.

Section described.
Context `{rs : EncodingRs} `{narrow : HalfCrateNarrow}.

(** A write of [type byte] followed by [op]. *)
Lemma typed_emits t op bs : emits op bs tt -> emits (write_byte_async (TdsDataType_u8 t) ;; op) ([byte_of (TdsDataType_u8 t)] ++ bs) tt.
Proof. intros H. eapply emits_bind; [apply write_byte_emits|done]. Qed.

Lemma collated_emits t len c :
  emits (write_collated_type_info (TdsDataType_u8 t) len c)
    ([byte_of (TdsDataType_u8 t)] ++ le_bytes 2 len ++ encode_collation c) tt.
Proof. apply fixed_bytes_emits. Qed.

Lemma vector_size_ok vector d b :
  0 <= d -> validate_vector vector d b = Ok tt ->
  vector_exact_size d b = Ok (8 + d * element_size_bytes b) /\ in_unsigned 16 (8 + d * element_size_bytes b).
Proof.
  intros Hd. unfold validate_vector, vector_exact_size, in_unsigned. destruct (max_dimensions b <? d) eqn:E; [done|]. intros _.
  apply Z.ltb_ge in E. unfold VECTOR_HEADER_SIZE. assert (d * element_size_bytes b <= 8000) as H by (destruct b; cbn in *; lia).
  assert (0 <= d * element_size_bytes b) by (destruct b; cbn; lia).
  rewrite !(proj2 (Z.ltb_ge _ _)) by lia. split; [done|lia].
Qed.

Ltac small_info := split; [|apply lay_small; [done|cbn; tauto|lia]].

(** What validation accepts is described: the type byte and a TYPE_INFO of its type. *)
Lemma type_described v c p s limit ti :
  validate_for_send v c limit = Ok tt -> parameter_type c v p s = Some ti -> type_wf c v p s ->
  exists bs, emits (write_type_info v c p s) ([byte_of (TdsDataType_u8 (tds_type ti))] ++ bs) tt /\ type_info_layout ti bs.
Proof.
  intros Hv Ht Hwf. destruct v; cbn [parameter_type type_wf validate_for_send] in *; try discriminate Ht;
    try (injection Ht as <-; eexists; cbn [var_info tds_type]; small_info; first [apply fixed_bytes_emits | apply typed_emits, write_byte_emits]);
    try (apply time_layout in Ht as [Hl ->]; [|cbn; tauto]; eexists; split; [|exact Hl]; apply typed_emits, write_byte_emits);
    injection Ht as <-.
  - destruct Hwf. exists [byte_of 17; byte_of (override p (dec_precision <$> v) 1); byte_of (override s (dec_scale <$> v) 0)].
    split; [do 3 (eapply (emits_bind _ _ [_]); [apply write_byte_emits|]); apply write_byte_emits|].
    by apply lay_decimal; [|cbn; tauto| | |].
  - destruct Hwf. exists [byte_of 17; byte_of (override p (dec_precision <$> v) 1); byte_of (override s (dec_scale <$> v) 0)].
    split; [do 3 (eapply (emits_bind _ _ [_]); [apply write_byte_emits|]); apply write_byte_emits|].
    by apply lay_decimal; [|cbn; tauto| | |].
  - exists []. split; [apply write_byte_emits|apply lay_date].
  - destruct Hwf. eexists. split; [apply collated_emits|]. apply text_layout; [cbn; tauto|by apply nvarchar_max_range|done].
  - eexists. split; [apply collated_emits|]. apply text_layout; [cbn; tauto|by split|done].
  - destruct Hwf. eexists. split; [apply collated_emits|]. apply text_layout; [cbn; tauto|by apply inline_max_range|done].
  - eexists. split; [apply collated_emits|]. apply text_layout; [cbn; tauto|by split|done].
  - eexists. split; [apply typed_emits, write_u16_emits|]. by apply binary_layout, inline_max_range.
  - eexists. split; [apply typed_emits, write_u16_emits|]. by apply binary_layout.
  - eexists. split; [apply typed_emits, write_u16_emits|].
    apply (lay_binary _ VL_BigBinary); [done|cbn; tauto|by apply inline_max_range|done].
  - destruct Hwf. eexists. split; [apply collated_emits|].
    apply (lay_string _ VL_BigChar); [done|cbn; tauto|by apply inline_max_range|done|]. intros Hi. in_cases Hi.
  - destruct Hwf. eexists. split; [apply collated_emits|].
    apply (lay_string _ VL_NChar); [done|cbn; tauto|by apply nchar_max_range|done|]. intros Hi. in_cases Hi.
  - exists []. split; [apply write_byte_emits|apply lay_json].
  - eexists. split; [apply typed_emits, write_byte_emits|]. by apply lay_xml.
  - destruct (vector_size_ok _ _ _ Hwf Hv) as [Hsz Hr]. eexists. split.
    + apply typed_emits. eapply emits_lift_ok; [exact Hv|]. eapply emits_lift_ok; [exact Hsz|]. cbn [write_type_info].
      eapply emits_bind; [apply write_u16_emits|apply write_byte_emits].
    + apply (lay_vector _ _ base); [done|by destruct base|by destruct base].
  - destruct (validate_variant_inner v) as [[]| | |] eqn:Ev; try done. eexists. split.
    + cbn [write_type_info]. rewrite Ev. apply typed_emits, write_u32_emits.
    + apply (lay_binary _ VL_SsVariant); [done|cbn; tauto|split; cbn; lia|done].
Qed.
End described.

(** ** Values *)

Definition parameter_column (ti : TypeInfo) : ColumnMetadata :=
  {| user_type := 0; cm_flags := 0; type_info := ti; data_type := tds_type ti; column_name := []; multi_part_name := None;
     crypto_metadata := None |}.

(** Outside of a variant a bit is announced as an integer, a decimal as a numeric. *)
Definition announced_as (v : SqlType) (cv : ColumnValues) : ColumnValues :=
  match v, cv with
  | T_Variant _, _ => cv
  | _, Bit b => TinyInt (if b then 1 else 0)
  | _, Decimal d => Numeric d
  | _, _ => cv
  end.

(** What arrives. *)
Definition sent_as (v : SqlType) (cv : ColumnValues) : ColumnValues := marked (announced_as v cv).

Definition is_json (v : SqlType) : bool := match v with T_Json _ => true | _ => false end.

(** What a variant may hold is not sent in chunks. *)
Lemma inner_context v c cv ctx :
  unsupported_inner v = None -> to_column_value_and_context v c = Ok (cv, ctx) ->
  ctx_is_plp ctx = false /\ ctx_is_fixed_length ctx = false.
Proof.
  intros Hu Hc. unfold unsupported_inner, VAR_TDS_MAX_LENGTH in Hu.
  destruct v; try discriminate Hu; cbn [to_column_value_and_context] in Hc; injection Hc as <- <-; try done.
  - unfold nvarchar_inline_max_bytes, NVARCHAR_MAX_INLINE_CHARS in *. destruct (4000 <? length) eqn:E; [discriminate Hu|].
    split; [|done]. cbn. unfold MAX_U16_LENGTH. lia.
  - unfold inline_max_bytes, VAR_TDS_MAX_LENGTH, MAX_U16_LENGTH. destruct (8000 <? length) eqn:E; [discriminate Hu|].
    split; [|done]. cbn. lia.
  - unfold inline_max_bytes, VAR_TDS_MAX_LENGTH, MAX_U16_LENGTH. destruct (8000 <? length) eqn:E; [discriminate Hu|].
    split; [|done]. cbn. lia.
Qed.

(** The context is that of the column a parameter announces. *)
Lemma context_describes `{rs : EncodingRs} v c p s ti cv ctx limit :
  validate_for_send v c limit = Ok tt -> parameter_type c v p s = Some ti -> to_column_value_and_context v c = Ok (cv, ctx) -> describes ctx (parameter_column ti).
Proof.
  intros Hv Ht Hc. destruct v; cbn [parameter_type to_column_value_and_context] in *; try discriminate Ht;
    try (unfold time_info in Ht; destruct (get_time_length_from_scale _) in Ht; try discriminate Ht);
    injection Ht as <-; try (injection Hc as <- <-; by constructor).
  - injection Hc as <- <-. unfold nvarchar_inline_max_bytes, NVARCHAR_MAX_INLINE_CHARS, MAX_U16_LENGTH, text_info.
    destruct (4000 <? length) eqn:E; constructor; try done. cbn [default from_option id is_plp parameter_column type_info type_info_variant ctx_is_plp rpc_ctx].
    by destruct (length * 2 =? 65535).
  - injection Hc as <- <-. unfold inline_max_bytes, MAX_U16_LENGTH, text_info. constructor; try done.
    cbn [is_plp parameter_column type_info type_info_variant ctx_is_plp rpc_ctx]. by destruct (_ =? 65535).
  - injection Hc as <- <-. unfold inline_max_bytes, MAX_U16_LENGTH, binary_info. constructor; try done.
    cbn [is_plp parameter_column type_info type_info_variant ctx_is_plp rpc_ctx]. by destruct (_ =? 65535).
  - destruct (vector_exact_size dimensions base); try discriminate Hc. injection Hc as <- <-. by constructor.
  - destruct (to_column_value_and_context v c) as [[cv' ctx']| | |] eqn:E; try discriminate Hc. injection Hc as <- <-.
    cbn [validate_for_send] in Hv. unfold validate_variant_inner in Hv. destruct (unsupported_inner v) eqn:Eu; [discriminate Hv|].
    destruct (inner_context _ _ _ _ Eu E) as [H1 H2]. by constructor.
Qed.

Lemma variant_template c t p s ti :
  parameter_type c t p s = Some ti -> bool_decide (tds_type ti = DT_SsVariant) = match t with T_Variant _ => true | _ => false end.
Proof.
  intros Ht. destruct t; cbn [parameter_type] in Ht; try discriminate Ht;
    try (unfold time_info in Ht; destruct (get_time_length_from_scale _) in Ht; try discriminate Ht); by injection Ht as <-.
Qed.

Section reading.
Context `{rs : EncodingRs} `{narrow : HalfCrateNarrow} `{half : HalfCrate}.
Context {R : Type} {delivers : R -> bytes -> Prop} `{laws : PacketReaderLaws R delivers}.

(** A type with its description, then a value of that type. *)
Definition read_typed_value (fuel : nat) : M R (TypeInfo * ColumnValues) :=
  raw <- read_byte ;;
  t <- lift (match TdsDataType_try_from raw with Ok t => Ok t | _ => Err invalid_tds_type end) ;;
  ti <- read_type_info t ;;
  v <- decode fuel (parameter_column ti) ;;
  ret (ti, v).

Lemma reads_typed_value fuel ti tib bs v :
  type_info_layout ti tib -> reads delivers (decode fuel (parameter_column ti)) bs v ->
  reads delivers (read_typed_value fuel) ([byte_of (TdsDataType_u8 (tds_type ti))] ++ tib ++ bs) (ti, v).
Proof.
  intros Hl Hd. apply (reads_typed ti tib invalid_tds_type (fun _ ti => v <- decode fuel (parameter_column ti) ;; ret (ti, v))); [done|].
  by apply (reads_bind_ret _ (fun v => (ti, v))).
Qed.

(** Sending [cv] under the type of [v] is sending what is announced. *)
Lemma announced_serialized v cv ctx :
  (ctx_tds_type ctx =? SQL_VARIANT) = match v with T_Variant _ => true | _ => false end ->
  serialize_value_with_narrow_string_byte_limit cv ctx None =
  (if ctx_tds_type ctx =? SQL_VARIANT then serialize_as_variant (announced_as v cv) ctx None true
   else serialize_value_inner (announced_as v cv) ctx None true).
Proof. intros H. unfold serialize_value_with_narrow_string_byte_limit. rewrite H. by destruct v, cv. Qed.

Lemma is_variant_type v c p s ti cv ctx limit :
  validate_for_send v c limit = Ok tt -> parameter_type c v p s = Some ti -> to_column_value_and_context v c = Ok (cv, ctx) ->
  (ctx_tds_type ctx =? SQL_VARIANT) = match v with T_Variant _ => true | _ => false end.
Proof.
  intros Hv Ht Hc. destruct (context_describes _ _ _ _ _ _ _ _ Hv Ht Hc) as [-> _ _]. unfold SQL_VARIANT. rewrite type_is_u8.
  by eapply variant_template.
Qed.

Lemma parameter_value_round_trip fuel v c md ti cv ctx (p := md ≫= md_precision) (s := md ≫= md_scale) :
  (2 <= fuel)%nat -> is_json v = false ->
  validate_for_send v c None = Ok tt -> parameter_type c v p s = Some ti -> type_wf c v p s ->
  to_column_value_and_context v c = Ok (cv, ctx) -> column_ok (parameter_column ti) -> holds ctx (parameter_column ti) (sent_as v cv) ->
  exists bs, emits (serialize_with_narrow_string_byte_limit v c md None) bs tt /\
    reads delivers (read_typed_value fuel) bs (ti, sent_as v cv).
Proof.
  intros Hf Hj Hv Ht Hwf Hc Hok Hh. destruct (type_described v c p s None ti Hv Ht Hwf) as (tib & He & Hl).
  pose proof (context_describes _ _ _ _ _ _ _ _ Hv Ht Hc) as Hd. pose proof (is_variant_type _ _ _ _ _ _ _ _ Hv Ht Hc) as Hvar.
  destruct (sent_is_read (delivers := delivers) fuel true ctx (parameter_column ti) (announced_as v cv) Hf Hd Hok Hh) as (vb & Hs & Hr).
  rewrite <- (announced_serialized v cv ctx Hvar) in Hs.
  exists (([byte_of (TdsDataType_u8 (tds_type ti))] ++ tib) ++ vb). split; [|rewrite <- app_assoc; by apply reads_typed_value].
  assert (Hbody : emits (write_rpc_type_metadata v c md ;; ('(column_value, ctx) <- lift (to_column_value_and_context v c) ;;
            serialize_value_with_narrow_string_byte_limit column_value ctx None)) (([byte_of (TdsDataType_u8 (tds_type ti))] ++ tib) ++ vb) tt).
  { eapply emits_bind; [exact He|]. eapply emits_lift_ok; [exact Hc|]. exact Hs. }
  destruct v; try discriminate Ht; try discriminate Hj; exact Hbody.
Qed.
End reading.

(** ** JSON *)

Definition json_info : TypeInfo :=
  {| tds_type := DT_Json; ti_length := 0xFFFF; type_info_variant := PartialLen PL_Json None None None None |}.

Lemma json_parameter_emits data :
  emits (serialize_json_parameter (Some {| json_bytes := data |}))
    ([byte_of (TdsDataType_u8 DT_Json)] ++ encode_plp false (one_chunk data) ++ (if decide (data = []) then le_bytes 4 0 else [])) tt.
Proof.
  unfold serialize_json_parameter. eapply emits_bind; [apply write_byte_emits|]. cbn [json_bytes].
  assert (H : emits (write_u64_async PLP_UNKNOWN_LEN ;; write_u32_async (as_u32 (Z.of_nat (length data))) ;; write_async data ;;
              write_u32_async 0) (le_bytes 8 PLP_UNKNOWN_LEN ++ le_bytes 4 (Z.of_nat (length data)) ++ data ++ le_bytes 4 0) tt).
  { eapply emits_bind; [apply write_u64_emits|]. eapply emits_bind; [apply write_u32_len_emits|].
    eapply emits_bind; [apply write_async_emits|apply write_u32_emits]. }
  eapply emits_eq; [exact H|]. unfold encode_plp, plp_chunks. destruct data as [|b data]; [done|].
  rewrite decide_False by done. cbn [one_chunk fmap list_fmap concat]. unfold plp_chunk. by rewrite !app_nil_r, <- !app_assoc.
Qed.

Lemma json_reads_back `{half : HalfCrate} {R : Type} {delivers : R -> bytes -> Prop} `{laws : PacketReaderLaws R delivers} fuel data :
  (2 <= fuel)%nat -> Z.of_nat (length data) <= MAX_PLP_CHUNK_SIZE ->
  reads delivers (decode fuel (parameter_column json_info)) (encode_plp false (one_chunk data)) (Json {| json_bytes := data |}).
Proof. intros Hf Hl. by apply (reads_plp_as _ (fun bs => Json {| json_bytes := bs |})). Qed.

(** C36: A JSON document sent as a parameter, in one chunk, is announced as JSON and read back.  After an empty document
    come four bytes too many: the chunk of length zero ends the value, and a terminator follows. *)
Theorem json_document_reads_back `{rs : EncodingRs} `{narrow : HalfCrateNarrow} `{half : HalfCrate}
    {R : Type} {delivers : R -> bytes -> Prop} `{laws : PacketReaderLaws R delivers} fuel c md limit data :
  (2 <= fuel)%nat -> Z.of_nat (length data) <= MAX_PLP_CHUNK_SIZE ->
  exists bs, emits (serialize_with_narrow_string_byte_limit (T_Json (Some {| json_bytes := data |})) c md limit)
      (bs ++ if decide (data = []) then le_bytes 4 0 else []) tt /\
    reads delivers (read_typed_value fuel) bs (json_info, Json {| json_bytes := data |}).
Proof.
  intros Hf Hl. exists ([byte_of (TdsDataType_u8 DT_Json)] ++ [] ++ encode_plp false (one_chunk data)). split.
  - apply json_parameter_emits.
  - apply (reads_typed_value fuel json_info []); [apply lay_json|by apply json_reads_back].
Qed.

(** ** Cells of table-valued parameters *)

Lemma ilog10_loop_bound fuel : forall m, 0 < m < 10 ^ Z.of_nat fuel -> 0 <= ilog10_loop fuel m /\ m < 10 ^ (ilog10_loop fuel m + 1).
Proof.
  induction fuel as [|fuel IH]; intros m Hm; [cbn in Hm; lia|]. cbn [ilog10_loop].
  destruct (m <? 10) eqn:E; [apply Z.ltb_lt in E; cbn; lia|]. apply Z.ltb_ge in E.
  rewrite Nat2Z.inj_succ, Z.pow_succ_r in Hm by lia.
  destruct (IH (m / 10)) as [H0 H1]; [split; [apply Z.div_str_pos; lia|apply Z.div_lt_upper_bound; lia]|].
  split; [lia|]. replace (1 + ilog10_loop fuel (m / 10) + 1) with (Z.succ (ilog10_loop fuel (m / 10) + 1)) by lia.
  rewrite Z.pow_succ_r by lia. pose proof (Z.mul_succ_div_gt m 10). lia.
Qed.

(** The digits that [apply_decimal_metadata] counts bound the magnitude. *)
Lemma digits_bound m p : 0 <= m < 2 ^ 128 -> 1 <= p -> (if m =? 0 then 1 else ilog10 m + 1) <= p -> m < 10 ^ p.
Proof.
  intros Hm Hp Hd. destruct (m =? 0) eqn:E; [apply Z.eqb_eq in E as ->; by apply Z.pow_pos_nonneg; lia|].
  apply Z.eqb_neq in E. destruct (ilog10_loop_bound 40 m) as [H0 H1]; [split; [lia|]; etrans; [apply Hm|by vm_compute]|].
  eapply Z.lt_le_trans; [apply H1|]. apply Z.pow_le_mono_r; [lia|]. exact Hd.
Qed.

Lemma rescale_keeps m from to m' :
  0 <= m < 2 ^ 128 -> 0 <= from -> 0 <= to -> rescale m from to = Ok m' -> m' * 10 ^ from = m * 10 ^ to /\ 0 <= m' < 2 ^ 128.
Proof.
  intros Hm Hfrom Hto. unfold rescale, checked_pow10, checked_u128.
  destruct (to <? from) eqn:E1; [apply Z.ltb_lt in E1|apply Z.ltb_ge in E1; destruct (from <? to) eqn:E2].
  - destruct (10 ^ (from - to) <? 2 ^ 128); [|done]. destruct (m mod 10 ^ (from - to) =? 0) eqn:E; [|done]. intros [= <-].
    apply Z.eqb_eq in E. assert (Hf : 0 < 10 ^ (from - to)) by (apply Z.pow_pos_nonneg; lia).
    pose proof (Z.div_mod m (10 ^ (from - to)) ltac:(lia)) as Hdm. rewrite E, Z.add_0_r in Hdm. split.
    + replace from with ((from - to) + to) at 2 by lia. rewrite Z.pow_add_r, Z.mul_assoc by lia. f_equal. lia.
    + split; [apply Z.div_pos; lia|]. apply Z.le_lt_trans with m; [|lia]. apply Z.div_le_upper_bound; nia.
  - apply Z.ltb_lt in E2. destruct (m * 10 ^ (to - from) <? 2 ^ 128) eqn:E; [|done]. intros [= <-]. apply Z.ltb_lt in E.
    assert (0 < 10 ^ (to - from)) by (apply Z.pow_pos_nonneg; lia). split; [|nia].
    rewrite <- Z.mul_assoc, <- Z.pow_add_r by lia. do 2 f_equal. lia.
  - apply Z.ltb_ge in E2. assert (from = to) as -> by lia. by intros [= <-].
Qed.

(** The same number with the precision and scale of its column. *)
Record decimal_kept (p s : Z) (d d' : DecimalParts) : Prop := {
  dk_sign : is_positive d' = is_positive d;
  dk_value : magnitude d' * 10 ^ dec_scale d = magnitude d * 10 ^ dec_scale d';
  dk_precision : dec_precision d' = p;
  dk_scale : dec_scale d' = s;
  dk_range : decimal_in_range d';
}.

Lemma decimal_metadata_kept d p s d' :
  decimal_ok d -> 0 <= dec_scale d -> 0 <= s -> apply_decimal_metadata d p s = Ok d' -> decimal_kept p s d d'.
Proof.
  intros Hd Hsc Hs. unfold apply_decimal_metadata, validate_decimal_metadata.
  destruct ((1 <=? p) && (p <=? 38)) eqn:Ep; [|done]. destruct (p <? s) eqn:Es; [done|]. cbn [negb rbind].
  destruct (rescale _ _ _) as [m| | |] eqn:Er; try done. cbn [rbind].
  destruct (p <? if m =? 0 then 1 else ilog10 m + 1) eqn:Edig; [done|]. intros [= <-].
  apply andb_prop in Ep as [Ep1 Ep2]. apply Z.leb_le in Ep1, Ep2. apply Z.ltb_ge in Es, Edig.
  pose proof (magnitude_range d Hd) as Hm. apply rescale_keeps in Er as [Hv Hr]; try done.
  assert (Hmag : magnitude (DecimalParts_new (is_positive d) p s m) = m) by (by apply magnitude_new).
  constructor; try done; rewrite ?Hmag; cbn [DecimalParts_new dec_scale]; [done|].
  split_and!; [|done|done|done|].
  - apply decimal_new_ok.
  - rewrite Hmag. cbn. by apply digits_bound; [|lia|].
Qed.

(** The same time of day at another scale. *)
Definition time_kept (s : Z) (t t' : SqlTime) : Prop := time_nanoseconds t' = time_nanoseconds t /\ time_scale t' = s.

(** What a cell becomes: the value at the precision and scale of its column. *)
Definition cell_kept (column : TvpColumnDef SqlType) (cv cv' : ColumnValues) : Prop :=
  match decimal_metadata column, temporal_scale column, cv, cv' with
  | Some (p, s), _, Decimal d, Decimal d' | Some (p, s), _, Numeric d, Numeric d' => decimal_kept p s d d'
  | None, Some s, Time t, Time t' => time_kept s t t'
  | None, Some s, DateTime2 d, DateTime2 d' => dt2_days d' = dt2_days d /\ time_kept s (dt2_time d) (dt2_time d')
  | None, Some s, DateTimeOffset d, DateTimeOffset d' =>
      dto_offset d' = dto_offset d /\ dt2_days (dto_datetime2 d') = dt2_days (dto_datetime2 d) /\
      time_kept s (dt2_time (dto_datetime2 d)) (dt2_time (dto_datetime2 d'))
  | _, _, _, _ => cv' = cv
  end.

Definition cell_wf (cell : SqlType) : Prop :=
  match cell with T_Decimal (Some d) | T_Numeric (Some d) => decimal_ok d /\ 0 <= dec_scale d | _ => True end.

Definition scale_wf (column : TvpColumnDef SqlType) : Prop :=
  match decimal_metadata column with Some (_, s) => 0 <= s | None => True end.

(** A cell that the preflight accepts is not refused while the rows are written, and keeps its value. *)
Lemma checked_cell_kept column cell c cv ctx :
  cell_wf cell -> scale_wf column -> check_cell column cell = Ok tt -> to_column_value_and_context cell c = Ok (cv, ctx) ->
  exists cv', apply_column_metadata column cv = Ok cv' /\ cell_kept column cv cv'.
Proof.
  intros Hwf Hscale Hck Hcv. unfold check_cell in Hck. destruct (discriminant cell =? _) eqn:Ed; [|discriminate Hck].
  apply Z.eqb_eq in Ed. cbn [negb] in Hck. unfold apply_column_metadata, cell_kept, scale_wf, decimal_metadata, temporal_scale in *.
  destruct column as [t fl p s]. cbn [tvp_column_type tvp_precision tvp_scale] in *.
  destruct cell, t; try discriminate Ed; cbn [to_column_value_and_context] in Hcv;
    try (injection Hcv as <- <-; exists (nullable _ v); by destruct v);
    try (eexists; split; [reflexivity|done]).
  all: try (injection Hcv as <- <-; destruct v as [d|]; [|by exists Null]; cbn [nullable] in *).
  - destruct (apply_decimal_metadata _ _ _) as [d'| | |] eqn:E in Hck; try discriminate Hck. rewrite E.
    exists (Decimal d'). split; [done|]. destruct Hwf. by apply decimal_metadata_kept.
  - destruct (apply_decimal_metadata _ _ _) as [d'| | |] eqn:E in Hck; try discriminate Hck. rewrite E.
    exists (Numeric d'). split; [done|]. destruct Hwf. by apply decimal_metadata_kept.
  - destruct (temporal_value_fits_scale _ _) eqn:E in Hck; [|discriminate Hck]. cbn [rbind apply_temporal_scale]. rewrite E. by eexists.
  - destruct (temporal_value_fits_scale _ _) eqn:E in Hck; [|discriminate Hck]. cbn [rbind apply_temporal_scale]. rewrite E. by eexists.
  - destruct (temporal_value_fits_scale _ _) eqn:E in Hck; [|discriminate Hck]. cbn [rbind apply_temporal_scale]. rewrite E. by eexists.
Qed.

Lemma emits_map_err {A} f (op : M PacketWriter A) bs a : emits op bs a -> emits (map_err_async f op) bs a.
Proof.
  intros H m content w Hsz Hw. specialize (H m content w Hsz Hw). unfold map_err_async. by destruct (op w) as [[]].
Qed.

Section rows.
Context `{rs : EncodingRs} `{narrow : HalfCrateNarrow} `{half : HalfCrate}.
Context {R : Type} {delivers : R -> bytes -> Prop} `{laws : PacketReaderLaws R delivers}.
Context (fuel : nat) (c : SqlCollation) (Hfuel : (2 <= fuel)%nat).

(** The values of a row, each of the type of its column. *)
Fixpoint read_cells (tis : list TypeInfo) : M R (list ColumnValues) :=
  match tis with
  | [] => ret []
  | ti :: tis => v <- decode fuel (parameter_column ti) ;; vs <- read_cells tis ;; ret (v :: vs)
  end.

Definition template_context (column : TvpColumnDef SqlType) (cell_ctx : TdsTypeContext) : TdsResult TdsTypeContext :=
  match tvp_column_type column with
  | T_Variant _ => Ok cell_ctx
  | t => let? '(_, ctx) := to_column_value_and_context t c in Ok ctx
  end.

(** The column [ti] announces can hold what the cell becomes. *)
Definition cell_fits (cc : TvpColumnDef SqlType * SqlType) (ti : TypeInfo) : Prop :=
  let '(column, cell) := cc in
  cell_wf cell /\ scale_wf column /\ column_ok (parameter_column ti) /\
  parameter_type c (tvp_column_type column) (tvp_precision column) (tvp_scale column) = Some ti /\
  exists cv cell_ctx ctx,
    to_column_value_and_context cell c = Ok (cv, cell_ctx) /\ template_context column cell_ctx = Ok ctx /\
    describes ctx (parameter_column ti) /\
    forall cv', apply_column_metadata column cv = Ok cv' -> holds ctx (parameter_column ti) (sent_as (tvp_column_type column) cv').

(** What arrives for a cell is its value at the precision and scale of the column. *)
Definition cell_arrives (cc : TvpColumnDef SqlType * SqlType) (v : ColumnValues) : Prop :=
  exists cv ctx cv', to_column_value_and_context (snd cc) c = Ok (cv, ctx) /\ cell_kept (fst cc) cv cv' /\
    v = sent_as (tvp_column_type (fst cc)) cv'.

Lemma cell_round_trip column cell ti f :
  check_cell column cell = Ok tt -> cell_fits (column, cell) ti ->
  exists bs v, emits (write_tvp_cell c column cell f) bs tt /\ reads delivers (decode fuel (parameter_column ti)) bs v /\
    cell_arrives (column, cell) v.
Proof.
  intros Hck (Hwf & Hsc & Hok & Ht & cv & cell_ctx & ctx & Hcv & Hctx & Hd & Hh).
  destruct (checked_cell_kept column cell c cv cell_ctx Hwf Hsc Hck Hcv) as (cv' & Ha & Hk).
  destruct (sent_is_read (delivers := delivers) fuel true ctx (parameter_column ti) _ Hfuel Hd Hok (Hh cv' Ha)) as (bs & Hs & Hr).
  exists bs, (sent_as (tvp_column_type column) cv'). split_and!; [|done|by exists cv, cell_ctx, cv'].
  rewrite <- announced_serialized in Hs.
  - unfold write_tvp_cell. eapply emits_lift_ok; [exact Hcv|]. eapply emits_lift_ok; [exact Hctx|].
    apply emits_map_err. eapply emits_lift_ok; [exact Ha|exact Hs].
  - destruct Hd as [-> _ _]. unfold SQL_VARIANT. rewrite type_is_u8. by eapply variant_template.
Qed.

Lemma cells_round_trip row_idx ccs tis : forall i,
  each_indexed (fun col_idx '(column, cell) => map_err (with_tvp_cell_context row_idx col_idx) (check_cell column cell)) i ccs = Ok tt ->
  Forall2 cell_fits ccs tis ->
  exists bs vs, emits (write_indexed (fun column_index '(column, cell) =>
      write_tvp_cell c column cell (with_tvp_cell_context row_idx column_index)) i ccs) bs tt /\
    reads delivers (read_cells tis) bs vs /\ Forall2 cell_arrives ccs vs.
Proof.
  intros i Hck Hf. revert i Hck. induction Hf as [|[column cell] ti ccs tis Hc _ IH]; intros i Hck.
  { exists [], []. split_and!; [apply emits_ret|apply reads_ret|constructor]. }
  cbn [each_indexed] in Hck. destruct (check_cell column cell) as [[]| | |] eqn:E; try discriminate Hck. cbn [map_err rbind] in Hck.
  destruct (cell_round_trip column cell ti (with_tvp_cell_context row_idx i) E Hc) as (b1 & v & He & Hr & Ha).
  destruct (IH (S i) Hck) as (b2 & vs & He2 & Hr2 & Ha2). exists (b1 ++ b2), (v :: vs). split_and!.
  - cbn [write_indexed]. by eapply emits_bind.
  - cbn [read_cells]. eapply reads_bind; [exact Hr|]. by apply (reads_bind_ret _ (fun vs => v :: vs)).
  - by constructor.
Qed.

(** C11: A row of a table-valued parameter that the preflight accepts, and whose cells [cell_fits] their
    columns, is written whole, and read back with the types the columns announce: every cell is its
    value, decimals and times at the precision and scale of the column with no digit lost, XML with a
    byte order mark.  The preflight accepts cells that do not fit in this sense and that are not covered:
    FLOAT values, which a packet's end may cut, JSON, which is sent in UTF-16 under a JSON column, text
    that has to be converted to the encoding of its column, and the types without a description here
    (TEXT, NTEXT, IMAGE, UDTs). *)
Theorem table_row_reads_back columns tis row i :
  check_row columns i row = Ok tt -> Forall2 cell_fits (zip columns row) tis ->
  exists bs vs, emits (write_tvp_row columns c i row) ([byte_of TVP_ROW_TOKEN] ++ bs) tt /\
    reads delivers (read_cells tis) bs vs /\ Forall2 cell_arrives (zip columns row) vs.
Proof.
  unfold check_row, write_tvp_row. intros Hck Hf. destruct (length row =? length columns)%nat; [|discriminate Hck]. cbn [negb] in *.
  destruct (cells_round_trip i _ _ 0 Hck Hf) as (bs & vs & He & Hr & Ha). exists bs, vs. split_and!; [|done|done].
  eapply emits_bind; [apply write_byte_emits|exact He].
Qed.
End rows.

(** ** Witnesses *)

#[local] Instance sample_half : HalfCrate := {| f16_to_f32 := id |}.
#[local] Instance sample_narrow : HalfCrateNarrow := {| f32_to_f16 := id |}.
#[local] Existing Instance sample_rs.

Lemma json_document_reads_back_witness :
  exists bs, emits (serialize_with_narrow_string_byte_limit (T_Json (Some {| json_bytes := [] |})) latin1_collation None None)
      (bs ++ le_bytes 4 0) tt /\
    reads list_delivers (read_typed_value 2) bs (json_info, Json {| json_bytes := [] |}).
Proof. apply (json_document_reads_back (delivers := list_delivers) 2 latin1_collation None None []); [lia|by vm_compute]. Defined.

(** An INT and a DECIMAL(10, 2), which gets 12.5. *)
Definition sample_columns : list (TvpColumnDef SqlType) :=
  [{| tvp_column_type := T_Int None; tvp_flags := 0; tvp_precision := None; tvp_scale := None |};
   {| tvp_column_type := T_Decimal None; tvp_flags := 0; tvp_precision := Some 10; tvp_scale := Some 2 |}].
Definition sample_row : list SqlType := [T_Int (Some 7); T_Decimal (Some (DecimalParts_new true 3 1 125))].
Definition sample_types : list TypeInfo :=
  [var_info DT_IntN VL_IntN 4;
   {| tds_type := DT_NumericN; ti_length := 17; type_info_variant := VarLenPrecisionScale VL_NumericN 17 10 2 |}].

Lemma table_row_reads_back_witness :
  exists bs vs, emits (write_tvp_row sample_columns latin1_collation 0 sample_row) ([byte_of TVP_ROW_TOKEN] ++ bs) tt /\
    reads list_delivers (read_cells 2 sample_types) bs vs /\ Forall2 (cell_arrives latin1_collation) (zip sample_columns sample_row) vs.
Proof.
  apply (table_row_reads_back (delivers := list_delivers) 2 latin1_collation); [lia|reflexivity|].
  constructor; [|constructor; [|constructor]].
  - split_and!; [done|done|done|reflexivity|]. do 3 eexists. split_and!; [reflexivity|reflexivity|done|].
    intros cv' [= <-]. vm_compute. split_and!; try done; try (intuition discriminate).
  - split_and!; [vm_compute; split_and!; intuition discriminate|done|done|reflexivity|].
    do 3 eexists. split_and!; [reflexivity|reflexivity|done|].
    intros cv' [= <-]. vm_compute. split_and!; try done; [..|exists 38; split_and!]; intuition discriminate.
Defined.
