(* ===== verification/Rpc.v ===== *)
(** * RPC requests (src/mssql-tds/src/message/rpc.rs and message/parameters/rpc_parameters.rs)

    A parameter with its declaration, its checks and its wire form, plain, streamed or encrypted, and
    the request: one call, or one command of a batch, written with awaits or, where it fits the packet,
    without. *)

From stdpp Require Import strings.
From S2P Require Import Prelude Core Unicode PacketReader Tokens DataTypes ColMetadata Values Decoder Decimal NarrowText.
From S2P Require Import ReadBuffer Transport PacketWriter Session Requests ValueSerializer SqlIdentifier Text SqlTypes.

(** ** Parameters *)

Definition SHORT_VARTYPE_MAX_BYTES : Z := 8000.
Definition SQL_USHORTVARMAXLEN : Z := 0xFFFF.

(** Status flags are their bits. *)
Definition BY_REF_VALUE : Z := 1.
Definition ENCRYPTED : Z := 8.

Record RpcEncryptionMetadata := {
  cipher_algorithm_id : Z;
  encryption_type : Z;
  em_database_id : Z;
  em_cek_id : Z;
  em_cek_version : Z;
  em_cek_md_version : bytes;
  normalization_rule_version : Z;
}.

Record EncryptedRpcValue := {
  ciphertext : option bytes;
  ev_metadata : RpcEncryptionMetadata;
  had_conversion_loss : bool;
}.

Inductive StreamedSqlType := S_NVarcharMax | S_VarcharMax | S_VarBinaryMax | S_Xml | S_Udt (type_name : UdtTypeName).

Definition as_sql_type (s : StreamedSqlType) : SqlType :=
  match s with
  | S_NVarcharMax => T_NVarcharMax None
  | S_VarcharMax => T_VarcharMax None
  | S_VarBinaryMax => T_VarBinaryMax None
  | S_Xml => T_Xml None
  | S_Udt type_name => T_Udt type_name None
  end.

Definition StreamedSqlType_validate (s : StreamedSqlType) : TdsResult unit :=
  match s with S_Udt type_name => UdtTypeName_validate type_name | _ => Ok tt end.

Inductive RpcValue := Materialized (v : SqlType) | Streamed (t : StreamedSqlType).

Record NumericDeclaration := { nd_precision : Z; nd_scale : Z }.

Record RpcParameter := {
  rp_name : option str;
  rp_options : Z;
  rp_value : RpcValue;
  rp_type_metadata : option RpcTypeMetadata;
  rp_numeric_declaration : option NumericDeclaration;
  rp_streamed_declaration : option SqlType;
  rp_narrow_string_byte_limit : option Z;
  rp_encrypted : option EncryptedRpcValue;
  rp_force_column_encryption : bool;
  rp_odbc_ordinal : Z;
}.

#[export] Instance RpcParameter_eta : Eta RpcParameter := fun p =>
  Build_RpcParameter (rp_name p) (rp_options p) (rp_value p) (rp_type_metadata p) (rp_numeric_declaration p)
    (rp_streamed_declaration p) (rp_narrow_string_byte_limit p) (rp_encrypted p) (rp_force_column_encryption p)
    (rp_odbc_ordinal p).

Definition parameter_of (name : option str) (options : Z) (value : RpcValue) : RpcParameter :=
  {| rp_name := name; rp_options := options; rp_value := value; rp_type_metadata := None; rp_numeric_declaration := None;
     rp_streamed_declaration := None; rp_narrow_string_byte_limit := None; rp_encrypted := None;
     rp_force_column_encryption := false; rp_odbc_ordinal := 0 |}.

Definition RpcParameter_new (name : option str) (options : Z) (value : SqlType) : RpcParameter :=
  parameter_of name options (Materialized value).

Definition data_at_exec (name : option str) (options : Z) (sql_type : StreamedSqlType) : RpcParameter :=
  parameter_of name options (Streamed sql_type).

(** [u16::try_from(ordinal).unwrap_or_default()]. *)
Definition with_odbc_ordinal (ordinal : Z) (p : RpcParameter) : RpcParameter :=
  p {{ rp_odbc_ordinal := if ordinal <=? 65535 then ordinal else 0 }}.

Definition odbc_ordinal (p : RpcParameter) : option Z := if rp_odbc_ordinal p =? 0 then None else Some (rp_odbc_ordinal p).

Definition tvp_parameter_ref (fallback : TvpParameterRef) (p : RpcParameter) : TvpParameterRef :=
  match odbc_ordinal p, rp_name p with
  | Some ordinal, _ => OdbcOrdinal ordinal
  | None, Some name => Name name
  | None, None => fallback
  end.

Definition is_data_at_exec (p : RpcParameter) : bool := match rp_value p with Streamed _ => true | Materialized _ => false end.

Definition streamed_sql_type (p : RpcParameter) : option StreamedSqlType :=
  match rp_value p with Streamed t => Some t | Materialized _ => None end.

Definition is_output (p : RpcParameter) : bool := has_bit (rp_options p) BY_REF_VALUE.

Definition is_float16 (t : VectorBaseType) : bool := match t with Float16 => true | Float32 => false end.

Fixpoint contains_float16 (value : SqlType) : bool :=
  match value with
  | T_Vector value _ base =>
      is_float16 base || match value with Some v => is_float16 (base_type v) | None => false end
  | T_Table _ (Some table) =>
      existsb (fun column => contains_float16 (tvp_column_type column)) (tvp_columns table) ||
      existsb (existsb contains_float16) (tvp_rows table)
  | _ => false
  end.

Definition ensure_vector_version_supported (version : Z) (p : RpcParameter) : TdsResult unit :=
  match rp_value p with
  | Materialized value =>
      if (version <? 2) && contains_float16 value
      then Err (UsageError "Vector float16 parameters require negotiated vector version 2") else Ok tt
  | Streamed _ => Ok tt
  end.

Definition validate_streamed_configuration (p : RpcParameter) : TdsResult unit :=
  match is_data_at_exec p, rp_narrow_string_byte_limit p with
  | true, Some _ => Err (UsageError "Encoded-byte limits are not supported on streamed parameters")
  | _, _ => Ok tt
  end.

Definition reject_data_at_exec (params : list RpcParameter) : TdsResult unit :=
  if existsb is_data_at_exec params
  then Err (UsageError "Data-at-execution parameters require begin_sp_executesql.") else Ok tt.

Definition with_numeric_declaration (precision scale : Z) (p : RpcParameter) : TdsResult RpcParameter :=
  match rp_value p with
  | Materialized (T_Decimal _ | T_Numeric _) =>
      if negb (decimal_metadata_is_valid precision scale)
      then Err (UsageError "Invalid numeric declaration precision or scale")
      else Ok (p {{ rp_numeric_declaration := Some {| nd_precision := precision; nd_scale := scale |} }})
  | _ => Err (UsageError "A numeric declaration requires a decimal or numeric parameter")
  end.

Definition set_encrypted (ct : option bytes) (metadata : RpcEncryptionMetadata) (loss : bool) (p : RpcParameter) : RpcParameter :=
  p {{ rp_encrypted := Some {| ciphertext := ct; ev_metadata := metadata; had_conversion_loss := loss |} }}.

(** ** Declarations *)

(** [TdsDataType::from(&SqlType)]. *)
Definition TdsDataType_from (v : SqlType) : TdsDataType :=
  match v with
  | T_Bit _ => DT_Bit | T_TinyInt _ => DT_Int1 | T_SmallInt _ => DT_Int2 | T_Int _ => DT_Int4 | T_BigInt _ => DT_Int8
  | T_Real _ => DT_Flt4 | T_Float _ => DT_Flt8 | T_Decimal _ => DT_DecimalN | T_Numeric _ => DT_NumericN
  | T_NVarchar _ _ => DT_NVarChar | T_VarBinary _ _ => DT_BigVarBinary | T_Binary _ _ => DT_BigBinary
  | T_Char _ _ => DT_Char | T_NChar _ _ => DT_NChar | T_Text _ => DT_Text | T_NText _ => DT_NText | T_Image _ => DT_Image
  | T_Json _ => DT_Json | T_Money _ => DT_Money | T_SmallMoney _ => DT_Money4 | T_Time _ => DT_TimeN
  | T_DateTime2 _ => DT_DateTime2N | T_DateTimeOffset _ => DT_DateTimeOffsetN | T_SmallDateTime _ => DT_DateTim4
  | T_NVarcharMax _ => DT_NVarChar | T_Varchar _ _ => DT_VarChar | T_VarcharMax _ => DT_VarChar
  | T_VarBinaryMax _ => DT_VarBinary | T_Xml _ => DT_Xml | T_Udt _ _ => DT_Udt | T_Uuid _ => DT_Guid
  | T_DateTime _ => DT_DateTime | T_Date _ => DT_DateN | T_Vector _ _ _ => DT_Vector | T_Variant _ => DT_SsVariant
  | T_Table _ _ => DT_SqlTable
  end.

(** [format!("[{}]", part.replace(']', "]]"))], the quoting of [escape_identifier]. *)
Definition quoted (part : str) : str := lit "[" ++ double_char RBRACKET part ++ lit "]".

(** [part.filter(|s| !s.is_empty())]. *)
Definition nonempty (part : option str) : option str := match part with Some [] => None | _ => part end.

Definition format_tvp_sql_name (n : TvpTypeName) : str :=
  match nonempty (tvp_schema_name n) with
  | Some schema => quoted schema ++ lit "." ++ quoted (tvp_type_name n) ++ lit " READONLY"
  | None => quoted (tvp_type_name n) ++ lit " READONLY"
  end.

Definition format_udt_sql_name (n : UdtTypeName) : str :=
  match nonempty (clr_db_name n), nonempty (clr_schema_name n) with
  | Some db, schema => quoted db ++ lit "." ++ default [] (quoted <$> schema) ++ lit "." ++ quoted (clr_type_name n)
  | None, Some schema => quoted schema ++ lit "." ++ quoted (clr_type_name n)
  | None, None => quoted (clr_type_name n)
  end.

Definition temporal_len (metadata : option RpcTypeMetadata) (scale : option Z) : str :=
  display (override (metadata ≫= md_scale) scale DEFAULT_VARTIME_SCALE).

(** [len_in_metadata]. *)
Definition len_in_metadata (value : SqlType) (metadata : option RpcTypeMetadata) : str :=
  match value with
  | T_NVarcharMax _ | T_VarBinaryMax _ | T_VarcharMax _ => lit "MAX"
  | T_Varchar _ len | T_VarBinary _ len => if 8000 <? len then lit "MAX" else display len
  | T_NVarchar _ len => if 4000 <? len then lit "MAX" else display len
  | T_Binary _ len | T_Char _ len | T_NChar _ len => display len
  | T_Time time => temporal_len metadata (time_scale <$> time)
  | T_DateTime2 d => temporal_len metadata ((fun d => time_scale (dt2_time d)) <$> d)
  | T_DateTimeOffset d => temporal_len metadata ((fun d => time_scale (dt2_time (dto_datetime2 d))) <$> d)
  | T_Decimal value | T_Numeric value =>
      match metadata ≫= md_precision, value with
      | Some p, _ => display p ++ lit "," ++ display (default 0 (metadata ≫= md_scale))
      | None, Some parts => display (dec_precision parts) ++ lit "," ++ display (dec_scale parts)
      | None, None => lit "18, 10"
      end
  | T_Vector _ dims base => match base with Float32 => display dims | Float16 => display dims ++ lit ", float16" end
  | _ => []
  end.

Definition get_sql_name (value : SqlType) (metadata : option RpcTypeMetadata) : TdsResult str :=
  match value with
  | T_Table type_name _ => Ok (format_tvp_sql_name type_name)
  | T_Udt type_name _ => Ok (format_udt_sql_name type_name)
  | _ =>
      let? type_name := get_meta_type_name (TdsDataType_from value) in
      match len_in_metadata value metadata with
      | [] => Ok (lit type_name)
      | len => Ok (lit type_name ++ lit "(" ++ len ++ lit ")")
      end
  end.

Definition StreamedSqlType_sql_name (s : StreamedSqlType) : TdsResult str := get_sql_name (as_sql_type s) None.

Definition sql_declaration (p : RpcParameter) : TdsResult str :=
  match rp_streamed_declaration p with
  | Some declaration => get_sql_name declaration (rp_type_metadata p)
  | None =>
      match rp_value p with
      | Materialized value =>
          get_sql_name value
            (match rp_numeric_declaration p with
             | Some d => Some {| md_precision := Some (nd_precision d); md_scale := Some (nd_scale d) |}
             | None => rp_type_metadata p
             end)
      | Streamed streamed => StreamedSqlType_sql_name streamed
      end
  end.

(** The loop of [build_parameter_list_string_impl]; [first_param] is whether nothing was declared yet. *)
Fixpoint build_parameter_list (named_params : list RpcParameter) (first_param : bool) (params_list : str) : TdsResult str :=
  match named_params with
  | [] => Ok params_list
  | param :: named_params =>
      match rp_name param with
      | None => build_parameter_list named_params first_param params_list
      | Some param_name =>
          let? param_type_name := sql_declaration param in
          let params_list := params_list ++ (if first_param then [] else lit ", ") in
          let output := if is_output param then lit "OUTPUT " else [] in
          build_parameter_list named_params false
            (params_list ++ param_name ++ lit " " ++ param_type_name ++ lit " " ++ output)
      end
  end.

Definition build_parameter_list_string (named_params : list RpcParameter) (params_list : str) : TdsResult str :=
  build_parameter_list named_params true params_list.

(** ** Checks and wire form of a parameter *)

(** The bound is on UTF-8 bytes. *)
Definition validate_name_length (name : str) : TdsResult unit :=
  if (255 <? str_len name)%nat
  then Err (UsageError "Parameter name is too long. Maximum length is 255 characters.") else Ok tt.

Definition inline_value (p : RpcParameter) : option RpcInlineValue :=
  match rp_value p, rp_encrypted p with
  | Materialized value, None => rpc_inline value
  | _, _ => None
  end.

Definition positional_inline_len (p : RpcParameter) : option nat :=
  (fun value => 2 + encoded_len value)%nat <$> inline_value p.

Definition write_positional_inline (db_collation : SqlCollation) (p : RpcParameter) : M PacketWriter unit :=
  match inline_value p with
  | Some value =>
      write_bytes_within_packet [byte_of 0; byte_of (rp_options p)] ;; RpcInlineValue_write value db_collation
  | None => ret tt
  end.

Definition RpcParameter_value (p : RpcParameter) : TdsResult SqlType :=
  match rp_value p with
  | Materialized value => Ok value
  | Streamed _ => Err (UsageError "Data-at-execution parameters are only supported via begin_sp_executesql.")
  end.

Definition write_encrypted_value (value : option bytes) : M PacketWriter unit :=
  let len := Z.of_nat (match value with Some bs => length bs | None => 0 end) in
  let is_short := len <=? SHORT_VARTYPE_MAX_BYTES in
  write_u16_async (if is_short then SHORT_VARTYPE_MAX_BYTES else SQL_USHORTVARMAXLEN) ;;
  match value with
  | None => write_i16_async (-1)
  | Some bs =>
      if is_short then write_u16_async (as_u16 len) ;; (if 0 <? len then write_async bs else ret tt)
      else if 0xFFFFFFFF <? len
      then throw (ColumnEncryptionError "encrypted value length exceeds the maximum PLP chunk size")
      else
        write_u64_async len ;; write_u32_async (as_u32 len) ;; write_async bs ;; write_u32_async 0
  end.

Definition write_crypto_metadata (m : RpcEncryptionMetadata) : M PacketWriter unit :=
  write_byte_async (cipher_algorithm_id m) ;;
  write_byte_async (encryption_type m) ;;
  write_i32_async (em_database_id m) ;;
  write_i32_async (em_cek_id m) ;;
  write_i32_async (em_cek_version m) ;;
  write_async (em_cek_md_version m) ;;
  write_byte_async (normalization_rule_version m).

Section parameters.
Context `{rs : EncodingRs} `{narrow : HalfCrateNarrow}.

Definition validate_before_send (db_collation : SqlCollation) (p : RpcParameter) : TdsResult unit :=
  match rp_value p with
  | Materialized value => validate_for_send value db_collation (rp_narrow_string_byte_limit p)
  | Streamed streamed => StreamedSqlType_validate streamed
  end.

Definition validate_named_before_send (db_collation : SqlCollation) (p : RpcParameter) : TdsResult unit :=
  let? _ := match rp_name p with Some name => validate_name_length name | None => Ok tt end in
  validate_before_send db_collation p.

(** An encrypted [bit] is described as BITN, everything else as it is when it is sent in clear. *)
Definition write_encrypted (db_collation : SqlCollation) (p : RpcParameter) (encrypted : EncryptedRpcValue) : M PacketWriter unit :=
  write_byte_async (Z.lor (rp_options p) ENCRYPTED) ;;
  write_byte_async (TdsDataType_u8 DT_BigVarBinary) ;;
  write_encrypted_value (ciphertext encrypted) ;;
  value <- lift (RpcParameter_value p) ;;
  (match value with
   | T_Bit _ => write_byte_async (TdsDataType_u8 DT_BitN) ;; write_byte_async 1
   | other => write_type_info other db_collation None None
   end) ;;
  write_crypto_metadata (ev_metadata encrypted) ;;
  if had_conversion_loss encrypted then modify note_code_page_conversion_loss else ret tt.

(** The name: none for a positional parameter, whose options go along with it when it is plain. *)
Definition write_parameter_name (is_positional options_written : bool) (p : RpcParameter) : M PacketWriter unit :=
  if is_positional then
    if options_written then write_fixed_bytes [byte_of 0; byte_of (rp_options p)] else write_byte_async 0
  else
    match rp_name p with
    | Some name =>
        lift (validate_name_length name) ;;
        write_byte_async (as_u8 (Z.of_nat (str_len name))) ;;
        write_string_unicode_async name
    | None => panic "internal error: entered unreachable code: Parameter name is None for a non-positional parameter."
    end.

Definition RpcParameter_serialize (db_collation : SqlCollation) (is_positional : bool) (p : RpcParameter) : M PacketWriter unit :=
  let options_written :=
    is_positional && match rp_encrypted p, rp_value p with None, Materialized _ => true | _, _ => false end in
  write_parameter_name is_positional options_written p ;;
  match rp_value p, rp_encrypted p with
  | Streamed _, Some _ => throw (UsageError "Encrypted parameters cannot be streamed incrementally.")
  | Streamed st, None =>
      write_byte_async (rp_options p) ;; write_type_info (as_sql_type st) db_collation None None
  | Materialized _, Some encrypted => write_encrypted db_collation p encrypted
  | Materialized value, None =>
      (if negb options_written then write_byte_async (rp_options p) else ret tt) ;;
      serialize_with_narrow_string_byte_limit value db_collation (rp_type_metadata p) (rp_narrow_string_byte_limit p)
  end.

(** The value to encrypt: narrow text as it would be sent.  Bytes that needed neither transcoding nor
    fitting leave the value as it is. *)
Definition value_for_encryption (db_collation : SqlCollation) (p : RpcParameter) : TdsResult (SqlType * bool) :=
  let? value := RpcParameter_value p in
  match value with
  | T_Char _ _ | T_Varchar _ _ | T_VarcharMax _ | T_Text _ =>
      let? '(column_value, context) := to_column_value_and_context value db_collation in
      let? narrowed := narrow_string_bytes column_value context (rp_narrow_string_byte_limit p) in
      match narrowed, column_value with
      | Some (bs, had_loss), CString original =>
          let borrowed := match as_raw_wire_bytes original with Some _ => true | None => false end in
          if borrowed && (length bs =? length (sql_bytes original))%nat then Ok (value, had_loss)
          else
            let sql_string := SqlString_new bs (LcidBased db_collation) in
            match value with
            | T_Varchar _ length => Ok (T_Varchar (Some sql_string) length, had_loss)
            | T_VarcharMax _ => Ok (T_VarcharMax (Some sql_string), had_loss)
            | T_Char _ length => Ok (T_Char (Some sql_string) length, had_loss)
            | T_Text _ => Ok (T_Text (Some sql_string), had_loss)
            | _ => Ok (value, false)
            end
      | _, _ => Ok (value, false)
      end
  | _ => Ok (value, false)
  end.

(** ** Requests *)

Definition PROC_ID_SWITCH : Z := 0xffff.
Definition PROC_ID_LEN : nat := 6.
Definition MAX_PROC_NAME_UTF16_UNITS : Z := 523.
Definition RPC_BATCH_DELIMITER : Z := 0xff.

Inductive ProcOptions := PO_None | PO_WithRecompile | PO_NoMetadata | PO_ReuseMetadata.

Definition ProcOptions_i16 (o : ProcOptions) : Z :=
  match o with PO_None => 0 | PO_WithRecompile => 1 | PO_NoMetadata => 2 | PO_ReuseMetadata => 4 end.

Inductive RpcProcs :=
  | Proc_Cursor | Proc_CursorOpen | Proc_CursorPrepare | Proc_CursorExecute | Proc_CursorPrepExec | Proc_CursorUnprepare
  | Proc_CursorFetch | Proc_CursorOption | Proc_CursorClose | Proc_ExecuteSql | Proc_Prepare | Proc_Execute | Proc_PrepExec
  | Proc_PrepExecRpc | Proc_Unprepare.

Definition get_u8_value (p : RpcProcs) : Z :=
  match p with
  | Proc_Cursor => 1 | Proc_CursorOpen => 2 | Proc_CursorPrepare => 3 | Proc_CursorExecute => 4 | Proc_CursorPrepExec => 5
  | Proc_CursorUnprepare => 6 | Proc_CursorFetch => 7 | Proc_CursorOption => 8 | Proc_CursorClose => 9
  | Proc_ExecuteSql => 10 | Proc_Prepare => 11 | Proc_Execute => 12 | Proc_PrepExec => 13 | Proc_PrepExecRpc => 14
  | Proc_Unprepare => 15
  end.

Inductive RpcType := Named (name : str) | ProcId (p : RpcProcs).

Inductive ValueBinding := ByName | ByOrdinal.

Record SqlRpc := {
  rpc_headers : list TdsHeaders;
  rpc_type : RpcType;
  positional_parameters : option (list RpcParameter);
  named_parameters : option (list RpcParameter);
  rpc_collation : SqlCollation;
  proc_options : ProcOptions;
  value_binding : ValueBinding;
}.

Definition SqlRpc_new_batch_command (rpc_type : RpcType) (positional named : option (list RpcParameter))
    (db_collation : SqlCollation) (c : ExecutionContext) (first : bool) : SqlRpc :=
  {| rpc_headers := if first then [TransactionDescriptor (TransactionDescriptorHeader_from c)] else [];
     rpc_type := rpc_type; positional_parameters := positional; named_parameters := named; rpc_collation := db_collation;
     proc_options := PO_None; value_binding := ByName |}.

Definition SqlRpc_new (rpc_type : RpcType) (positional named : option (list RpcParameter))
    (db_collation : SqlCollation) (c : ExecutionContext) : SqlRpc :=
  {| rpc_headers := [TransactionDescriptor (TransactionDescriptorHeader_from c)];
     rpc_type := rpc_type; positional_parameters := positional; named_parameters := named; rpc_collation := db_collation;
     proc_options := PO_None; value_binding := ByName |}.

(** The ordinals and names of the output values, the first of which has the ordinal [index]. *)
Fixpoint output_names (index : nat) (values : list RpcParameter) : list (Z * str) :=
  match values with
  | [] => []
  | value :: values =>
      let rest := output_names (S index) values in
      if is_output value && (Z.of_nat index <=? 65535)
      then match rp_name value with Some name => (Z.of_nat index, name) :: rest | None => rest end
      else rest
  end.

Definition output_names_by_ordinal (r : SqlRpc) (trailing : list RpcParameter) : list (Z * str) :=
  match value_binding r with
  | ByName => []
  | ByOrdinal =>
      output_names (length (default [] (positional_parameters r))) (default [] (named_parameters r) ++ trailing)
  end.

Definition each {A} (f : A -> TdsResult unit) (l : list A) : TdsResult unit := each_indexed (fun _ => f) 0 l.

Definition validate_named (db_collation : SqlCollation) (p : RpcParameter) : TdsResult unit :=
  match rp_name p with
  | None => Err (UsageError "Named RPC parameters must have a name.")
  | Some _ => validate_named_before_send db_collation p
  end.

Definition validate_parameters (r : SqlRpc) : TdsResult unit :=
  let? _ := each (validate_before_send (rpc_collation r)) (default [] (positional_parameters r)) in
  each (validate_named (rpc_collation r)) (default [] (named_parameters r)).

Definition write_positional_parameters (r : SqlRpc) : M PacketWriter unit :=
  write_indexed (fun index p =>
    map_err_async (with_tvp_parameter_context (tvp_parameter_ref (RpcPosition (index + 1)) p))
      (RpcParameter_serialize (rpc_collation r) true p)) 0 (default [] (positional_parameters r)).

Definition write_named_parameters (r : SqlRpc) : M PacketWriter unit :=
  let by_ordinal := match value_binding r with ByOrdinal => true | ByName => false end in
  write_all_of (fun p =>
    map_err_async (with_tvp_parameter_context (tvp_parameter_ref (Name (default (lit "unnamed") (rp_name p))) p))
      (RpcParameter_serialize (rpc_collation r) by_ordinal p)) (default [] (named_parameters r)).

Definition proc_id_bytes (r : SqlRpc) (proc : RpcProcs) : bytes :=
  le_bytes 2 PROC_ID_SWITCH ++ le_bytes 2 (get_u8_value proc) ++ le_bytes 2 (ProcOptions_i16 (proc_options r)).

Definition write_proc (r : SqlRpc) : M PacketWriter unit :=
  match rpc_type r with
  | ProcId proc => write_fixed_bytes (proc_id_bytes r proc)
  | Named stored_proc_name =>
      let name_len := Z.of_nat (length (utf16 stored_proc_name)) in
      if name_len <=? MAX_PROC_NAME_UTF16_UNITS then
        write_u16_async name_len ;;
        write_string_unicode_async stored_proc_name ;;
        write_i16_async (ProcOptions_i16 (proc_options r))
      else throw (UsageError "RPC procedure name exceeds 523 UTF-16 code units.")
  end.

Definition serialize_prefix (r : SqlRpc) : M PacketWriter unit :=
  lift (validate_parameters r) ;;
  write_headers (rpc_headers r) ;;
  write_proc r ;;
  write_positional_parameters r ;;
  write_named_parameters r.

Definition serialize_batch_command (r : SqlRpc) (first : bool) : M PacketWriter unit :=
  lift (validate_parameters r) ;;
  (if first then write_headers (rpc_headers r) else write_byte_async RPC_BATCH_DELIMITER) ;;
  write_proc r ;;
  write_positional_parameters r ;;
  write_named_parameters r.

Definition SqlRpc_serialize (r : SqlRpc) : M PacketWriter unit := serialize_prefix r ;; finalize.

(** The sum of [positional_inline_len], [None] as soon as a parameter has none. *)
Fixpoint inline_length (parameters : list RpcParameter) (length : nat) : option nat :=
  match parameters with
  | [] => Some length
  | p :: parameters => parameter_length ← positional_inline_len p; inline_length parameters (length + parameter_length)
  end.

(** The two [debug_assert]s at the end hold what was reserved. *)
Definition write_command_within_packet (r : SqlRpc) (proc : RpcProcs) (parameters : list RpcParameter) (length : nat)
    : M PacketWriter bool :=
  lift (validate_parameters r) ;;
  start <- gets position ;;
  write_bytes_within_packet [byte_of RPC_BATCH_DELIMITER] ;;
  write_bytes_within_packet (proc_id_bytes r proc) ;;
  write_all_of (write_positional_inline (rpc_collation r)) parameters ;;
  w <- gets id ;;
  if negb (as_usize (position w - start) =? length)%nat then panic "assertion failed: position - start == length"
  else if negb (has_space 1 w) then panic "assertion failed: packet_writer.has_space(1)"
  else ret true.

Definition try_write_batch_command_within_packet (r : SqlRpc) (first : bool) : M PacketWriter bool :=
  match rpc_type r, positional_parameters r with
  | ProcId proc, Some parameters =>
      if first || match named_parameters r with Some (_ :: _) => true | _ => false end then ret false
      else
        match inline_length parameters (1 + PROC_ID_LEN) with
        | None => ret false
        | Some length =>
            w <- gets id ;;
            if negb (has_space (length + 1) w) then ret false
            else write_command_within_packet r proc parameters length
        end
  | _, _ => ret false
  end.
End parameters.
