(* ===== verification/RpcLaws.v ===== *)
(** * RPC requests are what they declare

    The batch command written without awaiting is the command written with awaits; what is validated
    can be described; parameters and whole requests are read back; type names stay inside their
    quotes; table cells keep their values. *)

From stdpp Require Import strings.
From S2P Require Import Prelude Core Unicode PacketReader Tokens DataTypes ColMetadata ColMetadataLaws Values Plp PlpLaws Decoder Decimal NarrowText.
From S2P Require Import ReadBuffer Transport PacketWriter Writer WriterText WriterMessage Session Requests TokenLaws ValueSerializer ValueWriting ValueRoundTrip ValueLaws.
From S2P Require Import SqlIdentifier Text SqlTypes SqlTypeLaws Rpc.

(** ** Writes that stay inside the packet *)

Definition appended (bs : bytes) (w : PacketWriter) : PacketWriter := w {{ payload_cursor ::= write_all bs }}.

(** Everything before the cursor is there. *)
Definition filled (w : PacketWriter) : Prop := (cur_pos (payload_cursor w) <= length (cur_vec (payload_cursor w)))%nat.

(** With room to spare the only effect of [op] is to append [bs]. *)
Definition puts {A} (op : M PacketWriter A) (bs : bytes) (a : A) : Prop :=
  forall m chunks buf w, size_ok m -> writer_at m chunks buf w -> filled w -> (length buf + length bs < m_room m)%nat ->
    op w = (Ok a, appended bs w).

Lemma write_all_nil c : (cur_pos c <= length (cur_vec c))%nat -> write_all [] c = c.
Proof.
  intros H. destruct c as [v n]. cbn in *. unfold write_all. cbn. replace (n - length v)%nat with 0%nat by lia.
  unfold splice. cbn. rewrite app_nil_r, Nat.add_0_r, take_drop. done.
Qed.

Lemma write_all_app a b c : write_all b (write_all a c) = write_all (a ++ b) c.
Proof.
  pose proof (write_all_vec a c) as Hv. destruct c as [v n]. unfold write_all in *. cbn [cur_vec cur_pos] in *.
  set (u := v ++ replicate (n - length v) (byte_of 0)) in *.
  assert (Hu : (n <= length u)%nat) by (unfold u; rewrite length_app, length_replicate; lia). clearbody u.
  replace (n + length a - length (splice n a u))%nat with 0%nat by lia. cbn [replicate]. rewrite app_nil_r, length_app, Nat.add_assoc.
  f_equal. unfold splice. rewrite length_app, <- !app_assoc.
  assert (Hl : length (take n u ++ a) = (n + length a)%nat) by (rewrite length_app, length_take; lia).
  rewrite (app_assoc (take n u) a). rewrite take_app_length' by done.
  rewrite drop_app_ge by lia. rewrite Hl, drop_drop, <- !app_assoc. do 3 f_equal. f_equal. lia.
Qed.

Lemma appended_nil w : filled w -> appended [] w = w.
Proof.
  intros H. transitivity (w {{ payload_cursor := write_all [] (payload_cursor w) }}); [done|].
  rewrite write_all_nil by done. by destruct w.
Qed.

Lemma appended_app a b w : appended b (appended a w) = appended (a ++ b) w.
Proof.
  transitivity (w {{ payload_cursor := write_all b (write_all a (payload_cursor w)) }}); [done|]. by rewrite write_all_app.
Qed.

Lemma appended_filled bs w : filled (appended bs w).
Proof. apply (write_all_vec bs (payload_cursor w)). Qed.

Lemma appended_at m chunks buf bs w :
  writer_at m chunks buf w -> (length buf + length bs <= m_size m)%nat -> writer_at m chunks (buf ++ bs) (appended bs w).
Proof. intros Hw Hl. destruct (put_at m chunks buf bs w Hw Hl) as (w' & E & Hw' & _). by injection E as <-. Qed.

Lemma puts_ret {A} (a : A) : puts (ret a) [] a.
Proof. intros m chunks buf w _ _ Hf _. by rewrite appended_nil. Qed.

Lemma puts_put bs : puts (put bs) bs tt.
Proof. done. Qed.

Lemma puts_bind {A B} (op : M PacketWriter A) (k : A -> M PacketWriter B) b1 b2 x a :
  puts op b1 x -> puts (k x) b2 a -> puts (bind op k) (b1 ++ b2) a.
Proof.
  intros H1 H2 m chunks buf w Hs Hw Hf Hl. rewrite length_app in Hl. unfold bind.
  rewrite (H1 m chunks buf w Hs Hw Hf) by lia.
  rewrite (H2 m chunks (buf ++ b1)), appended_app; [done|done| |apply appended_filled|rewrite length_app; lia].
  apply appended_at; [done|]. unfold m_room in Hl. lia.
Qed.

Lemma puts_eq {A} (op : M PacketWriter A) b1 b2 a : puts op b1 a -> b1 = b2 -> puts op b2 a.
Proof. by intros ? <-. Qed.

Lemma puts_lift {A B} (x : TdsResult A) (a : A) (k : A -> M PacketWriter B) bs b :
  x = Ok a -> puts (k a) bs b -> puts (bind (lift x) k) bs b.
Proof. intros -> H. exact H. Qed.

Lemma checked_appends m chunks buf bs w :
  size_ok m -> writer_at m chunks buf w -> (length buf + length bs < m_room m)%nat -> write_checked bs w = (Ok tt, appended bs w).
Proof.
  intros Hs Hw Hl. unfold write_checked, bind at 1. cbn [put modify].
  fold (appended bs w). unfold handle_overflow_if_needed, bind at 1, gets, id.
  pose proof (appended_at m chunks buf bs w Hw) as Ha. unfold m_room in Hl. specialize (Ha ltac:(lia)).
  rewrite (position_at _ _ _ _ Hs Ha), (at_room _ _ _ _ Ha), length_app.
  rewrite (proj2 (Z.leb_gt _ _)) by (unfold m_room; lia). done.
Qed.

Lemma within_appends m chunks buf bs w :
  size_ok m -> writer_at m chunks buf w -> (length buf + length bs < m_room m)%nat ->
  write_bytes_within_packet bs w = (Ok tt, appended bs w).
Proof.
  intros Hs Hw Hl. unfold write_bytes_within_packet, bind, gets, id.
  rewrite (has_space_at m chunks buf) by done. by rewrite bool_decide_true by lia.
Qed.

Lemma puts_checked bs : puts (write_checked bs) bs tt.
Proof. intros m chunks buf w Hs Hw Hf Hl. by eapply checked_appends. Qed.

Lemma puts_within bs : puts (write_bytes_within_packet bs) bs tt.
Proof. intros m chunks buf w Hs Hw Hf Hl. by eapply within_appends. Qed.

Lemma puts_fixed bs : puts (write_fixed_bytes bs) bs tt.
Proof.
  intros m chunks buf w Hs Hw Hf Hl. unfold write_fixed_bytes, bind, gets, id.
  rewrite (has_space_at m chunks buf) by done. by rewrite bool_decide_true by lia.
Qed.

Lemma puts_async bs : puts (write_async bs) bs tt.
Proof.
  intros m chunks buf w Hs Hw Hf Hl. unfold write_async. cbn [Nat.add write_loop]. case_decide as Hb.
  - subst. by rewrite appended_nil.
  - unfold bind at 1. rewrite (packet_space_left_at m chunks buf) by (done || lia). by rewrite decide_False by lia.
Qed.

Lemma puts_if_space n fast slow bs : puts fast bs tt -> puts slow bs tt -> puts (if_space n fast slow) bs tt.
Proof.
  intros H1 H2 m chunks buf w Hs Hw Hf Hl. unfold if_space, bind, gets, id.
  destruct (has_space n w); [by eapply H1|by eapply H2].
Qed.

Lemma puts_map_err {A} f (op : M PacketWriter A) bs a : puts op bs a -> puts (map_err_async f op) bs a.
Proof. intros H m chunks buf w Hs Hw Hf Hl. unfold map_err_async. by rewrite (H m chunks buf). Qed.

Ltac puts_one :=
  first [apply puts_ret | apply puts_put | apply puts_checked | apply puts_within | apply puts_fixed | apply puts_async].

(** ** The batch command without awaits *)

Definition inline_bytes (collation : SqlCollation) (v : RpcInlineValue) : bytes :=
  let intn := byte_of (TdsDataType_u8 DT_IntN) in
  match v with
  | RI_Int value => [intn; byte_of 4] ++ match value with Some z => byte_of 4 :: le_bytes 4 z | None => [byte_of NULL_LENGTH] end
  | RI_BigInt value => [intn; byte_of 8] ++ match value with Some z => byte_of 8 :: le_bytes 8 z | None => [byte_of NULL_LENGTH] end
  | RI_NVarchar max_bytes value =>
      collated_type_info_bytes (TdsDataType_u8 DT_NVarChar) max_bytes collation ++
      match value with Some bs => le_bytes 2 (Z.of_nat (length bs)) ++ bs | None => le_bytes 2 VARNULL end
  end.

Lemma length_inline_bytes c v : length (inline_bytes c v) = encoded_len v.
Proof. destruct v as [[]|[]|? []]; cbn; rewrite ?length_app; done. Qed.

Lemma inline_write_puts c v : puts (RpcInlineValue_write v c) (inline_bytes c v) tt.
Proof.
  destruct v as [[]|[]|n [bs|]]; cbn [RpcInlineValue_write inline_bytes]; (eapply puts_bind; [puts_one|try puts_one]).
  eapply puts_bind; [|puts_one]. eapply puts_eq; [apply puts_within|]. apply le_bytes_as_u16.
Qed.

Section commands.
Context `{rs : EncodingRs} `{narrow : HalfCrateNarrow}.

Lemma length_prefixed_puts n v bs :
  length bs = n -> (n < 256)%nat ->
  puts (if_space (S n) (write_byte_unchecked v ;; put bs) (write_byte_async v ;; write_checked bs)) (byte_of v :: bs) tt.
Proof. intros _ _. apply puts_if_space; apply (puts_bind _ _ [byte_of v] bs tt); puts_one. Qed.

Lemma wide_string_puts text bs max_size c (ctx := rpc_ctx DT_NVarChar max_size false c) :
  Nat.even (length bs) = true -> Z.of_nat (length bs / 2) <= max_size ->
  puts (serialize_wide_string text bs true ctx) (le_bytes 2 (Z.of_nat (length bs)) ++ bs) tt.
Proof.
  intros He Hm. unfold serialize_wide_string. apply Nat.even_spec in He as [k Hk].
  replace (Z.of_nat (length bs) mod 2 =? 0) with true by (rewrite Hk, Nat2Z.inj_mul, Z.mul_comm, Z_mod_mult; done).
  cbn [negb andb ctx rpc_ctx ctx_is_plp ctx_max_size]. rewrite (proj2 (Z.ltb_ge _ _)) by done.
  apply (puts_bind _ _ _ _ tt); [|puts_one]. eapply puts_eq; [apply puts_checked|]. apply le_bytes_as_u16.
Qed.

(** The value as the awaiting path writes it. *)
Lemma inline_value_puts v iv c metadata limit :
  rpc_inline v = Some iv -> puts (serialize_with_narrow_string_byte_limit v c metadata limit) (inline_bytes c iv) tt.
Proof.
  intros Hi. destruct v; cbn [rpc_inline] in Hi; try discriminate Hi.
  1, 2: injection Hi as <-; cbn [serialize_with_narrow_string_byte_limit inline_bytes]; apply (puts_bind _ _ _ _ tt);
    [apply puts_fixed|]; destruct v; [apply length_prefixed_puts; [apply length_le_bytes|lia]|apply puts_checked].
  destruct (nvarchar_inline_max_bytes length) as [max_bytes|] eqn:Em; [|discriminate Hi]. cbn [mbind option_bind] in Hi.
  unfold nvarchar_inline_max_bytes, NVARCHAR_MAX_INLINE_CHARS in Em. destruct (4000 <? length) eqn:El; [discriminate Em|]. injection Em as <-.
  assert (Hplp : (length * 2 =? MAX_U16_LENGTH) = false) by (unfold MAX_U16_LENGTH; lia).
  assert (Hhalf : length * 2 / 2 = length) by (apply Z.div_mul; lia).
  cbn [serialize_with_narrow_string_byte_limit write_rpc_type_metadata write_type_info to_column_value_and_context get_nullable_type].
  unfold nvarchar_inline_max_bytes, NVARCHAR_MAX_INLINE_CHARS. rewrite El. cbn [default from_option id]. rewrite Hplp, Hhalf.
  destruct v as [s|]; cycle 1.
  { injection Hi as <-. apply (puts_bind _ _ _ _ tt); [apply puts_fixed|apply puts_checked]. }
  destruct (match as_utf16_bytes s with Some bs => Some bs | None => as_raw_wire_bytes s end) as [bs|] eqn:Es; [|discriminate Hi].
  cbn [mbind option_bind] in Hi. destruct (negb (Nat.even _) || _) eqn:Eb; [discriminate Hi|]. injection Hi as <-.
  apply orb_false_elim in Eb as [He Hl]. apply negb_false_iff in He. apply Z.ltb_ge in Hl.
  apply (puts_bind _ _ _ _ tt); [apply puts_fixed|].
  assert (Hs : puts (serialize_wide_string (to_utf8_string s) bs true (rpc_ctx DT_NVarChar length false (Some c)))
                 (le_bytes 2 (Z.of_nat (List.length bs)) ++ bs) tt).
  { apply wide_string_puts; [done|]. rewrite Nat2Z.inj_div. apply Z.div_le_upper_bound; lia. }
  change (puts (serialize_string s (rpc_ctx DT_NVarChar length false (Some c)) limit true)
            (le_bytes 2 (Z.of_nat (List.length bs)) ++ bs) tt).
  unfold serialize_string. cbn [rpc_ctx ctx_tds_type TdsDataType_u8 NVARCHAR Z.eqb Pos.eqb orb].
  destruct (as_utf16_bytes s); [by injection Es as ->|]. by rewrite Es.
Qed.

Lemma inline_is_valid c p iv : inline_value p = Some iv -> validate_before_send c p = Ok tt.
Proof.
  unfold inline_value, validate_before_send. destruct (rp_value p) as [v|]; [|done]. destruct (rp_encrypted p); [done|].
  by destruct v.
Qed.

Definition parameter_bytes (c : SqlCollation) (p : RpcParameter) : bytes :=
  match inline_value p with Some iv => [byte_of 0; byte_of (rp_options p)] ++ inline_bytes c iv | None => [] end.

Lemma parameter_puts c p iv :
  inline_value p = Some iv ->
  puts (RpcParameter_serialize c true p) (parameter_bytes c p) tt /\ puts (write_positional_inline c p) (parameter_bytes c p) tt.
Proof.
  intros Hi. unfold parameter_bytes, write_positional_inline. rewrite Hi. split.
  - unfold inline_value, RpcParameter_serialize, write_parameter_name in *. destruct (rp_value p) as [v|]; [|done].
    destruct (rp_encrypted p); [done|]. cbn [andb negb]. apply (puts_bind _ _ _ _ tt); [puts_one|].
    apply (puts_bind _ _ [] _ tt); [puts_one|]. by apply inline_value_puts.
  - apply (puts_bind _ _ _ _ tt); [puts_one|apply inline_write_puts].
Qed.

Lemma parameters_put r ps n len i j :
  inline_length ps n = Some len ->
  let bs := concat (parameter_bytes (rpc_collation r) <$> ps) in
  len = (n + length bs)%nat /\ each_indexed (fun _ => validate_before_send (rpc_collation r)) j ps = Ok tt /\
  puts (write_all_of (write_positional_inline (rpc_collation r)) ps) bs tt /\
  puts (write_indexed (fun index p =>
    map_err_async (with_tvp_parameter_context (tvp_parameter_ref (RpcPosition (index + 1)) p))
      (RpcParameter_serialize (rpc_collation r) true p)) i ps) bs tt.
Proof.
  revert n i j. induction ps as [|p ps IH]; intros n i j Hlen; cbn [inline_length] in Hlen.
  { injection Hlen as <-. split_and!; [cbn; lia|done|apply puts_ret..]. }
  unfold positional_inline_len in Hlen. destruct (inline_value p) as [iv|] eqn:Hi; [|discriminate Hlen].
  cbn [fmap option_fmap option_map mbind option_bind] in Hlen. destruct (IH _ (S i) (S j) Hlen) as (-> & Hv & Hf & Hs).
  destruct (parameter_puts (rpc_collation r) p iv Hi) as [H1 H2]. cbn [fmap list_fmap concat each_indexed write_all_of write_indexed].
  split_and!; [|by rewrite (inline_is_valid _ _ _ Hi)|by apply (puts_bind _ _ _ _ tt)|
    apply (puts_bind _ _ _ _ tt); [by apply puts_map_err|exact Hs]].
  rewrite length_app. unfold parameter_bytes at 2. rewrite Hi, length_app, length_inline_bytes. cbn [length]. lia.
Qed.

(** What the command without awaits appends. *)
Definition command_bytes (r : SqlRpc) (proc : RpcProcs) (ps : list RpcParameter) : bytes :=
  [byte_of RPC_BATCH_DELIMITER] ++ proc_id_bytes r proc ++ concat (parameter_bytes (rpc_collation r) <$> ps).

Lemma after_delimiter {A} (op : M PacketWriter A) bs a m chunks buf w :
  puts op bs a -> size_ok m -> writer_at m chunks buf w ->
  (length buf + length ([byte_of RPC_BATCH_DELIMITER] ++ bs) < m_room m)%nat ->
  op (appended [byte_of RPC_BATCH_DELIMITER] w) = (Ok a, appended ([byte_of RPC_BATCH_DELIMITER] ++ bs) w).
Proof.
  intros Hop Hs Hw Hl. rewrite length_app in Hl. cbn [length] in Hl. rewrite <- appended_app.
  apply (Hop m chunks (buf ++ [byte_of RPC_BATCH_DELIMITER])); [done| |apply appended_filled|rewrite length_app; cbn [length]; lia].
  apply appended_at; [done|]. cbn [length]. unfold m_room in Hl. lia.
Qed.

Lemma no_named_parameters r :
  match named_parameters r with Some (_ :: _) => true | _ => false end = false -> default [] (named_parameters r) = [].
Proof. by destruct (named_parameters r) as [[]|]. Qed.

Section eligible.
Context (r : SqlRpc) (proc : RpcProcs) (ps : list RpcParameter) (len : nat).
Context (Hproc : rpc_type r = ProcId proc) (Hps : positional_parameters r = Some ps).
Context (Hnamed : default [] (named_parameters r) = []) (Hlen : inline_length ps (1 + PROC_ID_LEN) = Some len).
Context (m : Message) (chunks : list bytes) (buf : bytes) (w : PacketWriter).
Context (Hs : size_ok m) (Hw : writer_at m chunks buf w) (Hroom : (length buf + (len + 1) <= m_room m)%nat).

Lemma eligible_length : len = length (command_bytes r proc ps) /\ (1 <= len)%nat.
Proof.
  clear - rs narrow Hlen. destruct (parameters_put r ps _ len 0 0 Hlen) as (-> & _). unfold command_bytes, PROC_ID_LEN. rewrite !length_app. cbn [length]. split; [done|lia].
Qed.

Lemma eligible_valid : validate_parameters r = Ok tt.
Proof.
  unfold validate_parameters, each. rewrite Hps, Hnamed. cbn [default from_option id].
  by destruct (parameters_put r ps _ len 0 0 Hlen) as (_ & -> & _).
Qed.

Lemma eligible_slow : serialize_batch_command r false w = (Ok tt, appended (command_bytes r proc ps) w).
Proof.
  pose proof eligible_length as [El Hpos]. unfold serialize_batch_command. rewrite eligible_valid. unfold bind at 1, lift.
  unfold bind at 1, write_byte_async. rewrite (checked_appends m chunks buf) by (done || (cbn [length]; lia)).
  apply (after_delimiter _ _ _ m chunks buf); [|done|done|unfold command_bytes in El; rewrite <- El; lia].
  unfold write_proc, write_positional_parameters, write_named_parameters. rewrite Hproc, Hps, Hnamed. cbn [default from_option id].
  apply (puts_bind _ _ _ _ tt); [puts_one|]. rewrite <- (app_nil_r (concat _)). apply (puts_bind _ _ _ _ tt); [|puts_one].
  by destruct (parameters_put r ps _ len 0 0 Hlen) as (_ & _ & _ & H).
Qed.

Lemma eligible_fast : write_command_within_packet r proc ps len w = (Ok true, appended (command_bytes r proc ps) w).
Proof.
  pose proof eligible_length as [El Hpos]. unfold write_command_within_packet. rewrite eligible_valid. unfold bind at 1, lift.
  unfold bind at 1, gets. rewrite (position_at m chunks buf) by done.
  unfold bind at 1. rewrite (within_appends m chunks buf) by (done || (cbn [length]; lia)).
  assert (H : puts (write_bytes_within_packet (proc_id_bytes r proc) ;; write_all_of (write_positional_inline (rpc_collation r)) ps)
    (proc_id_bytes r proc ++ concat (parameter_bytes (rpc_collation r) <$> ps)) tt).
  { apply (puts_bind _ _ _ _ tt); [puts_one|]. by destruct (parameters_put r ps _ len 0 0 Hlen) as (_ & _ & H & _). }
  eapply (after_delimiter _ _ _ m chunks buf w) in H; [|done|done|unfold command_bytes in El; rewrite <- El; lia].
  change ([_] ++ _ ++ _) with (command_bytes r proc ps) in H. revert H. unfold bind.
  destruct (write_bytes_within_packet (proc_id_bytes r proc) _) as [[[]| | |] w1]; try done. intros ->. cbn beta iota delta [gets id].
  assert (Ha : writer_at m chunks (buf ++ command_bytes r proc ps) (appended (command_bytes r proc ps) w)).
  { apply appended_at; [done|]. unfold m_room in Hroom. lia. }
  rewrite (position_at _ _ _ _ Hs Ha), (has_space_at _ _ _ _ 1 Hs Ha), length_app, <- El. unfold id.
  replace (Z.of_nat (length buf + len) - Z.of_nat (length buf)) with (Z.of_nat len) by lia.
  destruct Hs. unfold m_room in Hroom. rewrite as_usize_nat by lia. rewrite Nat.eqb_refl, bool_decide_true by (unfold m_room; lia). done.
Qed.
End eligible.

(** C10: A command of a batch written without awaits is the command written with them: the same bytes in
    the same place, the writer in the same state, nothing sent; a command that does not qualify leaves
    the writer as it was.  Neither fails, and the assertions of the fast path hold. *)
Theorem batch_command_without_awaits r first m chunks buf w :
  size_ok m -> writer_at m chunks buf w ->
  match try_write_batch_command_within_packet r first w with
  | (Ok true, w') => serialize_batch_command r first w = (Ok tt, w') /\
      exists bs, writer_at m chunks (buf ++ bs) w' /\ (length (buf ++ bs) < m_room m)%nat
  | (Ok false, w') => w' = w
  | _ => False
  end.
Proof.
  intros Hs Hw. unfold try_write_batch_command_within_packet. destruct (rpc_type r) as [|proc] eqn:Hproc; [done|].
  destruct (positional_parameters r) as [ps|] eqn:Hps; [|done]. destruct first; [done|]. cbn [orb].
  destruct (match named_parameters r with Some (_ :: _) => true | _ => false end) eqn:Hn; [done|]. apply no_named_parameters in Hn.
  destruct (inline_length ps (1 + PROC_ID_LEN)) as [len|] eqn:Hlen; [|done]. unfold bind at 1, gets, id.
  rewrite (has_space_at m chunks buf) by done. case_bool_decide as Hroom; [|done]. cbn [negb].
  rewrite (eligible_fast r proc ps len Hps Hn Hlen m chunks buf) by done.
  rewrite (eligible_slow r proc ps len Hproc Hps Hn Hlen m chunks buf) by done. split; [done|].
  pose proof (eligible_length r proc ps len Hlen) as [El _]. exists (command_bytes r proc ps).
  rewrite length_app, <- El. split; [|lia]. apply appended_at; [done|]. unfold m_room in Hroom. lia.
Qed.
End commands.

(** ** Commands are read back *)

(** A name, the status flags, the type and the value. *)
Definition WireParameter : Type := str * Z * (TypeInfo * ColumnValues).

Section server.
Context `{half : HalfCrate} {R : Type} `{ops : TdsPacketReader R}.

(** Parameters up to the delimiter of the batch. *)
Fixpoint read_parameters (fuel : nat) (n : nat) : M R (list WireParameter) :=
  match n with
  | O => out_of_fuel
  | S n =>
      len <- read_byte ;;
      if len =? RPC_BATCH_DELIMITER then ret []
      else
        name <- read_unicode_with_byte_length (2 * Z.to_nat len) ;;
        status <- read_byte ;;
        tv <- read_typed_value fuel ;;
        rest <- read_parameters fuel n ;;
        ret ((name, status, tv) :: rest)
  end.

(** The procedure by number or by name, then its options. *)
Definition read_proc : M R ((Z + str) * Z) :=
  len <- read_uint16 ;;
  proc <- (if len =? PROC_ID_SWITCH then id <- read_uint16 ;; ret (inl id)
           else name <- read_unicode_with_byte_length (2 * Z.to_nat len) ;; ret (inr name)) ;;
  options <- read_int16 ;;
  ret (proc, options).

Definition read_command (fuel n : nat) : M R ((Z + str) * Z * list WireParameter) :=
  proc <- read_proc ;; ps <- read_parameters fuel n ;; ret (proc, ps).
End server.

Definition proc_sent (r : SqlRpc) : (Z + str) * Z :=
  (match rpc_type r with ProcId p => inl (get_u8_value p) | Named s => inr s end, ProcOptions_i16 (proc_options r)).

(** The length byte counts UTF-8 and the units sent are UTF-16. *)
Definition ascii (s : str) : Prop := Forall (fun c => 0 <= c < 128) s.

Lemma ascii_lengths s : ascii s -> str_wf s /\ str_len s = length s /\ length (utf16 s) = length s.
Proof.
  induction 1 as [|c s Hc _ (Hw & Hl & Hu)]; [by split_and!; [constructor|..]|]. rewrite str_len_cons. unfold utf16 in *.
  rewrite fmap_cons; cbn [concat]; rewrite length_app. split_and!; [constructor; [|done]|..].
  - unfold is_scalar. lia.
  - unfold len_utf8. rewrite (proj2 (Z.ltb_lt _ _)) by lia. cbn [length]. lia.
  - assert (encode_utf16 c = [c]) as -> by (unfold encode_utf16; by rewrite (proj2 (Z.ltb_lt _ _)) by lia). cbn [length]. lia.
Qed.

(** The name that goes with a parameter: none for a positional one. *)
Definition name_sent (positional : bool) (p : RpcParameter) (name : str) : Prop :=
  if positional then name = [] else rp_name p = Some name /\ ascii name /\ (length name < 255)%nat.

Lemma name_emits b p name options_written :
  name_sent b p name ->
  emits (write_parameter_name b options_written p)
    (b_varchar name ++ if b && options_written then [byte_of (rp_options p)] else []) tt.
Proof.
  unfold write_parameter_name, name_sent. destruct b.
  - intros ->. destruct options_written; [apply fixed_bytes_emits|apply write_byte_emits].
  - intros (-> & Ha & Hl). destruct (ascii_lengths _ Ha) as (Hw & Hs & Hu). rewrite app_nil_r.
    eapply emits_lift_ok; [unfold validate_name_length; by rewrite Hs, (proj2 (Nat.ltb_ge _ _)) by lia|].
    unfold b_varchar. rewrite Hs, Hu. apply (emits_bind _ _ [byte_of _] (units_le (utf16 name)) tt); [|by apply write_string_emits].
    eapply emits_eq; [apply write_byte_emits|]. unfold as_u8. by rewrite Z.mod_small by lia.
Qed.

Lemma short_name b p (name : str) :
  name_sent b p name ->
  str_wf name /\ (length (utf16 name) < 255)%nat.
Proof.
  unfold name_sent. destruct b; [intros ->; split; [constructor|cbn; lia]|]. intros (_ & Ha & Hl). destruct (ascii_lengths _ Ha) as (Hw & _ & Hu).
  split; [done|lia].
Qed.

Section sent.
Context `{rs : EncodingRs} `{narrow : HalfCrateNarrow} `{half : HalfCrate}.
Context {R : Type} {delivers : R -> bytes -> Prop} `{laws : PacketReaderLaws R delivers}.
Context (fuel : nat) (Hfuel : (2 <= fuel)%nat).

(** A plain parameter, how it is bound, and what a server gets of it. *)
Record parameter_sends (c : SqlCollation) (bp : bool * RpcParameter) (wp : WireParameter) : Prop := {
  ps_name : name_sent bp.1 bp.2 wp.1.1;
  ps_status : wp.1.2 = rp_options bp.2 /\ 0 <= rp_options bp.2 < 256;
  ps_plain : rp_encrypted bp.2 = None /\ rp_narrow_string_byte_limit bp.2 = None;
  ps_value : exists value cv ctx,
    rp_value bp.2 = Materialized value /\ is_json value = false /\
    parameter_type c value (rp_type_metadata bp.2 ≫= md_precision) (rp_type_metadata bp.2 ≫= md_scale) = Some wp.2.1 /\
    type_wf c value (rp_type_metadata bp.2 ≫= md_precision) (rp_type_metadata bp.2 ≫= md_scale) /\
    to_column_value_and_context value c = Ok (cv, ctx) /\ column_ok (parameter_column wp.2.1) /\
    wp.2.2 = sent_as value cv /\ holds ctx (parameter_column wp.2.1) wp.2.2;
}.

Lemma parameter_sent c b p wp :
  parameter_sends c (b, p) wp -> validate_before_send c p = Ok tt ->
  exists bs, emits (RpcParameter_serialize c b p) (b_varchar wp.1.1 ++ [byte_of (rp_options p)] ++ bs) tt /\
    reads delivers (read_typed_value fuel) bs wp.2.
Proof.
  intros [Hn [_ _] [He Hlim] (value & cv & ctx & Hval & Hj & Ht & Hwf & Hcv & Hok & Hv & Hh)] Hsend. cbn [fst snd] in *.
  unfold validate_before_send in Hsend. rewrite Hval, Hlim in Hsend. rewrite Hv in Hh.
  destruct (parameter_value_round_trip (delivers := delivers) fuel value c (rp_type_metadata p) _ cv ctx Hfuel Hj Hsend Ht Hwf Hcv Hok Hh)
    as (bs & Hs & Hr).
  exists bs. split; [|destruct wp as [? [ti v]]; cbn [snd fst] in *; by rewrite Hv].
  unfold RpcParameter_serialize. rewrite Hval, He, Hlim, andb_true_r. rewrite app_assoc.
  pose proof (name_emits b p _ b Hn) as Hname. rewrite andb_diag in Hname.
  destruct b; cbn [negb]; rewrite ?app_nil_r in Hname.
  - eapply emits_bind; [exact Hname|]. by apply (emits_bind _ _ [] bs tt); [apply emits_ret|].
  - rewrite <- app_assoc. eapply emits_bind; [exact Hname|]. eapply emits_bind; [apply write_byte_emits|exact Hs].
Qed.
Lemma reads_parameter n b p (wp : WireParameter) bs bs' rest :
  name_sent b p wp.1.1 -> wp.1.2 = rp_options p -> 0 <= rp_options p < 256 ->
  reads delivers (read_typed_value fuel) bs wp.2 -> reads delivers (read_parameters fuel n) bs' rest ->
  reads delivers (read_parameters fuel (S n)) ((b_varchar wp.1.1 ++ [byte_of (rp_options p)] ++ bs) ++ bs') (wp :: rest).
Proof.
  intros Hn Hst Hr Htv Hrest. apply short_name in Hn as [Hw Hl]. destruct wp as [[name status] tv]. cbn [fst snd] in *. subst status.
  rewrite <- !app_assoc. cbn [read_parameters]. unfold b_varchar.
  eapply (reads_bind _ _ [byte_of (Z.of_nat (length (utf16 name)))]); [apply reads_byte; lia|].
  unfold RPC_BATCH_DELIMITER. rewrite (proj2 (Z.eqb_neq _ _)) by lia.
  eapply reads_bind; [apply reads_unicode_bytes; [done|lia]|]. eapply reads_bind; [by apply reads_byte|].
  eapply reads_bind; [exact Htv|]. by apply (reads_bind_ret _ (fun rest => (name, rp_options p, tv) :: rest)).
Qed.

Lemma reads_no_parameter n : reads delivers (read_parameters fuel (S n)) [byte_of RPC_BATCH_DELIMITER] [].
Proof. rewrite <- (app_nil_r [_]). eapply reads_bind; [apply reads_byte; done|apply reads_ret]. Qed.

Lemma each_ok {A} (f : A -> TdsResult unit) l : forall i, each_indexed (fun _ => f) i l = Ok tt -> Forall (fun x => f x = Ok tt) l.
Proof.
  induction l as [|x l IH]; intros i H; [constructor|]. cbn [each_indexed] in H.
  destruct (f x) as [[]| | |] eqn:E; try discriminate H. constructor; [done|by eapply IH].
Qed.

(** Parameters written one after the other, each by [write], which may count them. *)
Lemma parameters_sent c b ps wps rest bs' :
  Forall (fun p => validate_before_send c p = Ok tt) ps -> Forall2 (parameter_sends c) ((b,.) <$> ps) wps ->
  reads delivers (read_parameters fuel (S (length rest))) bs' rest ->
  exists bs, (forall i f, emits (write_indexed (fun i p => map_err_async (f i p) (RpcParameter_serialize c b p)) i ps) bs tt) /\
    (forall f, emits (write_all_of (fun p => map_err_async (f p) (RpcParameter_serialize c b p)) ps) bs tt) /\
    reads delivers (read_parameters fuel (S (length (wps ++ rest)))) (bs ++ bs') (wps ++ rest).
Proof.
  intros Hval. revert wps. induction Hval as [|p ps Hv _ IH]; intros wps Hs Hr.
  { inversion Hs; subst. exists []. split_and!; [intros; apply emits_ret..|exact Hr]. }
  inversion Hs as [|? wp ? wps' Hp Hps]; subst. destruct (IH wps' Hps Hr) as (bs & Hi & Ha & Hrd).
  destruct (parameter_sent c b p wp Hp Hv) as (b1 & He & Htv). destruct Hp as [Hn [Hst Hrange] _ _]. cbn [fst snd] in *.
  eexists ((_ ++ _ ++ b1) ++ bs). split_and!.
  - intros i f. cbn [write_indexed]. eapply emits_bind; [apply emits_map_err, He|apply Hi].
  - intros f. cbn [write_all_of]. eapply emits_bind; [apply emits_map_err, He|apply Ha].
  - rewrite <- app_assoc. cbn [app length]. by apply reads_parameter with b.
Qed.

(** The procedure the client can name. *)
Definition proc_wf (r : SqlRpc) : Prop :=
  match rpc_type r with
  | Named s => str_wf s /\ Z.of_nat (length (utf16 s)) <= MAX_PROC_NAME_UTF16_UNITS
  | ProcId _ => True
  end.

Lemma proc_is_sent r : proc_wf r -> exists bs, emits (write_proc r) bs tt /\ reads delivers read_proc bs (proc_sent r).
Proof.
  unfold proc_wf, write_proc, proc_sent, read_proc. intros Hwf.
  assert (Ho : in_signed 16 (ProcOptions_i16 (proc_options r))) by (by destruct (proc_options r)).
  destruct (rpc_type r) as [name|proc].
  - destruct Hwf as [Hw Hl]. rewrite (proj2 (Z.leb_le _ _)) by done. unfold MAX_PROC_NAME_UTF16_UNITS in Hl. eexists. split.
    + eapply emits_bind; [apply write_u16_emits|]. eapply emits_bind; [by apply write_string_emits|apply write_i16_emits].
    + eapply reads_bind; [apply reads_uint16; split; lia|]. unfold PROC_ID_SWITCH. rewrite (proj2 (Z.eqb_neq _ _)) by lia.
      eapply reads_bind; [apply (reads_bind_ret _ inr), reads_unicode_bytes; [done|lia]|].
      by apply (reads_bind_ret _ (fun o => (inr name, o))), reads_int16.
  - eexists. split; [apply fixed_bytes_emits|]. unfold proc_id_bytes.
    eapply reads_bind; [by apply reads_uint16|]. cbn [PROC_ID_SWITCH Z.eqb Pos.eqb].
    eapply reads_bind; [apply (reads_bind_ret _ inl), reads_uint16; by destruct proc|].
    by apply (reads_bind_ret _ (fun o => (inl (get_u8_value proc), o))), reads_int16.
Qed.
Definition by_ordinal (r : SqlRpc) : bool := match value_binding r with ByOrdinal => true | ByName => false end.

(** The parameters in the order of the wire, each with whether its name is left out. *)
Definition bound_parameters (r : SqlRpc) : list (bool * RpcParameter) :=
  ((true,.) <$> default [] (positional_parameters r)) ++ ((by_ordinal r,.) <$> default [] (named_parameters r)).

Lemma validated_parameters r :
  validate_parameters r = Ok tt ->
  Forall (fun p => validate_before_send (rpc_collation r) p = Ok tt) (default [] (positional_parameters r)) /\
  Forall (fun p => validate_before_send (rpc_collation r) p = Ok tt) (default [] (named_parameters r)).
Proof.
  unfold validate_parameters, each. destruct (each_indexed _ 0 (default [] (positional_parameters r))) as [[]| | |] eqn:E; try done.
  cbn [rbind]. intros Hn. split; [by eapply each_ok|]. apply each_ok in Hn. eapply Forall_impl; [|exact Hn].
  intros p. unfold validate_named, validate_named_before_send. destruct (rp_name p) as [name|]; [|done].
  by destruct (validate_name_length name) as [[]| | |].
Qed.

(** What comes before a command: the headers of the request, or the delimiter of the batch. *)
Definition command_start (r : SqlRpc) (first : bool) : bytes :=
  if first then headers_bytes (rpc_headers r) else [byte_of RPC_BATCH_DELIMITER].

Definition headers_fit (hs : list TdsHeaders) : Prop :=
  Forall header_wf hs /\ Z.of_nat (4 + length (concat (header_bytes <$> hs))) < 2 ^ 31.

(** C8: A validated command of a batch, or a call of its own, is written whole, and a server gets what it
    says: the procedure with its options, then every parameter up to the delimiter of the next command
    with its name, its status, the type it is announced with and its value, positional ones first.
    The parameters are those of [parameter_sends]: values that their announced type holds, with ASCII
    names of fewer than 255 characters.  Validation accepts more than that.  Left out are FLOAT values
    (sent as nullable ones, which a packet's end may cut), JSON (see [json_document_reads_back]), text
    that has to be converted, TEXT, NTEXT, IMAGE, UDTs and tables, encrypted parameters (see
    [encrypted_parameter_hides_value]), parameters with a byte limit, streamed ones, and names that are
    not ASCII, whose length byte is wrong (see [parameter_name_length]). *)
Theorem command_reads_back r first wps :
  validate_parameters r = Ok tt -> proc_wf r -> headers_fit (rpc_headers r) ->
  Forall2 (parameter_sends (rpc_collation r)) (bound_parameters r) wps ->
  exists bs, emits (serialize_batch_command r first) (command_start r first ++ bs) tt /\
    (first = true -> emits (serialize_prefix r) (command_start r first ++ bs) tt) /\
    reads delivers (read_command fuel (S (length wps))) (bs ++ [byte_of RPC_BATCH_DELIMITER]) (proc_sent r, wps).
Proof.
  intros Hv Hp [Hh1 Hh2] Hs. destruct (validated_parameters r Hv) as [Hvp Hvn].
  unfold bound_parameters in Hs. apply Forall2_app_inv_l in Hs as (w1 & w2 & Hs1 & Hs2 & ->).
  destruct (parameters_sent _ _ _ _ [] _ Hvn Hs2 (reads_no_parameter 0)) as (b2 & _ & Hw2 & Hr2). rewrite app_nil_r in Hr2.
  destruct (parameters_sent _ _ _ _ w2 _ Hvp Hs1 Hr2) as (b1 & Hw1 & _ & Hr1).
  destruct (proc_is_sent r Hp) as (bp & He & Hr).
  assert (Hall : emits (serialize_batch_command r first) (command_start r first ++ bp ++ b1 ++ b2) tt).
  { unfold serialize_batch_command. eapply emits_lift_ok; [exact Hv|]. apply (emits_bind _ _ _ _ tt).
    - unfold command_start. destruct first; [by apply write_headers_emits|apply write_byte_emits].
    - eapply emits_bind; [exact He|]. eapply emits_bind; [apply Hw1|apply Hw2]. }
  exists (bp ++ b1 ++ b2). split_and!; [exact Hall|by intros ->|].
  rewrite <- !app_assoc. eapply reads_bind; [exact Hr|]. by apply (reads_bind_ret _ (fun ps => (proc_sent r, ps))).
Qed.
End sent.

(** The length byte of a parameter's name counts bytes of UTF-8, what follows are units of UTF-16: the
    two agree exactly for ASCII names. *)
Theorem parameter_name_length p name :
  rp_name p = Some name -> str_wf name -> validate_name_length name = Ok tt ->
  emits (write_parameter_name false false p) ([byte_of (Z.of_nat (length (as_bytes name)))] ++ units_le (utf16 name)) tt /\
  (length (as_bytes name) = length (utf16 name) <-> Forall (fun c => c < 128) name).
Proof.
  intros Hn Hw Hv. assert (Hl : str_len name = length (as_bytes name)).
  { clear. unfold as_bytes. induction name as [|c name IH]; [done|]. rewrite str_len_cons, concat_fmap_cons, length_app, IH.
    f_equal. unfold len_utf8, encode_utf8. rewrite length_fmap. by repeat case_match. }
  split; [|destruct (string_lengths name Hw) as [_ H]; rewrite <- H; split; congruence].
  unfold write_parameter_name. rewrite Hn. eapply emits_lift_ok; [exact Hv|].
  unfold validate_name_length in Hv. destruct (255 <? str_len name)%nat eqn:E; [discriminate Hv|]. apply Nat.ltb_ge in E.
  apply (emits_bind _ _ _ _ tt); [|by apply write_string_emits]. eapply emits_eq; [apply write_byte_emits|].
  unfold as_u8. rewrite Z.mod_small, Hl by lia. done.
Qed.

(** ** Encrypted parameters *)

(** What is left of a value when only its type is known.  The legacy large objects announce the length
    of their data. *)
Definition masked_time (t : SqlTime) : SqlTime := {| time_nanoseconds := 0; time_scale := time_scale t |}.
Definition masked_datetime2 (d : SqlDateTime2) : SqlDateTime2 := {| dt2_days := 0; dt2_time := masked_time (dt2_time d) |}.
Definition masked_decimal (d : DecimalParts) : DecimalParts := DecimalParts_new true (dec_precision d) (dec_scale d) 0.

Fixpoint masked (v : SqlType) : SqlType :=
  match v with
  | T_Bit _ => T_Bit None | T_TinyInt _ => T_TinyInt None | T_SmallInt _ => T_SmallInt None | T_Int _ => T_Int None
  | T_BigInt _ => T_BigInt None | T_Real _ => T_Real None | T_Float _ => T_Float None
  | T_Decimal d => T_Decimal (masked_decimal <$> d) | T_Numeric d => T_Numeric (masked_decimal <$> d)
  | T_Money _ => T_Money None | T_SmallMoney _ => T_SmallMoney None
  | T_Time t => T_Time (masked_time <$> t) | T_DateTime2 d => T_DateTime2 (masked_datetime2 <$> d)
  | T_DateTimeOffset d =>
      T_DateTimeOffset ((fun d => {| dto_datetime2 := masked_datetime2 (dto_datetime2 d); dto_offset := 0 |}) <$> d)
  | T_SmallDateTime _ => T_SmallDateTime None | T_DateTime _ => T_DateTime None | T_Date _ => T_Date None
  | T_NVarchar _ len => T_NVarchar None len | T_NVarcharMax _ => T_NVarcharMax None
  | T_Varchar _ len => T_Varchar None len | T_VarcharMax _ => T_VarcharMax None
  | T_VarBinary _ len => T_VarBinary None len | T_VarBinaryMax _ => T_VarBinaryMax None
  | T_Binary _ len => T_Binary None len | T_Char _ len => T_Char None len | T_NChar _ len => T_NChar None len
  | T_Json _ => T_Json None | T_Xml _ => T_Xml None | T_Uuid _ => T_Uuid None
  | T_Vector _ d b => T_Vector None d b | T_Variant inner => T_Variant (masked inner)
  | T_Table name _ => T_Table name None | T_Udt name _ => T_Udt name None
  | T_Text _ | T_NText _ | T_Image _ => v
  end.

Section encrypted.
Context `{rs : EncodingRs} `{narrow : HalfCrateNarrow}.

Lemma masked_type_info v c limit w :
  validate_for_send v c limit = Ok tt -> write_type_info (masked v) c None None w = write_type_info v c None None w.
Proof.
  intros Hv. destruct v; cbn [masked]; try reflexivity; try (destruct v; reflexivity).
  cbn [validate_for_send] in Hv. assert (Hn : validate_vector None dimensions base = Ok tt).
  { unfold validate_vector in *. by destruct (max_dimensions base <? dimensions). }
  unfold write_type_info. by rewrite Hv, Hn.
Qed.
Lemma bind_ext {S A B} (m m' : M S A) (k k' : A -> M S B) :
  (forall s, m s = m' s) -> (forall a s, k a s = k' a s) -> forall s, bind m k s = bind m' k' s.
Proof. intros Hm Hk s. unfold bind. rewrite Hm. by destruct (m' s) as [[]]. Qed.

Lemma bind_lift {S A B} (a : A) (k : A -> M S B) s : bind (lift (Ok a)) k s = k a s.
Proof. done. Qed.

(** The type of the plain value, as [write_encrypted] writes it. *)
Definition write_base_type (c : SqlCollation) (v : SqlType) : M PacketWriter unit :=
  match v with
  | T_Bit _ => write_byte_async (TdsDataType_u8 DT_BitN) ;; write_byte_async 1
  | other => write_type_info other c None None
  end.

Lemma masked_base_type v c limit w :
  validate_for_send v c limit = Ok tt -> write_base_type c (masked v) w = write_base_type c v w.
Proof. intros Hv. pose proof (masked_type_info v c limit w Hv) as Hm. destruct v; first [exact Hm | reflexivity]. Qed.

(** The value is only looked at for its type. *)
Lemma masked_serialize c b p v enc w :
  rp_value p = Materialized v -> rp_encrypted p = Some enc -> validate_before_send c p = Ok tt ->
  RpcParameter_serialize c b (p {{ rp_value := Materialized (masked v) }}) w = RpcParameter_serialize c b p w.
Proof.
  intros Hv He Hs. unfold validate_before_send in Hs. rewrite Hv in Hs.
  destruct p as [name options value md nd sd limit enc' force ordinal]. cbn in Hv, He, Hs. subst.
  change (RpcParameter_serialize c b (Build_RpcParameter name options (Materialized (masked v)) md nd sd limit (Some enc) force ordinal) w =
          RpcParameter_serialize c b (Build_RpcParameter name options (Materialized v) md nd sd limit (Some enc) force ordinal) w).
  unfold RpcParameter_serialize, write_encrypted, RpcParameter_value. cbn [rp_value rp_encrypted rp_options].
  rewrite !andb_false_r. revert w. apply bind_ext; [done|]. intros _. do 3 (apply bind_ext; [done|]; intros _).
  intros w. rewrite !bind_lift. revert w. apply bind_ext; [|done]. intros w. exact (masked_base_type v c limit w Hs).
Qed.

(** The type of the value before it was encrypted. *)
Definition encrypted_type (c : SqlCollation) (v : SqlType) : option TypeInfo :=
  match v with T_Bit _ => Some (var_info DT_BitN VL_BitN 1) | _ => parameter_type c v None None end.

Definition crypto_wf (m : RpcEncryptionMetadata) : Prop :=
  0 <= cipher_algorithm_id m < 256 /\ 0 <= encryption_type m < 256 /\ in_signed 32 (em_database_id m) /\
  in_signed 32 (em_cek_id m) /\ in_signed 32 (em_cek_version m) /\ length (em_cek_md_version m) = 8%nat /\
  0 <= normalization_rule_version m < 256.

Definition ciphertext_fits (ct : option bytes) : Prop :=
  match ct with Some bs => Z.of_nat (length bs) <= MAX_PLP_CHUNK_SIZE | None => True end.

Lemma base_type_sent c v limit ti :
  validate_for_send v c limit = Ok tt -> encrypted_type c v = Some ti -> type_wf c v None None ->
  exists bs, emits (write_base_type c v) ([byte_of (TdsDataType_u8 (tds_type ti))] ++ bs) tt /\ type_info_layout ti bs.
Proof.
  intros Hv Ht Hwf. unfold encrypted_type in Ht.
  destruct v; try (destruct (type_described _ c None None limit ti Hv Ht Hwf) as (bs & ? & ?); by exists bs).
  injection Ht as <-. exists [byte_of 1]. split; [apply typed_emits, write_byte_emits|]. apply lay_small; [done|cbn; tauto|lia].
Qed.
Context `{half : HalfCrate} {R : Type} {delivers : R -> bytes -> Prop} `{laws : PacketReaderLaws R delivers}.
Context (fuel : nat) (Hfuel : (2 <= fuel)%nat).

Definition read_parameter_crypto : M R RpcEncryptionMetadata :=
  algorithm <- read_byte ;; type <- read_byte ;;
  database <- read_int32 ;; cek <- read_int32 ;; version <- read_int32 ;; md_version <- read_bytes 8 ;;
  rule <- read_byte ;;
  ret {| cipher_algorithm_id := algorithm; encryption_type := type; em_database_id := database; em_cek_id := cek;
         em_cek_version := version; em_cek_md_version := md_version; normalization_rule_version := rule |}.

(** The ciphertext, the type of what it encrypts, and how. *)
Definition read_encrypted_value : M R (ColumnValues * TypeInfo * RpcEncryptionMetadata) :=
  ct <- read_typed_value fuel ;;
  raw <- read_byte ;;
  t <- lift (match TdsDataType_try_from raw with Ok t => Ok t | _ => Err invalid_tds_type end) ;;
  ti <- read_type_info t ;;
  m <- read_parameter_crypto ;;
  ret (ct.2, ti, m).

Lemma crypto_sent m : crypto_wf m -> exists bs, emits (write_crypto_metadata m) bs tt /\ reads delivers read_parameter_crypto bs m.
Proof.
  intros (H1 & H2 & H3 & H4 & H5 & H6 & H7). eexists. split.
  - unfold write_crypto_metadata. do 2 (eapply emits_bind; [apply write_byte_emits|]). do 3 (eapply emits_bind; [apply write_i32_emits|]).
    eapply emits_bind; [apply write_async_emits|apply write_byte_emits].
  - unfold read_parameter_crypto. do 2 (eapply reads_bind; [by apply reads_byte|]). do 3 (eapply reads_bind; [by apply reads_int32|]).
    eapply reads_bind; [by apply reads_bytes|].
    eapply reads_eq; [apply (reads_bind_ret _ (fun rule => Build_RpcEncryptionMetadata _ _ _ _ _ _ rule)); by apply reads_byte|done|].
    by destruct m.
Qed.

Lemma ciphertext_sent ct :
  ciphertext_fits ct ->
  exists ti tib bs, emits (write_encrypted_value ct) (tib ++ bs) tt /\ tds_type ti = DT_BigVarBinary /\ type_info_layout ti tib /\
    reads delivers (decode fuel (parameter_column ti)) bs (match ct with Some bs => CBytes bs | None => Null end).
Proof.
  intros Hfits. unfold write_encrypted_value, ciphertext_fits, SHORT_VARTYPE_MAX_BYTES, SQL_USHORTVARMAXLEN, MAX_PLP_CHUNK_SIZE in *.
  destruct ct as [ct|]; cycle 1.
  { exists (binary_info 8000), (le_bytes 2 8000), (le_bytes 2 (-1)). split_and!; [|done|by apply binary_layout|].
    - eapply emits_bind; [apply write_u16_emits|apply write_i16_emits].
    - change (le_bytes 2 (-1)) with (le_bytes 2 0xFFFF). eapply reads_eq; [|apply app_nil_r|done].
      eapply reads_bind; [by apply reads_sync_uint16|]. apply reads_ret. }
  destruct (Z.of_nat (length ct) <=? 8000) eqn:E; [apply Z.leb_le in E|apply Z.leb_gt in E].
  - exists (binary_info 8000), (le_bytes 2 8000), (le_bytes 2 (Z.of_nat (length ct)) ++ ct). split_and!; [|done|by apply binary_layout|].
    + eapply emits_bind; [apply write_u16_emits|]. eapply emits_bind; [apply write_u16_len_emits|].
      destruct ct; [apply emits_ret|]. apply write_async_emits.
    + apply reads_short_binary. lia.
  - rewrite (proj2 (Z.ltb_ge _ _)) by lia.
    exists (binary_info 0xFFFF), (le_bytes 2 0xFFFF), (encode_plp true [ct]). split_and!; [|done|by apply binary_layout|].
    + eapply emits_bind; [apply write_u16_emits|]. unfold encode_plp, plp_size, plp_chunks, plp_chunk. cbn [concat fmap list_fmap].
      rewrite !app_nil_r, <- app_assoc. eapply emits_bind; [apply write_u64_emits|]. eapply emits_bind; [apply write_u32_len_emits|].
      eapply emits_bind; [apply write_async_emits|apply write_u32_emits].
    + rewrite <- (app_nil_r (encode_plp _ _)). eapply reads_bind; [apply reads_plp|].
      * split; [by repeat constructor; unfold MAX_PLP_CHUNK_SIZE; lia|]. unfold plp_size, MAX_PLP_SIZE. cbn. rewrite app_nil_r. lia.
      * cbn. lia.
      * cbn [concat]. rewrite app_nil_r. apply reads_ret.
Qed.
(** C9: An encrypted parameter arrives with the encrypted flag, as its ciphertext, or NULL, in a
    [varbinary], then the type of the plain value and the description of its encryption.  The plain
    value is only looked at for its type: the writer does the same for any value of the same
    precision and scale in its place ([masked], which leaves TEXT, NTEXT and IMAGE as they are).
    Names are ASCII. *)
Theorem encrypted_parameter_hides_value c b p v enc ti name :
  rp_value p = Materialized v -> rp_encrypted p = Some enc -> validate_before_send c p = Ok tt -> name_sent b p name ->
  encrypted_type c v = Some ti -> type_wf c v None None -> ciphertext_fits (ciphertext enc) -> crypto_wf (ev_metadata enc) ->
  (exists bs, emits (RpcParameter_serialize c b p) (b_varchar name ++ [byte_of (Z.lor (rp_options p) ENCRYPTED)] ++ bs) tt /\
     reads delivers read_encrypted_value bs
       (match ciphertext enc with Some ct => CBytes ct | None => Null end, ti, ev_metadata enc)) /\
  forall w, RpcParameter_serialize c b (p {{ rp_value := Materialized (masked v) }}) w = RpcParameter_serialize c b p w.
Proof.
  intros Hv He Hs Hn Ht Hwf Hct Hm. split; [|intros w; by eapply masked_serialize].
  unfold validate_before_send in Hs. rewrite Hv in Hs. destruct (base_type_sent c v _ ti Hs Ht Hwf) as (tib & Hbase & Hlay).
  destruct (ciphertext_sent _ Hct) as (cti & ctib & cb & Hc & Hct' & Hclay & Hcr). destruct (crypto_sent _ Hm) as (mb & Hmb & Hmr).
  exists (([byte_of (TdsDataType_u8 DT_BigVarBinary)] ++ ctib ++ cb) ++ ([byte_of (TdsDataType_u8 (tds_type ti))] ++ tib ++ mb)). split.
  - unfold RpcParameter_serialize. rewrite Hv, He, andb_false_r. pose proof (name_emits b p name false Hn) as Hname.
    rewrite andb_false_r, app_nil_r in Hname. apply (emits_bind _ _ _ _ tt); [exact Hname|]. unfold write_encrypted.
    eapply emits_bind; [apply write_byte_emits|]. rewrite <- app_assoc. eapply emits_bind; [apply write_byte_emits|].
    eapply emits_bind; [exact Hc|]. eapply emits_lift_ok; [unfold RpcParameter_value; by rewrite Hv|].
    rewrite app_assoc. eapply emits_bind; [exact Hbase|]. rewrite <- (app_nil_r mb). eapply emits_bind; [exact Hmb|].
    destruct (had_conversion_loss enc); [apply emits_note_loss|apply emits_ret].
  - unfold read_encrypted_value. rewrite <- Hct'. eapply reads_bind; [by apply reads_typed_value|]. cbn [snd].
    apply (reads_typed ti tib invalid_tds_type (fun _ ti => m <- read_parameter_crypto ;; ret (_, ti, m))); [done|].
    by apply (reads_bind_ret _ (fun m => (_, ti, m))).
Qed.
End encrypted.

(** ** Declarations *)

Definition READONLY : str := lit " READONLY".

Lemma quoted_escape s : quoted s = escape_identifier s.
Proof. done. Qed.

Lemma udt_name_built n :
  clr_type_name n <> [] ->
  format_udt_sql_name n = build_multipart_name [None; nonempty (clr_db_name n); nonempty (clr_schema_name n); Some (clr_type_name n)].
Proof.
  unfold format_udt_sql_name, build_multipart_name. rewrite !quoted_escape. intros Hn.
  destruct (clr_type_name n) as [|ch name]; [done|].
  destruct (clr_db_name n) as [[|d db]|], (clr_schema_name n) as [[|s schema]|]; cbn; rewrite ?app_nil_r, <- ?app_assoc; done.
Qed.

Lemma tvp_name_built n :
  tvp_type_name n <> [] ->
  format_tvp_sql_name n = build_multipart_name [None; None; nonempty (tvp_schema_name n); Some (tvp_type_name n)] ++ READONLY.
Proof.
  intros Hn. unfold format_tvp_sql_name.
  pose proof (udt_name_built {| clr_db_name := None; clr_schema_name := tvp_schema_name n; clr_type_name := tvp_type_name n |} Hn) as Hu.
  cbn [clr_db_name clr_schema_name clr_type_name nonempty] in Hu. rewrite <- Hu. unfold format_udt_sql_name.
  cbn [clr_db_name clr_schema_name clr_type_name nonempty].
  destruct (nonempty (tvp_schema_name n)); [|done]. by rewrite <- !app_assoc.
Qed.

(** C35: The SQL that declares a user-defined or table type names that type and nothing else, whatever
    brackets, dots, quotes or blanks its parts contain: the identifier in it parses back to the
    database, the schema and the type the caller gave. *)
Theorem declared_type_name_is_contained :
  (forall n v md, UdtTypeName_validate n = Ok tt -> exists s, get_sql_name (T_Udt n v) md = Ok s /\
     parse_multipart_identifier s true =
       Ok (normalise [None; nonempty (clr_db_name n); nonempty (clr_schema_name n); Some (clr_type_name n)])) /\
  (forall n v md, TvpTypeName_validate n = Ok tt -> exists s, get_sql_name (T_Table n v) md = Ok (s ++ READONLY) /\
     parse_multipart_identifier s true = Ok [None; None; nonempty (tvp_schema_name n); Some (tvp_type_name n)]).
Proof.
  split; intros n v md Hv; cbn [get_sql_name].
  - unfold UdtTypeName_validate in Hv. case_decide as Hn; [done|]. rewrite udt_name_built by done. eexists. split; [done|].
    destruct (clr_db_name n) as [[|d db]|], (clr_schema_name n) as [[|s schema]|];
      (eapply built_name_is_parsed_back; [done|reflexivity|by left]).
  - unfold TvpTypeName_validate in Hv. case_decide as Hn; [done|]. rewrite tvp_name_built by done. eexists. split; [done|].
    destruct (tvp_schema_name n) as [[|s schema]|]; (etransitivity; [eapply built_name_is_parsed_back; [done|reflexivity|by left]|done]).
Qed.

(** What a declaration of the type announced on the wire says in parentheses. *)
Definition declaration_of (ti : TypeInfo) : str :=
  match type_info_variant ti with
  | PartialLen _ (Some _) _ _ _ => lit "MAX"
  | VarLenString (VL_NVarChar | VL_NChar) len _ => display (len / 2)
  | VarLenString _ len _ | VarLen (VL_BigVarBinary | VL_BigBinary) len => display len
  | VarLenPrecisionScale _ _ p s => display p ++ lit "," ++ display s
  | VarLenScale VL_Vector base =>
      if base =? VectorBaseType_u8 Float16
      then display ((ti_length ti - 8) / element_size_bytes Float16) ++ lit ", float16"
      else display ((ti_length ti - 8) / element_size_bytes Float32)
  | VarLenScale _ scale => display scale
  | _ => []
  end.

(** When the declaration and the type on the wire say the same.  Fixed-length text and bytes have no MAX
    form; a decimal has to get its precision and its scale from the same place, or twice the same. *)
Definition declared_as_sent (v : SqlType) (md : option RpcTypeMetadata) : Prop :=
  match v with
  | T_Char _ len | T_Binary _ len => len <= 8000 \/ len = 65535
  | T_NChar _ len => len <= 4000 \/ len = 32767
  | T_Decimal o | T_Numeric o =>
      match md ≫= md_precision, md ≫= md_scale, o with
      | Some _, Some _, _ | Some _, None, None | None, None, Some _ => True
      | Some _, None, Some d => dec_scale d = 0
      | None, Some s, Some d => s = dec_scale d
      | None, _, None => False
      end
  | _ => True
  end.

(** The scale of a decimal is a [u8]. *)
Definition value_scale_wf (v : SqlType) : Prop :=
  match v with T_Decimal (Some d) | T_Numeric (Some d) => 0 <= dec_scale d < 256 | _ => True end.

Lemma display_inj a b : 0 <= a -> 0 <= b -> display a = display b <-> a = b.
Proof.
  intros Ha Hb. split; [|by intros ->]. intros E. pose proof (parse_display (Z.max a b) a ltac:(lia)) as Hp.
  rewrite E, parse_display in Hp by lia. by injection Hp.
Qed.

Lemma inline_declared len :
  (if 8000 <? len then lit "MAX" else display len) =
  (if inline_max_bytes len =? 0xFFFF then lit "MAX" else display (inline_max_bytes len)).
Proof.
  unfold inline_max_bytes, VAR_TDS_MAX_LENGTH, MAX_U16_LENGTH. destruct (8000 <? len) eqn:E; [done|]. apply Z.ltb_ge in E.
  by rewrite (proj2 (Z.eqb_neq _ _)) by lia.
Qed.

Lemma fixed_declared len : in_unsigned 16 len -> display len = display (inline_max_bytes len) <-> len <= 8000 \/ len = 65535.
Proof.
  intros [H0 H1]. unfold inline_max_bytes, VAR_TDS_MAX_LENGTH, MAX_U16_LENGTH.
  destruct (8000 <? len) eqn:E; [apply Z.ltb_lt in E|apply Z.ltb_ge in E]; rewrite display_inj by lia; lia.
Qed.

Lemma fixed_national_declared len :
  in_unsigned 16 len -> display len = display (nchar_max_bytes len / 2) <-> len <= 4000 \/ len = 32767.
Proof.
  intros [H0 H1]. unfold nchar_max_bytes, MAX_U16_LENGTH. destruct (4000 <? len) eqn:E; [apply Z.ltb_lt in E|apply Z.ltb_ge in E].
  - change (65535 / 2) with 32767. rewrite display_inj by lia. lia.
  - rewrite Z.div_mul by lia. split; [lia|done].
Qed.

Lemma national_declared c len :
  (if 4000 <? len then lit "MAX" else display len) =
  declaration_of (text_info DT_NVarChar VL_NVarChar PL_NVarChar c (default 0xFFFF (nvarchar_inline_max_bytes len))).
Proof.
  unfold nvarchar_inline_max_bytes, NVARCHAR_MAX_INLINE_CHARS, text_info. destruct (4000 <? len) eqn:E; [done|].
  apply Z.ltb_ge in E. cbn [default from_option id]. rewrite (proj2 (Z.eqb_neq _ _)) by lia.
  unfold declaration_of. cbn [type_info_variant]. by rewrite Z.div_mul by lia.
Qed.

Lemma vector_declared v dims base :
  len_in_metadata (T_Vector v dims base) None =
  declaration_of {| tds_type := DT_Vector; ti_length := 8 + dims * element_size_bytes base;
                    type_info_variant := VarLenScale VL_Vector (VectorBaseType_u8 base) |}.
Proof.
  destruct base; unfold declaration_of; cbn [type_info_variant ti_length VectorBaseType_u8 Z.eqb Pos.eqb len_in_metadata].
  - replace (8 + dims * element_size_bytes Float32 - 8) with (dims * element_size_bytes Float32) by lia. by rewrite Z.div_mul.
  - replace (8 + dims * element_size_bytes Float16 - 8) with (dims * element_size_bytes Float16) by lia. by rewrite Z.div_mul.
Qed.

Lemma decimal_declared o md len (p := md ≫= md_precision) (s := md ≫= md_scale) :
  0 <= override p (dec_precision <$> o) 1 < 256 /\ 0 <= override s (dec_scale <$> o) 0 < 256 ->
  value_scale_wf (T_Decimal o) ->
  len_in_metadata (T_Decimal o) md =
    declaration_of {| tds_type := DT_NumericN; ti_length := len;
                      type_info_variant := VarLenPrecisionScale VL_NumericN len (override p (dec_precision <$> o) 1)
                                             (override s (dec_scale <$> o) 0) |} <->
  declared_as_sent (T_Decimal o) md.
Proof.
  intros [Hp Hs] Hd. unfold len_in_metadata, declaration_of, declared_as_sent. cbn [type_info_variant]. fold p s.
  destruct p as [p'|], s as [s'|], o as [d|]; cbn [override default from_option id fmap option_fmap option_map value_scale_wf] in *;
    try (by split); rewrite ?(inj_iff (app _)), ?display_inj by lia; try lia.
Qed.

(** C34: The length, the precision and the scale a parameter is declared with in the SQL of the call,
    against those of the TYPE_INFO it is sent with, as a reader takes it from the wire.  They are the
    same (MAX exactly for what is sent in chunks) for every type but these: CHAR and BINARY of more
    than 8000 bytes and NCHAR of more than 4000 characters (other than the lengths 65535 and 32767),
    which are announced as 65535 bytes; and decimals of which only one of precision and scale is
    given and the other differs from the value's, or of which nothing is known, as for a NULL, which
    is declared (18, 10) and announced (1, 0).  The legacy large objects, tables and UDTs have
    declarations of their own. *)
Theorem declaration_agrees_with_type `{rs : EncodingRs} {R : Type} {delivers : R -> bytes -> Prop}
    `{laws : PacketReaderLaws R delivers} c v md limit ti (p := md ≫= md_precision) (s := md ≫= md_scale) :
  validate_for_send v c limit = Ok tt -> parameter_type c v p s = Some ti -> type_wf c v p s -> value_scale_wf v ->
  exists bs, emits (write_rpc_type_metadata v c md) ([byte_of (TdsDataType_u8 (tds_type ti))] ++ bs) tt /\
    reads delivers (read_type_info (tds_type ti)) bs ti /\
    (len_in_metadata v md = declaration_of ti <-> declared_as_sent v md).
Proof.
  intros Hv Ht Hwf Hsc. destruct (type_described v c p s limit ti Hv Ht Hwf) as (bs & He & Hl).
  exists bs. split; [exact He|]. split; [by apply reads_type_info|]. clear He Hl Hv. subst p s.
  destruct v; cbn [parameter_type type_wf declared_as_sent] in *; try discriminate Ht;
    try (unfold time_info in Ht; destruct (get_time_length_from_scale _) in Ht; [|discriminate Ht..]);
    injection Ht as <-; try (by split).
  - by apply decimal_declared.
  - by apply decimal_declared.
  - split; [done|]. intros _. apply national_declared.
  - split; [done|]. intros _. cbn [len_in_metadata]. rewrite inline_declared. unfold text_info. by destruct (inline_max_bytes length =? 0xFFFF).
  - split; [done|]. intros _. cbn [len_in_metadata]. rewrite inline_declared. unfold binary_info. by destruct (inline_max_bytes length =? 0xFFFF).
  - by apply fixed_declared.
  - destruct Hwf. by apply fixed_declared.
  - destruct Hwf. by apply fixed_national_declared.
  - split; [done|]. intros _. apply (vector_declared None).
Qed.

(** ** Witnesses *)

#[local] Instance sample_half : HalfCrate := {| f16_to_f32 := id |}.
#[local] Instance sample_narrow : HalfCrateNarrow := {| f32_to_f16 := id |}.
#[local] Existing Instance sample_rs.

(** [sp_execute] of the handle 5 with one argument, as a later command of a batch. *)
Definition sample_command : SqlRpc :=
  SqlRpc_new_batch_command (ProcId Proc_Execute)
    (Some [RpcParameter_new None 0 (T_Int (Some 5)); RpcParameter_new None 0 (T_BigInt None)]) None
    latin1_collation ExecutionContext_new false.

Definition command_net : NetworkTransport := NetworkTransport_new {| st_in := []; st_out := []; st_writes := [] |} 64.
Definition command_writer : PacketWriter := PacketWriter_new RpcRequest None None 1000 command_net.

Lemma batch_command_without_awaits_witness :
  exists w', try_write_batch_command_within_packet sample_command false command_writer = (Ok true, w') /\
    serialize_batch_command sample_command false command_writer = (Ok tt, w').
Proof.
  assert (Hs : size_ok (new_message RpcRequest command_net {| st_in := []; st_out := []; st_writes := [] |})) by (split; cbn; lia).
  destruct (new_writing RpcRequest None None 1000 command_net _ eq_refl Hs) as (chunks & buf & Hw & _ & _).
  pose proof (batch_command_without_awaits sample_command false _ chunks buf _ Hs Hw) as H. fold command_writer in H.
  destruct (try_write_batch_command_within_packet sample_command false command_writer) as [res w'] eqn:E. exists w'.
  assert (res = Ok true) as ->; [|split; [done|apply H]].
  change (fst (res, w') = Ok true). rewrite <- E. by vm_compute.
Defined.

(** A call by name with a named argument. *)
Definition sample_call : SqlRpc :=
  SqlRpc_new (Named [112; 49]) None (Some [RpcParameter_new (Some [64; 97]) 0 (T_Int (Some 5))]) latin1_collation
    ExecutionContext_new.

Lemma command_reads_back_witness :
  exists bs, emits (serialize_batch_command sample_call true) (command_start sample_call true ++ bs) tt /\
    (true = true -> emits (serialize_prefix sample_call) (command_start sample_call true ++ bs) tt) /\
    reads list_delivers (read_command 2 2) (bs ++ [byte_of RPC_BATCH_DELIMITER])
      (inr [112; 49], 0, [([64; 97], 0, (var_info DT_IntN VL_IntN 4, Int 5))]).
Proof.
  apply (command_reads_back (delivers := list_delivers) 2 ltac:(lia) sample_call true
    [([64; 97], 0, (var_info DT_IntN VL_IntN 4, Int 5))]); [reflexivity| | |].
  - split; [by repeat constructor|by vm_compute].
  - split; [by repeat constructor|by vm_compute].
  - constructor; [|constructor]. constructor; cbn [fst snd].
    + split; [done|]. split; [|cbn; lia]. repeat constructor; lia.
    + split; [done|]. cbn. lia.
    + done.
    + do 3 eexists. split_and!; try reflexivity; try done. vm_compute. split_and!; try done; intuition discriminate.
Defined.

Definition sample_crypto : RpcEncryptionMetadata :=
  {| cipher_algorithm_id := 2; encryption_type := 1; em_database_id := 5; em_cek_id := 1; em_cek_version := 1;
     em_cek_md_version := repeat (byte_of 9) 8; normalization_rule_version := 1 |}.

Lemma encrypted_parameter_hides_value_witness :
  let p := set_encrypted (Some (repeat (byte_of 7) 65)) sample_crypto false (RpcParameter_new None 0 (T_Int (Some 42))) in
  (exists bs, emits (RpcParameter_serialize latin1_collation true p) (b_varchar [] ++ [byte_of 8] ++ bs) tt /\
     reads list_delivers (read_encrypted_value 2) bs
       (CBytes (repeat (byte_of 7) 65), var_info DT_IntN VL_IntN 4, sample_crypto)) /\
  forall w, RpcParameter_serialize latin1_collation true (p {{ rp_value := Materialized (T_Int None) }}) w =
    RpcParameter_serialize latin1_collation true p w.
Proof.
  intros p. apply (encrypted_parameter_hides_value (delivers := list_delivers) 2 ltac:(lia) latin1_collation true p (T_Int (Some 42))
    {| ciphertext := Some (repeat (byte_of 7) 65); ev_metadata := sample_crypto; had_conversion_loss := false |} (var_info DT_IntN VL_IntN 4) []);
    try reflexivity; try done.
Defined.

Lemma parameter_name_length_witness :
  emits (write_parameter_name false false (RpcParameter_new (Some [64; 0xE9]) 0 (T_Int None))) ([byte_of 3] ++ units_le [64; 0xE9]) tt /\
  (3%nat = 2%nat <-> Forall (fun c => c < 128) [64; 0xE9]).
Proof. apply (parameter_name_length (RpcParameter_new (Some [64; 0xE9]) 0 (T_Int None)) [64; 0xE9]); [done|by repeat constructor|done]. Defined.

Lemma declared_type_name_is_contained_witness :
  exists s, get_sql_name (T_Udt {| clr_db_name := Some [97]; clr_schema_name := None; clr_type_name := [93; 59] |} None) None = Ok s /\
    parse_multipart_identifier s true = Ok [None; Some [97]; Some []; Some [93; 59]].
Proof.
  apply (proj1 declared_type_name_is_contained {| clr_db_name := Some [97]; clr_schema_name := None; clr_type_name := [93; 59] |} None None).
  reflexivity.
Defined.

Lemma declaration_agrees_with_type_witness :
  exists bs, emits (write_rpc_type_metadata (T_NVarchar None 5000) latin1_collation None) ([byte_of 0xE7] ++ bs) tt /\
    reads list_delivers (read_type_info DT_NVarChar) bs (text_info DT_NVarChar VL_NVarChar PL_NVarChar latin1_collation 0xFFFF) /\
    (len_in_metadata (T_NVarchar None 5000) None = lit "MAX" <-> True).
Proof.
  apply (declaration_agrees_with_type (delivers := list_delivers) latin1_collation (T_NVarchar None 5000) None None
    (text_info DT_NVarChar VL_NVarChar PL_NVarChar latin1_collation 0xFFFF)); [reflexivity|reflexivity| |done].
  split; [split; lia|by vm_compute].
Defined.
