(* ===== verification/CellEncryption.v ===== *)
(** * Cell encryption (src/mssql-tds/src/security/encryption/)

    The cipher of Always Encrypted cells, AEAD_AES_256_CBC_HMAC_SHA256, with the framing and the
    authentication of its blobs, and the normal form of the values it encrypts.  HMAC, AES and the
    random generator are the platform's (OpenSSL, CNG or CommonCrypto, behind security/crypto). *)

From stdpp Require Import strings.
From S2P Require Import Prelude Core Unicode PacketReader Tokens DataTypes ColMetadata Values Decoder SqlIdentifier Text.
From S2P Require Import Decimal ValueWriting ValueRoundTrip SqlTypes.

(** ** The platform *)

Class CryptoBackend := {
  hmac_sha256 : bytes -> bytes -> TdsResult bytes;
  aes_256_cbc_encrypt : bytes -> bytes -> bytes -> TdsResult bytes;
  aes_256_cbc_decrypt : bytes -> bytes -> bytes -> TdsResult bytes;
}.

Definition constant_time_eq (a b : bytes) : bool :=
  if negb (length a =? length b)%nat then false
  else fold_left (fun diff xy => Z.lor diff (Z.lxor (byte_val xy.1) (byte_val xy.2))) (zip a b) 0 =? 0.

(** ** The cipher *)

Definition KEY_SIZE_IN_BYTES : nat := 32.
Definition BLOCK_SIZE_IN_BYTES : nat := 16.
Definition TAG_SIZE_IN_BYTES : nat := 32.
Definition ALGORITHM_VERSION : Z := 0x01.
Definition VERSION_SIZE_BYTE : Z := 0x01.
Definition MIN_CIPHERTEXT_LEN : nat := 1 + TAG_SIZE_IN_BYTES + BLOCK_SIZE_IN_BYTES + BLOCK_SIZE_IN_BYTES.

Definition ENCRYPTION_KEY_SALT : str :=
  lit "Microsoft SQL Server cell encryption key with encryption algorithm:AEAD_AES_256_CBC_HMAC_SHA256 and key length:256".
Definition MAC_KEY_SALT : str :=
  lit "Microsoft SQL Server cell MAC key with encryption algorithm:AEAD_AES_256_CBC_HMAC_SHA256 and key length:256".
Definition IV_KEY_SALT : str :=
  lit "Microsoft SQL Server cell IV key with encryption algorithm:AEAD_AES_256_CBC_HMAC_SHA256 and key length:256".

Inductive ColumnEncryptionType := Deterministic | Randomized.

Record AeadAes256CbcHmacSha256 := { encryption_key : bytes; mac_key : bytes; iv_key : bytes }.

Definition utf16le (s : str) : bytes := units_le (utf16 s).

Section cipher.
Context `{crypto : CryptoBackend}.

Definition derive_key (root_key : bytes) (salt : str) : TdsResult bytes := hmac_sha256 root_key (utf16le salt).

Definition AeadAes256CbcHmacSha256_new (root_key : bytes) : TdsResult AeadAes256CbcHmacSha256 :=
  if negb (length root_key =? KEY_SIZE_IN_BYTES)%nat then Err (ColumnEncryptionError "Invalid column encryption key size")
  else
    let? encryption_key := derive_key root_key ENCRYPTION_KEY_SALT in
    let? mac_key := derive_key root_key MAC_KEY_SALT in
    let? iv_key := derive_key root_key IV_KEY_SALT in
    Ok {| encryption_key := encryption_key; mac_key := mac_key; iv_key := iv_key |}.

Definition authentication_tag (c : AeadAes256CbcHmacSha256) (iv ciphertext : bytes) : TdsResult bytes :=
  hmac_sha256 (mac_key c) ([byte_of ALGORITHM_VERSION] ++ iv ++ ciphertext ++ [byte_of VERSION_SIZE_BYTE]).

(** [random] is what the platform's generator answers when it is asked for an initialization vector. *)
Definition encrypt (random : TdsResult bytes) (c : AeadAes256CbcHmacSha256) (plaintext : bytes)
    (encryption_type : ColumnEncryptionType) : TdsResult bytes :=
  let? iv := match encryption_type with
             | Deterministic =>
                 let? full := hmac_sha256 (iv_key c) plaintext in
                 Ok (take BLOCK_SIZE_IN_BYTES full)
             | Randomized => random
             end in
  let? ciphertext := aes_256_cbc_encrypt (encryption_key c) iv plaintext in
  let? tag := authentication_tag c iv ciphertext in
  Ok ([byte_of ALGORITHM_VERSION] ++ tag ++ iv ++ ciphertext).

Definition decrypt (c : AeadAes256CbcHmacSha256) (blob : bytes) : TdsResult bytes :=
  if (length blob <? MIN_CIPHERTEXT_LEN)%nat then Err (ColumnEncryptionError "Ciphertext too short")
  else
    match blob with
    | [] => Panic "index out of bounds"
    | version :: rest =>
        if negb (byte_val version =? ALGORITHM_VERSION)
        then Err (ColumnEncryptionError "Unsupported cipher algorithm version")
        else
          let tag := take TAG_SIZE_IN_BYTES rest in
          let iv := take BLOCK_SIZE_IN_BYTES (drop TAG_SIZE_IN_BYTES rest) in
          let ciphertext := drop (TAG_SIZE_IN_BYTES + BLOCK_SIZE_IN_BYTES) rest in
          let? expected_tag := authentication_tag c iv ciphertext in
          if negb (constant_time_eq expected_tag tag) then Err (ColumnEncryptionError "Authentication tag mismatch")
          else aes_256_cbc_decrypt (encryption_key c) iv ciphertext
    end.
End cipher.

(** ** The normal form of a value *)

Definition AEAD_AES_256_CBC_HMAC_SHA256_ALGORITHM_ID : Z := 0x02.
Definition SUPPORTED_NORMALIZATION_VERSION : Z := 0x01.

Definition length_error (expected : string) : Error := ColumnEncryptionError expected.

(** [bytes.try_into()] of [n] bytes. *)
Definition exactly (n : nat) (expected : string) (bs : bytes) : TdsResult bytes :=
  if (length bs =? n)%nat then Ok bs else Err (length_error expected).

Definition narrow_tinyint (value : Z) : Z := as_u8 value.
Definition narrow_smallint (value : Z) : Z := as_i16 value.
Definition narrow_int (value : Z) : Z := as_i32 value.

Definition read_i64 (bs : bytes) : TdsResult Z := let? array := exactly 8 "8-byte integer" bs in Ok (of_le_signed array).
Definition read_f32 (bs : bytes) : TdsResult Z := let? array := exactly 4 "4-byte real" bs in Ok (of_le array).
Definition read_f64 (bs : bytes) : TdsResult Z := let? array := exactly 8 "8-byte float" bs in Ok (of_le array).

Definition read_i32_at (bs : bytes) (offset : nat) : TdsResult Z :=
  if (offset + 4 <=? length bs)%nat then Ok (of_le_signed (take 4 (drop offset bs)))
  else Err (length_error "4-byte money component").

Definition read_money (bs : bytes) : TdsResult SqlMoney :=
  let? bs := exactly 8 "8-byte money" bs in
  let? msb := read_i32_at bs 0 in
  let? lsb := read_i32_at bs 4 in
  Ok {| msb_part := msb; lsb_part := lsb |}.

Definition read_small_money (bs : bytes) : TdsResult SqlSmallMoney :=
  let? bs := exactly 8 "8-byte smallmoney" bs in
  let? v := read_i32_at bs 4 in
  Ok {| int_val := v |}.

(** A short magnitude is padded with zeros to sixteen bytes. *)
Definition read_decimal (bs : bytes) (ti : TypeInfo) : TdsResult DecimalParts :=
  match type_info_variant ti with
  | VarLenPrecisionScale _ _ precision scale =>
      if negb (decimal_metadata_is_valid precision scale) then Err (ColumnEncryptionError "Invalid decimal precision / scale")
      else
        match bs with
        | [] => Err (length_error "decimal sign byte")
        | sign :: magnitude =>
            if (16 <? length magnitude)%nat then Err (ColumnEncryptionError "Invalid decimal magnitude length")
            else Ok (DecimalParts_new (byte_val sign =? 1) precision scale
                       (of_le (magnitude ++ replicate (16 - length magnitude) (byte_of 0))))
        end
  | _ => Err (ColumnEncryptionError "Invalid base type info for decimal/numeric")
  end.

Definition string_encoding (base_data_type : TdsDataType) (ti : TypeInfo) : TdsResult EncodingType :=
  if is_unicode_type base_data_type then Ok Utf16
  else
    match match type_info_variant ti with
          | VarLenString _ _ collation => collation
          | PartialLen _ _ collation _ _ => collation
          | _ => None
          end with
    | Some collation => if utf8 collation then Ok Utf8 else Ok (LcidBased collation)
    | None => Err (ColumnEncryptionError "Encrypted character column is missing collation information")
    end.

Definition temporal_scale (ti : TypeInfo) : TdsResult Z :=
  match type_info_variant ti with
  | VarLenScale _ scale => Ok scale
  | _ => Err (ColumnEncryptionError "Encrypted temporal column is missing scale information")
  end.

(** The loop of [read_uint_le]. *)
Fixpoint or_bytes (index value : Z) (bs : bytes) : Z :=
  match bs with
  | [] => value
  | b :: bs => or_bytes (index + 1) (Z.lor value (Z.shiftl (byte_val b) (8 * index))) bs
  end.

Definition read_uint_le (bs : bytes) (width : nat) (what : string) : TdsResult Z :=
  if negb (length bs =? width)%nat then Err (length_error what) else Ok (or_bytes 0 0 bs).

Definition read_date (bs : bytes) : TdsResult SqlDate :=
  let? days := read_uint_le bs 3 "3-byte date" in Ok (SqlDate_unchecked_create (as_u32 days)).

(** [u64] multiplication. *)
Definition read_time (bs : bytes) (scale : Z) : TdsResult SqlTime :=
  let? scaled_value := match length bs with
                       | 3%nat => read_uint_le bs 3 "time"
                       | 4%nat => read_uint_le bs 4 "time"
                       | 5%nat => read_uint_le bs 5 "time"
                       | _ => Err (length_error "3/4/5-byte time")
                       end in
  let multiplier := if scale <=? 7 then 10 ^ (7 - scale) else 1 in
  let? nanoseconds := mul_u64 scaled_value multiplier in
  Ok {| time_nanoseconds := nanoseconds; time_scale := scale |}.

Definition read_datetime2 (bs : bytes) (scale : Z) : TdsResult SqlDateTime2 :=
  if (length bs <? 3)%nat then Err (length_error "datetime2 (time + 3-byte date)")
  else
    let date_start := (length bs - 3)%nat in
    let? time := read_time (take date_start bs) scale in
    let? date := read_date (drop date_start bs) in
    Ok {| dt2_days := days_since_01_01_0001 date; dt2_time := time |}.

Definition read_datetime_offset (bs : bytes) (scale : Z) : TdsResult SqlDateTimeOffset :=
  if (length bs <? 2)%nat then Err (length_error "datetimeoffset (datetime2 + 2-byte offset)")
  else
    let offset_start := (length bs - 2)%nat in
    let? datetime2 := read_datetime2 (take offset_start bs) scale in
    Ok {| dto_datetime2 := datetime2; dto_offset := of_le_signed (drop offset_start bs) |}.

Definition read_small_datetime (bs : bytes) : TdsResult SqlSmallDateTime :=
  let? bs := exactly 4 "4-byte smalldatetime" bs in
  let? days := read_uint_le (take 2 bs) 2 "smalldatetime days" in
  let? time := read_uint_le (drop 2 bs) 2 "smalldatetime minutes" in
  Ok {| sdt_days := as_u16 days; sdt_time := as_u16 time |}.

Definition read_datetime (bs : bytes) : TdsResult SqlDateTime :=
  let? bs := exactly 8 "8-byte datetime" bs in
  Ok {| dt_days := of_le_signed (take 4 bs); dt_time := of_le (drop 4 bs) |}.

Definition invalid_length {A} (what : string) : TdsResult A := Err (ColumnEncryptionError what).

Definition denormalize (plaintext : bytes) (base_data_type : TdsDataType) (ti : TypeInfo) (normalization_rule_version : Z)
    : TdsResult ColumnValues :=
  if negb (normalization_rule_version =? SUPPORTED_NORMALIZATION_VERSION)
  then Err (ColumnEncryptionError "Unsupported Always Encrypted normalization rule version")
  else
    match base_data_type with
    | DT_Bit | DT_BitN => let? v := read_i64 plaintext in Ok (Bit (negb (v =? 0)))
    | DT_Int1 => let? v := read_i64 plaintext in Ok (TinyInt (narrow_tinyint v))
    | DT_Int2 => let? v := read_i64 plaintext in Ok (SmallInt (narrow_smallint v))
    | DT_Int4 => let? v := read_i64 plaintext in Ok (Int (narrow_int v))
    | DT_Int8 => let? v := read_i64 plaintext in Ok (BigInt v)
    | DT_IntN =>
        let? v := read_i64 plaintext in
        match ti_length ti with
        | 1 => Ok (TinyInt (narrow_tinyint v))
        | 2 => Ok (SmallInt (narrow_smallint v))
        | 4 => Ok (Int (narrow_int v))
        | 8 => Ok (BigInt v)
        | _ => invalid_length "Invalid IntN base length for encrypted column"
        end
    | DT_Flt4 => let? v := read_f32 plaintext in Ok (Real v)
    | DT_Flt8 => let? v := read_f64 plaintext in Ok (Float v)
    | DT_FltN =>
        match length plaintext with
        | 4%nat => let? v := read_f32 plaintext in Ok (Real v)
        | 8%nat => let? v := read_f64 plaintext in Ok (Float v)
        | _ => invalid_length "Invalid FltN plaintext length"
        end
    | DT_Money => let? v := read_money plaintext in Ok (Money v)
    | DT_Money4 => let? v := read_small_money plaintext in Ok (SmallMoney v)
    | DT_MoneyN =>
        match ti_length ti with
        | 4 => let? v := read_small_money plaintext in Ok (SmallMoney v)
        | 8 => let? v := read_money plaintext in Ok (Money v)
        | _ => invalid_length "Invalid MoneyN base length for encrypted column"
        end
    | DT_Decimal | DT_DecimalN => let? v := read_decimal plaintext ti in Ok (Decimal v)
    | DT_Numeric | DT_NumericN => let? v := read_decimal plaintext ti in Ok (Numeric v)
    | DT_Binary | DT_VarBinary | DT_BigBinary | DT_BigVarBinary | DT_Image => Ok (CBytes plaintext)
    | DT_Guid => let? v := exactly 16 "Invalid uniqueidentifier plaintext" plaintext in Ok (Uuid v)
    | DT_Char | DT_VarChar | DT_BigChar | DT_BigVarChar | DT_Text | DT_NChar | DT_NVarChar | DT_NText =>
        let? encoding := string_encoding base_data_type ti in
        Ok (CString (SqlString_new plaintext encoding))
    | DT_DateN => let? v := read_date plaintext in Ok (Date v)
    | DT_TimeN =>
        let? scale := temporal_scale ti in
        let? v := read_time plaintext scale in Ok (Time v)
    | DT_DateTime2N =>
        let? scale := temporal_scale ti in
        let? v := read_datetime2 plaintext scale in Ok (DateTime2 v)
    | DT_DateTimeOffsetN =>
        let? scale := temporal_scale ti in
        let? v := read_datetime_offset plaintext scale in Ok (DateTimeOffset v)
    | DT_DateTim4 => let? v := read_small_datetime plaintext in Ok (SmallDateTime v)
    | DT_DateTime => let? v := read_datetime plaintext in Ok (DateTime v)
    | DT_DateTimeN =>
        match ti_length ti with
        | 4 => let? v := read_small_datetime plaintext in Ok (SmallDateTime v)
        | 8 => let? v := read_datetime plaintext in Ok (DateTime v)
        | _ => invalid_length "Invalid DateTimeN base length for encrypted column"
        end
    | _ => Err (ColumnEncryptionError "Denormalization is not yet implemented for encrypted base type")
    end.

Definition normalize_money (m : SqlMoney) : bytes := le_bytes 4 (msb_part m) ++ le_bytes 4 (lsb_part m).

(** [i64::from], [>> 32] and [as i32]. *)
Definition normalize_small_money (m : SqlSmallMoney) : bytes :=
  le_bytes 4 (as_i32 (Z.shiftr (int_val m) 32)) ++ le_bytes 4 (as_i32 (int_val m)).

Definition normalize_decimal (d : DecimalParts) : bytes :=
  [byte_of (if is_positive d then 1 else 0)] ++ le_bytes 16 (magnitude d).

Definition time_byte_width (scale : Z) : nat :=
  if (0 <=? scale) && (scale <=? 2) then 3 else if (3 <=? scale) && (scale <=? 4) then 4 else 5.

Definition normalize_date (d : SqlDate) : bytes := take 3 (le_bytes 4 (days_since_01_01_0001 d)).

Definition normalize_time (t : SqlTime) : TdsResult bytes :=
  if 7 <? time_scale t then Err (ColumnEncryptionError "Invalid time scale (expected 0..=7)")
  else
    let multiplier := 10 ^ (7 - time_scale t) in
    let scaled := time_nanoseconds t / multiplier in
    Ok (take (time_byte_width (time_scale t)) (le_bytes 8 scaled)).

Definition normalize_datetime2 (dt : SqlDateTime2) : TdsResult bytes :=
  let? out := normalize_time (dt2_time dt) in
  Ok (out ++ take 3 (le_bytes 4 (dt2_days dt))).

Definition normalize_datetime_offset (dto : SqlDateTimeOffset) : TdsResult bytes :=
  let? out := normalize_datetime2 (dto_datetime2 dto) in
  Ok (out ++ le_bytes 2 (dto_offset dto)).

Definition normalize_small_datetime (sdt : SqlSmallDateTime) : bytes := le_bytes 2 (sdt_days sdt) ++ le_bytes 2 (sdt_time sdt).
Definition normalize_datetime (dt : SqlDateTime) : bytes := le_bytes 4 (dt_days dt) ++ le_bytes 4 (dt_time dt).

(** [v.as_ref().map(f).transpose()]. *)
Definition map_transpose {A B} (f : A -> TdsResult B) (v : option A) : TdsResult (option B) :=
  match v with Some a => let? b := f a in Ok (Some b) | None => Ok None end.

(** The normal form of a parameter; [None] for NULL. *)
Definition normalize (value : SqlType) : TdsResult (option bytes) :=
  match value with
  | T_Bit v => Ok ((fun b : bool => le_bytes 8 (if b then 1 else 0)) <$> v)
  | T_TinyInt v | T_SmallInt v | T_Int v | T_BigInt v => Ok (le_bytes 8 <$> v)
  | T_Real v => Ok (le_bytes 4 <$> v)
  | T_Float v => Ok (le_bytes 8 <$> v)
  | T_Money v => Ok (normalize_money <$> v)
  | T_SmallMoney v => Ok (normalize_small_money <$> v)
  | T_Decimal v | T_Numeric v => Ok (normalize_decimal <$> v)
  | T_Uuid v => Ok v
  | T_Binary v _ | T_VarBinary v _ | T_VarBinaryMax v => Ok v
  | T_NVarchar v _ | T_NVarcharMax v | T_NChar v _ | T_NText v | T_Varchar v _ | T_VarcharMax v | T_Char v _ | T_Text v =>
      Ok (sql_bytes <$> v)
  | T_Date v => Ok (normalize_date <$> v)
  | T_Time v => map_transpose normalize_time v
  | T_DateTime2 v => map_transpose normalize_datetime2 v
  | T_DateTimeOffset v => map_transpose normalize_datetime_offset v
  | T_SmallDateTime v => Ok (normalize_small_datetime <$> v)
  | T_DateTime v => Ok (normalize_datetime <$> v)
  | _ => Err (ColumnEncryptionError "Always Encrypted normalization is not implemented for parameter type")
  end.

(** The normal form of a cell of a bulk copy. *)
Definition normalize_column_value (value : ColumnValues) : TdsResult (option bytes) :=
  match value with
  | Null => Ok None
  | Bit v => Ok (Some (le_bytes 8 (if v then 1 else 0)))
  | TinyInt v | SmallInt v | Int v | BigInt v => Ok (Some (le_bytes 8 v))
  | Real v => Ok (Some (le_bytes 4 v))
  | Float v => Ok (Some (le_bytes 8 v))
  | Money v => Ok (Some (normalize_money v))
  | SmallMoney v => Ok (Some (normalize_small_money v))
  | Decimal v | Numeric v => Ok (Some (normalize_decimal v))
  | Uuid v => Ok (Some v)
  | CBytes v => Ok (Some v)
  | CString s => Ok (Some (sql_bytes s))
  | Date v => Ok (Some (normalize_date v))
  | Time v => let? bs := normalize_time v in Ok (Some bs)
  | DateTime2 v => let? bs := normalize_datetime2 v in Ok (Some bs)
  | DateTimeOffset v => let? bs := normalize_datetime_offset v in Ok (Some bs)
  | SmallDateTime v => Ok (Some (normalize_small_datetime v))
  | DateTime v => Ok (Some (normalize_datetime v))
  | _ => Err (ColumnEncryptionError "Always Encrypted normalization is not implemented for bulk-copy value")
  end.

(** ** Cells *)

Section cells.
Context `{crypto : CryptoBackend}.

Definition decrypt_cell (crypto_metadata : CryptoMetadata) (plaintext_cek cipher_blob : bytes) : TdsResult ColumnValues :=
  if negb (cipher_algorithm_id crypto_metadata =? AEAD_AES_256_CBC_HMAC_SHA256_ALGORITHM_ID)
  then Err (ColumnEncryptionError "Unsupported cell cipher algorithm id")
  else
    let? cipher := AeadAes256CbcHmacSha256_new plaintext_cek in
    let? plaintext := decrypt cipher cipher_blob in
    denormalize plaintext (base_data_type crypto_metadata) (base_type_info crypto_metadata)
      (normalization_rule_version crypto_metadata).

(** The checks and the encryption [encrypt_parameter] and [encrypt_cell_value] have in common. *)
Definition encrypt_normalized (random : TdsResult bytes) (normalized : TdsResult (option bytes)) (plaintext_cek : bytes)
    (cipher_algorithm_id encryption_type normalization_rule_version : Z) : TdsResult (option bytes) :=
  if negb (cipher_algorithm_id =? AEAD_AES_256_CBC_HMAC_SHA256_ALGORITHM_ID)
  then Err (ColumnEncryptionError "Unsupported cipher algorithm id")
  else if negb (normalization_rule_version =? SUPPORTED_NORMALIZATION_VERSION)
  then Err (ColumnEncryptionError "Unsupported Always Encrypted normalization rule version")
  else
    let? column_encryption_type :=
      match encryption_type with
      | 1 => Ok Deterministic
      | 2 => Ok Randomized
      | _ => Err (ColumnEncryptionError "Unsupported Always Encrypted encryption type (expected 1 or 2)")
      end in
    let? normalized := normalized in
    match normalized with
    | None => Ok None
    | Some normalized =>
        let? cipher := AeadAes256CbcHmacSha256_new plaintext_cek in
        let? ciphertext := encrypt random cipher normalized column_encryption_type in
        Ok (Some ciphertext)
    end.

Definition encrypt_parameter (random : TdsResult bytes) (value : SqlType) : bytes -> Z -> Z -> Z -> TdsResult (option bytes) :=
  encrypt_normalized random (normalize value).

Definition encrypt_cell_value (random : TdsResult bytes) (value : ColumnValues) : bytes -> Z -> Z -> Z -> TdsResult (option bytes) :=
  encrypt_normalized random (normalize_column_value value).
End cells.

(** ** Comparing tags *)

Lemma tag_difference xys : forall acc, 0 <= acc ->
  fold_left (fun diff xy => Z.lor diff (Z.lxor (byte_val xy.1) (byte_val xy.2))) xys acc = 0 <->
  acc = 0 /\ Forall (fun xy => xy.1 = xy.2) xys.
Proof.
  induction xys as [|[x y] xys IH]; intros acc Ha; cbn; [by intuition constructor|].
  rewrite IH by (apply Z.lor_nonneg; split; [done|]; by rewrite Z.lxor_nonneg; split; intros; apply byte.unsigned_range).
  rewrite Z.lor_eq_0_iff, Z.lxor_eq_0_iff, List.Forall_cons_iff. cbn.
  assert (byte_val x = byte_val y <-> x = y) as ->; [|tauto].
  split; [|by intros ->]. intros E. by rewrite <- (byte_of_val x), E, byte_of_val.
Qed.

Lemma constant_time_eq_spec a b : constant_time_eq a b = true <-> a = b.
Proof.
  unfold constant_time_eq. destruct (length a =? length b)%nat eqn:E; cbn [negb].
  - apply Nat.eqb_eq in E. rewrite Z.eqb_eq, tag_difference by done. split; [|intros ->].
    + intros [_ H]. revert b E H. induction a as [|x a IH]; intros [|y b] E H; try done.
      apply List.Forall_cons_iff in H as [H1 H2]. cbn in H1, E. f_equal; auto.
    + split; [done|]. clear. induction b; by constructor.
  - split; [done|]. intros ->. by rewrite Nat.eqb_refl in E.
Qed.

(** ** The normal form and back *)

(** A time of day as it is read under a column of scale [s]: the count of its own units is kept. *)
Definition at_scale (s : Z) (t : SqlTime) : SqlTime :=
  {| time_nanoseconds := time_nanoseconds t / 10 ^ (7 - time_scale t) * 10 ^ (7 - s); time_scale := s |}.

Definition decimal_at (ti : TypeInfo) (d : DecimalParts) : DecimalParts :=
  match type_info_variant ti with
  | VarLenPrecisionScale _ _ p s => DecimalParts_new (is_positive d) p s (magnitude d)
  | _ => d
  end.

Definition time_at (ti : TypeInfo) (t : SqlTime) : SqlTime :=
  match type_info_variant ti with VarLenScale _ s => at_scale s t | _ => t end.

Definition datetime2_at (ti : TypeInfo) (d : SqlDateTime2) : SqlDateTime2 :=
  {| dt2_days := dt2_days d; dt2_time := time_at ti (dt2_time d) |}.

(** What is read of an encrypted value: its digits, with the precision and the scale of the column. *)
Definition as_read (ti : TypeInfo) (v : ColumnValues) : ColumnValues :=
  match v with
  | Decimal d => Decimal (decimal_at ti d)
  | Numeric d => Numeric (decimal_at ti d)
  | Time t => Time (time_at ti t)
  | DateTime2 d => DateTime2 (datetime2_at ti d)
  | DateTimeOffset d => DateTimeOffset {| dto_datetime2 := datetime2_at ti (dto_datetime2 d); dto_offset := dto_offset d |}
  | _ => v
  end.

Definition scaled_column (ti : TypeInfo) : Prop := exists s, temporal_scale ti = Ok s /\ 0 <= s <= 7.
Definition clock_time (t : SqlTime) : Prop := 0 <= time_scale t <= 7 /\ 0 <= time_nanoseconds t < 864000000000.

Definition decimal_column_ok (ti : TypeInfo) : Prop :=
  match type_info_variant ti with
  | VarLenPrecisionScale _ _ p s => decimal_metadata_is_valid p s = true
  | _ => False
  end.

(** A value of the base type of the column. *)
Definition cell_ok (bt : TdsDataType) (ti : TypeInfo) (v : ColumnValues) : Prop :=
  match v with
  | Bit _ => bt = DT_Bit \/ bt = DT_BitN
  | TinyInt z => (bt = DT_Int1 \/ bt = DT_IntN /\ ti_length ti = 1) /\ in_unsigned 8 z
  | SmallInt z => (bt = DT_Int2 \/ bt = DT_IntN /\ ti_length ti = 2) /\ in_signed 16 z
  | Int z => (bt = DT_Int4 \/ bt = DT_IntN /\ ti_length ti = 4) /\ in_signed 32 z
  | BigInt z => (bt = DT_Int8 \/ bt = DT_IntN /\ ti_length ti = 8) /\ in_signed 64 z
  | Real bits => (bt = DT_Flt4 \/ bt = DT_FltN) /\ in_unsigned 32 bits
  | Float bits => (bt = DT_Flt8 \/ bt = DT_FltN) /\ in_unsigned 64 bits
  | Money v => (bt = DT_Money \/ bt = DT_MoneyN /\ ti_length ti = 8) /\ in_signed 32 (msb_part v) /\ in_signed 32 (lsb_part v)
  | SmallMoney v => (bt = DT_Money4 \/ bt = DT_MoneyN /\ ti_length ti = 4) /\ in_signed 32 (int_val v)
  | Decimal d => (bt = DT_Decimal \/ bt = DT_DecimalN) /\ decimal_column_ok ti /\ decimal_ok d
  | Numeric d => (bt = DT_Numeric \/ bt = DT_NumericN) /\ decimal_column_ok ti /\ decimal_ok d
  | Uuid bs => bt = DT_Guid /\ length bs = 16%nat
  | CBytes _ => In bt [DT_Binary; DT_VarBinary; DT_BigBinary; DT_BigVarBinary; DT_Image]
  | CString s =>
      In bt [DT_Char; DT_VarChar; DT_BigChar; DT_BigVarChar; DT_Text; DT_NChar; DT_NVarChar; DT_NText] /\
      string_encoding bt ti = Ok (encoding_type s) /\ narrow_string_byte_limit s = None
  | Date d => bt = DT_DateN /\ in_unsigned 24 (days_since_01_01_0001 d)
  | Time t => bt = DT_TimeN /\ scaled_column ti /\ clock_time t
  | DateTime2 d => bt = DT_DateTime2N /\ scaled_column ti /\ clock_time (dt2_time d) /\ in_unsigned 24 (dt2_days d)
  | DateTimeOffset d =>
      bt = DT_DateTimeOffsetN /\ scaled_column ti /\ clock_time (dt2_time (dto_datetime2 d)) /\
      in_unsigned 24 (dt2_days (dto_datetime2 d)) /\ in_signed 16 (dto_offset d)
  | SmallDateTime d => (bt = DT_DateTim4 \/ bt = DT_DateTimeN /\ ti_length ti = 4) /\ in_unsigned 16 (sdt_days d) /\ in_unsigned 16 (sdt_time d)
  | DateTime d => (bt = DT_DateTime \/ bt = DT_DateTimeN /\ ti_length ti = 8) /\ in_signed 32 (dt_days d) /\ in_unsigned 32 (dt_time d)
  | Null | Xml _ | Json _ | Vector _ => False
  end.

Lemma of_le_cons b bs : of_le (b :: bs) = byte_val b + of_le bs * 2 ^ 8.
Proof. apply lor_shiftl_add; [done|]. apply byte.unsigned_range. Qed.

Lemma or_bytes_of_le bs : forall index value, 0 <= index -> 0 <= value < 2 ^ (8 * index) ->
  or_bytes index value bs = value + of_le bs * 2 ^ (8 * index).
Proof.
  induction bs as [|b bs IH]; intros index value Hi Hv; cbn [or_bytes]; [change (of_le []) with 0; lia|].
  assert (0 <= byte_val b < 256) as Hb by apply byte.unsigned_range. rewrite lor_shiftl_add by lia.
  assert (2 ^ (8 * (index + 1)) = 256 * 2 ^ (8 * index)) as E.
  { rewrite Z.mul_add_distr_l, Z.pow_add_r by lia. change (2 ^ (8 * 1)) with 256. lia. }
  rewrite IH by lia || nia. rewrite E, of_le_cons. lia.
Qed.

Lemma read_uint_le_bytes n z what : in_unsigned (8 * Z.of_nat n) z -> read_uint_le (le_bytes n z) n what = Ok z.
Proof.
  intros Hz. unfold read_uint_le. rewrite length_le_bytes, Nat.eqb_refl. cbn [negb]. rewrite or_bytes_of_le by done.
  rewrite of_le_unsigned by done. f_equal. lia.
Qed.

Lemma take_le_bytes n k v : take n (le_bytes (n + k) v) = le_bytes n v.
Proof. rewrite le_bytes_add. by rewrite take_app_length' by by rewrite length_le_bytes. Qed.

Lemma exactly_ok n what bs : length bs = n -> exactly n what bs = Ok bs.
Proof. intros <-. unfold exactly. by rewrite Nat.eqb_refl. Qed.

Lemma read_integer z : in_signed 64 z -> read_i64 (le_bytes 8 z) = Ok z.
Proof. intros Hz. unfold read_i64. rewrite exactly_ok by apply length_le_bytes. cbn [rbind]. by rewrite of_le_signed_le_bytes by (done || lia). Qed.

Lemma read_pair (a b : Z) : in_signed 32 a -> in_signed 32 b ->
  read_i32_at (le_bytes 4 a ++ le_bytes 4 b) 0 = Ok a /\ read_i32_at (le_bytes 4 a ++ le_bytes 4 b) 4 = Ok b /\
  length (le_bytes 4 a ++ le_bytes 4 b) = 8%nat.
Proof.
  intros Ha Hb. unfold read_i32_at. rewrite length_app, !length_le_bytes. cbn [Nat.add Nat.leb]. rewrite drop_0.
  rewrite take_app_length' by by rewrite length_le_bytes. rewrite drop_app_length' by by rewrite length_le_bytes.
  rewrite take_ge by by rewrite length_le_bytes. by rewrite !of_le_signed_le_bytes by (done || lia).
Qed.

Lemma read_date_bytes d : in_unsigned 24 (days_since_01_01_0001 d) -> read_date (normalize_date d) = Ok d.
Proof.
  intros Hd. unfold read_date, normalize_date. rewrite (take_le_bytes 3 1), read_uint_le_bytes by done. cbn [rbind].
  unfold as_u32. rewrite Z.mod_small by (destruct Hd; lia). by destruct d.
Qed.

(** The count of units of a time of day fits its width. *)
Lemma units_fit t : clock_time t ->
  in_unsigned (8 * Z.of_nat (time_byte_width (time_scale t))) (time_nanoseconds t / 10 ^ (7 - time_scale t)).
Proof.
  intros [Hs [Hn1 Hn2]]. split; [apply Z.div_pos; [done|apply Z.pow_pos_nonneg; lia]|]. apply Z.div_lt_upper_bound; [apply Z.pow_pos_nonneg; lia|].
  destruct (scale_cases _ Hs) as [E|[E|[E|[E|[E|[E|[E|E]]]]]]]; rewrite E; cbn; lia.
Qed.

Lemma width_cases s : time_byte_width s = 3%nat \/ time_byte_width s = 4%nat \/ time_byte_width s = 5%nat.
Proof. unfold time_byte_width. repeat case_match; auto. Qed.

Lemma normalized_time t : clock_time t ->
  normalize_time t = Ok (le_bytes (time_byte_width (time_scale t)) (time_nanoseconds t / 10 ^ (7 - time_scale t))).
Proof.
  intros [Hs _]. unfold normalize_time. rewrite (proj2 (Z.ltb_ge _ _)) by lia. f_equal.
  destruct (width_cases (time_scale t)) as [->|[->| ->]]; [apply (take_le_bytes 3 5)|apply (take_le_bytes 4 4)|apply (take_le_bytes 5 3)].
Qed.

Lemma read_units w u s :
  w = 3%nat \/ w = 4%nat \/ w = 5%nat -> in_unsigned (8 * Z.of_nat w) u -> 0 <= s <= 7 ->
  read_time (le_bytes w u) s = Ok {| time_nanoseconds := u * 10 ^ (7 - s); time_scale := s |}.
Proof.
  intros Hw Hu Hs. unfold read_time. rewrite length_le_bytes, (proj2 (Z.leb_le _ _)) by lia.
  assert (0 <= u < 2 ^ 40) as Hr.
  { destruct Hu as [H0 Hu]. split; [done|]. destruct Hw as [->|[->| ->]]; cbn in Hu |- *; lia. }
  assert (0 < 10 ^ (7 - s) <= 10 ^ 7) as Hp by (split; [apply Z.pow_pos_nonneg; lia|apply Z.pow_le_mono_r; lia]).
  assert (mul_u64 u (10 ^ (7 - s)) = Ok (u * 10 ^ (7 - s))) as Hm by (apply mul_u64_ok; nia).
  destruct Hw as [->|[->| ->]]; rewrite read_uint_le_bytes by done; cbn [rbind]; by rewrite Hm.
Qed.

Lemma read_time_at ti t : scaled_column ti -> clock_time t ->
  exists bs, normalize_time t = Ok bs /\ (length bs <= 5)%nat /\
    (let? s := temporal_scale ti in read_time bs s) = Ok (time_at ti t).
Proof.
  intros (s & Es & Hs) Ht. eexists. split; [by apply normalized_time|]. rewrite length_le_bytes. split.
  - destruct (width_cases (time_scale t)) as [->|[->| ->]]; lia.
  - rewrite Es. cbn [rbind]. rewrite read_units by (auto using width_cases, units_fit).
    unfold time_at, temporal_scale in *. destruct (type_info_variant ti); try discriminate Es. by injection Es as ->.
Qed.

Lemma read_datetime2_at ti d : scaled_column ti -> clock_time (dt2_time d) -> in_unsigned 24 (dt2_days d) ->
  exists bs, normalize_datetime2 d = Ok bs /\
    (let? s := temporal_scale ti in read_datetime2 bs s) = Ok (datetime2_at ti d).
Proof.
  intros Hc Ht Hd. destruct (read_time_at ti _ Hc Ht) as (tb & Et & _ & Hr). destruct Hc as (s & Es & _).
  unfold normalize_datetime2. rewrite Et. cbn [rbind]. eexists. split; [done|]. rewrite Es in Hr |- *. cbn [rbind] in *.
  pose proof (read_date_bytes (SqlDate_unchecked_create (dt2_days d)) Hd) as Hdate. unfold normalize_date in Hdate. cbn [SqlDate_unchecked_create days_since_01_01_0001] in Hdate.
  rewrite (take_le_bytes 3 1) in Hdate |- *. unfold read_datetime2. rewrite length_app, length_le_bytes.
  rewrite (proj2 (Nat.ltb_ge _ _)), Nat.add_sub by lia. rewrite take_app_length, drop_app_length, Hr. cbn [rbind]. by rewrite Hdate.
Qed.

Lemma read_datetime_offset_at ti d :
  scaled_column ti -> clock_time (dt2_time (dto_datetime2 d)) -> in_unsigned 24 (dt2_days (dto_datetime2 d)) -> in_signed 16 (dto_offset d) ->
  exists bs, normalize_datetime_offset d = Ok bs /\
    (let? s := temporal_scale ti in read_datetime_offset bs s) =
      Ok {| dto_datetime2 := datetime2_at ti (dto_datetime2 d); dto_offset := dto_offset d |}.
Proof.
  intros Hc Ht Hd Ho. destruct (read_datetime2_at ti _ Hc Ht Hd) as (tb & Et & Hr). destruct Hc as (s & Es & _).
  unfold normalize_datetime_offset. rewrite Et. cbn [rbind]. eexists. split; [done|]. rewrite Es in Hr |- *. cbn [rbind] in *.
  unfold read_datetime_offset. rewrite length_app, length_le_bytes, (proj2 (Nat.ltb_ge _ _)), Nat.add_sub by lia.
  rewrite take_app_length, drop_app_length, Hr. cbn [rbind]. by rewrite of_le_signed_le_bytes by (done || lia).
Qed.

Lemma read_decimal_at ti d : decimal_column_ok ti -> decimal_ok d -> read_decimal (normalize_decimal d) ti = Ok (decimal_at ti d).
Proof.
  intros Hc Hd. unfold read_decimal, normalize_decimal, decimal_at, decimal_column_ok in *.
  destruct (type_info_variant ti); try done. rewrite Hc. cbn [negb app]. rewrite length_le_bytes. cbn [Nat.ltb Nat.leb Nat.sub replicate].
  rewrite app_nil_r, of_le_unsigned by (by apply magnitude_range). do 2 f_equal. by destruct (is_positive d).
Qed.

Lemma wider_signed w z : 0 < w <= 64 -> in_signed w z -> in_signed 64 z.
Proof.
  intros Hw [H1 H2]. assert (2 ^ (w - 1) <= 2 ^ (64 - 1)) by (apply Z.pow_le_mono_r; lia). split; lia.
Qed.

Lemma read_small_datetime_bytes d : in_unsigned 16 (sdt_days d) -> in_unsigned 16 (sdt_time d) ->
  read_small_datetime (normalize_small_datetime d) = Ok d.
Proof.
  intros Hd Ht. unfold read_small_datetime, normalize_small_datetime.
  rewrite exactly_ok by by rewrite length_app, !length_le_bytes. cbn [rbind].
  rewrite take_app_length', drop_app_length' by by rewrite length_le_bytes.
  rewrite !read_uint_le_bytes by done. cbn [rbind]. unfold as_u16. rewrite !Z.mod_small by done. by destruct d.
Qed.

Lemma read_datetime_bytes d : in_signed 32 (dt_days d) -> in_unsigned 32 (dt_time d) -> read_datetime (normalize_datetime d) = Ok d.
Proof.
  intros Hd Ht. unfold read_datetime, normalize_datetime. rewrite exactly_ok by by rewrite length_app, !length_le_bytes. cbn [rbind].
  rewrite take_app_length', drop_app_length' by by rewrite length_le_bytes.
  rewrite of_le_signed_le_bytes, of_le_unsigned by (done || lia). by destruct d.
Qed.

Lemma read_money_bytes m : in_signed 32 (msb_part m) -> in_signed 32 (lsb_part m) -> read_money (normalize_money m) = Ok m.
Proof.
  intros H1 H2. destruct (read_pair _ _ H1 H2) as (E1 & E2 & E3). unfold read_money, normalize_money.
  rewrite exactly_ok by done. cbn [rbind]. rewrite E1. cbn [rbind]. rewrite E2. by destruct m.
Qed.

Lemma read_small_money_bytes m : in_signed 32 (int_val m) -> read_small_money (normalize_small_money m) = Ok m.
Proof.
  intros H. assert (in_signed 32 (as_i32 (Z.shiftr (int_val m) 32))) as H1 by (by apply to_signed_range).
  assert (as_i32 (int_val m) = int_val m) as Em by (by apply to_signed_id). destruct (read_pair _ _ H1 H) as (_ & E2 & E3).
  unfold read_small_money, normalize_small_money. rewrite Em, exactly_ok by done. cbn [rbind]. rewrite E2. by destruct m.
Qed.

(** Decrypting finds the value in its normal form. *)
Lemma normal_form_reads_back bt ti v : cell_ok bt ti v ->
  exists bs, normalize_column_value v = Ok (Some bs) /\ denormalize bs bt ti SUPPORTED_NORMALIZATION_VERSION = Ok (as_read ti v).
Proof.
  intros Hv. unfold denormalize. change (negb (SUPPORTED_NORMALIZATION_VERSION =? SUPPORTED_NORMALIZATION_VERSION)) with false. cbn [negb].
  destruct v; cbn [cell_ok as_read normalize_column_value] in *; try done; try (eexists; split; [reflexivity|]).
  - destruct Hv as [[->|[-> El]] Hz]; rewrite ?El, read_integer by (destruct Hz; split; lia); cbn [rbind];
      unfold narrow_tinyint, as_u8; by rewrite Z.mod_small.
  - destruct Hv as [[->|[-> El]] Hz]; rewrite ?El, read_integer by (by apply (wider_signed 16)); cbn [rbind];
      unfold narrow_smallint, as_i16; by rewrite to_signed_id.
  - destruct Hv as [[->|[-> El]] Hz]; rewrite ?El, read_integer by (by apply (wider_signed 32)); cbn [rbind];
      unfold narrow_int, as_i32; by rewrite to_signed_id.
  - destruct Hv as [[->|[-> El]] Hz]; by rewrite ?El, read_integer.
  - destruct Hv as [[->| ->] Hz]; rewrite ?length_le_bytes; unfold read_f32; rewrite exactly_ok by apply length_le_bytes;
      cbn [rbind]; by rewrite of_le_unsigned.
  - destruct Hv as [[->| ->] Hz]; rewrite ?length_le_bytes; unfold read_f64; rewrite exactly_ok by apply length_le_bytes;
      cbn [rbind]; by rewrite of_le_unsigned.
  - destruct Hv as ([->| ->] & Hc & Hd); by rewrite read_decimal_at.
  - destruct Hv as ([->| ->] & Hc & Hd); by rewrite read_decimal_at.
  - destruct Hv as [->| ->]; rewrite read_integer by (by destruct v); by destruct v.
  - destruct Hv as (Hb & He & Hl). destruct v as [bs e l]. cbn in *. subst l.
    repeat destruct Hb as [<-|Hb]; try done; rewrite He; done.
  - destruct Hv as ([->|[-> El]] & Hd & Ht); rewrite ?El; by rewrite read_datetime_bytes.
  - destruct Hv as [-> Hd]. by rewrite read_date_bytes.
  - destruct Hv as (-> & Hc & Ht). destruct (read_time_at ti v Hc Ht) as (bs & E & _ & Hr). rewrite E. exists bs. split; [done|].
    destruct (temporal_scale ti); try done. cbn [rbind] in *. by rewrite Hr.
  - destruct Hv as (-> & Hc & Ht & Hd). destruct (read_datetime2_at ti v Hc Ht Hd) as (bs & E & Hr). rewrite E. exists bs. split; [done|].
    destruct (temporal_scale ti); try done. cbn [rbind] in *. by rewrite Hr.
  - destruct Hv as (-> & Hc & Ht & Hd & Ho). destruct (read_datetime_offset_at ti v Hc Ht Hd Ho) as (bs & E & Hr). rewrite E. exists bs. split; [done|].
    destruct (temporal_scale ti); try done. cbn [rbind] in *. by rewrite Hr.
  - destruct Hv as ([->|[-> El]] & Hd & Ht); rewrite ?El; by rewrite read_small_datetime_bytes.
  - destruct Hv as ([->|[-> El]] & Hd); rewrite ?El; by rewrite read_small_money_bytes.
  - destruct Hv as ([->|[-> El]] & Hd & Ht); rewrite ?El; by rewrite read_money_bytes.
  - by repeat destruct Hv as [<-|Hv].
  - destruct Hv as [-> Hl]. by rewrite exactly_ok.
Qed.

(** ** The cipher and back *)

(** What is documented of the platform: HMAC-SHA256 has 32 bytes, and AES-256 in CBC mode with PKCS 7
    padding gives at least one block, which decrypting under the same key and vector undoes.  Every
    call may fail with an error. *)
Class CryptoLaws `{crypto : CryptoBackend} : Prop := {
  hmac_answers key data :
    match hmac_sha256 key data with Ok tag => length tag = TAG_SIZE_IN_BYTES | Err _ => True | _ => False end;
  aes_answers key iv plaintext :
    length key = KEY_SIZE_IN_BYTES -> length iv = BLOCK_SIZE_IN_BYTES ->
    match aes_256_cbc_encrypt key iv plaintext with
    | Ok ciphertext =>
        (BLOCK_SIZE_IN_BYTES <= length ciphertext)%nat /\ aes_256_cbc_decrypt key iv ciphertext = Ok plaintext
    | Err _ => True
    | _ => False
    end;
}.

(** The generator fills the vector or fails. *)
Definition random_answers (random : TdsResult bytes) : Prop :=
  match random with Ok iv => length iv = BLOCK_SIZE_IN_BYTES | Err _ => True | _ => False end.

Section sealed.
Context `{laws : CryptoLaws}.

(** An error of the platform. *)
Definition platform_error (random : TdsResult bytes) (e : Error) : Prop :=
  random = Err e \/ (exists key data, hmac_sha256 key data = Err e) \/
  exists key iv plaintext, aes_256_cbc_encrypt key iv plaintext = Err e.

Lemma new_cipher random cek :
  length cek = KEY_SIZE_IN_BYTES ->
  match AeadAes256CbcHmacSha256_new cek with
  | Ok c => length (encryption_key c) = KEY_SIZE_IN_BYTES
  | Err e => platform_error random e
  | _ => False
  end.
Proof.
  intros Hl. unfold AeadAes256CbcHmacSha256_new, derive_key. rewrite Hl. cbn [Nat.eqb KEY_SIZE_IN_BYTES negb].
  pose proof (hmac_answers cek (utf16le ENCRYPTION_KEY_SALT)) as H1. pose proof (hmac_answers cek (utf16le MAC_KEY_SALT)) as H2.
  pose proof (hmac_answers cek (utf16le IV_KEY_SALT)) as H3. unfold platform_error.
  destruct (hmac_sha256 cek (utf16le ENCRYPTION_KEY_SALT)) eqn:E1; try done; cbn [rbind]; [|by eauto 6].
  destruct (hmac_sha256 cek (utf16le MAC_KEY_SALT)) eqn:E2; try done; cbn [rbind]; [|by eauto 6].
  destruct (hmac_sha256 cek (utf16le IV_KEY_SALT)) eqn:E3; try done; cbn [rbind]; by eauto 6.
Qed.

(** The parts of a blob are found where they were put. *)
Lemma decrypt_sealed c tag iv ciphertext :
  length tag = TAG_SIZE_IN_BYTES -> length iv = BLOCK_SIZE_IN_BYTES -> (BLOCK_SIZE_IN_BYTES <= length ciphertext)%nat ->
  decrypt c ([byte_of ALGORITHM_VERSION] ++ tag ++ iv ++ ciphertext) =
  (let? expected_tag := authentication_tag c iv ciphertext in
   if negb (constant_time_eq expected_tag tag) then Err (ColumnEncryptionError "Authentication tag mismatch")
   else aes_256_cbc_decrypt (encryption_key c) iv ciphertext).
Proof.
  intros Ht Hi Hc. unfold decrypt. rewrite !length_app, Ht, Hi.
  rewrite (proj2 (Nat.ltb_ge _ _)) by (cbn [length] in *; unfold MIN_CIPHERTEXT_LEN; lia).
  cbn [app]. rewrite byte_val_of by done. cbn [Z.eqb ALGORITHM_VERSION Pos.eqb negb].
  rewrite take_app_length' by done. rewrite (drop_app_length' tag) by done. rewrite take_app_length' by done.
  by rewrite <- drop_drop, !drop_app_length' by done.
Qed.

Lemma encrypt_is_undone random c plaintext ty :
  random_answers random -> length (encryption_key c) = KEY_SIZE_IN_BYTES ->
  match encrypt random c plaintext ty with
  | Ok blob => decrypt c blob = Ok plaintext
  | Err e => platform_error random e
  | _ => False
  end.
Proof.
  intros Hr Hk. unfold encrypt.
  assert (match (match ty with
                 | Deterministic => let? full := hmac_sha256 (iv_key c) plaintext in Ok (take BLOCK_SIZE_IN_BYTES full)
                 | Randomized => random end) with
          | Ok iv => length iv = BLOCK_SIZE_IN_BYTES | Err e => platform_error random e | _ => False end) as Hiv.
  { destruct ty.
    - pose proof (hmac_answers (iv_key c) plaintext) as H. destruct (hmac_sha256 _ _) eqn:E; try done; cbn [rbind].
      + rewrite length_take, H. done.
      + right. left. eauto.
    - destruct random; try done. by left. }
  destruct (match ty with Deterministic => _ | Randomized => _ end) as [iv| | |]; try done. cbn [rbind].
  pose proof (aes_answers _ iv plaintext Hk Hiv) as Ha.
  destruct (aes_256_cbc_encrypt _ _ _) as [ciphertext| | |] eqn:Ea; try done; cbn [rbind]; [|right; right; by eauto].
  destruct Ha as [Hc Hd]. pose proof (hmac_answers (mac_key c) ([byte_of ALGORITHM_VERSION] ++ iv ++ ciphertext ++ [byte_of VERSION_SIZE_BYTE])) as Ht.
  unfold authentication_tag. destruct (hmac_sha256 (mac_key c) _) as [tag| | |] eqn:Et; try done; cbn [rbind]; [|right; left; by eauto].
  rewrite decrypt_sealed by done. unfold authentication_tag. rewrite Et. cbn [rbind].
  by rewrite (proj2 (constant_time_eq_spec tag tag) eq_refl).
Qed.

(** What decrypts carries the tag of its content. *)
Lemma decrypted_is_authentic c blob plaintext :
  decrypt c blob = Ok plaintext ->
  exists tag iv ciphertext, blob = [byte_of ALGORITHM_VERSION] ++ tag ++ iv ++ ciphertext /\
    length tag = TAG_SIZE_IN_BYTES /\ length iv = BLOCK_SIZE_IN_BYTES /\ authentication_tag c iv ciphertext = Ok tag.
Proof.
  unfold decrypt. destruct (Nat.ltb_spec (length blob) MIN_CIPHERTEXT_LEN) as [|Hl]; [done|]. destruct blob as [|b rest]; [done|].
  destruct (byte_val b =? ALGORITHM_VERSION) eqn:Eb; [|done]. cbn [negb].
  destruct (authentication_tag c _ _) as [tag| | |] eqn:Et; try done. cbn [rbind].
  destruct (constant_time_eq tag _) eqn:E; [|done]. apply constant_time_eq_spec in E. intros _. apply Z.eqb_eq in Eb.
  cbn [length] in Hl. unfold MIN_CIPHERTEXT_LEN in Hl.
  exists (take TAG_SIZE_IN_BYTES rest), (take BLOCK_SIZE_IN_BYTES (drop TAG_SIZE_IN_BYTES rest)), (drop (TAG_SIZE_IN_BYTES + BLOCK_SIZE_IN_BYTES) rest).
  split_and!; [|rewrite length_take; lia|rewrite length_take, length_drop; lia|by rewrite <- E].
  rewrite <- drop_drop, !take_drop, <- Eb, byte_of_val. done.
Qed.
End sealed.

(** ** Cells and back *)

(** The value is in the precision and scale of the column. *)
Definition at_column_scale (ti : TypeInfo) (v : ColumnValues) : Prop :=
  let time t := temporal_scale ti = Ok (time_scale t) /\ time_nanoseconds t mod 10 ^ (7 - time_scale t) = 0 in
  match v with
  | Decimal d | Numeric d =>
      match type_info_variant ti with VarLenPrecisionScale _ _ p s => p = dec_precision d /\ s = dec_scale d | _ => False end
  | Time t => time t
  | DateTime2 d => time (dt2_time d)
  | DateTimeOffset d => time (dt2_time (dto_datetime2 d))
  | _ => True
  end.

Lemma decimal_at_column ti d :
  match type_info_variant ti with VarLenPrecisionScale _ _ p s => p = dec_precision d /\ s = dec_scale d | _ => False end ->
  decimal_ok d -> decimal_at ti d = d.
Proof. unfold decimal_at. destruct (type_info_variant ti); try done. intros [-> ->] Hd. by apply new_magnitude. Qed.

Lemma time_at_column ti t :
  temporal_scale ti = Ok (time_scale t) -> time_nanoseconds t mod 10 ^ (7 - time_scale t) = 0 -> clock_time t -> time_at ti t = t.
Proof.
  intros Hs Hm [Hr _]. unfold time_at, at_scale, temporal_scale in *. destruct (type_info_variant ti); try done. injection Hs as ->.
  assert (0 < 10 ^ (7 - time_scale t)) by (apply Z.pow_pos_nonneg; lia). destruct t as [x s]. cbn in *. f_equal.
  rewrite Z.mul_comm. symmetry. by apply Z.div_exact; [lia|].
Qed.

Lemma as_read_at_column bt ti v : cell_ok bt ti v -> at_column_scale ti v -> as_read ti v = v.
Proof.
  intros Hv Hs. destruct v; cbn [cell_ok at_column_scale as_read] in *; try done; f_equal.
  - by apply decimal_at_column; [|apply Hv].
  - by apply decimal_at_column; [|apply Hv].
  - apply time_at_column; [apply Hs|apply Hs|apply Hv].
  - unfold datetime2_at. rewrite time_at_column by apply Hs || apply Hv. by destruct v.
  - unfold datetime2_at. rewrite time_at_column by apply Hs || apply Hv. by destruct v as [[] ?].
Qed.

(** A parameter has the normal form of the cell of the same value. *)
Lemma normalize_agrees p c v ctx n :
  to_column_value_and_context p c = Ok (v, ctx) -> normalize p = Ok n -> normalize_column_value v = Ok n.
Proof.
  destruct p; try done; cbn [to_column_value_and_context normalize]; intros [= <- _];
    match goal with |- _ -> normalize_column_value (nullable _ ?o) = _ => destruct o end; cbn; try done; unfold map_transpose.
Qed.

(** What a sealed value opens to. *)
Lemma sealed_cell_opens `{laws : CryptoLaws} random v md cek (bt := base_data_type md) (ti := base_type_info md) :
  length cek = KEY_SIZE_IN_BYTES -> random_answers random ->
  cipher_algorithm_id md = AEAD_AES_256_CBC_HMAC_SHA256_ALGORITHM_ID ->
  normalization_rule_version md = SUPPORTED_NORMALIZATION_VERSION -> encryption_type md = 1 \/ encryption_type md = 2 ->
  cell_ok bt ti v ->
  match encrypt_cell_value random v cek (cipher_algorithm_id md) (encryption_type md) (normalization_rule_version md) with
  | Ok (Some blob) => decrypt_cell md cek blob = Ok (as_read ti v)
  | Err e => platform_error random e
  | _ => False
  end.
Proof.
  intros Hl Hr Ha Hn Ht Hv. pose proof (new_cipher random cek Hl) as Hnew.
  unfold encrypt_cell_value, encrypt_normalized, decrypt_cell. rewrite Ha, Hn, !Z.eqb_refl. cbn [negb].
  destruct (normal_form_reads_back bt ti v Hv) as (bs & -> & Hd).
  assert (exists ty, match encryption_type md with
    | 1 => Ok Deterministic | 2 => Ok Randomized
    | _ => Err (ColumnEncryptionError "Unsupported Always Encrypted encryption type (expected 1 or 2)") end = Ok ty) as [ty ->]
    by (destruct Ht as [-> | ->]; eauto).
  cbn [rbind]. destruct (AeadAes256CbcHmacSha256_new cek) as [c| | |]; try done. cbn [rbind].
  pose proof (encrypt_is_undone random c bs ty Hr Hnew) as H. destruct (encrypt random c bs ty) as [blob| | |]; try done.
  cbn [rbind]. by rewrite H.
Qed.

(** C37: Encrypted cells and parameters come back, and what comes back is authentic.  A value of the base
    type of its column, encrypted with a 32-byte key, deterministically or at random, gives a blob that
    [decrypt_cell] turns back into its digits under the precision and scale of the column, so into the
    value itself when it has them already; the only errors are the platform's.  A parameter that has a
    normal form is encrypted like the cell of the same value.  A blob is accepted only with the
    version byte and the tag of the vector and the ciphertext it carries. *)
Theorem encrypted_cell_reads_back `{laws : CryptoLaws} random v md cek (bt := base_data_type md) (ti := base_type_info md)
    (sealed := encrypt_cell_value random v cek (cipher_algorithm_id md) (encryption_type md) (normalization_rule_version md)) :
  length cek = KEY_SIZE_IN_BYTES -> random_answers random ->
  cipher_algorithm_id md = AEAD_AES_256_CBC_HMAC_SHA256_ALGORITHM_ID ->
  normalization_rule_version md = SUPPORTED_NORMALIZATION_VERSION -> encryption_type md = 1 \/ encryption_type md = 2 ->
  (cell_ok bt ti v ->
   match sealed with
   | Ok (Some blob) => decrypt_cell md cek blob = Ok (as_read ti v)
   | Err e => platform_error random e
   | _ => False
   end /\ (at_column_scale ti v -> as_read ti v = v)) /\
  (forall p c ctx n, to_column_value_and_context p c = Ok (v, ctx) -> normalize p = Ok n ->
   encrypt_parameter random p cek (cipher_algorithm_id md) (encryption_type md) (normalization_rule_version md) = sealed) /\
  (forall blob v', decrypt_cell md cek blob = Ok v' ->
   exists cipher tag iv ciphertext, AeadAes256CbcHmacSha256_new cek = Ok cipher /\
     blob = [byte_of ALGORITHM_VERSION] ++ tag ++ iv ++ ciphertext /\ length tag = TAG_SIZE_IN_BYTES /\
     length iv = BLOCK_SIZE_IN_BYTES /\ authentication_tag cipher iv ciphertext = Ok tag).
Proof.
  intros Hl Hr Ha Hn Ht. subst sealed. split_and!.
  - intros Hv. split; [by apply sealed_cell_opens|by apply (as_read_at_column bt)].
  - intros p c ctx n Hp Hnorm. unfold encrypt_cell_value, encrypt_parameter. by rewrite (normalize_agrees _ _ _ _ _ Hp Hnorm), Hnorm.
  - intros blob v'. unfold decrypt_cell. rewrite Ha. cbn [Z.eqb Pos.eqb negb AEAD_AES_256_CBC_HMAC_SHA256_ALGORITHM_ID].
    destruct (AeadAes256CbcHmacSha256_new cek) as [c| | |]; try done. cbn [rbind].
    destruct (decrypt c blob) as [plaintext| | |] eqn:E; try done. intros _.
    destruct (decrypted_is_authentic c blob plaintext E) as (tag & iv & ciphertext & H). by exists c, tag, iv, ciphertext.
Qed.

(** ** A platform for the witness *)

(** Tags repeat the length of the data; ciphertexts are a block of padding and the plaintext. *)
#[local] Instance sample_crypto : CryptoBackend := {|
  hmac_sha256 key data := Ok (replicate TAG_SIZE_IN_BYTES (byte_of (Z.of_nat (length data))));
  aes_256_cbc_encrypt key iv plaintext := Ok (replicate BLOCK_SIZE_IN_BYTES (byte_of 16) ++ plaintext);
  aes_256_cbc_decrypt key iv ciphertext := Ok (drop BLOCK_SIZE_IN_BYTES ciphertext) |}.

#[local] Instance sample_crypto_laws : CryptoLaws.
Proof.
  split; [done|]. intros key iv plaintext _ _. cbn [aes_256_cbc_encrypt aes_256_cbc_decrypt sample_crypto]. split.
  - rewrite length_app, length_replicate. lia.
  - by rewrite drop_app_length' by by rewrite length_replicate.
Defined.

Definition sample_cek : bytes := replicate 32 (byte_of 7).

(** A DECIMAL(10, 2) under deterministic encryption. *)
Definition sample_crypto_metadata : CryptoMetadata := {|
  cek_table_ordinal := 0; base_data_type := DT_DecimalN;
  base_type_info := {| tds_type := DT_DecimalN; ti_length := 17; type_info_variant := VarLenPrecisionScale VL_DecimalN 17 10 2 |};
  cipher_algorithm_id := 2; cipher_algorithm_name := None; encryption_type := 1; normalization_rule_version := 1 |}.

(** 12.50, and 1.5, which is read as 0.15. *)
Definition sample_amount : DecimalParts := DecimalParts_new true 10 2 1250.
Definition sample_short : DecimalParts := DecimalParts_new true 2 1 15.

Lemma encrypted_cell_reads_back_witness :
  (exists blob, encrypt_cell_value (Ok (replicate 16 (byte_of 3))) (Decimal sample_amount) sample_cek 2 1 1 = Ok (Some blob) /\
    decrypt_cell sample_crypto_metadata sample_cek blob = Ok (Decimal sample_amount)) /\
  (exists blob, encrypt_cell_value (Ok (replicate 16 (byte_of 3))) (Decimal sample_short) sample_cek 2 1 1 = Ok (Some blob) /\
    decrypt_cell sample_crypto_metadata sample_cek blob = Ok (Decimal (DecimalParts_new true 10 2 15))).
Proof.
  split.
  - destruct (encrypted_cell_reads_back (Ok (replicate 16 (byte_of 3))) (Decimal sample_amount) sample_crypto_metadata sample_cek
      eq_refl eq_refl eq_refl eq_refl (or_introl eq_refl)) as (H & _ & _).
    destruct H as [H Hs]; [split_and!; [by right|done|split; vm_compute; split; congruence]|]. rewrite Hs in H by done.
    eexists. split; [vm_compute; reflexivity|exact H].
  - destruct (encrypted_cell_reads_back (Ok (replicate 16 (byte_of 3))) (Decimal sample_short) sample_crypto_metadata sample_cek
      eq_refl eq_refl eq_refl eq_refl (or_introl eq_refl)) as (H & _ & _).
    destruct H as [H _]; [split_and!; [by right|done|split; vm_compute; split; congruence]|].
    eexists. split; [vm_compute; reflexivity|exact H].
Defined.
