(* ===== verification/Bulk.v ===== *)
(** * Bulk load (src/mssql-tds/src/message/bulk_load.rs and datatypes/bulk_copy_metadata.rs)

    The description of a destination column, made from the server's column metadata, and the writer
    that streams a bulk load: COLMETADATA with the key table of Always Encrypted, rows whose cells are
    encrypted where their column is, and DONE.  What is streamed is read back by the parsers of
    COLMETADATA and of values. *)

From stdpp Require Import strings.
From S2P Require Import Prelude Core ReadBuffer Transport Framing Unicode PacketReader Reader ReaderLaws Decimal PacketWriter Writer WriterText WriterMessage.
From S2P Require Import Tokens TokenParsers TokenLaws DataTypes ColMetadata Values Plp PlpLaws Decoder DecoderLaws ColMetadataLaws.
From S2P Require Import NarrowText ValueSerializer ValueWriting ValueRoundTrip VariantRoundTrip ValueLaws.
From S2P Require Import SqlIdentifier Text SqlTypes SqlTypeLaws CellEncryption.

(** ** Column descriptions *)

Inductive SqlDbType :=
  | Db_BigInt | Db_Int | Db_SmallInt | Db_TinyInt | Db_Bit | Db_Float | Db_Real | Db_Decimal | Db_Numeric | Db_Money
  | Db_SmallMoney | Db_Date | Db_DateTime | Db_DateTime2 | Db_DateTimeOffset | Db_SmallDateTime | Db_Time | Db_Char
  | Db_VarChar | Db_Text | Db_NChar | Db_NVarChar | Db_NText | Db_Binary | Db_VarBinary | Db_Image | Db_UniqueIdentifier
  | Db_Xml | Db_Variant | Db_Udt | Db_Json | Db_Vector.

#[export] Instance SqlDbType_eq_dec : EqDecision SqlDbType.
Proof. solve_decision. Defined.

Definition to_tds_type (t : SqlDbType) : Z :=
  match t with
  | Db_TinyInt | Db_SmallInt | Db_Int | Db_BigInt => 0x26
  | Db_Bit => 0x68
  | Db_Real | Db_Float => 0x6D
  | Db_Decimal => 0x6A
  | Db_Numeric => 0x6C
  | Db_Money | Db_SmallMoney => 0x6E
  | Db_Date => 0x28
  | Db_Time => 0x29
  | Db_DateTime => 0x6F
  | Db_DateTime2 => 0x2A
  | Db_DateTimeOffset => 0x2B
  | Db_SmallDateTime => 0x6F
  | Db_Char => 0xAF
  | Db_VarChar => 0xA7
  | Db_Text => 0x23
  | Db_NChar => 0xEF
  | Db_NVarChar => 0xE7
  | Db_NText => 0x63
  | Db_Binary => 0xAD
  | Db_VarBinary => 0xA5
  | Db_Image => 0x22
  | Db_UniqueIdentifier => 0x24
  | Db_Xml => 0xF1
  | Db_Json => 0xF4
  | Db_Variant => 0x62
  | Db_Udt => 0xF0
  | Db_Vector => 0xF5
  end.

(** XML and JSON go as NVARCHAR(MAX), a CLR value as VARBINARY(MAX). *)
Definition to_bulk_copy_tds_type (t : SqlDbType) : Z :=
  match t with
  | Db_Xml => 0xE7
  | Db_Json => 0xE7
  | Db_Udt => 0xA5
  | _ => to_tds_type t
  end.

Definition to_tds_type_fixed (t : SqlDbType) : Z :=
  match t with
  | Db_TinyInt => 0x30
  | Db_SmallInt => 0x34
  | Db_Int => 0x38
  | Db_BigInt => 0x7F
  | Db_Bit => 0x32
  | Db_Real => 0x3B
  | Db_Float => 0x3E
  | _ => to_tds_type t
  end.

(** [TryFrom<SystemTypeId>]. *)
Definition SqlDbType_try_from (id : Z) : TdsResult SqlDbType :=
  match id with
  | 48 => Ok Db_TinyInt
  | 52 => Ok Db_SmallInt
  | 56 => Ok Db_Int
  | 127 => Ok Db_BigInt
  | 106 => Ok Db_Decimal
  | 108 => Ok Db_Numeric
  | 122 => Ok Db_SmallMoney
  | 60 => Ok Db_Money
  | 104 => Ok Db_Bit
  | 59 => Ok Db_Real
  | 62 => Ok Db_Float
  | 40 => Ok Db_Date
  | 41 => Ok Db_Time
  | 42 => Ok Db_DateTime2
  | 43 => Ok Db_DateTimeOffset
  | 58 => Ok Db_SmallDateTime
  | 61 => Ok Db_DateTime
  | 167 => Ok Db_VarChar
  | 175 => Ok Db_Char
  | 35 => Ok Db_Text
  | 231 => Ok Db_NVarChar
  | 239 => Ok Db_NChar
  | 99 => Ok Db_NText
  | 165 => Ok Db_VarBinary
  | 173 => Ok Db_Binary
  | 34 => Ok Db_Image
  | 36 => Ok Db_UniqueIdentifier
  | 241 => Ok Db_Xml
  | _ => Err (UsageError "Unsupported system_type_id")
  end.

(** The encoding of a column's text. *)
Inductive BulkEncodingType := BE_Utf8 | BE_Utf16Le | BE_Latin1 | BE_CodePage (cp : Z).

Definition BulkEncodingType_encode (e : BulkEncodingType) (s : str) : bytes :=
  match e with
  | BE_Utf8 | BE_CodePage _ => as_bytes s
  | BE_Utf16Le => units_le (utf16 s)
  | BE_Latin1 => (fun c => byte_of (if c <? 256 then c else 63)) <$> s
  end.

Definition byte_length (e : BulkEncodingType) (s : str) : nat :=
  match e with
  | BE_Utf8 | BE_Latin1 | BE_CodePage _ => str_len s
  | BE_Utf16Le => str_len s * 2
  end.

Inductive TypeLength := TL_Fixed (len : Z) | TL_Variable (len : Z) | TL_Plp | TL_Unknown.

Definition TypeLength_is_plp (l : TypeLength) : bool := match l with TL_Plp => true | _ => false end.
Definition max_length (l : TypeLength) : option Z :=
  match l with TL_Fixed len | TL_Variable len => Some len | TL_Plp | TL_Unknown => None end.

Record BulkCopyColumnEncryption := { be_crypto : CryptoMetadata; be_cek_entry : CekTableEntry }.

Record BulkCopyColumnMetadata := {
  bc_column_name : str;
  bc_sql_type : SqlDbType;
  bc_tds_type : Z;
  bc_length : Z;
  bc_length_type : TypeLength;
  bc_precision : Z;
  bc_scale : Z;
  bc_collation : option SqlCollation;
  bc_collation_name : option str;
  bc_encoding : option BulkEncodingType;
  bc_is_nullable : bool;
  bc_is_identity : bool;
  bc_is_encrypted : bool;
  bc_table_name : option str;
  bc_encryption : option BulkCopyColumnEncryption;
}.

#[export] Instance BulkCopyColumnMetadata_eta : Eta BulkCopyColumnMetadata := fun c =>
  Build_BulkCopyColumnMetadata (bc_column_name c) (bc_sql_type c) (bc_tds_type c) (bc_length c) (bc_length_type c)
    (bc_precision c) (bc_scale c) (bc_collation c) (bc_collation_name c) (bc_encoding c) (bc_is_nullable c)
    (bc_is_identity c) (bc_is_encrypted c) (bc_table_name c) (bc_encryption c).

Definition BulkCopyColumnMetadata_new (column_name : str) (sql_type : SqlDbType) (tds_type : Z) : BulkCopyColumnMetadata :=
  {| bc_column_name := column_name; bc_sql_type := sql_type; bc_tds_type := tds_type; bc_length := 0;
     bc_length_type := TL_Fixed 0; bc_precision := 0; bc_scale := 0; bc_collation := None; bc_collation_name := None;
     bc_encoding := None; bc_is_nullable := true; bc_is_identity := false; bc_is_encrypted := false;
     bc_table_name := None; bc_encryption := None |}.

Definition needs_collation (c : BulkCopyColumnMetadata) : bool :=
  match bc_sql_type c with
  | Db_Char | Db_VarChar | Db_Text | Db_NChar | Db_NVarChar | Db_NText => true
  | _ => false
  end.

Definition bc_is_plp (c : BulkCopyColumnMetadata) : bool := TypeLength_is_plp (bc_length_type c).

(** [length as usize] of an [i32]. *)
Definition i32_as_usize (z : Z) : Z := z mod 2 ^ 64.

Definition vector_dimensions (c : BulkCopyColumnMetadata) : TdsResult Z :=
  if negb (bool_decide (bc_sql_type c = Db_Vector)) then Err (UsageError "Column is not a VECTOR type")
  else
    let? base_type := VectorBaseType_try_from (bc_scale c) in
    let elem_size := element_size_bytes base_type in
    let length := i32_as_usize (bc_length c) in
    if length <? VECTOR_HEADER_SIZE then Err (UsageError "Invalid VECTOR metadata length")
    else
      let payload_bytes := length - VECTOR_HEADER_SIZE in
      if negb (payload_bytes mod elem_size =? 0)
      then Err (UsageError "Invalid VECTOR metadata length: payload not divisible by element size")
      else Ok (payload_bytes / elem_size).

(** [Display] of an [i32]. *)
Definition display_i32 (z : Z) : str := if z <? 0 then lit "-" ++ display (- z) else display z.

(** [name(n)]. *)
Definition sized_type (name : string) (n : Z) : str := lit name ++ lit "(" ++ display_i32 n ++ lit ")".

Definition max_or_sized (name : string) (c : BulkCopyColumnMetadata) (n : Z) : str :=
  if bc_is_plp c then lit name ++ lit "(max)" else sized_type name n.

(** A length in bytes is halved for NCHAR and NVARCHAR; [/] on [i32] rounds to zero. *)
Definition get_sql_type_definition (c : BulkCopyColumnMetadata) : TdsResult str :=
  match bc_sql_type c with
  | Db_Int => Ok (lit "int")
  | Db_BigInt => Ok (lit "bigint")
  | Db_SmallInt => Ok (lit "smallint")
  | Db_TinyInt => Ok (lit "tinyint")
  | Db_Bit => Ok (lit "bit")
  | Db_Decimal | Db_Numeric => Ok (lit "decimal(" ++ display (bc_precision c) ++ lit ", " ++ display (bc_scale c) ++ lit ")")
  | Db_Float => Ok (lit "float")
  | Db_Real => Ok (lit "real")
  | Db_Money => Ok (lit "money")
  | Db_SmallMoney => Ok (lit "smallmoney")
  | Db_NVarChar => Ok (max_or_sized "nvarchar" c (Z.quot (bc_length c) 2))
  | Db_NChar => Ok (sized_type "nchar" (Z.quot (bc_length c) 2))
  | Db_VarChar => Ok (max_or_sized "varchar" c (bc_length c))
  | Db_Char => Ok (sized_type "char" (bc_length c))
  | Db_VarBinary => Ok (max_or_sized "varbinary" c (bc_length c))
  | Db_Binary => Ok (sized_type "binary" (bc_length c))
  | Db_UniqueIdentifier => Ok (lit "uniqueidentifier")
  | Db_DateTime => Ok (lit "datetime")
  | Db_SmallDateTime => Ok (lit "smalldatetime")
  | Db_Date => Ok (lit "date")
  | Db_Time => Ok (sized_type "time" (bc_scale c))
  | Db_DateTime2 => Ok (sized_type "datetime2" (bc_scale c))
  | Db_DateTimeOffset => Ok (sized_type "datetimeoffset" (bc_scale c))
  | Db_Text => Ok (lit "text")
  | Db_NText => Ok (lit "ntext")
  | Db_Image => Ok (lit "image")
  | Db_Xml => Ok (lit "xml")
  | Db_Udt => Ok (max_or_sized "varbinary" c (bc_length c))
  | Db_Variant => Ok (lit "sql_variant")
  | Db_Json => Ok (lit "nvarchar(max)")
  | Db_Vector =>
      let? dims := vector_dimensions c in
      let? base := VectorBaseType_try_from (bc_scale c) in
      match base with
      | Float32 => Ok (lit "vector(" ++ display dims ++ lit ")")
      | Float16 => Ok (lit "vector(" ++ display dims ++ lit ", float16)")
      end
  end.

(** The SQL type of a column as the server describes it. *)
Definition sql_type_of (col : ColumnMetadata) : SqlDbType :=
  let var_len := match type_info_variant (type_info col) with VarLen _ len => Some len | _ => None end in
  match data_type col with
  | DT_Int8 => Db_BigInt
  | DT_Int4 => Db_Int
  | DT_IntN =>
      match var_len with
      | Some 1 => Db_TinyInt | Some 2 => Db_SmallInt | Some 4 => Db_Int | Some 8 => Db_BigInt | _ => Db_Int
      end
  | DT_Int2 => Db_SmallInt
  | DT_Int1 => Db_TinyInt
  | DT_Bit | DT_BitN => Db_Bit
  | DT_Flt8 => Db_Float
  | DT_Flt4 => Db_Real
  | DT_FltN => match var_len with Some 4 => Db_Real | _ => Db_Float end
  | DT_Money => Db_Money
  | DT_Money4 => Db_SmallMoney
  | DT_MoneyN => match var_len with Some 4 => Db_SmallMoney | _ => Db_Money end
  | DT_DateTime => Db_DateTime
  | DT_DateTim4 => Db_SmallDateTime
  | DT_DateTimeN => match var_len with Some 4 => Db_SmallDateTime | _ => Db_DateTime end
  | DT_DateN => Db_Date
  | DT_TimeN => Db_Time
  | DT_DateTime2N => Db_DateTime2
  | DT_DateTimeOffsetN => Db_DateTimeOffset
  | DT_BigChar => Db_Char
  | DT_BigVarChar | DT_VarChar => Db_VarChar
  | DT_Text => Db_Text
  | DT_NChar => Db_NChar
  | DT_NVarChar => Db_NVarChar
  | DT_NText => Db_NText
  | DT_Binary | DT_BigBinary => Db_Binary
  | DT_BigVarBinary | DT_VarBinary => Db_VarBinary
  | DT_Image => Db_Image
  | DT_Guid => Db_UniqueIdentifier
  | DT_DecimalN | DT_Decimal => Db_Decimal
  | DT_NumericN | DT_Numeric => Db_Numeric
  | DT_Xml => Db_Xml
  | DT_Json => Db_Json
  | DT_Udt => Db_Udt
  | DT_SsVariant => Db_Variant
  | DT_Vector => Db_Vector
  | _ => Db_VarChar
  end.

(** [VariableLengthTypes as i32]: the byte of the type. *)
Definition VariableLengthTypes_u8 (t : VariableLengthTypes) : Z :=
  TdsDataType_u8
    match t with
    | VL_Guid => DT_Guid | VL_IntN => DT_IntN | VL_BitN => DT_BitN | VL_Decimal => DT_Decimal | VL_Numeric => DT_Numeric
    | VL_DecimalN => DT_DecimalN | VL_NumericN => DT_NumericN | VL_FltN => DT_FltN | VL_MoneyN => DT_MoneyN
    | VL_DateTimeN => DT_DateTimeN | VL_DateN => DT_DateN | VL_TimeN => DT_TimeN | VL_DateTime2N => DT_DateTime2N
    | VL_DateTimeOffsetN => DT_DateTimeOffsetN | VL_Char => DT_Char | VL_VarChar => DT_VarChar | VL_Binary => DT_Binary
    | VL_VarBinary => DT_VarBinary | VL_BigVarBinary => DT_BigVarBinary | VL_BigVarChar => DT_BigVarChar
    | VL_BigBinary => DT_BigBinary | VL_BigChar => DT_BigChar | VL_NVarChar => DT_NVarChar | VL_NChar => DT_NChar
    | VL_Text => DT_Text | VL_Image => DT_Image | VL_NText => DT_NText | VL_SsVariant => DT_SsVariant | VL_Vector => DT_Vector
    end.

(** Length, length type, precision and scale.  The length of a decimal is the first field of its variant, which is the type. *)
Definition extents_of (ti : TypeInfo) : Z * TypeLength * Z * Z :=
  match type_info_variant ti with
  | FixedLen t => let len := FixedLengthTypes_get_len t in (len, TL_Fixed len, 0, 0)
  | VarLen _ len => let len := as_i32 len in (len, TL_Variable len, 0, 0)
  | VarLenString _ max_len _ =>
      if max_len =? 65535 then (-1, TL_Plp, 0, 0) else let len := as_i32 max_len in (len, TL_Variable len, 0, 0)
  | VarLenScale _ scale => let len := as_i32 (ti_length ti) in (len, TL_Variable len, 0, scale)
  | VarLenPrecisionScale len _ precision scale =>
      (VariableLengthTypes_u8 len, TL_Variable (VariableLengthTypes_u8 len), precision, scale)
  | PartialLen _ unknown_len _ _ _ =>
      match unknown_len with
      | None | Some 65535 => (-1, TL_Plp, 0, 0)
      | Some len => (as_i32 len, TL_Plp, 0, 0)
      end
  end.

Definition json_collation : SqlCollation := {| info := 0; lcid_language_id := 0; col_flags := 0; sort_id := 0 |}.

(** [From<&ColumnMetadata>]. *)
Definition BulkCopyColumnMetadata_from (col : ColumnMetadata) : BulkCopyColumnMetadata :=
  let sql_type := sql_type_of col in
  let '(length, type_length, precision, scale) := extents_of (type_info col) in
  let metadata := (BulkCopyColumnMetadata_new (column_name col) sql_type (to_bulk_copy_tds_type sql_type))
                    {{ bc_length := length }} {{ bc_length_type := type_length }} {{ bc_is_nullable := is_nullable col }} in
  let metadata := if (0 <? precision) || (0 <? scale)
                  then metadata {{ bc_precision := precision }} {{ bc_scale := scale }} else metadata in
  let metadata := match get_collation col with
                  | Some collation => metadata {{ bc_collation := Some collation }}
                  | None =>
                      if bool_decide (sql_type = Db_Json) then metadata {{ bc_collation := Some json_collation }} else metadata
                  end in
  let metadata := if is_identity col then metadata {{ bc_is_identity := true }} else metadata in
  if is_encrypted col then metadata {{ bc_is_encrypted := true }} else metadata.

(** ** The writer *)


Record StreamingBulkLoadWriter := {
  bl_writer : PacketWriter;
  bl_table_name : str;
  bl_columns : list BulkCopyColumnMetadata;
  bl_default_collation : SqlCollation;
  metadata_written : bool;
  rows_written : Z;
  column_contexts : list TdsTypeContext;
  first_row_column_count : option nat;
  column_encryption_enabled : bool;
  emitted_cek_table : list CekTableEntry;
  plaintext_ceks : list (option bytes);
  allow_encrypted_value_modifications : bool;
}.

#[export] Instance StreamingBulkLoadWriter_eta : Eta StreamingBulkLoadWriter := fun s =>
  Build_StreamingBulkLoadWriter (bl_writer s) (bl_table_name s) (bl_columns s) (bl_default_collation s)
    (metadata_written s) (rows_written s) (column_contexts s) (first_row_column_count s) (column_encryption_enabled s)
    (emitted_cek_table s) (plaintext_ceks s) (allow_encrypted_value_modifications s).


(** An operation of [self.packet_writer]. *)
Definition on_writer {A} (op : M PacketWriter A) : M StreamingBulkLoadWriter A :=
  fun s => let '(r, w) := op (bl_writer s) in (r, s {{ bl_writer := w }}).


#[export] Instance byte_eq_decision : EqDecision byte := Byte.byte_eq_dec.


















(** ** Rows *)

(** What the platform's generator answers when the cell of a row (by the rows before it) and a column asks. *)
Class RandomSource := { random_iv : Z -> nat -> TdsResult bytes }.

(** The trait [BulkLoadRow]: a row writes its columns and counts them. *)
Class BulkLoadRow (Row : Type) := {
  write_to_packet : Row -> nat -> M StreamingBulkLoadWriter nat;
}.

Definition column_out_of_bounds : Error := UsageError "Column index out of bounds".

Section rows.
Context `{rs : EncodingRs} `{narrow : HalfCrateNarrow} `{crypto : CryptoBackend} `{random : RandomSource}.

Definition try_encrypt_cell (s : StreamingBulkLoadWriter) (column_index : nat) (value : ColumnValues)
    : TdsResult (option ColumnValues) :=
  match bl_columns s !! column_index with
  | None => Ok None
  | Some c =>
      match bc_encryption c with
      | None => Ok None
      | Some enc =>
          match plaintext_ceks s !! column_index with
          | Some (Some cek) =>
              let crypto := be_crypto enc in
              let? ciphertext := encrypt_cell_value (random_iv (rows_written s) column_index) value cek
                                   (cipher_algorithm_id crypto) (encryption_type crypto)
                                   (normalization_rule_version crypto) in
              Ok (Some (match ciphertext with Some bs => CBytes bs | None => Null end))
          | _ => Err (ColumnEncryptionError "Missing plaintext column encryption key for encrypted column")
          end
      end
  end.

(** A value under the context of its column. *)
Definition write_in_context (s : StreamingBulkLoadWriter) (column_index : nat) (value : ColumnValues)
    : M StreamingBulkLoadWriter unit :=
  match column_contexts s !! column_index with
  | None => throw column_out_of_bounds
  | Some ctx => on_writer (serialize_value value ctx)
  end.

(** A vector has to have the base type and the dimensions of its column. *)
Definition check_vector (c : BulkCopyColumnMetadata) (ctx : TdsTypeContext) (vector : SqlVector) : TdsResult unit :=
  if negb (ctx_tds_type ctx =? TdsDataType_u8 DT_Vector)
  then Err (TypeConversionError "Vector value cannot be written to non-vector column")
  else
    let? declared := VectorBaseType_try_from (bc_scale c) in
    if negb (VectorBaseType_u8 (base_type vector) =? VectorBaseType_u8 declared)
    then Err (TypeConversionError "Vector base type mismatch")
    else
      let? dimensions := vector_dimensions c in
      if negb (element_count vector =? dimensions) then Err (TypeConversionError "Vector dimension mismatch") else Ok tt.

Definition write_raw_bytes (bs : bytes) : M StreamingBulkLoadWriter unit := on_writer (write_async bs).

Definition is_ciphertext (value : ColumnValues) : bool := match value with CBytes _ | Null => true | _ => false end.

Definition write_column_value (column_index : nat) (value : ColumnValues) : M StreamingBulkLoadWriter unit :=
  s <- gets id ;;
  let column := bl_columns s !! column_index in
  if allow_encrypted_value_modifications s && match column with Some c => bool_decide (is_Some (bc_encryption c)) | None => false end
  then
    if negb (is_ciphertext value)
    then throw (UsageError "allow_encrypted_value_modifications requires already-encrypted varbinary ciphertext")
    else write_in_context s column_index value
  else
    encrypted <- lift (if column_encryption_enabled s then try_encrypt_cell s column_index value else Ok None) ;;
    match encrypted with
    | Some encrypted => write_in_context s column_index encrypted
    | None =>
        match column_contexts s !! column_index with
        | None => throw column_out_of_bounds
        | Some ctx =>
            (match value with
             | Vector vector =>
                 match column with
                 | Some c => lift (check_vector c ctx vector)
                 | None => panic "index out of bounds"
                 end
             | _ => ret tt
             end) ;;
            on_writer (serialize_value value ctx)
        end
    end.



End rows.

(** ** What a bulk load appends *)









(** ** COLMETADATA *)

















(** ** The key table *)























(** ** Columns *)













(** ** Rows *)

(** A row that is a list of values writes them in order. *)
Section values.
Context `{rs : EncodingRs} `{narrow : HalfCrateNarrow} `{crypto : CryptoBackend} `{random : RandomSource}.

Fixpoint write_values (row : list ColumnValues) (column_index : nat) : M StreamingBulkLoadWriter nat :=
  match row with
  | [] => ret column_index
  | v :: row => write_column_value column_index v ;; write_values row (S column_index)
  end.

#[export] Instance values_row : BulkLoadRow (list ColumnValues) := {| write_to_packet := write_values |}.

End values.


Section rows_laws.
Context `{rs : EncodingRs} `{narrow : HalfCrateNarrow} `{half : HalfCrate} `{crypto : CryptoBackend} `{random : RandomSource}.
Context {claws : CryptoLaws}.
Context {R : Type} {delivers : R -> bytes -> Prop} `{laws : PacketReaderLaws R delivers}.
Context (fuel : nat) (Hfuel : (2 <= fuel)%nat).



















(** ** A reader of the stream *)











End rows_laws.

(** ** A load of one row into an INT column and an encrypted one *)

#[local] Instance sample_half : HalfCrate := {| f16_to_f32 := id |}.
#[local] Instance sample_narrow : HalfCrateNarrow := {| f32_to_f16 := id |}.
#[local] Existing Instances sample_rs sample_crypto sample_crypto_laws.
#[local] Instance sample_random : RandomSource := {| random_iv row column := Ok (replicate 16 (byte_of 3)) |}.













